(* ===== verification/_CoqProject ===== *)
-Q . S2P
Prelude.v
Paths.v
Errors.v
Modes.v
Blob.v
BlobSpec.v
BlobThms.v
Record.v
Txn.v
KVFile.v
KVFS.v
Mem.v
StoreSpec.v
MemSpec.v
FSSpec.v
TreeFS.v
TreeOps.v
FileSpec.v
FileIO.v
TreeRename.v
FSRun.v
TreeInv.v
DirSpec.v
FileRun.v
SerialSpec.v
KVThms.v
HackFS.v
Mount.v
Frames.v
CopySpec.v
MountSpec.v
MountThms.v
OsPath.v
OsThms.v
Conc.v
PathLock.v
PubSub.v
BufferPool.v
Cache.v
CacheThms.v
TarFS.v
TarThms.v
TarRun.v
S3.v
S3Thms.v
BlobIO.v
IdbBlob.v
IdbThms.v
IdbStore.v
IdbFS.v
IdbView.v
IdbRun.v
IdbSet.v
IdbDemo.v
IdbStoreThms.v
Testing.v
FSTest.v
FSTestFS.v
FSTestFile.v
MemHack.v
TestLogic.v
FSTestThms.v
Conform.v
CacheHack.v
Prog.v
Sched.v
KVProg.v
KVConc.v
KVConcThms.v
KVConcFile.v
KVConcHist.v
KVConcDemo.v
TopCalls.v
FSTestConc.v
MemSteps.v
ConcLogic.v
ConcConform.v
FileTasks.v
FileConform.v
