(* ===== verification/Prelude.v ===== *)
(** * hackpadfs: a verification library

    hackpadfs is a Go library of file systems: small interfaces that a file
    system may implement, helper functions that use whatever of them a value
    has, and file systems built on them: in memory, on any key-value store, on
    the operating system, in a browser, mounted on each other, cached, or
    unpacked from an archive.  This development models its code as functions in
    a state monad and proves what the code promises.

    ** How the code is written here

    A Go function is a value of [M S A], a function from a state to an outcome
    and a state; the outcome is a value, a panic, a goroutine that is blocked
    for ever, or fuel that ran out.  Errors are values of [Errors.error], a nil
    error is [None]; a pair of results is a pair.  An [int64] is a [Z] whose
    additions wrap around ([add64]); a mode is a [Z] below 2^32; bytes are
    lists of [Byte.byte]; a path is a [string].  Maps are [gmap]s, and a range
    over a map visits it in an order that the class [GoRuntime] leaves open, as
    it does the capacity that [append] chooses.  A value with optional methods
    is a record of options.  What is shared is in the state: slices are windows
    on arrays of a heap, mutexes have a state of their own, records and blobs
    have addresses.  Code of several goroutines is a step function, and its
    theorems are about every interleaving.

    ** The parts, and the files that model them

    - Common to all: [Prelude] (the monad, integers, byte lists, tactics),
      [Paths] (Go's [path], [strings] and [io/fs.ValidPath]; the theory of valid
      paths), [Errors] (errors.go, internal/fserrors, mount.go), [Modes]
      (file.go), [Frames] (what a computation leaves alone).
    - keyvalue/blob: [Blob] (bytes.go, blob.go), [BlobSpec] and [BlobThms] (what
      each operation does, on any heap that is well formed), [BlobIO] (io.go).
    - keyvalue: [Record] (record.go), [Txn] (store.go, txn_store.go,
      fs_txns.go), [KVFile] (file.go, file_rwonly.go), [KVFS] (fs.go).
    - mem: [Mem] (store.go, fs.go).
    - What connects them: [StoreSpec] states what a store promises as the class
      [LawfulStore]; [MemSpec] shows that the store of mem keeps it, [SerialSpec]
      that every plain store does under serial transactions.  [FSSpec],
      [FileSpec], [FileIO], [TreeFS], [TreeOps], [TreeRename] and [DirSpec] are
      about the key-value file system on any such store: the abstract file
      system is a map from paths to nodes.  [FSRun], [FileRun] and [TreeInv]
      lift them to histories of calls, and [KVThms] has the properties.
    - The same file system under goroutines: [Prog] (calls as sequences of atomic
      steps, and rules of rely and guarantee for them), [KVProg] (the methods of
      fs.go and file.go in steps; a step is a transaction or a method of a blob
      or record, and the steps in a row are the method), [KVConc] (what each
      step does while others change the tree), [KVConcThms] (the theorems),
      [KVConcFile] (what the methods of open files do while others work on files
      of their own), [KVConcHist] (histories of open files side by side) and
      [KVConcDemo] (races on mem.FS, and the witnesses).  [Sched] runs
      goroutines under a scheduler.
    - The root package, mount and sub.go: [HackFS] (the helpers of fs.go and
      file.go), [Mount] (mount/fs.go, sub.go), [CopySpec], [MountSpec] and
      [MountThms].
    - os: [OsPath] and [OsThms] (path.go, fs.go, file.go, errors_windows.go);
      package [os] itself is the class [OS].
    - cache: [Cache] and [CacheThms] (fs.go, dir.go), with [PathLock] for
      internal/pathlock.
    - tar: [TarFS], [TarThms] and [TarRun] (fs.go), [PubSub] (pubsub.go),
      [BufferPool] (bufferpool.go); [Conc] has goroutines and schedules.
    - examples/s3: [S3] and [S3Thms]; the client library is the class [Client].
    - indexeddb: [IdbBlob] and [IdbThms] (idbblob/blob.go; JavaScript arrays are
      the class [JSArrays]); [IdbStore] (store.go, transaction.go, fs.go; the
      browser and its client library are the class [IndexedDB]), [IdbView] (the
      contract of the browser), [IdbRun], [IdbSet] and [IdbStoreThms]; [IdbDemo]
      is a browser to evaluate the theorems on; [IdbFS] has the methods of fs.go.
    - The conformance suite: [Testing] (package testing and internal/assert),
      [FSTest] (options, runner and assertions of fstest), [FSTestFS] (fs.go),
      [FSTestFile] (file.go, and the lists of all tests).  [MemHack] has mem.FS
      and internal/mounttest as values of [hackpadfs.FS]; [TestLogic] is a
      program logic of tests, [FSTestThms] applies it to every test.  [Conform]
      runs the suite on mem and mount, [CacheHack] on the cache.
    - Its concurrent tests: [FSTestConc] (fs_concurrent.go, file_concurrent.go: a
      goroutine alternates between assertions and the steps of a call, which the
      class [Steps] gives), [MemSteps] (the steps of mem.FS, from [KVProg]),
      [TopCalls] (calls about names in the root, by the rules of [KVConc]),
      [ConcLogic] (a program logic for tests that start goroutines),
      [ConcConform] (those of fs_concurrent.go on mem.FS), [FileTasks] and
      [FileConform] (those of file_concurrent.go, and the whole suite).

    ** What the theorems show

    - Refinement: any legal history of calls on a new [mem.FS] answers as the
      abstract file system; an open file answers as bytes with an offset; a
      store without transactions is as good as one with them; a blob of the
      browser is a list of bytes.
    - Invariants: a tree hangs together; heaps of blobs stay well formed; no two
      goroutines hold one path; what the cache has seen it keeps; a finished
      archive has been read to its end.
    - Functional behaviour, errors included: what Rename, Remove, MkdirAll and
      ReadDir do; a failed call changes nothing; the mount point is the longest
      prefix; helpers follow mounts; errors name what the client named.
    - Round trips: paths of the operating system, keys of objects, what is
      written is read, what is stored in a bucket or in a browser is loaded.
    - Termination and bounds: locks, the pool and the archive reader come to an
      end in every interleaving, no wake-up is lost, at most so many buffers
      exist, and unpacking takes six steps for each entry and seven.
    - Concurrency: calls of [Mkdir], [MkdirAll], [Remove] and [OpenFile] from any
      number of goroutines end without a panic in every interleaving and keep a
      file system; as long as nobody removes, nothing vanishes and the tree
      hangs together; calls about unrelated paths answer as each would alone; and
      files that are open in one goroutine each are bytes with an offset there.
      What two calls about one path can do to each other is shown on mem.FS.
      A run under a scheduler is an interleaving, and each is one.
    - Conformance: mem.FS, mount.FS and the cache pass the whole sequential
      suite, with the tests skipped that they list; mem.FS also passes the tests
      that run goroutines, under every scheduler.
      On any file system the suite reports exactly the tests that were skipped,
      and fails when one of its tests does; what its assertion about path errors
      accepts is exactly what it says.  And what the suite does not see: modes
      under the default mask, and all of [ReadAt].
    - Flaws: theorems whose names say what goes wrong (a blob that deadlocks on
      its own view, an error of the archive that is lost, a listing whose pages
      never end, a directory in a bucket that cannot be removed, a slice whose
      two copies differ).

    ** Fuel

    Recursion that Go does not bound takes fuel, and a theorem says how much is
    enough: [Rename] the height of the subtree, [findMissingDirs] is structural
    on the elements of the path, following mounts one for each mount on the way,
    [io.Copy] one more than there are bytes, waiting for the browser one for
    each request and one for the end.  Steps of goroutines need none: theorems
    speak of every schedule and bound its length.  A scheduler runs as many steps
    as it is given fuel for; 252 are enough for each group of goroutines of the
    suite.

    ** Parameters

    The scheduler ([Scheduler]) and the steps of the calls of a file system
    ([Steps]) where goroutines run, package [os] ([OS]), the client of the object store and the format of times
    ([Client], [TimeFormat]), JavaScript arrays and the browser ([JSArrays],
    [IndexedDB]), what [archive/tar] delivers (a list of entries), the function
    [RetainData] of the cache, the file systems below a mount or a cache, and
    what Go leaves to its runtime ([GoRuntime]).  What a theorem needs of them is
    a class ([LawfulStore], [LawfulClient], [LawfulJS], [LawfulIDB]) or a
    hypothesis; each has an instance that its witnesses are evaluated on.

    ** Not modelled

    - Of the suite: the order in which parallel tests interleave (they run as
      they are started), the benchmarks, the arguments of messages.
    - No theorem is about every interleaving of [Rename], [Chmod] and [Chtimes],
      of [ReadDir], or of a file that several goroutines write; their steps are
      there, and runs of them that go wrong.
      [KVProg] takes a transaction as one step, which is so for stores whose
      transactions exclude each other, as those of mem do with their mutex.
    - [WalkDir] and [Glob]-like helpers that only call the standard library.
    - [Sys] values of file infos, and the text of errors that the packages do
      not make themselves.
    - What indexeddb's [FS] does on its own store: the records of the key-value
      file system have the blobs of [Blob], not those of the browser, so that
      [IdbFS] has any store with such a database in its state.
    - [io.Copy] through [ReadFrom] or [WriteTo] of a file.
    - Times are numbers of nanoseconds; zones and the monotonic clock are not
      modelled, and neither are finalizers and data races on Go memory that the
      code does not guard. *)
From Stdlib Require Export ZArith Lia.
From stdpp Require Export base option list list_numbers strings gmap fin_maps.

#[global] Set Default Goal Selector "!".

(** ** Outcomes of running Go code

    A Go call returns, panics, or blocks for ever on a mutex that its own
    goroutine holds; recursive routines that are run on fuel can also run out
    of it.  The state is kept in every case: a panic does not undo what was
    done before it. *)
Inductive outcome (A : Type) : Type :=
  | Ret (a : A)
  | Panic (why : string)
  | Blocked
  | OutOfFuel.
Arguments Ret {A} a.
Arguments Panic {A} why.
Arguments Blocked {A}.
Arguments OutOfFuel {A}.

(** Stateful code is a function from a state to an outcome and a state. *)
Definition M (S A : Type) : Type := S -> outcome A * S.

Definition ret {S A} (a : A) : M S A := fun s => (Ret a, s).

Definition bind {S A B} (m : M S A) (k : A -> M S B) : M S B := fun s =>
  match m s with
  | (Ret a, s') => k a s'
  | (Panic e, s') => (Panic e, s')
  | (Blocked, s') => (Blocked, s')
  | (OutOfFuel, s') => (OutOfFuel, s')
  end.

Definition panic {S A} (why : string) : M S A := fun s => (Panic why, s).
Definition blocked {S A} : M S A := fun s => (Blocked, s).
Definition out_of_fuel {S A} : M S A := fun s => (OutOfFuel, s).
Definition gets {S A} (f : S -> A) : M S A := fun s => (Ret (f s), s).
Definition modify {S} (f : S -> S) : M S unit := fun s => (Ret tt, f s).

(** Run code on a part of a bigger state. *)
Definition zoom {S T A} (get : T -> S) (put : S -> T -> T) (m : M S A) : M T A :=
  fun t => let '(r, s') := m (get t) in (r, put s' t).

Declare Scope go_scope.
Delimit Scope go_scope with go.
Notation "x <- m ;; k" := (bind m (fun x => k))
  (at level 60, m at next level, k at level 200, right associativity) : go_scope.
Notation "'let*' p ':=' m 'in' k" := (bind m (fun x => match x with p => k end))
  (at level 10, p strict pattern, m at level 100, k at level 200) : go_scope.
Notation "m ;;; k" := (bind m (fun _ => k))
  (at level 60, k at level 200, right associativity) : go_scope.
#[global] Open Scope go_scope.

(** *** Equations of the monad, one per outcome of its first part *)
Section monad.
Context {S A B : Type}.
Implicit Types (m : M S A) (k : A -> M S B) (s : S).

Lemma bind_Ret m k s a s' : m s = (Ret a, s') -> bind m k s = k a s'.
Proof. unfold bind. by intros ->. Qed.
Lemma bind_Panic m k s e s' : m s = (Panic e, s') -> bind m k s = (Panic e, s').
Proof. unfold bind. by intros ->. Qed.
Lemma bind_Blocked m k s s' : m s = (Blocked, s') -> bind m k s = (Blocked, s').
Proof. unfold bind. by intros ->. Qed.
Lemma bind_OutOfFuel m k s s' :
  m s = (OutOfFuel, s') -> bind m k s = (OutOfFuel, s').
Proof. unfold bind. by intros ->. Qed.
Lemma bind_ret_l (a : A) k s : bind (ret a) k s = k a s.
Proof. reflexivity. Qed.
Lemma bind_gets (f : S -> A) k s : bind (gets f) k s = k (f s) s.
Proof. reflexivity. Qed.
Lemma bind_modify (f : S -> S) (k : unit -> M S B) s :
  bind (modify f) k s = k tt (f s).
Proof. reflexivity. Qed.

(** Inversion: a composite call that returns had a first part that did. *)
Lemma bind_inv_Ret m k s b s' :
  bind m k s = (Ret b, s') ->
  exists a s1, m s = (Ret a, s1) /\ k a s1 = (Ret b, s').
Proof. unfold bind. destruct (m s) as [[a|e| |] s1]; naive_solver. Qed.
End monad.

Lemma bind_assoc {S A B C} (m : M S A) (k : A -> M S B) (h : B -> M S C) s :
  bind (bind m k) h s = bind m (fun a => bind (k a) h) s.
Proof. unfold bind. by destruct (m s) as [[?|?| |] ?]. Qed.

Lemma bind_ext {S A B} (m : M S A) (k h : A -> M S B) s :
  (forall a s', k a s' = h a s') -> bind m k s = bind m h s.
Proof. intros E. unfold bind. destruct (m s) as [[?|?| |] ?]; [apply E|done..]. Qed.

(** [run H] replaces the first part of the call in the goal by what the
    equation [H] says it does. *)
Ltac run H :=
  first [ rewrite (bind_Ret _ _ _ _ _ H)
        | rewrite (bind_Panic _ _ _ _ _ H)
        | rewrite (bind_Blocked _ _ _ _ H)
        | rewrite (bind_OutOfFuel _ _ _ _ H)
        | rewrite H ]; cbv beta iota zeta.

(** [go_simpl] takes the steps that only read the state or return. *)
Ltac go_simpl :=
  repeat first
    [ rewrite bind_assoc | rewrite bind_ret_l | rewrite bind_gets
    | rewrite bind_modify ]; cbv beta iota zeta.

(** ** Machine integers

    Go's [int64] (and [int] on the 64-bit platforms) is a [Z] in
    [[-2^63, 2^63)]; addition and subtraction wrap around. *)
Definition int64_min : Z := - 2 ^ 63.
Definition int64_max : Z := 2 ^ 63 - 1.
Definition is_int64 (z : Z) : Prop := (int64_min <= z <= int64_max)%Z.
#[global] Instance is_int64_dec z : Decision (is_int64 z).
Proof. unfold is_int64. apply _. Defined.
Definition wrap64 (z : Z) : Z := ((z + 2 ^ 63) `mod` 2 ^ 64 - 2 ^ 63)%Z.
Definition add64 (x y : Z) : Z := wrap64 (x + y).
Definition sub64 (x y : Z) : Z := wrap64 (x - y).

Lemma wrap64_id z : is_int64 z -> wrap64 z = z.
Proof.
  unfold is_int64, wrap64, int64_min, int64_max. intros ?.
  rewrite Z.mod_small; lia.
Qed.
Lemma add64_id x y : is_int64 (x + y) -> add64 x y = (x + y)%Z.
Proof. apply wrap64_id. Qed.
Lemma sub64_id x y : is_int64 (x - y) -> sub64 x y = (x - y)%Z.
Proof. apply wrap64_id. Qed.
Lemma wrap64_range z : is_int64 (wrap64 z).
Proof.
  unfold is_int64, wrap64, int64_min, int64_max.
  pose proof (Z.mod_pos_bound (z + 2 ^ 63) (2 ^ 64)). lia.
Qed.

(** Closes goals about concrete bounds of 64-bit integers. *)
Ltac int64 := unfold is_int64, int64_min, int64_max in *; lia.

(** ** What Go leaves to its runtime

    [append] may give a reallocated slice any capacity that fits, and a range
    over a map visits its entries in any order. *)
Class GoRuntime := {
  growcap : nat -> nat -> nat;
  growcap_ge old needed : needed <= growcap old needed;
  range_order : forall {V : Type}, gmap string V -> list (string * V);
  range_order_perm {V} (m : gmap string V) : range_order m ≡ₚ map_to_list m
}.

(** A runtime to evaluate the definitions on. *)
Definition simple_runtime : GoRuntime.
Proof.
  refine {| growcap old needed := Nat.max (2 * old) needed;
            range_order V m := map_to_list m |}; [intros; lia|done].
Defined.

(** ** Lists used as byte buffers *)
Abbreviation byte := Byte.byte.
Abbreviation zero := Byte.x00.


(** [copy_into dst src]: what Go's [copy(dst, src)] leaves in [dst]. *)
Definition copy_into {A} (dst src : list A) : list A :=
  take (length dst) src ++ drop (length src) dst.

(** [splice l off src] overwrites [l] from [off] on with [src]; used where
    [src] fits. *)
Definition splice {A} (l : list A) (off : nat) (src : list A) : list A :=
  take off l ++ src ++ drop (off + length src) l.

Section lists.
Context {A : Type}.
Implicit Types (l src dst : list A).

Lemma length_copy_into dst src : length (copy_into dst src) = length dst.
Proof. unfold copy_into. rewrite length_app, length_take, length_drop. lia. Qed.

Lemma length_splice l off src :
  off + length src <= length l -> length (splice l off src) = length l.
Proof.
  unfold splice. intros ?.
  rewrite !length_app, length_take, length_drop. lia.
Qed.

Lemma splice_read l off src :
  off + length src <= length l ->
  take (length src) (drop off (splice l off src)) = src.
Proof.
  unfold splice. intros ?.
  rewrite drop_app_length' by (rewrite length_take; lia).
  by rewrite take_app_length.
Qed.

(** Reading a window that the write does not touch. *)
Lemma splice_lookup_out l off src i :
  off + length src <= length l ->
  (i < off \/ off + length src <= i) ->
  splice l off src !! i = l !! i.
Proof.
  unfold splice. intros Hlen [Hi|Hi].
  - rewrite lookup_app_l by (rewrite length_take; lia).
    by apply lookup_take_lt.
  - rewrite lookup_app_r by (rewrite length_take; lia).
    rewrite length_take, lookup_app_r by lia.
    rewrite lookup_drop. f_equal. lia.
Qed.

Lemma splice_lookup_in l off src i :
  off + length src <= length l ->
  off <= i < off + length src ->
  splice l off src !! i = src !! (i - off).
Proof.
  unfold splice. intros Hlen Hi.
  rewrite lookup_app_r by (rewrite length_take; lia).
  rewrite length_take, lookup_app_l by lia. f_equal. lia.
Qed.

Lemma splice_nil l off : splice l off [] = l.
Proof. unfold splice. simpl. by rewrite Nat.add_0_r, take_drop. Qed.

(** Writing inside a window of a list is writing in what the window shows. *)
Lemma window_splice l off len i src :
  off + len <= length l -> i + length src <= len ->
  take len (drop off (splice l (off + i) src)) = splice (take len (drop off l)) i src.
Proof.
  intros Hl Hs. apply list_eq. intros k.
  destruct (decide (k < len)) as [Hk|Hk].
  - rewrite lookup_take_lt, lookup_drop by done.
    assert (Hw : length (take len (drop off l)) = len)
      by (rewrite length_take, length_drop; lia).
    destruct (decide (i <= k < i + length src)) as [Hin|Hout].
    + rewrite !splice_lookup_in by lia. f_equal. lia.
    + rewrite !splice_lookup_out by lia.
      by rewrite lookup_take_lt, lookup_drop by done.
  - rewrite !lookup_ge_None_2; [done|..].
    + rewrite length_splice; rewrite length_take, length_drop; lia.
    + rewrite length_take. lia.
Qed.

(** Writing outside a window leaves what it shows. *)
Lemma window_splice_out l off len i src :
  i + length src <= length l -> (i + length src <= off \/ off + len <= i) ->
  take len (drop off (splice l i src)) = take len (drop off l).
Proof.
  intros Hl Hs. apply list_eq. intros k.
  destruct (decide (k < len)) as [Hk|Hk].
  - rewrite !lookup_take_lt, !lookup_drop by done. apply splice_lookup_out; lia.
  - rewrite !lookup_ge_None_2; [done|rewrite length_take; lia..].
Qed.

Lemma splice_app_end l src : splice (l ++ src) (length l) src = l ++ src.
Proof.
  unfold splice. rewrite take_app_length, drop_ge; [by rewrite app_nil_r|].
  rewrite length_app. lia.
Qed.

Lemma copy_into_fits dst src :
  length src <= length dst -> copy_into dst src = splice dst 0 src.
Proof.
  intros ?. unfold copy_into, splice. by rewrite take_ge by lia.
Qed.

Lemma copy_into_full dst src : length dst = length src -> copy_into dst src = src.
Proof. intros Hl. unfold copy_into. rewrite Hl, take_ge, drop_ge by lia. apply app_nil_r. Qed.
End lists.

(** ** Hint databases of the development

    [go_wf] holds the lemmas that say an operation keeps the invariant of its
    component; [go_eq] the equations that describe operations. *)
Create HintDb go_wf discriminated.
Create Rewrite HintDb go_eq.
#[export] Hint Resolve wrap64_range : go_wf.
#[export] Hint Rewrite @length_copy_into : go_eq.

(** Case analysis on the boolean test in the goal, with its meaning. *)
Ltac zbool :=
  repeat match goal with
  | |- context [Z.ltb ?a ?b] => destruct (Z.ltb_spec a b)
  | |- context [Z.leb ?a ?b] => destruct (Z.leb_spec a b)
  | |- context [Z.eqb ?a ?b] => destruct (Z.eqb_spec a b)
  end; try lia.
