(* ===== verification/Paths.v ===== *)
(** * Paths: slash-separated names

    What the packages use of Go's [path], [strings], [unicode/utf8] and
    [io/fs.ValidPath], and the theory of valid paths as lists of elements that
    every other file builds on. *)
From S2P Require Import Prelude.
From Stdlib Require Import Ascii.

Local Open Scope string_scope.
Local Open Scope list_scope.
#[global] Arguments String.append : simpl nomatch.
#[global] Arguments Ascii.eqb : simpl never.

Abbreviation slash := ("/"%char).

(** ** Go's [strings] *)

Fixpoint contains_char (c : ascii) (s : string) : bool :=
  match s with
  | "" => false
  | String c' s' => Ascii.eqb c c' || contains_char c s'
  end.

(** [strip_prefix pre s = Some r] when [s = pre ++ r]. *)
Fixpoint strip_prefix (pre s : string) : option string :=
  match pre, s with
  | "", _ => Some s
  | String c pre', String c' s' => if Ascii.eqb c c' then strip_prefix pre' s' else None
  | _, _ => None
  end.

Definition HasPrefix (s pre : string) : bool :=
  match strip_prefix pre s with Some _ => true | None => false end.
Definition TrimPrefix (s pre : string) : string :=
  match strip_prefix pre s with Some r => r | None => s end.

Fixpoint string_rev (s acc : string) : string :=
  match s with "" => acc | String c s' => string_rev s' (String c acc) end.
Definition rev_string (s : string) : string := string_rev s "".

Definition HasSuffix (s suf : string) : bool :=
  HasPrefix (rev_string s) (rev_string suf).
Definition TrimSuffix (s suf : string) : string :=
  if HasSuffix s suf then rev_string (TrimPrefix (rev_string s) (rev_string suf)) else s.

(** [TrimLeft]/[TrimRight] with a cutset of one character. *)
Fixpoint TrimLeft (s : string) (c : ascii) : string :=
  match s with
  | String c' s' => if Ascii.eqb c c' then TrimLeft s' c else s
  | "" => ""
  end.
Definition TrimRight (s : string) (c : ascii) : string :=
  rev_string (TrimLeft (rev_string s) c).

(** [ReplaceAll] of one character by another. *)
Fixpoint ReplaceAll (s : string) (old new : ascii) : string :=
  match s with
  | "" => ""
  | String c s' => String (if Ascii.eqb c old then new else c) (ReplaceAll s' old new)
  end.

(** ** [utf8.ValidString] as an automaton over the bytes *)
Inductive utf8_state :=
  | U0 | U1 | U2 | U3 | UE0 | UED | UF0 | UF4.

Definition utf8_in (lo hi b : nat) : bool := Nat.leb lo b && Nat.leb b hi.

Definition utf8_step (q : utf8_state) (c : ascii) : option utf8_state :=
  let b := nat_of_ascii c in
  match q with
  | U0 =>
      if Nat.ltb b 128 then Some U0
      else if utf8_in 194 223 b then Some U1
      else if Nat.eqb b 224 then Some UE0
      else if Nat.eqb b 237 then Some UED
      else if utf8_in 225 239 b then Some U2
      else if Nat.eqb b 240 then Some UF0
      else if utf8_in 241 243 b then Some U3
      else if Nat.eqb b 244 then Some UF4
      else None
  | U1 => if utf8_in 128 191 b then Some U0 else None
  | U2 => if utf8_in 128 191 b then Some U1 else None
  | U3 => if utf8_in 128 191 b then Some U2 else None
  | UE0 => if utf8_in 160 191 b then Some U1 else None
  | UED => if utf8_in 128 159 b then Some U1 else None
  | UF0 => if utf8_in 144 191 b then Some U2 else None
  | UF4 => if utf8_in 128 143 b then Some U2 else None
  end.

Fixpoint utf8_run (q : utf8_state) (s : string) : option utf8_state :=
  match s with
  | "" => Some q
  | String c s' => match utf8_step q c with Some q' => utf8_run q' s' | None => None end
  end.

Definition ValidString (s : string) : bool :=
  match utf8_run U0 s with Some U0 => true | _ => false end.

(** ** Elements of a path *)
Fixpoint split_slash (s : string) : list string :=
  match s with
  | "" => [""]
  | String c s' =>
      if Ascii.eqb c slash then "" :: split_slash s'
      else match split_slash s' with
           | e :: es => String c e :: es
           | [] => [String c ""]
           end
  end.

Fixpoint join_slash (es : list string) : string :=
  match es with
  | [] => ""
  | [e] => e
  | e :: es' => e +:+ "/" +:+ join_slash es'
  end.

(** ** [io/fs.ValidPath], which [hackpadfs.ValidPath] calls *)
Definition valid_elem (e : string) : bool :=
  negb (String.eqb e "" || String.eqb e "." || String.eqb e "..").

Definition ValidPath (name : string) : bool :=
  ValidString name &&
  (String.eqb name "." || forallb valid_elem (split_slash name)).

(** ** Go's [path] *)

(** The loop of [path.Clean]: [out] holds the elements kept so far, last
    first; [".."] backs up over a kept element that is not [".."] itself. *)
Fixpoint clean_loop (rooted : bool) (out es : list string) : list string :=
  match es with
  | [] => rev out
  | e :: es' =>
      if String.eqb e "" || String.eqb e "." then clean_loop rooted out es'
      else if String.eqb e ".." then
        match out with
        | x :: out' =>
            if String.eqb x ".." then clean_loop rooted (e :: out) es'
            else clean_loop rooted out' es'
        | [] => clean_loop rooted (if rooted then [] else [e]) es'
        end
      else clean_loop rooted (e :: out) es'
  end.

Definition Clean (p : string) : string :=
  if String.eqb p "" then "."
  else if HasPrefix p "/" then "/" +:+ join_slash (clean_loop true [] (split_slash p))
  else match clean_loop false [] (split_slash p) with
       | [] => "."
       | out => join_slash out
       end.

(** [path.Split]: the directory part keeps its final slash. *)
Fixpoint Split (p : string) : string * string :=
  match p with
  | "" => ("", "")
  | String c p' =>
      let '(d, f) := Split p' in
      if String.eqb d "" then
        if Ascii.eqb c slash then ("/", f) else ("", String c f)
      else (String c d, f)
  end.

Definition Dir (p : string) : string := Clean (fst (Split p)).

Definition Base (p : string) : string :=
  if String.eqb p "" then "."
  else let f := snd (Split (TrimRight p slash)) in
       if String.eqb f "" then "/" else f.

Fixpoint drop_empty (es : list string) : list string :=
  match es with
  | e :: es' => if String.eqb e "" then drop_empty es' else es
  | [] => []
  end.

Definition Join (es : list string) : string :=
  match drop_empty es with
  | [] => ""
  | es' => Clean (join_slash es')
  end.

(** ** The elements of a valid path

    ["."] is the path with no elements. *)
Definition elems (p : string) : list string :=
  if String.eqb p "." then [] else split_slash p.
Definition of_elems (es : list string) : string :=
  match es with [] => "." | _ => join_slash es end.

(** A name that may be an element of a path: what [ValidPath] asks of it. *)
Definition good_elem (e : string) : bool :=
  valid_elem e && ValidString e && negb (contains_char slash e).

(** ** Strings *)
Section strings.
Implicit Types (s a b pre : string).

Lemma app_assoc_s a b s : (a +:+ b) +:+ s = a +:+ (b +:+ s).
Proof. induction a; simpl; congruence. Qed.
Lemma app_nil_r_s a : a +:+ "" = a.
Proof. induction a; simpl; congruence. Qed.

Lemma strip_prefix_Some pre s r : strip_prefix pre s = Some r <-> s = pre +:+ r.
Proof.
  revert s. induction pre as [|c pre IH]; intros s; simpl; [split; congruence|].
  destruct s as [|c' s]; simpl; [split; congruence|].
  destruct (Ascii.eqb_spec c c') as [->|]; [rewrite IH|]; split; congruence.
Qed.
Lemma strip_prefix_app pre r : strip_prefix pre (pre +:+ r) = Some r.
Proof. by apply strip_prefix_Some. Qed.
Lemma TrimPrefix_app pre r : TrimPrefix (pre +:+ r) pre = r.
Proof. unfold TrimPrefix. by rewrite strip_prefix_app. Qed.
Lemma HasPrefix_spec s pre : HasPrefix s pre = true <-> exists r, s = pre +:+ r.
Proof.
  unfold HasPrefix. destruct (strip_prefix pre s) eqn:E.
  - apply strip_prefix_Some in E. naive_solver.
  - split; [done|]. intros [r ->]. by rewrite strip_prefix_app in E.
Qed.
Lemma HasPrefix_app pre r : HasPrefix (pre +:+ r) pre = true.
Proof. apply HasPrefix_spec. eauto. Qed.

Lemma string_rev_app s a b : string_rev s (a +:+ b) = string_rev s a +:+ b.
Proof. revert a. induction s as [|c s IH]; intros a; simpl; [done|apply (IH (String c a))]. Qed.
Lemma string_rev_comp a b s : string_rev (a +:+ b) s = string_rev b (string_rev a s).
Proof. revert s. induction a as [|c a IH]; intros s; simpl; [done|apply IH]. Qed.
Lemma rev_string_app a b : rev_string (a +:+ b) = rev_string b +:+ rev_string a.
Proof.
  unfold rev_string. rewrite string_rev_comp.
  by rewrite <- (string_rev_app b "" (string_rev a "")).
Qed.
Lemma rev_string_involutive s : rev_string (rev_string s) = s.
Proof.
  induction s as [|c s IH]; [done|].
  change (String c s) with (String c "" +:+ s).
  by rewrite !rev_string_app, IH.
Qed.
Lemma TrimSuffix_app a b : TrimSuffix (a +:+ b) b = a.
Proof.
  unfold TrimSuffix, HasSuffix.
  by rewrite rev_string_app, HasPrefix_app, TrimPrefix_app, rev_string_involutive.
Qed.

Lemma contains_char_app c a b :
  contains_char c (a +:+ b) = contains_char c a || contains_char c b.
Proof. induction a as [|x a IH]; simpl; [done|]. by rewrite IH, orb_assoc. Qed.

Lemma utf8_run_app q a b :
  utf8_run q (a +:+ b) = match utf8_run q a with Some q' => utf8_run q' b | None => None end.
Proof.
  revert q. induction a as [|c a IH]; intros q; simpl; [done|].
  destruct (utf8_step q c); [apply IH|done].
Qed.

(** An ASCII separator splits the validity of a string in two. *)
Lemma ValidString_slash a b :
  ValidString (a +:+ "/" +:+ b) = ValidString a && ValidString b.
Proof.
  unfold ValidString. rewrite utf8_run_app.
  destruct (utf8_run U0 a) as [[]|]; done.
Qed.
End strings.

(** ** Splitting and joining *)
Section split_join.
Implicit Types (s e : string) (es : list string).

Lemma split_slash_app_slash s e :
  contains_char slash e = false -> split_slash (e +:+ "/" +:+ s) = e :: split_slash s.
Proof.
  induction e as [|c e IH]; simpl in *; [done|].
  intros [Hc He]%orb_false_iff. rewrite Ascii.eqb_sym, Hc. by rewrite IH.
Qed.
Lemma split_slash_elem e :
  contains_char slash e = false -> split_slash e = [e].
Proof.
  induction e as [|c e IH]; simpl; [done|].
  intros [Hc He]%orb_false_iff. rewrite Ascii.eqb_sym, Hc. by rewrite IH.
Qed.

Lemma split_join es :
  es <> [] -> Forall (fun e => contains_char slash e = false) es ->
  split_slash (join_slash es) = es.
Proof.
  intros Hne Hall. induction Hall as [|e es He Hes IH]; [done|].
  destruct es as [|e' es]; [by apply split_slash_elem|].
  change (join_slash (e :: e' :: es)) with (e +:+ "/" +:+ join_slash (e' :: es)).
  rewrite split_slash_app_slash by done. by rewrite IH.
Qed.

Lemma split_slash_nil s : split_slash s <> [].
Proof. induction s; simpl; [done|]. repeat case_match; done. Qed.

Lemma split_slash_append s t :
  split_slash (s +:+ "/" +:+ t) = (split_slash s ++ split_slash t)%list.
Proof.
  induction s as [|c s IH]; [done|]. simpl in *. rewrite IH.
  destruct (Ascii.eqb c slash); [done|].
  pose proof (split_slash_nil s). by destruct (split_slash s).
Qed.
Lemma split_slash_cons s :
  (contains_char slash s = false /\ split_slash s = [s]) \/
  exists e s', s = e +:+ "/" +:+ s' /\ contains_char slash e = false /\
               split_slash s = e :: split_slash s'.
Proof.
  induction s as [|c s IH]; [by left|]. simpl.
  destruct (Ascii.eqb_spec c slash) as [->|Hc].
  - right. by exists "", s.
  - rewrite Ascii.eqb_sym. destruct (Ascii.eqb_spec c slash); [done|].
    destruct IH as [[Hs ->]|(e & s' & -> & He & ->)]; [by left|].
    right. exists (String c e), s'. simpl. rewrite He, Ascii.eqb_sym.
    by destruct (Ascii.eqb_spec c slash).
Qed.

Lemma split_slash_no_slash s :
  Forall (fun e => contains_char slash e = false) (split_slash s).
Proof.
  remember (String.length s) as n eqn:Hn. revert s Hn.
  induction (lt_wf n) as [n _ IH]. intros s ->.
  destruct (split_slash_cons s) as [[Hs ->]|(e & s' & -> & He & ->)]; [by constructor|].
  constructor; [done|]. eapply IH; [|done].
  clear. induction e; simpl in *; lia.
Qed.

Lemma join_split s : join_slash (split_slash s) = s.
Proof.
  induction s as [|c s IH]; simpl; [done|].
  pose proof (split_slash_nil s).
  destruct (Ascii.eqb_spec c slash) as [->|].
  - destruct (split_slash s) as [|e es]; [done|].
    change (join_slash ("" :: e :: es)) with ("/" +:+ join_slash (e :: es)).
    by rewrite IH.
  - destruct (split_slash s) as [|e [|e' es]]; [done| |]; simpl in *; congruence.
Qed.

Lemma join_slash_app es es' :
  es <> [] -> es' <> [] ->
  join_slash (es ++ es') = join_slash es +:+ "/" +:+ join_slash es'.
Proof.
  intros Hes Hes'. induction es as [|e es IH]; [done|].
  destruct es as [|e' es]; [by destruct es'|].
  change (join_slash ((e :: e' :: es) ++ es'))
    with (e +:+ "/" +:+ join_slash ((e' :: es) ++ es')).
  rewrite IH by done.
  change (join_slash (e :: e' :: es)) with (e +:+ "/" +:+ join_slash (e' :: es)).
  by rewrite !app_assoc_s.
Qed.
End split_join.

(** ** Valid paths are lists of good elements *)
Abbreviation good_elems es := (Forall (fun e => good_elem e = true) es).

Section valid_paths.
Implicit Types (p s e d f : string) (es : list string).

Lemma good_elem_spec e :
  good_elem e = true <->
  e <> "" /\ e <> "." /\ e <> ".." /\ ValidString e = true /\ contains_char slash e = false.
Proof.
  unfold good_elem, valid_elem.
  destruct (String.eqb_spec e ""), (String.eqb_spec e "."), (String.eqb_spec e "..");
    simpl; [split; [discriminate|tauto]..|].
  destruct (ValidString e), (contains_char slash e); simpl; intuition discriminate.
Qed.

Lemma good_elems_no_slash es :
  good_elems es -> Forall (fun e => contains_char slash e = false) es.
Proof. intros Hg. eapply Forall_impl; [exact Hg|]. intros e He%good_elem_spec. tauto. Qed.

Lemma ValidString_join es :
  ValidString (join_slash es) = forallb ValidString es.
Proof.
  induction es as [|e es IH]; [done|].
  destruct es as [|e' es]; [simpl; by rewrite andb_true_r|].
  change (join_slash (e :: e' :: es)) with (e +:+ "/" +:+ join_slash (e' :: es)).
  rewrite ValidString_slash, IH. done.
Qed.

Lemma forallb_Forall_true {A} (f : A -> bool) (l : list A) :
  forallb f l = true <-> Forall (fun x => f x = true) l.
Proof. by rewrite forallb_forall, Forall_forall; setoid_rewrite list_elem_of_In. Qed.

Lemma elems_join es : es <> [] -> good_elems es -> elems (join_slash es) = es.
Proof.
  intros Hne Hg. pose proof (split_join es Hne (good_elems_no_slash es Hg)) as Hs.
  unfold elems. destruct (String.eqb_spec (join_slash es) ".") as [E|]; [|done].
  rewrite E in Hs. simpl in Hs. subst es.
  apply Forall_cons in Hg as [Hg _]. by apply good_elem_spec in Hg as (? & ? & _).
Qed.

Lemma elems_of_elems es : good_elems es -> elems (of_elems es) = es.
Proof. destruct es; [done|]. by apply elems_join. Qed.

Lemma ValidPath_of_elems es : good_elems es -> ValidPath (of_elems es) = true.
Proof.
  intros Hg. destruct es as [|e es]; [done|]. unfold ValidPath, of_elems.
  rewrite ValidString_join, split_join by (done || by apply good_elems_no_slash).
  rewrite !(proj2 (forallb_Forall_true _ _)); [by rewrite orb_true_r|..];
    (eapply Forall_impl; [exact Hg|]); intros x; unfold good_elem; intros H; simpl in H;
    apply andb_true_iff in H as [[]%andb_true_iff _]; done.
Qed.

Lemma ValidPath_elems p :
  ValidPath p = true -> good_elems (elems p) /\ of_elems (elems p) = p.
Proof.
  unfold ValidPath, elems. intros [Hv Hp]%andb_true_iff.
  destruct (String.eqb_spec p ".") as [->|Hdot]; [done|]. simpl in Hp.
  pose proof (join_split p) as Hj. pose proof (split_slash_nil p).
  split.
  - rewrite <- Hj, ValidString_join in Hv.
    apply forallb_Forall_true in Hv, Hp.
    pose proof (split_slash_no_slash p) as Hs.
    apply Forall_forall. intros e He. rewrite Forall_forall in Hv, Hp, Hs.
    unfold good_elem. by rewrite Hp, Hv, Hs.
  - destruct (split_slash p); [done|]. exact Hj.
Qed.

(** Every valid path is ["."] or a path with a last element. *)
Lemma ValidPath_cases p :
  ValidPath p = true ->
  p = "." \/ exists es e, good_elems es /\ good_elem e = true /\
    elems p = es ++ [e] /\ p = of_elems (es ++ [e]) /\ p <> ".".
Proof.
  intros [Hg Hp]%ValidPath_elems.
  remember (elems p) as l eqn:E. symmetry in E.
  induction l as [|e es _] using rev_ind; [by left|].
  right. apply Forall_app in Hg as [Hes He]. exists es, e.
  rewrite Forall_singleton in He. split_and!; [done..|].
  intros ->. by destruct es.
Qed.

Lemma elems_nil p : ValidPath p = true -> elems p = [] <-> p = ".".
Proof.
  intros [_ Hp]%ValidPath_elems. split; [|by intros ->]. intros E. by rewrite E in Hp.
Qed.

Lemma elems_inj p p' :
  ValidPath p = true -> ValidPath p' = true -> elems p = elems p' -> p = p'.
Proof. intros [_ H1]%ValidPath_elems [_ H2]%ValidPath_elems E. by rewrite <- H1, <- H2, E. Qed.

(** *** [Split], [Clean], [Dir], [Base] and [Join] on valid paths *)
Lemma Split_no_slash e : contains_char slash e = false -> Split e = ("", e).
Proof.
  induction e as [|c e IH]; simpl; [done|]. intros [Hc He]%orb_false_iff.
  rewrite IH by done. simpl. by rewrite Ascii.eqb_sym, Hc.
Qed.
Lemma Split_slash d e :
  contains_char slash e = false -> Split (d +:+ "/" +:+ e) = (d +:+ "/", e).
Proof.
  intros He. induction d as [|c d IH].
  - simpl. rewrite Split_no_slash by done. done.
  - simpl in *. rewrite IH. by destruct d.
Qed.

Lemma clean_loop_good rooted out es es' :
  good_elems es -> clean_loop rooted out (es ++ es') = clean_loop rooted (rev es ++ out) es'.
Proof.
  intros Hg. revert out. induction Hg as [|e es He Hg IH]; intros out; [done|].
  apply good_elem_spec in He as (? & ? & ? & _). simpl.
  destruct (String.eqb_spec e ""), (String.eqb_spec e "."), (String.eqb_spec e "..");
    try done. simpl. rewrite IH. by rewrite <- (assoc_L (++)).
Qed.

Lemma HasPrefix_slash_join es s :
  es <> [] -> good_elems es -> HasPrefix (join_slash es +:+ s) "/" = false.
Proof.
  intros Hne Hg. destruct Hg as [|e es He Hg]; [done|].
  apply good_elem_spec in He as (Hn & _ & _ & _ & Hs).
  destruct e as [|c e]; [done|]. simpl in Hs. apply orb_false_iff in Hs as [Hs _].
  destruct es; unfold HasPrefix; simpl; by rewrite Hs.
Qed.

Lemma join_slash_nonempty es : es <> [] -> good_elems es -> join_slash es <> "".
Proof.
  intros Hne Hg. destruct Hg as [|e es He Hg]; [done|].
  apply good_elem_spec in He as (Hn & _). destruct e; [done|]. by destruct es.
Qed.

Lemma Clean_trailing es :
  es <> [] -> good_elems es -> Clean (join_slash es +:+ "/") = join_slash es.
Proof.
  intros Hne Hg. unfold Clean.
  destruct (String.eqb_spec (join_slash es +:+ "/") "") as [E|_].
  { exfalso. by destruct (join_slash es). }
  rewrite HasPrefix_slash_join by done.
  assert (join_slash es +:+ "/" = join_slash (es ++ [""])) as ->.
  { by rewrite join_slash_app. }
  rewrite split_join.
  - rewrite clean_loop_good by done. simpl. rewrite app_nil_r, rev_involutive.
    by destruct es.
  - by destruct es.
  - apply Forall_app. split; [by apply good_elems_no_slash|]. by constructor.
Qed.

Lemma Clean_join es : es <> [] -> good_elems es -> Clean (join_slash es) = join_slash es.
Proof.
  intros Hne Hg. unfold Clean.
  destruct (String.eqb_spec (join_slash es) "") as [E|_].
  { by apply join_slash_nonempty in E. }
  rewrite <- (app_nil_r_s (join_slash es)) at 1. rewrite HasPrefix_slash_join by done.
  rewrite split_join by (done || by apply good_elems_no_slash).
  rewrite <- (app_nil_r es) at 1. rewrite clean_loop_good by done. simpl.
  rewrite app_nil_r, rev_involutive. by destruct es.
Qed.

Lemma Dir_snoc es e : good_elems (es ++ [e]) -> Dir (of_elems (es ++ [e])) = of_elems es.
Proof.
  intros [Hes He]%Forall_app. rewrite Forall_singleton in He.
  apply good_elem_spec in He as (_ & _ & _ & _ & He).
  unfold Dir. destruct es as [|e0 es].
  - simpl. by rewrite Split_no_slash.
  - change (of_elems ((e0 :: es) ++ [e])) with (join_slash ((e0 :: es) ++ [e])).
    rewrite join_slash_app by done. simpl join_slash at 2.
    rewrite Split_slash by done. unfold fst. by rewrite Clean_trailing.
Qed.

Lemma Dir_valid p : ValidPath p = true -> ValidPath (Dir p) = true.
Proof.
  intros Hp. destruct (ValidPath_cases p Hp) as [->|(es & e & Hes & He & _ & -> & _)]; [done|].
  rewrite Dir_snoc by (apply Forall_app; by rewrite Forall_singleton).
  by apply ValidPath_of_elems.
Qed.

Lemma elems_Dir p es e :
  ValidPath p = true -> elems p = es ++ [e] -> elems (Dir p) = es.
Proof.
  intros [Hg Hp]%ValidPath_elems E. rewrite E in Hg, Hp. rewrite <- Hp, Dir_snoc by done.
  apply Forall_app in Hg as [??]. by apply elems_of_elems.
Qed.

Lemma length_elems_Dir p :
  ValidPath p = true -> p <> "." -> length (elems p) = S (length (elems (Dir p))).
Proof.
  intros Hp Hd. destruct (ValidPath_cases p Hp) as [->|(es & e & _ & _ & E & _)]; [done|].
  rewrite (elems_Dir p es e), E, length_app by done. simpl. lia.
Qed.

Lemma drop_empty_cons s es : s <> "" -> drop_empty (s :: es) = s :: es.
Proof. intros ?. simpl. by destruct (String.eqb_spec s ""). Qed.

Lemma Join_snoc p e :
  ValidPath p = true -> good_elem e = true ->
  Join [p; e] = of_elems (elems p ++ [e]).
Proof.
  intros [Hg Hp]%ValidPath_elems He. rewrite <- Hp at 1.
  assert (e <> "") as Hne by (by apply good_elem_spec in He as (? & _)).
  destruct (elems p) as [|e0 es] eqn:E.
  - unfold Join. simpl. destruct (String.eqb_spec e ""); [done|].
    apply good_elem_spec in He as (? & ? & ? & _ & Hs).
    unfold Clean. simpl.
    rewrite split_slash_elem by done. simpl.
    destruct (String.eqb_spec e ""), (String.eqb_spec e "."), (String.eqb_spec e "..");
      done.
  - unfold Join.
    rewrite drop_empty_cons by by apply (join_slash_nonempty (e0 :: es)).
    transitivity (Clean (join_slash ((e0 :: es) ++ [e]))).
    + f_equal. by rewrite join_slash_app.
    + apply Clean_join; [done|]. apply Forall_app. by rewrite Forall_singleton.
Qed.

(** Joining two valid paths joins their elements. *)
Lemma clean_loop_valid rooted out p es :
  ValidPath p = true ->
  clean_loop rooted out (split_slash p ++ es) = clean_loop rooted (rev (elems p) ++ out) es.
Proof.
  intros [Hg _]%ValidPath_elems. unfold elems in *.
  destruct (String.eqb_spec p ".") as [->|]; [done|]. by apply clean_loop_good.
Qed.

Lemma Valid_not_rooted p s : ValidPath p = true -> HasPrefix (p +:+ s) "/" = false.
Proof.
  intros Hv. destruct (HasPrefix (p +:+ s) "/") eqn:E; [|done].
  apply HasPrefix_spec in E as [r E]. destruct p as [|c p]; [done|]. injection E as -> _.
  destruct (ValidPath_elems _ Hv) as [Hg _]. unfold elems in Hg. simpl in Hg.
  by apply Forall_cons in Hg as [Hg _].
Qed.

Lemma Join_paths p q :
  ValidPath p = true -> ValidPath q = true -> Join [p; q] = of_elems (elems p ++ elems q).
Proof.
  intros Hp Hq. assert (p <> "") as Hne by by intros ->. unfold Join.
  rewrite drop_empty_cons by done. change (join_slash [p; q]) with (p +:+ "/" +:+ q).
  unfold Clean. rewrite Valid_not_rooted by done.
  destruct (String.eqb_spec (p +:+ "/" +:+ q) "") as [E|_]; [by destruct p|].
  rewrite split_slash_append, clean_loop_valid by done.
  rewrite <- (app_nil_r (split_slash q)), clean_loop_valid by done. simpl.
  rewrite app_nil_r, rev_app_distr, !rev_involutive. by destruct (elems p ++ elems q).
Qed.

Lemma elems_Join_paths p q :
  ValidPath p = true -> ValidPath q = true -> elems (Join [p; q]) = elems p ++ elems q.
Proof.
  intros Hp Hq. rewrite Join_paths by done. apply elems_of_elems. apply Forall_app.
  by apply ValidPath_elems in Hp as [? _], Hq as [? _].
Qed.

Lemma Join_valid p e :
  ValidPath p = true -> good_elem e = true -> ValidPath (Join [p; e]) = true.
Proof.
  intros Hp He. rewrite Join_snoc by done. apply ValidPath_of_elems.
  apply Forall_app. rewrite Forall_singleton. by apply ValidPath_elems in Hp as [? _].
Qed.
Lemma elems_Join p e :
  ValidPath p = true -> good_elem e = true -> elems (Join [p; e]) = elems p ++ [e].
Proof.
  intros Hp He. rewrite Join_snoc by done. apply elems_of_elems.
  apply Forall_app. rewrite Forall_singleton. by apply ValidPath_elems in Hp as [? _].
Qed.
Lemma Dir_Join p e :
  ValidPath p = true -> good_elem e = true -> Dir (Join [p; e]) = p.
Proof.
  intros Hp He. apply elems_inj; [by apply Dir_valid, Join_valid|done|].
  apply (elems_Dir _ _ e); [by apply Join_valid|]. by apply elems_Join.
Qed.
Lemma Join_not_dot p e :
  ValidPath p = true -> good_elem e = true -> Join [p; e] <> ".".
Proof.
  intros Hp He E. apply (f_equal elems) in E. rewrite elems_Join in E by done.
  by destruct (elems p).
Qed.

(** *** [Base] *)
Lemma contains_char_rev c s acc :
  contains_char c (string_rev s acc) = contains_char c s || contains_char c acc.
Proof.
  revert acc. induction s as [|x s IH]; intros acc; simpl; [done|]. rewrite IH. simpl.
  destruct (Ascii.eqb c x), (contains_char c s); done.
Qed.
Lemma TrimRight_elem d e :
  e <> "" -> contains_char slash e = false -> TrimRight (d +:+ e) slash = d +:+ e.
Proof.
  intros Hne He. unfold TrimRight. rewrite rev_string_app.
  assert (Hr : contains_char slash (rev_string e) = false)
    by (unfold rev_string; by rewrite contains_char_rev, He).
  destruct (rev_string e) as [|c r] eqn:E.
  - apply (f_equal rev_string) in E. rewrite rev_string_involutive in E. done.
  - simpl in Hr |- *. apply orb_false_iff in Hr as [-> _].
    change (String c (r +:+ rev_string d)) with (String c r +:+ rev_string d).
    by rewrite <- E, <- rev_string_app, rev_string_involutive.
Qed.
Lemma Base_snoc es e : good_elems (es ++ [e]) -> Base (of_elems (es ++ [e])) = e.
Proof.
  intros [Hes He]%Forall_app. rewrite Forall_singleton in He.
  apply good_elem_spec in He as (Hne & _ & _ & _ & He).
  unfold Base. destruct es as [|e0 es].
  - simpl. destruct (String.eqb_spec e ""); [done|].
    rewrite (TrimRight_elem "" e : _ -> _ -> TrimRight e slash = e), Split_no_slash by done.
    simpl.
    by destruct (String.eqb_spec e "").
  - change (of_elems ((e0 :: es) ++ [e])) with (join_slash ((e0 :: es) ++ [e])).
    rewrite join_slash_app by done. simpl join_slash at 2.
    assert (join_slash (e0 :: es) <> "") by by apply join_slash_nonempty.
    destruct (String.eqb_spec (join_slash (e0 :: es) +:+ "/" +:+ e) "") as [E|_].
    { by destruct (join_slash (e0 :: es)). }
    rewrite <- app_assoc_s, TrimRight_elem, app_assoc_s, Split_slash by done. simpl.
    by destruct (String.eqb_spec e "").
Qed.
Lemma Base_Join p e : ValidPath p = true -> good_elem e = true -> Base (Join [p; e]) = e.
Proof.
  intros Hp He. rewrite Join_snoc by done. apply Base_snoc, Forall_app.
  rewrite Forall_singleton. by apply ValidPath_elems in Hp as [? _].
Qed.

(** A valid path but the root is its directory joined with its base. *)
Lemma Join_Dir_Base p :
  ValidPath p = true -> p <> "." ->
  Join [Dir p; Base p] = p /\ good_elem (Base p) = true.
Proof.
  intros Hp Hd. destruct (ValidPath_cases p Hp) as [->|(es & e & Hes & He & E & -> & _)]; [done|].
  assert (good_elems (es ++ [e])) by (apply Forall_app; by rewrite Forall_singleton).
  rewrite Base_snoc, Dir_snoc by done. split; [|done].
  rewrite Join_snoc, elems_of_elems by (done || by apply ValidPath_of_elems). done.
Qed.
End valid_paths.

#[export] Hint Resolve Dir_valid Join_valid ValidPath_of_elems : go_wf.
