(* ===== verification/Errors.v ===== *)
(** * Errors: the error values of the file systems

    [errors.go], [internal/fserrors/errors.go] and [mount.go]: the sentinels,
    the wrapping errors, [errors.Is] over them, and the rewriting of error
    paths at a mount point. *)
From S2P Require Import Prelude.
From S2P Require Import Paths.
From stdpp Require Import pretty.

Local Open Scope string_scope.

(** An error that is not [nil].  The sentinels of [errors.go] come first, then
    those of the standard library the packages return, then the wrappers;
    [osLinkError] is the [LinkError] of package [os].  [Errno] is a
    [syscall.Errno] of Windows that has no name above, and [mappedErr] is that
    of [os/errors_windows.go]. *)
Inductive error : Type :=
  | ErrInvalid | ErrPermission | ErrExist | ErrNotExist | ErrClosed
  | ErrIsDir | ErrNotDir | ErrNotEmpty | ErrNotImplemented | SkipDir
  | EOF | Canceled | DeadlineExceeded
  | Errorf (format : string) (args : list Z)
  | Errno (n : Z)
  | PathError (Op Path : string) (Err : error)
  | LinkError (Op Old New : string) (Err : error)
  | osLinkError (Op Old New : string) (Err : error)
  | messageError (err : error) (message : string)
  | mappedErr (normalized original : error).

(** Go's [error] interface value; [None] is [nil]. *)
Abbreviation err := (option error).

#[export] Instance error_eq_dec : EqDecision error.
Proof. solve_decision. Defined.

Definition Unwrap (e : error) : option error :=
  match e with
  | PathError _ _ e' | LinkError _ _ _ e' | osLinkError _ _ _ e' | messageError e' _
  | mappedErr _ e' => Some e'
  | _ => None
  end.

(** [syscall.Errno.Is]: of the named error numbers only [ENOTEMPTY] answers to
    another sentinel than itself; of those of Windows the numbers for "access
    denied", "already exists" and "not found" do. *)
Definition errno_Is (e target : error) : bool :=
  match e, target with
  | ErrNotEmpty, ErrExist => true
  | Errno n, ErrPermission => (n =? 5)%Z
  | Errno n, ErrExist => existsb (Z.eqb n) [80; 145; 183]%Z
  | Errno n, ErrNotExist => existsb (Z.eqb n) [2; 3; 53]%Z
  | _, _ => false
  end.

(** [errors.Is] both ways.  [mappedErr] has a method [Is] that asks the target
    about its own error, so that the two change places. *)
Fixpoint is_both (e : error) : error -> bool * bool :=
  fix is_both_e (t : error) : bool * bool :=
    (bool_decide (e = t) || errno_Is e t ||
     match e with
     | PathError _ _ e' | LinkError _ _ _ e' | osLinkError _ _ _ e' | messageError e' _ => fst (is_both e' t)
     | mappedErr normalized original => snd (is_both normalized t) || fst (is_both original t)
     | _ => false
     end,
     bool_decide (e = t) || errno_Is t e ||
     match t with
     | PathError _ _ t' | LinkError _ _ _ t' | osLinkError _ _ _ t' | messageError t' _ => snd (is_both_e t')
     | mappedErr normalized original => fst (is_both_e normalized) || snd (is_both_e original)
     | _ => false
     end).
Definition error_Is (e target : error) : bool := fst (is_both e target).

Definition errors_Is (e : err) (target : error) : bool :=
  match e with Some e => error_Is e target | None => false end.

(** [fmt.Errorf] with one ["%d"] at the end of the format. *)
Definition format_args (format : string) (args : list Z) : string :=
  match args with [z] => format +:+ pretty z | _ => format end.

Fixpoint Error (e : error) : string :=
  match e with
  | ErrInvalid => "invalid argument"
  | ErrPermission => "permission denied"
  | ErrExist => "file already exists"
  | ErrNotExist => "file does not exist"
  | ErrClosed => "file already closed"
  | ErrIsDir => "is a directory"
  | ErrNotDir => "not a directory"
  | ErrNotEmpty => "directory not empty"
  | ErrNotImplemented => "function not implemented"
  | SkipDir => "skip this directory"
  | EOF => "EOF"
  | Canceled => "context canceled"
  | DeadlineExceeded => "context deadline exceeded"
  | Errorf format args => format_args format args
  | Errno n => "winapi error #" +:+ pretty n
  | PathError op path e' => op +:+ " " +:+ path +:+ ": " +:+ Error e'
  | LinkError op old new e' | osLinkError op old new e' =>
      op +:+ " " +:+ old +:+ " " +:+ new +:+ ": " +:+ Error e'
  | messageError e' message => message +:+ ": " +:+ Error e'
  | mappedErr normalized original => Error normalized +:+ ": " +:+ Error original
  end.

(** [fserrors.WithMessage] *)
Definition WithMessage (e : err) (message : string) : err :=
  match e with
  | None => None
  | Some e => Some (messageError e message)
  end.

(** [stripErrPathPrefix]: what a mount does to the paths in the errors of the
    file system mounted there. *)
Definition stripErrPathPrefix (e : err) (name mountSubPath : string) : err :=
  match e with
  | None => None
  | Some e =>
      let prefix := TrimSuffix mountSubPath name in
      match e with
      | PathError op path e' => Some (PathError op (TrimPrefix path prefix) e')
      | LinkError op old new e' =>
          Some (LinkError op (TrimPrefix old prefix) (TrimPrefix new prefix) e')
      | _ => Some e
      end
  end.

(** A call that may return an error, and the rest of a function that returns the
    error at once, with [zero] for its result. *)
Definition try {S A B} (m : M S (A * err)) (zero : B) (k : A -> M S (B * err)) : M S (B * err) :=
  let* (x, e) := m in
  match e with Some e => ret (zero, Some e) | None => k x end.
Definition try_ {S A} (m : M S (A * err)) (k : A -> M S err) : M S err :=
  let* (x, e) := m in
  match e with Some e => ret (Some e) | None => k x end.

(** ** Lemmas *)
Lemma try_run {S A B} (m : M S (A * err)) (zero : B) (k : A -> M S (B * err)) s x s' :
  m s = (Ret (x, None), s') -> try m zero k s = k x s'.
Proof. intros E. unfold try. by run E. Qed.
Lemma try_err {S A B} (m : M S (A * err)) (zero : B) (k : A -> M S (B * err)) s x e s' :
  m s = (Ret (x, Some e), s') -> try m zero k s = (Ret (zero, Some e), s').
Proof. intros E. unfold try. by run E. Qed.
Lemma try__run {S A} (m : M S (A * err)) (k : A -> M S err) s x s' :
  m s = (Ret (x, None), s') -> try_ m k s = k x s'.
Proof. intros E. unfold try_. by run E. Qed.

Lemma is_both_fst e t :
  fst (is_both e t) = bool_decide (e = t) || errno_Is e t ||
    match e with
    | PathError _ _ e' | LinkError _ _ _ e' | osLinkError _ _ _ e' | messageError e' _ => fst (is_both e' t)
    | mappedErr normalized original => snd (is_both normalized t) || fst (is_both original t)
    | _ => false
    end.
Proof. by destruct e, t. Qed.
Lemma is_both_snd e t :
  snd (is_both e t) = bool_decide (e = t) || errno_Is t e ||
    match t with
    | PathError _ _ t' | LinkError _ _ _ t' | osLinkError _ _ _ t' | messageError t' _ => snd (is_both e t')
    | mappedErr normalized original => fst (is_both e normalized) || snd (is_both e original)
    | _ => false
    end.
Proof. by destruct e, t. Qed.

Lemma is_both_swap e : forall t, fst (is_both e t) = snd (is_both t e) /\ snd (is_both e t) = fst (is_both t e).
Proof.
  assert (forall a b : error, bool_decide (a = b) = bool_decide (b = a)) as Hsym
    by (intros; by apply bool_decide_ext).
  induction e as [| | | | | | | | | | | | |f args|n|op p e IHe|op o n e IHe|op o n e IHe|e IHe msg|n IHn o IHo];
    match goal with |- forall t, fst (is_both ?e t) = _ /\ _ =>
      assert (forall t, fst (is_both e t) = snd (is_both t e)) as Hfst;
        [intros t; rewrite (is_both_fst e t), (is_both_snd t e), (Hsym t e); try (by rewrite (proj1 (IHe t)));
         try (by rewrite (proj2 (IHn t)), (proj1 (IHo t))); try done|];
      intros t; split; [apply Hfst|];
      induction t as [| | | | | | | | | | | | |f' args'|n'|op' p' t IHt|op' o' n' t IHt|op' o' n' t IHt|t IHt msg'|n' IHn' o' IHo'];
      match goal with |- snd (is_both ?e ?t) = _ =>
        rewrite (is_both_snd e t), (is_both_fst t e); try rewrite (Hsym e t)
      end; try (by rewrite IHt); try (by rewrite Hfst, IHo'); try done
    end.
Qed.

Lemma error_Is_eq e target :
  error_Is e target =
  bool_decide (e = target) || errno_Is e target ||
  match e with mappedErr normalized _ => error_Is target normalized | _ => false end ||
  match Unwrap e with Some e' => error_Is e' target | None => false end.
Proof.
  unfold error_Is. rewrite is_both_fst. destruct e; simpl Unwrap; rewrite ?orb_false_r; try done.
  by rewrite (proj2 (is_both_swap _ _)), orb_assoc.
Qed.

Lemma error_Is_refl e : error_Is e e = true.
Proof. by rewrite error_Is_eq, bool_decide_eq_true_2. Qed.

Lemma errors_Is_None target : errors_Is None target = false.
Proof. done. Qed.

(** Wrapping keeps what [errors.Is] finds. *)
Lemma error_Is_Unwrap e e' target :
  Unwrap e = Some e' -> error_Is e' target = true -> error_Is e target = true.
Proof.
  intros Hu He. by rewrite error_Is_eq, Hu, He, orb_true_r.
Qed.

Lemma WithMessage_Is e message target :
  errors_Is e target = true -> errors_Is (WithMessage e message) target = true.
Proof.
  destruct e as [e|]; [|done]. by apply (error_Is_Unwrap (messageError e message)).
Qed.

(** A sentinel: an error that wraps nothing. *)
Definition is_sentinel (e : error) : bool :=
  match Unwrap e with None => true | Some _ => false end.

Lemma strip_Is e name sub target :
  is_sentinel target = true ->
  errors_Is (stripErrPathPrefix e name sub) target = errors_Is e target.
Proof.
  intros Ht. destruct e as [e|]; [|done].
  unfold errors_Is, stripErrPathPrefix.
  destruct e; try done; rewrite !(error_Is_eq _ target), !bool_decide_eq_false_2; try done;
    by intros <-.
Qed.

(** The prefix [stripErrPathPrefix] computes is the mount's base directory. *)
Lemma TrimSuffix_Join base name e es :
  ValidPath base = true -> base <> "." -> good_elems (e :: es) ->
  name = of_elems (e :: es) ->
  TrimSuffix (of_elems (elems base ++ e :: es)) name = base +:+ "/".
Proof.
  intros Hb Hne Hg ->. destruct (ValidPath_elems base Hb) as [Hgb Hbe].
  destruct (elems base) as [|b bs] eqn:E.
  { by apply elems_nil in E. }
  change (of_elems ((b :: bs) ++ e :: es)) with (join_slash ((b :: bs) ++ e :: es)).
  rewrite join_slash_app by done. rewrite <- app_assoc_s, TrimSuffix_app.
  change (join_slash (b :: bs)) with (of_elems (b :: bs)). by rewrite Hbe.
Qed.
