(* ===== verification/Modes.v ===== *)
(** * File modes and open flags ([file.go], and Go's [io/fs.FileMode])

    A [FileMode] is an unsigned 32-bit integer, a flag an [int]; both are a
    [Z] here and the code's bit operations are those of [Z]. *)
From S2P Require Import Prelude.

Local Open Scope Z_scope.

(** ** Flags of [OpenFile] (their values on linux/amd64) *)
Definition FlagReadOnly : Z := 0.
Definition FlagWriteOnly : Z := 1.
Definition FlagReadWrite : Z := 2.
Definition FlagCreate : Z := 64.
Definition FlagExclusive : Z := 128.
Definition FlagTruncate : Z := 512.
Definition FlagAppend : Z := 1024.
Definition FlagSync : Z := 1052672.

(** [flag&f != 0] *)
Definition has_flag (flag f : Z) : bool := negb (Z.land flag f =? 0).

(** ** Mode bits *)
Definition ModeDir : Z := Z.shiftl 1 31.
Definition ModeAppend : Z := Z.shiftl 1 30.
Definition ModeExclusive : Z := Z.shiftl 1 29.
Definition ModeTemporary : Z := Z.shiftl 1 28.
Definition ModeSymlink : Z := Z.shiftl 1 27.
Definition ModeDevice : Z := Z.shiftl 1 26.
Definition ModeNamedPipe : Z := Z.shiftl 1 25.
Definition ModeSocket : Z := Z.shiftl 1 24.
Definition ModeSetuid : Z := Z.shiftl 1 23.
Definition ModeSetgid : Z := Z.shiftl 1 22.
Definition ModeCharDevice : Z := Z.shiftl 1 21.
Definition ModeSticky : Z := Z.shiftl 1 20.
Definition ModeIrregular : Z := Z.shiftl 1 19.
Definition ModePerm : Z := 511.
(** [hackpadfs.FileMode(n)], an [uint32]. *)
Definition FileMode (n : Z) : Z := n `mod` 2 ^ 32.

Definition ModeType : Z :=
  Z.lor ModeDir (Z.lor ModeSymlink (Z.lor ModeNamedPipe (Z.lor ModeSocket
    (Z.lor ModeDevice (Z.lor ModeCharDevice ModeIrregular))))).

Definition IsDir (m : Z) : bool := negb (Z.land m ModeDir =? 0).
Definition IsRegular (m : Z) : bool := Z.land m ModeType =? 0.
Definition Perm (m : Z) : Z := Z.land m ModePerm.
Definition Type_ (m : Z) : Z := Z.land m ModeType.

(** [keyvalue.chmodBits] and the mode that [Chmod] computes from it. *)
Definition chmodBits : Z :=
  Z.lor ModePerm (Z.lor ModeSetuid (Z.lor ModeSetgid ModeSticky)).
Definition chmod_mode (old mode : Z) : Z :=
  Z.lor (Z.ldiff old chmodBits) (Z.land mode chmodBits).

(** ** Lemmas *)

(** A mask of one bit tests that bit. *)
Lemma land_pow2_eqb m i : 0 <= i -> (Z.land m (2 ^ i) =? 0) = negb (Z.testbit m i).
Proof.
  intros Hi. destruct (Z.eqb_spec (Z.land m (2 ^ i)) 0) as [E|E].
  - apply (f_equal (fun z => Z.testbit z i)) in E.
    rewrite Z.land_spec, Z.pow2_bits_true, andb_true_r, Z.bits_0 in E by done.
    by rewrite E.
  - destruct (Z.testbit m i) eqn:T; [done|]. destruct E.
    apply Z.bits_inj'. intros n Hn. rewrite Z.land_spec, Z.bits_0, Z.pow2_bits_eqb by done.
    destruct (Z.eqb_spec i n) as [<-|]; [by rewrite T|by rewrite andb_false_r].
Qed.

Lemma IsDir_testbit m : IsDir m = Z.testbit m 31.
Proof.
  unfold IsDir. change ModeDir with (2 ^ 31).
  by rewrite land_pow2_eqb, negb_involutive.
Qed.

Lemma IsDir_newDir perm : IsDir (Z.lor ModeDir (Z.land perm ModePerm)) = true.
Proof. by rewrite IsDir_testbit, Z.lor_spec. Qed.

Lemma IsRegular_newDir perm : IsRegular (Z.lor ModeDir (Z.land perm ModePerm)) = false.
Proof.
  unfold IsRegular. apply Z.eqb_neq. intros E.
  apply (f_equal (fun z => Z.testbit z 31)) in E. by rewrite Z.land_spec, Z.lor_spec in E.
Qed.

Lemma IsDir_perm perm : IsDir (Z.land perm ModePerm) = false.
Proof. rewrite IsDir_testbit, Z.land_spec. apply andb_false_r. Qed.

Lemma IsRegular_perm perm : IsRegular (Z.land perm ModePerm) = true.
Proof.
  unfold IsRegular. rewrite <- Z.land_assoc.
  change (Z.land ModePerm ModeType) with 0. by rewrite Z.land_0_r.
Qed.

Lemma IsDir_not_IsRegular m : IsDir m = true -> IsRegular m = false.
Proof.
  rewrite IsDir_testbit. unfold IsRegular. intros Hd.
  destruct (Z.eqb_spec (Z.land m ModeType) 0) as [E|]; [|done].
  apply (f_equal (fun z => Z.testbit z 31)) in E.
  by rewrite Z.land_spec, Hd in E.
Qed.

(** [Chmod] never changes the kind of a file. *)
Lemma chmod_mode_Type old mode : Type_ (chmod_mode old mode) = Type_ old.
Proof.
  unfold Type_, chmod_mode. rewrite Z.land_lor_distr_l, <- Z.land_assoc.
  change (Z.land chmodBits ModeType) with 0. rewrite Z.land_0_r, Z.lor_0_r.
  apply Z.bits_inj'. intros n Hn. rewrite !Z.land_spec, Z.ldiff_spec.
  destruct (Z.testbit ModeType n) eqn:T; [|by rewrite !andb_false_r].
  assert (Z.testbit chmodBits n = false) as ->; [|by rewrite !andb_true_r].
  assert (Z.testbit (Z.land chmodBits ModeType) n = false) as B by apply Z.bits_0.
  rewrite Z.land_spec, T, andb_true_r in B. done.
Qed.
Lemma IsDir_Type m m' : Type_ m = Type_ m' -> IsDir m = IsDir m'.
Proof.
  unfold Type_. intros E. apply (f_equal (fun z => Z.testbit z 31)) in E.
  rewrite !Z.land_spec in E. change (Z.testbit ModeType 31) with true in E.
  by rewrite !IsDir_testbit, <- (andb_true_r (Z.testbit m 31)), E, andb_true_r.
Qed.
Lemma chmod_mode_IsDir old mode : IsDir (chmod_mode old mode) = IsDir old.
Proof. apply IsDir_Type, chmod_mode_Type. Qed.
Lemma chmod_mode_IsRegular old mode : IsRegular (chmod_mode old mode) = IsRegular old.
Proof.
  unfold IsRegular. pose proof (chmod_mode_Type old mode) as E. unfold Type_ in E.
  by rewrite E.
Qed.
