(* ===== verification/Blob.v ===== *)
(** * Blobs ([keyvalue/blob])

    The heap of Go slices that back the blobs, the [Bytes] blob of
    [bytes.go] with its mutex, and the dispatching functions of [blob.go].

    A slice is a window on an array of the heap.  [View] makes a second blob
    on the same array with the same mutex, so a write through one is seen
    through the other, and [append] writes in place while the capacity lasts. *)
From S2P Require Import Prelude.
From S2P Require Import Errors.

#[export] Instance byte_eq_dec : EqDecision byte := Byte.byte_eq_dec.

(** ** The heap *)

(** A slice header; the [nil] slice has no capacity. *)
Record slice := Slice { s_arr : nat; s_off : nat; s_len : nat; s_cap : nat }.
Definition nil_slice : slice := Slice 0 0 0 0.

(** [type Bytes struct] *)
Record Bytes := MkBytes { bytes : slice; length_ : Z; mu : nat }.

Record heap := Heap {
  arrays : gmap nat (list byte);
  blobs : gmap nat Bytes;
  mutexes : gmap nat bool;  (* is it locked *)
  next : nat                (* the next fresh address *)
}.
Definition empty_heap : heap := Heap ∅ ∅ ∅ 0.

Definition set_arrays (a : gmap nat (list byte)) (h : heap) : heap :=
  Heap a (blobs h) (mutexes h) (next h).
Definition set_blobs (b : gmap nat Bytes) (h : heap) : heap :=
  Heap (arrays h) b (mutexes h) (next h).
Definition set_mutexes (m : gmap nat bool) (h : heap) : heap :=
  Heap (arrays h) (blobs h) m (next h).
Definition set_next (n : nat) (h : heap) : heap :=
  Heap (arrays h) (blobs h) (mutexes h) n.

(** The array at an address, and what a slice shows of it. *)
Definition array (h : heap) (a : nat) : list byte := default [] (arrays h !! a).
Definition read_slice (h : heap) (s : slice) : list byte :=
  take (s_len s) (drop (s_off s) (array h (s_arr s))).

(** A value of the [Blob] interface: the [Bytes] at an address, or a blob of
    another package that implements no more than [Bytes] and [Len]. *)
Inductive Blob :=
  | BBytes (l : nat)
  | BPlain (data : list byte).
#[export] Instance Blob_eq_dec : EqDecision Blob.
Proof. solve_decision. Defined.

(** ** Slices *)
Definition fresh : M heap nat :=
  h <- gets id ;; modify (set_next (S (next h))) ;;; ret (next h).

(** [make([]byte, ...)] with the given contents. *)
Definition make_slice (data : list byte) : M heap slice :=
  a <- fresh ;;
  modify (fun h => set_arrays (<[a := data]> (arrays h)) h) ;;;
  ret (Slice a 0 (length data) (length data)).

(** [make([]byte, n)] *)
Definition make_zeros (n : Z) : M heap slice :=
  if (n <? 0)%Z then panic "makeslice: len out of range"
  else make_slice (replicate (Z.to_nat n) zero).

(** [s[i:j]] *)
Definition reslice (s : slice) (i j : Z) : M heap slice :=
  if ((0 <=? i) && (i <=? j) && (j <=? Z.of_nat (s_cap s)))%Z then
    ret (Slice (s_arr s) (s_off s + Z.to_nat i) (Z.to_nat (j - i)) (s_cap s - Z.to_nat i))
  else panic "slice bounds out of range".

(** [s[i:]] *)
Definition slice_from (s : slice) (i : Z) : M heap slice :=
  if ((0 <=? i) && (i <=? Z.of_nat (s_len s)))%Z then
    ret (Slice (s_arr s) (s_off s + Z.to_nat i) (s_len s - Z.to_nat i) (s_cap s - Z.to_nat i))
  else panic "slice bounds out of range".

(** Overwrite the array of a slice from an index of the slice on. *)
Definition write_slice (s : slice) (i : nat) (data : list byte) : M heap unit :=
  match data with
  | [] => ret tt
  | _ => modify (fun h =>
      set_arrays (<[s_arr s := splice (array h (s_arr s)) (s_off s + i) data]> (arrays h)) h)
  end.

(** [copy(dst, src)] *)
Definition copy_slice (dst src : slice) : M heap Z :=
  data <- gets (fun h => take (s_len dst) (read_slice h src)) ;;
  write_slice dst 0 data ;;;
  ret (Z.of_nat (length data)).

Section runtime.
Context `{GoRuntime}.

(** [append(s, data...)] *)
Definition append_slice (s : slice) (data : list byte) : M heap slice :=
  let n := s_len s + length data in
  if decide (n <= s_cap s) then
    write_slice s (s_len s) data ;;;
    ret (Slice (s_arr s) (s_off s) n (s_cap s))
  else
    old <- gets (fun h => read_slice h s) ;;
    let cap := growcap (s_cap s) n in
    a <- make_slice (old ++ data ++ replicate (cap - n) zero) ;;
    ret (Slice (s_arr a) 0 n cap).
End runtime.

(** ** [sync.Mutex] *)
Definition lock (m : nat) : M heap unit :=
  locked <- gets (fun h => mutexes h !! m) ;;
  match locked with
  | Some true => blocked
  | _ => modify (fun h => set_mutexes (<[m := true]> (mutexes h)) h)
  end.
Definition unlock (m : nat) : M heap unit :=
  locked <- gets (fun h => mutexes h !! m) ;;
  match locked with
  | Some true => modify (fun h => set_mutexes (<[m := false]> (mutexes h)) h)
  | _ => panic "sync: unlock of unlocked mutex"
  end.

(** [defer mu.Unlock()]: also when the body panics. *)
Definition with_lock {A} (m : nat) (body : M heap A) : M heap A :=
  lock m ;;; fun h =>
    match body h with
    | (Ret a, h') => bind (unlock m) (fun _ => ret a) h'
    | (Panic e, h') => bind (unlock m) (fun _ => panic e) h'
    | r => r
    end.

(** ** [bytes.go] *)
Section Bytes.
Context `{GoRuntime}.

Definition get_blob (l : nat) : M heap Bytes :=
  b <- gets (fun h => blobs h !! l) ;;
  match b with Some b => ret b | None => panic "nil pointer dereference" end.
Definition put_blob (l : nat) (b : Bytes) : M heap unit :=
  modify (fun h => set_blobs (<[l := b]> (blobs h)) h).

(** Every [Bytes] that [NewBytes] makes has a mutex of its own. *)
Definition NewBytes (buf : slice) : M heap nat :=
  l <- fresh ;;
  m <- fresh ;;
  modify (fun h => set_mutexes (<[m := false]> (mutexes h)) h) ;;;
  put_blob l (MkBytes buf (Z.of_nat (s_len buf)) m) ;;;
  ret l.

Definition NewBytesLength (length : Z) : M heap nat :=
  buf <- make_zeros length ;; NewBytes buf.

Definition Bytes_Len (l : nat) : M heap Z := b <- get_blob l ;; ret (length_ b).

(** The bounds checks [View] and [Slice] start with. *)
Definition check_range (len start end_ : Z) : err :=
  if ((start <? 0) || (len <? start))%Z then
    Some (Errorf "Start index out of bounds: " [start])
  else if ((end_ <? 0) || (len <? end_))%Z then
    Some (Errorf "End index out of bounds: " [end_])
  else None.

Definition Bytes_View (l : nat) (start end_ : Z) : M heap (option Blob * err) :=
  len <- Bytes_Len l ;;
  match check_range len start end_ with
  | Some e => ret (None, Some e)
  | None =>
      b <- get_blob l ;;
      with_lock (mu b)
        (buf <- reslice (bytes b) start end_ ;;
         l' <- NewBytes buf ;;
         b' <- get_blob l' ;;
         put_blob l' (MkBytes (bytes b') (length_ b') (mu b)) ;;;
         ret (Some (BBytes l'), None))
  end.

Definition Bytes_Slice (l : nat) (start end_ : Z) : M heap (option nat * err) :=
  len <- Bytes_Len l ;;
  match check_range len start end_ with
  | Some e => ret (None, Some e)
  | None =>
      b <- get_blob l ;;
      buf <- make_zeros (end_ - start) ;;
      lock (mu b) ;;;
      copy_slice buf (bytes b) ;;;
      unlock (mu b) ;;;
      l' <- NewBytes buf ;;
      ret (Some l', None)
  end.

Definition Bytes_Bytes (l : nat) : M heap slice :=
  len <- Bytes_Len l ;;
  let* (newB, e) := Bytes_Slice l 0 len in
  match newB, e with
  | Some newB, None => b <- get_blob newB ;; ret (bytes b)
  | _, _ => panic "Bytes"
  end.

Definition Blob_Len (b : Blob) : M heap Z :=
  match b with
  | BBytes l => Bytes_Len l
  | BPlain data => ret (Z.of_nat (length data))
  end.
Definition Blob_Bytes (b : Blob) : M heap slice :=
  match b with
  | BBytes l => Bytes_Bytes l
  | BPlain data => make_slice data
  end.

Definition Bytes_Set (l : nat) (src : Blob) (destStart : Z) : M heap (Z * err) :=
  if (destStart <? 0)%Z then ret (0%Z, Some (Errorf "negative offset" [])) else
  len <- Bytes_Len l ;;
  srcLen <- Blob_Len src ;;
  if ((len <=? destStart) && (destStart =? 0) && (0 <? srcLen))%Z then
    ret (0%Z, Some (Errorf "Offset out of bounds: " [destStart]))
  else
    b <- get_blob l ;;
    lock (mu b) ;;;
    srcBytes <- Blob_Bytes src ;;
    dest <- slice_from (bytes b) destStart ;;
    n <- copy_slice dest srcBytes ;;
    unlock (mu b) ;;;
    ret (n, None).

Definition Bytes_Grow (l : nat) (offset : Z) : M heap err :=
  b <- get_blob l ;;
  lock (mu b) ;;;
  zeros <- (if (offset <? 0)%Z then panic "makeslice: len out of range"
            else ret (replicate (Z.to_nat offset) zero)) ;;
  buf <- append_slice (bytes b) zeros ;;
  put_blob l (MkBytes buf (Z.of_nat (s_len buf)) (mu b)) ;;;
  unlock (mu b) ;;;
  ret None.

Definition Bytes_Truncate (l : nat) (size : Z) : M heap err :=
  len <- Bytes_Len l ;;
  if (len <? size)%Z then ret None else
  b <- get_blob l ;;
  lock (mu b) ;;;
  len <- Bytes_Len l ;;
  (if (size <=? len)%Z then
     buf <- reslice (bytes b) 0 size ;;
     put_blob l (MkBytes buf (Z.of_nat (s_len buf)) (mu b))
   else ret tt) ;;;
  unlock (mu b) ;;;
  ret None.

(** ** [blob.go]: dispatch on the optional interfaces

    [Bytes] implements them all; for a blob that does not, the operation
    runs on a [Bytes] made of a copy. *)
Definition plain_copy (data : list byte) : M heap nat :=
  buf <- make_slice data ;; NewBytes buf.

Definition View (b : Blob) (start end_ : Z) : M heap (option Blob * err) :=
  match b with
  | BBytes l => Bytes_View l start end_
  | BPlain data => l <- plain_copy data ;; Bytes_View l start end_
  end.
Definition Slice_ (b : Blob) (start end_ : Z) : M heap (option Blob * err) :=
  let* (r, e) := match b with
    | BBytes l => Bytes_Slice l start end_
    | BPlain data => l <- plain_copy data ;; Bytes_Slice l start end_
    end in
  ret (BBytes <$> r, e).
Definition Set_ (dest src : Blob) (offset : Z) : M heap (Z * err) :=
  match dest with
  | BBytes l => Bytes_Set l src offset
  | BPlain data => l <- plain_copy data ;; Bytes_Set l src offset
  end.
Definition Grow (b : Blob) (offset : Z) : M heap err :=
  match b with
  | BBytes l => Bytes_Grow l offset
  | BPlain data => l <- plain_copy data ;; Bytes_Grow l offset
  end.
Definition Truncate (b : Blob) (size : Z) : M heap err :=
  match b with
  | BBytes l => Bytes_Truncate l size
  | BPlain data => l <- plain_copy data ;; Bytes_Truncate l size
  end.
End Bytes.

(** ** Well-formed heaps

    Every slice lies in its array, the cached length of a blob is that of its
    slice, its mutex exists, and fresh addresses are unused. *)
Definition wf_slice (h : heap) (s : slice) : Prop :=
  s_len s <= s_cap s /\ s_off s + s_cap s <= length (array h (s_arr s)).

Record wf_blob (h : heap) (b : Bytes) : Prop := {
  wf_bytes : wf_slice h (bytes b);
  wf_length : length_ b = Z.of_nat (s_len (bytes b));
  wf_mu : is_Some (mutexes h !! mu b)
}.

Record wf_heap (h : heap) : Prop := {
  wf_blobs l b : blobs h !! l = Some b -> wf_blob h b;
  wf_next_arrays a : is_Some (arrays h !! a) -> a < next h;
  wf_next_blobs l : is_Some (blobs h !! l) -> l < next h;
  wf_next_mutexes m : is_Some (mutexes h !! m) -> m < next h
}.

(** What a blob holds. *)
Definition contents (h : heap) (l : nat) : option (list byte) :=
  (fun b => read_slice h (bytes b)) <$> blobs h !! l.

(** Nobody holds a mutex. *)
Definition idle (h : heap) : Prop := forall m v, mutexes h !! m = Some v -> v = false.

Lemma wf_empty_heap : wf_heap empty_heap.
Proof.
  split; [intros l b E|intros a [? E]..]; cbn in E; by apply lookup_empty_Some in E.
Qed.
Lemma idle_empty_heap : idle empty_heap.
Proof. intros m v E. cbn in E. by apply lookup_empty_Some in E. Qed.

(** *** Equations of the primitives *)
Lemma get_blob_eq h l b : blobs h !! l = Some b -> get_blob l h = (Ret b, h).
Proof. intros E. unfold get_blob, bind, gets. by rewrite E. Qed.
Lemma lock_eq h m :
  mutexes h !! m = Some false ->
  lock m h = (Ret tt, set_mutexes (<[m := true]> (mutexes h)) h).
Proof. intros E. unfold lock, bind, gets. by rewrite E. Qed.
Lemma lock_blocked h m : mutexes h !! m = Some true -> lock m h = (Blocked, h).
Proof. intros E. unfold lock, bind, gets. by rewrite E. Qed.
Lemma unlock_eq h m :
  mutexes h !! m = Some true ->
  unlock m h = (Ret tt, set_mutexes (<[m := false]> (mutexes h)) h).
Proof. intros E. unfold unlock, bind, gets. by rewrite E. Qed.
Lemma NewBytes_eq h buf :
  NewBytes buf h =
  (Ret (next h),
   Heap (arrays h)
     (<[next h := MkBytes buf (Z.of_nat (s_len buf)) (S (next h))]> (blobs h))
     (<[S (next h) := false]> (mutexes h)) (S (S (next h)))).
Proof. done. Qed.
Lemma make_slice_eq h data :
  make_slice data h =
  (Ret (Slice (next h) 0 (length data) (length data)),
   Heap (<[next h := data]> (arrays h)) (blobs h) (mutexes h) (S (next h))).
Proof. done. Qed.

Lemma Bytes_Len_eq h l b : blobs h !! l = Some b -> Bytes_Len l h = (Ret (length_ b), h).
Proof. intros E. unfold Bytes_Len. by run (get_blob_eq _ _ _ E). Qed.

(** Locking and unlocking a free mutex changes nothing. *)
Lemma relock (ms : gmap nat bool) m :
  ms !! m = Some false -> <[m := false]> (<[m := true]> ms) = ms.
Proof. intros E. by rewrite insert_insert_eq, insert_id. Qed.

Lemma check_range_None len s e :
  check_range len s e = None <-> (0 <= s <= len /\ 0 <= e <= len)%Z.
Proof.
  unfold check_range.
  destruct (Z.ltb_spec s 0), (Z.ltb_spec len s), (Z.ltb_spec e 0), (Z.ltb_spec len e);
    simpl; split; try done; lia.
Qed.

Lemma array_insert_eq h a data :
  array (set_arrays (<[a := data]> (arrays h)) h) a = data.
Proof. unfold array. simpl. by rewrite lookup_insert_eq. Qed.

Lemma length_read_slice h s : wf_slice h s -> length (read_slice h s) = s_len s.
Proof.
  intros [? ?]. unfold read_slice. rewrite length_take, length_drop. lia.
Qed.

Lemma contents_Some h l b :
  blobs h !! l = Some b -> contents h l = Some (read_slice h (bytes b)).
Proof. unfold contents. by intros ->. Qed.
Lemma contents_inv h l c :
  contents h l = Some c -> exists b, blobs h !! l = Some b /\ c = read_slice h (bytes b).
Proof. unfold contents. intros ([b ?] & -> & Hb)%fmap_Some. eauto. Qed.

(** A slice of a slice shows the window of what the slice shows. *)
Lemma read_sub h s i n c' :
  i + n <= s_len s ->
  read_slice h (Slice (s_arr s) (s_off s + i) n c') = take n (drop i (read_slice h s)).
Proof.
  intros ?. unfold read_slice. simpl. rewrite <- drop_drop.
  rewrite skipn_firstn_comm, take_take. f_equal. lia.
Qed.

(** ** Every operation keeps the heap well formed

    [safe h m Q]: run from [h], [m] keeps the heap well formed and only grows
    it, whatever the outcome; when it returns, [Q] holds of the result. *)
Definition grows (h h' : heap) : Prop :=
  (forall a, length (array h a) <= length (array h' a)) /\
  (forall m, is_Some (mutexes h !! m) -> is_Some (mutexes h' !! m)).

#[export] Instance grows_preorder : PreOrder grows.
Proof.
  split.
  - intros h. split; [done|auto].
  - intros h1 h2 h3 [Ha Hm] [Ha' Hm']. split; [|auto]. intros a. etrans; eauto.
Qed.

Definition safe {A} (h : heap) (m : M heap A) (Q : A -> heap -> Prop) : Prop :=
  match m h with
  | (r, h') => wf_heap h' /\ grows h h' /\ match r with Ret a => Q a h' | _ => True end
  end.

Lemma wf_slice_grows h h' s : grows h h' -> wf_slice h s -> wf_slice h' s.
Proof. intros [Hg _] [??]. split; [done|]. specialize (Hg (s_arr s)). lia. Qed.
Lemma wf_blob_grows h h' b : grows h h' -> wf_blob h b -> wf_blob h' b.
Proof.
  intros Hg [???]. split; [by eapply wf_slice_grows|done|]. by apply (proj2 Hg).
Qed.
#[export] Hint Resolve wf_slice_grows wf_blob_grows : go_wf.

(** Changes of a single part of the heap. *)
Lemma wf_set_array h a data :
  wf_heap h -> length (array h a) <= length data -> a < next h ->
  let h' := set_arrays (<[a := data]> (arrays h)) h in wf_heap h' /\ grows h h'.
Proof.
  intros Hwf Hlen Ha h'.
  assert (Hg : grows h h').
  { split; [|done]. intros a'. unfold h', array. simpl.
    destruct (decide (a = a')) as [<-|]; [rewrite lookup_insert_eq|rewrite lookup_insert_ne by done];
      done. }
  split; [|done]. split; simpl; intros.
  - eapply wf_blob_grows; [done|]. by eapply wf_blobs.
  - destruct (decide (a = a0)) as [<-|]; [done|].
    rewrite lookup_insert_ne in * by done. by apply (wf_next_arrays h).
  - by apply (wf_next_blobs h).
  - by apply (wf_next_mutexes h).
Qed.

Section safe.
Context {A B : Type}.
Implicit Types (h : heap).

Lemma safe_bind h (m : M heap A) (k : A -> M heap B) Q R :
  safe h m Q ->
  (forall a h1, wf_heap h1 -> grows h h1 -> Q a h1 -> safe h1 (k a) R) ->
  safe h (bind m k) R.
Proof.
  unfold safe, bind. destruct (m h) as [[a|e| |] h1]; intros (Hwf & Hg & HQ) Hk; [|done..].
  specialize (Hk a h1 Hwf Hg HQ). destruct (k a h1) as [r h2].
  destruct Hk as (? & ? & ?). split_and!; [done| |done]. by etrans.
Qed.
Lemma safe_ret h (a : A) Q : wf_heap h -> Q a h -> safe h (ret a) Q.
Proof. intros ??. unfold safe, ret. by split_and!. Qed.
Lemma safe_gets h (f : heap -> A) Q : wf_heap h -> Q (f h) h -> safe h (gets f) Q.
Proof. intros ??. unfold safe, gets. by split_and!. Qed.
Lemma safe_panic h e (Q : A -> heap -> Prop) : wf_heap h -> safe h (panic e) Q.
Proof. intros ?. unfold safe, panic. by split_and!. Qed.
Lemma safe_blocked h (Q : A -> heap -> Prop) : wf_heap h -> safe h blocked Q.
Proof. intros ?. unfold safe, blocked. by split_and!. Qed.
Lemma safe_mono h (m : M heap A) Q Q' :
  safe h m Q -> (forall a h', wf_heap h' -> grows h h' -> Q a h' -> Q' a h') -> safe h m Q'.
Proof.
  unfold safe. destruct (m h) as [[a|e| |] h']; intros (?&?&?) HQ; split_and!; auto.
Qed.
End safe.

Definition anyQ {A} : A -> heap -> Prop := fun _ _ => True.

Lemma safe_make_slice h data :
  wf_heap h ->
  safe h (make_slice data) (fun s h' => wf_slice h' s /\ read_slice h' s = data).
Proof.
  intros Hwf. unfold safe. rewrite make_slice_eq.
  assert (Hfresh : arrays h !! next h = None).
  { destruct (arrays h !! next h) eqn:E; [|done].
    pose proof (wf_next_arrays h Hwf (next h)) as Hn. rewrite E in Hn.
    specialize (Hn ltac:(eauto)). lia. }
  assert (Hg : grows h (Heap (<[next h := data]> (arrays h)) (blobs h) (mutexes h) (S (next h)))).
  { split; [|done]. intros a. unfold array. simpl.
    destruct (decide (next h = a)) as [<-|]; [rewrite Hfresh; simpl; lia|].
    by rewrite lookup_insert_ne. }
  split_and!.
  - split; simpl; intros.
    + eapply wf_blob_grows; [done|]. by eapply wf_blobs.
    + destruct (decide (next h = a)) as [<-|]; [lia|].
      rewrite lookup_insert_ne in * by done. apply Nat.lt_lt_succ_r. by apply (wf_next_arrays h).
    + apply Nat.lt_lt_succ_r. by apply (wf_next_blobs h).
    + apply Nat.lt_lt_succ_r. by apply (wf_next_mutexes h).
  - done.
  - split; [done|]. unfold array. simpl. rewrite lookup_insert_eq. simpl. lia.
  - unfold read_slice, array. simpl. rewrite lookup_insert_eq. simpl. by rewrite drop_0, take_ge.
Qed.

Lemma safe_set_mutex h m v :
  wf_heap h -> m < next h ->
  safe h (modify (fun h => set_mutexes (<[m := v]> (mutexes h)) h))
    (fun _ h' => blobs h' = blobs h).
Proof.
  intros Hwf Hm. unfold safe, modify.
  assert (Hg : grows h (set_mutexes (<[m := v]> (mutexes h)) h)).
  { split; [done|]. intros m' ?. simpl. destruct (decide (m = m')) as [<-|].
    - rewrite lookup_insert_eq. eauto.
    - by rewrite lookup_insert_ne. }
  split_and!; [|done..]. split; simpl; intros.
  - eapply wf_blob_grows; [done|]. by eapply wf_blobs.
  - by apply (wf_next_arrays h).
  - by apply (wf_next_blobs h).
  - destruct (decide (m = m0)) as [<-|]; [done|].
    rewrite lookup_insert_ne in * by done. by apply (wf_next_mutexes h).
Qed.

Lemma safe_put_blob h l b :
  wf_heap h -> l < next h -> wf_blob h b -> safe h (put_blob l b) anyQ.
Proof.
  intros Hwf Hl Hb. unfold safe, put_blob, modify.
  assert (Hg : grows h (set_blobs (<[l := b]> (blobs h)) h)) by (by split).
  split_and!; [|done..]. split; simpl; intros.
  - eapply wf_blob_grows; [done|].
    destruct (decide (l = l0)) as [<-|]; [rewrite lookup_insert_eq in *|rewrite lookup_insert_ne in * by done].
    + congruence.
    + by eapply wf_blobs.
  - by apply (wf_next_arrays h).
  - destruct (decide (l = l0)) as [<-|]; [done|].
    rewrite lookup_insert_ne in * by done. by apply (wf_next_blobs h).
  - by apply (wf_next_mutexes h).
Qed.

Lemma safe_get_blob h l :
  wf_heap h ->
  safe h (get_blob l) (fun b h' => h' = h /\ wf_blob h b /\ blobs h !! l = Some b).
Proof.
  intros Hwf. unfold safe, get_blob, bind, gets.
  destruct (blobs h !! l) eqn:E; simpl; split_and!; try done.
  by eapply wf_blobs.
Qed.

Lemma safe_lock h m :
  wf_heap h -> is_Some (mutexes h !! m) ->
  safe h (lock m) (fun _ h' => blobs h' = blobs h).
Proof.
  intros Hwf Hm. assert (m < next h) as Hlt by by apply wf_next_mutexes.
  unfold safe, lock, bind, gets.
  destruct (mutexes h !! m) as [[]|]; [by split_and!|by apply safe_set_mutex..].
Qed.
Lemma safe_unlock h m :
  wf_heap h -> safe h (unlock m) (fun _ h' => blobs h' = blobs h).
Proof.
  intros Hwf. unfold safe, unlock, bind, gets.
  destruct (mutexes h !! m) as [[]|] eqn:E; [|by split_and!..].
  pose proof (safe_set_mutex h m false Hwf) as Hs.
  destruct Hs as (? & ? & _); [|by split_and!].
  apply wf_next_mutexes; [done|]. by rewrite E.
Qed.

Lemma safe_trans {A} h h1 (m : M heap A) Q :
  grows h h1 -> safe h1 m Q ->
  match m h1 with
  | (r, h') => wf_heap h' /\ grows h h' /\ match r with Ret a => Q a h' | _ => True end
  end.
Proof.
  unfold safe. intros Hg. destruct (m h1) as [r h']. intros (?&?&?).
  split_and!; [done|by etrans|done].
Qed.

Lemma safe_with_lock {A} h m (body : M heap A) Q :
  wf_heap h -> is_Some (mutexes h !! m) ->
  (forall h1, wf_heap h1 -> grows h h1 -> safe h1 body Q) ->
  (forall a h1 h2, grows h1 h2 -> blobs h2 = blobs h1 -> Q a h1 -> Q a h2) ->
  safe h (with_lock m body) Q.
Proof.
  intros Hwf Hm Hbody HQ. unfold with_lock.
  eapply safe_bind; [by apply safe_lock|]. intros [] h1 Hwf1 Hg1 _.
  specialize (Hbody h1 Hwf1 Hg1). unfold safe at 1. unfold safe in Hbody.
  destruct (body h1) as [[a|e| |] h2]; destruct Hbody as (Hwf2 & Hg2 & Ha); try by split_and!.
  - apply safe_trans; [done|]. eapply safe_bind; [by apply safe_unlock|].
    intros [] h3 ? ? ?. apply safe_ret; [done|]. by eapply HQ.
  - apply safe_trans; [done|]. eapply safe_bind; [by apply safe_unlock|].
    intros [] h3 ? ? ?. by apply safe_panic.
Qed.

Lemma safe_NewBytes h buf :
  wf_heap h -> wf_slice h buf ->
  safe h (NewBytes buf) (fun l h' => exists b, blobs h' !! l = Some b /\ wf_blob h' b /\
                                     bytes b = buf /\ array h' = array h).
Proof.
  intros Hwf Hs. unfold safe. rewrite NewBytes_eq.
  set (b := MkBytes _ _ _). set (h' := Heap _ _ _ _).
  assert (Hg : grows h h').
  { split; [done|]. intros m ?. simpl. destruct (decide (S (next h) = m)) as [<-|].
    - rewrite lookup_insert_eq. eauto.
    - by rewrite lookup_insert_ne. }
  assert (Hb : wf_blob h' b).
  { split; simpl; [by eapply wf_slice_grows|done|]. rewrite lookup_insert_eq. eauto. }
  split_and!; [|done|].
  - split; simpl; intros.
    + destruct (decide (next h = l)) as [<-|];
        [rewrite lookup_insert_eq in *; simplify_eq; done|rewrite lookup_insert_ne in * by done].
      eapply wf_blob_grows; [done|]. by eapply wf_blobs.
    + do 2 apply Nat.lt_lt_succ_r. by apply (wf_next_arrays h).
    + destruct (decide (next h = l)) as [<-|]; [lia|].
      rewrite lookup_insert_ne in * by done.
      do 2 apply Nat.lt_lt_succ_r. by apply (wf_next_blobs h).
    + destruct (decide (S (next h) = m)) as [<-|]; [lia|].
      rewrite lookup_insert_ne in * by done.
      do 2 apply Nat.lt_lt_succ_r. by apply (wf_next_mutexes h).
  - exists b. simpl. by rewrite lookup_insert_eq.
Qed.

(** The array of a slice that shows something exists. *)
Lemma wf_slice_array h s :
  wf_heap h -> wf_slice h s -> 0 < s_cap s -> s_arr s < next h.
Proof.
  intros Hwf [Hl Ho] Hc. apply wf_next_arrays; [done|].
  unfold array in Ho. destruct (arrays h !! s_arr s); [eauto|simpl in Ho; lia].
Qed.

Lemma safe_write_slice h s i data :
  wf_heap h -> wf_slice h s -> i + length data <= s_cap s ->
  safe h (write_slice s i data) (fun _ h' => blobs h' = blobs h).
Proof.
  intros Hwf [Hl Ho] Hi. unfold write_slice.
  destruct data as [|x data]; [by apply safe_ret|]. set (d := x :: data) in *.
  assert (0 < length d) by (simpl; lia).
  destruct (wf_set_array h (s_arr s) (splice (array h (s_arr s)) (s_off s + i) d)) as [??];
    [done| | |].
  - rewrite length_splice by lia. done.
  - apply (wf_slice_array h s); [done|by split|lia].
  - unfold safe, modify. by split_and!.
Qed.

Lemma safe_reslice h s i j :
  wf_heap h -> wf_slice h s ->
  safe h (reslice s i j) (fun s' h' => h' = h /\ wf_slice h' s').
Proof.
  intros Hwf [Hl Ho]. unfold reslice. case_match; [|by apply safe_panic].
  apply safe_ret; [done|]. split; [done|]. split; simpl; lia.
Qed.
Lemma safe_slice_from h s i :
  wf_heap h -> wf_slice h s ->
  safe h (slice_from s i) (fun s' h' => h' = h /\ wf_slice h' s').
Proof.
  intros Hwf [Hl Ho]. unfold slice_from. case_match; [|by apply safe_panic].
  apply safe_ret; [done|]. split; [done|]. split; simpl; lia.
Qed.

Lemma safe_copy_slice h dst src :
  wf_heap h -> wf_slice h dst -> safe h (copy_slice dst src) (fun _ h' => blobs h' = blobs h).
Proof.
  intros Hwf Hd. unfold copy_slice, bind at 1, gets.
  set (data := take (s_len dst) (read_slice h src)).
  change (safe h (bind (write_slice dst 0 data) (fun _ => ret (Z.of_nat (length data))))
            (fun _ h' => blobs h' = blobs h)).
  assert (length data <= s_len dst) by (unfold data; rewrite length_take; lia).
  eapply safe_bind.
  - apply safe_write_slice; [done..|]. destruct Hd. lia.
  - intros [] h1 ???. by apply safe_ret.
Qed.

Section wf_ops.
Context `{GoRuntime}.

Lemma safe_append_slice h s data :
  wf_heap h -> wf_slice h s ->
  safe h (append_slice s data) (fun s' h' => wf_slice h' s' /\ blobs h' = blobs h).
Proof.
  intros Hwf Hs. unfold append_slice. destruct (decide _) as [Hfit|Hfit].
  - eapply safe_bind; [apply safe_write_slice; [done..|]; lia|].
    intros [] h1 Hwf1 Hg1 Hb1. apply safe_ret; [done|]. split; [|done].
    pose proof (wf_slice_grows _ _ _ Hg1 Hs) as [??]. split; simpl in *; lia.
  - unfold bind at 1, gets. set (old := read_slice h s).
    set (n := s_len s + length data).
    set (d := old ++ data ++ replicate (growcap (s_cap s) n - n) zero).
    assert (length old = s_len s) by by apply length_read_slice.
    pose proof (growcap_ge (s_cap s) (s_len s + length data)) as Hcap.
    assert (length d = growcap (s_cap s) (s_len s + length data)) as Hd.
    { unfold d, n in *. rewrite !length_app, length_replicate. lia. }
    unfold safe, bind. rewrite make_slice_eq.
    pose proof (safe_make_slice h d Hwf) as Hm. unfold safe in Hm.
    rewrite make_slice_eq in Hm. destruct Hm as (? & ? & [? Hlen] & _).
    split_and!; [done..| |done]. split; [done|]. simpl in Hlen. rewrite Hd in Hlen. exact Hlen.
Qed.

Lemma safe_make_zeros h n : wf_heap h -> safe h (make_zeros n) (fun s h' => wf_slice h' s).
Proof.
  intros Hwf. unfold make_zeros. case_match; [by apply safe_panic|].
  eapply safe_mono; [by apply safe_make_slice|]. by intros ? ? ? ? [? _].
Qed.

Lemma safe_Len h l : wf_heap h -> safe h (Bytes_Len l) (fun _ h' => h' = h).
Proof.
  intros Hwf. eapply safe_bind; [by apply safe_get_blob|].
  intros b h1 Hwf1 _ (-> & _ & _). by apply safe_ret.
Qed.

Lemma safe_Bytes_View h l s e : wf_heap h -> safe h (Bytes_View l s e) anyQ.
Proof.
  intros Hwf. eapply safe_bind; [by apply safe_Len|]. intros len ? _ _ ->.
  case_match; [by apply safe_ret|].
  eapply safe_bind; [by apply safe_get_blob|]. intros b ? _ _ (-> & Hb & _).
  apply safe_with_lock; [done|by destruct Hb| |done].
  intros h1 Hwf1 Hg1.
  eapply safe_bind; [apply safe_reslice; [done|]; eapply wf_slice_grows; [done|by destruct Hb]|].
  intros buf h2 Hwf2 Hg2 [-> Hbuf].
  eapply safe_bind; [by apply safe_NewBytes|].
  intros l' h3 Hwf3 Hg3 (b' & Hl' & [Hb1 Hb2 Hb3] & <- & _).
  eapply safe_bind; [by apply safe_get_blob|]. intros b'' ? _ _ (-> & ? & ?).
  simplify_eq.
  eapply safe_bind; [apply safe_put_blob|]; [done| | |].
  - apply wf_next_blobs; [done|]. by rewrite Hl'.
  - split; simpl; [done..|]. apply (proj2 Hg3), (proj2 Hg1). by destruct Hb.
  - intros [] h4 ? ? _. by apply safe_ret.
Qed.

Lemma safe_Bytes_Slice h l s e :
  wf_heap h -> safe h (Bytes_Slice l s e) anyQ.
Proof.
  intros Hwf. eapply safe_bind; [by apply safe_Len|]. intros len ? _ _ ->.
  case_match; [by apply safe_ret|].
  eapply safe_bind; [by apply safe_get_blob|]. intros b ? _ _ (-> & Hb & _).
  eapply safe_bind; [by apply safe_make_zeros|]. intros buf h1 Hwf1 Hg1 Hbuf.
  eapply safe_bind; [apply safe_lock; [done|]; apply (proj2 Hg1); by destruct Hb|].
  intros [] h2 Hwf2 Hg2 _.
  eapply safe_bind; [apply safe_copy_slice; eauto with go_wf|]. intros n h3 Hwf3 Hg3 _.
  eapply safe_bind; [by apply safe_unlock|]. intros [] h4 Hwf4 Hg4 _.
  eapply safe_bind; [apply safe_NewBytes; eauto with go_wf|].
  intros l' h5 ? ? _. by apply safe_ret.
Qed.

Lemma safe_Bytes_Bytes h l : wf_heap h -> safe h (Bytes_Bytes l) anyQ.
Proof.
  intros Hwf. eapply safe_bind; [by apply safe_Len|]. intros len ? _ _ ->.
  eapply safe_bind; [by apply safe_Bytes_Slice|]. intros [[l'|] [e|]] h1 ? ? _;
    try by apply safe_panic.
  eapply safe_bind; [by apply safe_get_blob|]. intros b ? ? ? _. by apply safe_ret.
Qed.

Lemma safe_Blob_Bytes h b : wf_heap h -> safe h (Blob_Bytes b) anyQ.
Proof.
  intros Hwf. destruct b; [by apply safe_Bytes_Bytes|].
  eapply safe_mono; [by apply safe_make_slice|done].
Qed.
Lemma safe_Blob_Len h b : wf_heap h -> safe h (Blob_Len b) (fun _ h' => h' = h).
Proof. intros Hwf. destruct b; [by apply safe_Len|by apply safe_ret]. Qed.

Lemma safe_Bytes_Set h l src off : wf_heap h -> safe h (Bytes_Set l src off) anyQ.
Proof.
  intros Hwf. unfold Bytes_Set. case_match; [by apply safe_ret|].
  eapply safe_bind; [by apply safe_Len|]. intros len ? _ _ ->.
  eapply safe_bind; [by apply safe_Blob_Len|]. intros slen ? _ _ ->.
  case_match; [by apply safe_ret|].
  eapply safe_bind; [by apply safe_get_blob|]. intros b ? _ _ (-> & Hb & _).
  eapply safe_bind; [apply safe_lock; [done|by destruct Hb]|]. intros [] h1 Hwf1 Hg1 _.
  eapply safe_bind; [by apply safe_Blob_Bytes|]. intros sb h2 Hwf2 Hg2 _.
  eapply safe_bind; [apply safe_slice_from; [done|]|].
  { eapply wf_slice_grows; [exact (transitivity Hg1 Hg2)|by destruct Hb]. }
  intros dest ? _ _ [-> Hd].
  eapply safe_bind; [by apply safe_copy_slice|]. intros n h3 Hwf3 Hg3 _.
  eapply safe_bind; [by apply safe_unlock|]. intros [] h4 ? ? _. by apply safe_ret.
Qed.

(** Storing the new slice of a blob whose mutex stays the same. *)
Lemma safe_put_slice h l b buf :
  wf_heap h -> wf_blob h b -> is_Some (blobs h !! l) -> wf_slice h buf ->
  safe h (put_blob l (MkBytes buf (Z.of_nat (s_len buf)) (mu b))) anyQ.
Proof.
  intros Hwf [???] Hl Hs. apply safe_put_blob; [done|by apply wf_next_blobs|by split].
Qed.

Lemma safe_Bytes_Grow h l off : wf_heap h -> safe h (Bytes_Grow l off) anyQ.
Proof.
  intros Hwf. eapply safe_bind; [by apply safe_get_blob|]. intros b ? _ _ (-> & Hb & Hl).
  eapply safe_bind; [apply safe_lock; [done|by destruct Hb]|].
  intros [] h1 Hwf1 Hg1 Hb1.
  eapply safe_bind.
  { case_match; [by apply safe_panic|]. by apply (safe_ret _ _ (fun _ h' => h' = h1)). }
  intros zeros ? _ _ ->.
  eapply safe_bind; [apply safe_append_slice; [done|]; eapply wf_slice_grows; [done|by destruct Hb]|].
  intros buf h2 Hwf2 Hg2 [Hbuf Hb2].
  eapply safe_bind; [apply safe_put_slice; [done|..|done]|].
  - eapply wf_blob_grows; [exact (transitivity Hg1 Hg2)|done].
  - rewrite Hb2, Hb1, Hl. eauto.
  - intros [] h3 Hwf3 Hg3 _. eapply safe_bind; [by apply safe_unlock|].
    intros [] h4 ? ? _. by apply safe_ret.
Qed.
End wf_ops.

Section wf_ops2.
Context `{GoRuntime}.

Lemma safe_Bytes_Truncate h l size : wf_heap h -> safe h (Bytes_Truncate l size) anyQ.
Proof.
  intros Hwf. eapply safe_bind; [by apply safe_Len|]. intros len ? _ _ ->.
  case_match; [by apply safe_ret|].
  eapply safe_bind; [by apply safe_get_blob|]. intros b ? _ _ (-> & Hb & Hl).
  eapply safe_bind; [apply safe_lock; [done|by destruct Hb]|]. intros [] h1 Hwf1 Hg1 Hb1.
  eapply safe_bind; [by apply safe_Len|]. intros len' ? _ _ ->.
  eapply (safe_bind _ _ _ anyQ).
  { case_match; [|by apply safe_ret].
    eapply safe_bind; [apply safe_reslice; [done|]|].
    { eapply wf_slice_grows; [done|by destruct Hb]. }
    intros buf ? _ _ [-> Hbuf]. apply safe_put_slice; [done|by eapply wf_blob_grows|..|done].
    rewrite Hb1, Hl. eauto. }
  intros [] h2 Hwf2 _ _. eapply safe_bind; [by apply safe_unlock|].
  intros [] h3 ? ? _. by apply safe_ret.
Qed.

Lemma safe_plain_copy h data : wf_heap h -> safe h (plain_copy data) anyQ.
Proof.
  intros Hwf. eapply safe_bind; [by apply safe_make_slice|]. intros s h1 ? ? [? _].
  eapply safe_mono; [by apply safe_NewBytes|done].
Qed.

(** *** The operations as a state machine *)
Inductive blob_op :=
  | OpNew (data : list byte)
  | OpBytes (b : Blob)
  | OpView (b : Blob) (start end_ : Z)
  | OpSlice (b : Blob) (start end_ : Z)
  | OpSet (dest src : Blob) (offset : Z)
  | OpGrow (b : Blob) (offset : Z)
  | OpTruncate (b : Blob) (size : Z).

(** The heap after an operation, whatever its outcome. *)
Definition run_op (op : blob_op) (h : heap) : heap :=
  match op with
  | OpNew data => (plain_copy data h).2
  | OpBytes b => (Blob_Bytes b h).2
  | OpView b s e => (View b s e h).2
  | OpSlice b s e => (Slice_ b s e h).2
  | OpSet d s o => (Set_ d s o h).2
  | OpGrow b o => (Grow b o h).2
  | OpTruncate b n => (Truncate b n h).2
  end.

Lemma safe_snd {A} h (m : M heap A) Q : safe h m Q -> wf_heap (m h).2.
Proof. unfold safe. destruct (m h). simpl. tauto. Qed.

Lemma run_op_wf op h : wf_heap h -> wf_heap (run_op op h).
Proof.
  intros Hwf.
  assert (Hplain : forall {A} data (k : nat -> M heap A),
            (forall l h, wf_heap h -> safe h (k l) anyQ) ->
            safe h (bind (plain_copy data) k) anyQ).
  { intros A data k Hk. eapply safe_bind; [by apply safe_plain_copy|]. auto. }
  destruct op as [data|b|b s e|b s e|d s o|b o|b n]; unfold run_op;
    eapply (safe_snd h _ anyQ).
  - by apply safe_plain_copy.
  - by apply safe_Blob_Bytes.
  - destruct b; [by apply safe_Bytes_View|]. apply Hplain. intros. by apply safe_Bytes_View.
  - eapply (safe_bind _ _ _ anyQ).
    + destruct b; [by apply safe_Bytes_Slice|].
      apply Hplain. intros. by apply safe_Bytes_Slice.
    + intros [] ? ? ? _. by apply safe_ret.
  - destruct d; [by apply safe_Bytes_Set|]. apply Hplain. intros. by apply safe_Bytes_Set.
  - destruct b; [by apply safe_Bytes_Grow|]. apply Hplain. intros. by apply safe_Bytes_Grow.
  - destruct b; [by apply safe_Bytes_Truncate|].
    apply Hplain. intros. by apply safe_Bytes_Truncate.
Qed.
End wf_ops2.
