(* ===== verification/BlobSpec.v ===== *)
(** * What the blob operations do

    Functional specifications of [Bytes] over well-formed heaps: what each
    operation returns, what the blob holds afterwards and what else on the
    heap it leaves alone. *)
From S2P Require Import Prelude.
From S2P Require Import Errors.
From S2P Require Import Blob.

(** Addresses in use are below the next fresh one. *)
Lemma blob_lt h l b : wf_heap h -> blobs h !! l = Some b -> l < next h.
Proof. intros Hwf E. apply wf_next_blobs; [done|]. by rewrite E. Qed.
Lemma mutex_lt h m v : wf_heap h -> mutexes h !! m = Some v -> m < next h.
Proof. intros Hwf E. apply wf_next_mutexes; [done|]. by rewrite E. Qed.
#[export] Hint Resolve blob_lt mutex_lt : go_wf.

(** ** Frames

    [upd h h' l a]: from [h] to [h'] at most the header of blob [l] and the
    array [a] changed, and things were allocated; all that was allocated is
    unlocked. *)
Record upd (h h' : heap) (l : nat) (s : slice) : Prop := {
  upd_next : next h <= next h';
  upd_blobs l' : l' <> l -> l' < next h -> blobs h' !! l' = blobs h !! l';
  upd_arrays a' :
    a' <> s_arr s \/ s_cap s = 0 -> a' < next h -> arrays h' !! a' = arrays h !! a';
  upd_mutexes m : m < next h -> mutexes h' !! m = mutexes h !! m;
  upd_unlocked m v : next h <= m -> mutexes h' !! m = Some v -> v = false
}.

(** [ext h h']: things were allocated and nothing changed. *)
Record ext (h h' : heap) : Prop := {
  ext_next : next h <= next h';
  ext_blobs l : l < next h -> blobs h' !! l = blobs h !! l;
  ext_arrays a : a < next h -> arrays h' !! a = arrays h !! a;
  ext_mutexes m : m < next h -> mutexes h' !! m = mutexes h !! m;
  ext_unlocked m v : next h <= m -> mutexes h' !! m = Some v -> v = false
}.

Lemma ext_upd h h' l s : ext h h' -> upd h h' l s.
Proof. intros []. split; auto. Qed.

Lemma ext_refl h : wf_heap h -> ext h h.
Proof. intros Hwf. split; try done. intros m v Hm Hv. pose proof (mutex_lt h m v Hwf Hv). lia. Qed.

Lemma ext_trans h1 h2 h3 : ext h1 h2 -> ext h2 h3 -> ext h1 h3.
Proof.
  intros [n1 b1 a1 m1 u1] [n2 b2 a2 m2 u2]. split; [lia|..].
  - intros. rewrite b2, b1; [done|lia..].
  - intros. rewrite a2, a1; [done|lia..].
  - intros. rewrite m2, m1; [done|lia..].
  - intros m v Hm Hv. destruct (decide (m < next h2)); [|by apply (u2 m); [lia|]].
    rewrite m2 in Hv by done. by apply (u1 m).
Qed.

Lemma upd_trans h1 h2 h3 l s s' :
  upd h1 h2 l s -> upd h2 h3 l s' ->
  (s_arr s' = s_arr s /\ s_cap s' = s_cap s \/ next h1 <= s_arr s') -> upd h1 h3 l s.
Proof.
  intros [n1 b1 a1 m1 u1] [n2 b2 a2 m2 u2] Ha. split; [lia|..].
  - intros. rewrite b2, b1; [done..|lia].
  - intros a' Ha' Hlt. rewrite a2, a1; [done..| |lia].
    destruct Ha as [[-> ->]|Ha]; [done|]. left. lia.
  - intros. rewrite m2, m1; [done|lia..].
  - intros m v Hm Hv. destruct (decide (m < next h2)); [|by apply (u2 m); [lia|]].
    rewrite m2 in Hv by done. by apply (u1 m).
Qed.

Lemma ext_idle h h' : wf_heap h -> ext h h' -> idle h -> idle h'.
Proof.
  intros Hwf He Hi m v Hm. destruct (decide (m < next h)).
  - rewrite (ext_mutexes h h') in Hm by done. by apply (Hi m).
  - apply (ext_unlocked h h' He m v); [lia|done].
Qed.
Lemma upd_idle h h' l s : upd h h' l s -> idle h -> idle h'.
Proof.
  intros He Hi m v Hm. destruct (decide (m < next h)).
  - rewrite (upd_mutexes h h' l s) in Hm by done. by apply (Hi m).
  - apply (upd_unlocked h h' l s He m v); [lia|done].
Qed.

(** A slice over an array that did not change still shows the same. *)
Lemma read_slice_eq h h' s :
  wf_heap h -> wf_slice h s ->
  (s_arr s < next h -> arrays h' !! s_arr s = arrays h !! s_arr s) ->
  read_slice h' s = read_slice h s.
Proof.
  intros Hwf Hs Ha. unfold read_slice. destruct (decide (s_cap s = 0)) as [Hc|Hc].
  - destruct Hs. replace (s_len s) with 0 by lia. done.
  - unfold array. rewrite Ha; [done|]. apply wf_slice_array; [done..|lia].
Qed.

(** The frame rule: blobs on other arrays keep their contents. *)
Lemma upd_contents h h' l s l' b' :
  wf_heap h -> upd h h' l s -> blobs h !! l' = Some b' -> l' <> l ->
  (s_arr (bytes b') <> s_arr s \/ s_cap s = 0 \/ s_cap (bytes b') = 0) ->
  blobs h' !! l' = Some b' /\ contents h' l' = contents h l'.
Proof.
  intros Hwf Hu Hb Hl Ha.
  assert (l' < next h) by eauto with go_wf.
  assert (Hb' : blobs h' !! l' = Some b') by by rewrite (upd_blobs h h' l s).
  split; [done|]. rewrite !(contents_Some _ _ b') by done. f_equal.
  destruct (wf_blobs h Hwf l' b' Hb) as [Hs _ _].
  destruct Ha as [Ha|[Ha|Hc]].
  - apply read_slice_eq; [done..|]. intros. apply (upd_arrays h h' l s); auto.
  - apply read_slice_eq; [done..|]. intros. apply (upd_arrays h h' l s); auto.
  - unfold read_slice. destruct Hs. by replace (s_len (bytes b')) with 0 by lia.
Qed.

Lemma ext_contents h h' l :
  wf_heap h -> ext h h' -> is_Some (blobs h !! l) ->
  blobs h' !! l = blobs h !! l /\ contents h' l = contents h l.
Proof.
  intros Hwf He [b Hb].
  assert (l < next h) by eauto with go_wf.
  assert (Hb' : blobs h' !! l = Some b) by by rewrite (ext_blobs h h').
  split; [congruence|]. rewrite !(contents_Some _ _ b) by done. f_equal.
  destruct (wf_blobs h Hwf l b Hb) as [Hs _ _].
  apply read_slice_eq; [done..|]. intros. by apply (ext_arrays h h').
Qed.

(** A blob that can be used: it exists and nobody holds its mutex. *)
Definition usable (h : heap) (l : nat) (b : Bytes) : Prop :=
  blobs h !! l = Some b /\ mutexes h !! mu b = Some false.

Lemma idle_usable h l b :
  wf_heap h -> idle h -> blobs h !! l = Some b -> usable h l b.
Proof.
  intros Hwf Hi Hb. split; [done|].
  destruct (wf_blobs h Hwf l b Hb) as [_ _ [v Hv]]. rewrite Hv. f_equal. by apply (Hi (mu b)).
Qed.

Lemma wf_slice_ext h h' s : wf_heap h -> ext h h' -> wf_slice h s -> wf_slice h' s.
Proof.
  intros Hwf He [H1 H2]. split; [done|]. etransitivity; [exact H2|]. unfold array.
  destruct (decide (s_arr s < next h)); [by rewrite (ext_arrays h h')|].
  destruct (arrays h !! s_arr s) eqn:Ea; [|simpl; lia].
  pose proof (wf_next_arrays h Hwf (s_arr s) ltac:(by eexists)). lia.
Qed.

Lemma ext_usable h h' l b : wf_heap h -> ext h h' -> usable h l b -> usable h' l b.
Proof.
  intros Hwf He [Hb Hm]. split.
  - rewrite (ext_blobs h h'); [done..|]. eauto with go_wf.
  - rewrite (ext_mutexes h h'); [done..|]. eauto with go_wf.
Qed.

(** ** Allocation *)
Lemma make_slice_spec h data :
  wf_heap h ->
  exists s h', make_slice data h = (Ret s, h') /\ wf_heap h' /\ ext h h' /\
    wf_slice h' s /\ read_slice h' s = data /\ s_arr s = next h /\
    s_len s = length data /\ blobs h' = blobs h /\ mutexes h' = mutexes h.
Proof.
  intros Hwf. pose proof (safe_make_slice h data Hwf) as Hs. unfold safe in Hs.
  rewrite make_slice_eq in *. destruct Hs as (? & ? & ? & ?).
  do 2 eexists. split_and!; try done. split; simpl; try done; [lia|..].
  - intros a Ha. rewrite lookup_insert_ne by lia. done.
  - intros m v Hm E. apply mutex_lt in E; [lia|done].
Qed.

Lemma NewBytes_spec h buf :
  wf_heap h -> wf_slice h buf ->
  exists l h', NewBytes buf h = (Ret l, h') /\ wf_heap h' /\ ext h h' /\
    blobs h' !! l = Some (MkBytes buf (Z.of_nat (s_len buf)) (S (next h))) /\
    mutexes h' !! S (next h) = Some false /\ l = next h /\ arrays h' = arrays h.
Proof.
  intros Hwf Hb. pose proof (safe_NewBytes h buf Hwf Hb) as Hs. unfold safe in Hs.
  rewrite NewBytes_eq in *. destruct Hs as (? & ? & ?).
  do 2 eexists. split_and!; try done.
  - split; simpl; try done; [lia|..].
    + intros l Hl. by rewrite lookup_insert_ne by lia.
    + intros m Hm. by rewrite lookup_insert_ne by lia.
    + intros m v Hm. destruct (decide (m = S (next h))) as [->|].
      * rewrite lookup_insert_eq. congruence.
      * rewrite lookup_insert_ne by done. intros E. apply mutex_lt in E; [lia|done].
  - simpl. by rewrite lookup_insert_eq.
  - simpl. by rewrite lookup_insert_eq.
Qed.

(** A blob of a new array. *)
Lemma new_blob_spec h data :
  wf_heap h ->
  exists s h1 l h2, make_slice data h = (Ret s, h1) /\ NewBytes s h1 = (Ret l, h2) /\
    wf_heap h2 /\ ext h h2 /\ read_slice h2 s = data /\
    exists b, usable h2 l b /\ bytes b = s.
Proof.
  intros Hwf. destruct (make_slice_spec h data Hwf) as (s & h1 & E1 & Hwf1 & Hx1 & Hs & Hr & _).
  destruct (NewBytes_spec h1 s Hwf1 Hs) as (l & h2 & E2 & Hwf2 & Hx2 & Hl & Hmu & _ & Ha).
  exists s, h1, l, h2. split_and!; [done|done|done|by eapply ext_trans| |].
  - rewrite <- Hr. apply read_slice_eq; [done|done|]. intros. by rewrite Ha.
  - eexists. split; [by split|done].
Qed.

(** ** Copying *)

(** [write_slice] changes one array, by a splice. *)
Lemma write_slice_spec h s i data :
  exists h', write_slice s i data h = (Ret tt, h') /\
    blobs h' = blobs h /\ mutexes h' = mutexes h /\ next h' = next h /\
    (forall a, a <> s_arr s \/ data = [] -> arrays h' !! a = arrays h !! a) /\
    array h' (s_arr s) = splice (array h (s_arr s)) (s_off s + i) data.
Proof.
  unfold write_slice. destruct data as [|x data].
  - exists h. split_and!; try done. by rewrite splice_nil.
  - eexists. split; [reflexivity|]. split_and!; try done.
    + intros a [Ha|Ha]; [|done]. simpl. by rewrite lookup_insert_ne.
    + apply array_insert_eq.
Qed.

(** [copy(dst, src)] overwrites the beginning of what [dst] shows. *)
Lemma copy_slice_spec h dst src :
  wf_slice h dst ->
  exists h', copy_slice dst src h =
      (Ret (Z.of_nat (Nat.min (s_len dst) (length (read_slice h src)))), h') /\
    blobs h' = blobs h /\ mutexes h' = mutexes h /\ next h' = next h /\
    (forall a, a <> s_arr dst \/ s_len dst = 0 -> arrays h' !! a = arrays h !! a) /\
    array h' (s_arr dst) =
      splice (array h (s_arr dst)) (s_off dst) (take (s_len dst) (read_slice h src)).
Proof.
  intros [Hl Ho]. unfold copy_slice. go_simpl.
  destruct (write_slice_spec h dst 0 (take (s_len dst) (read_slice h src)))
    as (h' & E & Hb & Hm & Hn & Ha & Harr).
  run E. exists h'. rewrite Nat.add_0_r in Harr. split_and!; try done.
  - unfold ret. by rewrite length_take.
  - intros a [?|H0]; apply Ha; [by left|right]. by rewrite H0.
Qed.

Lemma check_range_ok len s e :
  (0 <= s <= len)%Z -> (0 <= e <= len)%Z -> check_range len s e = None.
Proof. intros. by apply check_range_None. Qed.

Lemma safe_run {A} h (m : M heap A) Q r h' :
  safe h m Q -> m h = (r, h') -> wf_heap h' /\ grows h h'.
Proof. unfold safe. intros Hs E. rewrite E in Hs. tauto. Qed.

(** Copying under a lock: the lock leaves no trace. *)
Lemma locked_copy_spec h m dst src :
  wf_heap h -> mutexes h !! m = Some false -> wf_slice h dst ->
  exists n h2 h3, lock m h = (Ret tt, set_mutexes (<[m := true]> (mutexes h)) h) /\
    copy_slice dst src (set_mutexes (<[m := true]> (mutexes h)) h) = (Ret n, h2) /\
    n = Z.of_nat (Nat.min (s_len dst) (length (read_slice h src))) /\
    unlock m h2 = (Ret tt, h3) /\
    wf_heap h3 /\ grows h h3 /\ blobs h3 = blobs h /\ mutexes h3 = mutexes h /\ next h3 = next h /\
    (forall a, a <> s_arr dst -> arrays h3 !! a = arrays h !! a) /\
    array h3 (s_arr dst) =
      splice (array h (s_arr dst)) (s_off dst) (take (s_len dst) (read_slice h src)).
Proof.
  intros Hwf Hm Hd. set (h1 := set_mutexes _ h).
  assert (El : lock m h = (Ret tt, h1)) by by apply lock_eq.
  destruct (safe_run h (lock m) _ _ _ (safe_lock h m Hwf ltac:(eauto)) El) as [Hwf1 Hg1].
  destruct (copy_slice_spec h1 dst src) as (h2 & Ec & Hb & Hmu & Hn & Ha & Harr).
  { by eapply wf_slice_grows. }
  destruct (safe_run h1 _ _ _ _ (safe_copy_slice h1 dst src Hwf1 ltac:(by eapply wf_slice_grows)) Ec)
    as [Hwf2 Hg2].
  assert (Eu : unlock m h2 = (Ret tt, set_mutexes (<[m := false]> (mutexes h2)) h2)).
  { apply unlock_eq. rewrite Hmu. simpl. by rewrite lookup_insert_eq. }
  destruct (safe_run h2 _ _ _ _ (safe_unlock h2 m Hwf2) Eu) as [Hwf3 Hg3].
  do 3 eexists. split; [exact El|]. split; [exact Ec|]. split; [done|]. split; [exact Eu|].
  split_and!; try done.
  - etrans; [exact Hg1|]. by etrans.
  - simpl. rewrite Hmu. simpl. by rewrite relock.
  - intros a Hne. apply Ha. by left.
Qed.

(** ** [Slice] and [Bytes] *)
Lemma Bytes_Slice_spec `{GoRuntime} h l b s e :
  wf_heap h -> usable h l b -> (0 <= s <= e)%Z -> (e <= length_ b)%Z ->
  exists l' b' h', Bytes_Slice l s e h = (Ret (Some l', None), h') /\
    wf_heap h' /\ ext h h' /\ blobs h' !! l' = Some b' /\ next h <= l' /\
    next h <= s_arr (bytes b') /\ usable h' l' b' /\
    s_len (bytes b') = Z.to_nat (e - s) /\
    read_slice h' (bytes b') = take (Z.to_nat (e - s)) (read_slice h (bytes b)).
Proof.
  intros Hwf [Hb Hmu] Hs He.
  pose proof (wf_blobs h Hwf l b Hb) as Hwb. destruct Hwb as [Hwb Hlen _].
  unfold Bytes_Slice. run (Bytes_Len_eq h l b Hb).
  rewrite check_range_ok by lia. run (get_blob_eq h l b Hb).
  unfold make_zeros. destruct (Z.ltb_spec (e - s) 0); [lia|].
  set (k := Z.to_nat (e - s)).
  destruct (make_slice_spec h (replicate k zero) Hwf)
    as (buf & h1 & E1 & Hwf1 & Hx1 & Hbuf & Hrd & Harr & Hblen & Hb1 & Hm1).
  rewrite length_replicate in Hblen. run E1.
  destruct (locked_copy_spec h1 (mu b) buf (bytes b)) as
    (n & h2 & h3 & El & Ec & _ & Eu & Hwf3 & Hg3 & Hb3 & Hm3 & Hn3 & Ha3 & Hs3);
    [done|by rewrite Hm1|done|].
  run El. run Ec. run Eu.
  assert (Hx3 : ext h h3).
  { split; [rewrite Hn3; by apply (ext_next h h1)|..]; intros.
    - by rewrite Hb3, Hb1.
    - rewrite Ha3 by lia. by apply (ext_arrays h h1).
    - by rewrite Hm3, Hm1.
    - rewrite Hm3 in *. by eapply (ext_unlocked h h1). }
  destruct (NewBytes_spec h3 buf Hwf3 ltac:(by eapply wf_slice_grows))
    as (l' & h4 & E4 & Hwf4 & Hx4 & Hl' & Hmu' & -> & Ha4).
  run E4. do 3 eexists. split; [reflexivity|]. split; [done|].
  split; [by eapply ext_trans|]. split; [exact Hl'|].
  pose proof (ext_next _ _ Hx3). simpl. split_and!; [lia|lia|by split|done|].
  assert (Har : array h4 (s_arr buf) = array h3 (s_arr buf)) by (unfold array; by rewrite Ha4).
  unfold read_slice at 1. rewrite Har, Hs3.
  assert (Hsrc : read_slice h1 (bytes b) = read_slice h (bytes b)).
  { apply read_slice_eq; [done..|]. intros. by apply (ext_arrays h h1). }
  rewrite Hsrc. rewrite <- (Nat.add_0_r (s_off buf)) at 2.
  destruct Hbuf as [Hbl Hbo].
  pose proof (length_read_slice h (bytes b) Hwb).
  rewrite window_splice by (rewrite ?length_take; lia).
  fold (read_slice h1 buf). rewrite Hrd, Hblen.
  unfold splice. simpl. rewrite length_take, drop_ge; [by rewrite app_nil_r|].
  rewrite length_replicate. lia.
Qed.

Lemma Bytes_Bytes_spec `{GoRuntime} h l b :
  wf_heap h -> usable h l b ->
  exists s h', Bytes_Bytes l h = (Ret s, h') /\ wf_heap h' /\ ext h h' /\
    wf_slice h' s /\ next h <= s_arr s /\ read_slice h' s = read_slice h (bytes b).
Proof.
  intros Hwf Hu. pose proof Hu as [Hb _].
  pose proof (wf_blobs h Hwf l b Hb) as [Hwb Hlen _].
  unfold Bytes_Bytes. run (Bytes_Len_eq h l b Hb).
  destruct (Bytes_Slice_spec h l b 0 (length_ b)) as
    (l' & b' & h' & E & Hwf' & Hx & Hl' & _ & Hn & Hu' & _ & Hr); [done|done|lia|lia|].
  run E. run (get_blob_eq h' l' b' Hl').
  do 2 eexists. split; [reflexivity|]. split_and!; try done.
  - by destruct (wf_blobs h' Hwf' l' b' Hl').
  - rewrite Hr, take_ge; [done|]. rewrite length_read_slice by done. lia.
Qed.

(** The data a source blob hands over, and the state it needs for that. *)
Definition blob_data (h : heap) (src : Blob) (data : list byte) : Prop :=
  match src with
  | BBytes l => exists b, usable h l b /\ data = read_slice h (bytes b)
  | BPlain d => data = d
  end.

Lemma Blob_Bytes_spec `{GoRuntime} h src data :
  wf_heap h -> blob_data h src data ->
  exists s h', Blob_Bytes src h = (Ret s, h') /\ wf_heap h' /\ ext h h' /\
    wf_slice h' s /\ next h <= s_arr s /\ read_slice h' s = data.
Proof.
  intros Hwf Hd. destruct src as [l|d]; simpl in *.
  - destruct Hd as (b & Hu & ->). by apply Bytes_Bytes_spec.
  - subst. destruct (make_slice_spec h d Hwf) as (s & h' & E & ? & ? & ? & ? & Hn & _).
    exists s, h'. split_and!; try done. lia.
Qed.
Lemma Blob_Len_spec h src data :
  wf_heap h -> blob_data h src data -> Blob_Len src h = (Ret (Z.of_nat (length data)), h).
Proof.
  intros Hwf Hd. destruct src as [l|d]; simpl in *; [|by subst].
  destruct Hd as (b & [Hb _] & ->). rewrite (Bytes_Len_eq h l b Hb).
  pose proof (wf_blobs h Hwf l b Hb) as [Hwb -> _]. by rewrite length_read_slice.
Qed.

(** ** [View] *)

(** [View] allocates a header on the same array, with the same mutex. *)
Lemma Bytes_View_spec `{GoRuntime} h l b s e :
  wf_heap h -> usable h l b -> (0 <= s <= e)%Z -> (e <= length_ b)%Z ->
  exists v h', Bytes_View l s e h = (Ret (Some (BBytes v), None), h') /\
    wf_heap h' /\ ext h h' /\ next h <= v /\ arrays h' = arrays h /\
    blobs h' !! v =
      Some (MkBytes (Slice (s_arr (bytes b)) (s_off (bytes b) + Z.to_nat s)
              (Z.to_nat (e - s)) (s_cap (bytes b) - Z.to_nat s)) (e - s) (mu b)).
Proof.
  intros Hwf [Hb Hmu] Hs He.
  pose proof (wf_blobs h Hwf l b Hb) as [Hwb Hlen _].
  pose proof (safe_Bytes_View h l s e Hwf) as Hsafe.
  destruct (Bytes_View l s e h) as [r h'] eqn:E.
  destruct (safe_run _ _ _ _ _ Hsafe E) as [Hwf' _]. revert E.
  unfold Bytes_View. run (Bytes_Len_eq h l b Hb).
  rewrite check_range_ok by lia. run (get_blob_eq h l b Hb).
  unfold with_lock. run (lock_eq h (mu b) Hmu).
  unfold reslice.
  replace ((0 <=? s) && (s <=? e) && (e <=? Z.of_nat (s_cap (bytes b))))%Z with true
    by (destruct Hwb; symmetry; rewrite !andb_true_iff, !Z.leb_le; lia).
  go_simpl. unfold bind at 1. rewrite NewBytes_eq. cbv beta iota.
  unfold bind at 1. erewrite get_blob_eq by (simpl; by rewrite lookup_insert_eq).
  cbv beta iota. unfold put_blob. go_simpl. unfold ret at 1. cbv beta iota.
  assert (Hne : S (next h) <> mu b) by (apply mutex_lt in Hmu; [lia|done]).
  erewrite bind_Ret; [|apply unlock_eq; simpl; rewrite lookup_insert_ne by done;
                       by rewrite lookup_insert_eq].
  unfold ret. intros [= <- <-]. do 2 eexists. split; [reflexivity|].
  split; [exact Hwf'|]. simpl. split.
  { split; simpl; try done; [lia|..].
    - intros l' ?. by rewrite !lookup_insert_ne by lia.
    - intros m Hm. rewrite insert_insert_ne by done. rewrite lookup_insert_ne by lia.
      by rewrite relock.
    - intros m v Hm. rewrite insert_insert_ne by done. rewrite relock by done.
      destruct (decide (m = S (next h))) as [->|]; [rewrite lookup_insert_eq; congruence|].
      rewrite lookup_insert_ne by done. intros Hx. apply mutex_lt in Hx; [lia|done]. }
  split; [lia|]. split; [done|]. rewrite lookup_insert_eq. do 2 f_equal; lia.
Qed.

(** ** [Set] *)

(** Copying [data] into a blob of contents [c] at [off]. *)
Definition set_at (c : list byte) (off : nat) (data : list byte) : list byte :=
  splice c off (take (length c - off) data).

(** Under the lock of the blob [l], memory was allocated and the array of its slice was
    written; the lock is free again. *)
Lemma relocked_upd h h2 h3 l b :
  wf_heap h -> wf_slice h (bytes b) -> mutexes h !! mu b = Some false ->
  ext (set_mutexes (<[mu b := true]> (mutexes h)) h) h2 ->
  blobs h3 = blobs h2 -> mutexes h3 = mutexes h2 -> next h3 = next h2 ->
  (forall a, a <> s_arr (bytes b) \/ s_cap (bytes b) = 0 -> a < next h ->
     arrays h3 !! a = arrays h2 !! a) ->
  upd h (set_mutexes (<[mu b := false]> (mutexes h3)) h3) l (bytes b).
Proof.
  intros Hwf Hwb Hmu Hx2 Hb3 Hm3 Hn3 Ha3.
  pose proof (ext_next _ _ Hx2) as Hnx. simpl in Hnx.
  assert (Hml : mu b < next h) by by apply mutex_lt in Hmu.
  split; simpl; [lia|..].
  - intros l' ? ?. by rewrite Hb3, (ext_blobs _ h2 Hx2).
  - intros a' Ha' ?. by rewrite Ha3, (ext_arrays _ h2 Hx2).
  - intros m Hm. destruct (decide (m = mu b)) as [->|].
    + by rewrite lookup_insert_eq.
    + rewrite lookup_insert_ne by done. rewrite Hm3, (ext_mutexes _ h2 Hx2) by done.
      simpl. by rewrite lookup_insert_ne.
  - intros m v Hm. destruct (decide (m = mu b)) as [->|]; [lia|].
    rewrite lookup_insert_ne by done. rewrite Hm3. intros. by eapply (ext_unlocked _ h2 Hx2).
Qed.

Lemma Bytes_Set_spec `{GoRuntime} h l b src data off :
  wf_heap h -> usable h l b -> blob_data h src data ->
  (match src with BBytes ls => forall bs, blobs h !! ls = Some bs -> mu bs <> mu b | BPlain _ => True end) ->
  (0 <= off <= length_ b)%Z -> (0 < length_ b \/ data = [])%Z ->
  exists h', Bytes_Set l src off h =
      (Ret (Z.min (length_ b - off) (Z.of_nat (length data)), None), h') /\
    wf_heap h' /\ upd h h' l (bytes b) /\ blobs h' !! l = Some b /\
    read_slice h' (bytes b) = set_at (read_slice h (bytes b)) (Z.to_nat off) data /\
    (0 < s_cap (bytes b) -> array h' (s_arr (bytes b)) = splice (array h (s_arr (bytes b)))
      (s_off (bytes b) + Z.to_nat off) (take (s_len (bytes b) - Z.to_nat off) data)).
Proof.
  intros Hwf Hu Hd Hmus Hoff Hpos. pose proof Hu as [Hb Hmu].
  pose proof (wf_blobs h Hwf l b Hb) as [Hwb Hlen _].
  pose proof (safe_Bytes_Set h l src off Hwf) as Hsafe.
  destruct (Bytes_Set l src off h) as [r h'] eqn:E.
  destruct (safe_run _ _ _ _ _ Hsafe E) as [Hwf' _]. clear Hsafe. revert E.
  unfold Bytes_Set. destruct (Z.ltb_spec off 0); [lia|].
  run (Bytes_Len_eq h l b Hb). run (Blob_Len_spec h src data Hwf Hd).
  replace ((length_ b <=? off) && (off =? 0) && (0 <? Z.of_nat (length data)))%Z with false.
  2:{ symmetry. destruct Hpos as [Hpos| ->]; [|by rewrite andb_false_r].
      destruct (Z.leb_spec (length_ b) off), (Z.eqb_spec off 0); try done. lia. }
  run (get_blob_eq h l b Hb). run (lock_eq h (mu b) Hmu).
  set (h1 := set_mutexes _ h).
  assert (El : lock (mu b) h = (Ret tt, h1)) by by apply lock_eq.
  destruct (safe_run h _ _ _ _ (safe_lock h (mu b) Hwf ltac:(eauto)) El) as [Hwf1 Hg1].
  assert (Hd1 : blob_data h1 src data).
  { destruct src as [ls|d]; [|done]. destruct Hd as (bs & [Hbs Hms] & ->).
    exists bs. split; [|done]. split; [done|]. simpl.
    rewrite lookup_insert_ne; [done|]. by apply not_eq_sym, (Hmus bs). }
  destruct (Blob_Bytes_spec h1 src data Hwf1 Hd1) as (sb & h2 & Eb & Hwf2 & Hx2 & Hsb & Hnsb & Hrsb).
  run Eb. unfold slice_from.
  replace ((0 <=? off) && (off <=? Z.of_nat (s_len (bytes b))))%Z with true
    by (symmetry; rewrite andb_true_iff, !Z.leb_le; lia).
  go_simpl. set (dest := Slice _ _ _ _).
  assert (Hdest : wf_slice h2 dest).
  { eapply wf_slice_grows; [|].
    - exact (proj2 (safe_run h1 _ _ _ _ (safe_Blob_Bytes h1 src Hwf1) Eb)).
    - eapply wf_slice_grows; [exact Hg1|]. destruct Hwb. split; simpl; lia. }
  destruct (copy_slice_spec h2 dest sb Hdest) as (h3 & Ec & Hb3 & Hm3 & Hn3 & Ha3 & Hs3).
  run Ec.
  assert (Hml : mu b < next h) by eauto with go_wf.
  assert (Hm3' : mutexes h3 !! mu b = Some true).
  { rewrite Hm3, (ext_mutexes h1 h2 Hx2) by done. simpl. by rewrite lookup_insert_eq. }
  run (unlock_eq h3 (mu b) Hm3'). unfold ret. intros [= <- <-].
  exists (set_mutexes (<[mu b := false]> (mutexes h3)) h3).
  split. { do 3 f_equal. rewrite Hrsb. simpl. lia. }
  split; [exact Hwf'|]. clear Hwf'. pose proof (ext_next _ _ Hx2) as Hnx. simpl in Hnx.
  assert (Hsl : read_slice h2 (bytes b) = read_slice h (bytes b)).
  { apply read_slice_eq; [done..|]. intros. by rewrite (ext_arrays h1 h2 Hx2). }
  split; [|split; [|split]].
  - apply (relocked_upd h h2 h3 l b Hwf Hwb Hmu Hx2 Hb3 Hm3 Hn3).
    intros a' Ha' ?. apply Ha3. simpl. destruct Ha'; [by left|right; destruct Hwb; lia].
  - simpl. rewrite Hb3, (ext_blobs h1 h2 Hx2); [done|]. simpl. eauto with go_wf.
  - unfold read_slice at 1. simpl. change (array (set_mutexes _ h3)) with (array h3).
    replace (s_arr (bytes b)) with (s_arr dest) by done. rewrite Hs3. simpl.
    rewrite Hrsb. pose proof (wf_slice_grows _ _ (bytes b) Hg1 Hwb) as Hwb1.
    assert (Hwb2 : wf_slice h2 (bytes b)).
    { eapply wf_slice_grows; [|exact Hwb1].
      exact (proj2 (safe_run h1 _ _ _ _ (safe_Blob_Bytes h1 src Hwf1) Eb)). }
    destruct Hwb2. rewrite window_splice by (rewrite ?length_take; lia).
    fold (read_slice h2 (bytes b)). rewrite Hsl. unfold set_at.
    by rewrite length_read_slice by done.
  - intros Hc. simpl. change (array (set_mutexes _ h3)) with (array h3).
    change (s_arr (bytes b)) with (s_arr dest) at 1. rewrite Hs3. simpl. rewrite Hrsb.
    unfold array. rewrite (ext_arrays h1 h2 Hx2); [done|]. by apply (wf_slice_array h).
Qed.

(** ** [append], [Grow] and [Truncate] *)
Lemma append_slice_spec `{GoRuntime} h s data :
  wf_heap h -> wf_slice h s ->
  exists s' h', append_slice s data h = (Ret s', h') /\
    blobs h' = blobs h /\ mutexes h' = mutexes h /\ next h <= next h' /\
    (forall a, a <> s_arr s \/ s_cap s = 0 -> a < next h -> arrays h' !! a = arrays h !! a) /\
    (s_arr s' = s_arr s /\ s_cap s' = s_cap s \/ next h <= s_arr s') /\
    s_len s' = s_len s + length data /\
    read_slice h' s' = read_slice h s ++ data.
Proof.
  intros Hwf Hs. pose proof Hs as [Hl Ho]. unfold append_slice.
  pose proof (length_read_slice h s Hs) as Hlen.
  destruct (decide _) as [Hfit|Hfit].
  - destruct (write_slice_spec h s (s_len s) data) as (h' & E & Hb & Hm & Hn & Ha & Harr).
    run E. do 2 eexists. split; [reflexivity|]. split_and!; try done; [lia| |by left|].
    { intros a [?|Hc] _; apply Ha; [by left|right]. apply nil_length_inv. lia. }
    unfold read_slice at 1. simpl. rewrite Harr.
    rewrite window_splice by lia.
    rewrite <- (take_drop (s_len s) (take _ _)) at 1. unfold splice.
    rewrite take_app_length' by (rewrite !length_take, length_drop; lia).
    rewrite take_take, Nat.min_l by lia. f_equal.
    rewrite drop_ge; [by rewrite app_nil_r|].
    rewrite length_app, length_drop, !length_take, length_drop. lia.
  - go_simpl. set (d := _ ++ _ ++ _).
    unfold bind, ret. rewrite make_slice_eq. cbv beta iota.
    do 2 eexists. split; [reflexivity|]. simpl. split_and!; try done.
    + lia.
    + intros a' ? ?. rewrite lookup_insert_ne by lia. done.
    + by right.
    + unfold read_slice at 1, array. simpl. rewrite lookup_insert_eq. simpl.
      rewrite drop_0. unfold d. rewrite (assoc_L (++)), take_app_length'; [done|].
      rewrite length_app. lia.
Qed.

(** The arrays a blob may come to live on. *)
Definition moved (h : heap) (b b' : Bytes) : Prop :=
  mu b' = mu b /\
  (s_arr (bytes b') = s_arr (bytes b) /\ s_cap (bytes b') = s_cap (bytes b) \/
   next h <= s_arr (bytes b')).

Lemma Bytes_Grow_spec `{GoRuntime} h l b off :
  wf_heap h -> usable h l b -> (0 <= off)%Z ->
  exists b' h', Bytes_Grow l off h = (Ret None, h') /\ wf_heap h' /\
    upd h h' l (bytes b) /\ usable h' l b' /\ moved h b b' /\
    length_ b' = (length_ b + off)%Z /\
    read_slice h' (bytes b') = read_slice h (bytes b) ++ replicate (Z.to_nat off) zero.
Proof.
  intros Hwf [Hb Hmu] Hoff.
  pose proof (wf_blobs h Hwf l b Hb) as [Hwb Hlen _].
  pose proof (safe_Bytes_Grow h l off Hwf) as Hsafe.
  destruct (Bytes_Grow l off h) as [r h'] eqn:E.
  destruct (safe_run _ _ _ _ _ Hsafe E) as [Hwf' _]. clear Hsafe. revert E.
  unfold Bytes_Grow. run (get_blob_eq h l b Hb). run (lock_eq h (mu b) Hmu).
  destruct (Z.ltb_spec off 0); [lia|]. go_simpl. set (h1 := set_mutexes _ h).
  assert (El : lock (mu b) h = (Ret tt, h1)) by by apply lock_eq.
  destruct (safe_run h _ _ _ _ (safe_lock h (mu b) Hwf ltac:(eauto)) El) as [Hwf1 Hg1].
  destruct (append_slice_spec h1 (bytes b) (replicate (Z.to_nat off) zero) Hwf1)
    as (s' & h2 & Ea & Hb2 & Hm2 & Hn2 & Ha2 & Harr & Hslen & Hrd).
  { by eapply wf_slice_grows. }
  run Ea. unfold put_blob. go_simpl.
  assert (Hm3 : mutexes h2 !! mu b = Some true) by (rewrite Hm2; simpl; by rewrite lookup_insert_eq).
  erewrite bind_Ret; [|by apply unlock_eq]. unfold ret. intros [= <- <-]. simpl in Hn2.
  do 2 eexists. split; [reflexivity|]. split; [exact Hwf'|]. simpl.
  assert (Hms : <[mu b := false]> (mutexes h2) = mutexes h).
  { rewrite Hm2. simpl. by rewrite relock. }
  split; [|split; [|split; [|split]]].
  - split; simpl; [lia|..].
    + intros l' ? ?. rewrite lookup_insert_ne by done. by rewrite Hb2.
    + intros a' ? ?. by apply Ha2.
    + intros m Hm. by rewrite Hms.
    + intros m v Hm. rewrite Hms. intros Hx. apply mutex_lt in Hx; [lia|done].
  - split; simpl; [apply lookup_insert_eq|]. by rewrite Hms.
  - split; [done|]. exact Harr.
  - simpl. rewrite Hslen, length_replicate. lia.
  - exact Hrd.
Qed.

Lemma Bytes_Truncate_spec `{GoRuntime} h l b size :
  wf_heap h -> usable h l b -> (0 <= size <= length_ b)%Z ->
  exists b' h', Bytes_Truncate l size h = (Ret None, h') /\ wf_heap h' /\
    upd h h' l (bytes b) /\ usable h' l b' /\ moved h b b' /\
    length_ b' = size /\ read_slice h' (bytes b') = take (Z.to_nat size) (read_slice h (bytes b)).
Proof.
  intros Hwf [Hb Hmu] Hsize.
  pose proof (wf_blobs h Hwf l b Hb) as [Hwb Hlen _].
  pose proof (safe_Bytes_Truncate h l size Hwf) as Hsafe.
  destruct (Bytes_Truncate l size h) as [r h'] eqn:E.
  destruct (safe_run _ _ _ _ _ Hsafe E) as [Hwf' _]. clear Hsafe. revert E.
  unfold Bytes_Truncate. run (Bytes_Len_eq h l b Hb).
  destruct (Z.ltb_spec (length_ b) size); [lia|].
  run (get_blob_eq h l b Hb). run (lock_eq h (mu b) Hmu). set (h1 := set_mutexes _ h).
  run (Bytes_Len_eq h1 l b Hb). destruct (Z.leb_spec size (length_ b)); [|lia].
  unfold reslice.
  replace ((0 <=? 0) && (0 <=? size) && (size <=? Z.of_nat (s_cap (bytes b))))%Z with true
    by (destruct Hwb; symmetry; rewrite !andb_true_iff, !Z.leb_le; lia).
  unfold put_blob. go_simpl.
  erewrite bind_Ret; [|by apply unlock_eq; simpl; apply lookup_insert_eq].
  unfold ret. intros [= <- <-].
  do 2 eexists. split; [reflexivity|]. split; [exact Hwf'|]. simpl.
  rewrite relock by done.
  split; [|split; [|split; [|split]]].
  - split; simpl; try done.
    + intros l' ? ?. by rewrite lookup_insert_ne.
    + intros m v Hm. intros Hx. apply mutex_lt in Hx; [lia|done].
  - split; simpl; [apply lookup_insert_eq|]. done.
  - split; [done|]. left. simpl. split; [done|lia].
  - simpl. lia.
  - unfold read_slice. simpl. change (array (Heap _ _ _ _)) with (array h).
    rewrite Z.sub_0_r, Nat.add_0_r, take_take. f_equal. lia.
Qed.
