(* ===== verification/BlobThms.v ===== *)
(** * Properties of blobs

    The theorems about [keyvalue/blob] proper: the invariant of the heap under
    every sequence of operations, the exact effect of each operation of
    [Bytes] with its frame, the aliasing of views, and the three places where
    the code goes wrong ([Slice], [Set] past the end, [Set] from a view). *)
From S2P Require Import Prelude.
From S2P Require Import Errors.
From S2P Require Import Blob.
From S2P Require Import BlobSpec.

Section theorems.
Context `{GoRuntime}.
Implicit Types (h : heap) (l : nat) (b : Bytes) (c data : list byte).

(** Everything but the blob [l] is as before: the headers of the blobs that
    were there, and the contents of those that share no memory with it. *)
Definition only_changed h h' l : Prop :=
  idle h' /\
  forall b l' b', blobs h !! l = Some b -> blobs h !! l' = Some b' -> l' <> l ->
    blobs h' !! l' = Some b' /\
    ((s_arr (bytes b') <> s_arr (bytes b) \/ s_cap (bytes b) = 0) ->
     contents h' l' = contents h l').

Lemma upd_only_changed h h' l b :
  wf_heap h -> idle h -> blobs h !! l = Some b -> upd h h' l (bytes b) ->
  only_changed h h' l.
Proof.
  intros Hwf Hi Hb Hu. split; [by apply (upd_idle h _ l (bytes b))|].
  intros b0 l' b'. rewrite Hb. intros [= <-] Hb' Hne. split.
  - rewrite (upd_blobs h h' l (bytes b) Hu); [done..|]. eauto with go_wf.
  - intros Ha. apply (upd_contents h h' l (bytes b) l' b'); tauto.
Qed.

(** The contents of a blob, and that nobody holds a mutex. *)
Definition holds_bytes h l c : Prop := wf_heap h /\ idle h /\ contents h l = Some c.

Lemma holds_bytes_usable h l c :
  holds_bytes h l c -> exists b, usable h l b /\ c = read_slice h (bytes b) /\
    length_ b = Z.of_nat (length c) /\ wf_slice h (bytes b).
Proof.
  intros (Hwf & Hi & Hc). destruct (contents_inv h l c Hc) as (b & Hb & ->).
  destruct (wf_blobs h Hwf l b Hb) as [Hs Hl _].
  exists b. split_and!; [by apply idle_usable|done|by rewrite Hl, length_read_slice|done].
Qed.

(** Whatever operations run on blobs, in whatever order and whether they
    return, panic or block, every slice stays inside its array and every
    cached length is that of its slice. *)
Theorem blob_ops_keep_invariant (ops : list blob_op) :
  wf_heap (fold_left (fun h op => run_op op h) ops empty_heap).
Proof.
  generalize wf_empty_heap. generalize empty_heap.
  induction ops as [|op ops IH]; intros h Hwf; simpl; [done|]. by apply IH, run_op_wf.
Qed.

(** [Set] copies the source over the bytes from the offset on, as far as
    they reach, reports how many it copied, and touches nothing else. *)
Theorem Set_overwrites h l c data (off : Z) :
  holds_bytes h l c -> (0 <= off <= Z.of_nat (length c))%Z -> c <> [] ->
  exists h',
    Set_ (BBytes l) (BPlain data) off h =
      (Ret (Z.min (Z.of_nat (length c) - off) (Z.of_nat (length data)), None), h') /\
    holds_bytes h' l (splice c (Z.to_nat off) (take (length c - Z.to_nat off) data)) /\
    only_changed h h' l.
Proof.
  intros Hc Hoff Hne. pose proof Hc as (Hwf & Hi & Hcont).
  destruct (holds_bytes_usable h l c Hc) as (b & Hub & -> & Hlen & Hs).
  set (c := read_slice h (bytes b)) in *.
  assert (0 < length c) by (destruct c; [done|simpl; lia]).
  destruct (Bytes_Set_spec h l b (BPlain data) data off) as (h' & E & Hwf' & Hu & Hb' & Hr & _);
    [done..|lia|lia|].
  exists h'. rewrite Hlen in E. split_and!; [exact E| |].
  - split_and!; [done|by apply (upd_idle h _ l (bytes b))|].
    by rewrite (contents_Some h' l b), Hr.
  - apply (upd_only_changed h h' l b); [done|done|apply Hub|done].
Qed.

(** [Grow] appends zeros, and touches nothing that does not share memory
    with the blob. *)
Theorem Grow_appends_zeros h l c (n : Z) :
  holds_bytes h l c -> (0 <= n)%Z ->
  exists h', Grow (BBytes l) n h = (Ret None, h') /\
    holds_bytes h' l (c ++ replicate (Z.to_nat n) zero) /\ only_changed h h' l.
Proof.
  intros Hc Hn. pose proof Hc as (Hwf & Hi & _).
  destruct (holds_bytes_usable h l c Hc) as (b & Hub & -> & Hlen & Hs).
  destruct (Bytes_Grow_spec h l b n Hwf Hub Hn)
    as (b' & h' & E & Hwf' & Hu & [Hb' _] & _ & _ & Hr).
  exists h'. split_and!; [exact E| |].
  - split_and!; [done|by apply (upd_idle h _ l (bytes b))|].
    by rewrite (contents_Some h' l b'), Hr.
  - apply (upd_only_changed h h' l b); [done|done|apply Hub|done].
Qed.

(** [Truncate] cuts a blob down and leaves a shorter one alone. *)
Theorem Truncate_cuts h l c (n : Z) :
  holds_bytes h l c -> (0 <= n)%Z ->
  exists h', Truncate (BBytes l) n h = (Ret None, h') /\
    holds_bytes h' l (take (Z.to_nat n) c) /\ only_changed h h' l.
Proof.
  intros Hc Hn. pose proof Hc as (Hwf & Hi & Hcont).
  destruct (holds_bytes_usable h l c Hc) as (b & Hub & -> & Hlen & Hs).
  destruct (Z.le_gt_cases n (length_ b)) as [Hle|Hgt].
  - destruct (Bytes_Truncate_spec h l b n Hwf Hub)
      as (b' & h' & E & Hwf' & Hu & [Hb' _] & _ & _ & Hr); [lia|].
    exists h'. split_and!; [exact E| |].
    + split_and!; [done|by apply (upd_idle h _ l (bytes b))|].
      by rewrite (contents_Some h' l b'), Hr.
    + apply (upd_only_changed h h' l b); [done|done|apply Hub|done].
  - exists h. split_and!.
    + simpl. unfold Bytes_Truncate. run (Bytes_Len_eq h l b (proj1 Hub)).
      by destruct (Z.ltb_spec (length_ b) n); [|lia].
    + split_and!; [done..|]. rewrite Hcont, take_ge by lia. done.
    + split; [done|]. intros b0 l' b' _ Hb' _. by split.
Qed.

(** A [View] shares memory with its blob: it shows the range asked for,
    and a [Set] through it shows in the blob at the same place. *)
Theorem View_aliases h l c (s e off : Z) data :
  holds_bytes h l c -> (0 <= s < e)%Z -> (e <= Z.of_nat (length c))%Z -> (0 <= off)%Z ->
  (off + Z.of_nat (length data) <= e - s)%Z ->
  exists v h1 h2,
    View (BBytes l) s e h = (Ret (Some (BBytes v), None), h1) /\
    holds_bytes h1 l c /\
    holds_bytes h1 v (take (Z.to_nat (e - s)) (drop (Z.to_nat s) c)) /\
    Set_ (BBytes v) (BPlain data) off h1 = (Ret (Z.of_nat (length data), None), h2) /\
    holds_bytes h2 l (splice c (Z.to_nat (s + off)) data) /\
    holds_bytes h2 v (splice (take (Z.to_nat (e - s)) (drop (Z.to_nat s) c)) (Z.to_nat off) data).
Proof.
  intros Hc Hs He Hoff Hdata. pose proof Hc as (Hwf & Hi & Hcont).
  destruct (holds_bytes_usable h l c Hc) as (b & Hub & Heq & Hlen & Hsl).
  destruct (Bytes_View_spec h l b s e) as (v & h1 & E1 & Hwf1 & Hx1 & Hv & Ha1 & Hbv);
    [done|done|lia|lia|].
  set (bv := MkBytes _ _ _) in Hbv. pose proof Hub as [Hb Hm].
  destruct (ext_contents h h1 l Hwf Hx1 ltac:(by eexists)) as [Hb1 Hc1].
  rewrite Hb in Hb1. assert (Hi1 : idle h1) by by apply (ext_idle h).
  assert (Harr : array h1 = array h) by (unfold array; by rewrite Ha1).
  assert (Hlenc : s_len (bytes b) = length c).
  { by rewrite Heq, length_read_slice. }
  assert (Hrv : read_slice h1 (bytes bv) = take (Z.to_nat (e - s)) (drop (Z.to_nat s) c)).
  { unfold read_slice. simpl. rewrite Harr, Heq. unfold read_slice.
    rewrite skipn_firstn_comm, drop_drop, take_take. f_equal. lia. }
  destruct Hsl as [Hsl1 Hsl2].
  destruct (Bytes_Set_spec h1 v bv (BPlain data) data off) as (h2 & E2 & Hwf2 & Hu2 & Hbv2 & Hr2 & Ha2);
    [done|by apply idle_usable|done|done|simpl; lia|left; simpl; lia|].
  exists v, h1, h2. assert (Hi2 : idle h2) by by apply (upd_idle h1 _ v (bytes bv)).
  assert (Hvl : length (take (Z.to_nat (e - s)) (drop (Z.to_nat s) c)) = Z.to_nat (e - s))
    by (rewrite length_take, length_drop; lia).
  split_and!; [exact E1| | | | |].
  - split_and!; [done..|]. by rewrite Hc1.
  - split_and!; [done..|]. by rewrite (contents_Some h1 v bv), Hrv.
  - etransitivity; [exact E2|]. simpl. do 3 f_equal. lia.
  - split_and!; [done..|].
    assert (Hb2 : blobs h2 !! l = Some b).
    { pose proof (ext_next _ _ Hx1). pose proof (blob_lt h l b Hwf Hb).
      rewrite (upd_blobs h1 h2 v _ Hu2); [done|lia|lia]. }
    rewrite (contents_Some h2 l b), Heq by done. unfold read_slice at 1.
    simpl in Ha2. rewrite Ha2, Harr by lia. rewrite (take_ge data) by lia.
    replace (s_off (bytes b) + Z.to_nat s + Z.to_nat off)
      with (s_off (bytes b) + Z.to_nat (s + off)) by lia.
    by rewrite window_splice by lia.
  - split_and!; [done..|]. rewrite (contents_Some h2 v bv), Hr2, Hrv by done.
    unfold set_at. rewrite Hvl, (take_ge data) by lia. done.
Qed.

(** [Slice] copies as many bytes as the range has, but from the start of
    the blob: the start of the range only counts for its length. *)
Theorem Slice_copies_from_the_start h l c (s e : Z) :
  holds_bytes h l c -> (0 <= s <= e)%Z -> (e <= Z.of_nat (length c))%Z ->
  exists l' h', Slice_ (BBytes l) s e h = (Ret (Some (BBytes l'), None), h') /\
    holds_bytes h' l' (take (Z.to_nat (e - s)) c) /\ holds_bytes h' l c.
Proof.
  intros Hc Hs He. pose proof Hc as (Hwf & Hi & Hcont).
  destruct (holds_bytes_usable h l c Hc) as (b & Hub & Heq & Hlen & _).
  destruct (Bytes_Slice_spec h l b s e) as (l' & b' & h' & E & Hwf' & He' & Hb' & _ & _ & _ & _ & Hr);
    [done..|lia|].
  exists l', h'. assert (Hi' : idle h') by by apply (ext_idle h).
  split_and!; [unfold Slice_; by run E| |].
  - split_and!; [done..|]. by rewrite (contents_Some h' l' b'), Hr, Heq.
  - split_and!; [done..|]. destruct (ext_contents h h' l Hwf He') as [_ ->]; [|done].
    destruct Hub as [Hb _]. by eexists.
Qed.

(** [Set] past the end of a blob does not return an error: it panics, and
    leaves the mutex locked, so that every later [Grow] blocks for ever. *)
Theorem Set_past_end_panics h l c data (off : Z) :
  holds_bytes h l c -> (Z.of_nat (length c) < off)%Z ->
  exists why h', Set_ (BBytes l) (BPlain data) off h = (Panic why, h') /\
    forall n, Grow (BBytes l) n h' = (Blocked, h').
Proof.
  intros Hc Hoff. pose proof Hc as (Hwf & Hi & _).
  destruct (holds_bytes_usable h l c Hc) as (b & [Hb Hm] & Heq & Hlen & [Hs1 Hs2]).
  assert (Hsl : s_len (bytes b) = length c) by (by rewrite Heq, length_read_slice).
  simpl. unfold Bytes_Set. destruct (Z.ltb_spec off 0); [lia|].
  run (Bytes_Len_eq h l b Hb). simpl. go_simpl.
  replace ((length_ b <=? off) && (off =? 0) && (0 <? Z.of_nat (length data)))%Z with false
    by (symmetry; destruct (Z.eqb_spec off 0); [lia|by rewrite andb_false_r]).
  run (get_blob_eq h l b Hb). run (lock_eq h (mu b) Hm). set (h1 := set_mutexes _ h).
  unfold Blob_Bytes. run (make_slice_eq h1 data). set (h2 := Heap _ _ _ _). unfold slice_from.
  replace ((0 <=? off) && (off <=? Z.of_nat (s_len (bytes b))))%Z with false
    by (symmetry; rewrite andb_false_iff, !Z.leb_gt; lia).
  do 2 eexists. split; [reflexivity|]. intros n. unfold Bytes_Grow.
  run (get_blob_eq h2 l b Hb). by run (lock_blocked h2 (mu b) (lookup_insert_eq _ _ _)).
Qed.

(** C37: [Set] of a blob from a view of itself, which shares its mutex, never
    returns: it waits for the mutex it holds. *)
Theorem Set_from_view_deadlocks h l c (s e off : Z) :
  holds_bytes h l c -> (0 <= s < e)%Z -> (e <= Z.of_nat (length c))%Z -> (0 <= off)%Z ->
  exists v h1 h2, View (BBytes l) s e h = (Ret (Some (BBytes v), None), h1) /\
    Set_ (BBytes l) (BBytes v) off h1 = (Blocked, h2).
Proof.
  intros Hc Hs He Hoff. pose proof Hc as (Hwf & Hi & _).
  destruct (holds_bytes_usable h l c Hc) as (b & Hub & Heq & Hlen & _).
  destruct (Bytes_View_spec h l b s e) as (v & h1 & E1 & Hwf1 & Hx1 & Hv & _ & Hbv);
    [done|done|lia|lia|].
  set (bv := MkBytes _ _ _) in Hbv. destruct (ext_usable h h1 l b Hwf Hx1 Hub) as [Hb Hm].
  exists v, h1. simpl. unfold Bytes_Set. destruct (Z.ltb_spec off 0); [lia|].
  run (Bytes_Len_eq h1 l b Hb). simpl. run (Bytes_Len_eq h1 v bv Hbv). simpl.
  replace ((length_ b <=? off) && (off =? 0) && (0 <? e - s))%Z with false
    by (symmetry; destruct (Z.leb_spec (length_ b) off), (Z.eqb_spec off 0); simpl; try done; lia).
  run (get_blob_eq h1 l b Hb). run (lock_eq h1 (mu b) Hm). set (h2 := set_mutexes _ h1).
  assert (Es : exists h3, Bytes_Slice v 0 (length_ bv) h2 = (Blocked, h3)).
  { unfold Bytes_Slice. run (Bytes_Len_eq h2 v bv Hbv).
    rewrite check_range_ok by (simpl; lia). run (get_blob_eq h2 v bv Hbv).
    unfold make_zeros. destruct (Z.ltb_spec (length_ bv - 0) 0) as [Hlt|_]; [simpl in Hlt; lia|].
    run (make_slice_eq h2 (replicate (Z.to_nat (length_ bv - 0)) zero)). set (h3 := Heap _ _ _ _).
    run (lock_blocked h3 (mu bv) (lookup_insert_eq _ _ _)). by eexists. }
  destruct Es as [h3 Es].
  assert (Eb : Bytes_Bytes v h2 = (Blocked, h3)).
  { unfold Bytes_Bytes. run (Bytes_Len_eq h2 v bv Hbv). by run Es. }
  run Eb. by eexists.
Qed.
End theorems.

(** ** Concrete heaps *)
#[local] Existing Instance simple_runtime.

(** One blob, at address 1, that holds "ABCD". *)
Definition abcd : list byte := [Byte.x41; Byte.x42; Byte.x43; Byte.x44].
Definition demo_heap : heap := run_op (OpNew abcd) empty_heap.

Lemma idle_dec h : bool_decide (map_Forall (fun _ v => v = false) (mutexes h)) = true -> idle h.
Proof. intros Hb m v E. apply bool_decide_eq_true in Hb. by apply (Hb m v E). Qed.

Lemma demo_holds : holds_bytes demo_heap 1 abcd.
Proof.
  split; [exact (run_op_wf (OpNew abcd) empty_heap wf_empty_heap)|split; [|by vm_compute]].
  apply idle_dec. by vm_compute.
Qed.

Lemma Set_overwrites_witness :
  exists h', Set_ (BBytes 1) (BPlain [Byte.x61; Byte.x62]) 3 demo_heap = (Ret (1%Z, None), h') /\
    contents h' 1 = Some [Byte.x41; Byte.x42; Byte.x43; Byte.x61].
Proof.
  destruct (Set_overwrites demo_heap 1 abcd [Byte.x61; Byte.x62] 3 demo_holds)
    as (h' & E & (_ & _ & Hc) & _); [simpl; lia|done|].
  by exists h'.
Defined.

Lemma Grow_appends_zeros_witness :
  exists h', Grow (BBytes 1) 2 demo_heap = (Ret None, h') /\
    contents h' 1 = Some (abcd ++ [zero; zero]).
Proof.
  destruct (Grow_appends_zeros demo_heap 1 abcd 2 demo_holds) as (h' & E & (_ & _ & Hc) & _);
    [lia|]. by exists h'.
Defined.

Lemma Truncate_cuts_witness :
  exists h', Truncate (BBytes 1) 1 demo_heap = (Ret None, h') /\
    contents h' 1 = Some [Byte.x41].
Proof.
  destruct (Truncate_cuts demo_heap 1 abcd 1 demo_holds) as (h' & E & (_ & _ & Hc) & _);
    [lia|]. by exists h'.
Defined.

Lemma View_aliases_witness :
  exists v h1 h2, View (BBytes 1) 1 3 demo_heap = (Ret (Some (BBytes v), None), h1) /\
    Set_ (BBytes v) (BPlain [Byte.x61]) 1 h1 = (Ret (1%Z, None), h2) /\
    contents h2 1 = Some [Byte.x41; Byte.x42; Byte.x61; Byte.x44].
Proof.
  destruct (View_aliases demo_heap 1 abcd 1 3 1 [Byte.x61] demo_holds)
    as (v & h1 & h2 & E1 & _ & _ & E2 & (_ & _ & Hc) & _); [lia|simpl; lia|lia|simpl; lia|].
  by exists v, h1, h2.
Defined.

Lemma Slice_copies_from_the_start_witness :
  exists l' h', Slice_ (BBytes 1) 2 4 demo_heap = (Ret (Some (BBytes l'), None), h') /\
    contents h' l' = Some [Byte.x41; Byte.x42].
Proof.
  destruct (Slice_copies_from_the_start demo_heap 1 abcd 2 4 demo_holds)
    as (l' & h' & E & (_ & _ & Hc) & _); [lia|simpl; lia|]. by exists l', h'.
Defined.

Lemma Set_past_end_panics_witness :
  exists why h', Set_ (BBytes 1) (BPlain abcd) 5 demo_heap = (Panic why, h') /\
    Grow (BBytes 1) 1 h' = (Blocked, h').
Proof.
  destruct (Set_past_end_panics demo_heap 1 abcd abcd 5 demo_holds) as (why & h' & E & Hg);
    [simpl; lia|]. exists why, h'. split; [exact E|apply Hg].
Defined.

Lemma Set_from_view_deadlocks_witness :
  exists v h1 h2, View (BBytes 1) 0 2 demo_heap = (Ret (Some (BBytes v), None), h1) /\
    Set_ (BBytes 1) (BBytes v) 1 h1 = (Blocked, h2).
Proof.
  apply (Set_from_view_deadlocks demo_heap 1 abcd 0 2 1 demo_holds); [lia|simpl; lia|lia].
Defined.

(** Growing a view within the capacity of its blob's array overwrites what
    follows the view in the blob. *)
Lemma Grow_of_view_clobbers :
  exists v h1 h2, View (BBytes 1) 0 2 demo_heap = (Ret (Some (BBytes v), None), h1) /\
    Grow (BBytes v) 1 h1 = (Ret None, h2) /\
    contents h2 1 = Some [Byte.x41; Byte.x42; zero; Byte.x44].
Proof. do 3 eexists. split_and!; [by vm_compute..|by vm_compute]. Qed.
