(* ===== verification/Record.v ===== *)
(** * File records ([keyvalue/record.go])

    The [FileRecord] interface, the [BaseFileRecord] that implements it from
    getters, and the [runOnceFileRecord] that calls each method of a record at
    most once and remembers what it returned. *)
From S2P Require Import Prelude.
From S2P Require Import Errors.
From S2P Require Import Modes.
From S2P Require Import Blob.

(** The state the file systems run in: the heap of blobs, the state of the
    store and the time that [time.Now()] reads.  A [time.Time] is a number of
    nanoseconds; the zero time is [0]. *)
Record world (ST : Type) := World {
  w_heap : heap;
  w_store : ST;
  w_now : Z
}.
Arguments World {ST}.
Arguments w_heap {ST}.
Arguments w_store {ST}.
Arguments w_now {ST}.

Definition set_heap {ST} (h : heap) (w : world ST) : world ST :=
  World h (w_store w) (w_now w).
Definition set_store {ST} (s : ST) (w : world ST) : world ST :=
  World (w_heap w) s (w_now w).

(** Heap operations, and [time.Now()], in the world. *)
Definition in_heap {ST A} (m : M heap A) : M (world ST) A := zoom w_heap set_heap m.
Definition now {ST} : M (world ST) Z := gets w_now.

Lemma in_heap_run {ST A} (m : M heap A) (w : world ST) r h' :
  m (w_heap w) = (r, h') -> in_heap m w = (r, set_heap h' w).
Proof. intros E. unfold in_heap, zoom. by rewrite E. Qed.

(** ** [BaseFileRecord]

    A getter that does not apply is [None] ([nil]).  The opaque [Sys] value,
    that the code only hands on, is left out. *)
Record BaseFileRecord (ST : Type) := MkBaseFileRecord {
  getData : option (M (world ST) (option Blob * err));
  getDirNames : option (M (world ST) (list string * err));
  initialSize : Z;
  b_modTime : Z;
  b_mode : Z
}.
Arguments MkBaseFileRecord {ST}.
Arguments getData {ST}.
Arguments getDirNames {ST}.
Arguments initialSize {ST}.
Arguments b_modTime {ST}.
Arguments b_mode {ST}.

Section BaseFileRecord.
Context {ST : Type}.
Implicit Types (b : BaseFileRecord ST).

Definition NewBaseFileRecord (size modTime mode : Z)
    (data : option (M (world ST) (option Blob * err)))
    (dirNames : option (M (world ST) (list string * err))) : BaseFileRecord ST :=
  MkBaseFileRecord data dirNames size modTime mode.

Definition Base_Data b : M (world ST) (option Blob * err) :=
  match getData b with
  | None =>
      if IsDir (b_mode b) then ret (None, Some ErrIsDir)
      else ret (None, Some ErrNotImplemented)
  | Some get => get
  end.

Definition Base_ReadDirNames b : M (world ST) (list string * err) :=
  match getDirNames b with
  | None =>
      if negb (IsDir (b_mode b)) then ret ([], Some ErrNotDir)
      else ret ([], Some ErrNotImplemented)
  | Some get => get
  end.

Definition Base_Size b : Z := initialSize b.
Definition Base_Mode b : Z := b_mode b.
Definition Base_ModTime b : Z := b_modTime b.
End BaseFileRecord.

(** ** The [FileRecord] interface

    The records of a store are values of a type [R]; its methods are what the
    class asks for. *)
Class RecordOps (ST R : Type) := {
  rec_Data : R -> M (world ST) (option Blob * err);
  rec_ReadDirNames : R -> M (world ST) (list string * err);
  rec_Size : R -> M (world ST) Z;
  rec_Mode : R -> Z;
  rec_ModTime : R -> Z
}.

Inductive FileRecord (ST R : Type) :=
  | StoreRecord (r : R)
  | BaseRecord (b : BaseFileRecord ST).
Arguments StoreRecord {ST R}.
Arguments BaseRecord {ST R}.

(** ** [runOnceFileRecord] *)
Record runOnceFileRecord (ST R : Type) := MkRunOnce {
  record : option (FileRecord ST R);
  ro_data : option (option Blob * err);      (* data, dataErr; set by dataOnce *)
  ro_dataDone : bool;
  ro_dirNames : option (list string * err);
  ro_size : option Z;
  ro_mode : option Z;
  ro_modTime : option Z
}.
Arguments MkRunOnce {ST R}.
Arguments record {ST R}.
Arguments ro_data {ST R}.
Arguments ro_dataDone {ST R}.
Arguments ro_dirNames {ST R}.
Arguments ro_size {ST R}.
Arguments ro_mode {ST R}.
Arguments ro_modTime {ST R}.

Definition run_once {ST R} (r : option (FileRecord ST R)) : runOnceFileRecord ST R :=
  MkRunOnce r None false None None None None.

(** A call on a [nil] pointer or interface. *)
Definition nil_deref {S A} : M S A :=
  panic "invalid memory address or nil pointer dereference".

Section runOnce.
Context {ST R : Type} `{!RecordOps ST R}.
Notation RO := (runOnceFileRecord ST R).
Notation W := (world ST).

(** The methods of the wrapped record. *)
Definition fr_Data (r : FileRecord ST R) : M W (option Blob * err) :=
  match r with StoreRecord r => rec_Data r | BaseRecord b => Base_Data b end.
Definition fr_ReadDirNames (r : FileRecord ST R) : M W (list string * err) :=
  match r with StoreRecord r => rec_ReadDirNames r | BaseRecord b => Base_ReadDirNames b end.
Definition fr_Size (r : FileRecord ST R) : M W Z :=
  match r with StoreRecord r => rec_Size r | BaseRecord b => ret (Base_Size b) end.
Definition fr_Mode (r : FileRecord ST R) : M W Z :=
  match r with StoreRecord r => ret (rec_Mode r) | BaseRecord b => ret (Base_Mode b) end.
Definition fr_ModTime (r : FileRecord ST R) : M W Z :=
  match r with StoreRecord r => ret (rec_ModTime r) | BaseRecord b => ret (Base_ModTime b) end.

(** [sync.Once]: [f] runs at the first call only, also if it panics then. *)
Definition once {A} (cached : RO -> option A) (store : A -> RO -> RO) (zero : A)
    (f : M W A) : M (RO * W) A := fun '(r, w) =>
  match cached r with
  | Some a => (Ret a, (r, w))
  | None =>
      match f w with
      | (Ret a, w') => (Ret a, (store a r, w'))
      | (Panic e, w') => (Panic e, (store zero r, w'))
      | (Blocked, w') => (Blocked, (r, w'))
      | (OutOfFuel, w') => (OutOfFuel, (r, w'))
      end
  end.

(** A method of [r.record], which may be [nil]. *)
Definition on_record {A} (f : FileRecord ST R -> M W A) (r : RO) : M W A :=
  match record r with Some rec => f rec | None => nil_deref end.

Definition store_data (d : option Blob * err) (r : RO) : RO :=
  MkRunOnce (record r) (Some d) (ro_dataDone r) (ro_dirNames r) (ro_size r)
    (ro_mode r) (ro_modTime r).
Definition store_dataDone (r : RO) : RO :=
  MkRunOnce (record r) (ro_data r) true (ro_dirNames r) (ro_size r)
    (ro_mode r) (ro_modTime r).
Definition store_dirNames (n : list string * err) (r : RO) : RO :=
  MkRunOnce (record r) (ro_data r) (ro_dataDone r) (Some n) (ro_size r)
    (ro_mode r) (ro_modTime r).
Definition store_size (n : Z) (r : RO) : RO :=
  MkRunOnce (record r) (ro_data r) (ro_dataDone r) (ro_dirNames r) (Some n)
    (ro_mode r) (ro_modTime r).
Definition store_mode (m : Z) (r : RO) : RO :=
  MkRunOnce (record r) (ro_data r) (ro_dataDone r) (ro_dirNames r) (ro_size r)
    (Some m) (ro_modTime r).
Definition store_modTime (t : Z) (r : RO) : RO :=
  MkRunOnce (record r) (ro_data r) (ro_dataDone r) (ro_dirNames r) (ro_size r)
    (ro_mode r) (Some t).

(** Run a method that needs the receiver's fields. *)
Definition with_ro {A} (f : RO -> M (RO * W) A) : M (RO * W) A :=
  fun s => f s.1 s.

Definition ro_Data : M (RO * W) (option Blob * err) :=
  with_ro (fun r => once ro_data (fun d r => store_dataDone (store_data d r)) (None, None)
                      (on_record fr_Data r)).

Definition ro_ReadDirNames : M (RO * W) (list string * err) :=
  with_ro (fun r => once ro_dirNames store_dirNames ([], None) (on_record fr_ReadDirNames r)).

Definition in_world {S A} (m : M W A) : M (S * W) A := zoom snd (fun w s => (s.1, w)) m.

Definition ro_Size : M (RO * W) Z :=
  n <- with_ro (fun r => once ro_size store_size 0%Z (on_record fr_Size r)) ;;
  done <- gets (fun s => ro_dataDone s.1) ;;
  if (done : bool) then
    d <- gets (fun s => ro_data s.1) ;;
    match d with
    | Some (Some b, _) => in_world (in_heap (Blob_Len b))
    | _ => nil_deref
    end
  else ret n.

Definition ro_Mode : M (RO * W) Z :=
  with_ro (fun r => once ro_mode store_mode 0%Z (on_record fr_Mode r)).

Definition ro_ModTime : M (RO * W) Z :=
  with_ro (fun r => once ro_modTime store_modTime 0%Z (on_record fr_ModTime r)).
End runOnce.

(** Call a method of an object that is a variable of the caller; the caller
    goes on with the object as the method left it. *)
Definition on_var {S W A} (s : S) (m : M (S * W) A) : M W (A * S) := fun w =>
  let '(r, (s', w')) := m (s, w) in
  (match r with
   | Ret a => Ret (a, s')
   | Panic e => Panic e
   | Blocked => Blocked
   | OutOfFuel => OutOfFuel
   end, w').

(** ** [fileData] ([keyvalue/file.go])

    The record a file handle carries: a [runOnceFileRecord] whose mode and
    modification time can be overridden.  The zero [time.Time] means that there
    is no override.  The back pointer to the file system is left out: the file
    system is an argument of the operations that use it. *)
Record fileData (ST R : Type) := MkFileData {
  fd_ro : runOnceFileRecord ST R;
  modeOverride : option Z;
  modTimeOverride : Z;
  path : string
}.
Arguments MkFileData {ST R}.
Arguments fd_ro {ST R}.
Arguments modeOverride {ST R}.
Arguments modTimeOverride {ST R}.
Arguments path {ST R}.

Section fileData.
Context {ST R : Type} `{!RecordOps ST R}.
Notation FD := (fileData ST R).
Notation W := (world ST).

Definition set_ro (ro : runOnceFileRecord ST R) (fd : FD) : FD :=
  MkFileData ro (modeOverride fd) (modTimeOverride fd) (path fd).
Definition set_modeOverride (m : Z) (fd : FD) : FD :=
  MkFileData (fd_ro fd) (Some m) (modTimeOverride fd) (path fd).
Definition set_modTimeOverride (t : Z) (fd : FD) : FD :=
  MkFileData (fd_ro fd) (modeOverride fd) t (path fd).

(** The methods promoted from the embedded [runOnceFileRecord]. *)
Definition on_ro {A} (m : M (runOnceFileRecord ST R * W) A) : M (FD * W) A :=
  zoom (fun s => (fd_ro s.1, s.2)) (fun s t => (set_ro s.1 t.1, s.2)) m.

Definition fd_Data : M (FD * W) (option Blob * err) := on_ro ro_Data.
Definition fd_ReadDirNames : M (FD * W) (list string * err) := on_ro ro_ReadDirNames.
Definition fd_Size : M (FD * W) Z := on_ro ro_Size.

Definition fd_Mode : M (FD * W) Z :=
  o <- gets (fun s => modeOverride s.1) ;;
  match o with
  | Some m => ret m
  | None => on_ro ro_Mode
  end.

Definition fd_ModTime : M (FD * W) Z :=
  t <- gets (fun s => modTimeOverride s.1) ;;
  if (t =? 0)%Z then on_ro ro_ModTime else ret t.
End fileData.
