(* ===== verification/Txn.v ===== *)
(** * Stores and transactions ([keyvalue/store.go], [txn_store.go], [fs_txns.go])

    The [Store] and [Transaction] interfaces as classes, the serial transaction
    that stands in for stores without transactions, and the choice between the
    two. *)
From S2P Require Import Prelude.
From S2P Require Import Errors.
From S2P Require Import Modes.
From S2P Require Import Blob.
From S2P Require Import Record.

Inductive TransactionMode := TransactionReadOnly | TransactionReadWrite.

(** [OpID] is an [int64]. *)
Abbreviation OpID := Z.

Record OpResult (ST R : Type) := MkOpResult {
  Op : OpID;
  res_Record : option (FileRecord ST R);
  res_Err : err
}.
Arguments MkOpResult {ST R}.
Arguments Op {ST R}.
Arguments res_Record {ST R}.
Arguments res_Err {ST R}.

(** A [TransactionStore]'s transactions: their state is a [T]; the methods act
    on it and on the world.  [Set_] hands back the source record with what its
    [sync.Once] fields remember by then.  The context that [Commit] gets is what
    its [Err] returns ([None]: not done). *)
Class TransactionStore (ST R T : Type) := {
  t_Transaction : TransactionMode -> M (world ST) (option T * err);
  t_Get : string -> M (T * world ST) OpID;
  t_Set : string -> option (fileData ST R) -> option Blob ->
          M (T * world ST) (OpID * option (fileData ST R));
  t_Commit : err -> M (T * world ST) (list (OpResult ST R) * err);
  t_Abort : M (T * world ST) err
}.

(** A [Store]; [s_txn] is the result of asserting that it is a
    [TransactionStore]. *)
Class Store (ST R T : Type) := {
  s_Get : string -> M (world ST) (option (FileRecord ST R) * err);
  s_Set : string -> option (fileData ST R) -> M (world ST) (err * option (fileData ST R));
  s_txn : option (TransactionStore ST R T)
}.

(** ** [unsafeSerialTransaction]

    [u_ctx] is the error of the transaction's context: [Some Canceled] once
    [abort] was called. *)
Record unsafeSerialTransaction (ST R : Type) := MkSerial {
  u_ctx : err;
  nextOp : Z;
  results : gmap Z (OpResult ST R)
}.
Arguments MkSerial {ST R}.
Arguments u_ctx {ST R}.
Arguments nextOp {ST R}.
Arguments results {ST R}.

(** [abortErr]; when both contexts are done, [select] takes either case:
    [pick_extra] says which. *)
Definition abortErr (pick_extra : bool) (ctx extraCtx : err) : err :=
  match extraCtx, ctx with
  | Some e, None => Some e
  | None, Some e => Some e
  | Some e, Some e' => if pick_extra then Some e else Some e'
  | None, None => None
  end.

Section serial.
Context {ST R T : Type} `{!Store ST R T}.
Notation W := (world ST).
Notation U := (unsafeSerialTransaction ST R).
Notation FD := (fileData ST R).

Definition new_serial : U := MkSerial None 0 ∅.

(** [u.abort()], a [context.CancelFunc]: later calls do nothing. *)
Definition cancel (ctx : err) : err :=
  match ctx with None => Some Canceled | Some e => Some e end.
Definition u_abort : M (U * W) unit :=
  modify (fun s => (MkSerial (cancel (u_ctx s.1)) (nextOp s.1) (results s.1), s.2)).

Definition newOp : M (U * W) OpID :=
  modify (fun s => (MkSerial (u_ctx s.1) (add64 (nextOp s.1) 1) (results s.1), s.2)) ;;;
  n <- gets (fun s => nextOp s.1) ;;
  ret (sub64 n 1).

Definition setResult (op : OpID) (result : OpResult ST R) : M (U * W) unit :=
  modify (fun s =>
    (MkSerial (u_ctx s.1) (nextOp s.1) (<[op := result]> (results s.1)), s.2)).

(** A handler may act on the transaction it is called by. *)
Definition OpHandler : Type := OpResult ST R -> M (U * W) err.
Definition no_handler : OpHandler := fun _ => ret None.

Definition with_handler_err (result : OpResult ST R) (e : err) : OpResult ST R :=
  match res_Err result, e with
  | None, Some e => MkOpResult (Op result) (res_Record result) (Some e)
  | _, _ => result
  end.

Definition u_GetHandler (name : string) (handler : OpHandler) : M (U * W) OpID :=
  op <- newOp ;;
  ctx <- gets (fun s => u_ctx s.1) ;;
  match abortErr false ctx None with
  | Some e => setResult op (MkOpResult op None (Some e)) ;;; ret op
  | None =>
      let* (record, e) := in_world (s_Get name) in
      let result := MkOpResult op record e in
      e <- handler result ;;
      setResult op (with_handler_err result e) ;;;
      ret op
  end.

Definition u_Get (name : string) : M (U * W) OpID := u_GetHandler name no_handler.

Definition u_SetHandler (name : string) (src : option FD) (handler : OpHandler) :
    M (U * W) (OpID * option FD) :=
  op <- newOp ;;
  ctx <- gets (fun s => u_ctx s.1) ;;
  match abortErr false ctx None with
  | Some e => setResult op (MkOpResult op None (Some e)) ;;; ret (op, src)
  | None =>
      let* (e, src) := in_world (s_Set name src) in
      let result := MkOpResult op None e in
      e <- handler result ;;
      setResult op (with_handler_err result e) ;;;
      ret (op, src)
  end.

Definition u_Set (name : string) (src : option FD) (contents : option Blob) :
    M (U * W) (OpID * option FD) := u_SetHandler name src no_handler.

(** [results := make([]OpResult, opCount)], filled from the map; an operation
    without a result keeps the zero [OpResult]. *)
Definition collect (opCount : Z) (rs : gmap Z (OpResult ST R)) : list (OpResult ST R) :=
  (fun op => default (MkOpResult 0 None None) (rs !! op)) <$> seqZ 0 opCount.

Definition u_Commit (pick_extra : bool) (ctx : err) :
    M (U * W) (list (OpResult ST R) * err) :=
  own <- gets (fun s => u_ctx s.1) ;;
  match abortErr pick_extra own ctx with
  | Some e => ret ([], Some e)
  | None =>
      u_abort ;;;
      opCount <- gets (fun s => nextOp s.1) ;;
      rs <- gets (fun s => results s.1) ;;
      if (opCount <? 0)%Z then panic "makeslice: len out of range"
      else if bool_decide (map_Forall (fun op _ => (0 <= op < opCount)%Z) rs)
      then ret (collect opCount rs, None)
      else panic "index out of range"
  end.

Definition u_Abort : M (U * W) err := u_abort ;;; ret None.

(** ** Any transaction *)
Inductive Transaction :=
  | SerialTxn (u : U)
  | StoreTxn (t : T).

Definition TransactionOrSerial (mode : TransactionMode) : M W (option Transaction * err) :=
  match s_txn with
  | Some ts =>
      let* (t, e) := t_Transaction mode in
      ret (StoreTxn <$> t, e)
  | None => ret (Some (SerialTxn new_serial), None)
  end.

(** Call the method of the transaction that the interface value holds. *)
Definition dispatch {A} (serial : M (U * W) A)
    (native : TransactionStore ST R T -> M (T * W) A) : M (Transaction * W) A :=
  fun '(t, w) =>
    match t, s_txn with
    | SerialTxn u, _ =>
        let '(r, (u', w')) := serial (u, w) in (r, (SerialTxn u', w'))
    | StoreTxn t, Some ts =>
        let '(r, (t', w')) := native ts (t, w) in (r, (StoreTxn t', w'))
    | StoreTxn _, None =>
        (Panic "invalid memory address or nil pointer dereference", (t, w))
    end.

Definition txn_Get (name : string) : M (Transaction * W) OpID :=
  dispatch (u_Get name) (fun ts => t_Get name).
Definition txn_Set (name : string) (src : option FD) (contents : option Blob) :
    M (Transaction * W) (OpID * option FD) :=
  dispatch (u_Set name src contents) (fun ts => t_Set name src contents).
Definition txn_Commit (ctx : err) : M (Transaction * W) (list (OpResult ST R) * err) :=
  dispatch (u_Commit false ctx) (fun ts => t_Commit ctx).
Definition txn_Abort : M (Transaction * W) err :=
  dispatch u_Abort (fun ts => t_Abort).

(** Run the rest of a call with a transaction of its own. *)
Definition with_txn {A} (t : Transaction) (m : M (Transaction * W) A) : M W A :=
  zoom (fun w => (t, w)) (fun s _ => s.2) m.
End serial.
Arguments Transaction ST R T : clear implicits.
