(* ===== verification/KVFile.v ===== *)
(** * Files of the key-value file system ([keyvalue/file.go], [file_rwonly.go])

    Loading and saving file records through transactions, and the methods of
    an open file.  A file's methods act on the file and on the world; the file
    system, a stateless wrapper of its store, is the [Store] of the section. *)
From S2P Require Import Prelude.
From S2P Require Import Paths.
From S2P Require Import Errors.
From S2P Require Import Modes.
From S2P Require Import Blob.
From S2P Require Import Record.
From S2P Require Import Txn.

Local Open Scope string_scope.

(** [type file struct]; [fileData_] is [None] once the file is closed. *)
Record file (ST R : Type) := MkFile {
  fileData_ : option (fileData ST R);
  offset : Z;
  flag : Z
}.
Arguments MkFile {ST R}.
Arguments fileData_ {ST R}.
Arguments offset {ST R}.
Arguments flag {ST R}.

(** A [FileInfo]: the record it reads from, as it was when the information was
    asked for, and the path.  The record is a file's data, the record inside
    it, or what a transaction returned. *)
Inductive infoRecord (ST R : Type) :=
  | InfoFile (fd : fileData ST R)
  | InfoRunOnce (ro : runOnceFileRecord ST R)
  | InfoResult (r : option (FileRecord ST R)).
Arguments InfoFile {ST R}.
Arguments InfoRunOnce {ST R}.
Arguments InfoResult {ST R}.

Record fileInfo (ST R : Type) := MkFileInfo {
  info_Record : infoRecord ST R;
  info_Path : string
}.
Arguments MkFileInfo {ST R}.
Arguments info_Record {ST R}.
Arguments info_Path {ST R}.

Record dirEntry (ST R : Type) := MkDirEntry {
  baseName : string;
  entry_info : option (fileInfo ST R)
}.
Arguments MkDirEntry {ST R}.
Arguments baseName {ST R}.
Arguments entry_info {ST R}.

Section file.
Context {ST R T : Type} `{!RecordOps ST R, !Store ST R T, !GoRuntime}.
Notation W := (world ST).
Notation FD := (fileData ST R).
Notation F := (file ST R).
Notation TXN := (Transaction ST R T).

(** The value of a method that only reads its receiver. *)
Definition peek {S A} (s : S) (m : M (S * W) A) : M W A :=
  zoom (fun w => (s, w)) (fun t _ => t.2) m.

(** ** [fileInfo] *)
Definition info_Name (i : fileInfo ST R) : string := Base (info_Path i).
Definition info_Size (i : fileInfo ST R) : M W Z :=
  match info_Record i with
  | InfoFile fd => peek fd fd_Size
  | InfoRunOnce ro => peek ro ro_Size
  | InfoResult (Some r) => fr_Size r
  | InfoResult None => nil_deref
  end.
Definition info_Mode (i : fileInfo ST R) : M W Z :=
  match info_Record i with
  | InfoFile fd => peek fd fd_Mode
  | InfoRunOnce ro => peek ro ro_Mode
  | InfoResult (Some r) => fr_Mode r
  | InfoResult None => nil_deref
  end.
Definition info_ModTime (i : fileInfo ST R) : M W Z :=
  match info_Record i with
  | InfoFile fd => peek fd fd_ModTime
  | InfoRunOnce ro => peek ro ro_ModTime
  | InfoResult (Some r) => fr_ModTime r
  | InfoResult None => nil_deref
  end.
Definition info_IsDir (i : fileInfo ST R) : M W bool :=
  m <- info_Mode i ;; ret (IsDir m).

(** ** Loading and saving records *)

(** [transactionOnly.Transaction] *)
Definition Transaction_ (mode : TransactionMode) : M W (option TXN * err) :=
  TransactionOrSerial mode.

Definition load_file (name : string) (r : option (FileRecord ST R)) : F :=
  MkFile (Some (MkFileData (run_once r) None 0 name)) 0 0.

Definition getFile (name : string) : M W (option F * err) :=
  if negb (ValidPath name) then ret (None, Some ErrInvalid) else
  let* (txn, e) := Transaction_ TransactionReadOnly in
  match e, txn with
  | Some e, _ => ret (None, Some e)
  | None, None => nil_deref
  | None, Some txn =>
      with_txn txn
        (txn_Get name ;;;
         let* (results, e) := txn_Commit None in
         match e, results with
         | Some e, _ => ret (None, Some e)
         | None, [] => panic "index out of range"
         | None, r :: _ => ret (Some (load_file name (res_Record r)), res_Err r)
         end)
  end.

Definition setFileTxn (name : string) (src : option FD) (contents : option Blob) :
    M (TXN * W) (err * option FD) :=
  if negb (ValidPath name) then ret (Some ErrInvalid, src) else
  let* (regular, src) :=
    match contents, src with
    | None, Some fd =>
        let* (m, fd) := in_world (on_var fd fd_Mode) in ret (IsRegular m, Some fd)
    | _, _ => ret (false, src)
    end in
  if (regular : bool) then panic "Contents must not be nil for regular file" else
  let* (_, src) := txn_Set name src contents in
  ret (None, src).

(** The second half of [setFile]. *)
Definition setFile_commit (name : string) (src : option FD) (contents : option Blob) :
    M W (err * option FD) :=
  let* (txn, e) := Transaction_ TransactionReadWrite in
  match e, txn with
  | Some e, _ => ret (Some e, src)
  | None, None => nil_deref
  | None, Some txn =>
      with_txn txn
        (let* (e, src) := setFileTxn name src contents in
         match e with
         | Some e => ret (Some e, src)
         | None => let* (_, e) := txn_Commit None in ret (e, src)
         end)
  end.

Definition setFile (name : string) (src : option FD) : M W (err * option FD) :=
  match src with
  | None => setFile_commit name None None
  | Some fd =>
      let* (mode, fd) := on_var fd fd_Mode in
      if IsRegular mode then
        let* (d, fd) := on_var fd fd_Data in
        match d with
        | (_, Some e) => ret (Some e, Some fd)
        | (contents, None) => setFile_commit name (Some fd) contents
        end
      else setFile_commit name (Some fd) None
  end.

(** [fileData.save] *)
Definition save : M (FD * W) err := fun '(fd, w) =>
  let '(r, w') := setFile (path fd) (Some fd) w in
  match r with
  | Ret (e, fd') => (Ret e, (default fd fd', w'))
  | Panic why => (Panic why, (fd, w'))
  | Blocked => (Blocked, (fd, w'))
  | OutOfFuel => (OutOfFuel, (fd, w'))
  end.

Definition newFile (name : string) (flag mode : Z) : M W F :=
  t <- now ;;
  let data := l <- in_heap (NewBytes nil_slice) ;; ret (Some (BBytes l), None) in
  ret (MkFile
    (Some (MkFileData (run_once (Some (BaseRecord
             (NewBaseFileRecord 0 t mode (Some data) None)))) None 0 name))
    0 flag).

(** ** The methods of [file] *)

(** What is promoted from the embedded [*fileData], [nil] once closed. *)
Definition on_data {A} (m : M (FD * W) A) : M (F * W) A := fun '(f, w) =>
  match fileData_ f with
  | None => nil_deref (f, w)
  | Some fd =>
      let '(r, (fd', w')) := m (fd, w) in
      (r, (MkFile (Some fd') (offset f) (flag f), w'))
  end.
Definition f_Data : M (F * W) (option Blob * err) := on_data fd_Data.
Definition f_Size : M (F * W) Z := on_data fd_Size.
Definition f_Mode : M (F * W) Z := on_data fd_Mode.
Definition f_ReadDirNames : M (F * W) (list string * err) := on_data fd_ReadDirNames.
Definition f_path : M (F * W) string := on_data (gets (fun s => path s.1)).
Definition f_save : M (F * W) err := on_data save.
Definition f_info : M (F * W) (fileInfo ST R) :=
  on_data (gets (fun s => MkFileInfo (InfoFile s.1) (path s.1))).

Definition get_offset : M (F * W) Z := gets (fun s => offset s.1).
Definition put_offset (o : Z) : M (F * W) unit :=
  modify (fun s => (MkFile (fileData_ s.1) o (flag s.1), s.2)).

Definition Close : M (F * W) err :=
  d <- gets (fun s => fileData_ s.1) ;;
  match d with
  | None => ret (Some ErrClosed)
  | Some _ => modify (fun s => (MkFile None (offset s.1) (flag s.1), s.2)) ;;; ret None
  end.

Definition updateModTime : M (F * W) unit :=
  t <- in_world now ;;
  on_data (modify (fun s => (set_modTimeOverride t s.1, s.2))).

(** The error a method reports: [&PathError{Op: op, Path: f.path, Err: e}]. *)
Definition path_error (op : string) (e : error) : M (F * W) err :=
  p <- f_path ;; ret (Some (PathError op p e)).

(** An operation on a blob that may be [nil]. *)
Definition on_blob {A} (b : option Blob) (m : Blob -> M heap A) : M (F * W) A :=
  match b with
  | Some b => in_world (in_heap (m b))
  | None => nil_deref
  end.

(** *** Reading *)
Definition ReadBlobAt (length off : Z) : M (F * W) (option Blob * Z * err) :=
  size <- f_Size ;;
  if (size <=? off)%Z then ret (None, 0%Z, Some EOF) else
  max <- f_Size ;;
  let end_ := add64 off length in
  let end_ := if (max <? end_)%Z then max else end_ in
  let* (data, e) := f_Data in
  match e with
  | Some e => ret (None, 0%Z, Some e)
  | None =>
      let* (b, e) := on_blob data (fun d => View d off end_) in
      match e with
      | Some e => ret (None, 0%Z, Some e)
      | None =>
          n <- on_blob b Blob_Len ;;
          if (add64 off n =? max)%Z then ret (b, n, Some EOF) else ret (b, n, None)
      end
  end.

Definition ReadAt (p : slice) (off : Z) : M (F * W) (Z * err) :=
  let* (b, n, e) := ReadBlobAt (Z.of_nat (s_len p)) off in
  match b with
  | Some b =>
      src <- in_world (in_heap (Blob_Bytes b)) ;;
      in_world (in_heap (copy_slice p src)) ;;;
      ret (n, e)
  | None => ret (n, e)
  end.

Definition Read (p : slice) : M (F * W) (Z * err) :=
  off <- get_offset ;;
  let* (n, e) := ReadAt p off in
  off <- get_offset ;;
  put_offset (add64 off n) ;;;
  ret (n, e).

Definition ReadBlob (length : Z) : M (F * W) (option Blob * Z * err) :=
  off <- get_offset ;;
  let* (b, n, e) := ReadBlobAt length off in
  off <- get_offset ;;
  put_offset (add64 off n) ;;;
  ret (b, n, e).

(** *** Seeking: [whence] is [io.SeekStart] (0), [io.SeekCurrent] (1) or
    [io.SeekEnd] (2) *)
Definition Seek (off whence : Z) : M (F * W) (Z * err) :=
  cur <- get_offset ;;
  newOffset <-
    (if (whence =? 0)%Z then ret (Some off)
     else if (whence =? 1)%Z then ret (Some (add64 cur off))
     else if (whence =? 2)%Z then size <- f_Size ;; ret (Some (add64 size off))
     else ret None) ;;
  match newOffset with
  | None => e <- path_error "seek" ErrInvalid ;; ret (0%Z, e)
  | Some newOffset =>
      if (newOffset <? 0)%Z then e <- path_error "seek" ErrInvalid ;; ret (0%Z, e)
      else put_offset newOffset ;;; ret (newOffset, None)
  end.

(** *** Writing *)
Definition writeBlobAt (op : string) (p : Blob) (off : Z) : M (F * W) (Z * err) :=
  fl <- gets (fun s => flag s.1) ;;
  off <- (if has_flag fl FlagAppend then f_Size else ret off) ;;
  plen <- in_world (in_heap (Blob_Len p)) ;;
  let endIndex := add64 off plen in
  size <- f_Size ;;
  failed <-
    (if (size <? endIndex)%Z then
       let* (data, e) := f_Data in
       match e with
       | Some e => ret (Some e)
       | None =>
           size <- f_Size ;;
           on_blob data (fun d => Grow d (sub64 endIndex size))
       end
     else ret None) ;;
  match failed with
  | Some e => e <- path_error op e ;; ret (0%Z, e)
  | None =>
      let* (data, e) := f_Data in
      match e with
      | Some e => e <- path_error op e ;; ret (0%Z, e)
      | None =>
          let* (n, e) := on_blob data (fun d => Set_ d p off) in
          match e with
          | Some e => e <- path_error op e ;; ret (n, e)
          | None =>
              (if (n =? 0)%Z then ret tt else updateModTime) ;;;
              e <- f_save ;;
              ret (n, e)
          end
      end
  end.

Definition WriteBlob (p : Blob) : M (F * W) (Z * err) :=
  off <- get_offset ;;
  let* (n, e) := writeBlobAt "write" p off in
  off <- get_offset ;;
  put_offset (add64 off n) ;;;
  ret (n, e).

(** [blob.NewBytes(p)] shares the caller's slice. *)
Definition Write (p : slice) : M (F * W) (Z * err) :=
  l <- in_world (in_heap (NewBytes p)) ;; WriteBlob (BBytes l).

Definition WriteBlobAt (p : Blob) (off : Z) : M (F * W) (Z * err) :=
  writeBlobAt "writeat" p off.

Definition WriteAt (p : slice) (off : Z) : M (F * W) (Z * err) :=
  l <- in_world (in_heap (NewBytes p)) ;; WriteBlobAt (BBytes l) off.

(** [file.Truncate] *)
Definition FileTruncate (size : Z) : M (F * W) err :=
  mode <- f_Mode ;;
  if IsDir mode then path_error "truncate" ErrIsDir else
  length <- f_Size ;;
  if (size <? 0)%Z then path_error "truncate" ErrInvalid
  else if (size =? length)%Z then ret None
  else
    let* (data, e) := f_Data in
    match e with
    | Some e => path_error "truncate" e
    | None =>
        e <- on_blob data (fun d =>
               if (length <? size)%Z then Grow d (sub64 size length) else Truncate d size) ;;
        match e with
        | Some e => path_error "truncate" e
        | None => updateModTime ;;; f_save
        end
    end.

(** *** Information *)

(** [file.Stat]: of the record inside, without the overrides. *)
Definition FileStat : M (F * W) (fileInfo ST R * err) :=
  on_data (gets (fun s => (MkFileInfo (InfoRunOnce (fd_ro s.1)) (path s.1), None))).

Definition wrapperErr (op name : string) (e : err) : err := PathError op name <$> e.

(** [FS.Stat] *)
Definition Stat (name : string) : M W (option (fileInfo ST R) * err) :=
  let* (f, e) := getFile name in
  match e, f with
  | Some e, _ => ret (None, wrapperErr "stat" name (Some e))
  | None, None => nil_deref
  | None, Some f => i <- peek f f_info ;; ret (Some i, None)
  end.

Definition newDirEntry (basePath name : string) : M W (dirEntry ST R * err) :=
  let* (info, e) := Stat (Join [basePath; name]) in
  ret (MkDirEntry name info, e).

Fixpoint newDirEntries (basePath : string) (names : list string) :
    M W (list (dirEntry ST R) * err) :=
  match names with
  | [] => ret ([], None)
  | name :: names =>
      let* (entry, e) := newDirEntry basePath name in
      match e with
      | Some e => ret ([], Some e)
      | None =>
          let* (entries, e) := newDirEntries basePath names in
          match e with
          | Some e => ret ([], Some e)
          | None => ret (entry :: entries, None)
          end
      end
  end.

Definition ReadDir (n : Z) : M (F * W) (list (dirEntry ST R) * err) :=
  let* (dirNames, e) := f_ReadDirNames in
  match e with
  | Some e => e <- path_error "readdir" e ;; ret ([], e)
  | None =>
      off <- get_offset ;;
      let len := Z.of_nat (length dirNames) in
      let start := if (n <=? 0)%Z then 0%Z else off in
      let end_ := if (n <=? 0)%Z then len
                  else if (len <? add64 off n)%Z then len else add64 off n in
      let offsetAdd := sub64 end_ start in
      p <- f_path ;;
      if ((0 <=? start) && (start <=? end_) && (end_ <=? len))%Z then
        let* (entries, e) :=
          in_world (newDirEntries p
            (take (Z.to_nat (end_ - start)) (drop (Z.to_nat start) dirNames))) in
        match e with
        | Some e => ret ([], Some e)
        | None =>
            off <- get_offset ;;
            put_offset (add64 off offsetAdd) ;;;
            ret (entries, None)
        end
      else panic "slice bounds out of range"
  end.

Definition FileChmod (mode : Z) : M (F * W) err :=
  old <- f_Mode ;;
  on_data (modify (fun s => (set_modeOverride (chmod_mode old mode) s.1, s.2))) ;;;
  f_save.

(** ** [readOnlyFile] and [writeOnlyFile]

    An open file is a [file], possibly wrapped in a struct that has only some
    of its methods. *)
Inductive access := ReadWriteFile | ReadOnlyFile | WriteOnlyFile.
Record handle := MkHandle { kind : access; underlying : F }.

Inductive method :=
  | MClose | MRead | MReadBlob | MReadAt | MReadBlobAt | MSeek | MWrite
  | MWriteBlob | MWriteAt | MWriteBlobAt | MStat | MTruncate | MReadDir | MChmod.

(** Does the wrapper have the method? *)
Definition has_method (a : access) (m : method) : bool :=
  match a, m with
  | ReadWriteFile, _ => true
  | _, (MClose | MRead | MSeek | MStat | MTruncate | MChmod) => true
  | ReadOnlyFile, (MReadBlob | MReadAt | MReadBlobAt | MReadDir) => true
  | WriteOnlyFile, (MWrite | MWriteBlob | MWriteAt | MWriteBlobAt) => true
  | _, _ => false
  end.

(** [writeOnlyFile.Read] *)
Definition writeOnly_Read (p : slice) : M (F * W) (Z * err) :=
  e <- path_error "read" ErrNotImplemented ;; ret (0%Z, e).

Definition handle_Read (a : access) (p : slice) : M (F * W) (Z * err) :=
  match a with WriteOnlyFile => writeOnly_Read p | _ => Read p end.

(** [ReadAtFile], [WriteFile] and the like of [file.go] run the method, or
    report that there is none under the name of the file. *)
Definition method_or {A} (a : access) (m : method) (op : string) (zero : A)
    (run : M (F * W) (A * err)) : M (F * W) (A * err) :=
  if has_method a m then run
  else
    let* (info, e) := FileStat in
    match e with
    | Some e => ret (zero, Some e)
    | None => ret (zero, Some (PathError op (info_Name info) ErrNotImplemented))
    end.

Definition ReadAtFile (a : access) (p : slice) (off : Z) : M (F * W) (Z * err) :=
  method_or a MReadAt "readat" 0%Z (ReadAt p off).
Definition WriteFile (a : access) (p : slice) : M (F * W) (Z * err) :=
  method_or a MWrite "write" 0%Z (Write p).
Definition WriteAtFile (a : access) (p : slice) (off : Z) : M (F * W) (Z * err) :=
  method_or a MWriteAt "writeat" 0%Z (WriteAt p off).
Definition ReadDirFile (a : access) (n : Z) : M (F * W) (list (dirEntry ST R) * err) :=
  method_or a MReadDir "readdir" [] (ReadDir n).
Definition SeekFile (a : access) (off whence : Z) : M (F * W) (Z * err) :=
  method_or a MSeek "seek" 0%Z (Seek off whence).
Definition TruncateFile (a : access) (size : Z) : M (F * W) err :=
  let* (_, e) := method_or a MTruncate "truncate" tt
                   (e <- FileTruncate size ;; ret (tt, e)) in ret e.
Definition ChmodFile (a : access) (mode : Z) : M (F * W) err :=
  let* (_, e) := method_or a MChmod "chmod" tt
                   (e <- FileChmod mode ;; ret (tt, e)) in ret e.
End file.
Arguments handle ST R : clear implicits.
