(* ===== verification/KVFS.v ===== *)
(** * The key-value file system ([keyvalue/fs.go])

    Every operation of [keyvalue.FS], over the store and the file methods. *)
From S2P Require Import Prelude.
From S2P Require Import Paths.
From S2P Require Import Errors.
From S2P Require Import Modes.
From S2P Require Import Blob.
From S2P Require Import Record.
From S2P Require Import Txn.
From S2P Require Import KVFile.

Local Open Scope string_scope.

Section FS.
Context {ST R T : Type} `{!RecordOps ST R, !Store ST R T, !GoRuntime}.
Notation W := (world ST).
Notation F := (file ST R).
Notation TXN := (Transaction ST R T).

Definition ignoreErrExist (e : err) : err :=
  if errors_Is e ErrExist then None else e.

(** ** Directories *)
Definition newDir (name : string) (perm : Z) : M W F :=
  newFile name 0 (Z.lor ModeDir (Z.land perm ModePerm)).

Definition save_file (f : F) : M W err :=
  let* (e, _) := on_var f f_save in ret e.

Definition Mkdir (name : string) (perm : Z) : M W err :=
  file <- newDir name perm ;;
  let* (_, e) := Stat name in
  match e with
  | None => ret (wrapperErr "mkdir" name (Some ErrExist))
  | Some e =>
      if negb (error_Is e ErrNotExist) then ret (Some e) else
      failed <- (if String.eqb name "." then ret None
                 else let* (_, e) := Stat (Dir name) in ret e) ;;
      match failed with
      | Some e => ret (wrapperErr "mkdir" name (Some e))
      | None => e <- save_file file ;; ret (wrapperErr "mkdir" name e)
      end
  end.

Definition NewFS : M W err := e <- Mkdir "." 438 ;; ret (ignoreErrExist e).

(** *** Reading several records in one transaction *)
Fixpoint get_all (paths : list string) : M (TXN * W) unit :=
  match paths with
  | [] => ret tt
  | p :: paths => txn_Get p ;;; get_all paths
  end.

Definition getFileRecords (paths : list string) : M W (list (OpResult ST R) * err) :=
  let* (txn, e) := Transaction_ TransactionReadOnly in
  match e, txn with
  | Some e, _ => ret ([], Some e)
  | None, None => nil_deref
  | None, Some txn => with_txn txn (get_all paths ;;; txn_Commit None)
  end.

(** Pair every path with its result; the results are indexed by position. *)
Fixpoint zip_results {B} (f : string -> OpResult ST R -> B) (paths : list string)
    (results : list (OpResult ST R)) : M W (list B) :=
  match paths, results with
  | [], _ => ret []
  | p :: paths, r :: results => bs <- zip_results f paths results ;; ret (f p r :: bs)
  | _ :: _, [] => panic "index out of range"
  end.

Definition statAll (paths : list string) :
    M W (list (option (fileInfo ST R)) * list err) :=
  let* (results, e) := getFileRecords paths in
  match e with
  | Some e => ret ([], [Some e])
  | None =>
      ps <- zip_results (fun p r =>
              (Some (MkFileInfo (InfoResult (res_Record r)) p), res_Err r)) paths results ;;
      ret (ps.*1, ps.*2)
  end.

Definition getFiles (paths : list string) : M W (list (option F) * list err) :=
  let failed e := ret (replicate (length paths) None,
                       Some e :: replicate (length paths - 1) None) in
  if negb (forallb ValidPath paths) then failed ErrInvalid else
  let* (results, e) := getFileRecords paths in
  match e with
  | Some e => failed e
  | None =>
      ps <- zip_results (fun p r => (Some (load_file p (res_Record r)), res_Err r))
              paths results ;;
      ret (ps.*1, ps.*2)
  end.

(** The loop of [findMissingDirs] that lists a path and its parents. *)
Fixpoint parents (fuel : nat) (currentPath : string) : M W (list string) :=
  match fuel with
  | O => out_of_fuel
  | S fuel =>
      if String.eqb currentPath "." then ret ["."]
      else ps <- parents fuel (Dir currentPath) ;; ret (currentPath :: ps)
  end.

(** The error comes with [missing]; the caller looks at the error first. *)
Definition isMissingDir (name : string) (info : option (fileInfo ST R)) (e : err) :
    M W (bool * err) :=
  if errors_Is e ErrNotExist then ret (true, None) else
  match e, info with
  | Some e, _ => ret (false, Some e)
  | None, None => nil_deref
  | None, Some i =>
      dir <- info_IsDir i ;;
      if (dir : bool) then ret (false, None)
      else ret (true, Some (PathError "mkdir" name ErrNotDir))
  end.

(** The loop over [paths], [infos] and [errs]. *)
Fixpoint missing_prefix (paths : list string) (infos : list (option (fileInfo ST R)))
    (errs : list err) : M W (list string * err) :=
  match paths, infos, errs with
  | [], _, _ => ret ([], None)
  | p :: paths, i :: infos, e :: errs =>
      let* (missing, e) := isMissingDir p i e in
      match e with
      | Some e => ret ([], Some e)
      | None =>
          if (missing : bool) then
            let* (ps, e) := missing_prefix paths infos errs in
            match e with
            | Some e => ret ([], Some e)
            | None => ret (p :: ps, None)
            end
          else ret ([], None)
      end
  | _, _, _ => panic "index out of range"
  end.

Definition findMissingDirs (name : string) : M W (list string * err) :=
  if negb (ValidPath name) then ret ([], Some ErrInvalid) else
  paths <- parents (S (length (elems name))) name ;;
  let* (infos, errs) := statAll paths in
  missing_prefix paths infos errs.

Fixpoint make_dirs (perm : Z) (names : list string) : M W err :=
  match names with
  | [] => ret None
  | name :: names =>
      file <- newDir name perm ;;
      e <- save_file file ;;
      match ignoreErrExist (wrapperErr "mkdirall" name e) with
      | Some e => ret (Some e)
      | None => make_dirs perm names
      end
  end.

Definition MkdirAll (name : string) (perm : Z) : M W err :=
  let* (missingDirs, e) := findMissingDirs name in
  match e with
  | Some e => ret (Some e)
  | None => make_dirs perm (rev missingDirs)
  end.

(** ** Opening *)
Definition open_kind (flag : Z) : access :=
  if has_flag flag FlagWriteOnly then WriteOnlyFile
  else if has_flag flag FlagReadWrite then ReadWriteFile
  else ReadOnlyFile.

(** Wrap the file for its flag, and truncate it when asked to. *)
Definition finish_open (name : string) (flag : Z) (storeFile : F) :
    M W (option (handle ST R) * err) :=
  let k := open_kind flag in
  if has_flag flag FlagTruncate then
    let* (e, storeFile) := on_var storeFile (TruncateFile k 0) in
    ret (Some (MkHandle k storeFile), wrapperErr "open" name e)
  else ret (Some (MkHandle k storeFile), None).

Definition OpenFile (name : string) (flag perm : Z) : M W (option (handle ST R) * err) :=
  let create := has_flag flag FlagCreate in
  let* (files, errs) := getFiles (if create then [name; Dir name] else [name]) in
  match files, errs with
  | storeFile :: _, None :: _ =>
      match storeFile with
      | None => nil_deref
      | Some f =>
          let* (mode, f) := on_var f f_Mode in
          if IsDir mode && has_flag flag (Z.lor FlagCreate FlagWriteOnly) then
            ret (None, Some (PathError "open" name ErrIsDir))
          else finish_open name flag (MkFile (fileData_ f) (offset f) flag)
      end
  | _ :: _, Some e :: errs =>
      if error_Is e ErrNotExist && create then
        match errs with
        | [] => panic "index out of range"
        | Some e :: _ => ret (None, wrapperErr "open" name (Some e))
        | None :: _ =>
            f <- newFile name flag (Z.land perm ModePerm) ;;
            let* (e, f) := on_var f f_save in
            match e with
            | Some e => ret (None, wrapperErr "open" name (Some e))
            | None => finish_open name flag f
            end
        end
      else ret (None, wrapperErr "open" name (Some e))
  | _, _ => panic "index out of range"
  end.

Definition Open (name : string) : M W (option (handle ST R) * err) :=
  OpenFile name FlagReadOnly 0.

(** ** Removing and renaming *)
Definition Remove (name : string) : M W err :=
  let* (f, e) := getFile name in
  match e, f with
  | Some e, _ => ret (wrapperErr "remove" name (Some e))
  | None, None => nil_deref
  | None, Some f =>
      let delete := let* (e, _) := setFile name None in ret e in
      let* (mode, f) := on_var f f_Mode in
      if IsDir mode then
        let* (r, f) := on_var f f_ReadDirNames in
        match r with
        | (_, Some e) => ret (Some e)
        | ([], None) => delete
        | (_ :: _, None) => ret (Some (PathError "remove" name ErrNotEmpty))
        end
      else delete
  end.

(** The transaction that moves the record of a file. *)
Definition move_record (oldname newname : string) (fd : option (fileData ST R))
    (contents : option Blob) : M W err :=
  let* (txn, e) := Transaction_ TransactionReadWrite in
  match e, txn with
  | Some _, None => nil_deref   (* [txn.Abort()] *)
  | None, None => nil_deref
  | Some e, Some txn => with_txn txn (txn_Abort ;;; ret (Some e))
  | None, Some txn =>
      with_txn txn
        (let* (e, _) := setFileTxn newname fd contents in
         let* (e, _) := match e with
                        | Some e => ret (Some e, None)
                        | None => setFileTxn oldname None None
                        end in
         match e with
         | Some e => txn_Abort ;;; ret (Some e)
         | None => let* (_, e) := txn_Commit None in ret e
         end)
  end.

Fixpoint rename_children (ren : string -> string -> M W err) (oldname newname : string)
    (names : list string) : M W err :=
  match names with
  | [] => ret None
  | name :: names =>
      e <- ren (Join [oldname; name]) (Join [newname; name]) ;;
      match e with
      | Some e => ret (Some e)
      | None => rename_children ren oldname newname names
      end
  end.

Definition rename_file (oldname newname : string) (f : F) : M W err :=
  if String.eqb oldname newname then ret None else
  let* (r, f) := on_var f f_Data in
  match r with
  | (_, Some e) => ret (Some e)
  | (contents, None) => move_record oldname newname (fileData_ f) contents
  end.

Definition rename_dir (ren : string -> string -> M W err) (oldname newname : string)
    (f : F) : M W err :=
  let* (_, e) := getFile newname in
  if negb (errors_Is e ErrNotExist) then
    ret (Some (LinkError "rename" oldname newname ErrExist))
  else
    let* (r, f) := on_var f f_ReadDirNames in
    match r with
    | (_, Some e) => ret (Some e)
    | (files, None) =>
        let* (e, _) := setFile newname (fileData_ f) in
        match e with
        | Some e => ret (Some e)
        | None =>
            e <- rename_children ren oldname newname files ;;
            match e with
            | Some e => ret (Some e)
            | None => let* (e, _) := setFile oldname None in ret e
            end
        end
    end.

Fixpoint Rename (fuel : nat) (oldname newname : string) : M W err :=
  match fuel with
  | O => out_of_fuel
  | S fuel =>
      let* (f, e) := getFile oldname in
      match e, f with
      | Some _, _ => ret (Some (LinkError "rename" oldname newname ErrNotExist))
      | None, None => nil_deref
      | None, Some f =>
          let* (mode, f) := on_var f (on_data (on_ro ro_Mode)) in
          if IsDir mode then rename_dir (Rename fuel) oldname newname f
          else rename_file oldname newname f
      end
  end.

(** ** Metadata *)
Definition Chmod (name : string) (mode : Z) : M W err :=
  let* (f, e) := getFile name in
  match e, f with
  | Some e, _ => ret (wrapperErr "chmod" name (Some e))
  | None, None => nil_deref
  | None, Some f => let* (e, _) := on_var f (FileChmod mode) in ret e
  end.

Definition Chtimes (name : string) (atime mtime : Z) : M W err :=
  let* (f, e) := getFile name in
  match e, f with
  | Some e, _ => ret (wrapperErr "chtimes" name (Some e))
  | None, None => nil_deref
  | None, Some f =>
      let* (_, f) := on_var f
        (on_data (modify (fun s => (set_modTimeOverride mtime s.1, s.2)))) in
      save_file f
  end.
End FS.
