(* ===== verification/Mem.v ===== *)
(** * The in-memory store ([mem/store.go], [mem/fs.go])

    A map from paths to records behind one mutex that a transaction holds from
    its creation to its end.  [mem.FS] is the key-value file system on it: its
    methods are those of [KVFS] at the [Store] instance of this file. *)
From S2P Require Import Prelude.
From S2P Require Import Paths.
From S2P Require Import Errors.
From S2P Require Import Modes.
From S2P Require Import Blob.
From S2P Require Import Record.
From S2P Require Import Txn.
From S2P Require Import KVFile.
From S2P Require Import KVFS.

Local Open Scope string_scope.

(** [type fileRecord struct]; the pointer to the store is that of the world. *)
Record fileRecord := MkFileRecord {
  mr_path : string;
  mr_data : option Blob;
  mr_mode : Z;
  mr_modTime : Z
}.

(** [type store struct] *)
Record store := MkStore {
  mu_locked : bool;
  records : gmap string fileRecord
}.
Definition newStore : store := MkStore false ∅.

Definition set_records (rs : gmap string fileRecord) (s : store) : store :=
  MkStore (mu_locked s) rs.
Definition set_locked (b : bool) (s : store) : store := MkStore b (records s).

Section mem.
Context `{!GoRuntime}.
Notation W := (world store).
Notation FD := (fileData store fileRecord).

Definition get_store : M W store := gets w_store.
Definition upd_store (f : store -> store) : M W unit :=
  modify (fun w => set_store (f (w_store w)) w).

(** ** Records *)

(** The name that [ReadDirNames] makes of a key. *)
Definition child_name (dir key : string) : option string :=
  let isRoot := String.eqb dir "." in
  let prefix := if isRoot then "" else dir +:+ "/" in
  if HasPrefix key prefix then
    let p := TrimPrefix key prefix in
    if negb (contains_char slash p) && negb (isRoot && String.eqb p ".")
    then Some p else None
  else None.

Definition ReadDirNames (f : fileRecord) : M W (list string * err) :=
  if negb (IsDir (mr_mode f)) then ret ([], Some ErrNotDir) else
  s <- get_store ;;
  ret (omap (fun kv => child_name (mr_path f) kv.1) (range_order (records s)), None).

#[export] Instance mem_record : RecordOps store fileRecord := {|
  rec_Data f := ret (mr_data f, None);
  rec_ReadDirNames := ReadDirNames;
  rec_Size f := match mr_data f with
                | Some b => in_heap (Blob_Len b)
                | None => nil_deref
                end;
  rec_Mode := mr_mode;
  rec_ModTime := mr_modTime
|}.

(** ** The store *)
Definition Get (name : string) : M W (option (FileRecord store fileRecord) * err) :=
  s <- get_store ;;
  match records s !! name with
  | None => ret (None, Some ErrNotExist)
  | Some r => ret (Some (StoreRecord r), None)
  end.

(** [store.set] *)
Definition set_ (name : string) (src : option FD) (contents : option Blob) :
    M W (err * option FD) :=
  match src with
  | None => upd_store (fun s => set_records (delete name (records s)) s) ;;;
            ret (None, None)
  | Some fd =>
      let* (d, fd) := on_var fd fd_Data in
      match d with
      | (_, Some e) => ret (Some e, Some fd)
      | (data, None) =>
          let* (mode, fd) := on_var fd fd_Mode in
          let* (modTime, fd) := on_var fd fd_ModTime in
          upd_store (fun s =>
            set_records (<[name := MkFileRecord name data mode modTime]> (records s)) s) ;;;
          ret (None, Some fd)
      end
  end.

Definition Set_ (name : string) (src : option FD) : M W (err * option FD) :=
  match src with
  | None => set_ name None None
  | Some fd =>
      let* (d, fd) := on_var fd fd_Data in
      match d with
      | (_, Some e) => ret (Some e, Some fd)
      | (contents, None) => set_ name (Some fd) contents
      end
  end.

(** ** Transactions *)
Record transaction := MkTransaction {
  t_ctx : err;
  t_op : Z;
  t_results : list (OpResult store fileRecord)
}.
Notation TX := transaction.

Definition lock_store : M W unit :=
  s <- get_store ;;
  if mu_locked s then blocked else upd_store (set_locked true).
Definition unlock_store : M W unit :=
  s <- get_store ;;
  if mu_locked s then upd_store (set_locked false)
  else panic "sync: unlock of unlocked mutex".

Definition Transaction (_ : TransactionMode) : M W (option TX * err) :=
  lock_store ;;; ret (Some (MkTransaction None 0 []), None).

Definition prepOp : M (TX * W) (OpID * err) :=
  t <- gets fst ;;
  match t_ctx t with
  | Some e => ret (0%Z, Some e)
  | None =>
      modify (fun s => (MkTransaction (t_ctx t) (add64 (t_op t) 1) (t_results t), s.2)) ;;;
      ret (t_op t, None)
  end.

Definition add_result (r : OpResult store fileRecord) : M (TX * W) unit :=
  modify (fun s =>
    (MkTransaction (t_ctx s.1) (t_op s.1) (t_results s.1 ++ [r])%list, s.2)).

Definition OpHandler : Type := OpResult store fileRecord -> M (TX * W) err.
Definition no_handler : OpHandler := fun _ => ret None.

Definition GetHandler (name : string) (handler : OpHandler) : M (TX * W) OpID :=
  let* (op, e) := prepOp in
  match e with
  | Some e => add_result (MkOpResult op None (Some e)) ;;; ret op
  | None =>
      let* (record, e) := in_world (Get name) in
      let result := MkOpResult op record e in
      e <- handler result ;;
      add_result (with_handler_err result e) ;;;
      ret op
  end.

Definition SetHandler (name : string) (src : option FD) (contents : option Blob)
    (handler : OpHandler) : M (TX * W) (OpID * option FD) :=
  let* (op, e) := prepOp in
  match e with
  | Some e => add_result (MkOpResult op None (Some e)) ;;; ret (op, src)
  | None =>
      let* (e, src) := in_world (set_ name src contents) in
      let result := MkOpResult op None e in
      e <- handler result ;;
      add_result (with_handler_err result e) ;;;
      ret (op, src)
  end.

(** [t.abort()] cancels the context. *)
Definition abort : M (TX * W) unit :=
  modify (fun s =>
    (MkTransaction (cancel (t_ctx s.1)) (t_op s.1) (t_results s.1), s.2)).

Definition Commit (_ : err) : M (TX * W) (list (OpResult store fileRecord) * err) :=
  abort ;;;
  in_world unlock_store ;;;
  rs <- gets (fun s => t_results s.1) ;;
  ret (rs, None).

Definition Abort : M (TX * W) err := abort ;;; in_world unlock_store ;;; ret None.

#[export] Instance mem_txn : TransactionStore store fileRecord transaction := {|
  t_Transaction := Transaction;
  t_Get name := GetHandler name no_handler;
  t_Set name src contents := SetHandler name src contents no_handler;
  t_Commit := Commit;
  t_Abort := Abort
|}.

#[export] Instance mem_store : Store store fileRecord transaction := {|
  s_Get := Get;
  s_Set := Set_;
  s_txn := Some mem_txn
|}.

(** ** [mem.FS] *)
Definition FS_NewFS : M W err := NewFS.
Definition FS_Open : string -> M W (option (handle store fileRecord) * err) := Open.
Definition FS_OpenFile : string -> Z -> Z -> M W (option (handle store fileRecord) * err) :=
  OpenFile.
Definition FS_Mkdir : string -> Z -> M W err := Mkdir.
Definition FS_MkdirAll : string -> Z -> M W err := MkdirAll.
Definition FS_Remove : string -> M W err := Remove.
Definition FS_Rename : nat -> string -> string -> M W err := Rename.
Definition FS_Stat : string -> M W (option (fileInfo store fileRecord) * err) := Stat.
Definition FS_Chmod : string -> Z -> M W err := Chmod.
Definition FS_Chtimes : string -> Z -> Z -> M W err := Chtimes.
End mem.

Definition new_world (t : Z) : world store := World empty_heap newStore t.
