(* ===== verification/StoreSpec.v ===== *)
(** * What a store promises to the file system

    The class [LawfulStore]: a store holds a map from paths to entries, and
    its transactions read and write that map.  The theorems about the file
    system are proved against this interface; the in-memory store and every
    plain store under serial transactions implement it. *)
From S2P Require Import Prelude.
From S2P Require Import Paths.
From S2P Require Import Errors.
From S2P Require Import Modes.
From S2P Require Import Blob.
From S2P Require Import BlobSpec.
From S2P Require Import Record.
From S2P Require Import Txn.
From S2P Require Import KVFile.

Local Open Scope string_scope.

(** The abstract content of a store: under each path a blob, a mode and a
    modification time. *)
Record entry := MkEntry { e_data : Blob; e_mode : Z; e_modTime : Z }.
Abbreviation tree := (gmap string entry).

(** ** The names in a directory *)
Definition child_of (dir key : string) : option string :=
  if negb (String.eqb key ".") && String.eqb (Dir key) dir then Some (Base key) else None.
Definition children {A} (m : gmap string A) (dir : string) : list string :=
  omap (fun kv => child_of dir kv.1) (map_to_list m).

(** Two maps with the same keys list them alike, and have the same children. *)
Lemma keys_perm {A B} (m1 : gmap string A) (m2 : gmap string B) :
  (forall k, is_Some (m1 !! k) <-> is_Some (m2 !! k)) ->
  (map_to_list m1).*1 ≡ₚ (map_to_list m2).*1.
Proof.
  intros Hk. apply NoDup_Permutation; [apply NoDup_fst_map_to_list..|]. intros k.
  rewrite !list_elem_of_fmap.
  split; intros ([k' a] & -> & E%elem_of_map_to_list); simpl.
  - destruct (proj1 (Hk k')) as [b Hb]; [by eexists|].
    exists (k', b). split; [done|]. by apply elem_of_map_to_list.
  - destruct (proj2 (Hk k')) as [b Hb]; [by eexists|].
    exists (k', b). split; [done|]. by apply elem_of_map_to_list.
Qed.
Lemma omap_fst {A B} (f : string -> option B) (l : list (string * A)) :
  omap (fun kv => f kv.1) l = omap f l.*1.
Proof. induction l as [|[k a] l IH]; [done|]. csimpl. by rewrite IH. Qed.
Lemma children_keys {A B} (m1 : gmap string A) (m2 : gmap string B) dir :
  (forall k, is_Some (m1 !! k) <-> is_Some (m2 !! k)) ->
  children m1 dir ≡ₚ children m2 dir.
Proof. intros Hk. unfold children. by rewrite !omap_fst, (keys_perm m1 m2 Hk). Qed.

(** ** What a [fileData] stands for *)
Section fileData.
Context {ST R : Type} `{!RecordOps ST R}.
Notation W := (world ST).
Notation FD := (fileData ST R).
Implicit Types (fd : FD) (w : W).

Definition fr_mode (r : FileRecord ST R) : Z :=
  match r with StoreRecord r => rec_Mode r | BaseRecord b => b_mode b end.
Definition fr_mtime (r : FileRecord ST R) : Z :=
  match r with StoreRecord r => rec_ModTime r | BaseRecord b => b_modTime b end.

(** The values its methods return, whatever they have cached. *)
Definition ro_modeof (ro : runOnceFileRecord ST R) : option Z :=
  match ro_mode ro with Some m => Some m | None => fr_mode <$> record ro end.
Definition ro_mtimeof (ro : runOnceFileRecord ST R) : option Z :=
  match ro_modTime ro with Some m => Some m | None => fr_mtime <$> record ro end.
Definition fd_mode fd : option Z :=
  match modeOverride fd with Some m => Some m | None => ro_modeof (fd_ro fd) end.
Definition fd_mtime fd : option Z :=
  if (modTimeOverride fd =? 0)%Z then ro_mtimeof (fd_ro fd) else Some (modTimeOverride fd).

(** Equal but for what is remembered of mode and time... *)
Record fd_same fd fd' : Prop := {
  same_path : path fd' = path fd;
  same_record : record (fd_ro fd') = record (fd_ro fd);
  same_override : modeOverride fd' = modeOverride fd;
  same_mode : ro_modeof (fd_ro fd') = ro_modeof (fd_ro fd);
  same_mtime : fd_mtime fd' = fd_mtime fd;
  same_data : ro_data (fd_ro fd') = ro_data (fd_ro fd);
  same_dataDone : ro_dataDone (fd_ro fd') = ro_dataDone (fd_ro fd);
  same_size : ro_size (fd_ro fd') = ro_size (fd_ro fd);
  same_names : ro_dirNames (fd_ro fd') = ro_dirNames (fd_ro fd)
}.
(** ... and of anything. *)
Record fd_keeps fd fd' : Prop := {
  keeps_path : path fd' = path fd;
  keeps_record : record (fd_ro fd') = record (fd_ro fd);
  keeps_mode : fd_mode fd' = fd_mode fd;
  keeps_mtime : fd_mtime fd' = fd_mtime fd
}.

#[export] Instance fd_same_equiv : Equivalence fd_same.
Proof.
  split.
  - intros ?. by split.
  - intros ?? []. by split.
  - intros ??? [] []. split; congruence.
Qed.
#[export] Instance fd_keeps_equiv : Equivalence fd_keeps.
Proof.
  split.
  - intros ?. by split.
  - intros ?? []. by split.
  - intros ??? [] []. split; congruence.
Qed.
Lemma fd_same_mode fd fd' : fd_same fd fd' -> fd_mode fd' = fd_mode fd.
Proof. intros []. unfold fd_mode. rewrite same_override0. by destruct (modeOverride fd). Qed.
Lemma fd_same_keeps fd fd' : fd_same fd fd' -> fd_keeps fd fd'.
Proof. intros Hs. split; [apply Hs..| |apply Hs]. by apply fd_same_mode. Qed.

Lemma ro_Mode_run (ro : runOnceFileRecord ST R) m w :
  ro_modeof ro = Some m ->
  exists ro', ro_Mode (ro, w) = (Ret m, (ro', w)) /\
    (ro' = ro \/ ro' = store_mode m ro).
Proof.
  unfold ro_modeof, ro_Mode, with_ro, once, on_record. simpl.
  destruct (ro_mode ro) as [m'|]; [intros [= ->]; by eauto|].
  destruct (record ro) as [[r|b]|]; simpl; intros [= <-]; eauto.
Qed.
Lemma ro_ModTime_run (ro : runOnceFileRecord ST R) t w :
  ro_mtimeof ro = Some t ->
  exists ro', ro_ModTime (ro, w) = (Ret t, (ro', w)) /\
    (ro' = ro \/ ro' = store_modTime t ro).
Proof.
  unfold ro_mtimeof, ro_ModTime, with_ro, once, on_record. simpl.
  destruct (ro_modTime ro) as [m'|]; [intros [= ->]; by eauto|].
  destruct (record ro) as [[r|b]|]; simpl; intros [= <-]; eauto.
Qed.

Lemma on_ro_run {A} (m : M (runOnceFileRecord ST R * W) A) fd w r ro' w' :
  m (fd_ro fd, w) = (r, (ro', w')) -> on_ro m (fd, w) = (r, (set_ro ro' fd, w')).
Proof. intros E. unfold on_ro, zoom. cbn [fst snd]. by rewrite E. Qed.

Lemma on_ro_Mode_run fd m w :
  ro_modeof (fd_ro fd) = Some m ->
  exists fd', on_ro ro_Mode (fd, w) = (Ret m, (fd', w)) /\ fd_same fd fd'.
Proof.
  intros Hm. destruct (ro_Mode_run (fd_ro fd) m w Hm) as (ro' & E & Hro).
  exists (set_ro ro' fd). split.
  - by apply on_ro_run.
  - unfold ro_modeof in Hm. by destruct Hro as [->| ->]; split.
Qed.
Lemma fd_Mode_run fd m w :
  fd_mode fd = Some m ->
  exists fd', fd_Mode (fd, w) = (Ret m, (fd', w)) /\ fd_same fd fd'.
Proof.
  unfold fd_mode, fd_Mode. rewrite bind_gets. simpl.
  destruct (modeOverride fd) as [m'|]; [intros [= ->]; by exists fd|].
  apply on_ro_Mode_run.
Qed.
Lemma fd_ModTime_run fd t w :
  fd_mtime fd = Some t ->
  exists fd', fd_ModTime (fd, w) = (Ret t, (fd', w)) /\ fd_same fd fd'.
Proof.
  intros Ht. pose proof Ht as Ht'. revert Ht'.
  unfold fd_mtime, fd_ModTime. rewrite bind_gets. simpl.
  destruct (modTimeOverride fd =? 0)%Z eqn:Z0; [|intros [= ->]; by exists fd].
  intros Hro. destruct (ro_ModTime_run (fd_ro fd) t w Hro) as (ro' & E & Hro').
  exists (set_ro ro' fd). split.
  - by apply on_ro_run.
  - destruct Hro' as [->| ->]; split; try done.
    unfold fd_mtime. simpl. rewrite Z0, Hro. unfold ro_mtimeof in *. simpl in *. done.
Qed.

(** ** Data *)

(** Its data was read before. *)
Definition loaded fd (b : Blob) : Prop :=
  ro_data (fd_ro fd) = Some (Some b, None) /\ ro_dataDone (fd_ro fd) = true.

(** [Data] returns [b], now and ever after, and takes the heap [h] to [h']. *)
Definition gives fd (h : heap) (b : Blob) (h' : heap) : Prop :=
  forall fd0 w, fd_same fd fd0 -> w_heap w = h ->
    exists fd1, fd_Data (fd0, w) = (Ret (Some b, None), (fd1, set_heap h' w)) /\
      fd_keeps fd fd1 /\ loaded fd1 b.

Lemma loaded_same fd fd' b : fd_same fd fd' -> loaded fd b -> loaded fd' b.
Proof. intros [] []. split; congruence. Qed.
Lemma gives_same fd fd' h b h' : fd_same fd fd' -> gives fd h b h' -> gives fd' h b h'.
Proof.
  intros Hs Hg fd0 w H0 Hw.
  destruct (Hg fd0 w) as (fd1 & E & Hk & Hl); [by transitivity fd'|done|].
  exists fd1. split_and!; [done| |done].
  transitivity fd; [symmetry; by apply fd_same_keeps|done].
Qed.

Lemma set_heap_id w : set_heap (w_heap w) w = w.
Proof. by destruct w. Qed.

(** A record that has not been read yet gives what its [Data] returns. *)
Lemma gives_record fd r h b h' :
  record (fd_ro fd) = Some r -> ro_data (fd_ro fd) = None ->
  (forall w, w_heap w = h -> fr_Data r w = (Ret (Some b, None), set_heap h' w)) ->
  gives fd h b h'.
Proof.
  intros Hr Hd E fd0 w H0 Hw. pose proof H0 as [].
  eexists. unfold fd_Data, on_ro, zoom, ro_Data, with_ro, once, on_record. simpl.
  rewrite same_data0, Hd, same_record0, Hr, E by done. split_and!; [done| |by split].
  transitivity fd0; [by apply fd_same_keeps|]. by split.
Qed.

Lemma gives_loaded fd h b : loaded fd b -> gives fd h b h.
Proof.
  intros Hl fd0 w Hs <-. exists fd0.
  pose proof (loaded_same _ _ _ Hs Hl) as [Hd _].
  split_and!; [|by apply fd_same_keeps|by apply (loaded_same fd)].
  unfold fd_Data, on_ro, zoom, ro_Data, with_ro, once. simpl. rewrite Hd, set_heap_id.
  by destruct fd0.
Qed.
End fileData.

(** ** The interface *)
Definition is_result {ST R} (is_record : string -> entry -> R -> Prop)
    (missing_err : string -> error) (m : tree) (name : string) (r : OpResult ST R) : Prop :=
  match m !! name with
  | Some e => exists rec, res_Record r = Some (StoreRecord rec) /\ res_Err r = None /\
                is_record name e rec
  | None => res_Record r = None /\ res_Err r = Some (missing_err name)
  end.

(** Operation numbers do not wrap around. *)
Definition few {A} (rs : list A) : Prop := (Z.of_nat (length rs) < int64_max)%Z.

Lemma few_nil {A} : few (@nil A).
Proof. unfold few, int64_max. simpl. lia. Qed.
Lemma few_one {A} (r : A) : few [r].
Proof. unfold few, int64_max. simpl. lia. Qed.
#[export] Hint Resolve few_nil few_one : go_wf.

Class LawfulStore (ST R T : Type) `{!RecordOps ST R, !Store ST R T} := {
  (** the store is at rest and holds the tree; a transaction is open on it *)
  holds : ST -> tree -> Prop;
  opened : Transaction ST R T -> ST -> tree -> list (OpResult ST R) -> Prop;
  (** the record stands for the entry at the path *)
  is_record : string -> entry -> R -> Prop;
  (** the error for a path that is not there *)
  missing_err : string -> error;

  law_missing name : error_Is (missing_err name) ErrNotExist = true;
  law_keys s m name e : holds s m -> m !! name = Some e -> ValidPath name = true;

  law_mode name e r : is_record name e r -> rec_Mode r = e_mode e;
  law_modTime name e r : is_record name e r -> rec_ModTime r = e_modTime e;
  law_data name e r w : is_record name e r -> rec_Data r w = (Ret (Some (e_data e), None), w);
  law_size name e r w :
    is_record name e r -> rec_Size r w = in_heap (Blob_Len (e_data e)) w;
  law_names name e r w m :
    is_record name e r -> ValidPath name = true -> holds (w_store w) m ->
    exists names, names ≡ₚ children m name /\
      rec_ReadDirNames r w =
        (Ret (if IsDir (e_mode e) then (names, None) else ([], Some ErrNotDir)), w);

  law_begin mode w m :
    holds (w_store w) m ->
    exists t s, TransactionOrSerial mode w = (Ret (Some t, None), set_store s w) /\
      opened t s m [];
  law_get name t w m rs :
    opened t (w_store w) m rs -> few rs ->
    exists op t' r, txn_Get name (t, w) = (Ret op, (t', w)) /\
      opened t' (w_store w) m (rs ++ [r]) /\ is_result is_record missing_err m name r;
  law_delete name contents t w m rs :
    opened t (w_store w) m rs -> few rs ->
    exists op t' s r, txn_Set name None contents (t, w) = (Ret (op, None), (t', set_store s w)) /\
      opened t' s (delete name m) (rs ++ [r]);
  law_set name fd mode mtime b contents t w h' m rs :
    opened t (w_store w) m rs -> few rs -> ValidPath name = true ->
    fd_mode fd = Some mode -> fd_mtime fd = Some mtime -> gives fd (w_heap w) b h' ->
    exists op t' s r fd',
      txn_Set name (Some fd) contents (t, w) =
        (Ret (op, Some fd'), (t', set_store s (set_heap h' w))) /\
      opened t' s (<[name := MkEntry b mode mtime]> m) (rs ++ [r]) /\
      fd_keeps fd fd' /\ loaded fd' b;
  law_commit t w m rs :
    opened t (w_store w) m rs -> few rs ->
    exists t' s, txn_Commit None (t, w) = (Ret (rs, None), (t', set_store s w)) /\ holds s m;
  law_abort t w m :
    opened t (w_store w) m [] ->
    exists t' s, txn_Abort (t, w) = (Ret None, (t', set_store s w)) /\ holds s m
}.
