(* ===== verification/MemSpec.v ===== *)
(** * The in-memory store keeps the store's promise

    The instance of [LawfulStore] for [mem]: its map of records is the tree,
    the mutex is held exactly while a transaction is open, and
    [ReadDirNames] lists the children of a directory. *)
From S2P Require Import Prelude.
From S2P Require Import Paths.
From S2P Require Import Errors.
From S2P Require Import Modes.
From S2P Require Import Blob.
From S2P Require Import BlobSpec.
From S2P Require Import Record.
From S2P Require Import Txn.
From S2P Require Import KVFile.
From S2P Require Import KVFS.
From S2P Require Import StoreSpec.
From S2P Require Import Mem.

Local Open Scope string_scope.

(** ** Names *)
Lemma no_prefix_dot d : ValidPath d = true -> HasPrefix "." (d +:+ "/") = false.
Proof.
  intros Hd. destruct (HasPrefix "." (d +:+ "/")) eqn:E; [|done].
  apply HasPrefix_spec in E as [r E]. destruct d as [|c [|c' d]]; done.
Qed.

(** On valid paths, what [ReadDirNames] makes of a key is the name of a child. *)
Lemma child_name_valid dir key :
  ValidPath dir = true -> ValidPath key = true -> child_name dir key = child_of dir key.
Proof.
  intros Hd Hk. destruct (ValidPath_cases key Hk) as [->|(es & e & Hes & He & Ek & Eq & Hne)].
  { unfold child_name, child_of. destruct (String.eqb_spec dir ".") as [->|]; [done|].
    by rewrite no_prefix_dot. }
  assert (Hg : good_elems (es ++ [e])) by (apply Forall_app; by rewrite Forall_singleton).
  pose proof He as (Hne' & _ & _ & _ & Hsl)%good_elem_spec.
  unfold child_of. rewrite (proj2 (String.eqb_neq _ _) Hne). simpl negb. rewrite andb_true_l.
  assert (HD : Dir key = of_elems es) by by rewrite Eq, Dir_snoc.
  assert (HB : Base key = e) by by rewrite Eq, Base_snoc. rewrite HD, HB.
  unfold child_name. destruct (String.eqb_spec dir ".") as [->|Hdir].
  - assert (HasPrefix key "" = true) as -> by by apply (HasPrefix_app "" key).
    assert (TrimPrefix key "" = key) as -> by by apply (TrimPrefix_app "" key).
    rewrite (proj2 (String.eqb_neq _ _) Hne), andb_false_r. simpl negb.
    destruct es as [|e0 es].
    + simpl in Eq. subst key. simpl. by rewrite Hsl.
    + assert (Hn : of_elems (e0 :: es) <> ".").
      { intros E. apply elems_nil in E; [|by apply ValidPath_of_elems].
        by rewrite elems_of_elems in E. }
      rewrite (proj2 (String.eqb_neq _ _) Hn).
      rewrite Eq. change (of_elems ((e0 :: es) ++ [e])) with (join_slash ((e0 :: es) ++ [e])).
      rewrite join_slash_app, contains_char_app by done. simpl contains_char at 2.
      by rewrite orb_true_r.
  - rewrite andb_false_l. simpl negb. rewrite andb_true_r.
    destruct (ValidPath_elems dir Hd) as [Hgd Hed].
    assert (Hnn : elems dir <> []) by by rewrite elems_nil.
    destruct (String.eqb_spec (of_elems es) dir) as [E|E].
    + assert (key = (dir +:+ "/") +:+ e) as ->.
      { rewrite Eq, <- E. destruct es as [|e0 es]; [by destruct Hdir|].
        change (of_elems ((e0 :: es) ++ [e])) with (join_slash ((e0 :: es) ++ [e])).
        by rewrite join_slash_app, app_assoc_s. }
      by rewrite HasPrefix_app, TrimPrefix_app, Hsl.
    + destruct (HasPrefix key (dir +:+ "/")) eqn:Hp; [|done].
      apply HasPrefix_spec in Hp as [r ->]. rewrite TrimPrefix_app.
      destruct (contains_char slash r) eqn:Hr; [done|]. exfalso. apply E.
      unfold elems in Ek. rewrite (proj2 (String.eqb_neq _ _) Hne), app_assoc_s in Ek.
      rewrite split_slash_append, (split_slash_elem r) in Ek by done.
      apply app_inj_tail in Ek as [<- _].
      unfold elems in Hed. by rewrite (proj2 (String.eqb_neq _ _) Hdir) in Hed.
Qed.

(** ** The tree in the map of records *)
Definition to_record (name : string) (e : entry) : fileRecord :=
  MkFileRecord name (Some (e_data e)) (e_mode e) (e_modTime e).
Definition mem_records (m : tree) : gmap string fileRecord :=
  map_imap (fun name e => Some (to_record name e)) m.

Lemma lookup_mem_records m name : mem_records m !! name = to_record name <$> m !! name.
Proof. unfold mem_records. rewrite map_lookup_imap. by destruct (m !! name). Qed.
Lemma mem_records_insert m name e :
  mem_records (<[name := e]> m) = <[name := to_record name e]> (mem_records m).
Proof.
  apply map_eq. intros k. rewrite lookup_mem_records.
  destruct (decide (k = name)) as [->|];
    [by rewrite !lookup_insert_eq|by rewrite !lookup_insert_ne, lookup_mem_records].
Qed.
Lemma mem_records_delete m name :
  mem_records (delete name m) = delete name (mem_records m).
Proof.
  apply map_eq. intros k. rewrite lookup_mem_records.
  destruct (decide (k = name)) as [->|];
    [by rewrite !lookup_delete_eq|by rewrite !lookup_delete_ne, lookup_mem_records].
Qed.

Definition valid_keys (m : tree) : Prop :=
  forall name e, m !! name = Some e -> ValidPath name = true.

Lemma valid_keys_insert m name e :
  valid_keys m -> ValidPath name = true -> valid_keys (<[name := e]> m).
Proof. intros Hm Hn k e' [[<- _]|[_ E]]%lookup_insert_Some; [done|by apply (Hm k e')]. Qed.
Lemma valid_keys_delete m name : valid_keys m -> valid_keys (delete name m).
Proof. intros Hm k e' [_ E]%lookup_delete_Some. by apply (Hm k e'). Qed.

Lemma mem_names `{!GoRuntime} m dir :
  valid_keys m -> ValidPath dir = true ->
  omap (fun kv => child_name dir kv.1) (range_order (mem_records m)) ≡ₚ children m dir.
Proof.
  intros Hm Hd. unfold children. rewrite !omap_fst.
  assert (E : (range_order (mem_records m)).*1 ≡ₚ (map_to_list m).*1).
  { rewrite range_order_perm. apply keys_perm. intros k. rewrite lookup_mem_records.
    split; [intros [? E]|intros [? ->]; by eexists]. by destruct (m !! k). }
  rewrite E. clear E.
  assert (Hv : Forall (fun k => ValidPath k = true) (map_to_list m).*1).
  { apply Forall_fmap, Forall_forall. intros [k e] Hk%elem_of_map_to_list. by apply (Hm k e). }
  induction Hv as [|k l Hk Hl IH]; [done|]. csimpl. rewrite child_name_valid by done.
  destruct (child_of dir k); [by rewrite IH|done].
Qed.

(** ** The instance *)
Section mem.
Context `{!GoRuntime}.
Notation W := (world store).
Notation TX := (Txn.Transaction store fileRecord transaction).
Implicit Types (m : tree) (w : W).

Definition mem_state (locked : bool) (s : store) (m : tree) : Prop :=
  s = MkStore locked (mem_records m) /\ valid_keys m.
Definition mem_opened (t : TX) (s : store) (m : tree)
    (rs : list (OpResult store fileRecord)) : Prop :=
  exists op, t = StoreTxn (MkTransaction None op rs) /\ mem_state true s m.
Definition mem_is_record (name : string) (e : entry) (r : fileRecord) : Prop :=
  r = to_record name e.

Lemma mem_set_run name fd mode mtime b contents w h' :
  fd_mode fd = Some mode -> fd_mtime fd = Some mtime -> gives fd (w_heap w) b h' ->
  exists fd', set_ name (Some fd) contents w =
      (Ret (None, Some fd'),
       set_store (set_records (<[name := to_record name (MkEntry b mode mtime)]>
                                 (records (w_store w))) (w_store w)) (set_heap h' w)) /\
    fd_keeps fd fd' /\ loaded fd' b.
Proof.
  intros Hm Ht Hg. destruct (Hg fd w) as (fd1 & E & Hk & Hl); [done..|].
  set (w' := set_heap h' w) in *.
  assert (E1 : on_var fd fd_Data w = (Ret (Some b, None, fd1), w'))
    by (unfold on_var; by rewrite E).
  unfold set_. run E1. destruct (fd_Mode_run fd1 mode w') as (fd2 & E2 & H2).
  { by rewrite (keeps_mode fd fd1 Hk). }
  assert (E2' : on_var fd1 fd_Mode w' = (Ret (mode, fd2), w'))
    by (unfold on_var; by rewrite E2).
  run E2'. destruct (fd_ModTime_run fd2 mtime w') as (fd3 & E3 & H3).
  { by rewrite (same_mtime fd1 fd2 H2), (keeps_mtime fd fd1 Hk). }
  assert (E3' : on_var fd2 fd_ModTime w' = (Ret (mtime, fd3), w'))
    by (unfold on_var; by rewrite E3).
  run E3'. unfold upd_store. rewrite bind_modify. exists fd3. split_and!.
  - done.
  - transitivity fd1; [done|]. apply fd_same_keeps. by transitivity fd2.
  - apply (loaded_same fd2); [done|]. by apply (loaded_same fd1).
Qed.

Lemma mem_begin mode w m :
  mem_state false (w_store w) m ->
  exists t s, TransactionOrSerial mode w = (Ret (Some t, None), set_store s w) /\
    mem_opened t s m [].
Proof.
  intros [Hs Hm]. exists (StoreTxn (MkTransaction None 0 [])), (MkStore true (mem_records m)).
  split; [|by exists 0%Z]. destruct w as [h s n]. simpl in Hs. by subst s.
Qed.

Lemma mem_get name t w m rs :
  mem_opened t (w_store w) m rs ->
  exists op t' r, txn_Get name (t, w) = (Ret op, (t', w)) /\
    mem_opened t' (w_store w) m (rs ++ [r]) /\
    is_result mem_is_record (fun _ => ErrNotExist) m name r.
Proof.
  intros (op & -> & Hs & Hm).
  exists op, (StoreTxn (MkTransaction None (add64 op 1)
    (rs ++ [MkOpResult op (StoreRecord <$> (to_record name <$> m !! name))
             (match m !! name with Some _ => None | None => Some ErrNotExist end)]))).
  eexists. split; [|split; [by eexists; split|]].
  - destruct w as [h s n]. simpl in Hs. subst s. cbn.
    unfold GetHandler, in_world, zoom, Get, bind. cbn. rewrite lookup_mem_records.
    by destruct (m !! name).
  - unfold is_result. destruct (m !! name); simpl; [|done]. by eexists.
Qed.

Lemma mem_delete name contents t w m rs :
  mem_opened t (w_store w) m rs ->
  exists op t' s r, txn_Set name None contents (t, w) = (Ret (op, None), (t', set_store s w)) /\
    mem_opened t' s (delete name m) (rs ++ [r]).
Proof.
  intros (op & -> & Hs & Hm).
  exists op, (StoreTxn (MkTransaction None (add64 op 1) (rs ++ [MkOpResult op None None]))).
  exists (MkStore true (mem_records (delete name m))). eexists. split.
  - destruct w as [h s n]. simpl in Hs. subst s. rewrite mem_records_delete. reflexivity.
  - eexists. split; [done|]. split; [done|]. by apply valid_keys_delete.
Qed.

Lemma mem_set name fd mode mtime b contents t w h' m rs :
  mem_opened t (w_store w) m rs -> ValidPath name = true ->
  fd_mode fd = Some mode -> fd_mtime fd = Some mtime -> gives fd (w_heap w) b h' ->
  exists op t' s r fd',
    txn_Set name (Some fd) contents (t, w) =
      (Ret (op, Some fd'), (t', set_store s (set_heap h' w))) /\
    mem_opened t' s (<[name := MkEntry b mode mtime]> m) (rs ++ [r]) /\
    fd_keeps fd fd' /\ loaded fd' b.
Proof.
  intros (op & -> & Hs & Hm) Hv Hmode Ht Hg.
  destruct (mem_set_run name fd mode mtime b contents w h' Hmode Ht Hg) as (fd' & E & Hk & Hl).
  exists op, (StoreTxn (MkTransaction None (add64 op 1) (rs ++ [MkOpResult op None None]))).
  exists (MkStore true (mem_records (<[name := MkEntry b mode mtime]> m))).
  eexists _, fd'. split_and!; [| |done..].
  - rewrite mem_records_insert. unfold txn_Set, dispatch. cbn -[set_].
    unfold SetHandler, in_world, zoom, bind. cbn -[set_]. rewrite E, Hs. reflexivity.
  - eexists. split; [done|]. split; [done|]. by apply valid_keys_insert.
Qed.

Lemma mem_finish t w m rs :
  mem_opened t (w_store w) m rs ->
  exists s, mem_state false s m /\
    (exists t', txn_Commit None (t, w) = (Ret (rs, None), (t', set_store s w))) /\
    (exists t', txn_Abort (t, w) = (Ret None, (t', set_store s w))).
Proof.
  intros (op & -> & Hs & Hm). exists (MkStore false (mem_records m)).
  destruct w as [h s n]. simpl in Hs. subst s. split; [done|]. by split; eexists.
Qed.

Lemma mem_dir_names name e w m :
  ValidPath name = true -> mem_state false (w_store w) m ->
  exists names, names ≡ₚ children m name /\
    rec_ReadDirNames (to_record name e) w =
      (Ret (if IsDir (e_mode e) then (names, None) else ([], Some ErrNotDir)), w).
Proof.
  intros Hv [Hs Hm].
  exists (omap (fun kv => child_name name kv.1) (range_order (mem_records m))).
  split; [by apply mem_names|].
  destruct w as [h s n]. simpl in Hs. subst s. cbn. unfold ReadDirNames. cbn.
  by destruct (IsDir (e_mode e)).
Qed.

#[export] Instance mem_lawful : LawfulStore store fileRecord transaction.
Proof.
  unshelve econstructor;
    [exact (mem_state false)|exact mem_opened|exact mem_is_record|exact (fun _ => ErrNotExist)|..].
  - done.
  - intros s m name e [_ Hm]. by apply Hm.
  - by intros name e r ->.
  - by intros name e r ->.
  - by intros name e r w ->.
  - by intros name e r w ->.
  - intros name e r w m -> Hv Hs. by apply mem_dir_names.
  - intros mode w m. apply mem_begin.
  - intros name t w m rs Ho _. by apply mem_get.
  - intros name contents t w m rs Ho _. by apply mem_delete.
  - intros name fd mode mtime b contents t w h' m rs Ho _. by apply mem_set.
  - intros t w m rs Ho _. destruct (mem_finish t w m rs Ho) as (s & Hs & [t' E] & _).
    by exists t', s.
  - intros t w m Ho. destruct (mem_finish t w m [] Ho) as (s & Hs & _ & [t' E]).
    by exists t', s.
Defined.
End mem.
