(* ===== verification/FSSpec.v ===== *)
(** * The file system operations over a lawful store

    What the private operations of [keyvalue.FS] do on any store that keeps
    the promise of [StoreSpec]: reading one or several records, saving and
    deleting a record, making a new one. *)
From S2P Require Import Prelude.
From S2P Require Import Paths.
From S2P Require Import Errors.
From S2P Require Import Modes.
From S2P Require Import Blob.
From S2P Require Import BlobSpec.
From S2P Require Import Record.
From S2P Require Import Txn.
From S2P Require Import KVFile.
From S2P Require Import KVFS.
From S2P Require Import StoreSpec.

Local Open Scope string_scope.

(** The children of a directory only depend on the keys. *)
Lemma elem_of_children {A} (t : gmap string A) dir x :
  x ∈ children t dir <-> exists key, is_Some (t !! key) /\ child_of dir key = Some x.
Proof.
  unfold children. rewrite list_elem_of_omap. split.
  - intros ([k e] & Hk%elem_of_map_to_list & E). exists k. split; [by eexists|done].
  - intros (k & [e Hk] & E). exists (k, e). split; [by apply elem_of_map_to_list|done].
Qed.

Lemma child_of_Join dir x :
  ValidPath dir = true -> good_elem x = true -> child_of dir (Join [dir; x]) = Some x.
Proof.
  intros Hd Hx. unfold child_of. rewrite Dir_Join, Base_Join, String.eqb_refl by done.
  by rewrite (proj2 (String.eqb_neq _ _) (Join_not_dot dir x Hd Hx)).
Qed.

Lemma child_of_Some dir key x :
  ValidPath key = true -> child_of dir key = Some x ->
  key = Join [dir; x] /\ good_elem x = true /\ Dir key = dir /\ key <> ".".
Proof.
  intros Hk. unfold child_of. destruct (String.eqb_spec key "."); [done|].
  destruct (String.eqb_spec (Dir key) dir) as [<-|]; [|done]. intros [= <-].
  destruct (Join_Dir_Base key) as [-> ?]; done.
Qed.

(** No name is listed twice. *)
Lemma NoDup_children {A} (t : gmap string A) dir :
  (forall k a, t !! k = Some a -> ValidPath k = true) -> NoDup (children t dir).
Proof.
  intros Hv. unfold children. rewrite omap_fst.
  assert (Hk : Forall (fun k => ValidPath k = true) (map_to_list t).*1).
  { apply Forall_fmap, Forall_forall. intros [k a] E%elem_of_map_to_list. by apply (Hv k a). }
  pose proof (NoDup_fst_map_to_list t) as Hnd. induction Hnd as [|k l Hn Hnd IH]; [constructor|].
  apply Forall_cons in Hk as [Hk Hl]. csimpl. destruct (child_of dir k) as [x|] eqn:Ex; [|auto].
  constructor; [|auto]. intros (k' & Hin & Ex')%list_elem_of_omap.
  rewrite Forall_forall in Hl. specialize (Hl k' Hin).
  apply child_of_Some in Ex as (-> & _); [|done]. apply child_of_Some in Ex' as (-> & _); done.
Qed.

Section spec.
Context {ST R T : Type} `{!RecordOps ST R, !Store ST R T, !GoRuntime, !LawfulStore ST R T}.
Notation W := (world ST).
Notation FD := (fileData ST R).
Implicit Types (w : W) (t : tree) (fd : FD).

Lemma holds_valid w t name e :
  holds (w_store w) t -> t !! name = Some e -> ValidPath name = true.
Proof. apply law_keys. Qed.

Lemma on_var_run {S A} (s s' : S) (m : M (S * W) A) w w' a :
  m (s, w) = (Ret a, (s', w')) -> on_var s m w = (Ret (a, s'), w').
Proof. intros E. unfold on_var. by rewrite E. Qed.
Lemma peek_run {S A} (s s' : S) (m : M (S * W) A) w w' a :
  m (s, w) = (Ret a, (s', w')) -> peek s m w = (Ret a, w').
Proof. intros E. unfold peek, zoom. by rewrite E. Qed.
Lemma with_txn_run {A} (t t' : Transaction ST R T) (m : M (Transaction ST R T * W) A) w w' a :
  m (t, w) = (Ret a, (t', w')) -> with_txn t m w = (Ret a, w').
Proof. intros E. unfold with_txn, zoom. by rewrite E. Qed.
Lemma in_world_run {S A} (s : S) (m : M W A) w w' r :
  m w = (r, w') -> in_world m (s, w) = (r, (s, w')).
Proof. intros E. unfold in_world, zoom. cbn [fst snd]. by rewrite E. Qed.

(** ** Files read from the store *)

(** The file data stands for the entry at the path. *)
Record file_of (name : string) (e : entry) fd : Prop := {
  of_path : path fd = name;
  of_mode : fd_mode fd = Some (e_mode e);
  of_mtime : fd_mtime fd = Some (e_modTime e);
  of_gives h : gives fd h (e_data e) h
}.

Definition record_fd (name : string) (r : option (FileRecord ST R)) : FD :=
  MkFileData (run_once r) None 0 name.

Lemma file_of_record name e r :
  is_record name e r -> file_of name e (record_fd name (Some (StoreRecord r))).
Proof.
  intros Hr. split; [done|..].
  - cbn. by rewrite (law_mode name e r Hr).
  - cbn. by rewrite (law_modTime name e r Hr).
  - intros h. apply (gives_record _ (StoreRecord r)); [done..|].
    intros w <-. rewrite set_heap_id. by apply (law_data name).
Qed.
Lemma file_of_same name e fd fd' : fd_same fd fd' -> file_of name e fd -> file_of name e fd'.
Proof.
  intros Hs [? Hm ? Hg]. split.
  - by rewrite (same_path fd fd').
  - by rewrite (fd_same_mode fd fd').
  - by rewrite (same_mtime fd fd').
  - intros h. by apply (gives_same fd).
Qed.
Lemma file_of_loaded name e fd fd' :
  fd_keeps fd fd' -> loaded fd' (e_data e) -> file_of name e fd -> file_of name e fd'.
Proof.
  intros [] Hl []. split; [congruence..|]. intros h. by apply gives_loaded.
Qed.

Lemma file_of_Data name e fd w :
  file_of name e fd ->
  exists fd', fd_Data (fd, w) = (Ret (Some (e_data e), None), (fd', w)) /\
    file_of name e fd' /\ loaded fd' (e_data e).
Proof.
  intros Hf.
  destruct (of_gives name e fd Hf (w_heap w) fd w) as (fd' & E & Hk & Hl); [done..|].
  exists fd'. rewrite set_heap_id in E. split_and!; [done| |done]. by apply (file_of_loaded name e fd).
Qed.

(** ** [getFile] *)
Definition get_result (t : tree) (name : string) (r : option (file ST R) * err) : Prop :=
  if ValidPath name then
    match t !! name with
    | Some e => exists rec, is_record name e rec /\
                  r = (Some (load_file name (Some (StoreRecord rec))), None)
    | None => r = (Some (load_file name None), Some (missing_err name))
    end
  else r = (None, Some ErrInvalid).

Lemma getFile_spec name w t :
  holds (w_store w) t ->
  exists r s, getFile name w = (Ret r, set_store s w) /\ holds s t /\ get_result t name r.
Proof.
  intros Ht. unfold getFile, get_result. destruct (ValidPath name); cbn [negb].
  2: { exists (None, Some ErrInvalid), (w_store w). by destruct w. }
  destruct (law_begin TransactionReadOnly w t Ht) as (tx & s & E & Ho).
  unfold Transaction_. run E.
  destruct (law_get name tx (set_store s w) t [] Ho) as (op & tx' & r & E' & Ho' & Hr);
    [auto with go_wf|].
  destruct (law_commit tx' (set_store s w) t [r] Ho') as (tx2 & s2 & E2 & H2);
    [apply few_one|].
  exists (Some (load_file name (res_Record r)), res_Err r), s2. split_and!; [|done|].
  - apply (with_txn_run tx tx2). run E'. run E2. done.
  - unfold is_result in Hr. destruct (t !! name) as [e|].
    + destruct Hr as (rec & -> & -> & Hr). by exists rec.
    + by destruct Hr as [-> ->].
Qed.

(** ** [Stat] *)
Definition stat_error (t : tree) (name : string) : option error :=
  if ValidPath name then
    match t !! name with
    | Some _ => None
    | None => Some (PathError "stat" name (missing_err name))
    end
  else Some (PathError "stat" name ErrInvalid).

(** A [FileInfo] that stands for the entry. *)
Definition info_of (name : string) (e : entry) (i : fileInfo ST R) : Prop :=
  exists rec, i = MkFileInfo (InfoFile (record_fd name (Some (StoreRecord rec)))) name /\
    is_record name e rec.

Lemma Stat_spec name w t :
  holds (w_store w) t ->
  exists i s, Stat name w = (Ret (i, stat_error t name), set_store s w) /\ holds s t /\
    match stat_error t name, t !! name with
    | None, Some e => exists i', i = Some i' /\ info_of name e i'
    | _, _ => i = None
    end.
Proof.
  intros Ht. unfold Stat, stat_error.
  destruct (getFile_spec name w t Ht) as ([f e] & s & E & Hs & Hr). unfold get_result in Hr.
  run E. destruct (ValidPath name).
  - destruct (t !! name) as [en|].
    + destruct Hr as (rec & Hrec & Hr); injection Hr as -> ->.
      exists (Some (MkFileInfo (InfoFile (record_fd name (Some (StoreRecord rec)))) name)), s.
      split_and!; [by destruct w|done|]. eexists. split; [done|]. by exists rec.
    + injection Hr as -> ->. by exists None, s.
  - injection Hr as -> ->. by exists None, s.
Qed.

(** ** [setFile] *)
Lemma setFile_commit_Some name fd mode mtime b contents w h' t :
  holds (w_store w) t -> ValidPath name = true ->
  fd_mode fd = Some mode -> fd_mtime fd = Some mtime -> gives fd (w_heap w) b h' ->
  (contents = None -> IsRegular mode = false) ->
  exists fd' s, setFile_commit name (Some fd) contents w =
      (Ret (None, Some fd'), set_store s (set_heap h' w)) /\
    holds s (<[name := MkEntry b mode mtime]> t) /\ fd_keeps fd fd' /\ loaded fd' b.
Proof.
  intros Ht Hv Hm Hmt Hg Hreg. unfold setFile_commit, Transaction_.
  destruct (law_begin TransactionReadWrite w t Ht) as (tx & s & E & Ho). run E.
  assert (Hfd1 : exists fd1, fd_same fd fd1 /\
    forall tx0, setFileTxn name (Some fd) contents (tx0, set_store s w) =
      bind (txn_Set name (Some fd1) contents) (fun '(_, src) => ret (None, src))
        (tx0, set_store s w)).
  { unfold setFileTxn. rewrite Hv. cbn [negb]. destruct contents as [c|].
    - exists fd. split; [done|]. intros tx0. by rewrite bind_ret_l.
    - destruct (fd_Mode_run fd mode (set_store s w) Hm) as (fd1 & E1 & H1).
      exists fd1. split; [done|]. intros tx0.
      rewrite bind_assoc. run (in_world_run tx0 _ _ _ _ (on_var_run _ _ _ _ _ _ E1)).
      rewrite bind_ret_l. by rewrite Hreg. }
  destruct Hfd1 as (fd1 & H1 & E1).
  destruct (law_set name fd1 mode mtime b contents tx (set_store s w) h' t [] Ho)
    as (op & tx' & s' & r & fd' & E' & Ho' & Hk & Hl);
    [auto with go_wf|done|by rewrite (fd_same_mode fd fd1)
    |by rewrite (same_mtime fd fd1)|by apply (gives_same fd)|].
  destruct (law_commit tx' (set_store s' (set_heap h' (set_store s w))) _ _ Ho')
    as (tx2 & s2 & E2 & H2); [apply few_one|].
  exists fd', s2. split_and!; [|done| |done].
  - apply (with_txn_run tx tx2).
    assert (E3 : setFileTxn name (Some fd) contents (tx, set_store s w) =
              (Ret (None, Some fd'), (tx', set_store s' (set_heap h' (set_store s w)))))
      by (rewrite E1; by run E').
    run E3. by run E2.
  - transitivity fd1; [by apply fd_same_keeps|done].
Qed.

(** Saving a record stores the entry that its methods describe. *)
Lemma setFile_Some name fd mode mtime b w h' t :
  holds (w_store w) t -> ValidPath name = true ->
  fd_mode fd = Some mode -> fd_mtime fd = Some mtime -> gives fd (w_heap w) b h' ->
  exists fd' s, setFile name (Some fd) w = (Ret (None, Some fd'), set_store s (set_heap h' w)) /\
    holds s (<[name := MkEntry b mode mtime]> t) /\ fd_keeps fd fd' /\ loaded fd' b.
Proof.
  intros Ht Hv Hm Hmt Hg. unfold setFile.
  destruct (fd_Mode_run fd mode w Hm) as (fd0 & E & H0).
  run (on_var_run _ _ _ _ _ _ E).
  assert (Hm0 : fd_mode fd0 = Some mode) by by rewrite (fd_same_mode fd fd0).
  assert (Hmt0 : fd_mtime fd0 = Some mtime) by by rewrite (same_mtime fd fd0).
  destruct (IsRegular mode) eqn:Hreg.
  - destruct (Hg fd0 w) as (fd1 & E1 & Hk & Hl); [done..|].
    run (on_var_run _ _ _ _ _ _ E1).
    destruct (setFile_commit_Some name fd1 mode mtime b (Some b) (set_heap h' w) h' t)
      as (fd' & s & E2 & Hs & Hk' & Hl');
      [done|done|by rewrite (keeps_mode fd fd1)|by rewrite (keeps_mtime fd fd1)
      |by apply gives_loaded|done|].
    exists fd', s. split_and!; [done|done| |done]. by transitivity fd1.
  - destruct (setFile_commit_Some name fd0 mode mtime b None w h' t)
      as (fd' & s & E2 & Hs & Hk' & Hl'); [done..|by apply (gives_same fd)|done|].
    exists fd', s. split_and!; [done|done| |done].
    transitivity fd0; [by apply fd_same_keeps|done].
Qed.

Lemma setFile_None name w t :
  holds (w_store w) t -> ValidPath name = true ->
  exists s, setFile name None w = (Ret (None, None), set_store s w) /\
    holds s (delete name t).
Proof.
  intros Ht Hv. unfold setFile, setFile_commit, Transaction_.
  destruct (law_begin TransactionReadWrite w t Ht) as (tx & s & E & Ho). run E.
  destruct (law_delete name None tx (set_store s w) t [] Ho) as (op & tx' & s' & r & E' & Ho');
    [auto with go_wf|].
  destruct (law_commit tx' (set_store s' (set_store s w)) _ _ Ho')
    as (tx2 & s2 & E2 & H2); [apply few_one|].
  exists s2. split; [|done]. apply (with_txn_run tx tx2).
  assert (E1 : setFileTxn name None None (tx, set_store s w) =
                 (Ret (None, None), (tx', set_store s' (set_store s w)))).
  { unfold setFileTxn. rewrite Hv. cbn [negb]. rewrite bind_ret_l. by run E'. }
  run E1. run E2. done.
Qed.

(** [setFileTxn] turns a bad path down, and [setFile] leaves its transaction open. *)
Lemma setFileTxn_invalid name src contents s :
  ValidPath name = false -> setFileTxn name src contents s = (Ret (Some ErrInvalid, src), s).
Proof. intros Hv. unfold setFileTxn. by rewrite Hv. Qed.

(** ** New files *)
Definition new_fd (name : string) (mtime mode : Z) : FD :=
  MkFileData (run_once (Some (BaseRecord (NewBaseFileRecord 0 mtime mode
    (Some (l <- in_heap (NewBytes nil_slice) ;; ret (Some (BBytes l), None))) None))))
    None 0 name.

Lemma newFile_run name flag mode w :
  newFile name flag mode w = (Ret (MkFile (Some (new_fd name (w_now w) mode)) 0 flag), w).
Proof. done. Qed.

Definition empty_blob (h : heap) (l : nat) : Prop :=
  exists m, blobs h !! l = Some (MkBytes nil_slice 0 m) /\ mutexes h !! m = Some false.

Lemma wf_nil_slice h : wf_slice h nil_slice.
Proof. split; simpl; lia. Qed.

Lemma new_fd_gives name (mtime mode : Z) h :
  wf_heap h ->
  exists h', gives (new_fd name mtime mode) h (BBytes (next h)) h' /\
    wf_heap h' /\ ext h h' /\ empty_blob h' (next h).
Proof.
  intros Hwf.
  destruct (NewBytes_spec h nil_slice Hwf (wf_nil_slice h))
    as (l & h' & E & Hwf' & He & Hl & Hm & -> & _).
  exists h'. split_and!; [|done..|by eexists].
  eapply gives_record; [done..|]. intros w <-.
  cbn -[bind in_heap NewBytes]. rewrite (bind_Ret _ _ _ (next (w_heap w)) (set_heap h' w)); [done|].
  unfold in_heap, zoom. by rewrite E.
Qed.

Lemma save_new name flag mode w t :
  holds (w_store w) t -> ValidPath name = true -> wf_heap (w_heap w) ->
  let f := MkFile (Some (new_fd name (w_now w) mode)) 0 flag in
  let e := MkEntry (BBytes (next (w_heap w))) mode (w_now w) in
  exists fd' s h', on_var f f_save w =
      (Ret (None, MkFile (Some fd') 0 flag), set_store s (set_heap h' w)) /\
    holds s (<[name := e]> t) /\ wf_heap h' /\ ext (w_heap w) h' /\
    empty_blob h' (next (w_heap w)) /\ file_of name e fd' /\ loaded fd' (e_data e) /\
    (exists base, record (fd_ro fd') = Some (BaseRecord base)).
Proof.
  intros Ht Hv Hwf f e.
  destruct (new_fd_gives name (w_now w) mode (w_heap w) Hwf) as (h' & Hg & Hwf' & He & Hb).
  destruct (setFile_Some name (new_fd name (w_now w) mode) mode (w_now w) _ w h' t Ht Hv
              eq_refl eq_refl Hg) as (fd' & s & E & Hs & Hk & Hl).
  exists fd', s, h'. split_and!; [|done..| |done|].
  - unfold on_var, f_save, on_data, save, f. cbn -[setFile new_fd].
    change (path (new_fd name (w_now w) mode)) with name. rewrite E. done.
  - destruct Hk as [K1 _ K3 K4]. split; [by rewrite K1|by rewrite K3|by rewrite K4|].
    intros h. by apply gives_loaded.
  - destruct Hk as [_ K2 _ _]. rewrite K2. by eexists.
Qed.
End spec.
