(* ===== verification/TreeFS.v ===== *)
(** * The abstract file system

    A file system is a map from paths to nodes; the operations of the
    key-value file system are specified as functions on it.  [fs_at] relates a
    world (store and heap) to such a map. *)
From S2P Require Import Prelude.
From S2P Require Import Paths.
From S2P Require Import Errors.
From S2P Require Import Modes.
From S2P Require Import Blob.
From S2P Require Import BlobSpec.
From S2P Require Import Record.
From S2P Require Import Txn.
From S2P Require Import KVFile.
From S2P Require Import StoreSpec.
From S2P Require Import FSSpec.

Local Open Scope string_scope.

Record node := MkNode { n_mode : Z; n_modTime : Z; n_data : list byte }.
Abbreviation nodes := (gmap string node).

#[export] Instance node_eq_dec : EqDecision node.
Proof. solve_decision. Defined.

(** ** What each operation does to the nodes

    [me] is the store's error for a missing path, [t] the current time. *)
Section spec.
Context (me : string -> error) (t : Z).

Definition spec_stat (v : nodes) (name : string) : node + error :=
  if ValidPath name then
    match v !! name with
    | Some n => inl n
    | None => inr (PathError "stat" name (me name))
    end
  else inr (PathError "stat" name ErrInvalid).

(** Look a path up for the operation [op]. *)
Definition spec_get (op : string) (v : nodes) (name : string) : node + error :=
  if ValidPath name then
    match v !! name with
    | Some n => inl n
    | None => inr (PathError op name (me name))
    end
  else inr (PathError op name ErrInvalid).

Definition dir_node (perm : Z) : node := MkNode (Z.lor ModeDir (Z.land perm ModePerm)) t [].

Definition spec_Mkdir (name : string) (perm : Z) (v : nodes) : err * nodes :=
  match spec_stat v name with
  | inl _ => (Some (PathError "mkdir" name ErrExist), v)
  | inr e =>
      if negb (ValidPath name) then (Some e, v)
      else if String.eqb name "." then (None, <[name := dir_node perm]> v)
      else match spec_stat v (Dir name) with
           | inr e => (Some (PathError "mkdir" name e), v)
           | inl _ => (None, <[name := dir_node perm]> v)
           end
  end.

(** The path and its parents, up to the root. *)
Definition ancestors (name : string) : list string :=
  (fun k => of_elems (take k (elems name))) <$> rev (seq 0 (S (length (elems name)))).

Fixpoint spec_missing (v : nodes) (names : list string) : list string + error :=
  match names with
  | [] => inl []
  | p :: names =>
      match v !! p with
      | Some n => if IsDir (n_mode n) then inl [] else inr (PathError "mkdir" p ErrNotDir)
      | None =>
          match spec_missing v names with
          | inl ps => inl (p :: ps)
          | inr e => inr e
          end
      end
  end.

Definition insert_dirs (perm : Z) (names : list string) (v : nodes) : nodes :=
  foldr (fun p v => <[p := dir_node perm]> v) v names.

Definition spec_MkdirAll (name : string) (perm : Z) (v : nodes) : err * nodes :=
  if ValidPath name then
    match spec_missing v (ancestors name) with
    | inl ps => (None, insert_dirs perm ps v)
    | inr e => (Some e, v)
    end
  else (Some ErrInvalid, v).

Definition spec_Remove (name : string) (v : nodes) : err * nodes :=
  match spec_get "remove" v name with
  | inr e => (Some e, v)
  | inl n =>
      if IsDir (n_mode n) && negb (bool_decide (children v name = []))
      then (Some (PathError "remove" name ErrNotEmpty), v)
      else (None, delete name v)
  end.

Definition spec_Chmod (name : string) (mode : Z) (v : nodes) : err * nodes :=
  match spec_get "chmod" v name with
  | inr e => (Some e, v)
  | inl n => (None, <[name := MkNode (chmod_mode (n_mode n) mode) (n_modTime n) (n_data n)]> v)
  end.

(** A zero time leaves the modification time as it is. *)
Definition spec_Chtimes (name : string) (mtime : Z) (v : nodes) : err * nodes :=
  match spec_get "chtimes" v name with
  | inr e => (Some e, v)
  | inl n =>
      (None, <[name := MkNode (n_mode n) (if (mtime =? 0)%Z then n_modTime n else mtime)
                         (n_data n)]> v)
  end.

(** Truncating to nothing when a file is opened. *)
Definition spec_truncate0 (name : string) (n : node) (v : nodes) : err * nodes :=
  if IsDir (n_mode n) then (Some (PathError "truncate" name ErrIsDir), v)
  else match n_data n with
       | [] => (None, v)
       | _ => (None, <[name := MkNode (n_mode n) t []]> v)
       end.

Definition spec_finish_open (name : string) (flag : Z) (n : node) (v : nodes) : err * nodes :=
  if has_flag flag FlagTruncate then
    let '(e, v) := spec_truncate0 name n v in (PathError "open" name <$> e, v)
  else (None, v).

Definition spec_OpenFile (name : string) (flag perm : Z) (v : nodes) : err * nodes :=
  match spec_get "open" v name with
  | inl n =>
      if IsDir (n_mode n) && has_flag flag (Z.lor FlagCreate FlagWriteOnly)
      then (Some (PathError "open" name ErrIsDir), v)
      else spec_finish_open name flag n v
  | inr e =>
      if ValidPath name && has_flag flag FlagCreate then
        match v !! Dir name with
        | None => (Some (PathError "open" name (me (Dir name))), v)
        | Some _ => (None, <[name := MkNode (Z.land perm ModePerm) t []]> v)
        end
      else (Some e, v)
  end.

(** Renaming something that is not a directory. *)
Definition spec_rename_file (oldname newname : string) (n : node) (v : nodes) : err * nodes :=
  if String.eqb oldname newname then (None, v)
  else if ValidPath newname then (None, delete oldname (<[newname := n]> v))
  else (Some ErrInvalid, v).
End spec.

(** ** Worlds and nodes *)
Definition blob_bytes (h : heap) (b : Blob) : list byte :=
  match b with BBytes l => default [] (contents h l) | BPlain d => d end.
Definition to_node (h : heap) (e : entry) : node :=
  MkNode (e_mode e) (e_modTime e) (blob_bytes h (e_data e)).
Definition view (h : heap) (t : tree) : nodes := to_node h <$> t.

(** The blobs of a tree are [Bytes]: the fallbacks of [blob.go] change a copy
    of any other blob. *)
Definition live (h : heap) (b : Blob) : Prop :=
  match b with BBytes l => is_Some (blobs h !! l) | BPlain _ => False end.

(** Two blobs that share no memory. *)
Definition apart (h : heap) (b1 b2 : Blob) : Prop :=
  match b1, b2 with
  | BBytes l1, BBytes l2 =>
      l1 <> l2 /\
      forall x1 x2, blobs h !! l1 = Some x1 -> blobs h !! l2 = Some x2 ->
        s_arr (bytes x1) <> s_arr (bytes x2) \/ s_cap (bytes x1) = 0 \/ s_cap (bytes x2) = 0
  | _, _ => True
  end.

Lemma live_ext h h' b : wf_heap h -> ext h h' -> live h b -> live h' b.
Proof.
  intros Hwf He. destruct b as [l|]; [|done]. intros Hl.
  destruct (ext_contents h h' l Hwf He Hl) as [E _]. simpl. by rewrite E.
Qed.
Lemma blob_bytes_ext h h' b : wf_heap h -> ext h h' -> live h b -> blob_bytes h' b = blob_bytes h b.
Proof.
  intros Hwf He. destruct b as [l|]; [|done]. intros Hl.
  destruct (ext_contents h h' l Hwf He Hl) as [_ E]. simpl. by rewrite E.
Qed.
Lemma apart_ext h h' b1 b2 :
  wf_heap h -> ext h h' -> live h b1 -> live h b2 -> apart h b1 b2 -> apart h' b1 b2.
Proof.
  intros Hwf He. destruct b1 as [l1|], b2 as [l2|]; try done. intros H1 H2 [Hne Ha].
  destruct (ext_contents h h' l1 Hwf He H1) as [E1 _].
  destruct (ext_contents h h' l2 Hwf He H2) as [E2 _].
  split; [done|]. intros x1 x2. rewrite E1, E2. apply Ha.
Qed.
Lemma apart_sym h b1 b2 : apart h b1 b2 -> apart h b2 b1.
Proof.
  destruct b1, b2; try done. intros [Hne Ha]. split; [done|]. intros x1 x2 H1 H2.
  destruct (Ha x2 x1 H2 H1) as [?|[?|?]]; auto.
Qed.
Lemma apart_fresh h h' b l :
  wf_heap h -> live h b -> ext h h' -> empty_blob h' (next h) -> l = next h ->
  apart h' b (BBytes l).
Proof.
  intros Hwf Hb He (m & Hm & _) ->. destruct b as [l|]; [|done]. simpl in Hb. split.
  - intros ->. destruct Hb as [x Hx]. pose proof (blob_lt h _ x Hwf Hx). lia.
  - intros x1 x2 _. rewrite Hm. intros [= <-]. auto.
Qed.
Lemma empty_blob_live h l : empty_blob h l -> live h (BBytes l) /\ blob_bytes h (BBytes l) = [].
Proof.
  intros (m & Hm & _). simpl. unfold contents. rewrite Hm. split; [by eexists|done].
Qed.

Section fs_at.
Context {ST R T : Type} `{!RecordOps ST R, !Store ST R T, !LawfulStore ST R T}.
Notation W := (world ST).
Implicit Types (w : W) (t : tree) (v : nodes).

(** The store holds the tree; its blobs are there and share no memory. *)
Record fs_at w t : Prop := {
  at_holds : holds (w_store w) t;
  at_wf : wf_heap (w_heap w);
  at_idle : idle (w_heap w);
  at_live name e : t !! name = Some e -> live (w_heap w) (e_data e);
  at_apart n1 n2 e1 e2 :
    n1 <> n2 -> t !! n1 = Some e1 -> t !! n2 = Some e2 ->
    apart (w_heap w) (e_data e1) (e_data e2)
}.

Definition fs_state w v : Prop := exists t, fs_at w t /\ v = view (w_heap w) t.

Lemma view_lookup h t name : view h t !! name = to_node h <$> t !! name.
Proof. apply lookup_fmap. Qed.
Lemma children_view h t dir : children (view h t) dir ≡ₚ children t dir.
Proof. apply children_keys. intros k. rewrite view_lookup. by rewrite fmap_is_Some. Qed.

(** The heap grew by blobs of others. *)
Lemma fs_at_ext w t s h' :
  fs_at w t -> wf_heap h' -> ext (w_heap w) h' -> holds s t ->
  fs_at (set_store s (set_heap h' w)) t /\ view h' t = view (w_heap w) t.
Proof.
  intros [Hh Hwf Hi Hl Ha] Hwf' He Hs. split.
  - split; simpl; [done|done|by apply (ext_idle (w_heap w))|..].
    + intros name e E. by apply (live_ext (w_heap w)); [..|apply (Hl name)].
    + intros n1 n2 e1 e2 Hn E1 E2.
      apply (apart_ext (w_heap w)); [done|done| | |by apply (Ha n1 n2)];
        [by apply (Hl n1)|by apply (Hl n2)].
  - apply map_eq. intros k. rewrite !view_lookup. destruct (t !! k) as [e|] eqn:E; [|done].
    simpl. unfold to_node. by rewrite (blob_bytes_ext (w_heap w)) by (done || by apply (Hl k)).
Qed.
Lemma fs_at_store w t s : fs_at w t -> holds s t -> fs_at (set_store s w) t.
Proof. intros [] Hs. by split. Qed.

(** A new entry with a fresh empty blob. *)
Lemma fs_at_new w t s h' name mode mtime :
  let e := MkEntry (BBytes (next (w_heap w))) mode mtime in
  fs_at w t -> wf_heap h' -> ext (w_heap w) h' -> empty_blob h' (next (w_heap w)) ->
  holds s (<[name := e]> t) ->
  fs_at (set_store s (set_heap h' w)) (<[name := e]> t) /\
  view h' (<[name := e]> t) = <[name := MkNode mode mtime []]> (view (w_heap w) t).
Proof.
  intros e Hat Hwf' He Hb Hs. pose proof Hat as [Hh Hwf Hi Hl Ha].
  destruct (empty_blob_live _ _ Hb) as [Hlive Hbytes]. split.
  - split; simpl; [done|done|by apply (ext_idle (w_heap w))|..].
    + intros n e' [[<- <-]|[_ E]]%lookup_insert_Some; [done|].
      apply (live_ext (w_heap w)); [done|done|by apply (Hl n)].
    + intros n1 n2 e1 e2 Hn [[<- <-]|[Hn1 E1]]%lookup_insert_Some
        [[<- <-]|[Hn2 E2]]%lookup_insert_Some; [done|..].
      * apply apart_sym, (apart_fresh (w_heap w)); [done| |done..]. by apply (Hl n2).
      * apply (apart_fresh (w_heap w)); [done| |done..]. by apply (Hl n1).
      * apply (apart_ext (w_heap w)); [done|done| | |by apply (Ha n1 n2)];
          [by apply (Hl n1)|by apply (Hl n2)].
  - unfold view at 1. rewrite fmap_insert. f_equal.
    + unfold to_node. simpl in *. by rewrite Hbytes.
    + apply map_eq. intros k. rewrite lookup_fmap, view_lookup.
      destruct (t !! k) as [e'|] eqn:E; [|done]. simpl. unfold to_node.
      by rewrite (blob_bytes_ext (w_heap w)) by (done || by apply (Hl k)).
Qed.

Lemma fs_at_delete w t s name :
  fs_at w t -> holds s (delete name t) -> fs_at (set_store s w) (delete name t).
Proof.
  intros [Hh Hwf Hi Hl Ha] Hs. split; simpl; [done..| |].
  - intros n e [_ E]%lookup_delete_Some. by apply (Hl n).
  - intros n1 n2 e1 e2 Hn [_ E1]%lookup_delete_Some [_ E2]%lookup_delete_Some.
    by apply (Ha n1 n2).
Qed.
Lemma view_delete h t name : view h (delete name t) = delete name (view h t).
Proof. apply fmap_delete. Qed.

(** Other metadata for the same data. *)
Lemma fs_at_meta w t s name e mode mtime :
  fs_at w t -> t !! name = Some e ->
  holds s (<[name := MkEntry (e_data e) mode mtime]> t) ->
  fs_at (set_store s w) (<[name := MkEntry (e_data e) mode mtime]> t) /\
  view (w_heap w) (<[name := MkEntry (e_data e) mode mtime]> t) =
    <[name := MkNode mode mtime (blob_bytes (w_heap w) (e_data e))]> (view (w_heap w) t).
Proof.
  intros [Hh Hwf Hi Hl Ha] E Hs. split; [|unfold view; by rewrite fmap_insert].
  split; simpl; [done..| |].
  - intros n e' [[<- <-]|[_ E']]%lookup_insert_Some; [by apply (Hl name e)|by apply (Hl n)].
  - intros n1 n2 e1 e2 Hn [[<- <-]|[Hn1 E1]]%lookup_insert_Some
      [[<- <-]|[Hn2 E2]]%lookup_insert_Some; [done|..]; simpl.
    + by apply (Ha name n2 e e2).
    + by apply (Ha n1 name e1 e).
    + by apply (Ha n1 n2).
Qed.
End fs_at.
