(* ===== verification/TreeOps.v ===== *)
(** * The key-value file system refines the abstract file system

    Over every lawful store, each operation of [KVFS] returns what its
    specification in [TreeFS] says and leaves the world with the nodes the
    specification computes. *)
From S2P Require Import Prelude.
From S2P Require Import Paths.
From S2P Require Import Errors.
From S2P Require Import Modes.
From S2P Require Import Blob.
From S2P Require Import BlobSpec.
From S2P Require Import Record.
From S2P Require Import Txn.
From S2P Require Import KVFile.
From S2P Require Import KVFS.
From S2P Require Import StoreSpec.
From S2P Require Import FSSpec.
From S2P Require Import TreeFS.

Local Open Scope string_scope.

Section ops.
Context {ST R T : Type} `{!RecordOps ST R, !Store ST R T, !GoRuntime, !LawfulStore ST R T}.
Notation W := (world ST).
Implicit Types (w : W) (t : tree) (v : nodes).

(** From a world with nodes [v], the call returns the specified result and
    leaves the specified nodes. *)
Definition refines {A} (m : M W A) (spec : Z -> nodes -> A * nodes) : Prop :=
  forall w v, fs_state w v ->
    exists w', m w = (Ret (spec (w_now w) v).1, w') /\
      fs_state w' (spec (w_now w) v).2 /\ w_now w' = w_now w.

Lemma view_Some w t name e : t !! name = Some e -> view (w_heap w) t !! name = Some (to_node (w_heap w) e).
Proof. intros E. by rewrite view_lookup, E. Qed.
Lemma view_None w t name : t !! name = None -> view (w_heap w) t !! name = None.
Proof. intros E. by rewrite view_lookup, E. Qed.

(** Looking a path up leaves the nodes alone. *)
Lemma getFile_at op name w t :
  fs_at w t ->
  exists r s, getFile name w = (Ret r, set_store s w) /\ fs_at (set_store s w) t /\
    match spec_get missing_err op (view (w_heap w) t) name with
    | inl n => exists e rec, t !! name = Some e /\ n = to_node (w_heap w) e /\
                 ValidPath name = true /\ is_record name e rec /\
                 r = (Some (load_file name (Some (StoreRecord rec))), None)
    | inr e => exists f e', r = (f, Some e') /\ e = PathError op name e'
    end.
Proof.
  intros Hat. destruct (getFile_spec name w t (at_holds w t Hat)) as (r & s & E & Hs & Hr).
  exists r, s. split_and!; [done|by apply fs_at_store|].
  unfold get_result in Hr. unfold spec_get. destruct (ValidPath name).
  - rewrite view_lookup. destruct (t !! name) as [e|]; simpl.
    + destruct Hr as (rec & Hr & ->). by exists e, rec.
    + subst r. by eexists _, _.
  - subst r. by eexists _, _.
Qed.

Lemma Stat_at name w t :
  fs_at w t ->
  exists i s, fs_at (set_store s w) t /\
    match spec_stat missing_err (view (w_heap w) t) name with
    | inl n => exists e i', Stat name w = (Ret (i, None), set_store s w) /\
                 t !! name = Some e /\ n = to_node (w_heap w) e /\
                 i = Some i' /\ info_of name e i'
    | inr e => Stat name w = (Ret (i, Some e), set_store s w) /\ i = None
    end.
Proof.
  intros Hat. destruct (Stat_spec name w t (at_holds w t Hat)) as (i & s & E & Hs & Hi).
  exists i, s. split; [by apply fs_at_store|].
  unfold stat_error in *. unfold spec_stat. destruct (ValidPath name); [|done].
  rewrite view_lookup. destruct (t !! name) as [e|]; simpl; [|done].
  destruct Hi as (i' & -> & Hi). by exists e, i'.
Qed.

Lemma fs_state_now w v s h' : w_now (set_store s (set_heap h' w)) = w_now w.
Proof. done. Qed.

(** Saving a new file. *)
Lemma save_new_at name flag mode w t :
  fs_at w t -> ValidPath name = true ->
  let f := MkFile (Some (new_fd name (w_now w) mode)) 0 flag in
  let e := MkEntry (BBytes (next (w_heap w))) mode (w_now w) in
  exists fd' s h', on_var f f_save w =
      (Ret (None, MkFile (Some fd') 0 flag), set_store s (set_heap h' w)) /\
    fs_at (set_store s (set_heap h' w)) (<[name := e]> t) /\
    view h' (<[name := e]> t) = <[name := MkNode mode (w_now w) []]> (view (w_heap w) t) /\
    file_of name e fd' /\ loaded fd' (e_data e) /\
    (exists base, record (fd_ro fd') = Some (BaseRecord base)).
Proof.
  intros Hat Hv f e.
  destruct (save_new name flag mode w t (at_holds w t Hat) Hv (at_wf w t Hat))
    as (fd' & s & h' & E & Hs & Hwf' & He & Hb & Hf).
  destruct (fs_at_new w t s h' name mode (w_now w) Hat Hwf' He Hb Hs) as [Hat' Hview].
  by exists fd', s, h'.
Qed.

Lemma newDir_run name perm w :
  newDir (R:=R) name perm w =
    (Ret (MkFile (Some (new_fd name (w_now w) (Z.lor ModeDir (Z.land perm ModePerm)))) 0 0), w).
Proof. done. Qed.

Lemma save_newDir name perm w t :
  fs_at w t -> ValidPath name = true ->
  let f := MkFile (Some (new_fd name (w_now w) (Z.lor ModeDir (Z.land perm ModePerm)))) 0 0 in
  exists w' t', save_file f w = (Ret None, w') /\ fs_at w' t' /\ w_now w' = w_now w /\
    view (w_heap w') t' = <[name := dir_node (w_now w) perm]> (view (w_heap w) t).
Proof.
  intros Hat Hv f.
  destruct (save_new_at name 0 (Z.lor ModeDir (Z.land perm ModePerm)) w t Hat Hv)
    as (fd' & s & h' & E & Hat' & Hview & _).
  eexists _, _. split_and!; [|exact Hat'|done|exact Hview].
  unfold save_file. run E. done.
Qed.

Lemma spec_get_view op v name :
  spec_get missing_err op v name =
  match spec_stat missing_err v name with
  | inl n => inl n
  | inr e => inr (PathError op name (match e with PathError _ _ e => e | e => e end))
  end.
Proof.
  unfold spec_get, spec_stat. destruct (ValidPath name); [|done]. by destruct (v !! name).
Qed.

(** ** [Mkdir] *)
Lemma Mkdir_refines name perm :
  refines (Mkdir name perm) (fun now => spec_Mkdir missing_err now name perm).
Proof.
  intros w v (t & Hat & ->). unfold Mkdir. run (newDir_run name perm w).
  destruct (Stat_at name w t Hat) as (i & s & Hat1 & Hst). unfold spec_Mkdir.
  destruct (spec_stat missing_err (view (w_heap w) t) name) as [n|e] eqn:Es.
  { destruct Hst as (e & i' & E & _). run E.
    eexists. split_and!; [done| |done]. by exists t. }
  destruct Hst as [E _]. run E. unfold spec_stat in Es.
  destruct (ValidPath name) eqn:Hv.
  2: { injection Es as <-. eexists. split_and!; [done| |done]. by exists t. }
  rewrite view_lookup in Es. destruct (t !! name) as [e'|]; [done|]. injection Es as <-.
  rewrite (error_Is_Unwrap _ (missing_err name)) by (done || apply law_missing).
  cbn [negb]. destruct (String.eqb_spec name ".") as [->|Hdot].
  - rewrite bind_ret_l. set (w1 := set_store s w) in *.
    destruct (save_newDir "." perm w1 t Hat1 Hv) as (w' & t' & E' & Hat' & Hn & Hview).
    run E'. exists w'. split_and!; [done| |done]. by exists t'.
  - rewrite bind_assoc. set (w1 := set_store s w) in *.
    destruct (Stat_at (Dir name) w1 t Hat1) as (i2 & s2 & Hat2 & Hst2).
    change (w_heap w1) with (w_heap w) in Hst2.
    destruct (spec_stat missing_err (view (w_heap w) t) (Dir name)) as [n|e] eqn:Es2.
    + destruct Hst2 as (e & i' & E2 & _). run E2. rewrite bind_ret_l.
      destruct (save_newDir name perm (set_store s2 w1) t Hat2 Hv)
        as (w' & t' & E' & Hat' & Hn & Hview).
      run E'. exists w'. split_and!; [done| |done]. by exists t'.
    + destruct Hst2 as [E2 _]. run E2. rewrite bind_ret_l.
      eexists. split_and!; [done| |done]. by exists t.
Qed.

(** ** Files just read from the store *)
Lemma on_data_run {A} (m : M (fileData ST R * W) A) fd fd' w w' r off fl :
  m (fd, w) = (r, (fd', w')) ->
  on_data m (MkFile (Some fd) off fl, w) = (r, (MkFile (Some fd') off fl, w')).
Proof. intros E. unfold on_data. cbn [fileData_ offset flag]. by rewrite E. Qed.

Lemma on_data_modify {B} (g : fileData ST R -> fileData ST R) (k : unit -> M (file ST R * W) B)
    fd off fl w :
  bind (on_data (modify (fun s => (g s.1, s.2)))) k (MkFile (Some fd) off fl, w) =
  k tt (MkFile (Some (g fd)) off fl, w).
Proof. done. Qed.

Lemma loaded_Mode name e rec w :
  is_record name e rec ->
  exists fd, f_Mode (load_file name (Some (StoreRecord rec)), w) =
      (Ret (e_mode e), (MkFile (Some fd) 0 0, w)) /\
    file_of name e fd /\ record (fd_ro fd) = Some (StoreRecord rec) /\
    ro_dirNames (fd_ro fd) = None /\ ro_data (fd_ro fd) = None.
Proof.
  intros Hr. pose proof (file_of_record name e rec Hr) as Hf.
  destruct (fd_Mode_run (record_fd name (Some (StoreRecord rec))) (e_mode e) w) as (fd & E & Hs).
  { apply Hf. }
  exists fd. split_and!.
  - by apply on_data_run.
  - by apply (file_of_same name e (record_fd name (Some (StoreRecord rec)))).
  - apply (same_record _ _ Hs).
  - apply (same_names _ _ Hs).
  - apply (same_data _ _ Hs).
Qed.

Lemma loaded_ReadDirNames name e rec fd w t off fl :
  is_record name e rec -> ValidPath name = true -> holds (w_store w) t ->
  record (fd_ro fd) = Some (StoreRecord rec) -> ro_dirNames (fd_ro fd) = None ->
  exists names fd', on_var (MkFile (Some fd) off fl) f_ReadDirNames w =
      (Ret (if IsDir (e_mode e) then (names, None) else ([], Some ErrNotDir),
            MkFile (Some fd') off fl), w) /\
    names ≡ₚ children t name /\ (file_of name e fd -> ro_data (fd_ro fd) = None -> file_of name e fd').
Proof.
  intros Hrec Hv Hat Hfr Hfn.
  destruct (law_names name e rec w t Hrec Hv Hat) as (names & Hn & E).
  set (r := if IsDir (e_mode e) then (names, None) else ([], Some ErrNotDir)) in *.
  exists names, (set_ro (store_dirNames r (fd_ro fd)) fd). split_and!; [|done|].
  - apply on_var_run, on_data_run. apply on_ro_run.
    unfold ro_ReadDirNames, with_ro, once, on_record. cbn [fst].
    rewrite Hfn, Hfr. simpl. by rewrite E.
  - intros [Hp Hm Ht _] Hd. split; [done..|]. intros h.
    apply (gives_record _ (StoreRecord rec)); [done..|].
    intros w' <-. rewrite set_heap_id. by apply (law_data name).
Qed.

(** ** [Remove] *)
Lemma delete_at name w t :
  fs_at w t -> ValidPath name = true ->
  exists s, bind (setFile name None) (fun '(e, _) => ret e) w = (Ret None, set_store s w) /\
    fs_at (set_store s w) (delete name t).
Proof.
  intros Hat Hv. destruct (setFile_None name w t (at_holds w t Hat) Hv) as (s & E & Hs).
  exists s. split; [by run E|by apply fs_at_delete].
Qed.

Lemma Remove_refines name :
  refines (Remove name) (fun _ => spec_Remove missing_err name).
Proof.
  intros w v (t & Hat & ->). unfold Remove, spec_Remove.
  destruct (getFile_at "remove" name w t Hat) as (r & s & E & Hat1 & Hr).
  destruct (spec_get missing_err "remove" (view (w_heap w) t) name) as [n|e].
  2: { destruct Hr as (f & e' & -> & ->). run E.
       eexists. split_and!; [done| |done]. by exists t. }
  destruct Hr as (e & rec & Et & -> & Hv & Hrec & ->). run E.
  set (w1 := set_store s w) in *.
  destruct (loaded_Mode name e rec w1 Hrec) as (fd & E1 & Hf & Hfr & Hfn & _). run (on_var_run _ _ _ _ _ _ E1).
  pose proof (at_holds w1 t Hat1) as Hs1.
  destruct (delete_at name w1 t Hat1 Hv) as (s2 & E2 & Hat2). cbn [n_mode to_node].
  destruct (IsDir (e_mode e)) eqn:Hd.
  - destruct (loaded_ReadDirNames name e rec fd w1 t 0 0 Hrec Hv Hs1 Hfr Hfn)
      as (names & fd' & E3 & Hn & _). rewrite Hd in E3. run E3.
    assert (Hc : names ≡ₚ children (view (w_heap w) t) name) by by rewrite children_view.
    destruct names as [|x names].
    + rewrite bool_decide_eq_true_2 by by apply Permutation_nil_r.
      eexists. split_and!; [exact E2| |done]. exists (delete name t).
      split; [done|by rewrite view_delete].
    + rewrite bool_decide_eq_false_2; [|intros Hnil; rewrite Hnil in Hc;
        by apply Permutation_nil_r in Hc].
      eexists. split_and!; [done| |done]. by exists t.
  - eexists. split_and!; [exact E2| |done]. exists (delete name t).
    split; [done|by rewrite view_delete].
Qed.

(** ** [Chmod] and [Chtimes] *)

(** Saving a file that stands for an entry of the tree. *)
Lemma save_meta_at name e fd w t mode mtime off fl :
  fs_at w t -> ValidPath name = true -> t !! name = Some e ->
  path fd = name -> fd_mode fd = Some mode -> fd_mtime fd = Some mtime ->
  (forall h, gives fd h (e_data e) h) ->
  exists fd' w', f_save (MkFile (Some fd) off fl, w) =
      (Ret None, (MkFile (Some fd') off fl, w')) /\
    fs_at w' (<[name := MkEntry (e_data e) mode mtime]> t) /\ w_now w' = w_now w /\
    view (w_heap w') (<[name := MkEntry (e_data e) mode mtime]> t) =
      <[name := MkNode mode mtime (blob_bytes (w_heap w) (e_data e))]> (view (w_heap w) t).
Proof.
  intros Hat Hv Et Hp Hm Hmt Hg.
  destruct (setFile_Some name fd mode mtime (e_data e) w (w_heap w) t
              (at_holds w t Hat) Hv Hm Hmt (Hg _)) as (fd' & s & E & Hs & _).
  rewrite set_heap_id in E.
  destruct (fs_at_meta w t s name e mode mtime Hat Et Hs) as [Hat' Hview].
  exists fd', (set_store s w). split_and!; [|done|done|done].
  apply on_data_run. unfold save. by rewrite Hp, E.
Qed.

Lemma Chmod_refines name mode :
  refines (Chmod name mode) (fun _ => spec_Chmod missing_err name mode).
Proof.
  intros w v (t & Hat & ->). unfold Chmod, spec_Chmod.
  destruct (getFile_at "chmod" name w t Hat) as (r & s & E & Hat1 & Hr).
  destruct (spec_get missing_err "chmod" (view (w_heap w) t) name) as [n|e].
  2: { destruct Hr as (f & e' & -> & ->). run E.
       eexists. split_and!; [done| |done]. by exists t. }
  destruct Hr as (e & rec & Et & -> & Hv & Hrec & ->). run E.
  set (w1 := set_store s w) in *.
  destruct (loaded_Mode name e rec w1 Hrec) as (fd & E1 & Hf & Hfr & Hfn & Hfd).
  set (fd1 := set_modeOverride (chmod_mode (e_mode e) mode) fd).
  destruct (save_meta_at name e fd1 w1 t (chmod_mode (e_mode e) mode) (e_modTime e) 0 0)
    as (fd' & w' & E2 & Hat2 & Hn & Hview); [done|done|done|apply Hf|done|apply Hf|..].
  { intros h. apply (gives_record _ (StoreRecord rec)); [done..|].
    intros w' <-. rewrite set_heap_id. by apply (law_data name). }
  exists w'. split_and!; [|by eexists|done].
  rewrite (bind_Ret _ _ _ (None, MkFile (Some fd') 0 0) w'); [done|].
  apply on_var_run. unfold FileChmod. run E1.
  by rewrite on_data_modify.
Qed.

Lemma Chtimes_refines name atime mtime :
  refines (Chtimes name atime mtime) (fun _ => spec_Chtimes missing_err name mtime).
Proof.
  intros w v (t & Hat & ->). unfold Chtimes, spec_Chtimes.
  destruct (getFile_at "chtimes" name w t Hat) as (r & s & E & Hat1 & Hr).
  destruct (spec_get missing_err "chtimes" (view (w_heap w) t) name) as [n|e].
  2: { destruct Hr as (f & e' & -> & ->). run E.
       eexists. split_and!; [done| |done]. by exists t. }
  destruct Hr as (e & rec & Et & -> & Hv & Hrec & ->). run E.
  set (w1 := set_store s w) in *.
  pose proof (file_of_record name e rec Hrec) as Hf.
  set (fd := record_fd name (Some (StoreRecord rec))) in *.
  destruct (save_meta_at name e (set_modTimeOverride mtime fd) w1 t (e_mode e)
              (if (mtime =? 0)%Z then e_modTime e else mtime) 0 0)
    as (fd' & w' & E2 & Hat2 & Hn & Hview); [done|done|done|done|apply Hf|..].
  { pose proof (of_mtime name e fd Hf) as Hmt. unfold fd_mtime in *. simpl in *.
    by destruct (mtime =? 0)%Z. }
  { intros h. apply (gives_record _ (StoreRecord rec)); [done..|].
    intros w' <-. rewrite set_heap_id. by apply (law_data name). }
  exists w'. split_and!; [|by eexists|done].
  rewrite (bind_Ret _ _ _ (tt, MkFile (Some (set_modTimeOverride mtime fd)) 0 0) w1); [|done].
  cbv beta iota. unfold save_file. by run (on_var_run _ _ _ _ _ _ E2).
Qed.

(** ** [Rename] of something that is not a directory *)
Lemma fs_at_rename w t s old new e :
  fs_at w t -> old <> new -> t !! old = Some e ->
  holds s (delete old (<[new := e]> t)) ->
  fs_at (set_store s w) (delete old (<[new := e]> t)) /\
  view (w_heap w) (delete old (<[new := e]> t)) =
    delete old (<[new := to_node (w_heap w) e]> (view (w_heap w) t)).
Proof.
  intros [Hh Hwf Hi Hl Ha] Hne E Hs. split; [|unfold view; by rewrite fmap_delete, fmap_insert].
  split; simpl; [done..| |].
  - intros n e' [_ [[<- <-]|[_ E']]%lookup_insert_Some]%lookup_delete_Some;
      [by apply (Hl old)|by apply (Hl n)].
  - intros n1 n2 e1 e2 Hn [Ho1 [[<- <-]|[Hn1 E1]]%lookup_insert_Some]%lookup_delete_Some
      [Ho2 [[<- <-]|[Hn2 E2]]%lookup_insert_Some]%lookup_delete_Some; [done|..].
    + by apply (Ha old n2).
    + by apply (Ha n1 old).
    + by apply (Ha n1 n2).
Qed.

(** The transaction of a rename: set the new name, delete the old one. *)
Lemma move_record_spec old new fd e contents w t :
  holds (w_store w) t -> ValidPath old = true ->
  fd_mode fd = Some (e_mode e) -> fd_mtime fd = Some (e_modTime e) ->
  (forall h, gives fd h (e_data e) h) -> contents <> None ->
  exists s, holds s (if ValidPath new then delete old (<[new := e]> t) else t) /\
    move_record old new (Some fd) contents w =
      (Ret (if ValidPath new then None else Some ErrInvalid), set_store s w).
Proof.
  intros Ht Hv Hm Hmt Hg Hc. unfold move_record, Transaction_.
  destruct (law_begin TransactionReadWrite w t Ht) as (tx & s & E & Ho).
  destruct (ValidPath new) eqn:Hvn.
  - destruct (law_set new fd _ _ _ contents tx (set_store s w) (w_heap w) t [] Ho
                few_nil Hvn Hm Hmt (Hg _)) as (op & tx1 & s1 & r1 & fd1 & E1 & Ho1 & _).
    change (set_heap (w_heap w) (set_store s w)) with (set_store s w) in E1.
    destruct (law_delete old None tx1 (set_store s1 (set_store s w)) _ _ Ho1)
      as (op2 & tx2 & s2 & r2 & E2 & Ho2); [apply few_one|].
    destruct (law_commit tx2 (set_store s2 (set_store s1 (set_store s w))) _ _ Ho2)
      as (tx3 & s3 & E3 & H3); [unfold few, int64_max; simpl; lia|].
    exists s3. split; [by destruct e|]. run E. apply (with_txn_run tx tx3).
    assert (F1 : setFileTxn new (Some fd) contents (tx, set_store s w) =
                 (Ret (None, Some fd1), (tx1, set_store s1 (set_store s w)))).
    { unfold setFileTxn. rewrite Hvn. cbn [negb].
      destruct contents; [|done]. rewrite bind_ret_l. by run E1. }
    assert (F2 : setFileTxn old None None (tx1, set_store s1 (set_store s w)) =
                 (Ret (None, None), (tx2, set_store s2 (set_store s1 (set_store s w))))).
    { unfold setFileTxn. rewrite Hv. cbn [negb]. rewrite bind_ret_l. by run E2. }
    run F1. run F2. by run E3.
  - destruct (law_abort tx (set_store s w) t Ho) as (tx1 & s1 & E1 & H1).
    exists s1. split; [done|]. run E. apply (with_txn_run tx tx1).
    run (setFileTxn_invalid new (Some fd) contents (tx, set_store s w) Hvn).
    rewrite bind_ret_l. by run E1.
Qed.

Lemma Rename_file_refines fuel old new w t e :
  fs_at w t -> t !! old = Some e -> IsDir (e_mode e) = false ->
  exists w' t', Rename (S fuel) old new w =
      (Ret (spec_rename_file old new (to_node (w_heap w) e) (view (w_heap w) t)).1, w') /\
    fs_at w' t' /\ w_now w' = w_now w /\
    view (w_heap w') t' =
      (spec_rename_file old new (to_node (w_heap w) e) (view (w_heap w) t)).2.
Proof.
  intros Hat Et Hd. simpl.
  destruct (getFile_spec old w t (at_holds w t Hat)) as (r & s & E & Hs & Hr).
  pose proof (holds_valid w t old e (at_holds w t Hat) Et) as Hv.
  unfold get_result in Hr. rewrite Hv, Et in Hr. destruct Hr as (rec & Hrec & ->). run E.
  set (w1 := set_store s w). assert (Hat1 : fs_at w1 t) by by apply fs_at_store.
  pose proof (file_of_record old e rec Hrec) as Hf.
  destruct (on_ro_Mode_run (record_fd old (Some (StoreRecord rec))) (e_mode e) w1)
    as (fd & E1 & Hsame); [apply Hf|].
  run (on_var_run _ _ _ _ _ _ (on_data_run _ _ _ _ _ _ 0 0 E1)). rewrite Hd.
  unfold rename_file, spec_rename_file. destruct (String.eqb_spec old new) as [->|Hne].
  { by exists w1, t. }
  pose proof (file_of_same old e _ fd Hsame Hf) as Hf1.
  destruct (file_of_Data old e fd w1 Hf1) as (fd2 & E2 & Hf2 & Hl2).
  run (on_var_run _ _ _ _ _ _ (on_data_run _ _ _ _ _ _ 0 0 E2)). cbn [fileData_].
  destruct (move_record_spec old new fd2 e (Some (e_data e)) w1 t Hs Hv)
    as (s2 & H2 & E3); [apply Hf2|apply Hf2|apply Hf2|done|].
  exists (set_store s2 w1). rewrite E3. destruct (ValidPath new).
  - destruct (fs_at_rename w1 t s2 old new e Hat1 Hne Et H2) as [Hat2 Hview].
    by exists (delete old (<[new := e]> t)).
  - exists t. split_and!; [done| |done|done]. by apply fs_at_store.
Qed.

(** ** [MkdirAll] *)
Definition results_of (t : tree) : list string -> list (OpResult ST R) -> Prop :=
  Forall2 (is_result is_record missing_err t).

Lemma get_all_spec paths tx w t rs :
  opened tx (w_store w) t rs ->
  (Z.of_nat (length rs + length paths) < int64_max)%Z ->
  exists tx' rs', get_all paths (tx, w) = (Ret tt, (tx', w)) /\
    opened tx' (w_store w) t (rs ++ rs') /\ results_of t paths rs'.
Proof.
  revert tx rs. induction paths as [|p paths IH]; intros tx rs Ho Hlen; simpl.
  { exists tx, []. rewrite app_nil_r. split_and!; [done|done|constructor]. }
  simpl in Hlen.
  destruct (law_get p tx w t rs Ho) as (op & tx1 & r & E & Ho1 & Hr); [unfold few; lia|].
  destruct (IH tx1 (rs ++ [r])%list) as (tx' & rs' & E' & Ho' & Hrs); [done| |].
  { rewrite length_app. simpl. lia. }
  exists tx', (r :: rs'). run E. rewrite <- app_assoc in Ho'.
  split_and!; [done|done|by constructor].
Qed.

Lemma getFileRecords_spec paths w t :
  holds (w_store w) t -> (Z.of_nat (length paths) < int64_max)%Z ->
  exists rs s, getFileRecords paths w = (Ret (rs, None), set_store s w) /\ holds s t /\
    results_of t paths rs.
Proof.
  intros Ht Hlen. unfold getFileRecords, Transaction_.
  destruct (law_begin TransactionReadOnly w t Ht) as (tx & s & E & Ho).
  destruct (get_all_spec paths tx (set_store s w) t [] Ho) as (tx1 & rs & E1 & Ho1 & Hrs);
    [done|].
  destruct (law_commit tx1 (set_store s w) t rs Ho1) as (tx2 & s2 & E2 & H2).
  { unfold few. by rewrite <- (Forall2_length _ _ _ Hrs). }
  exists rs, s2. split_and!; [|done..]. run E. apply (with_txn_run tx tx2). run E1. by run E2.
Qed.

Lemma zip_results_run {B} (f : string -> OpResult ST R -> B) paths rs w :
  length paths = length rs -> zip_results f paths rs w = (Ret (zip_with f paths rs), w).
Proof.
  revert rs. induction paths as [|p paths IH]; intros [|r rs] Hlen; try done. simpl.
  by rewrite (bind_Ret _ _ _ _ _ (IH rs ltac:(simpl in Hlen; lia))).
Qed.

Lemma statAll_spec paths w t :
  holds (w_store w) t -> (Z.of_nat (length paths) < int64_max)%Z ->
  exists rs s, statAll paths w =
      (Ret (zip_with (fun p r => Some (MkFileInfo (InfoResult (res_Record r)) p)) paths rs,
            res_Err <$> rs), set_store s w) /\
    holds s t /\ results_of t paths rs.
Proof.
  intros Ht Hlen. destruct (getFileRecords_spec paths w t Ht Hlen) as (rs & s & E & Hs & Hrs).
  pose proof (Forall2_length _ _ _ Hrs) as Hl. exists rs, s. split_and!; [|done..].
  unfold statAll. run E. run (zip_results_run (fun p r =>
    (Some (MkFileInfo (InfoResult (res_Record r)) p), res_Err r)) paths rs (set_store s w) Hl).
  unfold ret. do 3 f_equal; clear - Hl; revert rs Hl;
    (induction paths as [|p paths IH]; intros [|r rs] Hl; try done; simpl; f_equal;
     apply IH; simpl in Hl; lia).
Qed.

Lemma missing_prefix_spec h t paths rs w :
  results_of t paths rs ->
  missing_prefix paths
    (zip_with (fun p r => Some (MkFileInfo (InfoResult (res_Record r)) p)) paths rs)
    (res_Err <$> rs) w =
  (Ret (match spec_missing (view h t) paths with
        | inl ps => (ps, None)
        | inr e => ([], Some e)
        end), w).
Proof.
  intros Hrs. induction Hrs as [|p r paths rs Hr Hrs IH]; [done|]. simpl.
  unfold is_result in Hr. rewrite view_lookup. unfold isMissingDir.
  destruct (t !! p) as [e|]; simpl.
  - destruct Hr as (rec & -> & -> & Hrec). unfold info_IsDir, info_Mode. simpl.
    go_simpl. rewrite (law_mode p e rec Hrec). by destruct (IsDir (e_mode e)).
  - destruct Hr as [_ ->]. simpl. rewrite law_missing, bind_ret_l. run IH.
    by destruct (spec_missing (view h t) paths).
Qed.

Lemma ancestors_cons p :
  ValidPath p = true -> p <> "." -> ancestors p = p :: ancestors (Dir p).
Proof.
  intros Hp Hd. destruct (ValidPath_cases p Hp) as [->|(es & e & Hes & He & E & Eq & _)]; [done|].
  unfold ancestors. rewrite (elems_Dir p es e Hp E), E, length_app. simpl length.
  replace (length es + 1) with (S (length es)) by lia.
  rewrite (seq_S (S (length es))), rev_app_distr. csimpl. f_equal.
  - rewrite take_ge by (rewrite length_app; simpl; lia). done.
  - apply list_fmap_ext. intros i k Hk%list_elem_of_lookup_2.
    change (k ∈ rev (seq 0 (S (length es)))) in Hk.
    apply list_elem_of_In in Hk. apply in_rev in Hk. apply in_seq in Hk.
    by rewrite take_app_le by lia.
Qed.

Lemma parents_run n p w :
  length (elems p) = n -> ValidPath p = true ->
  parents (ST := ST) (S n) p w = (Ret (ancestors p), w).
Proof.
  revert p. induction n as [|n IH]; intros p Hn Hp.
  - assert (p = ".") as -> by (apply elems_nil; [done|by apply nil_length_inv]). done.
  - assert (p <> ".") as Hd by (by intros ->).
    rewrite (length_elems_Dir p) in Hn by done.
    change (parents (ST := ST) (S (S n)) p) with
      (if String.eqb p "." then ret ["."]
       else ps <- parents (ST := ST) (S n) (Dir p) ;; ret (p :: ps)).
    rewrite (proj2 (String.eqb_neq _ _) Hd).
    run (IH (Dir p) ltac:(lia) (Dir_valid p Hp)). by rewrite (ancestors_cons p).
Qed.

Lemma length_ancestors p : length (ancestors p) = S (length (elems p)).
Proof. unfold ancestors. by rewrite length_fmap, length_rev, length_seq. Qed.

Lemma spec_missing_valid v ps qs :
  spec_missing v ps = inl qs -> Forall (fun p => ValidPath p = true) ps ->
  Forall (fun p => ValidPath p = true) qs.
Proof.
  revert qs. induction ps as [|p ps IH]; intros qs; simpl; [intros [= <-] _; constructor|].
  destruct (v !! p) as [n|].
  - destruct (IsDir (n_mode n)); [intros [= <-] _; constructor|done].
  - destruct (spec_missing v ps) as [qs'|]; [|done]. intros [= <-] [Hp Hps]%Forall_cons.
    constructor; [done|]. by apply IH.
Qed.

Lemma ancestors_valid p : ValidPath p = true -> Forall (fun q => ValidPath q = true) (ancestors p).
Proof.
  intros [Hg _]%ValidPath_elems. apply Forall_fmap, Forall_forall. intros k _. simpl.
  apply ValidPath_of_elems. by apply Forall_take.
Qed.

Lemma make_dirs_at perm names w t :
  fs_at w t -> Forall (fun p => ValidPath p = true) names ->
  exists w' t', make_dirs perm names w = (Ret None, w') /\ fs_at w' t' /\ w_now w' = w_now w /\
    view (w_heap w') t' =
      fold_left (fun v p => <[p := dir_node (w_now w) perm]> v) names (view (w_heap w) t).
Proof.
  intros Hat Hv. revert w t Hat. induction Hv as [|p names Hp Hv IH]; intros w t Hat; simpl.
  { by exists w, t. }
  run (newDir_run p perm w).
  destruct (save_newDir p perm w t Hat Hp) as (w1 & t1 & E1 & Hat1 & Hn1 & Hview1).
  destruct (IH w1 t1 Hat1) as (w' & t' & E' & Hat' & Hn' & Hview').
  exists w', t'. run E1. split_and!; [done|done|by rewrite Hn'|].
  by rewrite Hview', Hview1, Hn1.
Qed.

(** A path has fewer than [2^62] elements. *)
Definition short (name : string) : Prop := (Z.of_nat (length (elems name)) < 2 ^ 62)%Z.

Lemma MkdirAll_refines name perm :
  short name ->
  refines (MkdirAll name perm) (fun now => spec_MkdirAll now name perm).
Proof.
  intros Hshort w v (t & Hat & ->). unfold MkdirAll, findMissingDirs, spec_MkdirAll.
  destruct (ValidPath name) eqn:Hv; cbn [negb].
  2: { rewrite bind_ret_l. eexists. split_and!; [done| |done]. by exists t. }
  rewrite bind_assoc. run (parents_run _ name w eq_refl Hv). rewrite bind_assoc.
  destruct (statAll_spec (ancestors name) w t (at_holds w t Hat)) as (rs & s & E & Hs & Hrs).
  { rewrite length_ancestors. unfold short, int64_max in *. lia. }
  run E. set (w1 := set_store s w).
  run (missing_prefix_spec (w_heap w) t (ancestors name) rs w1 Hrs).
  destruct (spec_missing (view (w_heap w) t) (ancestors name)) as [ps|e] eqn:Em.
  - assert (Hps : Forall (fun p => ValidPath p = true) (rev ps)).
    { apply Forall_rev. by eapply spec_missing_valid, ancestors_valid. }
    destruct (make_dirs_at perm (rev ps) w1 t) as (w' & t' & E' & Hat' & Hn' & Hview');
      [by apply fs_at_store|done|].
    exists w'. rewrite E'. split_and!; [done| |done]. exists t'. split; [done|].
    rewrite Hview'. simpl. unfold insert_dirs.
    rewrite <- (rev_involutive ps) at 1.
    apply (fold_left_rev_right (fun p v => <[p := dir_node (w_now w) perm]> v)).
  - eexists. split_and!; [done| |done]. exists t. split; [by apply fs_at_store|done].
Qed.
End ops.
