(* ===== verification/FileSpec.v ===== *)
(** * What the methods of an open file do

    The invariant of a file handle whose blob is that of an entry of the tree,
    and the methods of [KVFile] on such handles: reading, seeking, writing and
    truncating, down to the bytes. *)
From S2P Require Import Prelude.
From S2P Require Import Paths.
From S2P Require Import Errors.
From S2P Require Import Modes.
From S2P Require Import Blob.
From S2P Require Import BlobSpec.
From S2P Require Import Record.
From S2P Require Import Txn.
From S2P Require Import KVFile.
From S2P Require Import KVFS.
From S2P Require Import StoreSpec.
From S2P Require Import FSSpec.
From S2P Require Import TreeFS.
From S2P Require Import TreeOps.

Local Open Scope string_scope.

(** ** Trees whose blobs change *)
Section heap.
Context {ST R T : Type} `{!RecordOps ST R, !Store ST R T, !GoRuntime, !LawfulStore ST R T}.
Notation W := (world ST).
Implicit Types (w : W) (t : tree) (v : nodes).

(** One blob of the tree was changed: its node changes, and no other. *)
Lemma fs_at_upd w t s name e l b b' h' mode mtime :
  fs_at w t -> t !! name = Some e -> e_data e = BBytes l -> blobs (w_heap w) !! l = Some b ->
  wf_heap h' -> upd (w_heap w) h' l (bytes b) -> blobs h' !! l = Some b' ->
  moved (w_heap w) b b' -> holds s (<[name := MkEntry (BBytes l) mode mtime]> t) ->
  fs_at (set_store s (set_heap h' w)) (<[name := MkEntry (BBytes l) mode mtime]> t) /\
  view h' (<[name := MkEntry (BBytes l) mode mtime]> t) =
    <[name := MkNode mode mtime (read_slice h' (bytes b'))]> (view (w_heap w) t).
Proof.
  intros [Hh Hwf Hi Hl Ha] Et Ed Hb Hwf' Hu Hb' [_ Hmv] Hs.
  assert (Hother : forall n e', n <> name -> t !! n = Some e' ->
    exists l' x, e_data e' = BBytes l' /\ blobs (w_heap w) !! l' = Some x /\ l' <> l /\
      blobs h' !! l' = Some x /\ contents h' l' = contents (w_heap w) l' /\
      apart h' (BBytes l) (BBytes l')).
  { intros n e' Hn E. pose proof (Hl n e' E) as Hlive. pose proof (Ha name n e e') as Hap.
    rewrite Ed in Hap. destruct (e_data e') as [l'|] eqn:Ed'; [|done].
    destruct Hlive as [x Hx]. destruct Hap as [Hne Hap]; [done..|].
    specialize (Hap b x Hb Hx).
    assert (Hwb : wf_slice (w_heap w) (bytes b)) by apply (wf_blobs _ Hwf l b Hb).
    assert (Hwx : wf_slice (w_heap w) (bytes x)) by apply (wf_blobs _ Hwf l' x Hx).
    assert (Hap' : s_arr (bytes x) <> s_arr (bytes b) \/ s_cap (bytes b) = 0 \/
                   s_cap (bytes x) = 0) by (destruct Hap as [?|[?|?]]; auto).
    destruct (upd_contents _ _ l (bytes b) l' x Hwf Hu Hx (not_eq_sym Hne) Hap') as [Hx' Hc].
    exists l', x. do 5 (split; [by auto|]). split; [done|]. intros x1 x2. rewrite Hb', Hx'.
    intros [= <-] [= <-]. destruct Hmv as [[-> ->]|Hfresh]; [done|].
    destruct (decide (s_cap (bytes x) = 0)); [auto|].
    left. pose proof (wf_slice_array _ _ Hwf Hwx ltac:(lia)). lia. }
  split.
  - split; simpl; [done|done|by apply (upd_idle (w_heap w) _ l (bytes b))|..].
    + intros n e' [[<- <-]|[Hn E]]%lookup_insert_Some; simpl; [by eexists|].
      destruct (Hother n e' (not_eq_sym Hn) E) as (l' & x & -> & _ & _ & Hx' & _). by eexists.
    + intros n1 n2 e1 e2 Hn [[<- <-]|[Hn1 E1]]%lookup_insert_Some
        [[<- <-]|[Hn2 E2]]%lookup_insert_Some; [done|..]; simpl.
      * destruct (Hother n2 e2 (not_eq_sym Hn2) E2) as (l' & x & -> & _ & _ & _ & _ & Hap). done.
      * destruct (Hother n1 e1 (not_eq_sym Hn1) E1) as (l' & x & -> & _ & _ & _ & _ & Hap).
        by apply apart_sym.
      * destruct (Hother n1 e1 (not_eq_sym Hn1) E1) as (l1 & x1 & D1 & X1 & _ & X1' & _).
        destruct (Hother n2 e2 (not_eq_sym Hn2) E2) as (l2 & x2 & D2 & X2 & _ & X2' & _).
        pose proof (Ha n1 n2 e1 e2 Hn E1 E2) as Hap. rewrite D1, D2 in *.
        destruct Hap as [Hne Hap]. split; [done|]. intros y1 y2. rewrite X1', X2'.
        intros [= <-] [= <-]. by apply Hap.
  - apply map_eq. intros k. rewrite view_lookup. destruct (decide (k = name)) as [->|Hk].
    + rewrite !lookup_insert_eq. simpl. unfold to_node. simpl.
      by rewrite (contents_Some h' l b').
    + rewrite !lookup_insert_ne, view_lookup by done. destruct (t !! k) as [e'|] eqn:E; [|done].
      destruct (Hother k e' Hk E) as (l' & x & D & _ & _ & _ & Hc & _). simpl.
      unfold to_node. rewrite D. simpl. by rewrite Hc.
Qed.

(** ** Blobs of a tree *)
Definition blob_len (h : heap) (b : Blob) : Z := Z.of_nat (length (blob_bytes h b)).

Lemma live_blob h b :
  wf_heap h -> idle h -> live h b ->
  exists l x, b = BBytes l /\ usable h l x /\ blob_bytes h b = read_slice h (bytes x) /\
    blob_len h b = length_ x.
Proof.
  intros Hwf Hi Hl. destruct b as [l|]; [|done]. destruct Hl as [x Hx].
  exists l, x. destruct (wf_blobs h Hwf l x Hx) as [Hwx Hlx _].
  assert (E : blob_bytes h (BBytes l) = read_slice h (bytes x))
    by (simpl; by rewrite (contents_Some h l x)).
  split_and!; [done|by apply idle_usable|done|].
  unfold blob_len. by rewrite E, length_read_slice, Hlx.
Qed.
Lemma Blob_Len_run w b :
  wf_heap (w_heap w) -> idle (w_heap w) -> live (w_heap w) b ->
  in_heap (Blob_Len b) w = (Ret (blob_len (w_heap w) b), w).
Proof.
  intros Hwf Hi Hl. destruct (live_blob _ b Hwf Hi Hl) as (l & x & -> & [Hx _] & _ & ->).
  unfold in_heap, zoom. simpl. rewrite (Bytes_Len_eq _ l x Hx). by destruct w.
Qed.

(** ** Handles *)
Definition is_store (b : Blob) (fd : fileData ST R) : Prop :=
  exists name e rec, record (fd_ro fd) = Some (StoreRecord rec) /\ is_record name e rec /\
    e_data e = b.

(** Its size is that of the blob: read from the blob once the data was
    loaded, and not remembered from an earlier time before. *)
Definition sized (h : heap) (b : Blob) (fd : fileData ST R) : Prop :=
  (loaded fd b /\
     ((exists base, record (fd_ro fd) = Some (BaseRecord base)) \/ is_store b fd)) \/
  (ro_data (fd_ro fd) = None /\ ro_dataDone (fd_ro fd) = false /\ is_store b fd /\
     (ro_size (fd_ro fd) = None \/ ro_size (fd_ro fd) = Some (blob_len h b))).

Record handle_of w (name : string) (e : entry) (fd : fileData ST R) : Prop := {
  ho_file : file_of name e fd;
  ho_sized : sized (w_heap w) (e_data e) fd
}.

Lemma file_of_cached name e fd fd' :
  path fd' = path fd -> fd_mode fd' = fd_mode fd -> fd_mtime fd' = fd_mtime fd ->
  (forall h, gives fd' h (e_data e) h) ->
  file_of name e fd -> file_of name e fd'.
Proof. intros ???? []. split; congruence || done. Qed.

Lemma gives_sized h b fd h' : sized h b fd -> gives fd h' b h'.
Proof.
  intros [[Hl _]|(Hd & _ & (n & e & rec & Hr & Hrec & <-) & _)]; [by apply gives_loaded|].
  apply (gives_record _ (StoreRecord rec)); [done..|].
  intros w <-. rewrite set_heap_id. by apply (law_data n).
Qed.

(** Reading the size remembers it, and changes nothing else. *)
Definition with_size (n : Z) (fd : fileData ST R) : fileData ST R :=
  set_ro (store_size n (fd_ro fd)) fd.

Lemma sized_with_size h b n fd :
  sized h b fd -> (ro_dataDone (fd_ro fd) = false -> n = blob_len h b) ->
  sized h b (with_size n fd).
Proof.
  intros [[[H1 H2] H3]|(Hd & Hdd & Hs & _)] Hn.
  - left. by split.
  - right. split_and!; [done..|]. right. simpl. by rewrite Hn.
Qed.

Lemma fd_Size_run w name e fd :
  wf_heap (w_heap w) -> idle (w_heap w) -> live (w_heap w) (e_data e) ->
  handle_of w name e fd ->
  exists fd', fd_Size (fd, w) = (Ret (blob_len (w_heap w) (e_data e)), (fd', w)) /\
    handle_of w name e fd' /\ (loaded fd (e_data e) -> loaded fd' (e_data e)).
Proof.
  intros Hwf Hi Hl [Hf Hs]. set (b := e_data e) in *.
  pose proof (Blob_Len_run w b Hwf Hi Hl) as Elen.
  (* the first read, of the cached size or of the record *)
  assert (H1 : exists n ro', with_ro (fun r => once ro_size store_size 0%Z (on_record fr_Size r))
                 (fd_ro fd, w) = (Ret n, (ro', w)) /\
             (ro' = fd_ro fd \/ ro' = store_size n (fd_ro fd)) /\
             (ro_dataDone (fd_ro fd) = false -> n = blob_len (w_heap w) b)).
  { unfold with_ro, once. cbn [fst]. cbv beta iota. destruct (ro_size (fd_ro fd)) as [n|] eqn:Esz.
    - exists n, (fd_ro fd). split_and!; [done|by left|]. intros Hdd.
      destruct Hs as [[[_ Hl1] _]|(_ & _ & _ & [Hx|Hx])]; congruence.
    - assert (Hrec : (exists base, record (fd_ro fd) = Some (BaseRecord base) /\
                        ro_dataDone (fd_ro fd) = true) \/ is_store b fd).
      { destruct Hs as [[[_ Hl1] [[base Hb]|?]]|(_ & _ & ? & _)];
          [left; by exists base|by right..]. }
      unfold on_record. destruct Hrec as [(base & -> & Hdd)|(n0 & e0 & rec & -> & Hrec & Heq)].
      + do 2 eexists. split_and!; [reflexivity|by right|congruence].
      + simpl. rewrite (law_size n0 e0 rec w Hrec), Heq, Elen.
        do 2 eexists. split_and!; [reflexivity|by right|done]. }
  destruct H1 as (n & ro' & E1 & Hro & Hn).
  set (fd' := set_ro ro' fd).
  assert (Hs' : sized (w_heap w) b fd').
  { destruct Hro as [->| ->]; [by destruct fd|]. by apply sized_with_size. }
  assert (Hf' : file_of name e fd').
  { apply (file_of_cached name e fd); [by destruct Hro as [->| ->]..| |done].
    intros h. by apply (gives_sized (w_heap w)). }
  exists fd'. split_and!; [|by split|by destruct Hro as [->| ->]; destruct fd].
  apply on_ro_run. unfold ro_Size. run E1. rewrite bind_gets. cbn [fst].
  destruct Hs' as [[[Hd Hdd] _]|(Hd & Hdd & _)]; simpl in Hd, Hdd; rewrite Hdd.
  - rewrite bind_gets. cbn [fst]. rewrite Hd. apply in_world_run. exact Elen.
  - unfold ret. do 2 f_equal. apply Hn. destruct Hro as [->| ->]; done.
Qed.

Lemma fd_Data_run w name e fd :
  handle_of w name e fd ->
  exists fd', fd_Data (fd, w) = (Ret (Some (e_data e), None), (fd', w)) /\
    handle_of w name e fd' /\ loaded fd' (e_data e).
Proof.
  intros [Hf Hs]. destruct Hs as [Hl|(Hd & Hdd & Hst & Hsz)].
  - exists fd. destruct Hl as [[H1 H2] H3]. split_and!; [|by split; [|by left]|done].
    unfold fd_Data. rewrite (on_ro_run _ fd w (Ret (Some (e_data e), None)) (fd_ro fd) w);
      [by destruct fd|].
    unfold ro_Data, with_ro, once. cbn [fst]. cbv beta iota. by rewrite H1.
  - destruct Hst as (n0 & e0 & rec & Hrec & Hr & Heq).
    set (fd' := set_ro (store_dataDone (store_data (Some (e_data e), None) (fd_ro fd))) fd).
    assert (Hl : loaded fd' (e_data e)) by done.
    exists fd'. split_and!; [| |done].
    + apply on_ro_run. unfold ro_Data, with_ro, once, on_record. cbn [fst]. cbv beta iota.
      rewrite Hd, Hrec. simpl. by rewrite (law_data n0 e0 rec w Hr), Heq.
    + split.
      * apply (file_of_cached name e fd); [done..| |done]. intros h. by apply gives_loaded.
      * left. split; [done|]. right. by exists n0, e0, rec.
Qed.

Definition opened_file (fd : fileData ST R) (off fl : Z) : file ST R :=
  MkFile (Some fd) off fl.

Definition touch (changed : bool) : M (file ST R * W) unit :=
  if changed then updateModTime else ret tt.

(** Saving a file after its blob was changed. *)
Lemma save_changed w t name e fd off fl l b b' h' (changed : bool) :
  fs_at w t -> t !! name = Some e -> e_data e = BBytes l -> handle_of w name e fd ->
  loaded fd (BBytes l) -> blobs (w_heap w) !! l = Some b ->
  wf_heap h' -> upd (w_heap w) h' l (bytes b) -> blobs h' !! l = Some b' ->
  moved (w_heap w) b b' -> w_now w <> 0%Z ->
  let mtime := if changed then w_now w else e_modTime e in
  let e' := MkEntry (BBytes l) (e_mode e) mtime in
  exists fd' w', bind (touch changed) (fun _ => f_save) (opened_file fd off fl, set_heap h' w) =
      (Ret None, (opened_file fd' off fl, w')) /\
    fs_at w' (<[name := e']> t) /\ handle_of w' name e' fd' /\ w_heap w' = h' /\
    w_now w' = w_now w /\
    view h' (<[name := e']> t) =
      <[name := MkNode (e_mode e) mtime (read_slice h' (bytes b'))]> (view (w_heap w) t).
Proof.
  intros Hat Et Ed [Hf Hs] Hl Hb Hwf' Hu Hb' Hmv Hnow mtime e'.
  pose proof (holds_valid w t name e (at_holds w t Hat) Et) as Hv.
  set (fd1 := if changed then set_modTimeOverride (w_now w) fd else fd).
  assert (Hl1 : loaded fd1 (BBytes l)) by by destruct changed.
  assert (Hm1 : fd_mode fd1 = Some (e_mode e)) by (destruct Hf; by destruct changed).
  assert (Hmt1 : fd_mtime fd1 = Some mtime).
  { unfold fd1, mtime. destruct changed; [|apply Hf]. unfold fd_mtime. simpl.
    destruct (Z.eqb_spec (w_now w) 0); [done|done]. }
  assert (Hp1 : path fd1 = name) by (destruct Hf; by destruct changed).
  destruct (setFile_Some name fd1 (e_mode e) mtime (BBytes l) (set_heap h' w) h' t
              (at_holds w t Hat) Hv Hm1 Hmt1 (gives_loaded fd1 h' (BBytes l) Hl1))
    as (fd2 & s & E & Hs2 & Hk & Hl2).
  destruct (fs_at_upd w t s name e l b b' h' (e_mode e) mtime Hat Et Ed Hb Hwf' Hu Hb' Hmv Hs2)
    as [Hat' Hview].
  exists fd2, (set_store s (set_heap h' w)). split_and!; [|done| |done|done|done].
  - unfold touch. assert (E1 : f_save (opened_file fd1 off fl, set_heap h' w) =
      (Ret None, (opened_file fd2 off fl, set_store s (set_heap h' w)))).
    { apply on_data_run. unfold save. rewrite Hp1, E. done. }
    rewrite <- E1. by destruct changed.
  - split.
    + destruct Hk as [K1 _ K3 K4].
      split; [by rewrite K1|by rewrite K3|by rewrite K4|]. intros h. by apply gives_loaded.
    + left. split; [done|]. destruct Hk as [_ K2 _ _]. unfold is_store. rewrite K2.
      assert (record (fd_ro fd1) = record (fd_ro fd)) as -> by by destruct changed.
      simpl. rewrite <- Ed. by destruct Hs as [[_ ?]|(_ & _ & ? & _)]; [|right].
Qed.

(** *** [Truncate] *)

(** Growing fills up with zeros. *)
Definition resize (c : list byte) (n : nat) : list byte :=
  (take n c ++ replicate (n - length c) zero)%list.

Lemma f_Size_run w t name e fd off fl :
  fs_at w t -> t !! name = Some e -> handle_of w name e fd ->
  exists fd', f_Size (opened_file fd off fl, w) =
      (Ret (blob_len (w_heap w) (e_data e)), (opened_file fd' off fl, w)) /\
    handle_of w name e fd' /\ (loaded fd (e_data e) -> loaded fd' (e_data e)).
Proof.
  intros Hat Et Ho. destruct (fd_Size_run w name e fd) as (fd' & E & Ho' & Hl);
    [apply Hat|apply Hat|by apply (at_live w t Hat name)|done|].
  exists fd'. split_and!; [by apply on_data_run|done|done].
Qed.
Lemma f_Data_run w name e fd off fl :
  handle_of w name e fd ->
  exists fd', f_Data (opened_file fd off fl, w) =
      (Ret (Some (e_data e), None), (opened_file fd' off fl, w)) /\
    handle_of w name e fd' /\ loaded fd' (e_data e).
Proof.
  intros Ho. destruct (fd_Data_run w name e fd Ho) as (fd' & E & Ho' & Hl).
  exists fd'. split_and!; [by apply on_data_run|done|done].
Qed.
Lemma f_Mode_run w name e fd off fl :
  handle_of w name e fd ->
  exists fd', f_Mode (opened_file fd off fl, w) =
      (Ret (e_mode e), (opened_file fd' off fl, w)) /\ handle_of w name e fd'.
Proof.
  intros [Hf Hs]. destruct (fd_Mode_run fd (e_mode e) w) as (fd' & E & H1); [apply Hf|].
  exists fd'. split; [by apply on_data_run|]. split; [by apply (file_of_same name e fd)|].
  destruct H1 as [_ K2 _ _ _ K6 K7 K8 _]. unfold sized, loaded, is_store in *.
  by rewrite K2, K6, K7, K8.
Qed.
Lemma on_blob_run {A} (m : Blob -> M heap A) b (f : file ST R) w a h' :
  m b (w_heap w) = (Ret a, h') ->
  on_blob (Some b) m (f, w) = (Ret a, (f, set_heap h' w)).
Proof. intros E. unfold on_blob, in_world, in_heap, zoom. cbn [fst snd]. by rewrite E. Qed.

Lemma FileTruncate_at w t name e fd off fl size :
  fs_at w t -> t !! name = Some e -> handle_of w name e fd -> IsDir (e_mode e) = false ->
  (0 <= size)%Z -> is_int64 size ->
  let c := blob_bytes (w_heap w) (e_data e) in
  (size <> Z.of_nat (length c) -> w_now w <> 0%Z) ->
  let same := (size =? Z.of_nat (length c))%Z in
  let e' := if same then e else MkEntry (e_data e) (e_mode e) (w_now w) in
  exists fd' w', FileTruncate size (opened_file fd off fl, w) =
      (Ret None, (opened_file fd' off fl, w')) /\
    fs_at w' (<[name := e']> t) /\ handle_of w' name e' fd' /\ w_now w' = w_now w /\
    view (w_heap w') (<[name := e']> t) =
      <[name := MkNode (e_mode e') (e_modTime e') (resize c (Z.to_nat size))]>
        (view (w_heap w) t).
Proof.
  intros Hat Et Ho Hd Hsz Hi64 c Hnow same e'. unfold FileTruncate.
  destruct (f_Mode_run w name e fd off fl Ho) as (fd1 & E1 & Ho1). run E1. rewrite Hd.
  destruct (f_Size_run w t name e fd1 off fl Hat Et Ho1) as (fd2 & E2 & Ho2 & _). run E2.
  change (blob_len (w_heap w) (e_data e)) with (Z.of_nat (length c)).
  destruct (Z.ltb_spec size 0); [lia|]. fold same. destruct same eqn:Hsame.
  { apply Z.eqb_eq in Hsame. exists fd2, w. unfold e'. rewrite (insert_id t) by done.
    split_and!; [done..|]. rewrite insert_id; [done|].
    rewrite view_lookup, Et. simpl. unfold to_node, resize. do 2 f_equal.
    rewrite Hsame, Nat2Z.id, take_ge, Nat.sub_diag by lia. by rewrite app_nil_r. }
  apply Z.eqb_neq in Hsame.
  destruct (f_Data_run w name e fd2 off fl Ho2) as (fd3 & E3 & Ho3 & Hl3). run E3.
  destruct (live_blob (w_heap w) (e_data e)) as (l & b & Ed & Hub & Hbb & Hlen);
    [apply Hat|apply Hat|by apply (at_live w t Hat name)|].
  assert (Hc : c = read_slice (w_heap w) (bytes b)) by done.
  unfold blob_len in Hlen. fold c in Hlen.
  assert (Hop : exists b' h', (if (Z.of_nat (length c) <? size)%Z
                 then Grow (e_data e) (sub64 size (Z.of_nat (length c)))
                 else Truncate (e_data e) size) (w_heap w) = (Ret None, h') /\
      wf_heap h' /\ upd (w_heap w) h' l (bytes b) /\ usable h' l b' /\
      moved (w_heap w) b b' /\ read_slice h' (bytes b') = resize c (Z.to_nat size)).
  { rewrite Ed. destruct (Z.ltb_spec (Z.of_nat (length c)) size) as [Hlt|Hge]; simpl.
    - rewrite sub64_id by int64.
      destruct (Bytes_Grow_spec (w_heap w) l b (size - Z.of_nat (length c)))
        as (b' & h' & E & Hwf' & Hu & Hub' & Hmv & _ & Hr); [apply Hat|done|lia|].
      exists b', h'. split_and!; [done..|]. rewrite Hr, <- Hc. unfold resize.
      rewrite take_ge by lia. do 2 f_equal. lia.
    - destruct (Bytes_Truncate_spec (w_heap w) l b size)
        as (b' & h' & E & Hwf' & Hu & Hub' & Hmv & _ & Hr); [apply Hat|done|lia|].
      exists b', h'. split_and!; [done..|]. rewrite Hr, <- Hc. unfold resize.
      replace (Z.to_nat size - length c) with 0 by lia. by rewrite app_nil_r. }
  destruct Hop as (b' & h' & Eop & Hwf' & Hu & [Hb' _] & Hmv & Hr).
  pose proof (on_blob_run (fun d => if (Z.of_nat (length c) <? size)%Z
                 then Grow d (sub64 size (Z.of_nat (length c))) else Truncate d size)
               (e_data e) (opened_file fd3 off fl) w None h' Eop) as Eb. run Eb.
  rewrite Ed in Hl3. destruct Hub as [Hb _].
  destruct (save_changed w t name e fd3 off fl l b b' h' true Hat Et Ed Ho3 Hl3 Hb Hwf' Hu Hb'
              Hmv (Hnow Hsame)) as (fd' & w' & E & Hat' & Ho' & <- & Hn' & Hview).
  exists fd', w'. unfold e'. rewrite Ed. split_and!; [done..|]. by rewrite Hview, Hr.
Qed.

(** *** Writing *)

(** The bytes of a file after a write: zeros fill the gap up to [off]. *)
Definition write_at (c : list byte) (off : nat) (data : list byte) : list byte :=
  splice (c ++ replicate (off + length data - length c) zero)%list off data.

(** A source of [data] that shares nothing with the blob [l]. *)
Definition source_for (h : heap) (l : nat) (p : Blob) (data : list byte) : Prop :=
  match p with
  | BPlain d => d = data
  | BBytes ls => exists bs, usable h ls bs /\ data = read_slice h (bytes bs) /\
      apart h (BBytes l) (BBytes ls) /\
      (forall b, blobs h !! l = Some b -> mu bs <> mu b)
  end.

Lemma source_data h l p data : source_for h l p data -> blob_data h p data.
Proof. destruct p as [ls|d]; [|done]. intros (bs & Hu & -> & _). by exists bs. Qed.

Lemma source_upd h h' l b b' p data :
  wf_heap h -> usable h l b -> upd h h' l (bytes b) -> blobs h' !! l = Some b' -> moved h b b' ->
  source_for h l p data -> source_for h' l p data.
Proof.
  intros Hwf [Hb Hmb] Hu Hb' [Hmu Hmv]. destruct p as [ls|d]; [|done].
  intros (bs & [Hbs Hms] & -> & [Hne Hap] & Hmus). specialize (Hap b bs Hb Hbs).
  assert (Hap' : s_arr (bytes bs) <> s_arr (bytes b) \/ s_cap (bytes b) = 0 \/
                 s_cap (bytes bs) = 0) by (destruct Hap as [?|[?|?]]; auto).
  destruct (upd_contents h h' l (bytes b) ls bs Hwf Hu Hbs (not_eq_sym Hne) Hap') as [Hbs' Hc].
  rewrite !(contents_Some _ _ bs) in Hc by done. injection Hc as Hc.
  exists bs. split_and!; [split; [done|]|done|split; [done|]|].
  - rewrite (upd_mutexes h h' l (bytes b) Hu); [done|]. eauto with go_wf.
  - intros x1 x2. rewrite Hb', Hbs'. intros [= <-] [= <-].
    destruct Hmv as [[-> ->]|Hfresh]; [done|].
    destruct (decide (s_cap (bytes bs) = 0)); [auto|]. left.
    pose proof (wf_slice_array h (bytes bs) Hwf (wf_bytes _ _ (wf_blobs h Hwf ls bs Hbs)) ltac:(lia)).
    lia.
  - intros x. rewrite Hb'. intros [= <-]. rewrite Hmu. by apply Hmus.
Qed.

(** Growing the blob up to the end of the write, when it is too short. *)
Lemma grow_for_write w t name e fd off fl l b p data (o n : Z) :
  fs_at w t -> t !! name = Some e -> e_data e = BBytes l -> handle_of w name e fd ->
  usable (w_heap w) l b -> source_for (w_heap w) l p data -> n = Z.of_nat (length data) ->
  (0 <= o)%Z -> is_int64 (o + n) ->
  let c := read_slice (w_heap w) (bytes b) in
  exists fd1 size fd' b1 h1,
    f_Size (opened_file fd off fl, w) = (Ret size, (opened_file fd1 off fl, w)) /\
    (if (size <? o + n)%Z then
       let* (data, e) := f_Data in
       match e with
       | Some e => ret (Some e)
       | None => size <- f_Size ;; on_blob data (fun d => Grow d (sub64 (o + n) size))
       end
     else ret None) (opened_file fd1 off fl, w) =
      (Ret None, (opened_file fd' off fl, set_heap h1 w)) /\
    handle_of w name e fd' /\ (loaded fd' (BBytes l) \/ h1 = w_heap w) /\
    wf_heap h1 /\ upd (w_heap w) h1 l (bytes b) /\ usable h1 l b1 /\ moved (w_heap w) b b1 /\
    source_for h1 l p data /\
    read_slice h1 (bytes b1) = (c ++ replicate (Z.to_nat (o + n) - length c) zero)%list.
Proof.
  intros Hat Et Ed Ho Hub Hsrc -> Ho0 Hi64 c.
  pose proof (at_wf w t Hat) as Hwf. pose proof Hub as [Hb Hmb].
  destruct (wf_blobs _ Hwf l b Hb) as [Hwb Hlb _].
  assert (Hlen : blob_len (w_heap w) (e_data e) = Z.of_nat (length c)).
  { unfold blob_len. rewrite Ed. simpl. by rewrite (contents_Some _ l b). }
  destruct (f_Size_run w t name e fd off fl Hat Et Ho) as (fd1 & E1 & Ho1 & _).
  destruct (Z.ltb_spec (Z.of_nat (length c)) (o + Z.of_nat (length data))) as [Hlt|Hge].
  - destruct (f_Data_run w name e fd1 off fl Ho1) as (fd2 & E2 & Ho2 & Hl2).
    destruct (f_Size_run w t name e fd2 off fl Hat Et Ho2) as (fd3 & E3 & Ho3 & Hl3).
    destruct (Bytes_Grow_spec (w_heap w) l b (o + Z.of_nat (length data) - Z.of_nat (length c)))
      as (b' & h' & E & Hwf' & Hu & Hub' & Hmv & _ & Hr); [done|done|lia|].
    exists fd1, (blob_len (w_heap w) (e_data e)), fd3, b', h'. split_and!; try done.
    + rewrite Hlen. destruct (Z.ltb_spec (Z.of_nat (length c)) (o + Z.of_nat (length data)));
        [|lia]. run E2. run E3. rewrite Hlen. apply on_blob_run. rewrite Ed. simpl.
      rewrite sub64_id by int64. exact E.
    + left. rewrite <- Ed. auto.
    + by apply (source_upd (w_heap w) h' l b b'); [..|apply Hub'| |].
    + rewrite Hr. fold c. do 2 f_equal. lia.
  - exists fd1, (blob_len (w_heap w) (e_data e)), fd1, b, (w_heap w).
    rewrite set_heap_id. split_and!; try done.
    + rewrite Hlen. destruct (Z.ltb_spec (Z.of_nat (length c)) (o + Z.of_nat (length data)));
        [lia|done].
    + by right.
    + by apply ext_upd, ext_refl.
    + split; [done|by left].
    + replace (Z.to_nat (o + Z.of_nat (length data)) - length c) with 0 by lia.
      by rewrite app_nil_r.
Qed.

(** The offset of a write: the size of the file when it is opened for appending. *)
Lemma write_offset w t name e fd off fl o :
  fs_at w t -> t !! name = Some e -> handle_of w name e fd ->
  exists fd0, (if has_flag fl FlagAppend then f_Size else ret o) (opened_file fd off fl, w) =
      (Ret (if has_flag fl FlagAppend
            then Z.of_nat (length (blob_bytes (w_heap w) (e_data e))) else o),
       (opened_file fd0 off fl, w)) /\
    handle_of w name e fd0.
Proof.
  intros Hat Et Ho. destruct (has_flag fl FlagAppend); [|by exists fd].
  destruct (f_Size_run w t name e fd off fl Hat Et Ho) as (fd0 & E & H1 & _). by exists fd0.
Qed.

(** A handle that has loaded its blob stays a handle when the heap changes. *)
Lemma loaded_handle w h' name e fd l :
  e_data e = BBytes l -> handle_of w name e fd ->
  loaded fd (BBytes l) \/ h' = w_heap w -> handle_of (set_heap h' w) name e fd.
Proof.
  intros Ed [Hf2 Hs2] Hl2. split; [done|]. simpl.
  destruct Hl2 as [Hl2| ->]; [|done]. left. split; [by rewrite Ed|].
  destruct Hs2 as [[_ ?]|(_ & _ & ? & _)]; [done|by right].
Qed.

Lemma writeBlobAt_at op w t name e fd off fl p data o l :
  fs_at w t -> t !! name = Some e -> handle_of w name e fd -> e_data e = BBytes l ->
  source_for (w_heap w) l p data -> w_now w <> 0%Z ->
  let c := blob_bytes (w_heap w) (e_data e) in
  let o' := if has_flag fl FlagAppend then Z.of_nat (length c) else o in
  (0 <= o')%Z -> is_int64 (o' + Z.of_nat (length data)) ->
  let mtime := if bool_decide (data = []) then e_modTime e else w_now w in
  let e' := MkEntry (e_data e) (e_mode e) mtime in
  exists fd' w', writeBlobAt op p o (opened_file fd off fl, w) =
      (Ret (Z.of_nat (length data), None), (opened_file fd' off fl, w')) /\
    fs_at w' (<[name := e']> t) /\ handle_of w' name e' fd' /\ w_now w' = w_now w /\
    view (w_heap w') (<[name := e']> t) =
      <[name := MkNode (e_mode e) mtime (write_at c (Z.to_nat o') data)]> (view (w_heap w) t).
Proof.
  intros Hat Et Ho Ed Hsrc Hnow c o' Ho0 Hi64 mtime e'.
  pose proof (at_wf w t Hat) as Hwf.
  destruct (live_blob (w_heap w) (e_data e) Hwf (at_idle w t Hat) (at_live w t Hat name e Et))
    as (l0 & b & Ed0 & Hub & Hbb & Hlen).
  rewrite Ed in Ed0. injection Ed0 as <-.
  assert (Hc : c = read_slice (w_heap w) (bytes b)) by done.
  unfold writeBlobAt. rewrite bind_gets. cbn [flag fst opened_file].
  destruct (write_offset w t name e fd off fl o Hat Et Ho) as (fd0 & E0 & Ho0'). run E0.
  assert (Ep : in_world (in_heap (Blob_Len p)) (opened_file fd0 off fl, w) =
               (Ret (Z.of_nat (length data)), (opened_file fd0 off fl, w))).
  { apply in_world_run. unfold in_heap, zoom.
    rewrite (Blob_Len_spec _ p data Hwf (source_data _ l _ _ Hsrc)). by rewrite set_heap_id. }
  run Ep. rewrite add64_id by done.
  destruct (grow_for_write w t name e fd0 off fl l b p data o' (Z.of_nat (length data))
              Hat Et Ed Ho0' Hub Hsrc eq_refl Ho0 Hi64)
    as (fd1 & size & fd2 & b1 & h1 & E1 & E2 & Ho2 & Hl2 & Hwf1 & Hu1 & Hub1 & Hmv1 & Hsrc1 & Hr1).
  rewrite <- Hc in Hr1. run E1. run E2. clear E1 E2.
  (* the data, and the write *)
  pose proof (loaded_handle w h1 name e fd2 l Ed Ho2 Hl2) as Ho2'.
  destruct (f_Data_run (set_heap h1 w) name e fd2 off fl Ho2') as (fd3 & E3 & Ho3 & Hl3).
  run E3. pose proof Hub1 as [Hb1 _]. destruct (wf_blobs h1 Hwf1 l b1 Hb1) as [Hwb1 Hlb1 _].
  assert (Hlen1 : length_ b1 = Z.of_nat (Nat.max (length c) (Z.to_nat o' + length data))).
  { rewrite Hlb1, <- (length_read_slice h1 (bytes b1)), Hr1 by done.
    rewrite length_app, length_replicate. lia. }
  assert (Hmus : match p with
                 | BBytes ls => forall bs, blobs h1 !! ls = Some bs -> mu bs <> mu b1
                 | BPlain _ => True end).
  { destruct p as [ls|]; [|done]. destruct Hsrc1 as (bs & [Hbs _] & _ & _ & Hm).
    intros bs'. rewrite Hbs. intros [= <-]. by apply Hm. }
  destruct (Bytes_Set_spec h1 l b1 p data o' Hwf1 Hub1 (source_data h1 l p data Hsrc1) Hmus)
    as (h2 & E4 & Hwf2 & Hu2 & Hb2 & Hr2 & _).
  { lia. }
  { destruct data as [|x data]; [by right|left]. simpl in Hlen1. lia. }
  replace (Z.min (length_ b1 - o') (Z.of_nat (length data))) with (Z.of_nat (length data))
    in E4 by lia.
  assert (E4' : Set_ (e_data e) p o' (w_heap (set_heap h1 w)) =
                (Ret (Z.of_nat (length data), None), h2)) by (by rewrite Ed).
  pose proof (on_blob_run (fun d => Set_ d p o') (e_data e) (opened_file fd3 off fl)
                (set_heap h1 w) _ h2 E4') as E5. run E5.
  assert (Hu : upd (w_heap w) h2 l (bytes b)).
  { apply (upd_trans _ h1 _ l (bytes b) (bytes b1)); [done..|]. apply Hmv1. }
  rewrite Ed in Hl3.
  destruct (save_changed w t name e fd3 off fl l b b1 h2 (negb (bool_decide (data = []))) Hat Et Ed)
    as (fd' & w' & E6 & Hat' & Ho' & Hh' & Hn' & Hview);
    [|done|apply Hub|done..|].
  { destruct Ho3 as [Hf3 Hs3]. split; [done|]. left. rewrite Ed. split; [done|].
    rewrite Ed in Hs3. destruct Hs3 as [[_ ?]|(_ & _ & ? & _)]; [done|by right]. }
  exists fd', w'. unfold e', mtime. rewrite Ed.
  assert (Hmt : (if negb (bool_decide (data = [])) then w_now w else e_modTime e) =
                (if bool_decide (data = []) then e_modTime e else w_now w))
    by by destruct (bool_decide (data = [])).
  rewrite Hmt in *. split_and!; [|done..|].
  - etransitivity; [|exact (bind_Ret _ (fun e => ret (Z.of_nat (length data), e)) _ _ _ E6)].
    rewrite bind_assoc. unfold touch. by destruct data as [|x data].
  - rewrite Hh', Hview. do 2 f_equal. unfold write_at. rewrite Hr2, Hr1. unfold set_at.
    replace (Z.to_nat (o' + Z.of_nat (length data)) - length c)
      with (Z.to_nat o' + length data - length c) by lia.
    f_equal. apply take_ge. rewrite length_app, length_replicate. lia.
Qed.

(** *** Buffers of the caller *)

(** A slice that no blob of the tree shares memory with. *)
Definition private (h : heap) (t : tree) (p : slice) : Prop :=
  wf_slice h p /\
  forall name e l x, t !! name = Some e -> e_data e = BBytes l -> blobs h !! l = Some x ->
    s_arr (bytes x) <> s_arr p \/ s_cap p = 0 \/ s_cap (bytes x) = 0.

Lemma private_ext w h' t p :
  fs_at w t -> ext (w_heap w) h' -> wf_slice h' p -> private (w_heap w) t p -> private h' t p.
Proof.
  intros Hat He Hp [_ Hpr]. split; [done|]. intros name e l x Et Ed Hx.
  apply (Hpr name e l x Et Ed). pose proof (at_live w t Hat name e Et) as Hl. rewrite Ed in Hl.
  destruct (ext_contents _ h' l (at_wf w t Hat) He Hl) as [<- _]. done.
Qed.

(** Writing to such a slice leaves the tree alone. *)
Lemma fs_at_private w t h' p l :
  fs_at w t -> private (w_heap w) t p -> wf_heap h' -> upd (w_heap w) h' l p ->
  next (w_heap w) <= l ->
  fs_at (set_heap h' w) t /\ view h' t = view (w_heap w) t.
Proof.
  intros [Hh Hwf Hi Hl Ha] [_ Hp] Hwf' Hu Hlt.
  assert (Hsame : forall n e, t !! n = Some e -> exists l' x, e_data e = BBytes l' /\
    blobs (w_heap w) !! l' = Some x /\ blobs h' !! l' = Some x /\
    contents h' l' = contents (w_heap w) l').
  { intros n e E. pose proof (Hl n e E) as Hlive.
    destruct (e_data e) as [l'|] eqn:Ed; [|done]. destruct Hlive as [x Hx].
    assert (l' < next (w_heap w)) by eauto with go_wf.
    destruct (upd_contents _ _ l p l' x Hwf Hu Hx ltac:(lia)) as [Hx' Hc];
      [by apply (Hp n e l' x)|]. by exists l', x. }
  split.
  - split; simpl; [done|done|by apply (upd_idle (w_heap w) _ l p)|..].
    + intros n e E. destruct (Hsame n e E) as (l' & x & -> & _ & Hx & _). by eexists.
    + intros n1 n2 e1 e2 Hn E1 E2. pose proof (Ha n1 n2 e1 e2 Hn E1 E2) as Hap.
      destruct (Hsame n1 e1 E1) as (l1 & x1 & D1 & X1 & X1' & _).
      destruct (Hsame n2 e2 E2) as (l2 & x2 & D2 & X2 & X2' & _).
      rewrite D1, D2 in *. destruct Hap as [Hne Hap]. split; [done|].
      intros y1 y2. rewrite X1', X2'. intros [= <-] [= <-]. by apply Hap.
  - apply map_eq. intros k. rewrite !view_lookup. destruct (t !! k) as [e|] eqn:E; [|done].
    destruct (Hsame k e E) as (l' & x & D & _ & _ & Hc). simpl. unfold to_node. rewrite D.
    simpl. by rewrite Hc.
Qed.

Lemma fs_at_heap w t h' :
  fs_at w t -> wf_heap h' -> ext (w_heap w) h' ->
  fs_at (set_heap h' w) t /\ view h' t = view (w_heap w) t.
Proof.
  intros Hat Hwf' He. exact (fs_at_ext w t (w_store w) h' Hat Hwf' He (at_holds w t Hat)).
Qed.
Lemma handle_of_ext w name e fd h' :
  wf_heap (w_heap w) -> live (w_heap w) (e_data e) -> ext (w_heap w) h' ->
  handle_of w name e fd -> handle_of (set_heap h' w) name e fd.
Proof.
  intros Hwf Hl He [Hf Hs]. split; [done|]. simpl.
  unfold sized, blob_len in *. by rewrite (blob_bytes_ext (w_heap w) h').
Qed.

(** *** Reading *)
Lemma ReadBlobAt_at w t name e fd off fl (len o : Z) :
  fs_at w t -> t !! name = Some e -> handle_of w name e fd ->
  (0 <= o)%Z -> (0 <= len)%Z -> is_int64 (o + len) ->
  let c := blob_bytes (w_heap w) (e_data e) in
  let n := Z.min len (Z.of_nat (length c) - o) in
  exists fd' w', fs_at w' t /\ handle_of w' name e fd' /\ w_now w' = w_now w /\
    view (w_heap w') t = view (w_heap w) t /\ ext (w_heap w) (w_heap w') /\
    if (Z.of_nat (length c) <=? o)%Z then
      ReadBlobAt len o (opened_file fd off fl, w) =
        (Ret (None, 0%Z, Some EOF), (opened_file fd' off fl, w'))
    else
      exists vb, ReadBlobAt len o (opened_file fd off fl, w) =
        (Ret (Some (BBytes vb), n, if (o + n =? Z.of_nat (length c))%Z then Some EOF else None),
         (opened_file fd' off fl, w')) /\
      blob_data (w_heap w') (BBytes vb) (take (Z.to_nat n) (drop (Z.to_nat o) c)).
Proof.
  intros Hat Et Ho Ho0 Hl0 Hi64 c n. unfold ReadBlobAt.
  destruct (f_Size_run w t name e fd off fl Hat Et Ho) as (fd1 & E1 & Ho1 & _).
  assert (Hlen : blob_len (w_heap w) (e_data e) = Z.of_nat (length c)) by done.
  rewrite Hlen in E1.
  destruct (Z.leb_spec (Z.of_nat (length c)) o) as [Hle|Hgt].
  { exists fd1, w. split_and!; [done..|by apply ext_refl, Hat|]. run E1.
    destruct (Z.leb_spec (Z.of_nat (length c)) o); [done|lia]. }
  destruct (f_Size_run w t name e fd1 off fl Hat Et Ho1) as (fd2 & E2 & Ho2 & _).
  rewrite Hlen in E2.
  destruct (f_Data_run w name e fd2 off fl Ho2) as (fd3 & E3 & Ho3 & Hl3).
  pose proof (at_wf w t Hat) as Hwf. pose proof (at_live w t Hat name e Et) as Hlive.
  destruct (live_blob (w_heap w) (e_data e) Hwf (at_idle w t Hat) Hlive)
    as (l & b & Ed & Hub & Hbb & Hlb).
  unfold blob_len in Hlb. fold c in Hbb, Hlb.
  assert (Hn : (n = (if Z.of_nat (length c) <? o + len then Z.of_nat (length c) else o + len) - o)%Z).
  { unfold n. destruct (Z.ltb_spec (Z.of_nat (length c)) (o + len)); lia. }
  destruct (Bytes_View_spec (w_heap w) l b o (o + n)) as (vb & h' & E4 & Hwf' & He & Hv & Harr & Hvb);
    [done|done|lia|lia|].
  exists fd3, (set_heap h' w). destruct (fs_at_heap w t h' Hat Hwf' He) as [Hat' Hview].
  split_and!; [done|by apply handle_of_ext|done|done|done|]. exists vb. split.
  - run E1. destruct (Z.leb_spec (Z.of_nat (length c)) o); [lia|]. run E2. run E3.
    rewrite add64_id by done. cbv zeta.
    replace (if Z.of_nat (length c) <? o + len then Z.of_nat (length c) else o + len)%Z
      with (o + n)%Z by lia.
    assert (E4' : View (e_data e) o (o + n) (w_heap w) = (Ret (Some (BBytes vb), None), h'))
      by by rewrite Ed.
    run (on_blob_run (fun d => View d o (o + n)) (e_data e) (opened_file fd3 off fl) w _ h' E4').
    assert (E5 : Blob_Len (BBytes vb) (w_heap (set_heap h' w)) = (Ret n, h')).
    { simpl. rewrite (Bytes_Len_eq h' vb _ Hvb). simpl. do 2 f_equal. lia. }
    run (on_blob_run Blob_Len (BBytes vb) (opened_file fd3 off fl) (set_heap h' w) _ h' E5).
    rewrite add64_id by int64. by destruct (o + n =? Z.of_nat (length c))%Z.
  - eexists. split.
    + split; [exact Hvb|]. simpl. rewrite (ext_mutexes _ _ He) by (destruct Hub; eauto with go_wf).
      apply Hub.
    + unfold read_slice. simpl. replace (o + n - o)%Z with n by lia.
      assert (Hrb : read_slice h' (bytes b) = c).
      { rewrite Hbb. apply read_slice_eq; [done|apply (wf_blobs _ Hwf l b), Hub|].
        intros. by rewrite Harr. }
      rewrite <- Hrb. unfold read_slice. rewrite skipn_firstn_comm, drop_drop, take_take.
      f_equal. destruct (wf_blobs _ Hwf l b (proj1 Hub)) as [_ Hlb2 _]. lia.
Qed.
End heap.
