(* ===== verification/FileIO.v ===== *)
(** * Reading and writing through buffers, seeking, and opening files

    The [io.Reader]/[io.Writer] methods of a file with the caller's buffers,
    [Seek], and the refinement of [OpenFile]. *)
From S2P Require Import Prelude.
From S2P Require Import Paths.
From S2P Require Import Errors.
From S2P Require Import Modes.
From S2P Require Import Blob.
From S2P Require Import BlobSpec.
From S2P Require Import Record.
From S2P Require Import Txn.
From S2P Require Import KVFile.
From S2P Require Import KVFS.
From S2P Require Import StoreSpec.
From S2P Require Import FSSpec.
From S2P Require Import TreeFS.
From S2P Require Import TreeOps.
From S2P Require Import FileSpec.

Local Open Scope string_scope.

Section io.
Context {ST R T : Type} `{!RecordOps ST R, !Store ST R T, !GoRuntime, !LawfulStore ST R T}.
Notation W := (world ST).
Implicit Types (w : W) (t : tree) (v : nodes).

(** How many bytes a read of [len] bytes at [o] gets, and how it ends. *)
Definition read_count (c : list byte) (len o : Z) : Z :=
  Z.max 0 (Z.min len (Z.of_nat (length c) - o)).
Definition read_err (c : list byte) (len o : Z) : err :=
  if (Z.of_nat (length c) <=? o + read_count c len o)%Z then Some EOF else None.

Lemma view_bytes h h' t name e :
  view h' t = view h t -> t !! name = Some e ->
  blob_bytes h' (e_data e) = blob_bytes h (e_data e).
Proof.
  intros Hv Et. apply (f_equal (fun v : nodes => v !! name)) in Hv.
  rewrite !view_lookup, Et in Hv. by injection Hv.
Qed.

Lemma ReadAt_at w t name e fd off fl p (o : Z) :
  fs_at w t -> t !! name = Some e -> handle_of w name e fd ->
  private (w_heap w) t p -> (0 <= o)%Z -> is_int64 (o + Z.of_nat (s_len p)) ->
  let c := blob_bytes (w_heap w) (e_data e) in
  let n := read_count c (Z.of_nat (s_len p)) o in
  exists fd' w',
    ReadAt p o (opened_file fd off fl, w) =
      (Ret (n, read_err c (Z.of_nat (s_len p)) o), (opened_file fd' off fl, w')) /\
    fs_at w' t /\ handle_of w' name e fd' /\ w_now w' = w_now w /\
    view (w_heap w') t = view (w_heap w) t /\ wf_slice (w_heap w') p /\
    read_slice (w_heap w') p =
      (take (Z.to_nat n) (drop (Z.to_nat o) c) ++
       drop (Z.to_nat n) (read_slice (w_heap w) p))%list.
Proof.
  intros Hat Et Ho Hp Ho0 Hi64 c n. pose proof (at_wf w t Hat) as Hwf.
  destruct (ReadBlobAt_at w t name e fd off fl (Z.of_nat (s_len p)) o Hat Et Ho Ho0 ltac:(lia) Hi64)
    as (fd1 & w1 & Hat1 & Ho1 & Hn1 & Hv1 & He1 & Hr). fold c in Hr.
  pose proof Hp as [Hwp _].
  assert (Hwp1 : wf_slice (w_heap w1) p) by by apply (wf_slice_ext (w_heap w)).
  assert (Hold : read_slice (w_heap w1) p = read_slice (w_heap w) p).
  { apply read_slice_eq; [done..|]. intros. by rewrite (ext_arrays _ _ He1). }
  unfold read_err. fold n.
  destruct (Z.leb_spec (Z.of_nat (length c)) o) as [Hle|Hgt].
  { assert (n = 0%Z) as Hn0 by (unfold n, read_count; lia). rewrite Hn0, Z.add_0_r.
    exists fd1, w1. split_and!; try done. unfold ReadAt. run Hr.
    by destruct (Z.leb_spec (Z.of_nat (length c)) o); [|lia]. }
  destruct Hr as (vb & Hr & Hd).
  replace (Z.min (Z.of_nat (s_len p)) (Z.of_nat (length c) - o)) with n in Hr, Hd
    by (unfold n, read_count; lia).
  set (data := take (Z.to_nat n) (drop (Z.to_nat o) c)) in *.
  assert (Hld : length data = Z.to_nat n).
  { unfold data, n, read_count. rewrite length_take, length_drop. lia. }
  pose proof (at_wf w1 t Hat1) as Hwf1.
  destruct (Blob_Bytes_spec (w_heap w1) (BBytes vb) data Hwf1 Hd)
    as (sl & h2 & E2 & Hwf2 & He2 & Hsl & Hfr & Hrd).
  destruct (fs_at_heap w1 t h2 Hat1 Hwf2 He2) as [Hat2 Hv2].
  assert (Hwp2 : wf_slice h2 p) by by apply (wf_slice_ext (w_heap w1)).
  destruct (copy_slice_spec h2 p sl Hwp2) as (h3 & E3 & Hb3 & Hm3 & Hn3 & Ha3 & Hs3).
  destruct (safe_run _ _ _ _ _ (safe_copy_slice h2 p sl Hwf2 Hwp2) E3) as [Hwf3 Hg3].
  assert (Hu : upd h2 h3 (next h2) p).
  { split; [by rewrite Hn3|by rewrite Hb3| |by rewrite Hm3|].
    - intros a' Ha' _. apply Ha3. destruct Ha'; [by left|right; destruct Hwp2; lia].
    - intros m x Hm. rewrite Hm3. intros Hx. pose proof (mutex_lt h2 m x Hwf2 Hx). lia. }
  assert (Hp2 : private h2 t p).
  { apply (private_ext w1 h2 t p Hat1 He2 Hwp2). by apply (private_ext w _ t p Hat He1). }
  destruct (fs_at_private (set_heap h2 w1) t h3 p (next h2) Hat2 Hp2 Hwf3 Hu ltac:(done))
    as [Hat3 Hv3].
  assert (Ho3 : handle_of (set_heap h3 w1) name e fd1).
  { destruct Ho1 as [Hf1 Hs1]. split; [done|]. unfold sized, blob_len in *. simpl.
    assert (blob_bytes h3 (e_data e) = blob_bytes (w_heap w1) (e_data e)) as ->; [|done].
    rewrite (view_bytes _ _ t name e Hv3 Et). by apply (view_bytes _ _ t name e Hv2). }
  exists fd1, (set_heap h3 w1). split_and!; [|done|done|done| | |].
  - unfold ReadAt. run Hr. erewrite bind_Ret; [|apply in_world_run; unfold in_heap, zoom;
      rewrite E2; reflexivity].
    erewrite bind_Ret; [|apply in_world_run; unfold in_heap, zoom; cbn [w_heap set_heap];
      rewrite E3; reflexivity].
    unfold ret. do 3 f_equal. f_equal.
    destruct (Z.eqb_spec (o + n) (Z.of_nat (length c))) as [Heq|Hne];
      destruct (Z.leb_spec (Z.of_nat (length c)) (o + n)); try done; unfold n, read_count in *; lia.
  - simpl in *. by rewrite Hv3, Hv2.
  - simpl. eapply wf_slice_grows; [exact Hg3|done].
  - simpl. unfold read_slice at 1. rewrite Hs3, Hrd. replace (s_off p) with (s_off p + 0) at 2 by lia.
    destruct Hwp2 as [Hp1' Hp2']. rewrite window_splice by (rewrite ?length_take; lia).
    fold (read_slice h2 p).
    assert (read_slice h2 p = read_slice (w_heap w) p) as ->.
    { rewrite <- Hold. apply read_slice_eq; [done..|]. intros. by rewrite (ext_arrays _ _ He2). }
    unfold splice. simpl. rewrite take_ge by (rewrite Hld; unfold n, read_count; lia).
    by rewrite Hld.
Qed.

(** [Read] goes on from the offset of the file. *)
Lemma Read_at w t name e fd off fl p :
  fs_at w t -> t !! name = Some e -> handle_of w name e fd ->
  private (w_heap w) t p -> (0 <= off)%Z -> is_int64 (off + Z.of_nat (s_len p)) ->
  let c := blob_bytes (w_heap w) (e_data e) in
  let n := read_count c (Z.of_nat (s_len p)) off in
  exists fd' w',
    Read p (opened_file fd off fl, w) =
      (Ret (n, read_err c (Z.of_nat (s_len p)) off), (opened_file fd' (off + n) fl, w')) /\
    fs_at w' t /\ handle_of w' name e fd' /\ w_now w' = w_now w /\
    view (w_heap w') t = view (w_heap w) t /\ wf_slice (w_heap w') p /\
    read_slice (w_heap w') p =
      (take (Z.to_nat n) (drop (Z.to_nat off) c) ++
       drop (Z.to_nat n) (read_slice (w_heap w) p))%list.
Proof.
  intros Hat Et Ho Hp Ho0 Hi64 c n.
  destruct (ReadAt_at w t name e fd off fl p off Hat Et Ho Hp Ho0 Hi64)
    as (fd' & w' & E & Hat' & Ho' & Hn & Hv & Hw & Hr).
  exists fd', w'. split_and!; try done. unfold Read, get_offset. rewrite bind_gets.
  cbn [opened_file offset fst]. run E. fold c n. rewrite bind_gets. cbn [opened_file offset fst].
  rewrite add64_id by (unfold n, read_count; int64). done.
Qed.

(** *** Writing from a buffer *)
Lemma source_NewBytes w t p :
  fs_at w t -> private (w_heap w) t p ->
  exists l h', in_heap (NewBytes p) w = (Ret l, set_heap h' w) /\
    wf_heap h' /\ ext (w_heap w) h' /\
    forall name e l0, t !! name = Some e -> e_data e = BBytes l0 ->
      source_for h' l0 (BBytes l) (read_slice (w_heap w) p).
Proof.
  intros Hat [Hwp Hpr]. pose proof (at_wf w t Hat) as Hwf.
  destruct (NewBytes_spec (w_heap w) p Hwf Hwp) as (l & h' & E & Hwf' & He & Hb & Hm & Hl & Ha).
  exists l, h'. split_and!; [by unfold in_heap, zoom; rewrite E|done..|].
  intros name e l0 Et Ed. pose proof (at_live w t Hat name e Et) as Hlive. rewrite Ed in Hlive.
  destruct (ext_contents _ h' l0 Hwf He Hlive) as [Hb0 _]. destruct Hlive as [x Hx].
  eexists. split_and!; [split; [exact Hb|exact Hm]|..].
  - simpl. symmetry. apply read_slice_eq; [done..|]. intros. by rewrite Ha.
  - split.
    + intros ->. pose proof (blob_lt _ _ _ Hwf Hx). lia.
    + intros x1 x2. rewrite Hb0, Hb, Hx. intros [= <-] [= <-]. simpl.
      destruct (Hpr name e l0 x Et Ed Hx) as [?|[?|?]]; auto.
  - intros b. rewrite Hb0, Hx. intros [= <-]. simpl.
    destruct (wf_mu _ _ (wf_blobs _ Hwf l0 x Hx)) as [y Hy].
    pose proof (mutex_lt _ _ _ Hwf Hy). lia.
Qed.

Lemma write_buffer_at op w t name e fd off fl p (o0 : Z) :
  fs_at w t -> t !! name = Some e -> handle_of w name e fd ->
  private (w_heap w) t p -> w_now w <> 0%Z ->
  let c := blob_bytes (w_heap w) (e_data e) in
  let data := read_slice (w_heap w) p in
  let o := if has_flag fl FlagAppend then Z.of_nat (length c) else o0 in
  (0 <= o0)%Z -> is_int64 (o + Z.of_nat (length data)) ->
  let mtime := if bool_decide (data = []) then e_modTime e else w_now w in
  let e' := MkEntry (e_data e) (e_mode e) mtime in
  exists lp h' fd' w',
    in_heap (NewBytes p) w = (Ret lp, set_heap h' w) /\
    writeBlobAt op (BBytes lp) o0 (opened_file fd off fl, set_heap h' w) =
      (Ret (Z.of_nat (length data), None), (opened_file fd' off fl, w')) /\
    fs_at w' (<[name := e']> t) /\ handle_of w' name e' fd' /\ w_now w' = w_now w /\
    view (w_heap w') (<[name := e']> t) =
      <[name := MkNode (e_mode e) mtime (write_at c (Z.to_nat o) data)]> (view (w_heap w) t).
Proof.
  intros Hat Et Ho Hp Hnow c data o Ho0 Hi2 mtime e'.
  pose proof (at_wf w t Hat) as Hwf. pose proof (at_live w t Hat name e Et) as Hlive.
  destruct (source_NewBytes w t p Hat Hp) as (lp & h' & E & Hwf' & He & Hsrc).
  destruct (fs_at_heap w t h' Hat Hwf' He) as [Hat' Hv'].
  destruct (e_data e) as [l|] eqn:Ed; [|done].
  assert (Hc : blob_bytes h' (e_data e) = c).
  { unfold c. rewrite Ed. by apply (blob_bytes_ext (w_heap w)). }
  destruct (writeBlobAt_at op (set_heap h' w) t name e fd off fl (BBytes lp) data o0 l)
    as (fd' & w' & E2 & Hat2 & Ho2 & Hn2 & Hv2);
    [done|done|by apply handle_of_ext; [..|rewrite Ed| |]|done|by apply (Hsrc name e)|done|..].
  { cbn [w_heap set_heap]. rewrite Hc. unfold o. by destruct (has_flag fl FlagAppend); [lia|]. }
  { cbn [w_heap set_heap]. by rewrite Hc. }
  cbn [w_heap w_now set_heap] in E2, Hat2, Ho2, Hv2. rewrite Hc in Hv2.
  exists lp, h', fd', w'. unfold e', mtime. rewrite <- Ed.
  split_and!; [done|done|done|done|by rewrite Hn2|]. rewrite Hv2, Hv'. done.
Qed.

Lemma Write_at w t name e fd off fl p :
  fs_at w t -> t !! name = Some e -> handle_of w name e fd ->
  private (w_heap w) t p -> w_now w <> 0%Z ->
  let c := blob_bytes (w_heap w) (e_data e) in
  let data := read_slice (w_heap w) p in
  let o := if has_flag fl FlagAppend then Z.of_nat (length c) else off in
  (0 <= off)%Z -> is_int64 (off + Z.of_nat (length data)) ->
  is_int64 (o + Z.of_nat (length data)) ->
  let mtime := if bool_decide (data = []) then e_modTime e else w_now w in
  let e' := MkEntry (e_data e) (e_mode e) mtime in
  exists fd' w',
    Write p (opened_file fd off fl, w) =
      (Ret (Z.of_nat (length data), None),
       (opened_file fd' (off + Z.of_nat (length data)) fl, w')) /\
    fs_at w' (<[name := e']> t) /\ handle_of w' name e' fd' /\ w_now w' = w_now w /\
    view (w_heap w') (<[name := e']> t) =
      <[name := MkNode (e_mode e) mtime (write_at c (Z.to_nat o) data)]> (view (w_heap w) t).
Proof.
  intros Hat Et Ho Hp Hnow c data o Ho0 Hi1 Hi2 mtime e'.
  destruct (write_buffer_at "write" w t name e fd off fl p off Hat Et Ho Hp Hnow Ho0 Hi2)
    as (lp & h' & fd' & w' & E & E2 & Hw). exists fd', w'. split; [|exact Hw].
  unfold Write. erewrite bind_Ret; [|apply in_world_run; exact E].
  unfold WriteBlob, get_offset. rewrite bind_gets. cbn [opened_file offset fst]. run E2.
  rewrite bind_gets. cbn [opened_file offset fst]. by rewrite add64_id.
Qed.

(** The same for [WriteAt], which leaves the offset of the file as it is. *)
Lemma WriteAt_at w t name e fd off fl p (o0 : Z) :
  fs_at w t -> t !! name = Some e -> handle_of w name e fd ->
  private (w_heap w) t p -> w_now w <> 0%Z ->
  let c := blob_bytes (w_heap w) (e_data e) in
  let data := read_slice (w_heap w) p in
  let o := if has_flag fl FlagAppend then Z.of_nat (length c) else o0 in
  (0 <= o0)%Z -> is_int64 (o + Z.of_nat (length data)) ->
  let mtime := if bool_decide (data = []) then e_modTime e else w_now w in
  let e' := MkEntry (e_data e) (e_mode e) mtime in
  exists fd' w',
    WriteAt p o0 (opened_file fd off fl, w) =
      (Ret (Z.of_nat (length data), None), (opened_file fd' off fl, w')) /\
    fs_at w' (<[name := e']> t) /\ handle_of w' name e' fd' /\ w_now w' = w_now w /\
    view (w_heap w') (<[name := e']> t) =
      <[name := MkNode (e_mode e) mtime (write_at c (Z.to_nat o) data)]> (view (w_heap w) t).
Proof.
  intros Hat Et Ho Hp Hnow c data o Ho0 Hi mtime e'.
  destruct (write_buffer_at "writeat" w t name e fd off fl p o0 Hat Et Ho Hp Hnow Ho0 Hi)
    as (lp & h' & fd' & w' & E & E2 & Hw). exists fd', w'. split; [|exact Hw].
  unfold WriteAt. erewrite bind_Ret; [|apply in_world_run; exact E]. exact E2.
Qed.

(** *** [Seek] *)
Lemma Seek_at w t name e fd off fl (o whence : Z) :
  fs_at w t -> t !! name = Some e -> handle_of w name e fd ->
  let base := if (whence =? 0)%Z then Some 0%Z else if (whence =? 1)%Z then Some off
              else if (whence =? 2)%Z then Some (blob_len (w_heap w) (e_data e)) else None in
  (forall b, base = Some b -> is_int64 (b + o)) ->
  exists fd', handle_of w name e fd' /\
    Seek o whence (opened_file fd off fl, w) =
      match base with
      | Some b =>
          if (b + o <? 0)%Z
          then (Ret (0%Z, Some (PathError "seek" name ErrInvalid)), (opened_file fd' off fl, w))
          else (Ret ((b + o)%Z, None), (opened_file fd' (b + o) fl, w))
      | None => (Ret (0%Z, Some (PathError "seek" name ErrInvalid)), (opened_file fd' off fl, w))
      end.
Proof.
  intros Hat Et Ho base Hi64. unfold Seek, get_offset. rewrite bind_gets.
  cbn [opened_file offset fst].
  assert (Hpath : forall fd', handle_of w name e fd' ->
    path_error "seek" ErrInvalid (opened_file fd' off fl, w) =
      (Ret (Some (PathError "seek" name ErrInvalid)), (opened_file fd' off fl, w))).
  { intros fd' [[Hp _ _ _] _]. unfold path_error, f_path, on_data, bind, gets, ret. simpl.
    by rewrite Hp. }
  assert (Hb : exists fd', handle_of w name e fd' /\
    (if (whence =? 0)%Z then ret (Some o)
     else if (whence =? 1)%Z then ret (Some (add64 off o))
     else if (whence =? 2)%Z then size <- f_Size ;; ret (Some (add64 size o))
     else ret None) (opened_file fd off fl, w) =
    (Ret ((fun b => (b + o)%Z) <$> base), (opened_file fd' off fl, w))).
  { unfold base in *. destruct (whence =? 0)%Z; [by exists fd|].
    destruct (whence =? 1)%Z.
    { exists fd. split; [done|]. simpl. rewrite add64_id by by apply Hi64. done. }
    destruct (whence =? 2)%Z; [|by exists fd].
    destruct (f_Size_run w t name e fd off fl Hat Et Ho) as (fd' & E & Ho' & _).
    exists fd'. split; [done|]. run E. rewrite add64_id by by apply Hi64. done. }
  destruct Hb as (fd' & Ho' & Eb). exists fd'. split; [done|]. run Eb.
  destruct base as [b|]; simpl.
  - destruct (b + o <? 0)%Z; [|done]. by run (Hpath fd' Ho').
  - by run (Hpath fd' Ho').
Qed.

(** ** [OpenFile] *)
Lemma record_handle w name e rec :
  is_record name e rec -> handle_of w name e (record_fd name (Some (StoreRecord rec))).
Proof.
  intros Hr. split; [by apply file_of_record|]. right. split_and!; [done..| |by left].
  by exists name, e, rec.
Qed.

Lemma getFiles_run paths w t :
  holds (w_store w) t -> forallb ValidPath paths = true ->
  (Z.of_nat (length paths) < int64_max)%Z ->
  exists rs s, getFiles paths w =
      (Ret (zip_with (fun p r => Some (load_file p (res_Record r))) paths rs, res_Err <$> rs),
       set_store s w) /\
    holds s t /\ results_of t paths rs.
Proof.
  intros Ht Hv Hlen. destruct (getFileRecords_spec paths w t Ht Hlen) as (rs & s & E & Hs & Hrs).
  pose proof (Forall2_length _ _ _ Hrs) as Hl. exists rs, s. split_and!; [|done..].
  unfold getFiles. rewrite Hv. cbn [negb]. run E.
  run (zip_results_run (fun p r => (Some (load_file p (res_Record r)), res_Err r))
         paths rs (set_store s w) Hl).
  unfold ret. do 3 f_equal; clear - Hl; revert rs Hl;
    (induction paths as [|p paths IH]; intros [|r rs] Hl; try done; simpl; f_equal;
     apply IH; simpl in Hl; lia).
Qed.

Lemma getFiles_invalid paths w :
  forallb ValidPath paths = false ->
  exists fs errs, getFiles (T := T) paths w = (Ret (fs, Some ErrInvalid :: errs), w) /\
    length fs = length paths.
Proof.
  intros Hv. unfold getFiles. rewrite Hv. cbn [negb].
  do 2 eexists. split; [reflexivity|]. apply length_replicate.
Qed.

Lemma TruncateFile_run k size (s : file ST R * W) e s' :
  FileTruncate size s = (Ret e, s') -> TruncateFile k size s = (Ret e, s').
Proof.
  intros E. unfold TruncateFile, method_or.
  assert (has_method k MTruncate = true) as -> by by destruct k.
  rewrite bind_assoc. run E. done.
Qed.

Lemma finish_open_at w t name flag e fd :
  fs_at w t -> t !! name = Some e -> handle_of w name e fd ->
  (blob_bytes (w_heap w) (e_data e) <> [] -> w_now w <> 0%Z) ->
  exists h w' t' fd' e',
    finish_open name flag (opened_file fd 0 flag) w =
      (Ret (h, (spec_finish_open (w_now w) name flag (to_node (w_heap w) e)
                  (view (w_heap w) t)).1), w') /\
    fs_at w' t' /\ w_now w' = w_now w /\ t' !! name = Some e' /\ handle_of w' name e' fd' /\
    h = Some (MkHandle (open_kind flag) (opened_file fd' 0 flag)) /\
    view (w_heap w') t' =
      (spec_finish_open (w_now w) name flag (to_node (w_heap w) e) (view (w_heap w) t)).2.
Proof.
  intros Hat Et Ho Hnow. unfold finish_open, spec_finish_open.
  destruct (has_flag flag FlagTruncate).
  2: { do 5 eexists. split_and!; [reflexivity|exact Hat|done|exact Et|exact Ho|done|done]. }
  unfold spec_truncate0. cbn [n_mode n_data to_node].
  destruct (IsDir (e_mode e)) eqn:Hd.
  - destruct (f_Mode_run w name e fd 0 flag Ho) as (fd1 & E1 & Ho1).
    assert (E2 : FileTruncate 0 (opened_file fd 0 flag, w) =
      (Ret (Some (PathError "truncate" name ErrIsDir)), (opened_file fd1 0 flag, w))).
    { unfold FileTruncate. run E1. rewrite Hd. destruct Ho1 as [[Hp _ _ _] _].
      unfold path_error, f_path, on_data, bind, gets, ret. simpl. by rewrite Hp. }
    run (on_var_run _ _ _ _ _ _ (TruncateFile_run (open_kind flag) 0 _ _ _ E2)).
    do 5 eexists. split_and!; [reflexivity|exact Hat|done|exact Et|exact Ho1|done|done].
  - destruct (FileTruncate_at w t name e fd 0 flag 0 Hat Et Ho Hd)
      as (fd1 & w' & E2 & Hat' & Ho' & Hn' & Hv');
      [lia|int64|intros Hc; apply Hnow; intros Hnil; by rewrite Hnil in Hc|].
    run (on_var_run _ _ _ _ _ _ (TruncateFile_run (open_kind flag) 0 _ _ _ E2)).
    do 5 eexists. split_and!; [|exact Hat'|done|apply lookup_insert_eq|exact Ho'|done|].
    + by destruct (blob_bytes (w_heap w) (e_data e)).
    + rewrite Hv'. destruct (blob_bytes (w_heap w) (e_data e)) as [|x c] eqn:Ec; simpl.
      * apply insert_id. rewrite view_lookup, Et. simpl. unfold to_node. by rewrite Ec.
      * done.
Qed.

(** The file is made. *)
Lemma open_new_at name flag mode w t :
  fs_at w t -> ValidPath name = true -> IsDir mode = false ->
  exists fd e w' t', (f <- newFile name flag mode ;;
      let* (e, f) := on_var f f_save in
      match e with
      | Some e => ret (None, wrapperErr "open" name (Some e))
      | None => finish_open name flag f
      end) w = (Ret (Some (MkHandle (open_kind flag) (opened_file fd 0 flag)), None), w') /\
    fs_at w' t' /\ w_now w' = w_now w /\ t' !! name = Some e /\ handle_of w' name e fd /\
    view (w_heap w') t' = <[name := MkNode mode (w_now w) []]> (view (w_heap w) t).
Proof.
  intros Hat Hv Hd. rewrite (bind_Ret _ _ _ _ _ (newFile_run name flag mode w)).
  destruct (save_new_at name flag mode w t Hat Hv) as (fd & s2 & h2 & E2 & Hat2 & Hv2 & Hf2 & Hl2 & base & Hb2).
  run E2. set (w2 := set_store s2 (set_heap h2 w)) in *.
  set (e2 := MkEntry (BBytes (next (w_heap w))) mode (w_now w)) in *.
  assert (Ho2 : handle_of w2 name e2 fd).
  { split; [done|]. left. split; [done|]. left. by exists base. }
  assert (Et2 : <[name := e2]> t !! name = Some e2) by apply lookup_insert_eq.
  assert (Hc2 : blob_bytes (w_heap w2) (e_data e2) = []).
  { apply (f_equal (fun v : nodes => v !! name)) in Hv2.
    rewrite view_lookup, Et2, lookup_insert_eq in Hv2. by injection Hv2. }
  destruct (finish_open_at w2 _ name flag e2 fd Hat2 Et2 Ho2)
    as (h & w' & t' & fd' & e' & E3 & Hat' & Hn' & Et' & Ho' & -> & Hv'); [done|].
  assert (Hspec : spec_finish_open (w_now w2) name flag (to_node (w_heap w2) e2)
             (view (w_heap w2) (<[name := e2]> t)) = (None, view (w_heap w2) (<[name := e2]> t))).
  { unfold spec_finish_open, spec_truncate0. cbn [n_mode n_data to_node].
    simpl e_mode. rewrite Hd, Hc2. by destruct (has_flag flag FlagTruncate). }
  rewrite Hspec in E3, Hv'. exists fd', e', w', t'. split_and!; [exact E3|done..|]. rewrite Hv'. exact Hv2.
Qed.

Lemma OpenFile_at name flag perm w t :
  fs_at w t -> (is_Some (t !! name) -> w_now w <> 0%Z) ->
  exists h w' t',
    OpenFile name flag perm w =
      (Ret (h, (spec_OpenFile missing_err (w_now w) name flag perm (view (w_heap w) t)).1), w') /\
    fs_at w' t' /\ w_now w' = w_now w /\
    view (w_heap w') t' =
      (spec_OpenFile missing_err (w_now w) name flag perm (view (w_heap w) t)).2 /\
    ((spec_OpenFile missing_err (w_now w) name flag perm (view (w_heap w) t)).1 = None ->
     exists fd e, t' !! name = Some e /\ handle_of w' name e fd /\
       h = Some (MkHandle (open_kind flag) (opened_file fd 0 flag))).
Proof.
  intros Hat Hnow. unfold OpenFile, spec_OpenFile, spec_get.
  set (create := has_flag flag FlagCreate).
  destruct (ValidPath name) eqn:Hv.
  2: { destruct (getFiles_invalid (if create then [name; Dir name] else [name]) w)
         as (fs & errs & E & Hl); [destruct create; simpl; by rewrite Hv|].
       run E. exists None, w, t. destruct fs as [|f fs]; [by destruct create|].
       split_and!; done. }
  destruct (getFiles_run (if create then [name; Dir name] else [name]) w t (at_holds w t Hat))
    as (rs & s & E & Hs & Hrs).
  { destruct create; simpl; by rewrite Hv, ?Dir_valid. }
  { destruct create; simpl; unfold int64_max; lia. }
  run E. set (w1 := set_store s w) in *. assert (Hat1 : fs_at w1 t) by by apply fs_at_store.
  assert (Hr0 : exists r rs', rs = r :: rs' /\ is_result is_record missing_err t name r /\
    (create = true -> exists r' , rs' = [r'] /\ is_result is_record missing_err t (Dir name) r')).
  { destruct create.
    - apply Forall2_cons_inv_l in Hrs as (r & rs' & Hr & Hrs & ->).
      apply Forall2_cons_inv_l in Hrs as (r' & rs'' & Hr' & Hrs & ->).
      apply Forall2_nil_inv_l in Hrs as ->. exists r, [r']. split_and!; [done..|]. by exists r'.
    - apply Forall2_cons_inv_l in Hrs as (r & rs' & Hr & Hrs & ->). by exists r, rs'. }
  destruct Hr0 as (r & rs' & -> & Hr & Hparent).
  assert (Hf0 : exists fs, zip_with (fun p r => Some (load_file p (res_Record r)))
                  (if create then [name; Dir name] else [name]) (r :: rs') =
                  Some (load_file name (res_Record r)) :: fs)
    by (destruct create; by eexists).
  destruct Hf0 as [fs ->]. cbn [fmap list_fmap]. unfold is_result in Hr.
  rewrite view_lookup. destruct (t !! name) as [e|] eqn:Et; simpl.
  - (* the file is there *)
    destruct Hr as (rec & -> & -> & Hrec).
    destruct (f_Mode_run w1 name e (record_fd name (Some (StoreRecord rec))) 0 0
                (record_handle w1 name e rec Hrec)) as (fd & E1 & Ho1).
    run (on_var_run _ _ _ _ _ _ E1). cbn [fileData_ offset].
    destruct (IsDir (e_mode e) && has_flag flag (Z.lor FlagCreate FlagWriteOnly)).
    { exists None, w1, t. split_and!; done. }
    destruct (finish_open_at w1 t name flag e fd Hat1 Et Ho1 (fun _ => Hnow (ltac:(by exists e))))
      as (h & w' & t' & fd' & e' & E2 & Hat' & Hn' & Et' & Ho' & -> & Hv').
    exists (Some (MkHandle (open_kind flag) (opened_file fd' 0 flag))), w', t'.
    split_and!; [exact E2|done|done|exact Hv'|]. intros _. by exists fd', e'.
  - destruct Hr as [_ ->]. rewrite law_missing. cbn [andb].
    destruct create eqn:Hcr; cbn [andb].
    2: { exists None, w1, t. split_and!; done. }
    destruct (Hparent eq_refl) as (r' & -> & Hr'). simpl. unfold is_result in Hr'.
    rewrite view_lookup. destruct (t !! Dir name) as [ep|]; simpl.
    2: { destruct Hr' as [_ ->]. exists None, w1, t. split_and!; done. }
    destruct Hr' as (rec & _ & -> & _).
    destruct (open_new_at name flag (Z.land perm ModePerm) w1 t Hat1 Hv (IsDir_perm perm))
      as (fd & e & w' & t' & E2 & Hat' & Hn' & Et' & Ho' & Hv').
    exists (Some (MkHandle (open_kind flag) (opened_file fd 0 flag))), w', t'.
    split_and!; [exact E2|done|done|exact Hv'|]. intros _. by exists fd, e.
Qed.
End io.
