(* ===== verification/TreeRename.v ===== *)
(** * Renaming directories

    [Rename] of a directory walks the tree: it stores the directory under the
    new name, renames the children one by one, and deletes the old name.  This
    file shows that the walk moves exactly the subtree, and that its fuel, the
    height of the subtree, is enough. *)
From S2P Require Import Prelude.
From S2P Require Import Paths.
From S2P Require Import Errors.
From S2P Require Import Modes.
From S2P Require Import Blob.
From S2P Require Import BlobSpec.
From S2P Require Import Record.
From S2P Require Import Txn.
From S2P Require Import KVFile.
From S2P Require Import KVFS.
From S2P Require Import StoreSpec.
From S2P Require Import FSSpec.
From S2P Require Import TreeFS.
From S2P Require Import TreeOps.

Local Open Scope string_scope.

(** ** Paths below a path *)
Definition below (p k : string) : Prop := exists r, elems k = (elems p ++ r)%list.
#[export] Instance below_dec p k : Decision (below p k).
Proof.
  refine (cast_if (decide (elems p `prefix_of` elems k))); done.
Defined.

Definition path_at (p : string) (r : list string) : string := of_elems (elems p ++ r)%list.

(** What is left of a path below [p]. *)
Definition rest (p k : string) : list string := drop (length (elems p)) (elems k).

Section paths.
Implicit Types (p k : string) (r : list string).

Lemma elems_path_at p r :
  ValidPath p = true -> good_elems r -> elems (path_at p r) = (elems p ++ r)%list.
Proof.
  intros [Hg _]%ValidPath_elems Hr. apply elems_of_elems. by apply Forall_app.
Qed.
Lemma path_at_valid p r : ValidPath p = true -> good_elems r -> ValidPath (path_at p r) = true.
Proof.
  intros [Hg _]%ValidPath_elems Hr. apply ValidPath_of_elems. by apply Forall_app.
Qed.
Lemma path_at_nil p : ValidPath p = true -> path_at p [] = p.
Proof. intros [_ H]%ValidPath_elems. unfold path_at. by rewrite app_nil_r. Qed.
Lemma path_at_Join p x r :
  ValidPath p = true -> good_elem x = true ->
  path_at (Join [p; x]) r = path_at p (x :: r).
Proof. intros Hp Hx. unfold path_at. by rewrite elems_Join, <- app_assoc. Qed.
Lemma below_rest p k :
  ValidPath k = true -> below p k -> k = path_at p (rest p k) /\ good_elems (rest p k).
Proof.
  intros Hk [r E]. unfold rest, path_at. rewrite E, drop_app_length.
  destruct (ValidPath_elems k Hk) as [Hg He]. rewrite E in *.
  split; [done|]. by apply Forall_app in Hg as [_ ?].
Qed.
Lemma below_path_at p r : ValidPath p = true -> good_elems r -> below p (path_at p r).
Proof. intros Hp Hr. exists r. by apply elems_path_at. Qed.
Lemma rest_path_at p r : ValidPath p = true -> good_elems r -> rest p (path_at p r) = r.
Proof. intros Hp Hr. unfold rest. rewrite elems_path_at by done. apply drop_app_length. Qed.
End paths.

(** ** Moving a subtree *)
Section move.
Context {A : Type}.
Implicit Types (t : gmap string A) (old new k : string) (r : list string).

(** [t'] is [t] with the subtree at [old] moved to [new]. *)
Definition moved_tree (old new : string) t t' : Prop :=
  (forall k a, t' !! k = Some a -> ValidPath k = true) /\
  forall k, ValidPath k = true ->
    t' !! k = if decide (below new k) then t !! path_at old (rest new k)
              else if decide (below old k) then None else t !! k.

(** What the walk needs: every path below [old] that is there hangs on
    directories up to [old]; nothing is at or below [new]; neither is below
    the other; and the subtree has at most [height] levels. *)
Record movable (is_dir : A -> bool) (height : nat) (old new : string) t : Prop := {
  mv_old : ValidPath old = true;
  mv_new : ValidPath new = true;
  mv_keys k a : t !! k = Some a -> ValidPath k = true;
  mv_there : is_Some (t !! old);
  mv_closed r x : good_elems (r ++ [x])%list -> is_Some (t !! path_at old (r ++ [x])%list) ->
    exists a, t !! path_at old r = Some a /\ is_dir a = true;
  mv_free k : below new k -> t !! k = None;
  mv_apart : ~ below old new;
  mv_height r : good_elems r -> is_Some (t !! path_at old r) -> length r < height
}.

Lemma not_below_both old new k :
  ~ below old new -> ~ below new old -> below old k -> below new k -> False.
Proof.
  intros H1 H2 [r Er] [r' Er']. rewrite Er in Er'.
  destruct (le_lt_dec (length (elems old)) (length (elems new))) as [Hl|Hl].
  - apply H1. apply (f_equal (take (length (elems new)))) in Er'.
    rewrite take_app_length, take_app_ge in Er' by done. by eexists.
  - apply H2. apply (f_equal (take (length (elems old)))) in Er'.
    rewrite take_app_length, take_app_ge in Er' by lia. by eexists.
Qed.
Lemma movable_apart is_dir height old new t : movable is_dir height old new t -> ~ below new old.
Proof. intros [] Hb. rewrite (mv_free0 old Hb) in mv_there0. by destruct mv_there0. Qed.

(** The tree in the middle of the walk: the directory itself is copied, and
    the subtrees of the children in [done] are moved. *)
Definition part_moved (old new : string) (done : list string) t t' : Prop :=
  (forall k a, t' !! k = Some a -> ValidPath k = true) /\
  forall k, ValidPath k = true ->
    t' !! k =
      if decide (below new k) then
        match rest new k with
        | [] => t !! old
        | x :: r => if decide (x ∈ done) then t !! path_at old (x :: r) else None
        end
      else if decide (below old k) then
        match rest old k with
        | x :: r => if decide (x ∈ done) then None else t !! k
        | [] => t !! k
        end
      else t !! k.

Lemma part_moved_start is_dir height old new t a :
  movable is_dir height old new t -> t !! old = Some a ->
  part_moved old new [] t (<[new := a]> t).
Proof.
  intros Hm Ha. pose proof (mv_new _ _ _ _ _ Hm) as Hvn. split.
  - intros k a' [[<- _]|[_ E]]%lookup_insert_Some; [done|by apply (mv_keys _ _ _ _ _ Hm k a')].
  - intros k Hk. destruct (decide (below new k)) as [Hb|Hb].
    + destruct (below_rest new k Hk Hb) as [E Hg].
      destruct (rest new k) as [|x r] eqn:Er.
      * rewrite path_at_nil in E by done. subst k. by rewrite lookup_insert_eq.
      * rewrite decide_False by apply not_elem_of_nil.
        rewrite lookup_insert_ne; [by apply (mv_free _ _ _ _ _ Hm)|].
        intros <-. unfold rest in Er. by rewrite drop_all in Er.
    + rewrite lookup_insert_ne.
      2: { intros <-. apply Hb. exists []. by rewrite app_nil_r. }
      destruct (decide (below old k)); [|done]. destruct (rest old k); [done|].
      by rewrite decide_False by apply not_elem_of_nil.
Qed.

Lemma below_Join p x k :
  ValidPath p = true -> good_elem x = true ->
  below (Join [p; x]) k <-> below p k /\ exists r, rest p k = x :: r.
Proof.
  intros Hp Hx. unfold below, rest. rewrite elems_Join by done. split.
  - intros [r E]. rewrite <- app_assoc in E. rewrite E, drop_app_length. split; [by eexists|].
    by exists r.
  - intros [[r E] [r' E']]. rewrite E, drop_app_length in E'. subst r. exists r'.
    by rewrite E, <- app_assoc.
Qed.
Lemma rest_Join p x k r :
  ValidPath p = true -> good_elem x = true -> rest p k = x :: r -> rest (Join [p; x]) k = r.
Proof.
  unfold rest. intros Hp Hx E. rewrite elems_Join, length_app by done. simpl.
  by rewrite <- drop_drop, E.
Qed.
Lemma below_self p : below p p.
Proof. exists []. by rewrite app_nil_r. Qed.
Lemma rest_self p : rest p p = [].
Proof. unfold rest. apply drop_all. Qed.

Section step.
Context (is_dir : A -> bool) (height : nat) (old new : string) (t t1 : gmap string A)
  (done : list string) (x : string).
Context (Hm : movable is_dir (S height) old new t) (Hp : part_moved old new done t t1)
  (Hx : good_elem x = true) (Hnew : x ∉ done) (Hthere : is_Some (t !! path_at old [x])).

Lemma step_old r : good_elems r -> t1 !! path_at old (x :: r) = t !! path_at old (x :: r).
Proof using Hm Hp Hx Hnew.
  intros Hr. assert (Hg : good_elems (x :: r)) by by apply Forall_cons.
  pose proof (mv_old _ _ _ _ _ Hm) as Hvo.
  pose proof (path_at_valid old (x :: r) Hvo Hg) as Hv.
  pose proof (below_path_at old (x :: r) Hvo Hg) as Hb.
  rewrite (proj2 Hp _ Hv). rewrite decide_False.
  2: { intros Hb'. apply (not_below_both old new (path_at old (x :: r)));
         [apply Hm|by apply (movable_apart _ _ _ _ _ Hm)|done..]. }
  rewrite decide_True, rest_path_at by done. by rewrite decide_False.
Qed.
Lemma step_new k : ValidPath k = true -> below (Join [new; x]) k -> t1 !! k = None.
Proof using Hm Hp Hx Hnew.
  intros Hk [Hb [r Er]]%below_Join; [|apply Hm|done].
  rewrite (proj2 Hp _ Hk), decide_True, Er by done. by rewrite decide_False.
Qed.

Lemma step_movable : movable is_dir height (Join [old; x]) (Join [new; x]) t1.
Proof using All.
  pose proof (mv_old _ _ _ _ _ Hm) as Hvo. pose proof (mv_new _ _ _ _ _ Hm) as Hvn.
  split.
  - by apply Join_valid.
  - by apply Join_valid.
  - apply (proj1 Hp).
  - rewrite Join_snoc by done. change (of_elems _) with (path_at old [x]).
    rewrite step_old by constructor. done.
  - intros r y Hg. rewrite !path_at_Join by done.
    assert (Hg' := Hg). apply Forall_app in Hg' as [Hgr _].
    rewrite !step_old by done.
    apply (mv_closed _ _ _ _ _ Hm (x :: r) y). by apply Forall_cons.
  - intros k Hb. destruct (ValidPath k) eqn:Hk; [by apply step_new|].
    destruct (t1 !! k) as [a|] eqn:E; [|done]. by rewrite (proj1 Hp k a E) in Hk.
  - intros [r E]. rewrite !elems_Join in E by done. rewrite <- app_assoc in E. simpl in E.
    destruct r as [|y r _] using rev_ind.
    + apply app_inj_tail in E as [E _]. apply (movable_apart _ _ _ _ _ Hm).
      exists []. by rewrite app_nil_r.
    + rewrite app_comm_cons, app_assoc in E. apply app_inj_tail in E as [E _].
      apply (mv_apart _ _ _ _ _ Hm). by exists (x :: r).
  - intros r Hg. rewrite path_at_Join, step_old by done. intros Hr.
    pose proof (mv_height _ _ _ _ _ Hm (x :: r) ltac:(by apply Forall_cons) Hr) as Hl.
    simpl in Hl. lia.
Qed.

Lemma step_moved t2 :
  moved_tree (Join [old; x]) (Join [new; x]) t1 t2 -> part_moved old new (x :: done) t t2.
Proof using All.
  intros [Hv2 H2]. split; [done|]. intros k Hk. rewrite (H2 k Hk).
  pose proof (mv_old _ _ _ _ _ Hm) as Hvo. pose proof (mv_new _ _ _ _ _ Hm) as Hvn.
  assert (Hdis : below old k -> below new k -> False).
  { apply not_below_both; [apply Hm|by apply (movable_apart _ _ _ _ _ Hm)]. }
  destruct (decide (below (Join [new; x]) k)) as [Hb|Hb].
  - pose proof Hb as [Hbn [r Er]]%below_Join; [|done..].
    rewrite (rest_Join new x k r), path_at_Join by done.
    destruct (below_rest new k Hk Hbn) as [_ Hg]. rewrite Er in Hg.
    apply Forall_cons in Hg as [_ Hg]. rewrite step_old by done.
    rewrite (decide_True _ _ Hbn), Er, decide_True by by left. done.
  - destruct (decide (below (Join [old; x]) k)) as [Hb'|Hb'].
    + pose proof Hb' as [Hbo [r Er]]%below_Join; [|done..].
      rewrite decide_False by auto. rewrite decide_True, Er by done.
      by rewrite decide_True by by left.
    + rewrite (proj2 Hp k Hk). destruct (decide (below new k)) as [Hbn|Hbn].
      * destruct (rest new k) as [|y r] eqn:Er; [done|].
        assert (y <> x) by (intros ->; apply Hb, below_Join; [done..|]; eauto).
        destruct (decide (y ∈ done)) as [Hin|Hin].
        -- by rewrite decide_True by by right.
        -- rewrite decide_False; [done|]. by intros [?|?]%elem_of_cons.
      * destruct (decide (below old k)) as [Hbo|Hbo]; [|done].
        destruct (rest old k) as [|y r] eqn:Er; [done|].
        assert (y <> x) by (intros ->; apply Hb', below_Join; [done..|]; eauto).
        destruct (decide (y ∈ done)) as [Hin|Hin].
        -- by rewrite decide_True by by right.
        -- rewrite decide_False; [done|]. by intros [?|?]%elem_of_cons.
Qed.
End step.

(** Without the child there is nothing below it. *)
Lemma movable_child is_dir height old new t x r :
  movable is_dir height old new t -> good_elems (x :: r) ->
  is_Some (t !! path_at old (x :: r)) -> is_Some (t !! path_at old [x]).
Proof.
  intros Hm. induction r as [|y r IH] using rev_ind; intros Hg Hs; [done|].
  apply IH.
  - rewrite app_comm_cons in Hg. by apply Forall_app in Hg as [? _].
  - destruct (mv_closed _ _ _ _ _ Hm (x :: r) y) as (a & E & _); [done..|]. by eexists.
Qed.

Lemma part_moved_finish is_dir height old new t t1 done :
  movable is_dir height old new t -> part_moved old new done t t1 ->
  (forall x, good_elem x = true -> is_Some (t !! path_at old [x]) -> x ∈ done) ->
  moved_tree old new t (delete old t1).
Proof.
  intros Hm Hp Hall. pose proof (mv_old _ _ _ _ _ Hm) as Hvo. pose proof (mv_new _ _ _ _ _ Hm) as Hvn.
  assert (Hdis : forall k, below old k -> below new k -> False).
  { intros k. apply not_below_both; [apply Hm|by apply (movable_apart _ _ _ _ _ Hm)]. }
  assert (Hnone : forall x r, good_elems (x :: r) -> x ∉ done -> t !! path_at old (x :: r) = None).
  { intros x r Hg Hx. destruct (t !! path_at old (x :: r)) as [a|] eqn:E; [|done].
    destruct Hx. pose proof Hg as [? _]%Forall_cons. apply Hall; [done|].
    apply (movable_child is_dir height old new t x r); [done..|]. rewrite E. by eexists. }
  split.
  { intros k a [_ E]%lookup_delete_Some. by apply (proj1 Hp k a). }
  intros k Hk. destruct (decide (k = old)) as [->|Hne].
  - rewrite lookup_delete_eq, decide_False by (intros ?; apply (Hdis old); [apply below_self|done]).
    by rewrite decide_True by apply below_self.
  - rewrite lookup_delete_ne, (proj2 Hp k Hk) by done.
    destruct (decide (below new k)) as [Hb|Hb].
    + destruct (below_rest new k Hk Hb) as [_ Hg]. destruct (rest new k) as [|x r] eqn:Er.
      * by rewrite path_at_nil.
      * destruct (decide (x ∈ done)); [done|]. by rewrite Hnone.
    + destruct (decide (below old k)) as [Hbo|]; [|done].
      destruct (below_rest old k Hk Hbo) as [E Hg]. destruct (rest old k) as [|x r] eqn:Er.
      * rewrite path_at_nil in E by done. done.
      * destruct (decide (x ∈ done)); [done|]. rewrite E. by apply Hnone.
Qed.

Lemma moved_tree_leaf is_dir height old new t a :
  movable is_dir height old new t -> t !! old = Some a -> is_dir a = false ->
  moved_tree old new t (delete old (<[new := a]> t)).
Proof.
  intros Hm Ha Hd. apply (part_moved_finish is_dir height old new t _ []); [done|..].
  - by apply (part_moved_start is_dir height).
  - intros x Hx Hs. exfalso. destruct (mv_closed _ _ _ _ _ Hm [] x) as (a' & E & Hd').
    { by constructor. }
    { done. }
    rewrite path_at_nil, Ha in E by apply Hm. congruence.
Qed.
End move.

(** ** The walk *)
Section walk.
Context {ST R T : Type} `{!RecordOps ST R, !Store ST R T, !GoRuntime, !LawfulStore ST R T}.
Notation W := (world ST).
Implicit Types (w : W) (t : tree).

Definition entry_is_dir (e : entry) : bool := IsDir (e_mode e).

(** One level of the walk, given that the level below moves subtrees. *)
Lemma rename_children_moves height old new t names :
  (forall old new w t, holds (w_store w) t -> movable entry_is_dir height old new t ->
     exists s t', Rename height old new w = (Ret None, set_store s w) /\ holds s t' /\
       moved_tree old new t t') ->
  movable entry_is_dir (S height) old new t ->
  Forall (fun x => good_elem x = true /\ is_Some (t !! path_at old [x])) names ->
  forall w t1 done, holds (w_store w) t1 -> part_moved old new done t t1 ->
    NoDup names -> (forall x, x ∈ names -> x ∉ done) ->
    exists s t2 done', rename_children (Rename height) old new names w = (Ret None, set_store s w) /\
      holds s t2 /\ part_moved old new done' t t2 /\
      (forall x, x ∈ names \/ x ∈ done -> x ∈ done').
Proof.
  intros IH Hm Hall. induction Hall as [|x names [Hx Hs] Hall IHn]; intros w t1 done Ht1 Hp Hnd Hdis.
  { exists (w_store w), t1, done. split_and!; [by destruct w|done..|].
    by intros x [?%elem_of_nil|?]. }
  apply NoDup_cons in Hnd as [Hn Hnd]. simpl.
  assert (Hxd : x ∉ done) by (apply Hdis; by left).
  destruct (IH (Join [old; x]) (Join [new; x]) w t1 Ht1) as (s & t2 & E & Hs2 & Hmv).
  { by apply (step_movable entry_is_dir height old new t t1 done x). }
  run E.
  destruct (IHn (set_store s w) t2 (x :: done)) as (s2 & t3 & done' & E2 & Hs3 & Hp3 & Hin);
    [done| |done| |].
  { by apply (step_moved entry_is_dir height old new t t1 done x). }
  { intros y Hy [->|Hy']%elem_of_cons; [done|]. apply (Hdis y); [by right|done]. }
  exists s2, t3, done'. split_and!; [exact E2|done|done|].
  intros y [[->|Hy]%elem_of_cons|Hy]; apply Hin; [right; by left|by left|right; by right].
Qed.

Lemma rename_leaf height old new w t e fd :
  holds (w_store w) t -> movable entry_is_dir height old new t -> t !! old = Some e ->
  IsDir (e_mode e) = false -> file_of old e fd ->
  exists s t', rename_file old new (MkFile (Some fd) 0 0) w = (Ret None, set_store s w) /\
    holds s t' /\ moved_tree old new t t'.
Proof.
  intros Ht Hm Et Hd Hf. unfold rename_file.
  destruct (String.eqb_spec old new) as [->|Hne].
  { destruct (mv_apart _ _ _ _ _ Hm). apply below_self. }
  destruct (file_of_Data old e fd w Hf) as (fd2 & E2 & Hf2 & Hl2).
  run (on_var_run _ _ _ _ _ _ (on_data_run _ _ _ _ _ _ 0 0 E2)). cbn [fileData_].
  destruct (move_record_spec old new fd2 e (Some (e_data e)) w t Ht (mv_old _ _ _ _ _ Hm))
    as (s & Hs & E3); [apply Hf2|apply Hf2|apply Hf2|done|].
  rewrite (mv_new _ _ _ _ _ Hm) in *. exists s, (delete old (<[new := e]> t)).
  split_and!; [done..|]. by apply (moved_tree_leaf entry_is_dir height).
Qed.

Lemma Rename_moves height old new w t :
  holds (w_store w) t -> movable entry_is_dir height old new t ->
  exists s t', Rename height old new w = (Ret None, set_store s w) /\ holds s t' /\
    moved_tree old new t t'.
Proof.
  revert old new w t. induction height as [|height IH]; intros old new w t Ht Hm.
  { pose proof (mv_height _ _ _ _ _ Hm []) as Hl.
    rewrite path_at_nil in Hl by apply Hm.
    specialize (Hl ltac:(constructor) (mv_there _ _ _ _ _ Hm)). simpl in Hl. lia. }
  pose proof (mv_old _ _ _ _ _ Hm) as Hvo. pose proof (mv_new _ _ _ _ _ Hm) as Hvn.
  destruct (mv_there _ _ _ _ _ Hm) as [e Et]. simpl.
  destruct (getFile_spec old w t Ht) as (r & s & E & Hs & Hr).
  unfold get_result in Hr. rewrite Hvo, Et in Hr. destruct Hr as (rec & Hrec & ->). run E.
  set (w1 := set_store s w).
  pose proof (file_of_record old e rec Hrec) as Hf.
  destruct (on_ro_Mode_run (record_fd old (Some (StoreRecord rec))) (e_mode e) w1)
    as (fd & E1 & Hsame); [apply Hf|].
  run (on_var_run _ _ _ _ _ _ (on_data_run _ _ _ _ _ _ 0 0 E1)).
  pose proof (file_of_same old e _ fd Hsame Hf) as Hf1.
  destruct (IsDir (e_mode e)) eqn:Hd.
  2: { destruct (rename_leaf (S height) old new w1 t e fd) as (s2 & t2 & E2 & Hs2 & H2);
         [done..|]. by exists s2, t2. }
  unfold rename_dir.
  destruct (getFile_spec new w1 t Hs) as ([f0 e0] & s2 & E2 & Hs2 & Hr2).
  unfold get_result in Hr2.
  rewrite Hvn, (mv_free _ _ _ _ _ Hm new (below_self new)) in Hr2. injection Hr2 as -> ->.
  run E2. set (w2 := set_store s2 w1).
  assert (errors_Is (Some (missing_err new)) ErrNotExist = true) as -> by apply law_missing.
  cbn [negb].
  destruct (loaded_ReadDirNames old e rec fd w2 t 0 0 Hrec Hvo Hs2)
    as (names & fd3 & E3 & Hn & Hf3).
  { apply (same_record _ _ Hsame). }
  { apply (same_names _ _ Hsame). }
  rewrite Hd in E3. run E3. cbn [fileData_].
  specialize (Hf3 Hf1 (same_data _ _ Hsame)).
  destruct (setFile_Some new fd3 (e_mode e) (e_modTime e) (e_data e) w2 (w_heap w2) t Hs2 Hvn)
    as (fd4 & s3 & E4 & Hs3 & _); [apply Hf3|apply Hf3|apply Hf3|].
  rewrite set_heap_id in E4. run E4. set (w3 := set_store s3 w2).
  replace (MkEntry (e_data e) (e_mode e) (e_modTime e)) with e in Hs3 by by destruct e.
  pose proof (part_moved_start _ _ _ _ _ _ Hm Et) as Hp.
  assert (Hnames : Forall (fun x => good_elem x = true /\ is_Some (t !! path_at old [x])) names).
  { rewrite Hn. apply Forall_forall. intros x (k & Hk & Ex)%elem_of_children.
    pose proof Hk as [a Hka].
    apply child_of_Some in Ex as (-> & Hx & _); [|by apply (mv_keys _ _ _ _ _ Hm k a)].
    split; [done|]. by rewrite Join_snoc in Hk. }
  destruct (rename_children_moves height old new t names IH Hm Hnames w3 _ [] Hs3 Hp)
    as (s4 & t4 & done & E5 & Hs4 & Hp4 & Hin).
  { rewrite Hn. apply NoDup_children. apply (mv_keys _ _ _ _ _ Hm). }
  { by intros x _ ?%elem_of_nil. }
  run E5. destruct (setFile_None old (set_store s4 w3) t4 Hs4 Hvo) as (s5 & E6 & Hs5). run E6.
  exists s5, (delete old t4). split_and!; [done|done|].
  apply (part_moved_finish entry_is_dir (S height) old new t t4 done); [done..|].
  intros x Hx Hsx. apply Hin. left. rewrite Hn. apply elem_of_children.
  exists (Join [old; x]). rewrite Join_snoc by done. split; [done|].
  rewrite <- Join_snoc by done. by apply child_of_Join.
Qed.

(** ** Back to worlds *)
Lemma fs_at_moved w t t' s old new height :
  fs_at w t -> movable entry_is_dir height old new t -> moved_tree old new t t' -> holds s t' ->
  fs_at (set_store s w) t' /\
  moved_tree old new (view (w_heap w) t) (view (w_heap w) t').
Proof.
  intros Hat Hm [Hv' H'] Hs.
  pose proof (mv_old _ _ _ _ _ Hm) as Hvo. pose proof (mv_new _ _ _ _ _ Hm) as Hvn.
  (* every entry of the new tree was in the old one, at a place of its own *)
  assert (Hsrc : forall k e, t' !! k = Some e -> exists k0, t !! k0 = Some e /\
            k0 = (if decide (below new k) then path_at old (rest new k) else k) /\
            ~ (~ below new k /\ below old k)).
  { intros k e E. pose proof (Hv' k e E) as Hk. rewrite (H' k Hk) in E.
    destruct (decide (below new k)) as [Hb|Hb].
    { eexists. split_and!; [exact E|done|tauto]. }
    destruct (decide (below old k)) as [Hb'|Hb']; [done|].
    eexists. split_and!; [exact E|done|tauto]. }
  assert (Hinj : forall k1 k2 e1 e2, k1 <> k2 -> t' !! k1 = Some e1 -> t' !! k2 = Some e2 ->
            exists k1' k2', k1' <> k2' /\ t !! k1' = Some e1 /\ t !! k2' = Some e2).
  { intros k1 k2 e1 e2 Hne E1 E2.
    pose proof (Hv' k1 e1 E1) as Hk1. pose proof (Hv' k2 e2 E2) as Hk2.
    destruct (Hsrc k1 e1 E1) as (k1' & F1 & -> & N1).
    destruct (Hsrc k2 e2 E2) as (k2' & F2 & -> & N2).
    do 2 eexists. split_and!; [|exact F1|exact F2].
    destruct (decide (below new k1)) as [B1|B1], (decide (below new k2)) as [B2|B2].
    - destruct (below_rest new k1 Hk1 B1) as [Q1 G1], (below_rest new k2 Hk2 B2) as [Q2 G2].
      intros Eq. apply (f_equal elems) in Eq. rewrite !elems_path_at in Eq by done.
      apply app_inv_head in Eq. apply Hne. by rewrite Q1, Q2, Eq.
    - destruct (below_rest new k1 Hk1 B1) as [_ G1]. intros <-. apply N2. split; [done|].
      by apply below_path_at.
    - destruct (below_rest new k2 Hk2 B2) as [_ G2]. intros ->. apply N1. split; [done|].
      by apply below_path_at.
    - done. }
  split.
  - destruct Hat as [Hh Hwf Hi Hl Ha]. split; simpl; [done..| |].
    + intros k e E. destruct (Hsrc k e E) as (k0 & E0 & _). by apply (Hl k0).
    + intros k1 k2 e1 e2 Hne E1 E2.
      destruct (Hinj k1 k2 e1 e2 Hne E1 E2) as (k1' & k2' & Hne' & F1 & F2).
      by apply (Ha k1' k2').
  - split.
    + intros k a. rewrite view_lookup. destruct (t' !! k) as [e|] eqn:E; [|done].
      intros _. by apply (Hv' k e).
    + intros k Hk. rewrite !view_lookup, (H' k Hk).
      destruct (decide (below new k)); [done|]. by destruct (decide (below old k)).
Qed.
End walk.

(** ** The specification of [Rename] *)
Section spec.
Context {A : Type}.
Implicit Types (v : gmap string A).

Definition move_key (old new k : string) : string :=
  if decide (below old k) then path_at new (rest old k) else k.
Definition spec_move (old new : string) v : gmap string A :=
  list_to_map ((fun kv => (move_key old new kv.1, kv.2)) <$> map_to_list v).

Lemma moved_tree_unique old new v v1 v2 :
  moved_tree old new v v1 -> moved_tree old new v v2 -> v1 = v2.
Proof.
  intros [Hv1 H1] [Hv2 H2]. apply map_eq. intros k. destruct (ValidPath k) eqn:Hk.
  - by rewrite H1, H2.
  - destruct (v1 !! k) as [a|] eqn:E1; [by rewrite (Hv1 k a E1) in Hk|].
    destruct (v2 !! k) as [a|] eqn:E2; [by rewrite (Hv2 k a E2) in Hk|done].
Qed.

Lemma move_key_inj is_dir height old new v k1 k2 a1 a2 :
  movable is_dir height old new v -> v !! k1 = Some a1 -> v !! k2 = Some a2 ->
  move_key old new k1 = move_key old new k2 -> k1 = k2.
Proof.
  intros Hm E1 E2. pose proof (mv_keys _ _ _ _ _ Hm) as Hk.
  pose proof (mv_new _ _ _ _ _ Hm) as Hvn. pose proof (mv_free _ _ _ _ _ Hm) as Hfree.
  unfold move_key.
  destruct (decide (below old k1)) as [B1|B1], (decide (below old k2)) as [B2|B2]; [..|done].
  - destruct (below_rest old k1 (Hk _ _ E1) B1) as [Q1 G1].
    destruct (below_rest old k2 (Hk _ _ E2) B2) as [Q2 G2].
    intros Eq. apply (f_equal elems) in Eq. rewrite !elems_path_at in Eq by done.
    apply app_inv_head in Eq. by rewrite Q1, Q2, Eq.
  - destruct (below_rest old k1 (Hk _ _ E1) B1) as [Q1 G1]. intros <-.
    rewrite Hfree in E2 by by apply below_path_at. done.
  - destruct (below_rest old k2 (Hk _ _ E2) B2) as [Q2 G2]. intros ->.
    rewrite Hfree in E1 by by apply below_path_at. done.
Qed.

Lemma lookup_spec_move is_dir height old new v k a :
  movable is_dir height old new v ->
  spec_move old new v !! k = Some a <-> exists k0, v !! k0 = Some a /\ move_key old new k0 = k.
Proof.
  intros Hm. unfold spec_move.
  assert (Hnd : NoDup ((fun kv => (move_key old new kv.1, kv.2)) <$> map_to_list v).*1).
  { rewrite <- list_fmap_compose.
    apply (NoDup_fmap_2_strong _ (map_to_list v)); [|apply NoDup_map_to_list].
    intros [k1 a1] [k2 a2] E1%elem_of_map_to_list E2%elem_of_map_to_list Eq. simpl in Eq.
    pose proof (move_key_inj _ _ _ _ _ _ _ _ _ Hm E1 E2 Eq) as ->. congruence. }
  rewrite <- elem_of_list_to_map by done. rewrite list_elem_of_fmap. split.
  - intros ([k0 a0] & [= -> ->] & E%elem_of_map_to_list). by exists k0.
  - intros (k0 & E & <-). exists (k0, a). split; [done|]. by apply elem_of_map_to_list.
Qed.

Lemma spec_move_moved is_dir height old new v :
  movable is_dir height old new v -> moved_tree old new v (spec_move old new v).
Proof.
  intros Hm. pose proof (mv_old _ _ _ _ _ Hm) as Hvo. pose proof (mv_new _ _ _ _ _ Hm) as Hvn.
  pose proof (mv_keys _ _ _ _ _ Hm) as Hk. split.
  - intros k a E. apply (lookup_spec_move is_dir height old new v k a Hm) in E as (k0 & E & <-).
    unfold move_key. destruct (decide (below old k0)) as [B|B]; [|by apply (Hk k0 a)].
    apply path_at_valid; [done|]. by apply (below_rest old k0 (Hk k0 a E)).
  - intros k Hvk. apply option_eq. intros a. rewrite (lookup_spec_move is_dir height) by done.
    unfold move_key. split.
    + intros (k0 & E & <-). destruct (decide (below old k0)) as [B|B].
      * destruct (below_rest old k0 (Hk k0 a E) B) as [Q G].
        rewrite decide_True by by apply below_path_at. rewrite rest_path_at by done.
        by rewrite <- Q.
      * rewrite decide_False; [by rewrite decide_False|].
        intros B'. by rewrite (mv_free _ _ _ _ _ Hm k0 B') in E.
    + destruct (decide (below new k)) as [B|B].
      * destruct (below_rest new k Hvk B) as [Q G]. intros E. eexists. split; [exact E|].
        rewrite decide_True by by apply below_path_at. rewrite rest_path_at by done. done.
      * destruct (decide (below old k)) as [B'|B']; [done|]. intros E. exists k.
        split; [done|]. by rewrite decide_False.
Qed.
End spec.

Definition node_is_dir (n : node) : bool := IsDir (n_mode n).

Definition spec_Rename (old new : string) (v : nodes) : err * nodes :=
  let missing := (Some (LinkError "rename" old new ErrNotExist), v) in
  if ValidPath old then
    match v !! old with
    | None => missing
    | Some n =>
        if node_is_dir n then
          if ValidPath new && bool_decide (v !! new = None) then (None, spec_move old new v)
          else (Some (LinkError "rename" old new ErrExist), v)
        else spec_rename_file old new n v
    end
  else missing.

(** When a directory is renamed, its subtree hangs together, and its new place
    is not inside it and is free. *)
Definition rename_legal (fuel : nat) (old new : string) (v : nodes) : Prop :=
  0 < fuel /\
  forall n, v !! old = Some n -> node_is_dir n = true -> ValidPath new = true ->
    v !! new = None -> movable node_is_dir fuel old new v.

Section refine.
Context {ST R T : Type} `{!RecordOps ST R, !Store ST R T, !GoRuntime, !LawfulStore ST R T}.
Notation W := (world ST).
Implicit Types (w : W) (t : tree).

Lemma movable_view h t height old new :
  movable node_is_dir height old new (view h t) <-> movable entry_is_dir height old new t.
Proof.
  assert (Hs : forall k, is_Some (view h t !! k) <-> is_Some (t !! k))
    by (intros k; by rewrite view_lookup, fmap_is_Some).
  assert (Hn : forall k, view h t !! k = None <-> t !! k = None)
    by (intros k; by rewrite view_lookup, fmap_None).
  split; intros []; split; try done.
  - intros k a E. apply (mv_keys0 k (to_node h a)). by rewrite view_lookup, E.
  - by apply Hs.
  - intros r x Hg Hx. destruct (mv_closed0 r x Hg) as (n & E & Hd); [by apply Hs|].
    rewrite view_lookup in E. destruct (t !! path_at old r) as [a|]; [|done].
    injection E as <-. by exists a.
  - intros k Hb. by apply Hn, mv_free0.
  - intros r Hg Hx. apply mv_height0; [done|]. by apply Hs.
  - intros k n. rewrite view_lookup. destruct (t !! k) as [a|] eqn:E; [|done].
    intros _. by apply (mv_keys0 k a).
  - by apply Hs.
  - intros r x Hg Hx. destruct (mv_closed0 r x Hg) as (a & E & Hd); [by apply Hs|].
    exists (to_node h a). by rewrite view_lookup, E.
  - intros k Hb. by apply Hn, mv_free0.
  - intros r Hg Hx. apply mv_height0; [done|]. by apply Hs.
Qed.

Lemma Rename_at fuel old new w t :
  fs_at w t -> rename_legal fuel old new (view (w_heap w) t) ->
  exists w' t', Rename fuel old new w =
      (Ret (spec_Rename old new (view (w_heap w) t)).1, w') /\
    fs_at w' t' /\ w_now w' = w_now w /\
    view (w_heap w') t' = (spec_Rename old new (view (w_heap w) t)).2.
Proof.
  intros Hat [Hfuel Hlegal]. unfold spec_Rename.
  destruct (t !! old) as [e|] eqn:Et.
  - pose proof (holds_valid w t old e (at_holds w t Hat) Et) as Hv.
    rewrite Hv, view_lookup, Et. cbn [fmap option_fmap option_map].
    change (node_is_dir (to_node (w_heap w) e)) with (IsDir (e_mode e)).
    destruct (IsDir (e_mode e)) eqn:Hd.
    2: { destruct fuel as [|fuel]; [lia|]. by apply Rename_file_refines. }
    destruct (ValidPath new && bool_decide (view (w_heap w) t !! new = None)) eqn:Hnew.
    + apply andb_true_iff in Hnew as [Hvn Hfree]. apply bool_decide_eq_true in Hfree.
      assert (Hm : movable node_is_dir fuel old new (view (w_heap w) t)).
      { apply (Hlegal (to_node (w_heap w) e)); [by rewrite view_lookup, Et|done..]. }
      pose proof (proj1 (movable_view _ _ _ _ _) Hm) as Hm'.
      destruct (Rename_moves fuel old new w t (at_holds w t Hat) Hm') as (s & t' & E & Hs & Hmv).
      destruct (fs_at_moved w t t' s old new fuel Hat Hm' Hmv Hs) as [Hat' Hmv'].
      exists (set_store s w), t'. split_and!; [done..|]. cbn [snd].
      apply (moved_tree_unique old new (view (w_heap w) t)); [done|].
      by apply (spec_move_moved node_is_dir fuel).
    + destruct fuel as [|fuel]; [lia|]. simpl.
      destruct (getFile_spec old w t (at_holds w t Hat)) as (r & s & E & Hs & Hr).
      unfold get_result in Hr. rewrite Hv, Et in Hr. destruct Hr as (rec & Hrec & ->). run E.
      set (w1 := set_store s w).
      destruct (on_ro_Mode_run (record_fd old (Some (StoreRecord rec))) (e_mode e) w1)
        as (fd & E1 & Hsame); [apply (file_of_record old e rec Hrec)|].
      run (on_var_run _ _ _ _ _ _ (on_data_run _ _ _ _ _ _ 0 0 E1)). rewrite Hd.
      unfold rename_dir.
      destruct (getFile_spec new w1 t Hs) as ([f0 e0] & s2 & E2 & Hs2 & Hr2).
      run E2. unfold get_result in Hr2.
      assert (errors_Is e0 ErrNotExist = false) as ->.
      { destruct (ValidPath new); [|by injection Hr2 as -> ->]. simpl in Hnew.
        apply bool_decide_eq_false in Hnew. rewrite view_lookup in Hnew.
        destruct (t !! new) as [en|]; [|done]. destruct Hr2 as (? & _ & [= -> ->]). done. }
      cbn [negb]. exists (set_store s2 w1), t. split_and!; [done| |done|done].
      apply fs_at_store; [by apply fs_at_store|done].
  - assert (Hmiss : (if ValidPath old then
               match view (w_heap w) t !! old with
               | Some n => if node_is_dir n
                   then if ValidPath new && bool_decide (view (w_heap w) t !! new = None)
                        then (None, spec_move old new (view (w_heap w) t))
                        else (Some (LinkError "rename" old new ErrExist), view (w_heap w) t)
                   else spec_rename_file old new n (view (w_heap w) t)
               | None => (Some (LinkError "rename" old new ErrNotExist), view (w_heap w) t)
               end
             else (Some (LinkError "rename" old new ErrNotExist), view (w_heap w) t)) =
            (Some (LinkError "rename" old new ErrNotExist), view (w_heap w) t)).
    { rewrite view_lookup, Et. by destruct (ValidPath old). }
    rewrite Hmiss. clear Hmiss. destruct fuel as [|fuel]; [lia|]. simpl.
    destruct (getFile_spec old w t (at_holds w t Hat)) as ([f0 e0] & s & E & Hs & Hr).
    run E. unfold get_result in Hr. rewrite Et in Hr.
    assert (exists e1, e0 = Some e1) as [e1 ->].
    { destruct (ValidPath old); injection Hr as -> ->; by eexists. }
    exists (set_store s w), t. split_and!; [done|by apply fs_at_store|done|done].
Qed.
End refine.
