(* ===== verification/FSRun.v ===== *)
(** * Whole histories of file system calls

    A client's calls as a sequence, run on the key-value file system and on the
    abstract file system: the results agree call by call. *)
From S2P Require Import Prelude.
From S2P Require Import Paths.
From S2P Require Import Errors.
From S2P Require Import Modes.
From S2P Require Import Blob.
From S2P Require Import BlobSpec.
From S2P Require Import Record.
From S2P Require Import Txn.
From S2P Require Import KVFile.
From S2P Require Import KVFS.
From S2P Require Import StoreSpec.
From S2P Require Import FSSpec.
From S2P Require Import TreeFS.
From S2P Require Import TreeOps.
From S2P Require Import FileSpec.
From S2P Require Import FileIO.
From S2P Require Import TreeRename.

Local Open Scope string_scope.

(** What a client asks for.  [CallWrite] opens a file, writes the bytes through
    the handle and closes it; [CallRead] opens a file, reads up to [len] bytes
    at an offset and closes it. *)
Inductive fs_call :=
  | CallMkdir (name : string) (perm : Z)
  | CallMkdirAll (name : string) (perm : Z)
  | CallRemove (name : string)
  | CallRename (fuel : nat) (oldname newname : string)
  | CallChmod (name : string) (mode : Z)
  | CallChtimes (name : string) (mtime : Z)
  | CallStat (name : string)
  | CallOpen (name : string) (flag perm : Z)
  | CallWrite (name : string) (flag perm : Z) (data : list byte)
  | CallRead (name : string) (len : nat) (off : Z).

(** What it gets: mode, modification time and size; or bytes. *)
Inductive answer :=
  | Done (e : err)
  | Info (mode mtime size : Z)
  | Data (data : list byte) (e : err).

Section run.
Context {ST R T : Type} `{!RecordOps ST R, !Store ST R T, !GoRuntime}.
Notation W := (world ST).

Definition run_stat (name : string) : M W answer :=
  let* (i, e) := Stat name in
  match e, i with
  | Some e, _ => ret (Done (Some e))
  | None, None => nil_deref
  | None, Some i =>
      mode <- info_Mode i ;; mtime <- info_ModTime i ;; size <- info_Size i ;;
      ret (Info mode mtime size)
  end.

Definition run_write (name : string) (flag perm : Z) (data : list byte) : M W answer :=
  let* (h, e) := OpenFile name flag perm in
  match e, h with
  | Some e, _ => ret (Done (Some e))
  | None, None => nil_deref
  | None, Some h =>
      p <- in_heap (make_slice data) ;;
      let* (r, f) := on_var (underlying h) (WriteFile (kind h) p) in
      let* (_, _) := on_var f Close in
      ret (Done (snd r))
  end.

Definition run_read (name : string) (len : nat) (off : Z) : M W answer :=
  let* (h, e) := Open name in
  match e, h with
  | Some e, _ => ret (Done (Some e))
  | None, None => nil_deref
  | None, Some h =>
      p <- in_heap (make_slice (replicate len zero)) ;;
      let* (r, f) := on_var (underlying h) (ReadAtFile (kind h) p off) in
      let* (_, _) := on_var f Close in
      data <- in_heap (gets (fun h => read_slice h p)) ;;
      ret (Data (take (Z.to_nat (fst r)) data) (snd r))
  end.

Definition done_with (m : M W err) : M W answer := e <- m ;; ret (Done e).

Definition run_call (c : fs_call) : M W answer :=
  match c with
  | CallMkdir name perm => done_with (Mkdir name perm)
  | CallMkdirAll name perm => done_with (MkdirAll name perm)
  | CallRemove name => done_with (Remove name)
  | CallRename fuel o n => done_with (Rename fuel o n)
  | CallChmod name mode => done_with (Chmod name mode)
  | CallChtimes name mtime => done_with (Chtimes name 0 mtime)
  | CallStat name => run_stat name
  | CallOpen name flag perm => let* (_, e) := OpenFile name flag perm in ret (Done e)
  | CallWrite name flag perm data => run_write name flag perm data
  | CallRead name len off => run_read name len off
  end.

Fixpoint run_calls (cs : list fs_call) : M W (list answer) :=
  match cs with
  | [] => ret []
  | c :: cs => a <- run_call c ;; rest <- run_calls cs ;; ret (a :: rest)
  end.
End run.

(** ** The same on nodes *)
Section spec.
Context (me : string -> error) (t : Z).

Definition spec_write (name : string) (flag : Z) (data : list byte) (n : node) (v : nodes) :
    answer * nodes :=
  match open_kind flag with
  | ReadOnlyFile => (Done (Some (PathError "write" (Base name) ErrNotImplemented)), v)
  | _ =>
      let off := if has_flag flag FlagAppend then length (n_data n) else 0 in
      (Done None,
       <[name := MkNode (n_mode n) (if bool_decide (data = []) then n_modTime n else t)
                   (write_at (n_data n) off data)]> v)
  end.

Definition spec_call (c : fs_call) (v : nodes) : answer * nodes :=
  match c with
  | CallMkdir name perm => let '(e, v) := spec_Mkdir me t name perm v in (Done e, v)
  | CallMkdirAll name perm => let '(e, v) := spec_MkdirAll t name perm v in (Done e, v)
  | CallRemove name => let '(e, v) := spec_Remove me name v in (Done e, v)
  | CallRename _ o n => let '(e, v) := spec_Rename o n v in (Done e, v)
  | CallChmod name mode => let '(e, v) := spec_Chmod me name mode v in (Done e, v)
  | CallChtimes name mtime => let '(e, v) := spec_Chtimes me name mtime v in (Done e, v)
  | CallStat name =>
      (match spec_stat me v name with
       | inl n => Info (n_mode n) (n_modTime n) (Z.of_nat (length (n_data n)))
       | inr e => Done (Some e)
       end, v)
  | CallOpen name flag perm =>
      let '(e, v) := spec_OpenFile me t name flag perm v in (Done e, v)
  | CallWrite name flag perm data =>
      let '(e, v) := spec_OpenFile me t name flag perm v in
      match e, v !! name with
      | None, Some n => spec_write name flag data n v
      | _, _ => (Done e, v)
      end
  | CallRead name len off =>
      (match spec_OpenFile me t name FlagReadOnly 0 v with
       | (None, _) =>
           match v !! name with
           | Some n =>
               Data (take (Z.to_nat (read_count (n_data n) (Z.of_nat len) off))
                       (drop (Z.to_nat off) (n_data n)))
                 (read_err (n_data n) (Z.of_nat len) off)
           | None => Done None
           end
       | (Some e, _) => Done (Some e)
       end, v)
  end.

(** The calls the refinement is about: paths shorter than [2^62], files of
    representable size, offsets that are not negative, and renames of
    directories out of themselves to a free place. *)
Definition call_legal (c : fs_call) (v : nodes) : Prop :=
  match c with
  | CallMkdirAll name _ => short name
  | CallRename fuel o n => rename_legal fuel o n v
  | CallWrite name flag perm data =>
      forall n, (spec_OpenFile me t name flag perm v).2 !! name = Some n ->
        is_int64 (Z.of_nat (length (n_data n) + length data))
  | CallRead _ len off => (0 <= off)%Z /\ is_int64 (off + Z.of_nat len)
  | _ => True
  end.

Fixpoint spec_calls (cs : list fs_call) (v : nodes) : list answer * nodes :=
  match cs with
  | [] => ([], v)
  | c :: cs =>
      let '(a, v) := spec_call c v in
      let '(rest, v) := spec_calls cs v in (a :: rest, v)
  end.

Fixpoint calls_legal (cs : list fs_call) (v : nodes) : Prop :=
  match cs with
  | [] => True
  | c :: cs => call_legal c v /\ calls_legal cs (spec_call c v).2
  end.
End spec.

(** ** Refinement *)
Section refine.
Context {ST R T : Type} `{!RecordOps ST R, !Store ST R T, !GoRuntime, !LawfulStore ST R T}.
Notation W := (world ST).
Implicit Types (w : W) (t : tree) (v : nodes).

(** The call answers as specified, on the nodes of the world, which keep
    their clock. *)
Definition answers (m : M W answer) (spec : Z -> nodes -> answer * nodes) w v : Prop :=
  exists w', m w = (Ret (spec (w_now w) v).1, w') /\
    fs_state w' (spec (w_now w) v).2 /\ w_now w' = w_now w.

Lemma answers_done m spec w v :
  refines m spec -> fs_state w v ->
  answers (done_with m) (fun now v => let '(e, v) := spec now v in (Done e, v)) w v.
Proof.
  intros Hr Hv. destruct (Hr w v Hv) as (w' & E & Hs & Hn).
  unfold answers, done_with. destruct (spec (w_now w) v) as [e v']. simpl in *.
  exists w'. split_and!; [by run E|done|done].
Qed.

Lemma run_stat_answers name w v :
  fs_state w v ->
  answers (run_stat name) (fun now => spec_call missing_err now (CallStat name)) w v.
Proof.
  intros (t & Hat & ->). unfold answers, run_stat. simpl.
  destruct (Stat_at name w t Hat) as (i & s & Hat1 & Hst).
  destruct (spec_stat missing_err (view (w_heap w) t) name) as [n|e].
  2: { destruct Hst as [E _]. exists (set_store s w).
       split_and!; [by run E|by exists t|done]. }
  destruct Hst as (e & i' & E & Et & -> & -> & rec & -> & Hrec). run E.
  set (w1 := set_store s w). set (fd := record_fd name (Some (StoreRecord rec))).
  pose proof (record_handle w1 name e rec Hrec) as Ho.
  destruct (fd_Mode_run fd (e_mode e) w1) as (fd1 & E1 & _); [apply Ho|].
  destruct (fd_ModTime_run fd (e_modTime e) w1) as (fd2 & E2 & _); [apply Ho|].
  destruct (fd_Size_run w1 name e fd) as (fd3 & E3 & _);
    [apply Hat1|apply Hat1|by apply (at_live w1 t Hat1 name)|done|].
  exists w1. split_and!; [|by exists t|done].
  unfold info_Mode, info_ModTime, info_Size. simpl info_Record.
  run (peek_run _ _ _ _ _ _ E1). run (peek_run _ _ _ _ _ _ E2). by run (peek_run _ _ _ _ _ _ E3).
Qed.

(** A fresh buffer of the caller is private. *)
Lemma make_slice_private w t data :
  fs_at w t ->
  exists p h', in_heap (make_slice data) w = (Ret p, set_heap h' w) /\ wf_heap h' /\
    ext (w_heap w) h' /\ fs_at (set_heap h' w) t /\ view h' t = view (w_heap w) t /\
    private h' t p /\ read_slice h' p = data /\ s_len p = length data.
Proof.
  intros Hat. pose proof (at_wf w t Hat) as Hwf.
  destruct (make_slice_spec (w_heap w) data Hwf)
    as (p & h' & E & Hwf' & He & Hp & Hr & Ha & Hl & Hb & _).
  destruct (fs_at_heap w t h' Hat Hwf' He) as [Hat' Hv'].
  exists p, h'. split_and!; try done; [by unfold in_heap, zoom; rewrite E|].
  split; [done|]. intros name e l x Et Ed Hx. rewrite Hb in Hx.
  destruct (decide (s_cap (bytes x) = 0)) as [|Hc]; [auto|]. left. rewrite Ha.
  pose proof (wf_slice_array (w_heap w) (bytes x) Hwf
                (wf_bytes _ _ (wf_blobs _ Hwf l x Hx)) ltac:(lia)). lia.
Qed.

Lemma Close_run (fd : fileData ST R) off fl w :
  on_var (opened_file fd off fl) Close w = (Ret (None, MkFile None off fl), w).
Proof. done. Qed.

Lemma run_write_answers name flag perm data w v :
  fs_state w v -> w_now w <> 0%Z -> call_legal missing_err (w_now w) (CallWrite name flag perm data) v ->
  answers (run_write name flag perm data)
    (fun now => spec_call missing_err now (CallWrite name flag perm data)) w v.
Proof.
  intros (t & Hat & ->) Hnow Hlegal. unfold answers, run_write. simpl in Hlegal. simpl.
  destruct (OpenFile_at name flag perm w t Hat (fun _ => Hnow)) as (h & w1 & t1 & E & Hat1 & Hn1 & Hv1 & Hh).
  destruct (spec_OpenFile missing_err (w_now w) name flag perm (view (w_heap w) t)) as [[e|] v1];
    simpl in *; run E.
  { exists w1. split_and!; [done|by exists t1|done]. }
  destruct (Hh eq_refl) as (fd & e & Et1 & Ho1 & ->). subst v1.
  rewrite view_lookup, Et1. simpl. cbn [underlying kind].
  destruct (make_slice_private w1 t1 data Hat1) as (p & h' & Ep & Hwf' & He & Hat2 & Hv2 & Hp & Hr & Hl).
  run Ep. set (w2 := set_heap h' w1) in *.
  assert (Ho2 : handle_of w2 name e fd).
  { apply handle_of_ext; [apply Hat1|by apply (at_live w1 t1 Hat1 name)|done|done]. }
  assert (Hc : blob_bytes h' (e_data e) = blob_bytes (w_heap w1) (e_data e))
    by by apply (view_bytes _ _ t1 name e Hv2).
  assert (Hnode : n_data (to_node (w_heap w1) e) = blob_bytes (w_heap w1) (e_data e)) by done.
  unfold spec_write. rewrite Hnode. cbn [n_mode n_modTime to_node].
  specialize (Hlegal (to_node (w_heap w1) e)). rewrite view_lookup, Et1, Hnode in Hlegal.
  specialize (Hlegal eq_refl).
  assert (Hk : open_kind flag = ReadOnlyFile \/ has_method (open_kind flag) MWrite = true)
    by (destruct (open_kind flag); auto).
  destruct Hk as [Hk|Hk].
  - rewrite Hk. unfold WriteFile, method_or. cbn [has_method].
    assert (Es : on_var (opened_file fd 0 flag)
      (let* (info, e0) := FileStat in
       match e0 with
       | Some e1 => ret (0%Z, Some e1)
       | None => ret (0%Z, Some (PathError "write" (info_Name info) ErrNotImplemented))
       end) w2 = (Ret ((0%Z, Some (PathError "write" (Base name) ErrNotImplemented)),
                      opened_file fd 0 flag), w2)).
    { destruct Ho2 as [[Hpath _ _ _] _].
      unfold on_var, FileStat, on_data, bind, gets, ret. simpl. unfold info_Name. simpl.
      by rewrite Hpath. }
    run Es. run (Close_run fd 0 flag w2). exists w2. split_and!; [done| |done]. by exists t1.
  - assert (Hnow2 : w_now w2 <> 0%Z) by (unfold w2; cbn [w_now set_heap]; by rewrite Hn1).
    destruct (Write_at w2 t1 name e fd 0 flag p Hat2 Et1 Ho2 Hp Hnow2 ltac:(lia))
      as (fd' & w3 & E3 & Hat3 & Ho3 & Hn3 & Hv3).
    { unfold w2. cbn [w_heap set_heap]. rewrite Hr.
      unfold is_int64, int64_min, int64_max in *. lia. }
    { unfold w2. cbn [w_heap set_heap]. rewrite Hr, Hc.
      unfold is_int64, int64_min, int64_max in *. destruct (has_flag flag FlagAppend); lia. }
    unfold w2 in Hv3, E3, Hat3, Hn3. cbn [w_heap w_now set_heap] in Hv3, E3, Hat3, Hn3.
    rewrite Hr, ?Hc, Hn1 in *. rewrite Hv2 in Hv3. fold w2 in E3.
    assert (EW : WriteFile (open_kind flag) p = Write p)
      by (unfold WriteFile, method_or; by rewrite Hk).
    rewrite EW. run (on_var_run _ _ _ _ _ _ E3).
    run (Close_run fd' (0 + Z.of_nat (length data)) flag w3). exists w3.
    destruct (open_kind flag); [|done|]; (split_and!; [done| |done]); simpl;
      (eexists; split; [exact Hat3|]); rewrite Hv3; f_equal; f_equal; f_equal;
      destruct (has_flag flag FlagAppend); lia.
Qed.

Lemma spec_OpenFile_read_only me now name v :
  (spec_OpenFile me now name FlagReadOnly 0 v).2 = v.
Proof.
  unfold spec_OpenFile, spec_finish_open.
  destruct (spec_get me "open" v name) as [n|e].
  - by rewrite andb_false_r.
  - by rewrite andb_false_r.
Qed.

Lemma run_read_answers name len off w v :
  fs_state w v -> w_now w <> 0%Z -> call_legal missing_err (w_now w) (CallRead name len off) v ->
  answers (run_read name len off)
    (fun now => spec_call missing_err now (CallRead name len off)) w v.
Proof.
  intros (t & Hat & ->) Hnow [Hoff Hi64]. unfold answers, run_read, Open. simpl.
  destruct (OpenFile_at name FlagReadOnly 0 w t Hat (fun _ => Hnow))
    as (h & w1 & t1 & E & Hat1 & Hn1 & Hv1 & Hh). rewrite spec_OpenFile_read_only in Hv1.
  destruct (spec_OpenFile missing_err (w_now w) name FlagReadOnly 0 (view (w_heap w) t)) as [[e|] v1];
    simpl in *; run E.
  { exists w1. split_and!; [done|exists t1; by rewrite Hv1|done]. }
  destruct (Hh eq_refl) as (fd & e & Et1 & Ho1 & ->).
  rewrite <- Hv1, view_lookup, Et1. cbn [underlying kind fmap option_fmap option_map].
  destruct (make_slice_private w1 t1 (replicate len zero) Hat1)
    as (p & h' & Ep & Hwf' & He & Hat2 & Hv2 & Hp & Hr & Hl).
  run Ep. set (w2 := set_heap h' w1) in *. rewrite length_replicate in Hl.
  assert (Ho2 : handle_of w2 name e fd).
  { apply handle_of_ext; [apply Hat1|by apply (at_live w1 t1 Hat1 name)|done|done]. }
  assert (Hc : blob_bytes h' (e_data e) = blob_bytes (w_heap w1) (e_data e))
    by by apply (view_bytes _ _ t1 name e Hv2).
  destruct (ReadAt_at w2 t1 name e fd 0 FlagReadOnly p off Hat2 Et1 Ho2 Hp Hoff)
    as (fd' & w3 & E3 & Hat3 & _ & Hn3 & Hv3 & _ & Hr3); [by rewrite Hl|].
  change (w_heap w2) with h' in *. rewrite Hr, Hc, Hl in *.
  run (on_var_run _ _ _ _ _ _ E3 : on_var _ (ReadAtFile ReadOnlyFile p off) w2 = _).
  run (Close_run fd' 0 FlagReadOnly w3).
  exists w3. split_and!; [|exists t1; by rewrite Hv3, Hv2|by rewrite Hn3].
  destruct w3 as [s3 h3 n3]; cbn in *.
  unfold in_heap, zoom, gets, bind, ret. cbn. do 3 f_equal. rewrite Hr3.
  change (n_data (to_node (w_heap w1) e)) with (blob_bytes (w_heap w1) (e_data e)).
  set (n := Z.to_nat _). rewrite take_app_le; [|rewrite length_take, length_drop].
  - rewrite take_take. f_equal. lia.
  - unfold n, read_count. lia.
Qed.

Theorem run_call_answers c w v :
  fs_state w v -> w_now w <> 0%Z -> call_legal missing_err (w_now w) c v ->
  answers (run_call c) (fun now => spec_call missing_err now c) w v.
Proof.
  intros Hv Hnow Hlegal. destruct c; simpl run_call.
  - exact (answers_done _ _ w v (Mkdir_refines name perm) Hv).
  - exact (answers_done _ _ w v (MkdirAll_refines name perm Hlegal) Hv).
  - exact (answers_done _ _ w v (Remove_refines name) Hv).
  - destruct Hv as (t & Hat & ->). unfold answers, done_with. simpl.
    destruct (Rename_at fuel oldname newname w t Hat Hlegal) as (w' & t' & E & Hat' & Hn & Hv').
    destruct (spec_Rename oldname newname _) as [e v']. simpl in *.
    exists w'. split_and!; [by run E|by exists t'|done].
  - exact (answers_done _ _ w v (Chmod_refines name mode) Hv).
  - exact (answers_done _ _ w v (Chtimes_refines name 0 mtime) Hv).
  - by apply run_stat_answers.
  - destruct Hv as (t & Hat & ->). unfold answers. simpl.
    destruct (OpenFile_at name flag perm w t Hat (fun _ => Hnow)) as (h & w1 & t1 & E & Hat1 & Hn1 & Hv1 & _).
    destruct (spec_OpenFile missing_err (w_now w) name flag perm _) as [e v1]. simpl in *.
    exists w1. split_and!; [by run E|by exists t1|done].
  - by apply run_write_answers.
  - by apply run_read_answers.
Qed.

Lemma run_calls_answer cs w v :
  fs_state w v -> w_now w <> 0%Z -> calls_legal missing_err (w_now w) cs v ->
  exists w', run_calls cs w = (Ret (spec_calls missing_err (w_now w) cs v).1, w') /\
    fs_state w' (spec_calls missing_err (w_now w) cs v).2 /\ w_now w' = w_now w.
Proof.
  revert w v. induction cs as [|c cs IH]; intros w v Hv Hnow; simpl.
  { intros _. by exists w. }
  intros [Hl Hls]. destruct (run_call_answers c w v Hv Hnow Hl) as (w1 & E & Hv1 & Hn1).
  destruct (spec_call missing_err (w_now w) c v) as [a v1]. simpl in *.
  destruct (IH w1 v1 Hv1) as (w2 & E2 & Hv2 & Hn2); [by rewrite Hn1|by rewrite Hn1|].
  rewrite Hn1 in E2, Hv2, Hn2. exists w2.
  destruct (spec_calls missing_err (w_now w) cs v1) as [rest v2]. simpl in *.
  split_and!; [|done|done]. run E. by run E2.
Qed.
End refine.
