(* ===== verification/TreeInv.v ===== *)
(** * The tree hangs together

    The invariant of the abstract file system, every path is valid and hangs on
    a directory, and the calls that keep it; a call that fails changes nothing. *)
From S2P Require Import Prelude.
From S2P Require Import Paths.
From S2P Require Import Errors.
From S2P Require Import Modes.
From S2P Require Import Blob.
From S2P Require Import BlobSpec.
From S2P Require Import Record.
From S2P Require Import Txn.
From S2P Require Import KVFile.
From S2P Require Import KVFS.
From S2P Require Import StoreSpec.
From S2P Require Import FSSpec.
From S2P Require Import TreeFS.
From S2P Require Import TreeOps.
From S2P Require Import FileSpec.
From S2P Require Import FileIO.
From S2P Require Import TreeRename.
From S2P Require Import FSRun.

Local Open Scope string_scope.
Implicit Types (v : nodes) (name k old new : string) (n : node).

Definition is_dir_at v name : Prop := exists p, v !! name = Some p /\ node_is_dir p = true.

(** Every path is valid, and its parent is a directory. *)
Definition hangs v : Prop :=
  forall name n, v !! name = Some n ->
    ValidPath name = true /\ (name <> "." -> is_dir_at v (Dir name)).

(** The parent of a new path, where there is one, is a directory. *)
Definition parent_ok v name : Prop := forall p, v !! Dir name = Some p -> node_is_dir p = true.

(** ** Paths *)
Lemma Dir_neq name : ValidPath name = true -> name <> "." -> Dir name <> name.
Proof. intros Hv Hd E. pose proof (length_elems_Dir name Hv Hd) as Hl. rewrite E in Hl. lia. Qed.

Lemma below_Dir p k : ValidPath k = true -> below p (Dir k) -> below p k.
Proof.
  intros Hk [r E]. destruct (ValidPath_cases k Hk) as [->|(es & e & _ & _ & E' & _)]; [by exists r|].
  rewrite (elems_Dir k es e) in E by done. exists (r ++ [e])%list. by rewrite E', E, app_assoc.
Qed.
Lemma not_below_Dir name : ValidPath name = true -> name <> "." -> ~ below name (Dir name).
Proof.
  intros Hv Hd [r E]. pose proof (length_elems_Dir name Hv Hd) as Hl. rewrite E, length_app in Hl. lia.
Qed.
Lemma Dir_path_at p r x :
  ValidPath p = true -> good_elems (r ++ [x]) -> Dir (path_at p (r ++ [x])) = path_at p r.
Proof.
  intros [Hp _]%ValidPath_elems Hr. unfold path_at. rewrite app_assoc. apply Dir_snoc.
  rewrite <- app_assoc. by apply Forall_app.
Qed.
Lemma path_at_not_dot p r x :
  ValidPath p = true -> good_elems (r ++ [x]) -> path_at p (r ++ [x]) <> ".".
Proof.
  intros Hp Hr E. apply (f_equal elems) in E. rewrite elems_path_at in E by done.
  by destruct (elems p), r.
Qed.

(** ** Keeping the invariant *)
Lemma hangs_empty : hangs ∅.
Proof. by intros name n E. Qed.

Lemma hangs_insert v name n :
  hangs v -> ValidPath name = true -> (name <> "." -> is_dir_at v (Dir name)) ->
  (forall n0, v !! name = Some n0 -> node_is_dir n0 = true -> node_is_dir n = true) ->
  hangs (<[name := n]> v).
Proof.
  intros Hh Hv Hp Hd k m. rewrite lookup_insert_Some. intros [[<- <-]|[Hk E]].
  - split; [done|]. intros Hdot. destruct (Hp Hdot) as (p & E & Hdir). exists p.
    by rewrite lookup_insert_ne by (intros Eq; by apply (Dir_neq name)).
  - destruct (Hh k m E) as [Hvk Hpk]. split; [done|]. intros Hdot.
    destruct (Hpk Hdot) as (p & Ep & Hdir). unfold is_dir_at.
    destruct (decide (name = Dir k)) as [->|Hne].
    + exists n. rewrite lookup_insert_eq. split; [done|]. by apply (Hd p).
    + exists p. by rewrite lookup_insert_ne.
Qed.

(** New metadata or data under a path that is there. *)
Lemma hangs_update v name n n' :
  hangs v -> v !! name = Some n -> node_is_dir n' = node_is_dir n -> hangs (<[name := n']> v).
Proof.
  intros Hh E Hd. destruct (Hh name n E) as [Hv Hp]. apply hangs_insert; [done..|].
  rewrite E, Hd. by intros ? [= ->].
Qed.

Lemma hangs_delete v name :
  hangs v -> (forall k, is_Some (v !! k) -> k <> "." -> Dir k = name -> k = name) ->
  hangs (delete name v).
Proof.
  intros Hh Hc k m [Hk E]%lookup_delete_Some. destruct (Hh k m E) as [Hvk Hpk].
  split; [done|]. intros Hdot. destruct (Hpk Hdot) as (p & Ep & Hdir). exists p.
  rewrite lookup_delete_ne; [done|]. intros Eq. apply Hk. symmetry. apply Hc; [by eexists|done..].
Qed.

Lemma hangs_no_children v name :
  hangs v -> children v name = [] ->
  forall k, is_Some (v !! k) -> k <> "." -> Dir k <> name.
Proof.
  intros Hh Hc k Hk Hdot E.
  assert (Base k ∈ children v name) as Hin.
  { apply elem_of_children. exists k. split; [done|]. unfold child_of.
    rewrite (proj2 (String.eqb_neq _ _) Hdot), E. by rewrite String.eqb_refl. }
  rewrite Hc in Hin. by apply elem_of_nil in Hin.
Qed.
Lemma hangs_file_no_children v name n :
  hangs v -> v !! name = Some n -> node_is_dir n = false ->
  forall k, is_Some (v !! k) -> k <> "." -> Dir k <> name.
Proof.
  intros Hh E Hn k [m Ek] Hdot <-. destruct (Hh k m Ek) as [_ Hp].
  destruct (Hp Hdot) as (p & Ep & Hd). congruence.
Qed.

Lemma node_is_dir_dir now perm : node_is_dir (dir_node now perm) = true.
Proof. apply IsDir_newDir. Qed.

Lemma hangs_missing now perm v name ps :
  hangs v -> ValidPath name = true -> spec_missing v (ancestors name) = inl ps ->
  hangs (insert_dirs now perm ps v) /\ is_dir_at (insert_dirs now perm ps v) name.
Proof.
  intros Hh. remember (length (elems name)) as m eqn:Hm. revert name ps Hm.
  induction m as [|m IH]; intros name ps Hm Hv.
  - assert (name = ".") as -> by (apply elems_nil; [done|by destruct (elems name)]).
    change (ancestors ".") with ["."]. simpl. destruct (v !! ".") as [n|] eqn:E.
    + destruct (IsDir (n_mode n)) eqn:Ed; [|done]. intros [= <-]. split; [done|]. by exists n.
    + intros [= <-]. simpl. split.
      * by apply hangs_insert; [..|rewrite E].
      * eexists. rewrite lookup_insert_eq. split; [done|apply node_is_dir_dir].
  - assert (Hdot : name <> ".") by by intros ->.
    rewrite ancestors_cons by done. simpl. destruct (v !! name) as [n|] eqn:E.
    + destruct (IsDir (n_mode n)) eqn:Ed; [|done]. intros [= <-]. split; [done|]. by exists n.
    + destruct (spec_missing v (ancestors (Dir name))) as [qs|] eqn:Em; [|done]. intros [= <-].
      pose proof (length_elems_Dir name Hv Hdot) as Hl.
      destruct (IH (Dir name) qs ltac:(lia) (Dir_valid name Hv) Em) as [Hh' Hp]. simpl. split.
      * apply hangs_insert; [done..|]. intros. apply node_is_dir_dir.
      * eexists. rewrite lookup_insert_eq. split; [done|apply node_is_dir_dir].
Qed.

(** ** Moving a subtree *)
Lemma movable_hangs fuel old new v n :
  hangs v -> v !! old = Some n -> v !! new = None -> ValidPath new = true ->
  ~ below old new -> (forall k, is_Some (v !! k) -> length (elems k) < fuel) ->
  movable node_is_dir fuel old new v.
Proof.
  intros Hh E Hn Hv Hb Hf. destruct (Hh old n E) as [Hvo _].
  assert (Hclosed : forall p r x, ValidPath p = true -> good_elems (r ++ [x]) ->
    is_Some (v !! path_at p (r ++ [x])) -> is_dir_at v (path_at p r)).
  { intros p r x Hp Hr [m Em]. destruct (Hh _ m Em) as [_ Hd].
    rewrite <- (Dir_path_at p r x) by done. by apply Hd, path_at_not_dot. }
  split; try done.
  - intros k a Ek. apply (Hh k a Ek).
  - intros r x Hr Hs. by apply (Hclosed old r x).
  - intros k Hk. destruct (v !! k) as [m|] eqn:Ek; [|done]. exfalso.
    destruct (Hh k m Ek) as [Hvk _]. destruct (below_rest new k Hvk Hk) as [Q G].
    assert (Hs : is_Some (v !! path_at new (rest new k))) by (rewrite <- Q; by eexists).
    revert Hs. clear Q. induction (rest new k) as [|x r IH] using rev_ind.
    { rewrite path_at_nil, Hn by done. by intros []. }
    intros Hs. pose proof G as [G' _]%Forall_app. apply (IH G').
    destruct (Hclosed new r x Hv G Hs) as (p & Ep & _). by eexists.
  - intros r Hr Hs. specialize (Hf _ Hs). rewrite elems_path_at, length_app in Hf by done. lia.
Qed.

Lemma hangs_move fuel old new v :
  hangs v -> movable node_is_dir fuel old new v -> is_dir_at v (Dir new) ->
  hangs (spec_move old new v).
Proof.
  intros Hh Hm Hp. pose proof (mv_old _ _ _ _ _ Hm) as Hvo. pose proof (mv_new _ _ _ _ _ Hm) as Hvn.
  destruct (spec_move_moved _ _ _ _ _ Hm) as [Hkeys Hlook].
  assert (Hdot : new <> ".").
  { intros ->. destruct Hp as (p & E & _). change (Dir ".") with "." in E. by rewrite (mv_free _ _ _ _ _ Hm "." (below_self _)) in E. }
  assert (Hparent : is_dir_at (spec_move old new v) (Dir new)).
  { unfold is_dir_at. rewrite (Hlook _ (Dir_valid new Hvn)).
    rewrite decide_False by by apply not_below_Dir.
    rewrite decide_False; [done|]. intros B. by apply (mv_apart _ _ _ _ _ Hm), below_Dir. }
  intros k m E. pose proof (Hkeys k m E) as Hk. split; [done|]. intros Hkd.
  rewrite Hlook in E by done. destruct (decide (below new k)) as [B|B].
  - destruct (below_rest new k Hk B) as [Q G]. rewrite Q.
    destruct (rest new k) as [|x r _] using rev_ind; [by rewrite path_at_nil|].
    rewrite Dir_path_at by done. pose proof G as [G' _]%Forall_app.
    destruct (mv_closed _ _ _ _ _ Hm r x G) as (a & Ea & Ha); [by eexists|].
    exists a. rewrite Hlook by by apply path_at_valid.
    rewrite decide_True by by apply below_path_at. by rewrite rest_path_at.
  - destruct (decide (below old k)) as [|B']; [done|].
    destruct (Hh k m E) as [_ Hd]. unfold is_dir_at. rewrite Hlook by by apply Dir_valid.
    rewrite decide_False by (intros ?; by apply B, below_Dir).
    rewrite decide_False by (intros ?; by apply B', below_Dir). by apply Hd.
Qed.

(** ** Calls that keep the tree together *)

(** Calls that make files in directories, do not replace a directory by a file
    and do not rename a directory into itself; with the bounds of
    [call_legal]. *)
Definition proper me now (c : fs_call) v : Prop :=
  match c with
  | CallMkdir name _ => parent_ok v name
  | CallRename fuel old new =>
      (forall k, is_Some (v !! k) -> length (elems k) < fuel) /\
      is_dir_at v (Dir new) /\
      (is_dir_at v old -> ~ below old new) /\
      (is_dir_at v new -> is_dir_at v old)
  | CallOpen name flag _ => has_flag flag FlagCreate = true -> parent_ok v name
  | CallWrite name flag perm data =>
      (has_flag flag FlagCreate = true -> parent_ok v name) /\
      call_legal me now (CallWrite name flag perm data) v
  | c => call_legal me now c v
  end.

Fixpoint all_proper me now (cs : list fs_call) v : Prop :=
  match cs with
  | [] => True
  | c :: cs => proper me now c v /\ all_proper me now cs (spec_call me now c v).2
  end.

Section calls.
Context (me : string -> error) (now : Z).

Lemma proper_legal c v : hangs v -> proper me now c v -> call_legal me now c v.
Proof.
  intros Hh. destruct c; simpl; try done; try tauto.
  intros (Hf & Hp & Hb & _). split.
  - destruct Hp as (p & Ep & _). specialize (Hf (Dir newname)). rewrite Ep in Hf.
    specialize (Hf ltac:(by eexists)). lia.
  - intros n E Hd Hv Hn. apply (movable_hangs _ _ _ _ n); try done. apply Hb. by exists n.
Qed.

Lemma spec_get_inl op v name n :
  spec_get me op v name = inl n -> ValidPath name = true /\ v !! name = Some n.
Proof.
  unfold spec_get. destruct (ValidPath name); [|done]. by destruct (v !! name); intros [= ->].
Qed.
Lemma spec_stat_inl v name n :
  spec_stat me v name = inl n -> ValidPath name = true /\ v !! name = Some n.
Proof. apply (spec_get_inl "stat"). Qed.

Lemma hangs_Mkdir name perm v :
  hangs v -> parent_ok v name -> hangs (spec_Mkdir me now name perm v).2.
Proof.
  intros Hh Hp. unfold spec_Mkdir. destruct (spec_stat me v name); [done|].
  destruct (ValidPath name) eqn:Hv; [|done]. cbn [negb].
  assert (Hins : (name <> "." -> is_dir_at v (Dir name)) ->
    hangs (<[name := dir_node now perm]> v)).
  { intros Hd. apply hangs_insert; [done..|]. intros. apply node_is_dir_dir. }
  destruct (String.eqb_spec name "."); [by apply Hins|].
  destruct (spec_stat me v (Dir name)) as [p|] eqn:Es; [|done].
  apply spec_stat_inl in Es as [_ Es]. apply Hins. intros _. exists p. split; [done|by apply Hp].
Qed.

Lemma hangs_MkdirAll name perm v : hangs v -> hangs (spec_MkdirAll now name perm v).2.
Proof.
  intros Hh. unfold spec_MkdirAll. destruct (ValidPath name) eqn:Hv; [|done].
  destruct (spec_missing v (ancestors name)) as [ps|] eqn:Em; [|done].
  by destruct (hangs_missing now perm v name ps Hh Hv Em).
Qed.

Lemma hangs_Remove name v : hangs v -> hangs (spec_Remove me name v).2.
Proof.
  intros Hh. unfold spec_Remove. destruct (spec_get me "remove" v name) as [n|] eqn:Eg; [|done].
  apply spec_get_inl in Eg as [_ Eg]. destruct (IsDir (n_mode n)) eqn:Ed.
  - destruct (decide (children v name = [])) as [Hc|Hc].
    + rewrite bool_decide_true by done. apply hangs_delete; [done|].
      intros k Hk Hdot E. by destruct (hangs_no_children v name Hh Hc k Hk Hdot).
    + by rewrite bool_decide_false.
  - apply hangs_delete; [done|].
    intros k Hk Hdot E. by destruct (hangs_file_no_children v name n Hh Eg Ed k Hk Hdot).
Qed.

Lemma hangs_Chmod name mode v : hangs v -> hangs (spec_Chmod me name mode v).2.
Proof.
  intros Hh. unfold spec_Chmod. destruct (spec_get me "chmod" v name) as [n|] eqn:Eg; [|done].
  apply spec_get_inl in Eg as [_ Eg]. apply (hangs_update v name n); [done..|].
  apply chmod_mode_IsDir.
Qed.
Lemma hangs_Chtimes name mtime v : hangs v -> hangs (spec_Chtimes me name mtime v).2.
Proof.
  intros Hh. unfold spec_Chtimes. destruct (spec_get me "chtimes" v name) as [n|] eqn:Eg; [|done].
  apply spec_get_inl in Eg as [_ Eg]. by apply (hangs_update v name n).
Qed.

Lemma hangs_OpenFile name flag perm v :
  hangs v -> (has_flag flag FlagCreate = true -> parent_ok v name) ->
  hangs (spec_OpenFile me now name flag perm v).2.
Proof.
  intros Hh Hp. unfold spec_OpenFile.
  destruct (spec_get me "open" v name) as [n|e] eqn:Eg.
  - apply spec_get_inl in Eg as [_ Eg]. destruct (_ && _); [done|].
    unfold spec_finish_open, spec_truncate0. destruct (has_flag flag FlagTruncate); [|done].
    destruct (IsDir (n_mode n)) eqn:Ed; [done|]. destruct (n_data n); [done|].
    by apply (hangs_update v name n).
  - unfold spec_get in Eg. destruct (ValidPath name) eqn:Hv; [|done].
    destruct (has_flag flag FlagCreate); [|done]. simpl.
    destruct (v !! Dir name) as [p|] eqn:Ed; [|done]. simpl. destruct (v !! name) eqn:En; [done|].
    apply hangs_insert; [done|done| |by rewrite En].
    intros _. exists p. split; [done|]. by apply Hp.
Qed.

Lemma hangs_Rename fuel old new v :
  hangs v -> proper me now (CallRename fuel old new) v -> hangs (spec_Rename old new v).2.
Proof.
  intros Hh Hpr. pose proof (proper_legal _ _ Hh Hpr) as [_ Hm].
  destruct Hpr as (_ & Hp & _ & Hnew). unfold spec_Rename.
  destruct (ValidPath old); [|done]. destruct (v !! old) as [n|] eqn:E; [|done].
  destruct (node_is_dir n) eqn:Ed.
  - destruct (ValidPath new) eqn:Hv; [|done]. simpl.
    destruct (v !! new) eqn:En; [done|]. simpl. by apply (hangs_move fuel), Hp; [|apply (Hm n)].
  - unfold spec_rename_file. destruct (String.eqb_spec old new) as [|Hne]; [done|].
    destruct (ValidPath new) eqn:Hv; [|done]. simpl.
    assert (Hnd : forall n0, v !! new = Some n0 -> node_is_dir n0 = true -> False).
    { intros n0 E0 H0. destruct Hnew as (p & Ep & Hd); [by exists n0|]. congruence. }
    apply hangs_delete.
    + apply hangs_insert; [done..|]. intros n0 E0 H0. by destruct (Hnd n0 E0 H0).
    + intros k [m Ek] Hdot Hk. exfalso.
      apply lookup_insert_Some in Ek as [[<- <-]|[_ Ek]].
      * destruct Hp as (p & Ep & Hd). rewrite Hk in Ep. congruence.
      * by destruct (hangs_file_no_children v old n Hh E Ed k).
Qed.

Lemma hangs_write name flag data n v :
  hangs v -> v !! name = Some n -> hangs (spec_write now name flag data n v).2.
Proof.
  intros Hh E. unfold spec_write. destruct (open_kind flag); [|done|];
    by apply (hangs_update v name n).
Qed.

Lemma hangs_call c v : hangs v -> proper me now c v -> hangs (spec_call me now c v).2.
Proof.
  intros Hh. destruct c; simpl; intros Hp.
  - pose proof (hangs_Mkdir name perm v Hh Hp). by destruct (spec_Mkdir _ _ _ _ _).
  - pose proof (hangs_MkdirAll name perm v Hh). by destruct (spec_MkdirAll _ _ _ _).
  - pose proof (hangs_Remove name v Hh). by destruct (spec_Remove _ _ _).
  - pose proof (hangs_Rename fuel oldname newname v Hh Hp). by destruct (spec_Rename _ _ _).
  - pose proof (hangs_Chmod name mode v Hh). by destruct (spec_Chmod _ _ _ _).
  - pose proof (hangs_Chtimes name mtime v Hh). by destruct (spec_Chtimes _ _ _ _).
  - done.
  - pose proof (hangs_OpenFile name flag perm v Hh Hp). by destruct (spec_OpenFile _ _ _ _ _ _).
  - destruct Hp as [Hp _]. pose proof (hangs_OpenFile name flag perm v Hh Hp) as H1.
    destruct (spec_OpenFile _ _ _ _ _ _) as [[e|] v1]; [done|]. simpl in H1.
    destruct (v1 !! name) as [n|] eqn:En; [|done]. by apply hangs_write.
  - done.
Qed.

Lemma hangs_calls cs v :
  hangs v -> all_proper me now cs v ->
  calls_legal me now cs v /\ hangs (spec_calls me now cs v).2.
Proof.
  revert v. induction cs as [|c cs IH]; intros v Hh; simpl; [done|]. intros [Hc Hcs].
  pose proof (hangs_call c v Hh Hc) as Hh1. destruct (spec_call me now c v) as [a v1].
  destruct (IH v1 Hh1 Hcs) as [Hl Hh2]. destruct (spec_calls me now cs v1) as [rest v2].
  split; [|done]. split; [|done]. by apply proper_legal.
Qed.

(** ** A call that fails changes nothing *)
Lemma failed_call_keeps c v e :
  (forall name flag perm data, c = CallWrite name flag perm data -> open_kind flag <> ReadOnlyFile) ->
  (spec_call me now c v).1 = Done (Some e) -> (spec_call me now c v).2 = v.
Proof.
  intros Hc. destruct c; simpl; try done.
  - unfold spec_Mkdir. by repeat (case_match; simplify_eq/=).
  - unfold spec_MkdirAll. by repeat (case_match; simplify_eq/=).
  - unfold spec_Remove. by repeat (case_match; simplify_eq/=).
  - unfold spec_Rename, spec_rename_file. by repeat (case_match; simplify_eq/=).
  - unfold spec_Chmod. by repeat (case_match; simplify_eq/=).
  - unfold spec_Chtimes. by repeat (case_match; simplify_eq/=).
  - unfold spec_OpenFile, spec_finish_open, spec_truncate0. by repeat (case_match; simplify_eq/=).
  - specialize (Hc _ _ _ _ eq_refl). unfold spec_write, spec_OpenFile, spec_finish_open, spec_truncate0.
    by repeat (case_match; simplify_eq/=).
Qed.
End calls.
