(* ===== verification/DirSpec.v ===== *)
(** * Listing directories

    What [file.ReadDir] returns: the entries of the directory, page by page,
    each of them once. *)
From S2P Require Import Prelude.
From S2P Require Import Paths.
From S2P Require Import Errors.
From S2P Require Import Modes.
From S2P Require Import Blob.
From S2P Require Import BlobSpec.
From S2P Require Import Record.
From S2P Require Import Txn.
From S2P Require Import KVFile.
From S2P Require Import KVFS.
From S2P Require Import StoreSpec.
From S2P Require Import FSSpec.
From S2P Require Import TreeFS.
From S2P Require Import TreeOps.
From S2P Require Import FileSpec.
From S2P Require Import FileIO.

Local Open Scope string_scope.

Section listing.
Context {ST R T : Type} `{!RecordOps ST R, !Store ST R T, !GoRuntime, !LawfulStore ST R T}.
Notation W := (world ST).
Notation F := (file ST R).
Implicit Types (w : W) (t : tree) (fd : fileData ST R).

(** The entry has the name [x] and describes the entry of the tree there. *)
Definition describes t (dir x : string) (d : dirEntry ST R) : Prop :=
  baseName d = x /\
  exists e i, t !! Join [dir; x] = Some e /\ entry_info d = Some i /\ info_of (Join [dir; x]) e i.

(** The names lead to paths of the tree. *)
Definition lead_to t (dir : string) (names : list string) : Prop :=
  Forall (fun x => is_Some (t !! Join [dir; x])) names.

Lemma children_lead_to t dir names :
  (forall k e, t !! k = Some e -> ValidPath k = true) ->
  names ≡ₚ children t dir -> lead_to t dir names.
Proof.
  intros Hv Hn. apply Forall_forall. intros x. rewrite Hn, elem_of_children.
  intros (k & [e Ek] & Hc). destruct (child_of_Some dir k x (Hv k e Ek) Hc) as (<- & _).
  by eexists.
Qed.

Lemma newDirEntries_run dir names w t :
  holds (w_store w) t -> lead_to t dir names ->
  exists es s, newDirEntries dir names w = (Ret (es, None), set_store s w) /\ holds s t /\
    Forall2 (describes t dir) names es.
Proof.
  intros Ht Hl. revert w Ht. induction Hl as [|x names [e Ex] Hl IH]; intros w Ht; simpl.
  { exists [], (w_store w). by destruct w. }
  destruct (Stat_spec (Join [dir; x]) w t Ht) as (i & s & E & Hs & Hi).
  unfold stat_error in *. rewrite (law_keys _ _ _ _ Ht Ex), Ex in *.
  simpl in Hi. destruct Hi as (i' & -> & Hi).
  destruct (IH (set_store s w) Hs) as (es & s2 & E2 & Hs2 & Hes).
  exists (MkDirEntry x (Some i') :: es), s2. unfold newDirEntry. rewrite bind_assoc.
  run E. go_simpl. run E2.
  split_and!; [by destruct w|done|]. constructor; [|done]. split; [done|]. by exists e, i'.
Qed.

(** The handle lists [names]; from then on it remembers them. *)
Definition lists fd fd' (names : list string) w : Prop :=
  forall off fl, f_ReadDirNames (MkFile (Some fd) off fl, w) =
    (Ret (names, None), (MkFile (Some fd') off fl, w)).

Lemma lists_again fd names w : ro_dirNames (fd_ro fd) = Some (names, None) -> lists fd fd names w.
Proof.
  intros E off fl. apply on_data_run.
  assert (set_ro (fd_ro fd) fd = fd) as Heq by by destruct fd. rewrite <- Heq at 2.
  apply on_ro_run. unfold ro_ReadDirNames, with_ro, once. cbn [fst]. by rewrite E.
Qed.

Lemma lists_first name e rec w t :
  is_record name e rec -> ValidPath name = true -> IsDir (e_mode e) = true ->
  holds (w_store w) t ->
  let fd := record_fd name (Some (StoreRecord rec)) in
  exists names, names ≡ₚ children t name /\
    lists fd (set_ro (store_dirNames (names, None) (fd_ro fd)) fd) names w.
Proof.
  intros Hrec Hv Hd Ht fd. destruct (law_names name e rec w t Hrec Hv Ht) as (names & Hn & E).
  rewrite Hd in E. exists names. split; [done|]. intros off fl.
  apply on_data_run. apply on_ro_run. unfold ro_ReadDirNames, with_ro, once, on_record. simpl.
  by rewrite E.
Qed.

(** One page. *)
Lemma ReadDir_run fd fd' names w t off fl n :
  holds (w_store w) t -> lists fd fd' names w -> lead_to t (path fd') names ->
  (0 < n)%Z -> (0 <= off <= Z.of_nat (length names))%Z -> is_int64 (off + n) ->
  let end_ := Z.min (Z.of_nat (length names)) (off + n) in
  exists es s, ReadDir n (MkFile (Some fd) off fl, w) =
      (Ret (es, None), (MkFile (Some fd') end_ fl, set_store s w)) /\
    holds s t /\ Forall2 (describes t (path fd')) (take (Z.to_nat n) (drop (Z.to_nat off) names)) es.
Proof.
  intros Ht Hl Hle Hn Ho Hi end_.
  destruct (newDirEntries_run (path fd') (take (Z.to_nat n) (drop (Z.to_nat off) names)) w t Ht)
    as (es & s & E & Hs & Hes); [by apply Forall_take, Forall_drop|].
  exists es, s. split_and!; [|done|done]. unfold ReadDir. run (Hl off fl).
  unfold get_offset. rewrite bind_gets. cbn [fst offset].
  rewrite (add64_id off n) by done. destruct (Z.leb_spec n 0); [lia|].
  unfold is_int64, int64_min, int64_max in Hi.
  assert (Hend : (if Z.of_nat (length names) <? off + n then Z.of_nat (length names)
                  else off + n)%Z = end_) by (destruct (Z.ltb_spec (Z.of_nat (length names)) (off + n)); lia).
  rewrite Hend. unfold f_path. rewrite (bind_Ret _ _ _ (path fd') (MkFile (Some fd') off fl, w)) by done.
  rewrite (sub64_id end_ off) by int64.
  destruct ((0 <=? off)%Z && (off <=? end_)%Z && (end_ <=? Z.of_nat (length names))%Z) eqn:Hb; [|lia].
  assert (Htake : take (Z.to_nat (end_ - off)) (drop (Z.to_nat off) names) =
                  take (Z.to_nat n) (drop (Z.to_nat off) names)).
  { destruct (Z.min_spec (Z.of_nat (length names)) (off + n)) as [[? Em]|[? Em]].
    - rewrite !take_ge by (rewrite length_drop; lia). done.
    - f_equal. lia. }
  rewrite Htake. erewrite bind_Ret; [|apply in_world_run; exact E].
  cbv iota beta. rewrite bind_gets. cbn [fst offset].
  rewrite (add64_id off (end_ - off)) by int64.
  replace (off + (end_ - off))%Z with end_ by lia. done.
Qed.
End listing.
