(* ===== verification/FileRun.v ===== *)
(** * Whole histories of an open file

    The calls a client makes on one open file as a sequence: the methods of
    [file], behind [readOnlyFile] or [writeOnlyFile] where [OpenFile] put them,
    against a file that is bytes and an offset. *)
From S2P Require Import Prelude.
From S2P Require Import Paths.
From S2P Require Import Errors.
From S2P Require Import Modes.
From S2P Require Import Blob.
From S2P Require Import BlobSpec.
From S2P Require Import Record.
From S2P Require Import Txn.
From S2P Require Import KVFile.
From S2P Require Import KVFS.
From S2P Require Import StoreSpec.
From S2P Require Import FSSpec.
From S2P Require Import TreeFS.
From S2P Require Import TreeOps.
From S2P Require Import FileSpec.
From S2P Require Import FileIO.
From S2P Require Import TreeRename.
From S2P Require Import FSRun.

Local Open Scope string_scope.

Inductive file_op :=
  | OpRead (len : nat)
  | OpReadAt (len : nat) (off : Z)
  | OpWrite (data : list byte)
  | OpWriteAt (data : list byte) (off : Z)
  | OpSeek (off whence : Z)
  | OpTruncate (size : Z).

(** A count or position, or bytes; with the error. *)
Inductive file_answer :=
  | Count (n : Z) (e : err)
  | Got (data : list byte) (e : err).

Section run.
Context {ST R T : Type} `{!RecordOps ST R, !Store ST R T, !GoRuntime}.
Notation W := (world ST).
Notation F := (file ST R).

(** Fill a fresh buffer of [len] bytes with [m], and keep what was read. *)
Definition read_with (len : nat) (m : slice -> M (F * W) (Z * err)) : M (F * W) file_answer :=
  p <- in_world (in_heap (make_slice (replicate len zero))) ;;
  let* (n, e) := m p in
  data <- in_world (in_heap (gets (fun h => read_slice h p))) ;;
  ret (Got (take (Z.to_nat n) data) e).
Definition write_with (data : list byte) (m : slice -> M (F * W) (Z * err)) :
    M (F * W) file_answer :=
  p <- in_world (in_heap (make_slice data)) ;;
  let* (n, e) := m p in ret (Count n e).

Definition run_file_op (a : access) (op : file_op) : M (F * W) file_answer :=
  match op with
  | OpRead len => read_with len (handle_Read a)
  | OpReadAt len o => read_with len (fun p => ReadAtFile a p o)
  | OpWrite data => write_with data (WriteFile a)
  | OpWriteAt data o => write_with data (fun p => WriteAtFile a p o)
  | OpSeek o whence => let* (n, e) := SeekFile a o whence in ret (Count n e)
  | OpTruncate size => e <- TruncateFile a size ;; ret (Count 0 e)
  end.

Fixpoint run_file_ops (a : access) (ops : list file_op) : M (F * W) (list file_answer) :=
  match ops with
  | [] => ret []
  | op :: ops =>
      r <- run_file_op a op ;; rest <- run_file_ops a ops ;; ret (r :: rest)
  end.

(** Open a file and go on with it. *)
Definition with_open {A} (name : string) (flag perm : Z)
    (use : access -> M (F * W) A) : M W (err * option A) :=
  let* (h, e) := OpenFile name flag perm in
  match e, h with
  | Some e, _ => ret (Some e, None)
  | None, None => nil_deref
  | None, Some h =>
      let* (a, _) := on_var (underlying h) (use (kind h)) in ret (None, Some a)
  end.
End run.

(** ** The same on bytes and an offset *)
Section spec.
Context (t : Z) (name : string) (a : access) (fl : Z).

Definition not_implemented (op : string) : err :=
  Some (PathError op (Base name) ErrNotImplemented).

Definition write_node (n : node) (o : Z) (data : list byte) : node :=
  MkNode (n_mode n) (if bool_decide (data = []) then n_modTime n else t)
    (write_at (n_data n) (Z.to_nat o) data).

(** Where a write at [o] goes. *)
Definition write_pos (n : node) (o : Z) : Z :=
  if has_flag fl FlagAppend then Z.of_nat (length (n_data n)) else o.

Definition read_answer (n : node) (len : nat) (o : Z) : file_answer :=
  Got (take (Z.to_nat (read_count (n_data n) (Z.of_nat len) o)) (drop (Z.to_nat o) (n_data n)))
      (read_err (n_data n) (Z.of_nat len) o).

Definition seek_base (n : node) (off whence : Z) : option Z :=
  if (whence =? 0)%Z then Some 0%Z else if (whence =? 1)%Z then Some off
  else if (whence =? 2)%Z then Some (Z.of_nat (length (n_data n))) else None.

Definition spec_file_op (op : file_op) (n : node) (off : Z) : file_answer * (node * Z) :=
  match op with
  | OpRead len =>
      match a with
      | WriteOnlyFile => (Got [] (Some (PathError "read" name ErrNotImplemented)), (n, off))
      | _ => (read_answer n len off,
              (n, (off + read_count (n_data n) (Z.of_nat len) off)%Z))
      end
  | OpReadAt len o =>
      if has_method a MReadAt then (read_answer n len o, (n, off))
      else (Got [] (not_implemented "readat"), (n, off))
  | OpWrite data =>
      if has_method a MWrite then
        (Count (Z.of_nat (length data)) None,
         (write_node n (write_pos n off) data, (off + Z.of_nat (length data))%Z))
      else (Count 0 (not_implemented "write"), (n, off))
  | OpWriteAt data o =>
      if has_method a MWriteAt then
        (Count (Z.of_nat (length data)) None, (write_node n (write_pos n o) data, off))
      else (Count 0 (not_implemented "writeat"), (n, off))
  | OpSeek o whence =>
      match seek_base n off whence with
      | Some b =>
          if (b + o <? 0)%Z then (Count 0 (Some (PathError "seek" name ErrInvalid)), (n, off))
          else (Count (b + o) None, (n, (b + o)%Z))
      | None => (Count 0 (Some (PathError "seek" name ErrInvalid)), (n, off))
      end
  | OpTruncate size =>
      if IsDir (n_mode n) then (Count 0 (Some (PathError "truncate" name ErrIsDir)), (n, off))
      else if (size <? 0)%Z then (Count 0 (Some (PathError "truncate" name ErrInvalid)), (n, off))
      else (Count 0 None,
            (MkNode (n_mode n)
               (if (size =? Z.of_nat (length (n_data n)))%Z then n_modTime n else t)
               (resize (n_data n) (Z.to_nat size)), off))
  end.

(** No offset or size overflows, and [ReadAt] and [WriteAt] get an offset that
    is not negative. *)
Definition op_legal (op : file_op) (n : node) (off : Z) : Prop :=
  match op with
  | OpRead len => is_int64 (off + Z.of_nat len)
  | OpReadAt len o => (0 <= o)%Z /\ is_int64 (o + Z.of_nat len)
  | OpWrite data => is_int64 (off + Z.of_nat (length data)) /\
                    is_int64 (write_pos n off + Z.of_nat (length data))
  | OpWriteAt data o => (0 <= o)%Z /\ is_int64 (write_pos n o + Z.of_nat (length data))
  | OpSeek o whence => forall b, seek_base n off whence = Some b -> is_int64 (b + o)
  | OpTruncate size => is_int64 size
  end.

Fixpoint spec_file_ops (ops : list file_op) (n : node) (off : Z) :
    list file_answer * (node * Z) :=
  match ops with
  | [] => ([], (n, off))
  | op :: ops =>
      let '(r, (n, off)) := spec_file_op op n off in
      let '(rest, s) := spec_file_ops ops n off in (r :: rest, s)
  end.
Fixpoint ops_legal (ops : list file_op) (n : node) (off : Z) : Prop :=
  match ops with
  | [] => True
  | op :: ops =>
      op_legal op n off /\
      let '(_, (n, off)) := spec_file_op op n off in ops_legal ops n off
  end.

#[export] Instance op_legal_dec op n off : Decision (op_legal op n off).
Proof.
  destruct op; simpl; try apply _. destruct (seek_base n off whence) as [b|].
  - destruct (decide (is_int64 (b + off0))); [left; by intros ? [= <-]|right; intros H].
    by apply n0, H.
  - by left.
Defined.
#[export] Instance ops_legal_dec ops n off : Decision (ops_legal ops n off).
Proof.
  revert n off. induction ops as [|op ops IH]; intros n off; simpl; [apply _|].
  destruct (spec_file_op op n off) as [r [n' off']]. apply _.
Defined.
End spec.

(** ** Refinement *)
Section refine.
Context {ST R T : Type} `{!RecordOps ST R, !Store ST R T, !GoRuntime, !LawfulStore ST R T}.
Notation W := (world ST).
Notation F := (file ST R).
Implicit Types (w : W) (t : tree) (v : nodes) (f : F).

(** The file is open on a node of the world. *)
Definition open_on w v (name : string) (fl : Z) (n : node) (off : Z) f : Prop :=
  exists t e fd, fs_at w t /\ v = view (w_heap w) t /\ t !! name = Some e /\
    n = to_node (w_heap w) e /\ handle_of w name e fd /\ (0 <= off)%Z /\
    f = opened_file fd off fl.

Lemma open_on_lookup w v name fl n off f : open_on w v name fl n off f -> v !! name = Some n.
Proof. intros (t & e & fd & _ & -> & Et & -> & _). by rewrite view_lookup, Et. Qed.

Definition op_answers a name fl op w v n off f : Prop :=
  let '(r, (n', off')) := spec_file_op (w_now w) name a fl op n off in
  exists f' w', run_file_op a op (f, w) = (Ret r, (f', w')) /\
    open_on w' (<[name := n']> v) name fl n' off' f' /\ w_now w' = w_now w.

(** A fresh buffer does not get in the way. *)
Lemma buffer_at w t name e fd data :
  fs_at w t -> t !! name = Some e -> handle_of w name e fd ->
  exists p w1, in_heap (make_slice data) w = (Ret p, w1) /\ fs_at w1 t /\
    handle_of w1 name e fd /\ private (w_heap w1) t p /\ read_slice (w_heap w1) p = data /\
    s_len p = length data /\ view (w_heap w1) t = view (w_heap w) t /\ w_now w1 = w_now w /\
    blob_bytes (w_heap w1) (e_data e) = blob_bytes (w_heap w) (e_data e).
Proof.
  intros Hat Et Ho.
  destruct (make_slice_private w t data Hat) as (p & h' & Ep & Hwf' & He & Hat' & Hv & Hp & Hr & Hl).
  exists p, (set_heap h' w). split_and!; try done.
  - apply handle_of_ext; [apply Hat|by apply (at_live w t Hat name)|done|done].
  - by apply (view_bytes _ _ t name e Hv).
Qed.

Lemma read_slice_run (p : slice) f w :
  in_world (in_heap (gets (fun h => read_slice h p))) (f, w) =
    (Ret (read_slice (w_heap w) p), (f, w)).
Proof. by destruct w. Qed.

(** What a read left in the buffer. *)
Lemma take_read (c old : list byte) (len : nat) (o : Z) :
  (0 <= o)%Z ->
  let n := Z.to_nat (read_count c (Z.of_nat len) o) in
  take n (take n (drop (Z.to_nat o) c) ++ drop n old) = take n (drop (Z.to_nat o) c).
Proof.
  intros Hpos n. destruct (decide (n = 0)) as [->|Hn]; [by rewrite !take_0|].
  rewrite take_app_le; [by rewrite take_take, Nat.min_id|].
  rewrite length_take, length_drop. unfold n, read_count in *. lia.
Qed.

Lemma read_at_answers (m : slice -> M (F * W) (Z * err)) (len : nat) (o off off' : Z) name fl w t e fd :
  fs_at w t -> t !! name = Some e -> handle_of w name e fd -> (0 <= o)%Z -> (0 <= off')%Z ->
  let n := to_node (w_heap w) e in
  (forall p w1, fs_at w1 t -> handle_of w1 name e fd -> private (w_heap w1) t p -> s_len p = len ->
     let c := blob_bytes (w_heap w1) (e_data e) in
     c = n_data n ->
     exists fd' w', m p (opened_file fd off fl, w1) =
       (Ret (read_count c (Z.of_nat len) o, read_err c (Z.of_nat len) o),
        (opened_file fd' off' fl, w')) /\
     fs_at w' t /\ handle_of w' name e fd' /\ w_now w' = w_now w1 /\
     view (w_heap w') t = view (w_heap w1) t /\ wf_slice (w_heap w') p /\
     read_slice (w_heap w') p =
       (take (Z.to_nat (read_count c (Z.of_nat len) o)) (drop (Z.to_nat o) c) ++
        drop (Z.to_nat (read_count c (Z.of_nat len) o)) (read_slice (w_heap w1) p))%list) ->
  exists f' w', read_with len m (opened_file fd off fl, w) = (Ret (read_answer n len o), (f', w')) /\
    open_on w' (<[name := n]> (view (w_heap w) t)) name fl n off' f' /\ w_now w' = w_now w.
Proof.
  intros Hat Et Ho Hpos Hoff n Hm.
  destruct (buffer_at w t name e fd (replicate len zero) Hat Et Ho)
    as (p & w1 & Ep & Hat1 & Ho1 & Hp & Hr & Hl & Hv1 & Hn1 & Hc). rewrite length_replicate in Hl.
  destruct (Hm p w1 Hat1 Ho1 Hp Hl Hc) as (fd' & w' & E & Hat' & Ho' & Hn' & Hv' & _ & Hread).
  exists (opened_file fd' off' fl), w'. split_and!.
  - unfold read_with. erewrite bind_Ret; [|apply in_world_run; exact Ep]. run E.
    rewrite (bind_Ret _ _ _ _ _ (read_slice_run p _ w')). unfold read_answer, ret.
    rewrite Hread, take_read, Hc by done. done.
  - exists t, e, fd'. rewrite Hv1 in Hv'.
    assert (En : to_node (w_heap w') e = n).
    { pose proof (view_bytes _ _ t name e Hv' Et) as Eb. unfold n, to_node. by rewrite Eb. }
    split_and!; try done. rewrite Hv'. apply insert_id. by rewrite view_lookup, Et.
  - by rewrite Hn', Hn1.
Qed.

Lemma write_answers (m : slice -> M (F * W) (Z * err)) data (o off off' : Z) name fl w t e fd :
  fs_at w t -> t !! name = Some e -> handle_of w name e fd -> (0 <= off')%Z ->
  let n := to_node (w_heap w) e in
  let n' := write_node (w_now w) n o data in
  (forall p w1, fs_at w1 t -> handle_of w1 name e fd -> private (w_heap w1) t p ->
     read_slice (w_heap w1) p = data -> w_now w1 = w_now w ->
     blob_bytes (w_heap w1) (e_data e) = n_data n -> view (w_heap w1) t = view (w_heap w) t ->
     let e' := MkEntry (e_data e) (e_mode e) (n_modTime n') in
     exists fd' w', m p (opened_file fd off fl, w1) =
       (Ret (Z.of_nat (length data), None), (opened_file fd' off' fl, w')) /\
     fs_at w' (<[name := e']> t) /\ handle_of w' name e' fd' /\ w_now w' = w_now w1 /\
     view (w_heap w') (<[name := e']> t) = <[name := n']> (view (w_heap w) t)) ->
  exists f' w', write_with data m (opened_file fd off fl, w) =
      (Ret (Count (Z.of_nat (length data)) None), (f', w')) /\
    open_on w' (<[name := n']> (view (w_heap w) t)) name fl n' off' f' /\ w_now w' = w_now w.
Proof.
  intros Hat Et Ho Hoff n n' Hm.
  destruct (buffer_at w t name e fd data Hat Et Ho)
    as (p & w1 & Ep & Hat1 & Ho1 & Hp & Hr & Hl & Hv1 & Hn1 & Hc).
  destruct (Hm p w1 Hat1 Ho1 Hp Hr Hn1 Hc Hv1) as (fd' & w' & E & Hat' & Ho' & Hn' & Hv').
  exists (opened_file fd' off' fl), w'. split_and!.
  - unfold write_with. erewrite bind_Ret; [|apply in_world_run; exact Ep]. by run E.
  - eexists _, _, fd'. split_and!; [exact Hat'|done|by rewrite lookup_insert_eq| |exact Ho'|done|done].
    apply (f_equal (fun v : nodes => v !! name)) in Hv'.
    rewrite view_lookup, !lookup_insert_eq in Hv'. symmetry. exact (inj Some _ _ Hv').
  - by rewrite Hn', Hn1.
Qed.

(** The errors that leave everything as it is. *)
Lemma refused_answers a m opname {A} (zero : A) (run : M (F * W) (A * err)) fd off fl w name e :
  has_method a m = false -> handle_of w name e fd ->
  method_or a m opname zero run (opened_file fd off fl, w) =
    (Ret (zero, not_implemented name opname), (opened_file fd off fl, w)).
Proof.
  intros Hm [[Hp _ _ _] _]. unfold method_or, not_implemented. rewrite Hm, <- Hp. done.
Qed.

Lemma open_on_same w t name fl off e fd :
  fs_at w t -> t !! name = Some e -> handle_of w name e fd -> (0 <= off)%Z ->
  open_on w (<[name := to_node (w_heap w) e]> (view (w_heap w) t)) name fl
    (to_node (w_heap w) e) off (opened_file fd off fl).
Proof.
  intros Hat Et Ho Hoff. exists t, e, fd. split_and!; try done.
  apply insert_id. by rewrite view_lookup, Et.
Qed.

(** A write that is refused leaves the caller's buffer behind, nothing else. *)
Lemma refused_with data (m : slice -> M (F * W) (Z * err)) er (k : slice -> Z * err -> M (F * W) file_answer)
    (r : file_answer) fl off w t name e fd :
  fs_at w t -> t !! name = Some e -> handle_of w name e fd -> (0 <= off)%Z ->
  (forall p w1, handle_of w1 name e fd ->
     m p (opened_file fd off fl, w1) = (Ret (0%Z, er), (opened_file fd off fl, w1))) ->
  (forall p w1, k p (0%Z, er) (opened_file fd off fl, w1) = (Ret r, (opened_file fd off fl, w1))) ->
  exists f' w',
    (p <- in_world (in_heap (make_slice data)) ;; x <- m p ;; k p x) (opened_file fd off fl, w) =
      (Ret r, (f', w')) /\
    open_on w' (<[name := to_node (w_heap w) e]> (view (w_heap w) t)) name fl
      (to_node (w_heap w) e) off f' /\ w_now w' = w_now w.
Proof.
  intros Hat Et Ho Hoff Hm Hk.
  destruct (buffer_at w t name e fd data Hat Et Ho)
    as (p & w1 & Ep & Hat1 & Ho1 & Hp & Hr & Hl & Hv1 & Hn1 & Hc).
  exists (opened_file fd off fl), w1. split_and!; [| |done].
  - erewrite bind_Ret; [|apply in_world_run; exact Ep].
    rewrite (bind_Ret _ _ _ _ _ (Hm p w1 Ho1)). apply Hk.
  - pose proof (open_on_same w1 t name fl off e fd Hat1 Et Ho1 Hoff) as Hsame.
    assert (to_node (w_heap w1) e = to_node (w_heap w) e) as <- by (unfold to_node; by rewrite Hc).
    by rewrite <- Hv1.
Qed.

Lemma Truncate_answers a size w t name fl off e fd :
  fs_at w t -> t !! name = Some e -> handle_of w name e fd -> (0 <= off)%Z ->
  w_now w <> 0%Z -> is_int64 size ->
  op_answers a name fl (OpTruncate size) w (view (w_heap w) t) (to_node (w_heap w) e) off
    (opened_file fd off fl).
Proof.
  intros Hat Et Ho Hoff Hnow Hi. unfold op_answers. cbn [spec_file_op run_file_op].
  assert (EM : TruncateFile (ST := ST) (R := R) (T := T) a size =
    (let* (_, e) := (e <- FileTruncate size ;; ret (tt, e)) in ret e)) by by destruct a.
  rewrite EM. clear EM. cbn [to_node n_mode n_data n_modTime].
  destruct (IsDir (e_mode e)) eqn:Hd.
  { destruct (f_Mode_run w name e fd off fl Ho) as (fd1 & E1 & Ho1).
    exists (opened_file fd1 off fl), w. split_and!; [|by apply open_on_same|done].
    unfold FileTruncate. rewrite !bind_assoc. run E1. rewrite Hd.
    destruct Ho1 as [[Hpath _ _ _] _]. unfold path_error, f_path, on_data, bind, gets, ret. simpl.
    by rewrite Hpath. }
  destruct (Z.ltb_spec size 0) as [Hneg|Hpos].
  { destruct (f_Mode_run w name e fd off fl Ho) as (fd1 & E1 & Ho1).
    destruct (f_Size_run w t name e fd1 off fl Hat Et Ho1) as (fd2 & E2 & Ho2 & _).
    exists (opened_file fd2 off fl), w. split_and!; [|by apply open_on_same|done].
    unfold FileTruncate. rewrite !bind_assoc. run E1. rewrite Hd, !bind_assoc. run E2.
    destruct (Z.ltb_spec size 0); [|lia].
    destruct Ho2 as [[Hpath _ _ _] _]. unfold path_error, f_path, on_data, bind, gets, ret. simpl.
    by rewrite Hpath. }
  destruct (FileTruncate_at w t name e fd off fl size Hat Et Ho Hd Hpos Hi (fun _ => Hnow))
    as (fd' & w' & E & Hat' & Ho' & Hn' & Hv').
  set (c := blob_bytes (w_heap w) (e_data e)) in *.
  eexists _, w'. split_and!; [rewrite !bind_assoc; by run E| |done].
  eexists _, _, fd'. split_and!; [exact Hat'| |by rewrite lookup_insert_eq| |exact Ho'|done|done].
  - rewrite Hv'. by destruct (size =? _)%Z.
  - apply (f_equal (fun v : nodes => v !! name)) in Hv'.
    rewrite view_lookup, !lookup_insert_eq in Hv'. apply (inj Some) in Hv'. rewrite Hv'.
    by destruct (size =? _)%Z.
Qed.

Lemma Seek_answers a o whence w t name fl off e fd :
  fs_at w t -> t !! name = Some e -> handle_of w name e fd -> (0 <= off)%Z ->
  op_legal fl (OpSeek o whence) (to_node (w_heap w) e) off ->
  op_answers a name fl (OpSeek o whence) w (view (w_heap w) t) (to_node (w_heap w) e) off
    (opened_file fd off fl).
Proof.
  intros Hat Et Ho Hoff Hl. unfold op_answers. cbn [spec_file_op run_file_op].
  assert (EM : SeekFile (ST := ST) (R := R) a o whence = Seek o whence) by by destruct a.
  rewrite EM. clear EM.
  destruct (Seek_at w t name e fd off fl o whence Hat Et Ho Hl) as (fd' & Ho' & E).
  change (if (whence =? 0)%Z then Some 0%Z else _) with
    (seek_base (to_node (w_heap w) e) off whence) in E.
  destruct (seek_base _ off whence) as [b|]; [destruct (Z.ltb_spec (b + o) 0)|];
    (eexists _, w; split_and!; [by run E|by apply open_on_same|done]).
Qed.

Lemma Read_answers a len w t name fl off e fd :
  fs_at w t -> t !! name = Some e -> handle_of w name e fd -> (0 <= off)%Z ->
  op_legal fl (OpRead len) (to_node (w_heap w) e) off ->
  op_answers a name fl (OpRead len) w (view (w_heap w) t) (to_node (w_heap w) e) off
    (opened_file fd off fl).
Proof.
  intros Hat Et Ho Hoff Hl. unfold op_answers. cbn [spec_file_op run_file_op].
  assert (Ha : a = WriteOnlyFile \/
    a <> WriteOnlyFile /\ handle_Read (ST := ST) (R := R) a = Read) by (destruct a; auto).
  destruct Ha as [->|[Hne Ha]].
  - unfold read_with. eapply (refused_with _ _ (Some (PathError "read" name ErrNotImplemented)) _ _ fl off w t name e fd); [done..| |].
    + intros p w1 [[Hp _ _ _] _]. simpl. unfold writeOnly_Read, path_error, f_path, on_data, bind, gets, ret.
      simpl. rewrite Hp. reflexivity.
    + intros p w1. by rewrite (bind_Ret _ _ _ _ _ (read_slice_run p _ w1)).
  - rewrite Ha.
    replace (match a with WriteOnlyFile => _ | _ => _ end) with
      (read_answer (to_node (w_heap w) e) len off,
       (to_node (w_heap w) e,
        (off + read_count (n_data (to_node (w_heap w) e)) (Z.of_nat len) off)%Z)).
    2: { by destruct a. }
    apply (read_at_answers _ len off off _ name fl w t e fd); try done.
    { unfold read_count. lia. }
    intros p w1 Hat1 Ho1 Hp Hlen c Hc.
    pose proof (Read_at w1 t name e fd off fl p Hat1 Et Ho1 Hp Hoff) as HR.
    rewrite Hlen in HR. specialize (HR Hl). cbv zeta in HR. fold c in HR. by rewrite Hc in *.
Qed.

Lemma ReadAt_answers a len o w t name fl off e fd :
  fs_at w t -> t !! name = Some e -> handle_of w name e fd -> (0 <= off)%Z ->
  op_legal fl (OpReadAt len o) (to_node (w_heap w) e) off ->
  op_answers a name fl (OpReadAt len o) w (view (w_heap w) t) (to_node (w_heap w) e) off
    (opened_file fd off fl).
Proof.
  intros Hat Et Ho Hoff [Ho0 Hl]. unfold op_answers. cbn [spec_file_op run_file_op].
  destruct (has_method a MReadAt) eqn:Hm.
  - apply (read_at_answers _ len o off _ name fl w t e fd); try done.
    intros p w1 Hat1 Ho1 Hp Hlen c Hc. unfold ReadAtFile, method_or. rewrite Hm.
    pose proof (ReadAt_at w1 t name e fd off fl p o Hat1 Et Ho1 Hp Ho0) as HR.
    rewrite Hlen in HR. exact (HR Hl).
  - unfold read_with. eapply (refused_with _ _ (not_implemented name "readat") _ _ fl off w t name e fd); [done..| |].
    + intros p w1 Ho1. by apply (refused_answers a MReadAt "readat" _ _ fd off fl w1 name e).
    + intros p w1. by rewrite (bind_Ret _ _ _ _ _ (read_slice_run p _ w1)).
Qed.

Lemma Write_answers a data w t name fl off e fd :
  fs_at w t -> t !! name = Some e -> handle_of w name e fd -> (0 <= off)%Z -> w_now w <> 0%Z ->
  op_legal fl (OpWrite data) (to_node (w_heap w) e) off ->
  op_answers a name fl (OpWrite data) w (view (w_heap w) t) (to_node (w_heap w) e) off
    (opened_file fd off fl).
Proof.
  intros Hat Et Ho Hoff Hnow [Hl1 Hl2]. unfold op_answers. cbn [spec_file_op run_file_op].
  destruct (has_method a MWrite) eqn:Hm.
  - apply (write_answers _ data _ off _ name fl w t e fd); try done; [lia|].
    intros p w1 Hat1 Ho1 Hp Hr Hn1 Hc Hv e'. unfold WriteFile, method_or. rewrite Hm.
    pose proof (Write_at w1 t name e fd off fl p Hat1 Et Ho1 Hp) as HW.
    rewrite Hr, Hn1, Hc, Hv in HW. rewrite Hn1. exact (HW Hnow Hoff Hl1 Hl2).
  - unfold write_with. eapply (refused_with _ _ (not_implemented name "write") _ _ fl off w t name e fd); [done..| |done].
    intros p w1 Ho1. by apply (refused_answers a MWrite "write" _ _ fd off fl w1 name e).
Qed.

Lemma WriteAt_answers a data o w t name fl off e fd :
  fs_at w t -> t !! name = Some e -> handle_of w name e fd -> (0 <= off)%Z -> w_now w <> 0%Z ->
  op_legal fl (OpWriteAt data o) (to_node (w_heap w) e) off ->
  op_answers a name fl (OpWriteAt data o) w (view (w_heap w) t) (to_node (w_heap w) e) off
    (opened_file fd off fl).
Proof.
  intros Hat Et Ho Hoff Hnow [Ho0 Hl]. unfold op_answers. cbn [spec_file_op run_file_op].
  destruct (has_method a MWriteAt) eqn:Hm.
  - apply (write_answers _ data _ off _ name fl w t e fd); try done.
    intros p w1 Hat1 Ho1 Hp Hr Hn1 Hc Hv e'. unfold WriteAtFile, method_or. rewrite Hm.
    pose proof (WriteAt_at w1 t name e fd off fl p o Hat1 Et Ho1 Hp) as HW.
    rewrite Hr, Hn1, Hc, Hv in HW. rewrite Hn1. exact (HW Hnow Ho0 Hl).
  - unfold write_with. eapply (refused_with _ _ (not_implemented name "writeat") _ _ fl off w t name e fd); [done..| |done].
    intros p w1 Ho1. by apply (refused_answers a MWriteAt "writeat" _ _ fd off fl w1 name e).
Qed.

Lemma run_file_op_answers a op w v name fl n off f :
  open_on w v name fl n off f -> w_now w <> 0%Z -> op_legal fl op n off ->
  op_answers a name fl op w v n off f.
Proof.
  intros (t & e & fd & Hat & -> & Et & -> & Ho & Hoff & ->) Hnow Hl. destruct op.
  - by apply Read_answers.
  - by apply ReadAt_answers.
  - by apply Write_answers.
  - by apply WriteAt_answers.
  - by apply Seek_answers.
  - by apply Truncate_answers.
Qed.

Lemma run_file_ops_answer a ops w v name fl n off f :
  open_on w v name fl n off f -> w_now w <> 0%Z ->
  ops_legal (w_now w) name a fl ops n off ->
  let '(rs, (n', off')) := spec_file_ops (w_now w) name a fl ops n off in
  exists f' w', run_file_ops a ops (f, w) = (Ret rs, (f', w')) /\
    open_on w' (<[name := n']> v) name fl n' off' f' /\ w_now w' = w_now w.
Proof.
  revert w v n off f. induction ops as [|op ops IH]; intros w v n off f Hop Hnow; simpl.
  { intros _. exists f, w. by rewrite insert_id by by apply (open_on_lookup w v name fl n off f). }
  intros [Hl Hls]. pose proof (run_file_op_answers a op w v name fl n off f Hop Hnow Hl) as Ha.
  unfold op_answers in Ha. destruct (spec_file_op _ _ _ _ _ _ _) as [r [n1 off1]].
  destruct Ha as (f1 & w1 & E1 & Hop1 & Hn1).
  specialize (IH w1 _ n1 off1 f1 Hop1). rewrite Hn1 in IH. specialize (IH Hnow Hls).
  destruct (spec_file_ops _ _ _ _ ops n1 off1) as [rest [n2 off2]].
  destruct IH as (f2 & w2 & E2 & Hop2 & Hn2). exists f2, w2.
  rewrite insert_insert_eq in Hop2. split_and!; [|done|done]. run E1. by run E2.
Qed.

Lemma OpenFile_open name flag perm w v n :
  fs_state w v -> w_now w <> 0%Z ->
  (spec_OpenFile missing_err (w_now w) name flag perm v).1 = None ->
  (spec_OpenFile missing_err (w_now w) name flag perm v).2 !! name = Some n ->
  exists f w', OpenFile name flag perm w = (Ret (Some (MkHandle (open_kind flag) f), None), w') /\
    open_on w' (spec_OpenFile missing_err (w_now w) name flag perm v).2 name flag n 0 f /\
    w_now w' = w_now w.
Proof.
  intros (t & Hat & ->) Hnow He Hn.
  destruct (OpenFile_at name flag perm w t Hat (fun _ => Hnow)) as (h & w1 & t1 & E & Hat1 & Hn1 & Hv1 & Hh).
  destruct (Hh He) as (fd & e & Et1 & Ho1 & ->). rewrite He in E.
  exists (opened_file fd 0 flag), w1. split_and!; [done| |done].
  exists t1, e, fd. split_and!; try done. rewrite <- Hv1, view_lookup, Et1 in Hn.
  by injection Hn.
Qed.
End refine.
