(* ===== verification/SerialSpec.v ===== *)
(** * Stores without transactions

    The serial transaction turns every plain [Store] that reads and writes a
    map into a [LawfulStore], so that all theorems about the file system hold
    for it as well; and its own laws: the results of a transaction are those of
    its operations in order, and an aborted transaction does nothing. *)
From S2P Require Import Prelude.
From S2P Require Import Paths.
From S2P Require Import Errors.
From S2P Require Import Modes.
From S2P Require Import Blob.
From S2P Require Import BlobSpec.
From S2P Require Import BlobThms.
From S2P Require Import Record.
From S2P Require Import Txn.
From S2P Require Import KVFile.
From S2P Require Import Mem.
From S2P Require Import StoreSpec.
From S2P Require Import MemSpec.

Local Open Scope string_scope.

(** What a store that is only [Get] and [Set] promises. *)
Class PlainStore (ST R T : Type) `{!RecordOps ST R, !Store ST R T} := {
  plain_holds : ST -> tree -> Prop;
  plain_record : string -> entry -> R -> Prop;
  plain_missing : string -> error;

  plain_no_txn : s_txn = None;
  plain_missing_Is name : error_Is (plain_missing name) ErrNotExist = true;
  plain_keys s m name e : plain_holds s m -> m !! name = Some e -> ValidPath name = true;

  plain_mode name e r : plain_record name e r -> rec_Mode r = e_mode e;
  plain_modTime name e r : plain_record name e r -> rec_ModTime r = e_modTime e;
  plain_data name e r w : plain_record name e r -> rec_Data r w = (Ret (Some (e_data e), None), w);
  plain_size name e r w :
    plain_record name e r -> rec_Size r w = in_heap (Blob_Len (e_data e)) w;
  plain_names name e r w m :
    plain_record name e r -> ValidPath name = true -> plain_holds (w_store w) m ->
    exists names, names ≡ₚ children m name /\
      rec_ReadDirNames r w =
        (Ret (if IsDir (e_mode e) then (names, None) else ([], Some ErrNotDir)), w);

  plain_get name w m :
    plain_holds (w_store w) m ->
    match m !! name with
    | Some e => exists rec, s_Get name w = (Ret (Some (StoreRecord rec), None), w) /\
                  plain_record name e rec
    | None => s_Get name w = (Ret (None, Some (plain_missing name)), w)
    end;
  plain_delete name w m :
    plain_holds (w_store w) m ->
    exists s, s_Set name None w = (Ret (None, None), set_store s w) /\
      plain_holds s (delete name m);
  plain_set name fd mode mtime b w h' m :
    plain_holds (w_store w) m -> ValidPath name = true ->
    fd_mode fd = Some mode -> fd_mtime fd = Some mtime -> gives fd (w_heap w) b h' ->
    exists fd' s, s_Set name (Some fd) w = (Ret (None, Some fd'), set_store s (set_heap h' w)) /\
      plain_holds s (<[name := MkEntry b mode mtime]> m) /\ fd_keeps fd fd' /\ loaded fd' b
}.

(** ** Serial transactions *)
Section serial.
Context {ST R T : Type} `{!RecordOps ST R, !Store ST R T}.
Notation W := (world ST).
Notation U := (unsafeSerialTransaction ST R).
Notation FD := (fileData ST R).
Implicit Types (u : U) (w : W) (rs : list (OpResult ST R)).

(** The transaction was not aborted, and its operations gave [rs]. *)
Record serial_open u rs : Prop := {
  so_ctx : u_ctx u = None;
  so_next : nextOp u = Z.of_nat (length rs);
  so_results i : results u !! i = if (0 <=? i)%Z then rs !! Z.to_nat i else None
}.

Lemma serial_new : serial_open new_serial [].
Proof. split; [done..|]. intros i. simpl. by destruct (0 <=? i)%Z. Qed.

Definition push (r : OpResult ST R) u : U :=
  MkSerial (u_ctx u) (add64 (nextOp u) 1) (<[nextOp u := r]> (results u)).

Lemma serial_push r u rs : serial_open u rs -> few rs -> serial_open (push r u) (rs ++ [r]).
Proof.
  intros [Hc Hn Hr] Hf. unfold few in Hf. split; simpl.
  - done.
  - rewrite Hn, add64_id, length_app by int64. simpl. lia.
  - intros i. rewrite Hn. destruct (decide (i = Z.of_nat (length rs))) as [->|Hne].
    + rewrite lookup_insert_eq, Nat2Z.id, (proj2 (Z.leb_le _ _)) by lia.
      by rewrite lookup_app_r, Nat.sub_diag by lia.
    + rewrite lookup_insert_ne, Hr by done. destruct (Z.leb_spec 0 i); [|done].
      destruct (Z.lt_ge_cases i (Z.of_nat (length rs))).
      * by rewrite lookup_app_l by lia.
      * rewrite !lookup_ge_None_2; [done| |]; rewrite ?length_app; simpl; lia.
Qed.

(** An operation on an open transaction: it takes the next number, and its
    result is stored under it. *)
Lemma newOp_run u rs w :
  serial_open u rs -> few rs ->
  newOp (u, w) =
    (Ret (Z.of_nat (length rs)), (MkSerial None (Z.of_nat (length rs) + 1) (results u), w)).
Proof.
  intros [Hc Hn _] Hf. unfold few in Hf. unfold newOp. rewrite bind_modify, bind_gets. simpl.
  rewrite Hc, Hn, add64_id by int64. unfold ret. rewrite sub64_id by int64. do 2 f_equal. lia.
Qed.

Lemma u_Get_run name u rs w rec e w' :
  serial_open u rs -> few rs -> s_Get name w = (Ret (rec, e), w') ->
  u_Get name (u, w) =
    (Ret (Z.of_nat (length rs)), (push (MkOpResult (Z.of_nat (length rs)) rec e) u, w')).
Proof.
  intros Ho Hf E. pose proof Ho as [Hc Hn _]. unfold few in Hf. unfold u_Get, u_GetHandler.
  run (newOp_run u rs w Ho Hf). rewrite bind_gets. cbn [u_ctx fst abortErr].
  erewrite bind_Ret; [|unfold in_world, zoom; cbn [fst snd]; rewrite E; reflexivity].
  cbv iota beta. unfold Txn.no_handler. rewrite bind_ret_l.
  unfold setResult. rewrite bind_modify. unfold push, ret. simpl.
  rewrite Hc, Hn, add64_id by int64. unfold with_handler_err. by destruct e.
Qed.

Lemma u_Set_run name src contents u rs w e src' w' :
  serial_open u rs -> few rs -> s_Set name src w = (Ret (e, src'), w') ->
  u_Set name src contents (u, w) =
    (Ret (Z.of_nat (length rs), src'),
     (push (MkOpResult (Z.of_nat (length rs)) None e) u, w')).
Proof.
  intros Ho Hf E. pose proof Ho as [Hc Hn _]. unfold few in Hf. unfold u_Set, u_SetHandler.
  run (newOp_run u rs w Ho Hf). rewrite bind_gets. cbn [u_ctx fst abortErr].
  erewrite bind_Ret; [|unfold in_world, zoom; cbn [fst snd]; rewrite E; reflexivity].
  cbv iota beta. unfold Txn.no_handler. rewrite bind_ret_l.
  unfold setResult. rewrite bind_modify. unfold push, ret. simpl.
  rewrite Hc, Hn, add64_id by int64. unfold with_handler_err. by destruct e.
Qed.

Lemma collect_run u rs : serial_open u rs -> collect (Z.of_nat (length rs)) (results u) = rs.
Proof.
  intros [_ _ Hr]. unfold collect. apply list_eq. intros i. rewrite list_lookup_fmap.
  destruct (decide (i < length rs)) as [Hi|Hi].
  - rewrite lookup_seqZ_lt by lia. simpl. rewrite Hr, (proj2 (Z.leb_le _ _)) by lia.
    replace (Z.to_nat (0 + Z.of_nat i)) with i by lia.
    by destruct (lookup_lt_is_Some_2 rs i Hi) as [r ->].
  - rewrite lookup_seqZ_ge by lia. simpl. symmetry. apply lookup_ge_None_2. lia.
Qed.

Lemma u_Commit_run pick u rs w :
  serial_open u rs ->
  u_Commit pick None (u, w) =
    (Ret (rs, None), (MkSerial (Some Canceled) (nextOp u) (results u), w)).
Proof.
  intros Ho. pose proof Ho as [Hc Hn Hr]. unfold u_Commit. rewrite bind_gets. simpl. rewrite Hc.
  simpl. unfold u_abort. rewrite bind_modify, !bind_gets. simpl. rewrite Hc, Hn.
  destruct (Z.ltb_spec (Z.of_nat (length rs)) 0); [lia|].
  rewrite bool_decide_eq_true_2; [by rewrite (collect_run u rs)|].
  intros i r. rewrite Hr. destruct (Z.leb_spec 0 i); [|done].
  intros Hi%lookup_lt_Some. lia.
Qed.

Lemma u_Abort_run u w :
  u_ctx u = None ->
  u_Abort (u, w) = (Ret None, (MkSerial (Some Canceled) (nextOp u) (results u), w)).
Proof. intros Hc. unfold u_Abort, u_abort. rewrite bind_modify. unfold ret. simpl. by rewrite Hc. Qed.
(** Once a serial transaction was aborted, its operations do not reach the
    store: [Get] and [Set] leave the world as it is and record
    [context.Canceled], and [Commit] returns that error and no results. *)
Theorem aborted_transaction_is_inert u w :
  u_ctx u = None ->
  exists u', u_Abort (u, w) = (Ret None, (u', w)) /\
    (forall name, exists op u'', u_Get name (u', w) = (Ret op, (u'', w)) /\
       u_ctx u'' = Some Canceled /\
       results u'' !! op = Some (MkOpResult op None (Some Canceled))) /\
    (forall name src contents, exists op u'',
       u_Set name src contents (u', w) = (Ret (op, src), (u'', w)) /\
       u_ctx u'' = Some Canceled /\
       results u'' !! op = Some (MkOpResult op None (Some Canceled))) /\
    u_Commit false None (u', w) = (Ret ([], Some Canceled), (u', w)).
Proof.
  intros Hc. eexists. split; [by apply u_Abort_run|]. split_and!.
  - intros name. eexists _, _. split; [reflexivity|]. split; [done|]. apply lookup_insert_eq.
  - intros name src contents. eexists _, _. split; [reflexivity|]. split; [done|].
    apply lookup_insert_eq.
  - reflexivity.
Qed.
End serial.

(** ** Every plain store is a lawful store *)
Section lawful.
Context {ST R T : Type} `{!RecordOps ST R, !Store ST R T, !PlainStore ST R T}.
Notation W := (world ST).
Notation TXN := (Txn.Transaction ST R T).
Implicit Types (w : W) (m : tree) (t : TXN) (rs : list (OpResult ST R)).

Definition plain_opened t (s : ST) m rs : Prop :=
  exists u, t = SerialTxn u /\ serial_open u rs /\ plain_holds s m.

Lemma plain_begin mode w m :
  plain_holds (w_store w) m ->
  exists t s, TransactionOrSerial mode w = (Ret (Some t, None), set_store s w) /\
    plain_opened t s m [].
Proof.
  intros Hm. exists (SerialTxn new_serial), (w_store w). split.
  - unfold TransactionOrSerial. rewrite plain_no_txn. by destruct w.
  - exists new_serial. split_and!; [done|apply serial_new|done].
Qed.

Lemma plain_txn_Get name t w m rs :
  plain_opened t (w_store w) m rs -> few rs ->
  exists op t' r, txn_Get name (t, w) = (Ret op, (t', w)) /\
    plain_opened t' (w_store w) m (rs ++ [r]) /\ is_result plain_record plain_missing m name r.
Proof.
  intros (u & -> & Ho & Hm) Hf. pose proof (plain_get name w m Hm) as Hg.
  assert (Hs : exists rec e, s_Get name w = (Ret (rec, e), w) /\
    is_result plain_record plain_missing m name (MkOpResult (Z.of_nat (length rs)) rec e)).
  { unfold is_result. destruct (m !! name) as [en|].
    - destruct Hg as (rec & E & Hr). eexists _, _. split; [exact E|]. by exists rec.
    - eexists _, _. split; [exact Hg|done]. }
  destruct Hs as (rec & e & E & Hr). eexists _, (SerialTxn (push _ u)), _.
  split; [|split; [|exact Hr]].
  - unfold txn_Get, dispatch. rewrite (u_Get_run name u rs w rec e w Ho Hf E). reflexivity.
  - eexists. split_and!; [done|by apply serial_push|done].
Qed.

Lemma plain_txn_Set name src contents t w s' src' h' m m' rs :
  plain_opened t (w_store w) m rs -> few rs ->
  s_Set name src w = (Ret (None, src'), set_store s' (set_heap h' w)) -> plain_holds s' m' ->
  exists op t' r, txn_Set name src contents (t, w) =
      (Ret (op, src'), (t', set_store s' (set_heap h' w))) /\
    plain_opened t' s' m' (rs ++ [r]).
Proof.
  intros (u & -> & Ho & Hm) Hf E Hm'. eexists _, (SerialTxn (push _ u)), _. split.
  - unfold txn_Set, dispatch. rewrite (u_Set_run name src contents u rs w _ _ _ Ho Hf E). reflexivity.
  - eexists. split_and!; [done|by apply serial_push|done].
Qed.

Lemma plain_finish t w m rs :
  plain_opened t (w_store w) m rs ->
  (exists t', txn_Commit None (t, w) = (Ret (rs, None), (t', w))) /\
  (exists t', txn_Abort (t, w) = (Ret None, (t', w))) /\ plain_holds (w_store w) m.
Proof.
  intros (u & -> & Ho & Hm). split_and!; [..|done]; eexists (SerialTxn _);
    unfold txn_Commit, txn_Abort, dispatch.
  - rewrite (u_Commit_run false u rs w Ho). reflexivity.
  - rewrite (u_Abort_run u w); [reflexivity|apply Ho].
Qed.

#[export] Instance plain_lawful : LawfulStore ST R T.
Proof.
  unshelve econstructor;
    [exact plain_holds|exact plain_opened|exact plain_record|exact plain_missing|..].
  - apply plain_missing_Is.
  - apply plain_keys.
  - apply plain_mode.
  - apply plain_modTime.
  - apply plain_data.
  - apply plain_size.
  - apply plain_names.
  - apply plain_begin.
  - apply plain_txn_Get.
  - intros name contents t w m rs Ho Hf.
    assert (Hm : plain_holds (w_store w) m) by by destruct Ho as (u & _ & _ & Hm).
    destruct (plain_delete name w m Hm) as (s & E & Hm').
    rewrite <- (set_heap_id w) in E at 2.
    destruct (plain_txn_Set name None contents t w s None (w_heap w) m _ rs Ho Hf E Hm')
      as (op & t' & r & E' & Ho'). rewrite set_heap_id in E'. by exists op, t', s, r.
  - intros name fd mode mtime b contents t w h' m rs Ho Hf Hv Hmode Ht Hg.
    assert (Hm : plain_holds (w_store w) m) by by destruct Ho as (u & _ & _ & Hm).
    destruct (plain_set name fd mode mtime b w h' m Hm Hv Hmode Ht Hg)
      as (fd' & s & E & Hm' & Hk & Hl).
    destruct (plain_txn_Set name _ contents t w s _ h' m _ rs Ho Hf E Hm')
      as (op & t' & r & E' & Ho'). by exists op, t', s, r, fd'.
  - intros t w m rs Ho _. destruct (plain_finish t w m rs Ho) as ([t' E] & _ & Hm).
    exists t', (w_store w). split; [|done]. rewrite E. by destruct w.
  - intros t w m Ho. destruct (plain_finish t w m [] Ho) as (_ & [t' E] & Hm).
    exists t', (w_store w). split; [|done]. rewrite E. by destruct w.
Defined.
End lawful.

(** ** A plain store

    The in-memory map with [Get] and [Set] alone. *)
Section plain_mem.
Context `{!GoRuntime}.

#[local] Instance mem_get_set : Store store fileRecord Empty_set :=
  {| s_Get := Mem.Get; s_Set := Mem.Set_; s_txn := None |}.

#[local] Instance mem_plain : PlainStore store fileRecord Empty_set.
Proof.
  unshelve econstructor;
    [exact (mem_state false)|exact mem_is_record|exact (fun _ => ErrNotExist)|..].
  - done.
  - done.
  - intros s m name e [_ Hm]. by apply Hm.
  - by intros name e r ->.
  - by intros name e r ->.
  - by intros name e r w ->.
  - by intros name e r w ->.
  - intros name e r w m -> Hv Hs. by apply mem_dir_names.
  - intros name w m [Hs Hm]. destruct w as [h s n]. simpl in Hs. subst s.
    simpl. unfold Get, get_store. rewrite bind_gets. simpl. rewrite lookup_mem_records.
    destruct (m !! name) as [e|]; simpl; [|done]. by exists (to_record name e).
  - intros name w m [Hs Hm]. exists (MkStore false (mem_records (delete name m))).
    destruct w as [h s n]. simpl in Hs. subst s. split.
    + by rewrite mem_records_delete.
    + split; [done|]. by apply valid_keys_delete.
  - intros name fd mode mtime b w h' m [Hs Hm] Hv Hmode Ht Hg.
    destruct (Hg fd w) as (fd1 & E & Hk & Hl); [done..|].
    destruct (mem_set_run name fd1 mode mtime b (Some b) (set_heap h' w) h')
      as (fd' & E' & Hk' & Hl').
    { by rewrite (keeps_mode fd fd1 Hk). }
    { by rewrite (keeps_mtime fd fd1 Hk). }
    { by apply gives_loaded. }
    exists fd', (MkStore false (mem_records (<[name := MkEntry b mode mtime]> m))). split_and!.
    + assert (E1 : on_var fd fd_Data w = (Ret (Some b, None, fd1), set_heap h' w))
        by (unfold on_var; by rewrite E).
      change (s_Set name (Some fd) w) with (Mem.Set_ name (Some fd) w).
      unfold Mem.Set_. run E1. rewrite E', mem_records_insert.
      destruct w as [h s n]. simpl in Hs. by subst s.
    + split; [done|]. by apply valid_keys_insert.
    + by transitivity fd1.
    + done.
Defined.
End plain_mem.

#[local] Existing Instances simple_runtime mem_get_set.

Lemma aborted_transaction_is_inert_witness :
  exists u', u_Abort (new_serial (ST := store) (R := fileRecord), new_world 1) =
    (Ret None, (u', new_world 1)).
Proof.
  destruct (aborted_transaction_is_inert (R := fileRecord) (T := Empty_set) new_serial (new_world 1) eq_refl)
    as (u' & E & _). by exists u'.
Defined.
