(* ===== verification/KVThms.v ===== *)
(** * Properties of the key-value file system

    The theorems about [keyvalue.FS] on every store that keeps the promise of
    [LawfulStore], and about [mem.FS], which is [keyvalue.FS] on the in-memory
    store. *)
From S2P Require Import Prelude.
From S2P Require Import Paths.
From S2P Require Import Errors.
From S2P Require Import Modes.
From S2P Require Import Blob.
From S2P Require Import BlobSpec.
From S2P Require Import BlobThms.
From S2P Require Import Record.
From S2P Require Import Txn.
From S2P Require Import KVFile.
From S2P Require Import KVFS.
From S2P Require Import Mem.
From S2P Require Import StoreSpec.
From S2P Require Import MemSpec.
From S2P Require Import FSSpec.
From S2P Require Import TreeFS.
From S2P Require Import TreeOps.
From S2P Require Import FileSpec.
From S2P Require Import FileIO.
From S2P Require Import TreeRename.
From S2P Require Import FSRun.
From S2P Require Import TreeInv.
From S2P Require Import DirSpec.
From S2P Require Import FileRun.
From S2P Require Import SerialSpec.

Local Open Scope string_scope.

(** ** A new [mem.FS] *)
Section new.
Context `{!GoRuntime}.

Lemma mem_empty now : fs_state (new_world now) ∅.
Proof.
  exists ∅. split; [|done]. split; first [apply wf_empty_heap|done].
Qed.

(** The nodes of a new file system: a root. *)
Definition root_nodes (now : Z) : nodes := {["." := dir_node now 438]}.

Lemma mem_NewFS now :
  exists w, FS_NewFS (new_world now) = (Ret None, w) /\ fs_state w (root_nodes now) /\
    w_now w = now.
Proof.
  destruct (Mkdir_refines (T := Mem.transaction) "." 438 (new_world now) ∅ (mem_empty now))
    as (w & E & Hs & Hn). exists w. split_and!; [|done|done]. unfold FS_NewFS, NewFS. by run E.
Qed.

Lemma root_hangs now : hangs (root_nodes now).
Proof. by apply hangs_insert; [apply hangs_empty|done|done|]. Qed.
End new.

(** ** Histories *)
Section histories.
Context `{!GoRuntime}.
Notation W := (world store).
Notation missing := (fun _ : string => ErrNotExist).


(** C4: as long as a client makes files in directories only, replaces no
    directory by a file and renames no directory into itself, the calls are
    legal and every path of the store is valid and hangs on a directory. *)
Theorem mem_tree_hangs_together now (cs : list fs_call) :
  now <> 0%Z -> all_proper missing now cs (root_nodes now) ->
  exists w' rs v, (FS_NewFS ;;; run_calls cs) (new_world now) = (Ret rs, w') /\
    fs_state w' v /\ hangs v.
Proof.
  intros Hnow Hp. destruct (hangs_calls missing now cs _ (root_hangs now) Hp) as [Hl Hh].
  destruct (mem_NewFS now) as (w & E & Hs & Hn). subst now.
  destruct (run_calls_answer cs w (root_nodes (w_now w)) Hs Hnow Hl) as (w' & E' & Hs' & _).
  eexists w', _, _. split; [|by split]. by run E.
Qed.
End histories.


(** ** Single operations, on every lawful store *)
Lemma spec_missing_keeps now perm names v ps k n :
  spec_missing v names = inl ps -> v !! k = Some n -> insert_dirs now perm ps v !! k = Some n.
Proof.
  intros Em Ek. revert ps Em. induction names as [|p names IH]; intros ps; simpl; [by intros [= <-]|].
  destruct (v !! p) as [m|] eqn:Ep; [destruct (IsDir (n_mode m)); by intros [= <-]|].
  destruct (spec_missing v names) as [qs|]; [|done]. intros [= <-]. simpl.
  rewrite lookup_insert_ne by congruence. by apply IH.
Qed.

Lemma write_at_nil data : write_at [] 0 data = data.
Proof.
  unfold write_at, splice. simpl. rewrite Nat.sub_0_r, drop_ge; [apply app_nil_r|].
  by rewrite length_replicate.
Qed.

Lemma read_part (c : list byte) (len : nat) (off : Z) :
  (0 <= off)%Z ->
  take (Z.to_nat (read_count c (Z.of_nat len) off)) (drop (Z.to_nat off) c) =
    take len (drop (Z.to_nat off) c) /\
  read_err c (Z.of_nat len) off =
    if (Z.of_nat (length c) <=? off + Z.of_nat len)%Z then Some EOF else None.
Proof.
  intros Ho. unfold read_err, read_count. split.
  - destruct (Z.leb_spec (Z.of_nat (length c)) (off + Z.of_nat len)) as [Hl|Hl].
    + rewrite !take_ge; [done| |]; rewrite length_drop; lia.
    + f_equal. lia.
  - destruct (Z.leb_spec (Z.of_nat (length c)) (off + Z.of_nat len)) as [Hl|Hl];
      match goal with |- (if ?b then _ else _) = _ => destruct b eqn:E end; try done; lia.
Qed.

Section operations.
Context {ST R T : Type} `{!RecordOps ST R, !Store ST R T, !GoRuntime, !LawfulStore ST R T}.
Notation W := (world ST).
Implicit Types (w : W) (v : nodes).


(** C5: renaming a directory out of itself to a free path takes along
    everything below it: what was under the old path is afterwards under the
    same relative path at the new one and nowhere else, and all other paths
    are as before. *)
Theorem Rename_moves_directory fuel old new w v n :
  fs_state w v -> hangs v ->
  v !! old = Some n -> node_is_dir n = true ->
  ValidPath new = true -> v !! new = None -> ~ below old new ->
  (forall k, is_Some (v !! k) -> length (elems k) < fuel) ->
  exists w' v', Rename fuel old new w = (Ret None, w') /\ fs_state w' v' /\
    (forall r, good_elems r ->
       v' !! path_at new r = v !! path_at old r /\ v' !! path_at old r = None) /\
    (forall k, ~ below old k -> ~ below new k -> v' !! k = v !! k).
Proof.
  intros Hs Hh E Hd Hv Hn Hb Hf. destruct (Hh old n E) as [Hvo _].
  pose proof (movable_hangs fuel old new v n Hh E Hn Hv Hb Hf) as Hm.
  destruct Hs as (t & Hat & ->).
  destruct (Rename_at fuel old new w t Hat) as (w' & t' & ER & Hat' & _ & Hview).
  { split; [|intros; exact Hm].
    specialize (Hf old). rewrite E in Hf. specialize (Hf ltac:(by eexists)). lia. }
  unfold spec_Rename in *. rewrite Hvo, E, Hd, Hv, Hn in *. simpl in *.
  exists w', (view (w_heap w') t'). split_and!; [done|by exists t'|..]; rewrite Hview;
    destruct (spec_move_moved _ _ _ _ _ Hm) as [Hkeys Hlook].
  - intros r Hr. rewrite !Hlook by by apply path_at_valid.
    rewrite decide_True by by apply below_path_at. rewrite rest_path_at by done.
    split; [done|]. pose proof (below_path_at old r Hvo Hr) as Ho.
    rewrite decide_False; [by rewrite decide_True|]. intros B.
    by apply (not_below_both old new (path_at old r) Hb (movable_apart _ _ _ _ _ Hm)).
  - intros k Ho Hne. destruct (ValidPath k) eqn:Hk.
    + by rewrite Hlook, decide_False, decide_False.
    + transitivity (@None node); [|symmetry];
        apply eq_None_not_Some; intros [a Ha].
      * by rewrite (Hkeys k a Ha) in Hk.
      * by rewrite (proj1 (Hh k a Ha)) in Hk.
Qed.

(** C8: [MkdirAll] that succeeds leaves a directory at the path and at every
    parent of it, and all paths that were there are as they were. *)
Theorem MkdirAll_makes_path name perm w v :
  fs_state w v -> hangs v -> short name -> ValidPath name = true ->
  (MkdirAll name perm w).1 = Ret None ->
  exists v', fs_state (MkdirAll name perm w).2 v' /\ hangs v' /\ is_dir_at v' name /\
    (forall k n, v !! k = Some n -> v' !! k = Some n).
Proof.
  intros Hs Hh Hshort Hv He.
  destruct (MkdirAll_refines name perm Hshort w v Hs) as (w' & E & Hs' & _).
  rewrite E in *. simpl in *. unfold spec_MkdirAll in *. rewrite Hv in *.
  destruct (spec_missing v (ancestors name)) as [ps|] eqn:Em; [|done]. simpl in *.
  exists (insert_dirs (w_now w) perm ps v).
  destruct (hangs_missing (w_now w) perm v name ps Hh Hv Em) as [Hh' Hd].
  split_and!; [done..|]. intros k n Ek. by apply (spec_missing_keeps _ _ (ancestors name)).
Qed.

(** C10: [Remove] deletes exactly the path it is given, and refuses a directory
    that has children. *)
Theorem Remove_deletes_one name w v n :
  fs_state w v -> ValidPath name = true -> v !! name = Some n ->
  exists w', fs_state w' (if node_is_dir n && negb (bool_decide (children v name = []))
                          then v else delete name v) /\
    Remove name w =
      (Ret (if node_is_dir n && negb (bool_decide (children v name = []))
            then Some (PathError "remove" name ErrNotEmpty) else None), w').
Proof.
  intros Hs Hv E. destruct (Remove_refines name w v Hs) as (w' & ER & Hs' & _).
  exists w'. unfold spec_Remove, spec_get in *. rewrite Hv, E in *.
  unfold node_is_dir. by destruct (_ && _).
Qed.

(** C7: what is written through a new file is what a later reader gets: after
    [OpenFile] with [FlagCreate] and [FlagReadWrite], [Write], [Close] at a
    path that was free, reading [len] bytes at an offset gives that part of
    the data, with [io.EOF] exactly if the read reaches the end. *)
Theorem write_then_read name perm data len off w v p :
  fs_state w v -> w_now w <> 0%Z ->
  ValidPath name = true -> v !! name = None -> v !! Dir name = Some p ->
  is_int64 (Z.of_nat (length data)) -> (0 <= off)%Z -> is_int64 (off + Z.of_nat len) ->
  exists w', run_calls [CallWrite name (Z.lor FlagCreate FlagReadWrite) perm data;
                        CallRead name len off] w =
    (Ret [Done None;
          Data (take len (drop (Z.to_nat off) data))
               (if Z.of_nat (length data) <=? off + Z.of_nat len then Some EOF else None)%Z], w').
Proof.
  intros Hs Hnow Hv Hn Hp Hd Ho Hi.
  set (flag := Z.lor FlagCreate FlagReadWrite).
  set (n0 := MkNode (Z.land perm ModePerm) (w_now w) []).
  assert (EO : spec_OpenFile missing_err (w_now w) name flag perm v = (None, <[name := n0]> v)).
  { unfold spec_OpenFile, spec_get. rewrite Hv, Hn. simpl. by rewrite Hp. }
  set (n1 := MkNode (n_mode n0) (if bool_decide (data = []) then w_now w else w_now w) data).
  assert (EW : spec_call missing_err (w_now w) (CallWrite name flag perm data) v =
    (Done None, <[name := n1]> v)).
  { simpl. rewrite EO, lookup_insert_eq. unfold spec_write. simpl.
    rewrite insert_insert_eq. by rewrite write_at_nil. }
  destruct (run_calls_answer [CallWrite name flag perm data; CallRead name len off] w v Hs Hnow)
    as (w' & E & _ & _).
  { split.
    - simpl. rewrite EO. simpl. intros n. rewrite lookup_insert_eq. intros [= <-]. done.
    - by split. }
  exists w'. rewrite E. do 2 f_equal.
  change (spec_calls missing_err (w_now w) [CallWrite name flag perm data; CallRead name len off] v)
    with (let '(a, v) := spec_call missing_err (w_now w) (CallWrite name flag perm data) v in
          let '(rest, v) := spec_calls missing_err (w_now w) [CallRead name len off] v in
          (a :: rest, v)).
  rewrite EW. simpl. unfold spec_OpenFile, spec_get. rewrite Hv, lookup_insert_eq. simpl.
  rewrite andb_false_r. unfold spec_finish_open. simpl.
  destruct (read_part data len off Ho) as [-> ->]. done.
Qed.

(** A file opened for reading has no [Write], [WriteAt] or [WriteBlob]: the
    helpers of the package report [ErrNotImplemented] and nothing changes; a
    file opened for writing reports it for [Read], [ReadAt] and [ReadDir]. *)
Theorem handles_respect_access fd off fl (p : slice) (o n : Z) w :
  let f := MkFile (Some fd) off fl in
  let refuses {A} (op : string) (zero : A) (m : M (file ST R * W) (A * err)) :=
    exists name, m (f, w) = (Ret (zero, Some (PathError op name ErrNotImplemented)), (f, w)) in
  refuses "write" 0%Z (WriteFile ReadOnlyFile p) /\
  refuses "writeat" 0%Z (WriteAtFile ReadOnlyFile p o) /\
  refuses "read" 0%Z (handle_Read WriteOnlyFile p) /\
  refuses "readat" 0%Z (ReadAtFile WriteOnlyFile p o) /\
  refuses "readdir" [] (ReadDirFile WriteOnlyFile n).
Proof.
  destruct fd as [ro mo mt pth]. split_and!; eexists; reflexivity.
Qed.

(** C2: whatever a client does with a file that it opened, reading and writing
    at the file's offset or at a given one, seeking and truncating, in any
    order that overflows no [int64], the calls give what a file of bytes with
    an offset gives (writes pad with zeros or, with [FlagAppend], go to the
    end; a file opened for one direction refuses the other), and the store
    ends with that file under the name. *)
Theorem open_file_history_refines name flag perm ops w v v1 n :
  fs_state w v -> w_now w <> 0%Z ->
  spec_OpenFile missing_err (w_now w) name flag perm v = (None, v1) -> v1 !! name = Some n ->
  ops_legal (w_now w) name (open_kind flag) flag ops n 0 ->
  let '(rs, (n', _)) := spec_file_ops (w_now w) name (open_kind flag) flag ops n 0 in
  exists w', with_open name flag perm (fun a => run_file_ops a ops) w =
      (Ret (None, Some rs), w') /\
    fs_state w' (<[name := n']> v1).
Proof.
  intros Hs Hnow Ho Hn Hl.
  destruct (OpenFile_open name flag perm w v n Hs Hnow) as (f & w1 & E & Hop & Hn1);
    [by rewrite Ho..|]. rewrite Ho in Hop.
  pose proof (run_file_ops_answer (open_kind flag) ops w1 v1 name flag n 0 f Hop) as Ha.
  rewrite Hn1 in Ha. specialize (Ha Hnow Hl).
  destruct (spec_file_ops _ _ _ _ _ _ _) as [rs [n' off']].
  destruct Ha as (f' & w' & E' & (t & e & fd & Hat & Hv & _) & _).
  exists w'. split; [|by exists t]. unfold with_open. run E. cbn [underlying kind].
  by run (on_var_run _ _ _ _ _ _ E').
Qed.

(** Reading a directory [n] entries at a time, [k] times. *)
Fixpoint read_pages (k : nat) (n : Z) : M (file ST R * W) (list (dirEntry ST R) * err) :=
  match k with
  | 0 => ret ([], None)
  | S k =>
      let* (es, e) := ReadDir n in
      match e with
      | Some e => ret (es, Some e)
      | None => let* (rest, e) := read_pages k n in ret ((es ++ rest)%list, e)
      end
  end.

Lemma read_pages_run k n fd fd' names off fl w t :
  holds (w_store w) t -> lead_to t (path fd') names -> (0 < n)%Z ->
  lists fd fd' names w -> (forall w', lists fd' fd' names w') ->
  (0 <= off <= Z.of_nat (length names))%Z -> is_int64 (Z.of_nat (length names) + n) ->
  exists es s, read_pages k n (MkFile (Some fd) off fl, w) =
      (Ret (es, None),
       (MkFile (Some (if k is 0 then fd else fd'))
          (Z.min (Z.of_nat (length names)) (off + Z.of_nat k * n)) fl, set_store s w)) /\
    holds s t /\
    Forall2 (describes t (path fd')) (take (Z.to_nat (Z.of_nat k * n)) (drop (Z.to_nat off) names)) es.
Proof.
  intros Ht Hle Hn. revert fd w off Ht. induction k as [|k IH]; intros fd w off Ht Hl Hl' Ho Hi.
  { exists [], (w_store w). rewrite Z.min_r, Z.add_0_r by lia.
    split_and!; [by destruct w|done|]. by rewrite take_0. }
  destruct (ReadDir_run fd fd' names w t off fl n Ht Hl Hle Hn Ho) as (es & s & E & Hs & Hes);
    [int64|]. set (off1 := Z.min (Z.of_nat (length names)) (off + n)) in *.
  destruct (IH fd' (set_store s w) off1 Hs (Hl' _) Hl' ltac:(unfold off1; lia) Hi) as (rest & s2 & E2 & Hs2 & Hr).
  exists (es ++ rest)%list, s2. split_and!; [|done|].
  - assert (Ho2 : Z.min (Z.of_nat (length names)) (off1 + Z.of_nat k * n) =
                  Z.min (Z.of_nat (length names)) (off + Z.of_nat (S k) * n))
      by (unfold off1; lia).
    rewrite Ho2 in E2. cbn [read_pages]. run E. run E2. by destruct w, k.
  - destruct (Z.le_gt_cases (Z.of_nat (length names)) (off + n)) as [Hend|Hmore].
    + assert (Hoff1 : off1 = Z.of_nat (length names)) by (unfold off1; lia).
      rewrite Hoff1, drop_ge, take_nil in Hr by lia. apply Forall2_nil_inv_l in Hr as ->.
      rewrite app_nil_r. rewrite take_ge in Hes by (rewrite length_drop; lia).
      by rewrite take_ge by (rewrite length_drop; lia).
    + assert (Hoff1 : Z.to_nat off1 = Z.to_nat off + Z.to_nat n) by (unfold off1; lia).
      rewrite Hoff1, <- drop_drop in Hr.
      replace (Z.to_nat (Z.of_nat (S k) * n)) with (Z.to_nat n + Z.to_nat (Z.of_nat k * n)) by lia.
      rewrite <- (take_take_drop _ (Z.to_nat n)). by apply Forall2_app.
Qed.

(** C9: reading an open directory page by page gives every child of it once:
    when the pages reach the end, the names are a permutation of the children,
    no name comes twice, and each entry's information is the child's. *)
Theorem ReadDir_pages_list_children k n name e rec fl w t :
  fs_at w t -> t !! name = Some e -> is_record name e rec -> IsDir (e_mode e) = true ->
  (0 < n)%Z -> (Z.of_nat (length (children t name)) <= Z.of_nat k * n)%Z ->
  is_int64 (Z.of_nat (length (children t name)) + n) ->
  exists es f' w',
    read_pages k n (MkFile (Some (record_fd name (Some (StoreRecord rec)))) 0 fl, w) =
      (Ret (es, None), (f', w')) /\
    baseName <$> es ≡ₚ children t name /\ NoDup (baseName <$> es) /\
    Forall (fun d => describes t name (baseName d) d) es.
Proof.
  intros Hat Et Hrec Hd Hn Hk Hi.
  pose proof (at_holds w t Hat) as Ht. pose proof (law_keys _ _ _ _ Ht Et) as Hv.
  destruct (lists_first name e rec w t Hrec Hv Hd Ht) as (names & Hp & Hl).
  set (fd' := set_ro _ _) in Hl. pose proof (Permutation_length Hp) as Hlen.
  destruct (read_pages_run k n (record_fd name (Some (StoreRecord rec))) fd' names 0 fl w t Ht) as (es & s & E & Hs & Hes); try done.
  { apply (children_lead_to t name); [|done]. intros k0 e0. by apply (law_keys (w_store w)). }
  { lia. }
  { by rewrite Hlen. }
  rewrite drop_0, take_ge in Hes by lia.
  assert (En : baseName <$> es = names).
  { clear -Hes. induction Hes as [|x d ns ds [Hx ?] ? IH]; [done|]. csimpl. by rewrite Hx, IH. }
  exists es. eexists _, _. split_and!; [exact E| | |].
  - by rewrite En.
  - rewrite En, Hp. apply NoDup_children. intros k0 e0. by apply (law_keys (w_store w)).
  - clear -Hes. induction Hes as [|x d ns ds Hx ? IH]; constructor; [|done].
    destruct Hx as [<- Hx]. by split.
Qed.
End operations.

(** ** The theorems at concrete inputs *)
#[local] Existing Instance simple_runtime.

Lemma forall_keys {A} (m : gmap string A) (P : string -> bool) :
  forallb P (map_to_list m).*1 = true -> forall k, is_Some (m !! k) -> P k = true.
Proof.
  intros Hall k [a Ha]. rewrite forallb_forall in Hall. apply Hall.
  apply list_elem_of_In, list_elem_of_fmap. exists (k, a). split; [done|].
  by apply elem_of_map_to_list.
Qed.
Lemma keys_short {A} (m : gmap string A) (fuel : nat) :
  forallb (fun k => Nat.ltb (length (elems k)) fuel) (map_to_list m).*1 = true ->
  forall k, is_Some (m !! k) -> length (elems k) < fuel.
Proof.
  intros Hall k Hk. pose proof (forall_keys m _ Hall k Hk) as Hb. by apply Nat.ltb_lt in Hb.
Qed.
Lemma is_dir_at_bool v k :
  (if v !! k is Some p then node_is_dir p else false) = true -> is_dir_at v k.
Proof. unfold is_dir_at. destruct (v !! k) as [p|]; [|done]. by exists p. Qed.
Lemma parent_ok_bool v k :
  (if v !! Dir k is Some p then node_is_dir p else true) = true -> parent_ok v k.
Proof. unfold parent_ok. intros H p E. by rewrite E in H. Qed.
Lemma not_is_dir_at_bool v k :
  (if v !! k is Some p then node_is_dir p else false) = false -> ~ is_dir_at v k.
Proof. intros H (p & E & Hp). by rewrite E, Hp in H. Qed.
Lemma size_bool (m : gmap string node) k (extra : nat) :
  (if m !! k is Some n then bool_decide (is_int64 (Z.of_nat (length (n_data n) + extra)))
   else true) = true ->
  forall n, m !! k = Some n -> is_int64 (Z.of_nat (length (n_data n) + extra)).
Proof. intros H n E. rewrite E in H. by apply bool_decide_eq_true in H. Qed.

Ltac computes := vm_compute; reflexivity.
Ltac concrete :=
  match goal with
  | |- _ /\ _ => split; concrete
  | |- True => exact I
  | |- parent_ok _ _ => apply parent_ok_bool; computes
  | |- is_dir_at _ _ => apply is_dir_at_bool; computes
  | |- _ = true -> parent_ok _ _ => intros _; apply parent_ok_bool; computes
  | |- is_dir_at _ _ -> ~ below _ _ => intros _; apply (bool_decide_unpack _); vm_compute; exact I
  | |- is_dir_at _ _ -> is_dir_at _ _ =>
      let H := fresh in intros H; exfalso; revert H; apply not_is_dir_at_bool; computes
  | |- forall k, is_Some _ -> _ < _ => apply keys_short; computes
  | |- forall n, _ = Some n -> is_int64 _ => apply size_bool; computes
  | |- is_int64 _ => apply (bool_decide_unpack _); vm_compute; exact I
  | |- short _ => unfold short; computes
  | |- (_ <= _)%Z => apply Z.leb_le; computes
  | |- (_ < _)%Z => apply Z.ltb_lt; computes
  | |- _ => computes
  end.

Definition demo_calls : list fs_call :=
  [CallMkdirAll "d/x" 511;
   CallWrite "d/f" (Z.lor FlagCreate FlagReadWrite) 438 [Byte.x61; Byte.x62; Byte.x63];
   CallRead "d/f" 2 1; CallRename 9 "d" "e"; CallStat "e/f"; CallRemove "e"; CallRemove "e/x"].

Lemma demo_proper : all_proper (fun _ => ErrNotExist) 1 demo_calls (root_nodes 1).
Proof. unfold demo_calls. cbn [all_proper proper call_legal]. concrete. Qed.


Lemma mem_tree_hangs_together_witness :
  exists w' rs v, (FS_NewFS ;;; run_calls demo_calls) (new_world 1) = (Ret rs, w') /\
    fs_state w' v /\ hangs v.
Proof. apply mem_tree_hangs_together; [done|exact demo_proper]. Defined.

(** A store with the directory "d", a directory "d/x" and a file "d/f". *)
Definition demo_nodes : nodes :=
  (spec_calls (fun _ => ErrNotExist) 1 (take 2 demo_calls) (root_nodes 1)).2.
Definition demo_fs : world store := (run_calls (take 2 demo_calls) (FS_NewFS (new_world 1)).2).2.

Lemma demo_state : fs_state demo_fs demo_nodes.
Proof.
  unfold demo_fs, demo_nodes.
  destruct (mem_NewFS 1) as (w & E & Hs & Hn). rewrite E. simpl snd at 2.
  destruct demo_proper as (H1 & H2 & _).
  destruct (run_calls_answer (T := Mem.transaction) (take 2 demo_calls) w (root_nodes 1) Hs)
    as (w' & E' & Hs' & _); rewrite ?Hn in *; [done| |].
  { apply (hangs_calls (fun _ => ErrNotExist) 1 (take 2 demo_calls) (root_nodes 1) (root_hangs 1)).
    exact (conj H1 (conj H2 I)). }
  rewrite E'. exact Hs'.
Qed.
Lemma demo_hangs : hangs demo_nodes.
Proof.
  apply (hangs_calls (fun _ => ErrNotExist) 1 (take 2 demo_calls) (root_nodes 1) (root_hangs 1)).
  destruct demo_proper as (H1 & H2 & _). exact (conj H1 (conj H2 I)).
Qed.


Lemma Rename_moves_directory_witness :
  exists w' v', Rename 5 "d" "e" demo_fs = (Ret None, w') /\ fs_state w' v' /\
    (forall r, good_elems r ->
       v' !! path_at "e" r = demo_nodes !! path_at "d" r /\ v' !! path_at "d" r = None) /\
    (forall k, ~ below "d" k -> ~ below "e" k -> v' !! k = demo_nodes !! k).
Proof.
  apply (Rename_moves_directory 5 "d" "e" demo_fs demo_nodes (dir_node 1 511)).
  - exact demo_state.
  - exact demo_hangs.
  - vm_compute; reflexivity.
  - reflexivity.
  - reflexivity.
  - vm_compute; reflexivity.
  - apply (bool_decide_unpack _). vm_compute. exact I.
  - concrete.
Defined.

Lemma MkdirAll_makes_path_witness :
  exists v', fs_state (MkdirAll "d/y/z" 511 demo_fs).2 v' /\ hangs v' /\ is_dir_at v' "d/y/z" /\
    (forall k n, demo_nodes !! k = Some n -> v' !! k = Some n).
Proof.
  apply MkdirAll_makes_path;
    [exact demo_state|exact demo_hangs|concrete|reflexivity|vm_compute; reflexivity].
Defined.

Lemma Remove_deletes_one_witness :
  exists w', fs_state w' (delete "d/f" demo_nodes) /\ Remove "d/f" demo_fs = (Ret None, w').
Proof.
  exact (Remove_deletes_one "d/f" demo_fs demo_nodes
           (MkNode 438 1 [Byte.x61; Byte.x62; Byte.x63]) demo_state eq_refl
           ltac:(vm_compute; reflexivity)).
Defined.

Lemma write_then_read_witness :
  exists w', run_calls [CallWrite "d/g" (Z.lor FlagCreate FlagReadWrite) 438 [Byte.x61; Byte.x62];
                        CallRead "d/g" 1 0] demo_fs =
    (Ret [Done None; Data [Byte.x61] None], w').
Proof.
  exact (write_then_read "d/g" 438 [Byte.x61; Byte.x62] 1 0 demo_fs demo_nodes (dir_node 1 511)
           demo_state ltac:(vm_compute; discriminate) eq_refl ltac:(vm_compute; reflexivity)
           ltac:(vm_compute; reflexivity) ltac:(concrete) ltac:(concrete) ltac:(concrete)).
Defined.

Definition demo_ops : list file_op :=
  [OpSeek 5 0; OpWrite [Byte.x7a]; OpReadAt 4 1; OpTruncate 2; OpSeek 0 0; OpRead 9].

Lemma open_file_history_refines_witness :
  exists w', with_open "d/f" FlagReadWrite 0 (fun a => run_file_ops a demo_ops) demo_fs =
    (Ret (None, Some [Count 5 None; Count 1 None;
                      Got [Byte.x62; Byte.x63; zero; zero] None; Count 0 None; Count 0 None;
                      Got [Byte.x61; Byte.x62] (Some EOF)]), w').
Proof.
  pose proof (open_file_history_refines "d/f" FlagReadWrite 0 demo_ops demo_fs demo_nodes demo_nodes
           (MkNode 438 1 [Byte.x61; Byte.x62; Byte.x63]) demo_state
           ltac:(vm_compute; discriminate) ltac:(vm_compute; reflexivity)
           ltac:(vm_compute; reflexivity)) as H.
  destruct H as (w' & E & _).
  { apply (bool_decide_unpack _). vm_compute. exact I. }
  exists w'. rewrite E. vm_compute. reflexivity.
Defined.

Lemma ReadDir_pages_list_children_witness :
  exists es f' w',
    read_pages 2 1 (MkFile (Some (record_fd "d" (Some (StoreRecord
        (MkFileRecord "d" (Some (BBytes 2)) 2147484159 1))))) 0 0, demo_fs) =
      (Ret (es, None), (f', w')) /\
    baseName <$> es ≡ₚ ["f"; "x"] /\ NoDup (baseName <$> es).
Proof.
  destruct demo_state as (t & Hat & Hv).
  assert (Hk : mem_records t = records (w_store demo_fs)) by (destruct (at_holds _ _ Hat) as [-> _]; done).
  assert (Hd : t !! "d" = Some (MkEntry (BBytes 2) 2147484159 1)).
  { apply (f_equal (fun m : gmap string fileRecord => m !! "d")) in Hk.
    rewrite lookup_mem_records in Hk. destruct (t !! "d") as [[b m mt]|]; vm_compute in Hk; [|done].
    by injection Hk as -> -> ->. }
  assert (Hc : children t "d" ≡ₚ ["f"; "x"]).
  { rewrite <- (children_view (w_heap demo_fs) t "d"), <- Hv. apply (bool_decide_unpack _).
    vm_compute. exact I. }
  destruct (ReadDir_pages_list_children 2 1 "d" _ (MkFileRecord "d" (Some (BBytes 2)) 2147484159 1) 0
              demo_fs t Hat Hd) as (es & f' & w' & E & Hp & Hnd & _).
  - reflexivity.
  - reflexivity.
  - done.
  - rewrite Hc. simpl. lia.
  - rewrite Hc. apply (bool_decide_unpack _). vm_compute. exact I.
  - exists es, f', w'. split_and!; [exact E|by rewrite Hp, Hc|exact Hnd].
Defined.

#[local] Existing Instances mem_get_set mem_plain.

