(* ===== verification/HackFS.v ===== *)
(** * The file system helpers ([fs.go], [file.go])

    The functions of package [hackpadfs]: each runs the optional method of a
    file or file system if it has one, or else goes to the file system mounted
    at the path, or else falls back to simpler operations.

    An interface value with optional methods is a record of options.  An [FS]
    value is one of the two types of this module that forward to others,
    [subFS] and [mount.FS], or some other implementation [Other n], whose
    methods are a parameter.  As the target of [Mount] can be any file system,
    following mounts takes fuel. *)
From stdpp Require Import sorting.
From S2P Require Import Prelude.
From S2P Require Import Paths.
From S2P Require Import Errors.
From S2P Require Import Modes.

Local Open Scope string_scope.

(** ** Values *)
Record FileInfo := MkInfo {
  fi_Name : string;
  fi_Size : Z;
  fi_Mode : Z;
  fi_ModTime : Z
}.
(** [Info] as it answers right after the listing. *)
Record DirEntry := MkEntry {
  de_Name : string;
  de_Type : Z;
  de_Info : option FileInfo * err
}.
Definition de_IsDir (d : DirEntry) : bool := IsDir (de_Type d).

(** [hackpadfs.File] with the optional interfaces of [file.go]; [Read] and
    [ReadAt] get the length of the buffer and return what they put there. *)
Record File (W : Type) := MkFile {
  f_Stat : M W (option FileInfo * err);
  f_Read : Z -> M W (list byte * err);
  f_Close : M W err;
  f_ReadAt : option (Z -> Z -> M W (list byte * err));
  f_Write : option (list byte -> M W (Z * err));
  f_WriteAt : option (list byte -> Z -> M W (Z * err));
  f_ReadDir : option (Z -> M W (list DirEntry * err));
  f_Seek : option (Z -> Z -> M W (Z * err));
  f_Sync : option (M W err);
  f_Truncate : option (Z -> M W err);
  f_Chmod : option (Z -> M W err);
  f_Chown : option (Z -> Z -> M W err);
  f_Chtimes : option (Z -> Z -> M W err)
}.
Arguments f_Stat {W}.
Arguments f_Read {W}.
Arguments f_Close {W}.
Arguments f_ReadAt {W}.
Arguments f_Write {W}.
Arguments f_WriteAt {W}.
Arguments f_ReadDir {W}.
Arguments f_Seek {W}.
Arguments f_Sync {W}.
Arguments f_Truncate {W}.
Arguments f_Chmod {W}.
Arguments f_Chown {W}.
Arguments f_Chtimes {W}.

(** An [FS] value: [subFS] with its two fields, a [mount.FS] with its root and
    the address of its table, or another implementation. *)
Inductive FS :=
  | Other (n : nat)
  | subFS (basePath : string) (rootFS : FS)
  | mountFS (table : nat) (rootFS : FS).

(** [hackpadfs.FS] with the optional interfaces of [fs.go]. *)
Record FSOps (W : Type) := MkOps {
  fs_Open : string -> M W (option (File W) * err);
  fs_Sub : option (string -> M W (option FS * err));
  fs_OpenFile : option (string -> Z -> Z -> M W (option (File W) * err));
  fs_Create : option (string -> M W (option (File W) * err));
  fs_Mkdir : option (string -> Z -> M W err);
  fs_MkdirAll : option (string -> Z -> M W err);
  fs_Remove : option (string -> M W err);
  fs_RemoveAll : option (string -> M W err);
  fs_Rename : option (string -> string -> M W err);
  fs_Stat : option (string -> M W (option FileInfo * err));
  fs_Lstat : option (string -> M W (option FileInfo * err));
  fs_Chmod : option (string -> Z -> M W err);
  fs_Chown : option (string -> Z -> Z -> M W err);
  fs_Chtimes : option (string -> Z -> Z -> M W err);
  fs_ReadDir : option (string -> M W (list DirEntry * err));
  fs_ReadFile : option (string -> M W (list byte * err));
  fs_WriteFile : option (string -> list byte -> Z -> M W err);
  fs_Symlink : option (string -> string -> M W err);
  fs_Mount : option (string -> M W (FS * string))
}.
Arguments fs_Open {W}.
Arguments fs_Sub {W}.
Arguments fs_OpenFile {W}.
Arguments fs_Create {W}.
Arguments fs_Mkdir {W}.
Arguments fs_MkdirAll {W}.
Arguments fs_Remove {W}.
Arguments fs_RemoveAll {W}.
Arguments fs_Rename {W}.
Arguments fs_Stat {W}.
Arguments fs_Lstat {W}.
Arguments fs_Chmod {W}.
Arguments fs_Chown {W}.
Arguments fs_Chtimes {W}.
Arguments fs_ReadDir {W}.
Arguments fs_ReadFile {W}.
Arguments fs_WriteFile {W}.
Arguments fs_Symlink {W}.
Arguments fs_Mount {W}.

(** [defer]: run [after] when the body returns or panics. *)
Definition deferred {W A} (after : M W unit) (body : M W A) : M W A := fun w =>
  match body w with
  | (Ret a, w') => bind after (fun _ => ret a) w'
  | (Panic e, w') => bind after (fun _ => panic e) w'
  | r => r
  end.

(** An interface value of the caller: calling a method of [nil] panics. *)
Definition not_nil {W A B} (x : option A) (k : A -> M W B) : M W B :=
  match x with
  | Some a => k a
  | None => panic "invalid memory address or nil pointer dereference"
  end.

(** ** [file.go] *)
Section file.
Context {W : Type}.
Implicit Types (file : File W).

(** What the helpers do when the method is missing. *)
Definition no_method {A} (op : string) (zero : A) (file : File W) : M W (A * err) :=
  let* (info, e) := f_Stat file in
  match e with
  | Some e => ret (zero, Some e)
  | None => not_nil info (fun info => ret (zero, Some (PathError op (fi_Name info) ErrNotImplemented)))
  end.

Definition just_err (m : M W (unit * err)) : M W err := let* (_, e) := m in ret e.

Definition ChmodFile (file : File W) (mode : Z) : M W err :=
  match f_Chmod file with
  | Some f => f mode
  | None => just_err (no_method "chmod" tt file)
  end.
(** The error of [ChownFile] names the operation [chmod]. *)
Definition ChownFile (file : File W) (uid gid : Z) : M W err :=
  match f_Chown file with
  | Some f => f uid gid
  | None => just_err (no_method "chmod" tt file)
  end.
Definition ChtimesFile (file : File W) (atime mtime : Z) : M W err :=
  match f_Chtimes file with
  | Some f => f atime mtime
  | None => just_err (no_method "chtimes" tt file)
  end.
Definition ReadAtFile (file : File W) (len off : Z) : M W (list byte * err) :=
  match f_ReadAt file with Some f => f len off | None => no_method "readat" [] file end.
Definition WriteFile (file : File W) (p : list byte) : M W (Z * err) :=
  match f_Write file with Some f => f p | None => no_method "write" 0%Z file end.
Definition WriteAtFile (file : File W) (p : list byte) (off : Z) : M W (Z * err) :=
  match f_WriteAt file with Some f => f p off | None => no_method "writeat" 0%Z file end.
Definition ReadDirFile (file : File W) (n : Z) : M W (list DirEntry * err) :=
  match f_ReadDir file with Some f => f n | None => no_method "readdir" [] file end.
Definition SeekFile (file : File W) (off whence : Z) : M W (Z * err) :=
  match f_Seek file with Some f => f off whence | None => no_method "seek" 0%Z file end.
Definition SyncFile (file : File W) : M W err :=
  match f_Sync file with Some f => f | None => just_err (no_method "sync" tt file) end.
Definition TruncateFile (file : File W) (size : Z) : M W err :=
  match f_Truncate file with
  | Some f => f size
  | None => just_err (no_method "truncate" tt file)
  end.

Definition close (file : File W) : M W unit := _ <- f_Close file ;; ret tt.
End file.

(** ** The standard library's [fs.ReadDir] and [fs.ReadFile]

    For a file system that does not have the method itself. *)
Section iofs.
Context {W : Type}.

Definition name_le (a b : DirEntry) : Prop := String.leb (de_Name a) (de_Name b) = true.
#[export] Instance name_le_dec a b : Decision (name_le a b).
Proof. unfold name_le. apply _. Defined.

Definition gofs_ReadDir (open : string -> M W (option (File W) * err)) (name : string) :
    M W (list DirEntry * err) :=
  let* (file, e) := open name in
  match e with
  | Some e => ret ([], Some e)
  | None =>
      not_nil file (fun file =>
        deferred (close file)
          match f_ReadDir file with
          | None => ret ([], Some (PathError "readdir" name (Errorf "not implemented" [])))
          | Some readDir =>
              let* (l, e) := readDir (-1)%Z in
              ret (merge_sort name_le l, e)
          end)
  end.

(** The read loop, into buffers whose lengths [append] chooses: [grow] is the
    free space after the bytes so far. *)
Fixpoint read_loop (fuel : nat) (grow : nat -> Z) (file : File W) (data : list byte) :
    M W (list byte * err) :=
  match fuel with
  | 0 => out_of_fuel
  | S fuel =>
      let* (p, e) := f_Read file (grow (length data)) in
      let data := (data ++ p)%list in
      match e with
      | Some e => ret (data, if bool_decide (e = EOF) then None else Some e)
      | None => read_loop fuel grow file data
      end
  end.

Definition gofs_ReadFile (fuel : nat) (grow : Z -> nat -> Z)
    (open : string -> M W (option (File W) * err)) (name : string) : M W (list byte * err) :=
  let* (file, e) := open name in
  match e with
  | Some e => ret ([], Some e)
  | None =>
      not_nil file (fun file =>
        deferred (close file)
          (let* (info, e) := f_Stat file in
           size <- match e with
                   | Some _ => ret 0%Z
                   | None => not_nil info (fun info => ret (fi_Size info))
                   end ;;
           if (size + 1 <? 0)%Z then panic "makeslice: cap out of range"
           else read_loop fuel (grow (size + 1)%Z) file []))
  end.
(** [io.Copy] and [io.CopyBuffer] between two files that implement neither
    [WriterTo] nor [ReaderFrom], in chunks of [size] bytes. *)
Fixpoint io_Copy (fuel : nat) (size : Z) (write : list byte -> M W (Z * err)) (src : File W) :
    M W err :=
  match fuel with
  | 0 => out_of_fuel
  | S fuel =>
      let* (p, er) := f_Read src size in
      failed <-
        (match p with
         | [] => ret None
         | _ =>
             let* (nw, ew) := write p in
             if ((nw <? 0) || (Z.of_nat (length p) <? nw))%Z
             then ret (Some (match ew with Some e => e | None => Errorf "invalid write result" [] end))
             else match ew with
                  | Some e => ret (Some e)
                  | None => if (nw =? Z.of_nat (length p))%Z then ret None
                            else ret (Some (Errorf "short write" []))
                  end
         end) ;;
      match failed, er with
      | Some e, _ => ret (Some e)
      | None, Some e => ret (if bool_decide (e = EOF) then None else Some e)
      | None, None => io_Copy fuel size write src
      end
  end.
End iofs.

(** ** [fs.go] *)
Section fs.
Context {W : Type} (methods : FS -> FSOps W) (grow : Z -> nat -> Z).

(** Run the own method, or go to the mount and translate the paths in the error
    it returns, or fall back. *)
Fixpoint forward {A} (fuel : nat) (own : FSOps W -> option (string -> M W (A * err)))
    (fallback : FS -> string -> M W (A * err)) (fs : FS) (name : string) : M W (A * err) :=
  match own (methods fs), fs_Mount (methods fs) with
  | Some f, _ => f name
  | None, None => fallback fs name
  | None, Some mount =>
      match fuel with
      | 0 => out_of_fuel
      | S fuel =>
          let* (mounted, subPath) := mount name in
          let* (a, e) := forward fuel own fallback mounted subPath in
          ret (a, stripErrPathPrefix e name subPath)
      end
  end.

(** The same for methods that return an error only. *)
Definition no_result (m : M W err) : M W (unit * err) := e <- m ;; ret (tt, e).
Definition forward_err (fuel : nat) (own : FSOps W -> option (string -> M W err))
    (fallback : FS -> string -> M W err) (fs : FS) (name : string) : M W err :=
  just_err (forward fuel (fun ops => (fun f name => no_result (f name)) <$> own ops)
              (fun fs name => no_result (fallback fs name)) fs name).

Definition not_implemented (op : string) : FS -> string -> M W err :=
  fun _ name => ret (Some (PathError op name ErrNotImplemented)).

(** [newSubFS] *)
Definition newSubFS (fs : FS) (dir : string) : M W (option FS * err) :=
  if ValidPath dir then ret (Some (subFS dir fs), None)
  else ret (None, Some (PathError "sub" dir ErrInvalid)).

Definition Sub (fuel : nat) : FS -> string -> M W (option FS * err) :=
  forward fuel fs_Sub newSubFS.

Definition OpenFile (fuel : nat) (fs : FS) (name : string) (flag perm : Z) :
    M W (option (File W) * err) :=
  if (flag =? FlagReadOnly)%Z then fs_Open (methods fs) name
  else
    forward fuel (fun ops => (fun f name => f name flag perm) <$> fs_OpenFile ops)
      (fun _ name => ret (None, Some (PathError "open" name ErrNotImplemented))) fs name.

Definition Create (fuel : nat) (fs : FS) (name : string) : M W (option (File W) * err) :=
  match fs_Create (methods fs) with
  | Some f => f name
  | None => OpenFile fuel fs name (Z.lor FlagReadWrite (Z.lor FlagCreate FlagTruncate)) 438
  end.

Definition Mkdir (fuel : nat) (fs : FS) (name : string) (perm : Z) : M W err :=
  forward_err fuel (fun ops => (fun f name => f name perm) <$> fs_Mkdir ops)
    (not_implemented "mkdir") fs name.

Definition Remove (fuel : nat) : FS -> string -> M W err :=
  forward_err fuel fs_Remove (not_implemented "remove").

Definition Rename (fs : FS) (oldName newName : string) : M W err :=
  match fs_Rename (methods fs) with
  | Some f => f oldName newName
  | None => ret (Some (LinkError "rename" oldName newName ErrNotImplemented))
  end.

Definition Symlink (fs : FS) (oldname newname : string) : M W err :=
  match fs_Symlink (methods fs) with
  | Some f => f oldname newname
  | None => ret (Some (LinkError "symlink" oldname newname ErrNotImplemented))
  end.

(** [defer file.Close()] around a method of the file that [fs.Open] returns. *)
Definition with_file {A} (file : option (File W)) (k : File W -> M W A) : M W A :=
  not_nil file (fun file => deferred (close file) (k file)).

Definition Stat (fuel : nat) : FS -> string -> M W (option FileInfo * err) :=
  forward fuel fs_Stat (fun fs name =>
    let* (file, e) := fs_Open (methods fs) name in
    match e with
    | Some e => ret (None, Some e)
    | None => with_file file f_Stat
    end).

Definition Lstat (fuel : nat) : FS -> string -> M W (option FileInfo * err) :=
  forward fuel fs_Lstat (fun _ name => ret (None, Some (PathError "lstat" name ErrNotImplemented))).

(** No method of its own comes before the mount. *)
Definition LstatOrStat (fuel : nat) : FS -> string -> M W (option FileInfo * err) :=
  forward fuel (fun _ => None) (fun fs name =>
    let* (info, e) := Lstat fuel fs name in
    if errors_Is e ErrNotImplemented then Stat fuel fs name else ret (info, e)).

(** Fall back to a method of the opened file. *)
Definition by_file (op : string) (k : File W -> M W err) (fs : FS) (name : string) : M W err :=
  let* (file, e) := fs_Open (methods fs) name in
  match e with
  | Some e => ret (Some (PathError op name e))
  | None => with_file file k
  end.

Definition Chmod (fuel : nat) (fs : FS) (name : string) (mode : Z) : M W err :=
  forward_err fuel (fun ops => (fun f name => f name mode) <$> fs_Chmod ops)
    (by_file "chmod" (fun file => ChmodFile file mode)) fs name.
Definition Chown (fuel : nat) (fs : FS) (name : string) (uid gid : Z) : M W err :=
  forward_err fuel (fun ops => (fun f name => f name uid gid) <$> fs_Chown ops)
    (by_file "chown" (fun file => ChownFile file uid gid)) fs name.
Definition Chtimes (fuel : nat) (fs : FS) (name : string) (atime mtime : Z) : M W err :=
  forward_err fuel (fun ops => (fun f name => f name atime mtime) <$> fs_Chtimes ops)
    (by_file "chtimes" (fun file => ChtimesFile file atime mtime)) fs name.

Definition ReadDir (fuel : nat) : FS -> string -> M W (list DirEntry * err) :=
  forward fuel fs_ReadDir (fun fs name => gofs_ReadDir (fs_Open (methods fs)) name).

Definition ReadFile (fuel : nat) : FS -> string -> M W (list byte * err) :=
  forward fuel fs_ReadFile (fun fs name => gofs_ReadFile fuel grow (fs_Open (methods fs)) name).

(** ** [MkdirAll] *)

(** The prefixes [path[:i]] with [path[i] == '/'], in the order of [i]. *)
Fixpoint slash_prefixes (before path : string) : list string :=
  match path with
  | "" => []
  | String c path =>
      if Ascii.eqb c slash then before :: slash_prefixes (before +:+ "/") path
      else slash_prefixes (before +:+ String c "") path
  end.

(** A directory on the way: one that is there already is fine. *)
Definition mkdir_parent (fuel : nat) (fs : FS) (perm : Z) (name : string) : M W err :=
  e <- Mkdir fuel fs name perm ;;
  match e with
  | None => ret None
  | Some (PathError op path e') =>
      let e := PathError op path e' in
      if negb (error_Is e ErrExist) then ret (Some e)
      else
        let* (info, statErr) := Stat fuel fs path in
        match statErr with
        | Some _ => ret (Some e)
        | None =>
            not_nil info (fun info =>
              if IsDir (fi_Mode info) then ret None
              else ret (Some (PathError "mkdir" path ErrNotDir)))
        end
  | Some e => ret (Some e)
  end.

Fixpoint mkdir_parents (fuel : nat) (fs : FS) (perm : Z) (names : list string) : M W err :=
  match names with
  | [] => ret None
  | name :: names =>
      e <- mkdir_parent fuel fs perm name ;;
      match e with
      | Some e => ret (Some e)
      | None => mkdir_parents fuel fs perm names
      end
  end.

Definition mkdir_all (fuel : nat) (perm : Z) (fs : FS) (path : string) : M W err :=
  if negb (ValidPath path) then ret (Some (PathError "mkdirall" path ErrInvalid))
  else
    e <- mkdir_parents fuel fs perm (slash_prefixes "" path) ;;
    match e with
    | Some e => ret (Some e)
    | None => Mkdir fuel fs path perm
    end.

Definition MkdirAll (fuel : nat) (fs : FS) (path : string) (perm : Z) : M W err :=
  forward_err fuel (fun ops => (fun f path => f path perm) <$> fs_MkdirAll ops)
    (mkdir_all fuel perm) fs path.

(** ** [RemoveAll] *)
Definition ignoreNotExist (e : err) : err := if errors_Is e ErrNotExist then None else e.

Fixpoint remove_entries (remove : string -> M W err) (path : string) (dir : list DirEntry) :
    M W err :=
  match dir with
  | [] => ret None
  | dirEntry :: dir =>
      e <- remove (Join [path; de_Name dirEntry]) ;;
      match e with
      | Some e => ret (Some (PathError "removeall" path e))
      | None => remove_entries remove path dir
      end
  end.

(** The error of the last [Remove] is dropped. *)
Fixpoint removeAll (fuel : nat) (fs : FS) (path : string) : M W err :=
  match fuel with
  | 0 => out_of_fuel
  | S fuel' =>
      let* (info, e) := Stat fuel fs path in
      match e with
      | Some e => ret (ignoreNotExist (Some e))
      | None =>
          not_nil info (fun info =>
            if negb (IsDir (fi_Mode info)) then e <- Remove fuel fs path ;; ret (ignoreNotExist e)
            else
              let* (dir, e) := ReadDir fuel fs path in
              match e with
              | Some e => ret (Some (PathError "removeall" path e))
              | None =>
                  e <- remove_entries (removeAll fuel' fs) path dir ;;
                  match e with
                  | Some e => ret (Some e)
                  | None => _ <- Remove fuel fs path ;; ret None
                  end
              end)
      end
  end.

Definition RemoveAll (fuel : nat) : FS -> string -> M W err :=
  forward_err fuel fs_RemoveAll (fun fs path =>
    if negb (ValidPath path) then ret (Some (PathError "removeall" path ErrInvalid))
    else removeAll fuel fs path).

(** ** [WriteFullFile] *)
Definition write_full (fuel : nat) (data : list byte) (perm : Z) (fs : FS) (name : string) :
    M W err :=
  let* (f, e) := OpenFile fuel fs name (Z.lor FlagWriteOnly (Z.lor FlagCreate FlagTruncate)) perm in
  match e with
  | Some e => ret (Some e)
  | None =>
      not_nil f (fun f =>
        let* (_, e) := WriteFile f data in
        closeErr <- f_Close f ;;
        ret (match e with Some e => Some e | None => closeErr end))
  end.

Definition WriteFullFile (fuel : nat) (fs : FS) (name : string) (data : list byte) (perm : Z) :
    M W err :=
  forward_err fuel (fun ops => (fun f name => f name data perm) <$> fs_WriteFile ops)
    (write_full fuel data perm) fs name.
End fs.
