(* ===== verification/Mount.v ===== *)
(** * Sub file systems and mounts ([sub.go], [mount/fs.go])

    [subFS] and [mount.FS]: the two file systems that forward to others.  The
    tables of mount points are part of the world; the methods of all file
    systems are tied together at the end, by recursion on fuel. *)
From S2P Require Import Prelude.
From S2P Require Import Paths.
From S2P Require Import Errors.
From S2P Require Import Modes.
From S2P Require Import HackFS.

Local Open Scope string_scope.

(** The mutable fields of a [mount.FS]. *)
Record mount_table := MkTable {
  mountMu : bool;
  mounts : gmap string FS
}.

(** The tables, and whatever the other file systems keep. *)
Record hworld (U : Type) := MkWorld {
  tables : gmap nat mount_table;
  user : U
}.
Arguments MkWorld {U}.
Arguments tables {U}.
Arguments user {U}.

Definition empty_table : mount_table := MkTable false ∅.

Section mount.
Context {U : Type} `{!GoRuntime}.
Notation W := (hworld U).

(** Only the required method. *)
Definition only_Open (open : string -> M W (option (File W) * err)) : FSOps W :=
  MkOps W open None None None None None None None None None None None None None None None None
    None None.

(** ** [subFS] *)
Definition sub_Mount (basePath : string) (rootFS : FS) (p : string) : M W (FS * string) :=
  if ValidPath p then ret (rootFS, Join [basePath; p]) else ret (rootFS, p).

Definition sub_Open (methods : FS -> FSOps W) (basePath : string) (rootFS : FS) (name : string) :
    M W (option (File W) * err) :=
  if negb (ValidPath name) then ret (None, Some (PathError "open" name ErrInvalid))
  else
    let* (mount, subPath) := sub_Mount basePath rootFS name in
    let* (file, e) := fs_Open (methods mount) subPath in
    ret (file, stripErrPathPrefix e name subPath).

(** ** [mount.FS] *)
Definition get_table (l : nat) : M W mount_table :=
  gets (fun w => default empty_table (tables w !! l)).
Definition put_table (l : nat) (t : mount_table) : M W unit :=
  modify (fun w => MkWorld (<[l := t]> (tables w)) (user w)).

(** The callback of [mounts.Range] in [mountPoint], over the entries in the
    order in which [Range] visits them. *)
Fixpoint mount_range (path : string) (entries : list (string * FS)) (result : string * FS) :
    string * FS :=
  match entries with
  | [] => result
  | (mountPath, mount) :: entries =>
      if HasPrefix path (mountPath +:+ "/") then
        if Nat.ltb (String.length (fst result)) (String.length mountPath)
        then mount_range path entries (mountPath, mount)
        else mount_range path entries result
      else if String.eqb mountPath path then (mountPath, mount)
      else mount_range path entries result
  end.

Definition mountPoint (l : nat) (rootFS : FS) (path : string) : M W (FS * string * string) :=
  t <- get_table l ;;
  let '(resultPath, resultFS) := mount_range path (range_order (mounts t)) ("", rootFS) in
  let subPath := TrimPrefix (TrimPrefix path resultPath) "/" in
  ret (resultFS, if String.eqb resultPath "" then "." else resultPath,
       if String.eqb subPath "" then "." else subPath).

Definition mount_Mount (l : nat) (rootFS : FS) (path : string) : M W (FS * string) :=
  let* (mount, mountPath, subPath) := mountPoint l rootFS path in
  if String.eqb mountPath "." then ret (mount, path) else ret (mount, subPath).

Definition mount_Open (methods : FS -> FSOps W) (l : nat) (rootFS : FS) (name : string) :
    M W (option (File W) * err) :=
  let* (mount, subPath) := mount_Mount l rootFS name in
  fs_Open (methods mount) subPath.

Definition MountPoints (l : nat) : M W (list string) :=
  t <- get_table l ;; ret (fst <$> range_order (mounts t)).

(** *** Adding a mount *)
Definition lock_table (l : nat) : M W unit :=
  t <- get_table l ;;
  if mountMu t then blocked else put_table l (MkTable true (mounts t)).
Definition unlock_table (l : nat) : M W unit :=
  t <- get_table l ;;
  if mountMu t then put_table l (MkTable false (mounts t))
  else panic "sync: unlock of unlocked mutex".

(** The part of [addMount] that the mutex guards. *)
Definition mount_locked (methods : FS -> FSOps W) (l : nat) (rootFS : FS) (p : string)
    (mount : FS) : M W err :=
  let '(dir, base) := Split p in
  let* (parentFS, subPath) := mount_Mount l rootFS dir in
  let* (f, e) := fs_Open (methods parentFS) (Join [subPath; base]) in
  match e with
  | Some e => ret (Some e)
  | None =>
      with_file f (fun f =>
        let* (info, e) := f_Stat f in
        match e with
        | Some e => ret (Some e)
        | None =>
            not_nil info (fun info =>
              if negb (IsDir (fi_Mode info)) then ret (Some ErrNotDir)
              else
                t <- get_table l ;;
                match mounts t !! p with
                | Some _ => ret (Some ErrExist)
                | None => put_table l (MkTable (mountMu t) (<[p := mount]> (mounts t))) ;;; ret None
                end)
        end)
  end.

Definition addMount (methods : FS -> FSOps W) (l : nat) (rootFS : FS) (p : string) (mount : FS) :
    M W err :=
  if negb (ValidPath p) || String.eqb p "." then ret (Some ErrInvalid)
  else
    t <- get_table l ;;
    match mounts t !! p with
    | Some _ => ret (Some ErrExist)
    | None =>
        lock_table l ;;;
        deferred (unlock_table l) (mount_locked methods l rootFS p mount)
    end.

Definition AddMount (methods : FS -> FSOps W) (l : nat) (rootFS : FS) (path : string)
    (mount : FS) : M W err :=
  e <- addMount methods l rootFS path mount ;;
  ret (PathError "mount" path <$> e).

(** *** Renaming across mounts *)

(** A regular file moves to another mount by copying. *)
Definition copy_rename (methods : FS -> FSOps W) (fuel : nat) (oldname newname : string)
    (oldMount : FS) (oldSubPath : string) (newMount : FS) (newSubPath : string) (mode : Z) :
    M W err :=
  let* (oldFile, e) := fs_Open (methods oldMount) oldSubPath in
  match e with
  | Some e => ret (Some e)
  | None =>
      with_file oldFile (fun oldFile =>
        let* (newFile, e) := OpenFile methods fuel newMount newSubPath
          (Z.lor FlagWriteOnly (Z.lor FlagCreate FlagTruncate)) mode in
        match e with
        | Some e => ret (Some e)
        | None =>
            not_nil newFile (fun newFile =>
              match f_Write newFile with
              | None => ret (Some (LinkError "rename" oldname newname ErrPermission))
              | Some write =>
                  deferred (close newFile)
                    (e <- io_Copy fuel 32768 write oldFile ;;
                     match e with
                     | Some e => _ <- Remove methods fuel newMount newSubPath ;; ret (Some e)
                     | None => Remove methods fuel oldMount oldSubPath
                     end)
              end)
        end)
  end.

Definition mount_Rename (methods : FS -> FSOps W) (fuel : nat) (l : nat) (rootFS : FS)
    (oldname newname : string) : M W err :=
  let* (oldMount, oldPoint, oldSubPath) := mountPoint l rootFS oldname in
  let* (newMount, newPoint, newSubPath) := mountPoint l rootFS newname in
  let* (oldInfo, e) := Stat methods fuel oldMount oldSubPath in
  match e with
  | Some e => ret (Some (LinkError "rename" oldname newname e))
  | None =>
      if String.eqb oldname newname then
        not_nil oldInfo (fun oldInfo =>
          if negb (IsDir (fi_Mode oldInfo)) then ret None
          else ret (Some (LinkError "rename" oldname newname ErrExist)))
      else if String.eqb oldPoint newPoint then Rename methods oldMount oldSubPath newSubPath
      else
        not_nil oldInfo (fun oldInfo =>
          if IsDir (fi_Mode oldInfo)
          then ret (Some (LinkError "rename" oldname newname ErrNotImplemented))
          else copy_rename methods fuel oldname newname oldMount oldSubPath newMount newSubPath
                 (fi_Mode oldInfo))
  end.

(** ** The methods of every file system *)
Definition subFS_methods (methods : FS -> FSOps W) (basePath : string) (rootFS : FS) : FSOps W :=
  MkOps W (sub_Open methods basePath rootFS) None None None None None None None None None None None
    None None None None None None (Some (sub_Mount basePath rootFS)).

Definition mountFS_methods (methods : FS -> FSOps W) (fuel l : nat) (rootFS : FS) : FSOps W :=
  MkOps W (mount_Open methods l rootFS) None None None None None None None
    (Some (mount_Rename methods fuel l rootFS)) None None None None None None None None None
    (Some (mount_Mount l rootFS)).

(** All methods, out of fuel. *)
Definition stuck : FSOps W :=
  MkOps W (fun _ => out_of_fuel) (Some (fun _ => out_of_fuel)) (Some (fun _ _ _ => out_of_fuel))
    (Some (fun _ => out_of_fuel)) (Some (fun _ _ => out_of_fuel)) (Some (fun _ _ => out_of_fuel))
    (Some (fun _ => out_of_fuel)) (Some (fun _ => out_of_fuel)) (Some (fun _ _ => out_of_fuel))
    (Some (fun _ => out_of_fuel)) (Some (fun _ => out_of_fuel)) (Some (fun _ _ => out_of_fuel))
    (Some (fun _ _ _ => out_of_fuel)) (Some (fun _ _ _ => out_of_fuel))
    (Some (fun _ => out_of_fuel)) (Some (fun _ => out_of_fuel))
    (Some (fun _ _ _ => out_of_fuel)) (Some (fun _ _ => out_of_fuel))
    (Some (fun _ => out_of_fuel)).

Fixpoint methods (other : nat -> FSOps W) (fuel : nat) (fs : FS) : FSOps W :=
  match fs, fuel with
  | Other n, _ => other n
  | _, 0 => stuck
  | subFS basePath rootFS, S fuel => subFS_methods (methods other fuel) basePath rootFS
  | mountFS l rootFS, S fuel => mountFS_methods (methods other fuel) fuel l rootFS
  end.

(** [mount.NewFS], with the address of the new table. *)
Definition NewFS (l : nat) (rootFS : FS) : M W FS :=
  put_table l empty_table ;;; ret (mountFS l rootFS).
End mount.
