(* ===== verification/Frames.v ===== *)
(** * Frames: what a computation leaves alone

    [keeps R m] says that [m] relates its start and its end by [R], however it
    ends.  The relation is a preorder, so it goes through every construct of
    the monad. *)
From S2P Require Import Prelude.
From S2P Require Import Paths.
From S2P Require Import Errors.
From S2P Require Import Modes.
From S2P Require Import HackFS.

Definition keeps {S A} (R : S -> S -> Prop) (m : M S A) : Prop := forall s, R s (snd (m s)).

Section keeps.
Context {S : Type} (R : S -> S -> Prop) `{!PreOrder R}.

Lemma keeps_ret {A} (a : A) : keeps R (ret a).
Proof. intros s. simpl. reflexivity. Qed.
Lemma keeps_panic {A} why : keeps R (panic (A := A) why).
Proof. intros s. simpl. reflexivity. Qed.
Lemma keeps_blocked {A} : keeps R (blocked (A := A)).
Proof. intros s. simpl. reflexivity. Qed.
Lemma keeps_out_of_fuel {A} : keeps R (out_of_fuel (A := A)).
Proof. intros s. simpl. reflexivity. Qed.
Lemma keeps_bind {A B} (m : M S A) (k : A -> M S B) :
  keeps R m -> (forall a, keeps R (k a)) -> keeps R (bind m k).
Proof.
  intros Hm Hk s. specialize (Hm s). unfold bind. destruct (m s) as [[a|?| |] s']; simpl in *; try done.
  transitivity s'; [done|]. apply Hk.
Qed.
Lemma keeps_gets {A} (f : S -> A) : keeps R (gets f).
Proof. intros s. simpl. reflexivity. Qed.
Lemma keeps_not_nil {A B} (x : option A) (k : A -> M S B) :
  (forall a, keeps R (k a)) -> keeps R (not_nil x k).
Proof. intros Hk. destruct x; [apply Hk|apply keeps_panic]. Qed.
Lemma keeps_deferred {A} (after : M S unit) (body : M S A) :
  keeps R after -> keeps R body -> keeps R (deferred after body).
Proof.
  intros Ha Hb s. specialize (Hb s). unfold deferred.
  destruct (body s) as [[a|?| |] s']; simpl in *; try done; (transitivity s'; [done|]);
    (apply keeps_bind; [done|intros ?; (apply keeps_ret || apply keeps_panic)]).
Qed.
Lemma keeps_io_Copy fuel size write (src : File S) :
  (forall len, keeps R (f_Read src len)) -> (forall b, keeps R (write b)) ->
  keeps R (io_Copy fuel size write src).
Proof.
  intros Hr Hw. induction fuel as [|fuel IH]; [apply keeps_out_of_fuel|].
  simpl. apply keeps_bind; [apply Hr|]. intros [p er]. apply keeps_bind.
  - destruct p; [apply keeps_ret|]. apply keeps_bind; [apply Hw|]. intros [nw ew].
    repeat case_match; apply keeps_ret.
  - intros failed. repeat case_match; try apply keeps_ret. apply IH.
Qed.
End keeps.

(** A computation on a part of the state keeps what does not see the part. *)
Lemma keeps_zoom {S T A} (get : T -> S) (put : S -> T -> T) (R : T -> T -> Prop) (m : M S A) :
  (forall s t, R t (put s t)) -> keeps R (zoom get put m).
Proof. intros Hput t. unfold zoom. destruct (m (get t)). apply Hput. Qed.

(** Goes through the constructs of the monad; the lemmas on calls are in
    [go_wf]. *)
Ltac keeps :=
  repeat match goal with
  | |- PreOrder _ => apply _
  | |- keeps _ (bind _ _) => apply keeps_bind; [..|intros ?]
  | |- keeps _ (ret _) => apply keeps_ret
  | |- keeps _ (panic _) => apply keeps_panic
  | |- keeps _ blocked => apply keeps_blocked
  | |- keeps _ (gets _) => apply keeps_gets
  | |- keeps _ (not_nil _ _) => apply keeps_not_nil; [..|intros ?]
  | |- keeps _ (deferred _ _) => apply keeps_deferred
  | |- keeps _ (io_Copy _ _ _ _) => apply keeps_io_Copy; [..|intros ?|intros ?]
  | |- keeps _ (let '(_, _) := ?x in _) => destruct x
  | |- keeps _ (match ?x with _ => _ end) => destruct x
  | |- keeps _ _ => solve [eauto with go_wf typeclass_instances]
  end.
