(* ===== verification/CopySpec.v ===== *)
(** * Copying from one file to another

    What [io.Copy] does when the source and the destination keep a contract: all
    that the source has left arrives, in order. *)
From S2P Require Import Prelude.
From S2P Require Import Paths.
From S2P Require Import Errors.
From S2P Require Import Modes.
From S2P Require Import HackFS.

(** [I w unread written] says that in the world [w] the source has [unread] left
    and the destination got [written]. *)
Section copy.
Context {W : Type} (src : File W) (write : list byte -> M W (Z * err)) (size : Z).
Context (I : W -> list byte -> list byte -> Prop).

(** Reads make progress and end with [io.EOF]; writes take everything. *)
Record copies : Prop := {
  copies_read w unread written :
    I w unread written ->
    exists p rest e w', f_Read src size w = (Ret (p, e), w') /\ unread = (p ++ rest)%list /\
      I w' rest written /\ ((e = None /\ p <> []) \/ (e = Some EOF /\ rest = []));
  copies_write w unread written p :
    I w unread written -> p <> [] ->
    exists w', write p w = (Ret (Z.of_nat (length p), None), w') /\ I w' unread (written ++ p)%list
}.

Lemma io_Copy_all fuel w unread written :
  copies -> I w unread written -> length unread < fuel ->
  exists w', io_Copy fuel size write src w = (Ret None, w') /\ I w' [] (written ++ unread)%list.
Proof.
  intros Hc. revert w unread written. induction fuel as [|fuel IH]; [lia|].
  intros w unread written HI Hf.
  destruct (copies_read Hc w unread written HI) as (p & rest & e & w1 & E & -> & HI1 & He).
  cbn [io_Copy]. run E.
  assert (exists w2, match p with
      | [] => ret None
      | _ => let* (nw, ew) := write p in
             if ((nw <? 0) || (Z.of_nat (length p) <? nw))%Z
             then ret (Some (match ew with Some e => e | None => Errorf "invalid write result" [] end))
             else match ew with
                  | Some e => ret (Some e)
                  | None => if (nw =? Z.of_nat (length p))%Z then ret None
                            else ret (Some (Errorf "short write" []))
                  end
      end w1 = (Ret None, w2) /\ I w2 rest (written ++ p)%list) as (w2 & E2 & HI2).
  { destruct p as [|b p]; [exists w1; by rewrite app_nil_r|].
    destruct (copies_write Hc w1 rest written (b :: p) HI1) as (w2 & E2 & HI2); [done|].
    exists w2. split; [|done]. run E2.
    assert (((Z.of_nat (length (b :: p)) <? 0) || (Z.of_nat (length (b :: p)) <? Z.of_nat (length (b :: p))))%Z = false)
      as -> by (apply orb_false_iff; split; apply Z.ltb_ge; lia).
    by rewrite Z.eqb_refl. }
  run E2. destruct He as [[-> Hp]|[-> ->]].
  - destruct (IH w2 rest (written ++ p)%list HI2) as (w3 & E3 & HI3).
    { rewrite length_app in Hf. destruct p; [done|]. simpl in Hf. lia. }
    exists w3. split; [done|]. by rewrite app_assoc.
  - rewrite bool_decide_eq_true_2 by done. exists w2. by rewrite app_nil_r.
Qed.
End copy.
