(* ===== verification/MountSpec.v ===== *)
(** * Which file system a path belongs to

    Lemmas about the choice of a mount point and about the chain of mounts a
    helper follows. *)
From S2P Require Import Prelude.
From S2P Require Import Paths.
From S2P Require Import Errors.
From S2P Require Import Modes.
From S2P Require Import HackFS.
From S2P Require Import Mount.

Local Open Scope string_scope.

(** The mount at [p] is responsible for [path]. *)
Definition covers (path p : string) : Prop :=
  p = path \/ HasPrefix path (p +:+ "/") = true.
#[export] Instance covers_dec path p : Decision (covers path p).
Proof. unfold covers. apply _. Defined.

Section strings.
Implicit Types (p path s : string).

Lemma length_append a b : String.length (a +:+ b) = String.length a + String.length b.
Proof. induction a as [|c a IH]; [done|]. simpl. by rewrite IH. Qed.

Lemma append_inj_length a b s t :
  String.length a = String.length b -> a +:+ s = b +:+ t -> a = b /\ s = t.
Proof.
  revert b. induction a as [|c a IH]; intros [|c' b] Hl E; try done.
  injection E as -> E. injection Hl as Hl. by destruct (IH b Hl E) as [-> ->].
Qed.

Lemma covers_length path p : covers path p -> p = path \/ String.length p < String.length path.
Proof.
  intros [->|[r ->]%HasPrefix_spec]; [by left|]. right. rewrite !length_append. simpl. lia.
Qed.

(** Of one length, only one path is responsible. *)
Lemma covers_unique path p p' :
  covers path p -> covers path p' -> String.length p = String.length p' -> p = p'.
Proof.
  intros [->|[r E]%HasPrefix_spec] [->|[r' E']%HasPrefix_spec] Hl.
  - done.
  - subst path. rewrite !length_append in Hl. simpl in Hl. lia.
  - subst path. rewrite !length_append in Hl. simpl in Hl. lia.
  - rewrite E, !app_assoc_s in E'. by apply append_inj_length in E' as [-> _].
Qed.
End strings.

(** ** The choice *)

(** The longest mount that covers the path, or the root. *)
Definition chosen (root : FS) (entries : list (string * FS)) (path : string)
    (result : string * FS) : Prop :=
  (result = ("", root) /\ forall p fs, (p, fs) ∈ entries -> ~ covers path p) \/
  (result ∈ entries /\ covers path result.1 /\
   forall p fs, (p, fs) ∈ entries -> covers path p -> String.length p <= String.length result.1).

Lemma mount_range_skip path p fs entries result :
  ~ covers path p -> mount_range path ((p, fs) :: entries) result = mount_range path entries result.
Proof.
  intros Hc. simpl. destruct (HasPrefix path (p +:+ "/")) eqn:Hp; [by destruct Hc; right|].
  destruct (String.eqb_spec p path); [by destruct Hc; left|done].
Qed.

Lemma mount_range_chosen root path seen entries result :
  (forall p fs, (p, fs) ∈ entries -> p <> "") ->
  chosen root seen path result -> (result.1 <> path \/ result = ("", root)) ->
  chosen root (seen ++ entries) path (mount_range path entries result).
Proof.
  revert seen result. induction entries as [|[p fs] entries IH]; intros seen result Hne Hc Hr.
  { by rewrite app_nil_r. }
  assert (Hne' : forall p fs, (p, fs) ∈ entries -> p <> "").
  { intros p' fs' Hin. apply (Hne p' fs'). by apply elem_of_cons; right. }
  assert (Hp0 : p <> "") by (apply (Hne p fs), elem_of_cons; by left).
  replace (seen ++ (p, fs) :: entries)%list with ((seen ++ [(p, fs)]) ++ entries)%list
    by by rewrite <- app_assoc.
  destruct (decide (covers path p)) as [Hp|Hp].
  2: { rewrite mount_range_skip by done. apply IH; [done| |done].
       destruct Hc as [[-> Hn]|(Hin & Hcov & Hmax)]; [left|right]; split_and!; try done.
       - intros p' fs' [Hin|[= -> ->]%list_elem_of_singleton]%elem_of_app; [by apply (Hn p' fs')|done].
       - by apply elem_of_app; left.
       - intros p' fs' [Hin'|[= -> ->]%list_elem_of_singleton]%elem_of_app; [by apply (Hmax p' fs')|done]. }
  simpl. destruct (HasPrefix path (p +:+ "/")) eqn:Hpre.
  - assert (Hpp : p <> path).
    { intros ->. apply HasPrefix_spec in Hpre as [r E]. apply (f_equal String.length) in E.
      rewrite !length_append in E. simpl in E. lia. }
    destruct (Nat.ltb_spec (String.length result.1) (String.length p)) as [Hlt|Hge].
    + apply IH; [done| |by left]. right. split_and!.
      * apply elem_of_app. right. by apply list_elem_of_singleton.
      * done.
      * intros p' fs' [Hin|[= -> ->]%list_elem_of_singleton]%elem_of_app Hcov; [|done]. simpl.
        destruct Hc as [[_ Hn]|(_ & _ & Hmax)]; [by destruct (Hn p' fs' Hin)|].
        specialize (Hmax p' fs' Hin Hcov). lia.
    + apply IH; [done| |done]. destruct Hc as [[-> Hn]|(Hin & Hcov & Hmax)].
      * simpl in Hge. destruct p; [done|simpl in Hge; lia].
      * right. split_and!; [by apply elem_of_app; left|done|].
        intros p' fs' [Hin'|[= -> ->]%list_elem_of_singleton]%elem_of_app Hcov'; [by apply (Hmax p' fs')|done].
  - destruct Hp as [->|Hp]; [|congruence]. rewrite String.eqb_refl. right. split_and!.
    + apply elem_of_app. left. apply elem_of_app. right. by apply list_elem_of_singleton.
    + by left.
    + intros p' fs' _ Hcov. simpl. destruct (covers_length path p' Hcov) as [->|]; lia.
Qed.

(** Whatever the order of the entries, there is one choice. *)
Lemma chosen_unique root l1 l2 path r1 r2 :
  l1 ≡ₚ l2 -> NoDup l1.*1 -> chosen root l1 path r1 -> chosen root l2 path r2 -> r1 = r2.
Proof.
  intros Hp Hnd H1 H2.
  assert (Hin : forall p fs, (p, fs) ∈ l1 <-> (p, fs) ∈ l2) by (intros; by rewrite Hp).
  destruct H1 as [[-> Hn1]|(Hi1 & Hc1 & Hm1)], H2 as [[-> Hn2]|(Hi2 & Hc2 & Hm2)]; [done| | |].
  - destruct r2 as [p fs]. apply Hin in Hi2. by destruct (Hn1 p fs Hi2).
  - destruct r1 as [p fs]. apply Hin in Hi1. by destruct (Hn2 p fs Hi1).
  - destruct r1 as [p1 fs1], r2 as [p2 fs2]. simpl in *. apply Hin in Hi2.
    assert (p1 = p2) as ->.
    { apply (covers_unique path); [done|done|]. specialize (Hm1 p2 fs2 Hi2 Hc2).
      specialize (Hm2 p1 fs1 ltac:(by apply Hin) Hc1). lia. }
    f_equal. apply elem_of_list_to_map_1 in Hi1; [|done].
    apply elem_of_list_to_map_1 in Hi2; [|done].
    rewrite Hi1 in Hi2. by injection Hi2.
Qed.

(** ** Tables *)
Definition table_ok (t : mount_table) : Prop :=
  forall p fs, mounts t !! p = Some fs -> ValidPath p = true /\ p <> ".".

Section tables.
Context {U : Type} `{!GoRuntime}.
Notation W := (hworld U).
Implicit Types (w : W) (t : mount_table) (l : nat).

Definition table_at l w : mount_table := default empty_table (tables w !! l).

Lemma table_nonempty t p fs : table_ok t -> (p, fs) ∈ range_order (mounts t) -> p <> "".
Proof.
  intros Ht Hin. rewrite range_order_perm in Hin. apply elem_of_map_to_list in Hin.
  apply Ht in Hin as [Hv _]. by intros ->.
Qed.

(** What [mountPoint] chooses. *)
Definition best t (root : FS) (path : string) : string * FS :=
  mount_range path (range_order (mounts t)) ("", root).

Lemma best_chosen t root path :
  table_ok t -> chosen root (map_to_list (mounts t)) path (best t root path).
Proof.
  intros Ht. unfold best.
  pose proof (mount_range_chosen root path [] (range_order (mounts t)) ("", root)) as Hc.
  simpl in Hc. specialize (Hc (fun p fs => table_nonempty t p fs Ht)).
  assert (H0 : chosen root [] path ("", root)).
  { left. split; [done|]. intros p fs Hin. by apply elem_of_nil in Hin. }
  specialize (Hc H0 (or_intror eq_refl)).
  pose proof (range_order_perm (mounts t)) as Hp.
  destruct Hc as [[E Hn]|(Hin & Hcov & Hm)]; [left|right]; split_and!; try done.
  - intros p fs. rewrite <- Hp. apply Hn.
  - by rewrite <- Hp.
  - intros p fs. rewrite <- Hp. apply Hm.
Qed.

Lemma best_cases t root path :
  table_ok t ->
  (best t root path = ("", root) /\ forall p, is_Some (mounts t !! p) -> ~ covers path p) \/
  (exists p fs, best t root path = (p, fs) /\ mounts t !! p = Some fs /\ covers path p /\
     forall p', is_Some (mounts t !! p') -> covers path p' -> String.length p' <= String.length p).
Proof.
  intros Ht. destruct (best_chosen t root path Ht) as [[E Hn]|(Hin & Hcov & Hm)].
  - left. split; [done|]. intros p [fs Hp]. apply (Hn p fs). by apply elem_of_map_to_list.
  - right. destruct (best t root path) as [p fs]. exists p, fs. simpl in *.
    split_and!; [done|by apply elem_of_map_to_list|done|].
    intros p' [fs' Hp']. apply (Hm p' fs'). by apply elem_of_map_to_list.
Qed.

(** The path inside the mount. *)
Definition sub_path (path p : string) : string :=
  let s := TrimPrefix (TrimPrefix path p) "/" in if String.eqb s "" then "." else s.

Lemma TrimPrefix_self s : TrimPrefix s s = "".
Proof. rewrite <- (app_nil_r_s s) at 1. apply TrimPrefix_app. Qed.

Lemma sub_path_elems path p :
  ValidPath path = true -> ValidPath p = true -> p <> "." -> covers path p ->
  exists r, good_elems r /\ elems path = (elems p ++ r)%list /\ sub_path path p = of_elems r.
Proof.
  intros Hv Hp Hne Hc. destruct (ValidPath_elems p Hp) as [Hgp Hep].
  destruct (ValidPath_elems path Hv) as [Hg He].
  destruct Hc as [->|[r ->]%HasPrefix_spec].
  - exists []. unfold sub_path. rewrite TrimPrefix_self, app_nil_r. by split_and!.
  - rewrite app_assoc_s in Hg, He |- *.
    assert (Hel : elems (p +:+ "/" +:+ r) = (elems p ++ split_slash r)%list).
    { unfold elems. rewrite (proj2 (String.eqb_neq p ".")) by done.
      assert (Hd : p +:+ "/" +:+ r <> ".").
      { intros E. apply (f_equal String.length) in E. rewrite !length_append in E.
        destruct p as [|c p]; [done|]. simpl in E. lia. }
      rewrite (proj2 (String.eqb_neq _ _) Hd).
      apply split_slash_append. }
    exists (split_slash r). rewrite Hel in Hg. apply Forall_app in Hg as [_ Hg].
    split_and!; [done|done|]. unfold sub_path.
    rewrite !TrimPrefix_app, (proj2 (String.eqb_neq r "")).
    + pose proof (join_split r) as Hj. pose proof (split_slash_nil r) as Hne'.
      by destruct (split_slash r).
    + intros ->. rewrite Forall_forall in Hg. by specialize (Hg "" ltac:(by apply list_elem_of_singleton)).
Qed.
(** No prefix is cut for the root. *)
Lemma sub_path_root path : ValidPath path = true -> sub_path path "" = path.
Proof.
  intros Hv. unfold sub_path. change (TrimPrefix path "") with (TrimPrefix ("" +:+ path) "").
  rewrite TrimPrefix_app.
  assert (TrimPrefix path "/" = path) as ->.
  { unfold TrimPrefix. destruct (strip_prefix "/" path) as [r|] eqn:E; [|done].
    apply strip_prefix_Some in E as ->.
    destruct (ValidPath_elems _ Hv) as [Hg _]. unfold elems in Hg. simpl in Hg.
    by apply Forall_cons in Hg as [Hg _]. }
  by destruct path.
Qed.

(** Two valid paths, one after the other. *)
Definition path_join (p q : string) : string := of_elems (elems p ++ elems q)%list.
Lemma path_join_root q : ValidPath q = true -> q = path_join "." q.
Proof. by intros [_ Hq]%ValidPath_elems. Qed.
End tables.

(** ** The life of a table *)
Section life.
Context {U : Type} `{!GoRuntime}.
Notation W := (hworld U).
Implicit Types (w : W) (t : mount_table) (l : nat).

(** Code of other file systems that leaves the tables of mounts alone. *)
Definition quiet {A} (m : M W A) : Prop := forall w, tables (m w).2 = tables w.
Definition quiet_file (f : File W) : Prop := quiet (f_Stat f) /\ quiet (f_Close f).
Definition quiet_open (ops : FSOps W) : Prop :=
  forall name w, tables (fs_Open ops name w).2 = tables w /\
    forall f e, (fs_Open ops name w).1 = Ret (Some f, e) -> quiet_file f.

Lemma quiet_ret {A} (a : A) : quiet (ret a).
Proof. by intros w. Qed.
Lemma quiet_bind {A B} (m : M W A) (k : A -> M W B) :
  quiet m -> (forall a, quiet (k a)) -> quiet (bind m k).
Proof.
  intros Hm Hk w. unfold bind. specialize (Hm w). destruct (m w) as [[a|e| |] w']; simpl in *; [|done..].
  by rewrite Hk.
Qed.

Lemma quiet_open_strip (ops : FSOps W) name sub w :
  quiet_open ops ->
  let m := (let* (file, e) := fs_Open ops sub in ret (file, stripErrPathPrefix e name sub)) in
  tables (m w).2 = tables w /\ forall f e, (m w).1 = Ret (Some f, e) -> quiet_file f.
Proof.
  intros Hq. simpl. unfold bind. destruct (Hq sub w) as [Ht Hf].
  destruct (fs_Open ops sub w) as [[[file e]|e| |] w']; simpl in *; split; try done.
  intros f e' [= -> _]. by apply (Hf f e).
Qed.

Lemma quiet_methods other fuel fs :
  (forall n, quiet_open (other n)) -> quiet_open (methods (U := U) other fuel fs).
Proof.
  intros Ho. revert fs. induction fuel as [|fuel IH]; intros [n|base root|l root];
    simpl; try apply Ho; try done; intros name w; simpl.
  - unfold sub_Open. destruct (ValidPath name) eqn:Hv; [|done]. cbn [negb].
    unfold sub_Mount. rewrite Hv, bind_ret_l. by apply quiet_open_strip.
  - unfold mount_Open, mount_Mount, mountPoint, get_table. rewrite !bind_assoc, bind_gets.
    destruct (mount_range _ _ _) as [p fs]. rewrite !bind_ret_l.
    by destruct (String.eqb _ "."); rewrite bind_ret_l; apply IH.
Qed.

(** What happens under the mutex. *)
Definition mounted_or_not l (p : string) (mount : FS) w w' (r : outcome err) : Prop :=
  let t := table_at l w in
  match r with
  | Ret None => mounts t !! p = None /\
      tables w' = <[l := MkTable (mountMu t) (<[p := mount]> (mounts t))]> (tables w)
  | Ret (Some _) => tables w' = tables w
  | Panic _ =>
      tables w' = tables w \/
      mounts t !! p = None /\
      tables w' = <[l := MkTable (mountMu t) (<[p := mount]> (mounts t))]> (tables w)
  | _ => True
  end.

Lemma mounted_or_not_deferred l p mount w (f : File W) (body : M W err) w0 :
  quiet_file f -> tables w0 = tables w ->
  mounted_or_not l p mount w (body w0).2 (body w0).1 ->
  mounted_or_not l p mount w (deferred (close f) body w0).2 (deferred (close f) body w0).1.
Proof.
  intros [_ Hc] Ht Hb. unfold deferred.
  assert (Hclose : quiet (close f)).
  { apply quiet_bind; [done|]. intros. apply quiet_ret. }
  destruct (body w0) as [[e|e| |] w1]; simpl in *; try done; unfold bind; specialize (Hclose w1);
    destruct (close f w1) as [[[]|e'| |] w2]; simpl in *; try done; rewrite Hclose;
    try done; destruct e; auto.
Qed.

Lemma mounted_or_not_bind {A} l p mount w (m : M W A) (k : A -> M W err) w0 :
  tables (m w0).2 = tables w ->
  (forall a w1, m w0 = (Ret a, w1) -> tables w1 = tables w ->
     mounted_or_not l p mount w (k a w1).2 (k a w1).1) ->
  mounted_or_not l p mount w (bind m k w0).2 (bind m k w0).1.
Proof.
  intros Ht Hk. unfold bind. destruct (m w0) as [[a|e| |] w1]; simpl in *;
    [by apply Hk|by left|exact I|exact I].
Qed.

Lemma mount_locked_run methods l root p mount w :
  (forall fs, quiet_open (methods fs)) ->
  let r := mount_locked methods l root p mount w in
  mounted_or_not l p mount w r.2 r.1.
Proof.
  intros Hq. cbv zeta. unfold mount_locked. destruct (Split p) as [dir base].
  apply mounted_or_not_bind.
  { unfold mount_Mount, mountPoint, get_table. rewrite !bind_assoc, bind_gets.
    destruct (mount_range _ _ _) as [rp rfs]. rewrite !bind_ret_l. by destruct (String.eqb _ "."). }
  intros [parent sub] w1 _ Hw1. destruct (Hq parent (Join [sub; base]) w1) as [Ht Hf].
  apply mounted_or_not_bind; [congruence|]. intros [f e] w2 E Hw2. rewrite E in Hf.
  destruct e as [e|]; [exact Hw2|]. destruct f as [f|]; [|by left].
  specialize (Hf f None eq_refl). unfold with_file, not_nil.
  apply mounted_or_not_deferred; [done|done|].
  apply mounted_or_not_bind; [destruct Hf as [-> _]; done|]. intros [i e] w3 _ Hw3.
  destruct e as [e|]; [exact Hw3|]. destruct i as [i|]; [|by left]. unfold not_nil.
  destruct (IsDir (fi_Mode i)); [|exact Hw3]. cbn [negb].
  assert (Hat : table_at l w3 = table_at l w) by (unfold table_at; by rewrite Hw3).
  unfold get_table. rewrite bind_gets. fold (table_at l w3). rewrite Hat.
  destruct (mounts (table_at l w) !! p) eqn:Ep; [exact Hw3|].
  split; [done|]. simpl. by rewrite Hw3.
Qed.
(** Taking the mutex, running the guarded part and giving it back. *)
Lemma with_table_lock l p mount (m : M W err) w :
  mountMu (table_at l w) = false ->
  (forall w1, mountMu (table_at l w1) = true -> mounts (table_at l w1) = mounts (table_at l w) ->
     mounted_or_not l p mount w1 (m w1).2 (m w1).1) ->
  let t := table_at l w in
  let r := (lock_table l ;;; deferred (unlock_table l) m) w in
  match r.1 with
  | Ret None => mounts t !! p = None /\ table_at l r.2 = MkTable false (<[p := mount]> (mounts t))
  | Ret (Some _) => table_at l r.2 = t
  | Panic _ => table_at l r.2 = t \/
      mounts t !! p = None /\ table_at l r.2 = MkTable false (<[p := mount]> (mounts t))
  | _ => True
  end.
Proof.
  intros Hmu Hm t r. subst r. destruct t as [mu ms] eqn:Et. unfold t in Et.
  rewrite Et in *. simpl in Hmu. subst mu.
  set (w1 := MkWorld (<[l := MkTable true ms]> (tables w)) (user w)).
  assert (El : lock_table l w = (Ret tt, w1)).
  { unfold lock_table, get_table. rewrite bind_gets. fold (table_at l w). by rewrite Et. }
  rewrite (bind_Ret _ _ _ _ _ El). unfold deferred.
  assert (Ht1 : table_at l w1 = MkTable true ms).
  { unfold table_at, w1. simpl. by rewrite lookup_insert_eq. }
  specialize (Hm w1). rewrite Ht1 in Hm. specialize (Hm eq_refl eq_refl).
  unfold mounted_or_not in Hm. rewrite Ht1 in Hm. simpl in Hm.
  assert (Hun : forall w2 ms', tables w2 = <[l := MkTable true ms']> (tables w) ->
    unlock_table l w2 = (Ret tt, MkWorld (<[l := MkTable false ms']> (tables w)) (user w2))).
  { intros w2 ms' E. unfold unlock_table, get_table. rewrite bind_gets, E, lookup_insert_eq. simpl.
    unfold put_table, modify. by rewrite E, insert_insert_eq. }
  assert (Hat : forall ms' w2, tables w2 = <[l := MkTable false ms']> (tables w) ->
    table_at l w2 = MkTable false ms')
    by (intros ms' w2 E; unfold table_at; by rewrite E, lookup_insert_eq).
  destruct (m w1) as [[[e|]|e| |] w2]; simpl in Hm; try exact I.
  - rewrite (bind_Ret _ _ _ _ _ (Hun w2 ms Hm)). by apply Hat.
  - destruct Hm as [Hp E]. unfold w1 in E. simpl in E. rewrite insert_insert_eq in E.
    rewrite (bind_Ret _ _ _ _ _ (Hun w2 _ E)). split; [done|by apply Hat].
  - destruct Hm as [E|[Hp E]].
    + rewrite (bind_Ret _ _ _ _ _ (Hun w2 ms E)). left. by apply Hat.
    + unfold w1 in E. simpl in E. rewrite insert_insert_eq in E.
      rewrite (bind_Ret _ _ _ _ _ (Hun w2 _ E)). right. split; [done|by apply Hat].
Qed.
End life.

(** ** Following mounts *)
Section follow.
Context {U : Type} `{!GoRuntime}.
Notation W := (hworld U).
Implicit Types (w : W) (fs : FS) (name : string).

(** What [Mount] returns for the two file systems that have it. *)
Definition step w fs name : option (FS * string) :=
  match fs with
  | Other _ => None
  | subFS base root => Some (root, if ValidPath name then Join [base; name] else name)
  | mountFS l root =>
      let '(p, mounted) := best (table_at l w) root name in
      Some (mounted, if String.eqb p "" then name else sub_path name p)
  end.

Lemma Mount_run other fuel fs name w :
  (forall n, fs_Mount (other n) = None) ->
  (forall l p fs, mounts (table_at l w) !! p = Some fs -> p <> "." /\ p <> "") ->
  match step w fs name with
  | Some next => exists mount, fs_Mount (methods other (S fuel) fs) = Some mount /\
                   mount name w = (Ret next, w)
  | None => fs_Mount (methods other (S fuel) fs) = None
  end.
Proof.
  intros Ho Ht. destruct fs as [n|base root|l root]; simpl; [apply Ho| |].
  - eexists. split; [done|]. unfold sub_Mount. by destruct (ValidPath name).
  - assert (Hb : (best (table_at l w) root name).1 <> ".").
    { unfold best.
      assert (Hin : forall l0 r, (forall p fs, (p, fs) ∈ l0 -> p <> ".") -> r.1 <> "." ->
        (mount_range name l0 r).1 <> ".").
      { induction l0 as [|[p fs] l0 IH]; intros r Hl Hr; simpl; [done|].
        assert (p <> ".") by (apply (Hl p fs), elem_of_cons; by left).
        assert (forall p fs, (p, fs) ∈ l0 -> p <> ".")
          by (intros p' fs' Hi; apply (Hl p' fs'), elem_of_cons; by right).
        destruct (HasPrefix name _); [destruct (Nat.ltb _ _)|destruct (String.eqb p name)]; auto. }
      apply Hin; [|done]. intros p fs Hi. rewrite range_order_perm in Hi.
      apply elem_of_map_to_list in Hi. by apply (Ht l p fs). }
    destruct (best (table_at l w) root name) as [p mounted] eqn:E. eexists. split; [done|].
    unfold mount_Mount, mountPoint, get_table. rewrite bind_assoc, bind_gets.
    fold (table_at l w). fold (best (table_at l w) root name). rewrite E, bind_ret_l.
    simpl in Hb. destruct (String.eqb_spec p ""); [done|].
    by rewrite (proj2 (String.eqb_neq p ".")) by done.
Qed.

(** The chain of mounts from a file system and a path: it ends at another
    implementation, and errors from there are translated on the way back. *)
Inductive leads w : FS -> string -> (err -> err) -> nat -> string -> nat -> Prop :=
  | leads_other n name : leads w (Other n) name (fun e => e) n name 0
  | leads_step fs name fs' name' translate n leaf hops :
      step w fs name = Some (fs', name') -> leads w fs' name' translate n leaf hops ->
      leads w fs name (fun e => stripErrPathPrefix (translate e) name name') n leaf (S hops).

(** How deep a file system is nested, and that [Sub] made no [subFS] of a file
    system that has mounts. *)
Fixpoint depth fs : nat :=
  match fs with
  | Other _ => 0
  | subFS _ root => S (depth root)
  | mountFS _ root => S (depth root)
  end.
Fixpoint flat fs : Prop :=
  match fs with
  | Other _ => True
  | subFS _ root => exists n, root = Other n
  | mountFS _ root => flat root
  end.

Definition tables_ok (D : nat) w : Prop :=
  forall l p fs, mounts (table_at l w) !! p = Some fs ->
    ValidPath p = true /\ p <> "." /\ depth fs <= D /\ flat fs.

Definition path_size name : nat := if String.eqb name "." then 0 else String.length name.

Lemma path_size_sub path p :
  covers path p -> p <> "" -> p <> "." -> path_size (sub_path path p) < path_size path.
Proof.
  intros Hc Hp Hd.
  assert (Hne : path <> ".").
  { intros ->. destruct Hc as [->|[r E]%HasPrefix_spec]; [done|].
    apply (f_equal String.length) in E. rewrite !length_append in E. destruct p; simpl in E; [done|lia]. }
  unfold path_size at 2. rewrite (proj2 (String.eqb_neq path ".")) by done.
  assert (Hl : 0 < String.length path).
  { destruct path; [|simpl; lia]. destruct Hc as [->|[r E]%HasPrefix_spec]; [done|].
    by destruct p. }
  assert (Hs : forall s, String.length s < String.length path ->
    path_size (if String.eqb s "" then "." else s) < String.length path).
  { intros s Hs. unfold path_size. destruct (String.eqb_spec s ""); [exact Hl|].
    destruct (String.eqb s "."); lia. }
  unfold sub_path. apply Hs. destruct Hc as [->|[r E]%HasPrefix_spec].
  - rewrite TrimPrefix_self. exact Hl.
  - rewrite E, app_assoc_s, TrimPrefix_app. change ("/" +:+ r) with ("/" +:+ r)%string.
    rewrite TrimPrefix_app, !length_append. destruct p; [done|]. simpl. lia.
Qed.

Definition weight (D : nat) fs name : nat := path_size name * S D + depth fs.

Lemma leads_exists D w fs name :
  tables_ok D w -> flat fs -> depth fs <= D ->
  exists translate n leaf hops, leads w fs name translate n leaf hops /\
    hops <= S (weight D fs name).
Proof.
  intros Ht. remember (weight D fs name) as k eqn:Hk.
  assert (Hle : weight D fs name <= k) by lia. clear Hk. revert fs name Hle.
  induction k as [|k IH]; intros [n|base root|l root] name Hle Hf Hd.
  1, 4: by eexists _, _, _, 0; split; [constructor|lia].
  1, 3: destruct Hf as [n ->]; eexists _, n, _, 1; (split; [|lia]);
    by eapply leads_step; [reflexivity|constructor].
  { unfold weight in Hle. simpl in Hle. lia. }
  assert (Hnext : exists fs' name', step w (mountFS l root) name = Some (fs', name') /\
    weight D fs' name' <= k /\ flat fs' /\ depth fs' <= D).
  { simpl. unfold weight in *. simpl in Hle, Hd.
    assert (Htab : table_ok (table_at l w)) by (intros p fs E; by destruct (Ht l p fs E) as (? & ? & _)).
    destruct (best_cases (table_at l w) root name Htab) as [[-> _]|(p & fs & -> & E & Hc & _)].
    - simpl. exists root, name. split_and!; [done|lia|done|lia].
    - destruct (Ht l p fs E) as (Hv & Hne & Hdf & Hff). assert (p <> "") as Hp by by intros ->.
      rewrite (proj2 (String.eqb_neq p "")) by done. exists fs, (sub_path name p).
      pose proof (path_size_sub name p Hc Hp Hne) as Hlt. split_and!; [done| |done|done].
      enough (path_size (sub_path name p) * S D + S D <= path_size name * S D) by lia.
      replace (path_size (sub_path name p) * S D + S D) with (S (path_size (sub_path name p)) * S D)
        by lia. by apply Nat.mul_le_mono_r. }
  destruct Hnext as (fs' & name' & Hstep & Hw & Hf' & Hd').
  destruct (IH fs' name' Hw Hf' Hd') as (tr & n & leaf & hops & Hl & Hh).
  eexists _, n, leaf, (S hops). split; [by eapply leads_step|lia].
Qed.

(** None of the methods that the helpers look for, but [Open], [Mount] and, on
    [mount.FS], [Rename]. *)
Definition forwarded {A} (own : FSOps W -> option A) : Prop :=
  (forall m base root, own (subFS_methods m base root) = None) /\
  (forall m fuel l root, own (mountFS_methods m fuel l root) = None).

Lemma forward_leads {A} other fuel k (own : FSOps W -> option (string -> M W (A * err)))
    fallback fs name translate n leaf hops w :
  (forall n, fs_Mount (other n) = None) ->
  (forall l p fs, mounts (table_at l w) !! p = Some fs -> p <> "." /\ p <> "") ->
  forwarded own -> leads w fs name translate n leaf hops -> hops <= k ->
  forward (methods other (S fuel)) k own fallback fs name w =
    (let* (a, e) := match own (other n) with
                    | Some f => f leaf
                    | None => fallback (Other n) leaf
                    end in
     ret (a, translate e)) w.
Proof.
  intros Ho Ht [Hsub Hmount] Hl. revert k.
  induction Hl as [n name|fs name fs' name' tr n leaf hops Hs Hl IH]; intros k Hk.
  - assert (E : forall m : M W (A * err), m w = (let* (a, e) := m in ret (a, e)) w).
    { intros m. unfold bind. by destruct (m w) as [[[a e]|e| |] w']. }
    destruct k; simpl; rewrite Ho; destruct (own (other n)); apply E.
  - destruct k as [|k]; [lia|].
    assert (Hown : own (methods other (S fuel) fs) = None) by (destruct fs; [done|apply Hsub|apply Hmount]).
    pose proof (Mount_run other fuel fs name w Ho Ht) as Hm. rewrite Hs in Hm.
    destruct Hm as (mount & Em & Er). cbn [forward]. rewrite Hown, Em.
    rewrite (bind_Ret _ _ _ _ _ Er). cbv beta iota.
    unfold bind at 1. rewrite (IH k) by lia. unfold bind.
    by destruct ((match own (other n) with Some f => f leaf | None => _ end) w) as [[[a e]|e| |] w'].
Qed.
End follow.

(** ** Paths below a directory *)
Lemma Join_paths_valid p q :
  ValidPath p = true -> ValidPath q = true -> ValidPath (Join [p; q]) = true.
Proof.
  intros Hp Hq. rewrite Join_paths by done. apply ValidPath_of_elems, Forall_app.
  by apply ValidPath_elems in Hp as [? _], Hq as [? _].
Qed.

Lemma elems_not_dot q : ValidPath q = true -> q <> "." -> exists e es, elems q = e :: es.
Proof.
  intros Hq Hne. destruct (elems q) as [|e es] eqn:E; [|by eexists _, _].
  by apply elems_nil in E.
Qed.

(** The prefix that is stripped is the base directory. *)
Lemma strip_Join op base name q e :
  ValidPath base = true -> ValidPath name = true -> name <> "." ->
  ValidPath q = true -> q <> "." ->
  stripErrPathPrefix (Some (PathError op (Join [base; q]) e)) name (Join [base; name]) =
    Some (PathError op q e).
Proof.
  intros Hb Hv Hne Hq Hqne. rewrite !Join_paths by done. simpl. do 2 f_equal.
  destruct (ValidPath_elems name Hv) as [Hgn Hen], (ValidPath_elems q Hq) as [Hgq Heq].
  destruct (elems_not_dot name Hv Hne) as (n & ns & En), (elems_not_dot q Hq Hqne) as (x & xs & Ex).
  rewrite En in *. rewrite Ex in *. destruct (decide (base = ".")) as [->|Hbne].
  - change (elems ".") with (@nil string). rewrite !app_nil_l, Hen, Heq.
    assert (TrimSuffix name name = "") as ->.
    { apply (TrimSuffix_app "" name). }
    change (TrimPrefix q "") with (TrimPrefix ("" +:+ q) ""). apply TrimPrefix_app.
  - rewrite (TrimSuffix_Join base name n ns) by done.
    destruct (ValidPath_elems base Hb) as [Hgb Heb].
    destruct (elems_not_dot base Hb Hbne) as (b & bs & Eb). rewrite Eb in *.
    change (of_elems ((b :: bs) ++ x :: xs)) with (join_slash ((b :: bs) ++ x :: xs)).
    rewrite join_slash_app by done. change (join_slash (b :: bs)) with (of_elems (b :: bs)).
    rewrite Heb. change (join_slash (x :: xs)) with (of_elems (x :: xs)). rewrite Heq.
    by rewrite <- app_assoc_s, TrimPrefix_app.
Qed.

(** ** Cutting a path at its slashes *)
Lemma slash_prefixes_join before e es :
  Forall (fun e => contains_char slash e = false) (e :: es) ->
  slash_prefixes before (join_slash (e :: es)) =
    (fun k => before +:+ join_slash (take k (e :: es))) <$> seq 1 (length es).
Proof.
  revert before e. induction es as [|e' es IH]; intros before e [He Hes]%Forall_cons.
  - simpl. revert before. induction e as [|c e IHe]; intros before; [done|]. simpl in *.
    apply orb_false_iff in He as [Hc He]. rewrite Ascii.eqb_sym in Hc.
    rewrite Hc. by apply IHe.
  - assert (Hskip : forall s b, contains_char slash s = false ->
      slash_prefixes b (s +:+ "/" +:+ join_slash (e' :: es)) =
        (b +:+ s) :: slash_prefixes (b +:+ s +:+ "/") (join_slash (e' :: es))).
    { clear. induction s as [|c s IHs]; intros b Hs.
      - simpl. by rewrite app_nil_r_s.
      - simpl in Hs. apply orb_false_iff in Hs as [Hc Hs]. rewrite Ascii.eqb_sym in Hc.
      simpl. rewrite Hc, IHs by done.
        by rewrite !app_assoc_s. }
    change (join_slash (e :: e' :: es)) with (e +:+ "/" +:+ join_slash (e' :: es)).
    rewrite Hskip, IH by done. cbn [length seq]. rewrite fmap_cons. f_equal.
    rewrite <- (fmap_S_seq 1), <- list_fmap_compose. apply list_fmap_ext.
    intros i k Hk. cbn [compose take]. apply lookup_seq in Hk as [-> _].
    destruct (take (1 + i) (e' :: es)) eqn:Et; [done|]. by rewrite <- Et, !app_assoc_s.
Qed.

Lemma slash_prefixes_elems path :
  ValidPath path = true ->
  slash_prefixes "" path =
    (fun k => of_elems (take k (elems path))) <$> seq 1 (length (elems path) - 1).
Proof.
  intros Hv. destruct (ValidPath_elems path Hv) as [Hg He].
  destruct (elems path) as [|e es] eqn:E; [by subst path|].
  rewrite <- He. change (of_elems (e :: es)) with (join_slash (e :: es)).
  rewrite slash_prefixes_join by by apply good_elems_no_slash.
  simpl. rewrite Nat.sub_0_r. apply list_fmap_ext. intros i k Hk.
  apply lookup_seq in Hk as [-> _]. done.
Qed.
