(* ===== verification/MountThms.v ===== *)
(** * Properties of mounts, sub file systems and the helpers

    The choice of the mount point, the life of the mount table, the paths a
    sub file system reaches and the paths in the errors it returns, and the
    termination of the helpers that follow mounts. *)
From S2P Require Import Prelude.
From S2P Require Import Paths.
From S2P Require Import Errors.
From S2P Require Import Modes.
From S2P Require Import HackFS.
From S2P Require Import Mount.
From S2P Require Import MountSpec.

Local Open Scope string_scope.

Section mounts.
Context {U : Type}.
Notation W := (hworld U).
Implicit Types (w : W) (t : mount_table) (l : nat).

Lemma mountPoint_run `{!GoRuntime} l root path w :
  mountPoint l root path w =
    (let '(p, fs) := best (table_at l w) root path in
     Ret (fs, if String.eqb p "" then "." else p, sub_path path p), w).
Proof.
  unfold mountPoint, get_table, best. rewrite bind_gets. fold (table_at l w).
  by destruct (mount_range _ _ _) as [p fs].
Qed.

(** C16: the mount that [mountPoint] returns covers the path and is the longest
    that does, and it is the root file system, at ["."], only if no mount covers
    the path; the table is only read. *)
Theorem mountPoint_longest `{!GoRuntime} l root path w :
  table_ok (table_at l w) ->
  exists fs mp sp, mountPoint l root path w = (Ret (fs, mp, sp), w) /\
    ((mp = "." /\ fs = root /\
      forall p, is_Some (mounts (table_at l w) !! p) -> ~ covers path p) \/
     (mounts (table_at l w) !! mp = Some fs /\ covers path mp /\
      forall p, is_Some (mounts (table_at l w) !! p) -> covers path p ->
        String.length p <= String.length mp)).
Proof.
  intros Ht. rewrite mountPoint_run.
  destruct (best_cases (table_at l w) root path Ht) as [[-> Hn]|(p & fs & -> & E & Hc & Hm)].
  - eexists _, _, _. split; [reflexivity|]. by left.
  - eexists _, _, _. split; [reflexivity|]. right.
    destruct (Ht p fs E) as [Hv _]. by destruct p.
Qed.

(** In whatever order [sync.Map.Range] visits the mounts, [mountPoint] gives
    the same result. *)
Theorem mountPoint_any_range_order (rt1 rt2 : GoRuntime) l root path w :
  table_ok (table_at l w) ->
  @mountPoint U rt1 l root path w = @mountPoint U rt2 l root path w.
Proof.
  intros Ht. rewrite !mountPoint_run.
  rewrite (chosen_unique root (map_to_list (mounts (table_at l w)))
             (map_to_list (mounts (table_at l w))) path
             (@best rt1 (table_at l w) root path) (@best rt2 (table_at l w) root path));
    [done|done|apply NoDup_fst_map_to_list|by apply best_chosen|by apply best_chosen].
Qed.

(** A valid path is the mount's path followed by the path inside the mount,
    which is valid again. *)
Theorem mountPoint_splits_path `{!GoRuntime} l root path w :
  table_ok (table_at l w) -> ValidPath path = true ->
  exists fs mp sp, mountPoint l root path w = (Ret (fs, mp, sp), w) /\
    ValidPath mp = true /\ ValidPath sp = true /\ elems path = (elems mp ++ elems sp)%list /\
    path = path_join mp sp.
Proof.
  intros Ht Hv. rewrite mountPoint_run.
  destruct (best_cases (table_at l w) root path Ht) as [[-> Hn]|(p & fs & -> & E & Hc & Hm)].
  - exists root, ".", path. assert (sub_path path "" = path) as -> by by apply sub_path_root.
    split_and!; try done. by apply path_join_root.
  - destruct (Ht p fs E) as [Hp Hne].
    destruct (sub_path_elems path p Hv Hp Hne Hc) as (r & Hr & Hel & ->).
    exists fs, p, (of_elems r).
    assert (String.eqb p "" = false) as -> by by destruct p.
    split_and!; try done; [by apply ValidPath_of_elems|by rewrite elems_of_elems|].
    unfold path_join. rewrite elems_of_elems, <- Hel by done.
    by destruct (ValidPath_elems path Hv).
Qed.

(** [AddMount] on a table whose mutex is free either returns an error and
    leaves the table as it is, or adds the one mount at a valid path that had
    none; the mutex is free again, also when a file system that it calls
    panics. *)
Theorem AddMount_adds_one `{!GoRuntime} other fuel l root p mount w :
  (forall n, quiet_open (other n)) ->
  table_ok (table_at l w) -> mountMu (table_at l w) = false ->
  let t := table_at l w in
  let added := MkTable false (<[p := mount]> (mounts t)) in
  let r := AddMount (methods other fuel) l root p mount w in
  match r.1 with
  | Ret None => ValidPath p = true /\ p <> "." /\ mounts t !! p = None /\ table_at l r.2 = added
  | Ret (Some e) => table_at l r.2 = t /\ exists e', e = PathError "mount" p e'
  | Panic _ => table_at l r.2 = t \/ table_at l r.2 = added
  | _ => True
  end.
Proof.
  intros Ho Ht Hmu t added r. subst r. unfold AddMount, addMount.
  destruct (ValidPath p) eqn:Hv; [|by split; [|eexists]].
  destruct (String.eqb_spec p "."); [by split; [|eexists]|]. cbn [negb orb].
  unfold get_table. rewrite bind_assoc, bind_gets. fold (table_at l w). fold t.
  destruct (mounts t !! p) eqn:E; [by split; [|eexists]|].
  pose proof (with_table_lock l p mount
    (mount_locked (methods other fuel) l root p mount) w Hmu) as Hl.
  cbv zeta in Hl. fold t in Hl.
  specialize (Hl (fun w1 _ _ => mount_locked_run _ l root p mount w1
                    (fun fs => quiet_methods other fuel fs Ho))).
  set (m := bind (lock_table l) _) in *. unfold bind.
  destruct (m w) as [[[e|]|e| |] w']; simpl in *.
  - split; [done|by eexists].
  - split_and!; [done|done|done|apply Hl].
  - destruct Hl as [Hl|[_ Hl]]; auto.
  - done.
  - done.
Qed.
End mounts.

Section helpers.
Context {U : Type} `{!GoRuntime}.
Notation W := (hworld U).
Implicit Types (w : W) (fs : FS) (name : string).

(** C17: a helper that forwards to mounts comes to an end: if the tables hold
    file systems nested at most [D] deep, it reaches, after at most
    [|name| * (D+1) + D + 1] mounts, a file system without mounts, does what it
    does there with the path inside of that, and translates the error back. *)
Theorem helpers_follow_mounts {A} other (own : FSOps W -> option (string -> M W (A * err)))
    fallback fs name D fuel w :
  (forall n, fs_Mount (other n) = None) -> forwarded own ->
  tables_ok D w -> flat fs -> depth fs <= D ->
  path_size name * S D + D + 1 <= fuel ->
  exists translate n leaf hops, leads w fs name translate n leaf hops /\
    forward (methods other fuel) fuel own fallback fs name w =
      (let* (a, e) := match own (other n) with
                      | Some f => f leaf
                      | None => fallback (Other n) leaf
                      end in
       ret (a, translate e)) w.
Proof.
  intros Ho Hown Ht Hf Hd Hfuel.
  destruct (leads_exists D w fs name Ht Hf Hd) as (tr & n & leaf & hops & Hl & Hh).
  unfold weight in Hh. exists tr, n, leaf, hops. split; [done|]. destruct fuel as [|fuel]; [lia|].
  apply (forward_leads other fuel (S fuel) own fallback fs name tr n leaf hops w Ho); try done; [|lia].
  intros l p fs' E. destruct (Ht l p fs' E) as (Hv & Hne & _). split; [done|]. by intros ->.
Qed.

(** C24: a [subFS] stays inside its directory, and speaks of its own paths: a
    helper called with a valid path is run by the root file system on that path
    below the base, and an error of the root about a path below the base comes
    back about the path as the client knows it. *)
Theorem subFS_stays_inside {A} other (own : FSOps W -> option (string -> M W (A * err)))
    fallback base n name fuel w :
  (forall n, fs_Mount (other n) = None) -> forwarded own ->
  ValidPath base = true -> ValidPath name = true -> name <> "." ->
  exists leaf, elems leaf = (elems base ++ elems name)%list /\ ValidPath leaf = true /\
    forall a op q e w',
      ValidPath q = true -> q <> "." ->
      match own (other n) with Some f => f leaf | None => fallback (Other n) leaf end w =
        (Ret (a, Some (PathError op (Join [base; q]) e)), w') ->
      forward (methods other (S fuel)) (S fuel) own fallback (subFS base (Other n)) name w =
        (Ret (a, Some (PathError op q e)), w').
Proof.
  intros Ho Hown Hb Hv Hne. exists (Join [base; name]).
  assert (Hj : ValidPath (Join [base; name]) = true) by by apply Join_paths_valid.
  split_and!; [by apply elems_Join_paths|done|]. intros a op q e w' Hq Hqne E.
  destruct Hown as [Hsub _]. cbn [forward methods]. rewrite Hsub. cbn [fs_Mount subFS_methods].
  assert (Em : sub_Mount base (Other n) name w = (Ret (Other n, Join [base; name]), w))
    by (unfold sub_Mount; by rewrite Hv).
  rewrite (bind_Ret _ _ _ _ _ Em). cbv beta iota.
  assert (El : forward (methods other (S fuel)) fuel own fallback (Other n) (Join [base; name]) w =
    (Ret (a, Some (PathError op (Join [base; q]) e)), w')).
  { destruct fuel; simpl; rewrite Ho; by destruct (own (other n)). }
  rewrite (bind_Ret _ _ _ _ _ El). cbv beta iota. unfold ret.
  by rewrite strip_Join.
Qed.

(** For the root of a [subFS], ["."], the path in a translated error is
    empty. *)
Theorem subFS_root_error_has_no_path op base e :
  ValidPath base = true -> base <> "." -> HasSuffix base "." = false ->
  stripErrPathPrefix (Some (PathError op base e)) "." (Join [base; "."]) =
    Some (PathError op "" e).
Proof.
  intros Hb Hne Hs. rewrite Join_paths by done. change (elems ".") with (@nil string).
  rewrite app_nil_r. destruct (ValidPath_elems base Hb) as [_ ->].
  assert (TrimSuffix base "." = base) as Ht.
  { unfold TrimSuffix, HasSuffix, HasPrefix in *. by destruct (strip_prefix _ _). }
  unfold stripErrPathPrefix. by rewrite Ht, TrimPrefix_self.
Qed.

(** The paths at which [MkdirAll] calls [Mkdir], cut at the slashes of a
    valid path, are its parents, top down, without the root. *)
Theorem MkdirAll_visits_parents path :
  ValidPath path = true ->
  slash_prefixes "" path =
    (fun k => of_elems (take k (elems path))) <$> seq 1 (length (elems path) - 1).
Proof. intros Hv. by apply slash_prefixes_elems. Qed.
End helpers.

(** ** The theorems at concrete inputs *)
#[local] Existing Instance simple_runtime.

(** A file system of directories ["."], ["a"] and ["a/b"], and a table with a
    mount at ["a"]. *)
Definition demo_dir : File (hworld unit) :=
  MkFile _ (ret (Some (MkInfo "a" 0 ModeDir 0), None)) (fun _ => ret ([], Some ErrIsDir))
    (ret None) None None None None None None None None None None.
Definition demo_other (n : nat) : FSOps (hworld unit) :=
  only_Open (fun name =>
    if bool_decide (name ∈ ["."; "a"; "a/b"]) then ret (Some demo_dir, None)
    else ret (None, Some (PathError "open" name ErrNotExist))).
Definition demo_tables : hworld unit :=
  MkWorld {[0 := MkTable false {["a" := Other 1]}]} tt.

Lemma demo_table_entries l p fs :
  mounts (table_at l demo_tables) !! p = Some fs -> p = "a" /\ fs = Other 1.
Proof.
  unfold table_at, demo_tables. simpl. destruct l as [|l].
  - rewrite lookup_singleton_eq. simpl.
    by intros [-> ->]%lookup_singleton_Some.
  - rewrite lookup_singleton_ne by done. simpl. by rewrite lookup_empty.
Qed.
Lemma demo_table_ok l : table_ok (table_at l demo_tables).
Proof. by intros p fs [-> _]%demo_table_entries. Qed.
Lemma demo_tables_ok : tables_ok 0 demo_tables.
Proof. by intros l p fs [-> ->]%demo_table_entries. Qed.
Lemma demo_quiet n : quiet_open (demo_other n).
Proof.
  intros name w. simpl. destruct (bool_decide _); [|done]. split; [done|].
  by intros f e [= <- _].
Qed.

Lemma mountPoint_longest_witness :
  mountPoint 0 (Other 0) "a/b" demo_tables = (Ret (Other 1, "a", "b"), demo_tables).
Proof.
  destruct (mountPoint_longest 0 (Other 0) "a/b" demo_tables (demo_table_ok 0))
    as (fs & mp & sp & E & _). rewrite E. vm_compute in E. by injection E as <- <- <-.
Defined.

(** A runtime that visits maps the other way round. *)
Definition reverse_runtime : GoRuntime.
Proof.
  refine {| growcap old needed := needed; range_order V m := rev (map_to_list m) |}; [done|].
  intros V m. symmetry. apply Permutation_rev.
Defined.

Lemma mountPoint_any_range_order_witness :
  @mountPoint unit reverse_runtime 0 (Other 0) "a/b" demo_tables =
  @mountPoint unit simple_runtime 0 (Other 0) "a/b" demo_tables.
Proof.
  exact (mountPoint_any_range_order reverse_runtime simple_runtime 0 (Other 0) "a/b" demo_tables
           (demo_table_ok 0)).
Defined.

Lemma mountPoint_splits_path_witness :
  exists fs mp sp, mountPoint 0 (Other 0) "a/b" demo_tables = (Ret (fs, mp, sp), demo_tables) /\
    ValidPath mp = true /\ ValidPath sp = true /\ elems "a/b" = (elems mp ++ elems sp)%list /\
    "a/b" = path_join mp sp.
Proof. exact (mountPoint_splits_path 0 (Other 0) "a/b" demo_tables (demo_table_ok 0) eq_refl). Defined.

Lemma AddMount_adds_one_witness :
  (AddMount (methods demo_other 3) 1 (Other 0) "a/b" (Other 2) demo_tables).1 = Ret None /\
  table_at 1 (AddMount (methods demo_other 3) 1 (Other 0) "a/b" (Other 2) demo_tables).2 =
    MkTable false (<["a/b" := Other 2]> (mounts (table_at 1 demo_tables))).
Proof.
  pose proof (AddMount_adds_one demo_other 3 1 (Other 0) "a/b" (Other 2) demo_tables
                demo_quiet (demo_table_ok 1) eq_refl) as Ha.
  cbv zeta in Ha.
  assert (E : (AddMount (methods demo_other 3) 1 (Other 0) "a/b" (Other 2) demo_tables).1 = Ret None)
    by (vm_compute; reflexivity).
  rewrite E in Ha. split; [exact E|apply Ha].
Defined.

Lemma helpers_follow_mounts_witness :
  exists translate n leaf hops,
    leads demo_tables (mountFS 0 (Other 0)) "a/b" translate n leaf hops /\
    Stat (methods demo_other 9) 9 (mountFS 0 (Other 0)) "a/b" demo_tables =
      (let* (a, e) := (let* (file, e) := fs_Open (demo_other n) leaf in
                       match e with
                       | Some e => ret (None, Some e)
                       | None => with_file file f_Stat
                       end) in
       ret (a, translate e)) demo_tables.
Proof.
  destruct (helpers_follow_mounts demo_other fs_Stat
    (fun fs name =>
      let* (file, e) := fs_Open (methods demo_other 9 fs) name in
      match e with
      | Some e => ret (None, Some e)
      | None => with_file file f_Stat
      end) (mountFS 0 (Other 0)) "a/b" 1 9 demo_tables)
    as (tr & n & leaf & hops & Hl & E).
  - done.
  - by split.
  - intros l p fs Hp. destruct (demo_tables_ok l p fs Hp) as (? & ? & ? & ?). split_and!; [done..|lia|done].
  - exact I.
  - simpl; lia.
  - simpl; lia.
  - exists tr, n, leaf, hops. split; [exact Hl|exact E].
Defined.

Lemma subFS_stays_inside_witness :
  exists leaf, elems leaf = ["a"; "b"; "c"] /\ ValidPath leaf = true /\
    (leaf = "a/b/c" ->
     Stat (methods demo_other 3) 3 (subFS "a" (Other 0)) "b/c" demo_tables =
       (Ret (None, Some (PathError "open" "b/c" ErrNotExist)), demo_tables)).
Proof.
  destruct (subFS_stays_inside demo_other fs_Stat
    (fun fs name =>
      let* (file, e) := fs_Open (methods demo_other 3 fs) name in
      match e with
      | Some e => ret (None, Some e)
      | None => with_file file f_Stat
      end) "a" 0 "b/c" 2 demo_tables) as (leaf & Hl & Hv & Herr); [done|by split|done..|].
  exists leaf. split_and!; [exact Hl|exact Hv|]. intros ->.
  exact (Herr None "open" "b/c" ErrNotExist demo_tables eq_refl ltac:(discriminate) eq_refl).
Defined.

Lemma subFS_root_error_has_no_path_witness :
  stripErrPathPrefix (Some (PathError "mkdir" "a" ErrExist)) "." (Join ["a"; "."]) =
    Some (PathError "mkdir" "" ErrExist).
Proof.
  exact (subFS_root_error_has_no_path "mkdir" "a" ErrExist eq_refl
           ltac:(discriminate) eq_refl).
Defined.

Lemma MkdirAll_visits_parents_witness : slash_prefixes "" "a/b/c" = ["a"; "a/b"].
Proof. exact (MkdirAll_visits_parents "a/b/c" eq_refl). Defined.
