(* ===== verification/OsPath.v ===== *)
(** * The operating system's file system ([os/path.go], [os/fs.go], [os/file.go])

    The translation between paths of [io/fs] and paths of the operating
    system, the methods of [os.FS] around the functions of package [os], which
    are the parameter [OS], and the translation of the paths in their errors. *)
From Stdlib Require Import Ascii.
From S2P Require Import Prelude.
From S2P Require Import Paths.
From S2P Require Import Errors.
From S2P Require Import HackFS.

Local Open Scope string_scope.

(** [os.FS] *)
Record osFS := MkOsFS {
  root : string;
  volumeName : string
}.

(** What depends on the platform: [runtime.GOOS], [filepath.Separator],
    [filepath.VolumeName] and [filepath.IsAbs]. *)
Record platform := MkPlatform {
  GOOS : string;
  Separator : ascii;
  VolumeName : string -> string;
  IsAbs : string -> bool
}.

Definition goosWindows : string := "windows".

(** ** Paths *)
Section paths.
Implicit Types (fs : osFS) (separator : ascii).

Definition chr separator : string := String separator "".

(** A cutset of the one character. *)
Definition joinSepPath separator (elem1 elem2 : string) : string :=
  TrimRight elem1 separator +:+ chr separator +:+ TrimLeft elem2 separator.

Definition fromSeparator separator (path : string) : string :=
  if Ascii.eqb separator slash then path else ReplaceAll path slash separator.
Definition toSeparator separator (path : string) : string :=
  if Ascii.eqb separator slash then path else ReplaceAll path separator slash.

Definition getVolumeName fs (goos : string) : string :=
  if String.eqb goos goosWindows && String.eqb (volumeName fs) "" then "C:" else volumeName fs.

Definition toOSPath fs (goos : string) separator (op fsPath : string) : string * err :=
  if negb (ValidPath fsPath) then ("", Some (PathError op fsPath ErrInvalid))
  else
    let fsPath := Join ["/"; root fs; fsPath] in
    (joinSepPath separator (getVolumeName fs goos) (fromSeparator separator fsPath), None).

Definition rootedPath (pl : platform) fs (op name : string) : string * err :=
  toOSPath fs (GOOS pl) (Separator pl) op name.

Definition osPathOp : string := "ospath".

Definition ToOSPath (pl : platform) fs (fsPath : string) : string * err :=
  rootedPath pl fs osPathOp fsPath.

Definition fromOSPath fs (goos : string) separator (getVolumeName_ : string -> string)
    (op osPath : string) : string * err :=
  let errInvalid := Some (PathError op osPath ErrInvalid) in
  let fsVolumeName := getVolumeName fs goos in
  if negb (String.eqb (getVolumeName_ osPath) fsVolumeName) then ("", errInvalid)
  else
    let osPath := TrimPrefix (TrimPrefix osPath fsVolumeName) (chr separator) in
    let fsPath := toSeparator separator osPath in
    if negb (String.eqb (root fs) "") && negb (String.eqb fsPath (root fs)) &&
       negb (HasPrefix fsPath (root fs +:+ "/"))
    then ("", errInvalid)
    else
      let fsPath := TrimPrefix (TrimPrefix fsPath (root fs)) "/" in
      (if String.eqb fsPath "" then "." else fsPath, None).

Definition FromOSPath (pl : platform) fs (osPath : string) : string * err :=
  if negb (IsAbs pl osPath) then ("", Some (PathError osPathOp osPath ErrInvalid))
  else fromOSPath fs (GOOS pl) (Separator pl) (VolumeName pl) osPathOp osPath.

(** ** [NewFS], [SubVolume] and [Sub] *)
Definition NewOsFS : osFS := MkOsFS "" "".

Definition SubVolume (pl : platform) fs (volumeName_ : string) : option osFS * err :=
  let failed why := (None, Some (PathError "subvolume" volumeName_ (Errorf why []))) in
  if negb (String.eqb (root fs) "") then failed "subvolume not supported on a SubFS"
  else if negb (String.eqb (volumeName fs) "")
  then failed "subvolume can only be called once per os.FS"
  else if negb (String.eqb (VolumeName pl volumeName_) volumeName_)
  then failed "sub volume must be equal to resolved volume: %q != %q"
  else (Some (MkOsFS "" volumeName_), None).

Definition osSub fs (dir : string) : option osFS * err :=
  if negb (ValidPath dir) then (None, Some (PathError "sub" dir ErrInvalid))
  else (Some (MkOsFS (Join [root fs; dir]) (volumeName fs)), None).

(** ** Errors *)
Definition rel_path (pl : platform) (rootedPath path : string) : string :=
  TrimPrefix (ReplaceAll (TrimPrefix path rootedPath) (Separator pl) slash) "/".

Definition wrapRelPathErr (pl : platform) fs (e : err) : err :=
  let '(rootedPath, _) := rootedPath pl fs "" "." in
  match e with
  | Some (PathError op path e) => Some (PathError op (rel_path pl rootedPath path) e)
  | Some (osLinkError op old new e) =>
      Some (LinkError op (rel_path pl rootedPath old) (rel_path pl rootedPath new) e)
  | e => e
  end.

Definition ERROR_NEGATIVE_SEEK : error := Errno 131.
Definition ERROR_DIR_NOT_EMPTY : error := Errno 145.
Definition mapNonStandardError (e : error) : error :=
  if bool_decide (e = ERROR_NEGATIVE_SEEK) then mappedErr ErrInvalid e
  else if bool_decide (e = ERROR_DIR_NOT_EMPTY) then mappedErr ErrNotEmpty e
  else e.

(** [errors_windows.go] on Windows, [errors_other.go] elsewhere. *)
Definition wrapNonStandardErrors (pl : platform) (e : err) : err :=
  if String.eqb (GOOS pl) goosWindows then
    match e with
    | None => None
    | Some (PathError op path e) => Some (PathError op path (mapNonStandardError e))
    | Some (LinkError op old new e) => Some (LinkError op old new (mapNonStandardError e))
    | Some e => Some (mapNonStandardError e)
    end
  else e.

Definition wrapErr (pl : platform) fs (e : err) : err :=
  wrapNonStandardErrors pl (wrapRelPathErr pl fs e).
End paths.

(** ** The methods *)

(** Package [os], on the paths of the operating system. *)
Class OS (W : Type) := {
  os_Open : string -> M W (option (File W) * err);
  os_OpenFile : string -> Z -> Z -> M W (option (File W) * err);
  os_Create : string -> M W (option (File W) * err);
  os_Mkdir : string -> Z -> M W err;
  os_MkdirAll : string -> Z -> M W err;
  os_Remove : string -> M W err;
  os_RemoveAll : string -> M W err;
  os_Rename : string -> string -> M W err;
  os_Stat : string -> M W (option FileInfo * err);
  os_Lstat : string -> M W (option FileInfo * err);
  os_Chmod : string -> Z -> M W err;
  os_Chown : string -> Z -> Z -> M W err;
  os_Chtimes : string -> Z -> Z -> M W err;
  os_ReadDir : string -> M W (list DirEntry * err);
  os_ReadFile : string -> M W (list byte * err);
  os_WriteFile : string -> list byte -> Z -> M W err;
  os_Symlink : string -> string -> M W err
}.

Section methods.
Context {W : Type} `{!OS W} (pl : platform).
Implicit Types (fs : osFS) (name : string).

Definition wrapped fs (m : M W err) : M W err := e <- m ;; ret (wrapErr pl fs e).
Definition wrapped2 {A} fs (m : M W (A * err)) : M W (A * err) :=
  let* (a, e) := m in ret (a, wrapErr pl fs e).

(** Methods of a [nil] [*os.File] return [os.ErrInvalid]. *)
Definition nil_file : File W :=
  let no {A} (a : A) : M W (A * err) := ret (a, Some ErrInvalid) in
  let fail : M W err := ret (Some ErrInvalid) in
  MkFile W (no None) (fun _ => no []) fail (Some (fun _ _ => no [])) (Some (fun _ => no 0%Z))
    (Some (fun _ _ => no 0%Z)) (Some (fun _ => no [])) (Some (fun _ _ => no 0%Z)) (Some fail)
    (Some (fun _ => fail)) (Some (fun _ => fail)) (Some (fun _ _ => fail)) None.

(** The methods of [file]. *)
Definition file_Stat fs (f : File W) := wrapped2 fs (f_Stat f).
Definition file_Read fs (f : File W) := fun len => wrapped2 fs (f_Read f len).
Definition file_Close fs (f : File W) := wrapped fs (f_Close f).
Definition file_ReadAt fs (f : File W) := (fun m len off => wrapped2 fs (m len off)) <$> f_ReadAt f.
Definition file_Write fs (f : File W) := (fun m b => wrapped2 fs (m b)) <$> f_Write f.
Definition file_WriteAt fs (f : File W) := (fun m b off => wrapped2 fs (m b off)) <$> f_WriteAt f.
Definition file_ReadDir fs (f : File W) := (fun m n => wrapped2 fs (m n)) <$> f_ReadDir f.
Definition file_Seek fs (f : File W) := (fun m off whence => wrapped2 fs (m off whence)) <$> f_Seek f.
Definition file_Sync fs (f : File W) := (fun m => wrapped fs m) <$> f_Sync f.
Definition file_Truncate fs (f : File W) := (fun m size => wrapped fs (m size)) <$> f_Truncate f.
Definition file_Chmod fs (f : File W) := (fun m mode => wrapped fs (m mode)) <$> f_Chmod f.
Definition file_Chown fs (f : File W) := (fun m uid gid => wrapped fs (m uid gid)) <$> f_Chown f.

(** An [*os.File] has all of these methods, and no [Chtimes]. *)
Definition wrapFile fs (osFile : option (File W)) : File W :=
  let f := default nil_file osFile in
  MkFile W (file_Stat fs f) (file_Read fs f) (file_Close fs f) (file_ReadAt fs f) (file_Write fs f)
    (file_WriteAt fs f) (file_ReadDir fs f) (file_Seek fs f) (file_Sync fs f) (file_Truncate fs f)
    (file_Chmod fs f) (file_Chown fs f) None.

(** What a [file] has besides the methods of a [hackpadfs.File].  [ReadFrom]
    is handed the reader and does all the reading itself. *)
Record osFileOps := MkOsFileOps {
  os_Name : M W string;
  os_ReadFrom : (Z -> M W (list byte * err)) -> M W (Z * err);
  os_WriteString : string -> M W (Z * err);
  os_SetDeadline : Z -> M W err;
  os_SetReadDeadline : Z -> M W err;
  os_SetWriteDeadline : Z -> M W err
}.
Definition file_Name (f : osFileOps) : M W string := os_Name f.
Definition file_ReadFrom fs (f : osFileOps) r : M W (Z * err) := wrapped2 fs (os_ReadFrom f r).
Definition file_WriteString fs (f : osFileOps) (s : string) : M W (Z * err) := wrapped2 fs (os_WriteString f s).
Definition file_SetDeadline fs (f : osFileOps) (t : Z) : M W err := wrapped fs (os_SetDeadline f t).
Definition file_SetReadDeadline fs (f : osFileOps) (t : Z) : M W err := wrapped fs (os_SetReadDeadline f t).
Definition file_SetWriteDeadline fs (f : osFileOps) (t : Z) : M W err := wrapped fs (os_SetWriteDeadline f t).

(** The file is wrapped also when there is none. *)
Definition opened fs (m : M W (option (File W) * err)) : M W (option (File W) * err) :=
  let* (file, e) := m in ret (Some (wrapFile fs file), wrapErr pl fs e).

Definition at_path {A} fs (op name : string) (failed : err -> A) (k : string -> M W A) : M W A :=
  let '(path, pathErr) := rootedPath pl fs op name in
  match pathErr with
  | Some e => ret (failed (Some e))
  | None => k path
  end.

Definition Os_Open fs name : M W (option (File W) * err) :=
  at_path fs "open" name (pair None) (fun name => opened fs (os_Open name)).
Definition Os_OpenFile fs name (flag perm : Z) : M W (option (File W) * err) :=
  at_path fs "open" name (pair None) (fun name => opened fs (os_OpenFile name flag perm)).
Definition Os_Create fs name : M W (option (File W) * err) :=
  at_path fs "create" name (pair None) (fun name => opened fs (os_Create name)).
Definition Os_Mkdir fs name (perm : Z) : M W err :=
  at_path fs "mkdir" name id (fun name => wrapped fs (os_Mkdir name perm)).
Definition Os_MkdirAll fs name (perm : Z) : M W err :=
  at_path fs "mkdirall" name id (fun name => wrapped fs (os_MkdirAll name perm)).
Definition Os_Remove fs name : M W err :=
  at_path fs "remove" name id (fun name => wrapped fs (os_Remove name)).
Definition Os_RemoveAll fs name : M W err :=
  at_path fs "removeall" name id (fun name => wrapped fs (os_RemoveAll name)).

(** The error of [rootedPath] comes with an empty path, and that is what the
    names in the [LinkError] are by then. *)
Definition Os_Rename fs (oldname newname : string) : M W err :=
  let '(oldname, e) := rootedPath pl fs "" oldname in
  match e with
  | Some e => ret (Some (LinkError "rename" oldname newname (default e (Unwrap e))))
  | None =>
      let '(newname, e) := rootedPath pl fs "" newname in
      match e with
      | Some e => ret (Some (LinkError "rename" oldname newname (default e (Unwrap e))))
      | None => wrapped fs (os_Rename oldname newname)
      end
  end.

Definition Os_Stat fs name : M W (option FileInfo * err) :=
  at_path fs "stat" name (pair None) (fun name => wrapped2 fs (os_Stat name)).
Definition Os_Lstat fs name : M W (option FileInfo * err) :=
  at_path fs "lstat" name (pair None) (fun name => wrapped2 fs (os_Lstat name)).
Definition Os_Chmod fs name (mode : Z) : M W err :=
  at_path fs "chmod" name id (fun name => wrapped fs (os_Chmod name mode)).
Definition Os_Chown fs name (uid gid : Z) : M W err :=
  at_path fs "chown" name id (fun name => wrapped fs (os_Chown name uid gid)).
Definition Os_Chtimes fs name (atime mtime : Z) : M W err :=
  at_path fs "chtimes" name id (fun name => wrapped fs (os_Chtimes name atime mtime)).
Definition Os_ReadDir fs name : M W (list DirEntry * err) :=
  at_path fs "readdir" name (pair []) (fun name => wrapped2 fs (os_ReadDir name)).
Definition Os_ReadFile fs name : M W (list byte * err) :=
  at_path fs "readfile" name (pair []) (fun name => wrapped2 fs (os_ReadFile name)).
Definition Os_WriteFile fs name (data : list byte) (perm : Z) : M W err :=
  at_path fs "writefile" name id (fun name => wrapped fs (os_WriteFile name data perm)).

Definition Os_Symlink fs (oldname newname : string) : M W err :=
  let '(oldname, e) := rootedPath pl fs "symlink" oldname in
  match e with
  | Some e => ret (Some (LinkError "symlink" oldname newname (default e (Unwrap e))))
  | None =>
      let '(newname, e) := rootedPath pl fs "symlink" newname in
      match e with
      | Some e => ret (Some (LinkError "symlink" oldname newname (default e (Unwrap e))))
      | None => wrapped fs (os_Symlink oldname newname)
      end
  end.
End methods.
