(* ===== verification/OsThms.v ===== *)
(** * Properties of the operating system's file system

    Paths go to the operating system and come back unchanged, stay below the
    root, and errors speak of the client's paths; with the places where the
    code does not keep to that. *)
From Stdlib Require Import Ascii.
From S2P Require Import Prelude.
From S2P Require Import Paths.
From S2P Require Import Errors.
From S2P Require Import HackFS.
From S2P Require Import OsPath.

Local Open Scope string_scope.

(** ** Strings *)
Section strings.
Implicit Types (c d : ascii) (s t : string).

Lemma chr_slash : chr slash = "/".
Proof. done. Qed.

Lemma TrimLeft_other s c : HasPrefix s (chr c) = false -> TrimLeft s c = s.
Proof.
  destruct s as [|c' s]; [done|]. unfold HasPrefix, chr. simpl.
  destruct (Ascii.eqb_spec c c') as [->|Hne]; [by destruct s|].
  done.
Qed.
Lemma TrimLeft_chr s c : TrimLeft (chr c +:+ s) c = TrimLeft s c.
Proof. unfold chr. simpl. by rewrite Ascii.eqb_refl. Qed.

Lemma ReplaceAll_app s t c d : ReplaceAll (s +:+ t) c d = ReplaceAll s c d +:+ ReplaceAll t c d.
Proof. induction s as [|x s IH]; [done|]. simpl. by rewrite IH. Qed.

Lemma ReplaceAll_back s c d :
  contains_char d s = false -> ReplaceAll (ReplaceAll s c d) d c = s.
Proof.
  induction s as [|x s IH]; [done|]. simpl. intros [Hx Hs]%orb_false_iff.
  rewrite (IH Hs). destruct (Ascii.eqb_spec x c) as [->|]; [by rewrite Ascii.eqb_refl|].
  by rewrite Ascii.eqb_sym, Hx.
Qed.
End strings.

(** ** The path of a name *)
Section paths.
Implicit Types (fs : osFS) (name : string).

(** The root of a file system made by [NewFS] and [Sub]. *)
Definition root_ok fs : Prop := root fs = "" \/ ValidPath (root fs) = true.
Definition root_elems fs : list string := if String.eqb (root fs) "" then [] else elems (root fs).

Lemma root_elems_good fs : root_ok fs -> good_elems (root_elems fs).
Proof.
  intros [E|Hv]; unfold root_elems; [by rewrite E|].
  destruct (String.eqb (root fs) ""); [done|]. by apply ValidPath_elems.
Qed.

(** The path below ["/"] without the slash in front. *)
Definition rel fs name : string := join_slash (root_elems fs ++ elems name).

Lemma Join_rooted fs name :
  root_ok fs -> ValidPath name = true -> Join ["/"; root fs; name] = "/" +:+ rel fs name.
Proof.
  intros Hr Hv. unfold Join, rel. simpl drop_empty. cbv iota.
  change (join_slash ["/"; root fs; name]) with ("/" +:+ "/" +:+ root fs +:+ "/" +:+ name).
  unfold Clean. simpl String.eqb. cbv iota.
  change (HasPrefix _ "/") with true. cbv iota. f_equal. f_equal.
  change (split_slash ("/" +:+ "/" +:+ root fs +:+ "/" +:+ name)) with
    ("" :: "" :: split_slash (root fs +:+ "/" +:+ name)).
  rewrite split_slash_append. cbn [clean_loop]. simpl orb. cbv iota.
  unfold root_elems. destruct Hr as [->|Hr].
  - simpl. rewrite <- (app_nil_r (split_slash name)), clean_loop_valid by done.
    simpl. by rewrite app_nil_r, rev_involutive.
  - assert (String.eqb (root fs) "" = false) as -> by (destruct (root fs); done).
    rewrite clean_loop_valid by done.
    rewrite <- (app_nil_r (split_slash name)), clean_loop_valid by done.
    simpl. by rewrite app_nil_r, rev_app_distr, !rev_involutive.
Qed.

(** No element contains the separator, unless it is the slash itself. *)
Definition sep_free (sep : ascii) s : Prop := sep = slash \/ contains_char sep s = false.

Lemma rel_not_rooted fs name :
  root_ok fs -> ValidPath name = true -> HasPrefix (rel fs name) "/" = false.
Proof.
  intros Hr [Hg _]%ValidPath_elems. unfold rel.
  destruct (root_elems fs ++ elems name)%list as [|e es] eqn:E; [done|].
  rewrite <- (app_nil_r_s (join_slash (e :: es))). apply HasPrefix_slash_join; [done|].
  rewrite <- E. apply Forall_app. split; [by apply root_elems_good|done].
Qed.

Lemma fromSeparator_rooted sep s : fromSeparator sep ("/" +:+ s) = chr sep +:+ fromSeparator sep s.
Proof.
  unfold fromSeparator. by destruct (Ascii.eqb_spec sep slash) as [->|].
Qed.
Lemma fromSeparator_not_rooted sep s :
  HasPrefix s "/" = false -> sep_free sep s -> HasPrefix (fromSeparator sep s) (chr sep) = false.
Proof.
  intros Hp Hs. unfold fromSeparator. destruct (Ascii.eqb_spec sep slash) as [->|Hne]; [done|].
  destruct Hs as [|Hs]; [done|]. destruct s as [|c s]; [done|]. simpl in Hs.
  apply orb_false_iff in Hs as [Hc _]. unfold HasPrefix, chr in *. simpl in *.
  destruct (Ascii.eqb_spec c slash) as [->|Hcs]; [by destruct s|]. by rewrite Hc.
Qed.
Lemma toSeparator_back sep s : sep_free sep s -> toSeparator sep (fromSeparator sep s) = s.
Proof.
  intros Hs. unfold toSeparator, fromSeparator.
  destruct (Ascii.eqb_spec sep slash) as [->|]; [done|]. destruct Hs as [|Hs]; [done|].
  by apply ReplaceAll_back.
Qed.

(** The volume, the separator, and the path below the root. *)
Lemma toOSPath_run fs goos sep op name :
  root_ok fs -> ValidPath name = true -> sep_free sep (rel fs name) ->
  TrimRight (getVolumeName fs goos) sep = getVolumeName fs goos ->
  toOSPath fs goos sep op name =
    (getVolumeName fs goos +:+ chr sep +:+ fromSeparator sep (rel fs name), None).
Proof.
  intros Hr Hv Hs Ht. unfold toOSPath. rewrite Hv, Join_rooted by done. cbn [negb]. cbv zeta.
  rewrite fromSeparator_rooted. unfold joinSepPath. rewrite Ht, TrimLeft_chr, TrimLeft_other; [done|].
  apply fromSeparator_not_rooted; [by apply rel_not_rooted|done].
Qed.

Lemma HasPrefix_self s t : HasPrefix (s +:+ t) s = true.
Proof. apply HasPrefix_app. Qed.

(** The path below the root, without the root. *)
Lemma rel_back fs name :
  root_ok fs -> root fs <> "." -> ValidPath name = true ->
  (root fs = "" \/ rel fs name = root fs \/ HasPrefix (rel fs name) (root fs +:+ "/") = true) /\
  (let s := TrimPrefix (TrimPrefix (rel fs name) (root fs)) "/" in
   if String.eqb s "" then "." else s) = name.
Proof.
  intros Hr Hdot Hv. pose proof (rel_not_rooted fs name Hr Hv) as Hnr.
  destruct (ValidPath_elems name Hv) as [Hg He].
  assert (Hend : forall s, s = join_slash (elems name) -> (if String.eqb s "" then "." else s) = name).
  { intros s ->. destruct (elems name) as [|e es] eqn:E; [by subst name|].
    rewrite (proj2 (String.eqb_neq _ "")) by by apply join_slash_nonempty. by subst name. }
  assert (Hnp : forall s, HasPrefix s "/" = false -> TrimPrefix s "/" = s).
  { intros s Hs. unfold HasPrefix, TrimPrefix in *. by destruct (strip_prefix "/" s). }
  unfold rel, root_elems in *. destruct Hr as [Er|Hr].
  - rewrite Er in *. simpl in *. split; [by left|]. apply Hend.
    change (TrimPrefix (join_slash (elems name)) "") with (TrimPrefix ("" +:+ join_slash (elems name)) "").
    rewrite TrimPrefix_app. by apply Hnp.
  - assert (String.eqb (root fs) "" = false) as Hne by (by destruct (root fs)). rewrite Hne in *.
    destruct (ValidPath_elems (root fs) Hr) as [Hgr Her].
    destruct (elems (root fs)) as [|r rs] eqn:Es; [by symmetry in Her|].
    change (of_elems (r :: rs)) with (join_slash (r :: rs)) in Her.
    destruct (elems name) as [|e es] eqn:E.
    + rewrite app_nil_r, Her. split; [by right; left|].
      assert (TrimPrefix (root fs) (root fs) = "") as ->.
      { rewrite <- (app_nil_r_s (root fs)) at 1. apply TrimPrefix_app. }
      by apply Hend.
    + rewrite join_slash_app in * by done. rewrite Her, <- app_assoc_s in *. split.
      * right; right. apply HasPrefix_app.
      * rewrite app_assoc_s, TrimPrefix_app. apply Hend. apply (TrimPrefix_app "/").
Qed.

(** The path of the root is a prefix of every path; without it and the slash
    the name is left. *)
Lemma rel_split fs name :
  root_ok fs -> ValidPath name = true ->
  exists s, rel fs name = rel fs "." +:+ s /\ TrimPrefix s "/" = join_slash (elems name).
Proof.
  intros Hr Hv. destruct (ValidPath_elems name Hv) as [Hg _].
  pose proof (root_elems_good fs Hr) as Hgr.
  assert (Hn : TrimPrefix (join_slash (elems name)) "/" = join_slash (elems name)).
  { destruct (elems name) as [|e es] eqn:E; [done|]. unfold TrimPrefix.
    assert (Hp : HasPrefix (join_slash (e :: es) +:+ "") "/" = false) by by apply HasPrefix_slash_join.
    rewrite app_nil_r_s in Hp. unfold HasPrefix in Hp.
    by destruct (strip_prefix "/" (join_slash (e :: es))). }
  unfold rel. change (elems ".") with (@nil string). rewrite app_nil_r.
  destruct (root_elems fs) as [|r rs]; [by eexists|].
  destruct (elems name) as [|e es] eqn:E.
  - exists "". by rewrite app_nil_r, app_nil_r_s.
  - exists ("/" +:+ join_slash (e :: es)). rewrite join_slash_app by done. split; [done|].
    apply TrimPrefix_app.
Qed.

Lemma fromSeparator_app sep s t :
  fromSeparator sep (s +:+ t) = fromSeparator sep s +:+ fromSeparator sep t.
Proof. unfold fromSeparator. destruct (Ascii.eqb sep slash); [done|apply ReplaceAll_app]. Qed.

Lemma ReplaceAll_self s c : ReplaceAll s c c = s.
Proof.
  induction s as [|x s IH]; [done|]. simpl. rewrite IH. by destruct (Ascii.eqb_spec x c) as [->|].
Qed.
Lemma ReplaceAll_fromSeparator sep s :
  sep_free sep s -> ReplaceAll (fromSeparator sep s) sep slash = s.
Proof.
  intros Hs. pose proof (toSeparator_back sep s Hs) as Hb. unfold toSeparator in Hb.
  unfold fromSeparator in *. destruct (Ascii.eqb_spec sep slash) as [->|]; [|done].
  apply ReplaceAll_self.
Qed.

Lemma sep_free_app sep s t : sep_free sep (s +:+ t) <-> sep_free sep s /\ sep_free sep t.
Proof.
  unfold sep_free. rewrite contains_char_app, orb_false_iff. naive_solver.
Qed.
Lemma sep_free_root sep fs name :
  root_ok fs -> ValidPath name = true -> sep_free sep (rel fs name) -> sep_free sep (rel fs ".").
Proof.
  intros Hr Hv Hs. destruct (rel_split fs name Hr Hv) as (s & E & _).
  rewrite E in Hs. by apply sep_free_app in Hs as [? _].
Qed.

Lemma Sub_ok fs dir fs' :
  root_ok fs -> ValidPath dir = true -> osSub fs dir = (Some fs', None) ->
  root_ok fs' /\ root_elems fs' = (root_elems fs ++ elems dir)%list /\ volumeName fs' = volumeName fs.
Proof.
  intros Hr Hv. unfold osSub. rewrite Hv. cbn [negb]. intros [= <-]. simpl.
  unfold root_elems at 1. simpl. unfold root_elems, root_ok in *. simpl.
  destruct Hr as [->|Hr].
  - assert (Join [""; dir] = dir) as ->.
    { change (Join [""; dir]) with (Join [dir]). destruct (ValidPath_elems dir Hv) as [Hg He].
      assert (dir <> "") as Hne by by intros ->. unfold Join. rewrite drop_empty_cons by done.
      change (join_slash [dir]) with dir. destruct (elems dir) as [|e es] eqn:E; [by subst dir|].
      subst dir. by apply Clean_join. }
    assert (String.eqb dir "" = false) as -> by (by destruct dir). simpl. eauto.
  - assert (ValidPath (Join [root fs; dir]) = true) as Hvj.
    { rewrite Join_paths by done. apply ValidPath_of_elems, Forall_app.
      by apply ValidPath_elems in Hr as [? _], Hv as [? _]. }
    assert (String.eqb (Join [root fs; dir]) "" = false) as -> by (by destruct (Join [root fs; dir])).
    assert (String.eqb (root fs) "" = false) as -> by (by destruct (root fs)).
    rewrite elems_Join_paths by done. eauto.
Qed.
End paths.

(** ** What package [filepath] and package [os] promise *)

(** The volume does not end in the separator and is found again in front of
    it, and a path that starts with both is absolute. *)
Record platform_ok (pl : platform) (fs : osFS) : Prop := {
  volume_trimmed : TrimRight (getVolumeName fs (GOOS pl)) (Separator pl) = getVolumeName fs (GOOS pl);
  volume_found s :
    VolumeName pl (getVolumeName fs (GOOS pl) +:+ chr (Separator pl) +:+ s) = getVolumeName fs (GOOS pl);
  rooted_IsAbs s :
    IsAbs pl (getVolumeName fs (GOOS pl) +:+ chr (Separator pl) +:+ s) = true
}.

(** How the file system shows a path in an error: the root has no name. *)
Definition shown (name : string) : string := if String.eqb name "." then "" else name.

(** An error about one path. *)
Definition about (name : string) (e : error) : Prop := exists op why, e = PathError op name why.

Section calls.
Context {W : Type} `{!OS W} (pl : platform).

Definition error_of {A} (m : M W (A * err)) : M W err := x <- m ;; ret (snd x).

(** The calls of package [os] that look at one path only, and the methods
    around them. *)
Definition os_calls (path : string) (perm uid gid atime mtime : Z) : list (M W err) :=
  [os_Mkdir path perm; os_Remove path; os_Chmod path perm; os_Chown path uid gid;
   os_Chtimes path atime mtime; error_of (os_Stat path); error_of (os_Lstat path)].
Definition fs_calls fs (name : string) (perm uid gid atime mtime : Z) : list (M W err) :=
  [Os_Mkdir pl fs name perm; Os_Remove pl fs name; Os_Chmod pl fs name perm;
   Os_Chown pl fs name uid gid; Os_Chtimes pl fs name atime mtime;
   error_of (Os_Stat pl fs name); error_of (Os_Lstat pl fs name)].

(** A call that, when it fails, fails with an error about the path. *)
Definition fails_about (path : string) (m : M W err) : Prop :=
  forall w e w', m w = (Ret (Some e), w') -> about path e.
End calls.

Section errors.
Context (pl : platform) (fs : osFS) (Hpl : platform_ok pl fs) (Hroot : root_ok fs).

Lemma rootedPath_run op name :
  ValidPath name = true -> sep_free (Separator pl) (rel fs name) ->
  rootedPath pl fs op name =
    (getVolumeName fs (GOOS pl) +:+ chr (Separator pl) +:+ fromSeparator (Separator pl) (rel fs name), None).
Proof. intros Hv Hs. unfold rootedPath. apply toOSPath_run; auto using volume_trimmed. Qed.

Lemma rel_path_back op name :
  ValidPath name = true -> sep_free (Separator pl) (rel fs name) ->
  rel_path pl (fst (rootedPath pl fs "" ".")) (fst (rootedPath pl fs op name)) = shown name.
Proof.
  intros Hv Hs. pose proof (sep_free_root _ fs name Hroot Hv Hs) as Hs0.
  rewrite !rootedPath_run by done. cbn [fst].
  destruct (rel_split fs name Hroot Hv) as (s & E & Ht). rewrite E, fromSeparator_app.
  rewrite E in Hs. apply sep_free_app in Hs as [_ Hs].
  unfold rel_path. rewrite <- !app_assoc_s. rewrite TrimPrefix_app.
  rewrite ReplaceAll_fromSeparator, Ht by done. unfold shown.
  destruct (String.eqb_spec name ".") as [->|Hne]; [done|].
  destruct (ValidPath_elems name Hv) as [_ He]. destruct (elems name) as [|x es]; [by subst name|done].
Qed.
End errors.

(** C23: a valid name of the file system is translated to an absolute path of
    the operating system, on the volume and below the root, and that path
    translates back to the same name: for every root but ["."], on every
    platform, as long as no element of the name contains the separator. *)
Theorem FromOSPath_inverts_ToOSPath pl fs name :
  platform_ok pl fs -> root_ok fs -> root fs <> "." -> ValidPath name = true ->
  sep_free (Separator pl) (rel fs name) ->
  exists path, ToOSPath pl fs name = (path, None) /\
    HasPrefix path (getVolumeName fs (GOOS pl) +:+ chr (Separator pl) +:+
      fromSeparator (Separator pl) (rel fs ".")) = true /\
    FromOSPath pl fs path = (name, None).
Proof.
  intros Hpl Hr Hdot Hv Hs. eexists. split; [by apply rootedPath_run|].
  destruct (rel_split fs name Hr Hv) as (s & E & _). split.
  { rewrite E, fromSeparator_app, <- !app_assoc_s. apply HasPrefix_app. }
  unfold FromOSPath. rewrite rooted_IsAbs by done. cbn [negb]. unfold fromOSPath.
  rewrite volume_found, String.eqb_refl by done. cbn [negb]. cbv zeta.
  rewrite !TrimPrefix_app, toSeparator_back by done.
  destruct (rel_back fs name Hr Hdot Hv) as [Hin Hback]. cbv zeta in Hback. rewrite Hback.
  destruct Hin as [-> | [-> | ->]]; [done| |].
  - by rewrite String.eqb_refl, andb_false_r.
  - by rewrite andb_false_r.
Qed.

(** [Sub] composes: a name below a sub file system is the joined name
    below the file system it was made of. *)
Theorem osSub_joins_names pl fs dir name :
  root_ok fs -> ValidPath dir = true -> ValidPath name = true ->
  exists fs', osSub fs dir = (Some fs', None) /\ root_ok fs' /\
    ToOSPath pl fs' name = ToOSPath pl fs (Join [dir; name]).
Proof.
  intros Hr Hd Hn. assert (exists fs', osSub fs dir = (Some fs', None)) as (fs' & Hsub).
  { unfold osSub. rewrite Hd. by eexists. }
  destruct (Sub_ok fs dir fs' Hr Hd Hsub) as (Hr' & Hel & Hvol).
  exists fs'. split; [done|]. split; [done|].
  assert (ValidPath (Join [dir; name]) = true) as Hj.
  { rewrite Join_paths by done. apply ValidPath_of_elems, Forall_app.
    by apply ValidPath_elems in Hd as [? _], Hn as [? _]. }
  unfold ToOSPath, rootedPath, toOSPath. rewrite Hn, Hj, !Join_rooted by done. cbn [negb]. cbv zeta.
  unfold getVolumeName. rewrite Hvol. unfold rel.
  by rewrite Hel, elems_Join_paths, app_assoc.
Qed.

(** The reason inside an error: on Windows two error numbers become errors that
    are also [ErrInvalid] and [ErrNotEmpty]. *)
Definition reason pl (why : error) : error :=
  if String.eqb (GOOS pl) goosWindows then mapNonStandardError why else why.

Lemma wrapNonStandardErrors_path pl op path why :
  wrapNonStandardErrors pl (Some (PathError op path why)) = Some (PathError op path (reason pl why)).
Proof. unfold wrapNonStandardErrors, reason. by destruct (String.eqb _ _). Qed.
Lemma wrapNonStandardErrors_link pl op old new why :
  wrapNonStandardErrors pl (Some (LinkError op old new why)) = Some (LinkError op old new (reason pl why)).
Proof. unfold wrapNonStandardErrors, reason. by destruct (String.eqb _ _). Qed.

Lemma wrapErr_None pl fs : wrapErr pl fs None = None.
Proof.
  unfold wrapErr, wrapRelPathErr, wrapNonStandardErrors. destruct (rootedPath _ _ _ _).
  by destruct (String.eqb _ _).
Qed.

Lemma reason_Is pl why target : error_Is why target = true -> error_Is (reason pl why) target = true.
Proof.
  intros H. unfold reason, mapNonStandardError. destruct (String.eqb _ _); [|done].
  case_bool_decide; [by apply (error_Is_Unwrap _ why)|].
  case_bool_decide; [by apply (error_Is_Unwrap _ why)|done].
Qed.

(** An error of package [os] about translated paths comes out as an error
    about the names the client gave; the root comes out as the empty name.  The
    reason inside it still is whatever it was for [errors.Is], and on Windows
    the two error numbers without a name become [ErrInvalid] and [ErrNotEmpty];
    elsewhere it is unchanged. *)
Theorem wrapErr_restores_names pl fs name1 name2 :
  platform_ok pl fs -> root_ok fs -> ValidPath name1 = true -> ValidPath name2 = true ->
  sep_free (Separator pl) (rel fs name1) -> sep_free (Separator pl) (rel fs name2) ->
  let path1 := fst (ToOSPath pl fs name1) in
  let path2 := fst (ToOSPath pl fs name2) in
  forall op why, exists why',
    wrapErr pl fs (Some (PathError op path1 why)) = Some (PathError op (shown name1) why') /\
    wrapErr pl fs (Some (osLinkError op path1 path2 why)) =
      Some (LinkError op (shown name1) (shown name2) why') /\
    (forall target, error_Is why target = true -> error_Is why' target = true) /\
    if String.eqb (GOOS pl) "windows" then
      (why = Errno 131 -> error_Is why' ErrInvalid = true) /\
      (why = Errno 145 -> error_Is why' ErrNotEmpty = true)
    else why' = why.
Proof.
  intros Hpl Hr Hv1 Hv2 Hs1 Hs2 path1 path2 op why. unfold wrapErr, wrapRelPathErr.
  rewrite (surjective_pairing (rootedPath pl fs "" ".")).
  subst path1 path2. unfold ToOSPath. rewrite !rel_path_back by done.
  exists (reason pl why). rewrite wrapNonStandardErrors_path, wrapNonStandardErrors_link.
  split_and!; [done..|intros; by apply reason_Is|].
  unfold reason, goosWindows. destruct (String.eqb _ _); [|done].
  by split; intros ->.
Qed.

(** One method at a time: the error of the operating system about the path
    becomes one about the name. *)
Section names.
Context {W : Type} `{!OS W} (pl : platform) (fs : osFS) (name : string).
Context (Hpl : platform_ok pl fs) (Hroot : root_ok fs) (Hname : ValidPath name = true).
Context (Hsep : sep_free (Separator pl) (rel fs name)).
Let path := fst (ToOSPath pl fs name).

Lemma wrapErr_about why e : about path why -> wrapErr pl fs (Some why) = Some e -> about (shown name) e.
Proof.
  intros (op & why' & ->). unfold wrapErr, wrapRelPathErr.
  rewrite (surjective_pairing (rootedPath pl fs "" ".")). unfold path, ToOSPath.
  rewrite rel_path_back, wrapNonStandardErrors_path by done. intros [= <-]. by do 2 eexists.
Qed.

Lemma rootedPath_path op : rootedPath pl fs op name = (path, None).
Proof. unfold path, ToOSPath. by rewrite !rootedPath_run by done. Qed.

Lemma at_path_about op (os : string -> M W err) :
  fails_about path (os path) ->
  fails_about (shown name) (at_path pl fs op name id (fun p => wrapped pl fs (os p))).
Proof.
  intros Ho w e w'. unfold at_path. rewrite rootedPath_path. unfold wrapped.
  intros (e1 & w1 & E & [= H1 <-])%bind_inv_Ret. destruct e1 as [e1|]; [|by rewrite wrapErr_None in H1].
  by eapply wrapErr_about; [by eapply Ho|].
Qed.

Lemma at_path_about2 {A} op (a : A) (os : string -> M W (A * err)) :
  fails_about path (error_of (os path)) ->
  fails_about (shown name) (error_of (at_path pl fs op name (pair a) (fun p => wrapped2 pl fs (os p)))).
Proof.
  intros Ho w e w'. unfold at_path. rewrite rootedPath_path. unfold wrapped2, error_of in *.
  intros ([a1 e1] & w1 & E & [= -> <-])%bind_inv_Ret.
  apply bind_inv_Ret in E as ([a2 e2] & w2 & E & [= <- H1 <-]). destruct e2 as [e2|]; [|by rewrite wrapErr_None in H1].
  eapply wrapErr_about; [|done]. eapply (Ho w e2 w2). by run E.
Qed.
End names.

(** A method that the operating system fails for one path, and a method
    that refuses its name, report an error about the name they were given; a
    refused name does not reach the operating system. *)
Theorem Os_errors_name_the_file {W} `{!OS W} pl fs name perm uid gid atime mtime :
  platform_ok pl fs -> root_ok fs -> (ValidPath name = true -> sep_free (Separator pl) (rel fs name)) ->
  Forall (fails_about (fst (ToOSPath pl fs name)))
    (os_calls (fst (ToOSPath pl fs name)) perm uid gid atime mtime) ->
  Forall (fails_about (shown name)) (fs_calls pl fs name perm uid gid atime mtime) /\
  (ValidPath name = false ->
   Forall (fun m => forall w, exists op, m w = (Ret (Some (PathError op name ErrInvalid)), w))
     (fs_calls pl fs name perm uid gid atime mtime)).
Proof.
  intros Hpl Hr Hs Hos. destruct (ValidPath name) eqn:Hv.
  - split; [|done]. specialize (Hs eq_refl).
    unfold os_calls in Hos. rewrite !Forall_cons in Hos.
    destruct Hos as (? & ? & ? & ? & ? & ? & ? & _).
    unfold fs_calls. repeat constructor; by (apply at_path_about || apply at_path_about2).
  - assert (Hrun : Forall (fun m => forall w, exists op, m w = (Ret (Some (PathError op name ErrInvalid)), w))
      (fs_calls pl fs name perm uid gid atime mtime)).
    { unfold fs_calls, Os_Mkdir, Os_Remove, Os_Chmod, Os_Chown, Os_Chtimes, Os_Stat, Os_Lstat, error_of,
        at_path, rootedPath, toOSPath. rewrite Hv. cbn [negb].
      repeat constructor; intros w; by eexists. }
    split; [|done]. eapply Forall_impl; [exact Hrun|]. intros m Hm w e w' E.
    destruct (Hm w) as [op Hop]. rewrite Hop in E. injection E as <- <-.
    unfold shown. destruct (String.eqb_spec name ".") as [->|]; [done|]. by do 2 eexists.
Qed.

(** [Rename] with an invalid name does not say which: the name in the
    error is the empty path that came with the failed translation, and the
    other name is the translated one, not the client's. *)
Theorem Os_Rename_forgets_bad_name {W} `{!OS W} pl fs oldname newname (w : W) :
  ValidPath oldname && ValidPath newname = false ->
  Os_Rename pl fs oldname newname w =
    (Ret (Some (if ValidPath oldname
                then LinkError "rename" (fst (ToOSPath pl fs oldname)) "" ErrInvalid
                else LinkError "rename" "" newname ErrInvalid)), w).
Proof.
  intros H. unfold Os_Rename, ToOSPath, rootedPath, toOSPath.
  destruct (ValidPath oldname); simpl in H; [|done]. by rewrite H.
Qed.

Lemma dot_slash_not_prefix es : good_elems es -> HasPrefix (join_slash es) "./" = false.
Proof.
  intros Hg. destruct es as [|e es]; [done|].
  apply Forall_cons in Hg as [Hg _]. apply good_elem_spec in Hg as (Hv & Hd & _ & _ & Hs).
  destruct e as [|c e]; [done|]. destruct (Ascii.eqb_spec c ".") as [->|Hc].
  - destruct e as [|c' e]; [done|]. simpl in Hs. destruct (Ascii.eqb_spec c' "/") as [->|Hc']; [done|].
    unfold HasPrefix. destruct es; simpl; destruct (Ascii.eqb_spec "/" c'); congruence.
  - unfold HasPrefix. destruct es; simpl; destruct (Ascii.eqb_spec "." c); congruence.
Qed.

(** After [Sub] of ["."] the root is ["."], which no path of the operating
    system is below: no translated path translates back. *)
Theorem FromOSPath_rejects_below_dot pl fs name :
  platform_ok pl fs -> root fs = "." -> ValidPath name = true -> sep_free (Separator pl) (rel fs name) ->
  exists path, ToOSPath pl fs name = (path, None) /\
    FromOSPath pl fs path = ("", Some (PathError "ospath" path ErrInvalid)).
Proof.
  intros Hpl Hdot Hv Hs. assert (root_ok fs) as Hr by by right; rewrite Hdot.
  eexists. split; [by apply rootedPath_run|].
  unfold FromOSPath. rewrite rooted_IsAbs by done. cbn [negb]. unfold fromOSPath.
  rewrite volume_found, String.eqb_refl by done. cbn [negb]. cbv zeta.
  rewrite !TrimPrefix_app, toSeparator_back by done. rewrite Hdot.
  unfold rel, root_elems. rewrite Hdot. change (elems ".") with (@nil string). simpl app.
  destruct (ValidPath_elems name Hv) as [Hg He].
  assert (String.eqb (join_slash (elems name)) "." = false) as ->.
  { apply String.eqb_neq. intros E. destruct (elems name) as [|e es] eqn:En; [done|].
    change (of_elems (e :: es)) with (join_slash (e :: es)) in He.
    rewrite <- He, E in En. done. }
  pose proof (dot_slash_not_prefix (elems name) Hg) as Hp. simpl negb. cbn [andb].
  change ("." +:+ "/") with "./". by rewrite Hp.
Qed.

(** ** The theorems at concrete inputs *)
Definition unix : platform :=
  MkPlatform "linux" "/" (fun _ => "") (fun s => HasPrefix s "/").
Definition windows : platform :=
  MkPlatform "windows" (Ascii.ascii_of_nat 92) (fun s => String.substring 0 2 s) (fun s => HasPrefix s "C:\").
Definition unix_fs : osFS := MkOsFS "srv/www" "".
Definition windows_fs : osFS := MkOsFS "srv" "".

Lemma unix_ok fs : volumeName fs = "" -> platform_ok unix fs.
Proof. destruct fs as [r v]. simpl. intros ->. by split. Qed.
Lemma windows_ok : platform_ok windows windows_fs.
Proof. by split. Qed.

Lemma FromOSPath_inverts_ToOSPath_witness :
  exists path, ToOSPath windows windows_fs "a/b.txt" = (path, None) /\
    path = "C:\srv\a\b.txt" /\ FromOSPath windows windows_fs path = ("a/b.txt", None).
Proof.
  destruct (FromOSPath_inverts_ToOSPath windows windows_fs "a/b.txt") as (path & E & _ & E').
  - apply windows_ok.
  - by right.
  - done.
  - done.
  - by right.
  - exists path. split; [done|]. split; [|done]. vm_compute in E. by injection E as <-.
Defined.

Lemma osSub_joins_names_witness :
  exists fs', osSub unix_fs "img" = (Some fs', None) /\
    ToOSPath unix fs' "logo.png" = ("/srv/www/img/logo.png", None).
Proof.
  destruct (osSub_joins_names unix unix_fs "img" "logo.png") as (fs' & E & _ & E').
  - by right.
  - done.
  - done.
  - exists fs'. split; [done|]. rewrite E'. reflexivity.
Defined.

Lemma wrapErr_restores_names_witness :
  exists why', wrapErr windows windows_fs (Some (osLinkError "rename" "C:\srv\a\b" "C:\srv" (Errno 145))) =
    Some (LinkError "rename" "a/b" "" why') /\
    error_Is why' ErrNotEmpty = true /\ error_Is why' ErrExist = true.
Proof.
  destruct (wrapErr_restores_names windows windows_fs "a/b" "." windows_ok (or_intror eq_refl)
    eq_refl eq_refl (or_intror eq_refl) (or_intror eq_refl) "rename" (Errno 145)) as (why' & _ & E & His & _ & Hw).
  exists why'. split; [exact E|]. split; [by apply Hw|]. by apply His.
Defined.

Lemma FromOSPath_rejects_below_dot_witness :
  FromOSPath unix (MkOsFS "." "") "/a" = ("", Some (PathError "ospath" "/a" ErrInvalid)).
Proof.
  destruct (FromOSPath_rejects_below_dot unix (MkOsFS "." "") "a") as (path & E & E').
  - by apply unix_ok.
  - done.
  - done.
  - by left.
  - vm_compute in E. by injection E as <-.
Defined.

(** An operating system without any file. *)
Definition no_files : OS unit :=
  let no {A} (a : A) op path := ret (S := unit) (a, Some (PathError op path ErrNotExist)) in
  let fail op path := ret (S := unit) (Some (PathError op path ErrNotExist)) in
  Build_OS unit (no None "open") (fun path _ _ => no None "open" path) (no None "open")
    (fun path _ => fail "mkdir" path) (fun path _ => fail "mkdir" path) (fail "remove") (fail "unlinkat")
    (fun old new => ret (Some (osLinkError "rename" old new ErrNotExist))) (no None "stat") (no None "lstat")
    (fun path _ => fail "chmod" path) (fun path _ _ => fail "chown" path) (fun path _ _ => fail "chtimes" path)
    (no [] "open") (no [] "open") (fun path _ _ => fail "open" path)
    (fun old new => ret (Some (osLinkError "symlink" old new ErrNotExist))).

Lemma Os_errors_name_the_file_witness :
  let OS0 := no_files in
  Forall (fails_about "a/b") (fs_calls unix unix_fs "a/b" 0 0 0 0 0).
Proof.
  intros OS0. refine (proj1 (Os_errors_name_the_file unix unix_fs "a/b" 0 0 0 0 0 _ _ _ _)).
  - by apply unix_ok.
  - by right.
  - by left.
  - unfold os_calls. repeat constructor; intros w e w' [= <- <-]; by do 2 eexists.
Defined.

Lemma Os_Rename_forgets_bad_name_witness :
  let OS0 := no_files in
  Os_Rename unix unix_fs "a" "../b" tt = (Ret (Some (LinkError "rename" "/srv/www/a" "" ErrInvalid)), tt).
Proof. intros OS0. rewrite Os_Rename_forgets_bad_name; reflexivity. Defined.
