(* ===== verification/Conc.v ===== *)
(** * Goroutines

    Interleaving of goroutines over a shared state.  A goroutine is a value
    with one function that takes its next atomic step; a step may be blocked
    until another goroutine changes the state.  An execution is a sequence of
    steps of any of them in any order. *)
From stdpp Require Import relations.
From S2P Require Import Prelude.

Section goroutines.
Context {T S : Type} (tstep : T -> M S T).

(** The goroutines and the state they share. *)
Definition config : Type := list T * S.

Inductive step : config -> config -> Prop :=
  | step_goroutine ts s i t t' s' :
      ts !! i = Some t -> tstep t s = (Ret t', s') -> step (ts, s) (<[i := t']> ts, s').

Definition reachable : config -> config -> Prop := rtc step.

(** Some goroutine panics when it is scheduled next. *)
Definition panicking (c : config) : Prop :=
  exists i t why s', c.1 !! i = Some t /\ tstep t c.2 = (Panic why, s').

Definition can_step (c : config) : bool :=
  existsb (fun t => match tstep t c.2 with (Ret _, _) => true | _ => false end) c.1.

(** Run a schedule: the indices of the goroutines that take the next steps. *)
Fixpoint run_schedule (sched : list nat) (c : config) : option config :=
  match sched with
  | [] => Some c
  | i :: sched =>
      match c.1 !! i with
      | None => None
      | Some t =>
          match tstep t c.2 with
          | (Ret t', s') => run_schedule sched (<[i := t']> c.1, s')
          | _ => None
          end
      end
  end.

(** A schedule that always picks the first goroutine that can take a step. *)
Fixpoint first_schedule (fuel : nat) (c : config) : list nat :=
  match fuel with
  | O => []
  | Datatypes.S fuel =>
      let ready t := match tstep t c.2 with (Ret _, _) => true | _ => false end in
      match list_find (fun t => ready t = true) c.1 with
      | Some (i, _) =>
          i :: match run_schedule [i] c with Some c' => first_schedule fuel c' | None => [] end
      | None => []
      end
  end.

Lemma can_step_spec c : can_step c = true <-> exists c', step c c'.
Proof.
  destruct c as [ts s]. unfold can_step. rewrite existsb_exists. simpl. split.
  - intros (t & Hin & Ht). apply list_elem_of_In in Hin as Hin'.
    apply list_elem_of_lookup in Hin' as [i Hi].
    destruct (tstep t s) as [[t'|?| |] s'] eqn:E; try discriminate.
    eexists. by econstructor.
  - intros [c' Hs]. inversion Hs as [? ? i t t' s' Hi E]; subst. exists t. rewrite E. split; [|done].
    apply list_elem_of_In. by eapply list_elem_of_lookup_2.
Qed.

(** One goroutine that can take a step is enough. *)
Lemma can_step_at c i t t' s' :
  c.1 !! i = Some t -> tstep t c.2 = (Ret t', s') -> can_step c = true.
Proof. intros Hi E. apply can_step_spec. destruct c. eexists. by econstructor. Qed.

Lemma run_schedule_reachable sched c c' : run_schedule sched c = Some c' -> reachable c c'.
Proof.
  revert c. induction sched as [|i sched IH]; intros [ts s]; simpl; [by intros [= ->]|].
  destruct (ts !! i) as [t|] eqn:Hi; [|done].
  destruct (tstep t s) as [[t'|?| |] s'] eqn:E; try done.
  intros H%IH. eapply rtc_l; [by econstructor|done].
Qed.

Lemma run_schedule_nsteps sched c c' :
  run_schedule sched c = Some c' -> nsteps step (length sched) c c'.
Proof.
  revert c. induction sched as [|i sched IH]; intros [ts s]; simpl; [intros [= ->]; constructor|].
  destruct (ts !! i) as [t|] eqn:Hi; [|done].
  destruct (tstep t s) as [[t'|?| |] s'] eqn:E; try done.
  intros H%IH. econstructor; [by econstructor|done].
Qed.

(** A schedule that runs, and after which nothing is left to run. *)
Lemma run_schedule_end sched c :
  (if run_schedule sched c is Some c' then negb (can_step c') else false) = true ->
  exists c', run_schedule sched c = Some c' /\ nsteps step (length sched) c c' /\ can_step c' = false.
Proof.
  destruct (run_schedule sched c) as [c'|] eqn:E; [|done]. intros H%negb_true_iff.
  exists c'. split_and!; [done| |done]. by apply run_schedule_nsteps.
Qed.

(** Rule induction: what every step keeps holds of what is reachable. *)
Lemma reachable_invariant (P : config -> Prop) c c' :
  (forall c c', P c -> step c c' -> P c') -> P c -> reachable c c' -> P c'.
Proof. intros Hstep HP Hr. induction Hr; eauto. Qed.

Lemma reachable_length c c' : reachable c c' -> length c'.1 = length c.1.
Proof.
  induction 1 as [|c1 c2 c3 Hs _ IH]; [done|]. rewrite IH.
  destruct Hs. simpl. apply length_insert.
Qed.

(** ** Termination: a weight that every step decreases *)
Section weight.
Context (weight : config -> nat) (P : config -> Prop).
Context (Hkeep : forall c c', P c -> step c c' -> P c').
Context (Hdec : forall c c', P c -> step c c' -> weight c' < weight c).

Lemma steps_bounded n c c' : P c -> nsteps step n c c' -> n + weight c' <= weight c.
Proof.
  intros HP Hn. induction Hn as [|n c1 c2 c3 Hs _ IH]; [done|].
  specialize (IH (Hkeep _ _ HP Hs)). pose proof (Hdec _ _ HP Hs). lia.
Qed.

Lemma runs_to_end c : P c -> exists c', reachable c c' /\ P c' /\ can_step c' = false.
Proof.
  remember (weight c) as n eqn:En. revert c En.
  induction n as [n IH] using lt_wf_ind. intros c -> HP.
  destruct (can_step c) eqn:E; [|exists c; by split_and!].
  apply can_step_spec in E as [c1 Hs].
  destruct (IH (weight c1) (Hdec _ _ HP Hs) c1 eq_refl (Hkeep _ _ HP Hs)) as (c' & Hr & HP' & E').
  exists c'. split_and!; [by eapply rtc_l|done|done].
Qed.
End weight.
End goroutines.

(** ** Sums over goroutines *)
Section sums.
Context {T : Type}.

Definition total (f : T -> nat) (ts : list T) : nat := sum_list_with f ts.

Lemma total_insert f ts i t t' :
  ts !! i = Some t -> total f (<[i := t']> ts) + f t = total f ts + f t'.
Proof.
  unfold total. revert i. induction ts as [|x ts IH]; intros [|i]; simpl; try done.
  - intros [= ->]. lia.
  - intros H%IH. lia.
Qed.

Lemma total_le f g ts : (forall t, t ∈ ts -> f t <= g t) -> total f ts <= total g ts.
Proof.
  unfold total. induction ts as [|x ts IH]; [done|]. simpl. intros H.
  pose proof (H x ltac:(by left)). enough (sum_list_with f ts <= sum_list_with g ts) by lia.
  apply IH. intros t Ht. apply H. by right.
Qed.

Lemma total_elem f ts i t : ts !! i = Some t -> f t <= total f ts.
Proof.
  unfold total. revert i. induction ts as [|x ts IH]; intros [|i]; simpl; try done.
  - intros [= ->]. lia.
  - intros H%IH. lia.
Qed.
Lemma total_0 f ts : total f ts = 0 <-> forall t, t ∈ ts -> f t = 0.
Proof.
  unfold total. induction ts as [|x ts IH]; simpl.
  - split; [|done]. intros _ t Ht. by apply elem_of_nil in Ht.
  - split.
    + intros H t [->|Ht]%elem_of_cons; [lia|]. apply IH; [lia|done].
    + intros H. rewrite (H x ltac:(by left)). simpl. apply IH. intros t Ht. apply H. by right.
Qed.
End sums.
