(* ===== verification/PathLock.v ===== *)
(** * Locks by path ([internal/pathlock/lock.go])

    A map from paths to mutexes that grows with every path locked, [Lock] and
    [Unlock], and the goroutines that interleave them. *)
From stdpp Require Import relations.
From S2P Require Import Prelude.
From S2P Require Import Conc.

Local Open Scope string_scope.

(** [sync.Mutex] values are at addresses; [true] is locked. *)
Local Abbreviation addr := nat.
Record Mutex := MkMutex {
  pathLocks : gmap string addr;
  mutexes : gmap addr bool
}.

(** [pathlock.New] *)
Definition New : Mutex := MkMutex ∅ ∅.

(** [var newMu sync.Mutex] *)
Definition new_mutex : M Mutex addr := fun s =>
  let a := fresh (dom (mutexes s)) in
  (Ret a, MkMutex (pathLocks s) (<[a := false]> (mutexes s))).

(** [pathLocks.LoadOrStore] and [Load] of the [sync.Map]. *)
Definition LoadOrStore (path : string) (newMu : addr) : M Mutex addr := fun s =>
  match pathLocks s !! path with
  | Some mu => (Ret mu, s)
  | None => (Ret newMu, MkMutex (<[path := newMu]> (pathLocks s)) (mutexes s))
  end.
Definition Load (path : string) : M Mutex (option addr) := gets (fun s => pathLocks s !! path).

Definition set_mutex (mu : addr) (b : bool) : M Mutex unit :=
  modify (fun s => MkMutex (pathLocks s) (<[mu := b]> (mutexes s))).
Definition mu_Lock (mu : addr) : M Mutex unit :=
  b <- gets (fun s => default false (mutexes s !! mu)) ;;
  if (b : bool) then blocked else set_mutex mu true.
Definition mu_Unlock (mu : addr) : M Mutex unit :=
  b <- gets (fun s => default false (mutexes s !! mu)) ;;
  if (b : bool) then set_mutex mu false else panic "sync: unlock of unlocked mutex".

(** The mutex of a path, made when there is none. *)
Definition find_mutex (path : string) : M Mutex addr :=
  newMu <- new_mutex ;; LoadOrStore path newMu.

(** The type assertion panics when nothing was loaded. *)
Definition known_mutex (path : string) : M Mutex addr :=
  mu <- Load path ;;
  match mu with
  | Some mu => ret mu
  | None => panic "interface conversion: interface {} is nil, not *sync.Mutex"
  end.

Definition Lock (path : string) : M Mutex unit := mu <- find_mutex path ;; mu_Lock mu.
Definition Unlock (path : string) : M Mutex unit := mu <- known_mutex path ;; mu_Unlock mu.

(** ** Goroutines

    The sync.Map and the mutex are atomic, so [Lock] and [Unlock] are two steps
    each, with the mutex between them.  [held] are the paths that the goroutine
    has locked. *)
Inductive call := CLock (path : string) | CUnlock (path : string).
Inductive pc := Idle | Locking (path : string) (mu : addr) | Unlocking (path : string) (mu : addr).
Record goroutine := MkGoroutine {
  at_pc : pc;
  held : gset string;
  todo : list call
}.

Definition gstep (t : goroutine) : M Mutex goroutine :=
  match at_pc t, todo t with
  | Idle, [] => blocked
  | Idle, CLock path :: calls =>
      mu <- find_mutex path ;; ret (MkGoroutine (Locking path mu) (held t) calls)
  | Idle, CUnlock path :: calls =>
      mu <- known_mutex path ;; ret (MkGoroutine (Unlocking path mu) (held t) calls)
  | Locking path mu, calls =>
      mu_Lock mu ;;; ret (MkGoroutine Idle ({[path]} ∪ held t) calls)
  | Unlocking path mu, calls =>
      mu_Unlock mu ;;; ret (MkGoroutine Idle (held t ∖ {[path]}) calls)
  end.

Definition start (calls : list call) : goroutine := MkGoroutine Idle ∅ calls.

(** A goroutine locks what it does not hold, unlocks what it holds, and ends
    with nothing locked; without [nested] it holds one path at a time. *)
Fixpoint legal (nested : bool) (held : gset string) (calls : list call) : bool :=
  match calls with
  | [] => bool_decide (held = ∅)
  | CLock path :: calls =>
      bool_decide (path ∉ held) && (nested || bool_decide (held = ∅)) &&
      legal nested ({[path]} ∪ held) calls
  | CUnlock path :: calls =>
      bool_decide (path ∈ held) && legal nested (held ∖ {[path]}) calls
  end.

(** Ready to go on: what is left to do fits what is held. *)
Definition ready (nested : bool) (t : goroutine) : bool :=
  match at_pc t with
  | Idle => legal nested (held t) (todo t)
  | Locking path _ => legal nested (held t) (CLock path :: todo t)
  | Unlocking path _ => legal nested (held t) (CUnlock path :: todo t)
  end.

Definition done (t : goroutine) : bool :=
  match at_pc t, todo t with Idle, [] => true | _, _ => false end.

(** The steps that a goroutine has left. *)
Definition work (t : goroutine) : nat :=
  2 * length (todo t) + match at_pc t with Idle => 0 | _ => 1 end.

Abbreviation lock_config := (config (T := goroutine) (S := Mutex)).
Abbreviation lock_step := (step gstep).

(** ** The invariant *)
Section invariant.
Implicit Types (c : lock_config) (s : Mutex) (t : goroutine) (path : string) (mu : addr).

(** Different paths have different mutexes, all of them there. *)
Record wf s : Prop := {
  wf_inj path path' mu :
    pathLocks s !! path = Some mu -> pathLocks s !! path' = Some mu -> path = path';
  wf_dom path mu : pathLocks s !! path = Some mu -> is_Some (mutexes s !! mu)
}.

(** The mutex that a goroutine goes for is that of its path. *)
Definition pc_ok s t : Prop :=
  match at_pc t with
  | Idle => True
  | Locking path mu | Unlocking path mu => pathLocks s !! path = Some mu
  end.

Definition locked s path : Prop :=
  exists mu, pathLocks s !! path = Some mu /\ mutexes s !! mu = Some true.

Record inv (nested : bool) c : Prop := {
  inv_wf : wf c.2;
  inv_ready i t : c.1 !! i = Some t -> ready nested t = true /\ pc_ok c.2 t;
  inv_held i t path : c.1 !! i = Some t -> path ∈ held t -> locked c.2 path;
  inv_owner path : locked c.2 path -> exists i t, c.1 !! i = Some t /\ path ∈ held t;
  inv_disjoint i j t t' : i <> j -> c.1 !! i = Some t -> c.1 !! j = Some t' -> held t ## held t'
}.

Lemma lock_inv_start nested callss :
  Forall (fun calls => legal nested ∅ calls = true) callss ->
  inv nested (start <$> callss, New).
Proof.
  intros Hl. split; simpl.
  - split; simpl; intros *; by rewrite lookup_empty.
  - intros i t (calls & -> & Hi)%list_lookup_fmap_Some_1. split; [|by split].
    by apply (Forall_lookup_1 _ _ _ _ Hl Hi).
  - intros i t path (calls & -> & Hi)%list_lookup_fmap_Some_1. simpl. set_solver.
  - intros path (mu & H & _). simpl in H. by rewrite lookup_empty in H.
  - intros i j t t' _ (calls & -> & Hi)%list_lookup_fmap_Some_1. simpl. set_solver.
Qed.

(** One goroutine goes on: the others keep what they hold, and what it newly
    holds was not locked. *)
Lemma lock_inv_update nested ts s s' i t t' :
  inv nested (ts, s) -> ts !! i = Some t -> wf s' ->
  (forall path mu, pathLocks s !! path = Some mu -> pathLocks s' !! path = Some mu) ->
  ready nested t' = true -> pc_ok s' t' ->
  (forall path, path ∈ held t' -> locked s' path) ->
  (forall path, locked s path -> path ∉ held t -> locked s' path) ->
  (forall path, locked s' path -> path ∈ held t' \/ locked s path /\ path ∉ held t) ->
  (forall path, path ∈ held t' -> path ∈ held t \/ ~ locked s path) ->
  inv nested (<[i := t']> ts, s').
Proof.
  intros [Hwf Hr Hh Ho Hd] Hi Hwf' Hgrow Hr' Hpc H1 H2 H3 H4. simpl in *.
  assert (Hget : forall j u, <[i := t']> ts !! j = Some u ->
    (j = i /\ u = t') \/ (j <> i /\ ts !! j = Some u)).
  { intros j u Hj. destruct (decide (j = i)) as [->|Hne].
    - left. rewrite list_lookup_insert_eq in Hj by (by eapply lookup_lt_Some). naive_solver.
    - right. by rewrite list_lookup_insert_ne in Hj. }
  assert (Hother : forall j u path, j <> i -> ts !! j = Some u -> path ∈ held u -> path ∉ held t).
  { intros j u path Hne Hj Hin Hin'. specialize (Hd j i u t Hne Hj Hi). set_solver. }
  split; simpl; [done|..].
  - intros j u [[-> ->]|[Hne Hj]]%Hget; [done|]. destruct (Hr j u Hj) as [? Hp]. split; [done|].
    unfold pc_ok in *. destruct (at_pc u); auto.
  - intros j u path [[-> ->]|[Hne Hj]]%Hget Hin; [auto|]. eauto.
  - intros path [Hin|[Hl Hnot]]%H3.
    + exists i, t'. split; [|done]. by eapply list_lookup_insert_eq, lookup_lt_Some.
    + destruct (Ho path Hl) as (j & u & Hj & Hin). exists j, u. split; [|done].
      rewrite list_lookup_insert_ne; [done|]. intros ->. naive_solver.
  - assert (Hnew : forall j u, j <> i -> ts !! j = Some u -> held t' ## held u).
    { intros j u Hne Hj path Hin Hin'. destruct (H4 path Hin) as [Hin2|Hn]; [by eapply Hother|].
      by eapply Hn, Hh. }
    intros j j' u u' Hne [[-> ->]|[Hj1 Hj]]%Hget [[-> ->]|[Hj1' Hj']]%Hget; [done|eauto|..|eauto].
    symmetry. eauto.
Qed.

Lemma locked_unique s path mu :
  pathLocks s !! path = Some mu -> locked s path <-> mutexes s !! mu = Some true.
Proof. unfold locked. naive_solver. Qed.

(** Finding a mutex locks and unlocks nothing. *)
Lemma find_mutex_run path s :
  wf s -> exists mu s', find_mutex path s = (Ret mu, s') /\ wf s' /\
    pathLocks s' !! path = Some mu /\
    (forall p m, pathLocks s !! p = Some m -> pathLocks s' !! p = Some m) /\
    (forall p, locked s' p <-> locked s p).
Proof.
  intros [Hinj Hdom]. unfold find_mutex, bind, new_mutex, LoadOrStore. simpl.
  set (a := fresh (dom (mutexes s))).
  assert (Ha : mutexes s !! a = None) by apply not_elem_of_dom, is_fresh.
  assert (Hne : forall p m, pathLocks s !! p = Some m -> m <> a).
  { intros p m Hp ->. destruct (Hdom p a Hp). congruence. }
  destruct (pathLocks s !! path) as [mu|] eqn:E; eexists _, _; split; try done; simpl.
  - split_and!; [|done..|].
    + split; [done|]. simpl. intros p m Hp. rewrite lookup_insert_ne; [eauto|]. naive_solver.
    + intros p. unfold locked. simpl. split; intros (m & Hp & Hm); exists m;
        (split; [done|]); rewrite lookup_insert_ne in *; naive_solver.
  - split_and!.
    + split; simpl.
      * intros p p' m. rewrite !lookup_insert. repeat case_decide; naive_solver.
      * intros p m. rewrite !lookup_insert. repeat case_decide; naive_solver.
    + by rewrite lookup_insert_eq.
    + intros p m Hp. rewrite lookup_insert_ne; [done|]. congruence.
    + intros p. unfold locked. simpl. split.
      * intros (m & Hp & Hm). rewrite lookup_insert in Hp. case_decide; simplify_eq.
        -- by rewrite lookup_insert_eq in Hm.
        -- exists m. split; [done|]. rewrite lookup_insert_ne in Hm; [done|]. naive_solver.
      * intros (m & Hp & Hm). exists m. rewrite !lookup_insert_ne; naive_solver.
Qed.

Lemma set_mutex_wf s mu b : wf s -> wf (MkMutex (pathLocks s) (<[mu := b]> (mutexes s))).
Proof.
  intros [Hinj Hdom]. split; simpl; [done|]. intros p m Hp. rewrite lookup_insert.
  case_decide; [done|eauto].
Qed.

(** Setting a path's mutex changes what is locked at that path only. *)
Lemma locked_set s path mu b p :
  wf s -> pathLocks s !! path = Some mu ->
  locked (MkMutex (pathLocks s) (<[mu := b]> (mutexes s))) p <->
    (p = path /\ b = true) \/ (p <> path /\ locked s p).
Proof.
  intros [Hinj _] Hp. unfold locked. simpl. split.
  - intros (m & Hm & Hl). destruct (decide (p = path)) as [->|Hne].
    + left. simplify_eq. rewrite lookup_insert_eq in Hl. naive_solver.
    + right. split; [done|]. exists m. rewrite lookup_insert_ne in Hl; [done|].
      intros ->. eauto.
  - intros [[-> ->]|[Hne (m & Hm & Hl)]].
    + exists mu. by rewrite lookup_insert_eq.
    + exists m. rewrite lookup_insert_ne; [done|]. intros ->. eauto.
Qed.

Lemma mu_Lock_run s mu r s' :
  mu_Lock mu s = (r, s') ->
  (mutexes s !! mu = Some true /\ r = Blocked /\ s' = s) \/
  (mutexes s !! mu <> Some true /\ r = Ret tt /\ s' = MkMutex (pathLocks s) (<[mu := true]> (mutexes s))).
Proof.
  unfold mu_Lock, bind, gets. destruct (mutexes s !! mu) as [[]|] eqn:E; simpl; intros [= <- <-];
    naive_solver.
Qed.
Lemma mu_Unlock_run s mu :
  mutexes s !! mu = Some true ->
  mu_Unlock mu s = (Ret tt, MkMutex (pathLocks s) (<[mu := false]> (mutexes s))).
Proof. unfold mu_Unlock, bind, gets. by intros ->. Qed.

Lemma known_mutex_run path s :
  locked s path -> exists mu, known_mutex path s = (Ret mu, s) /\ pathLocks s !! path = Some mu.
Proof. intros (mu & Hp & _). exists mu. unfold known_mutex, Load, bind, gets. by rewrite Hp. Qed.

Lemma ready_lock nested t path mu :
  at_pc t = Locking path mu -> ready nested t = true ->
  path ∉ held t /\ (nested = true \/ held t = ∅) /\
  ready nested (MkGoroutine Idle ({[path]} ∪ held t) (todo t)) = true.
Proof.
  unfold ready. intros ->. simpl.
  intros [[Hn%bool_decide_eq_true He%orb_true_iff]%andb_true_iff Hl]%andb_true_iff.
  rewrite bool_decide_eq_true in He. done.
Qed.
Lemma ready_unlock nested t path mu :
  at_pc t = Unlocking path mu -> ready nested t = true ->
  path ∈ held t /\ ready nested (MkGoroutine Idle (held t ∖ {[path]}) (todo t)) = true.
Proof. unfold ready. intros ->. simpl. by intros [?%bool_decide_eq_true ?]%andb_true_iff. Qed.

(** What one goroutine does next, by where it is. *)
Definition goes_on nested ts s i t (r : outcome goroutine) s' : Prop :=
  match r with
  | Ret t' => inv nested (<[i := t']> ts, s') /\ work t' < work t
  | Blocked => done t = true \/
      exists path mu, at_pc t = Locking path mu /\ mutexes s !! mu = Some true
  | _ => False
  end.

Lemma lock_idle_goes_on nested ts s i t r s' :
  inv nested (ts, s) -> ts !! i = Some t -> at_pc t = Idle -> gstep t s = (r, s') ->
  goes_on nested ts s i t r s'.
Proof.
  intros Hinv Hi Epc. pose proof (inv_wf _ _ Hinv) as Hwf.
  destruct (inv_ready _ _ Hinv i t Hi) as [Hr _].
  pose proof (fun p => inv_held _ _ Hinv i t p Hi) as Hheld. simpl in *.
  unfold gstep, ready, goes_on in *. rewrite Epc in *.
  destruct (todo t) as [|[path|path] calls] eqn:Etodo.
  - intros [= <- <-]. left. unfold done. by rewrite Epc, Etodo.
  - destruct (find_mutex_run path s Hwf) as (mu & s1 & E & Hwf1 & Hp & Hgrow & Hl).
    run E. intros [= <- <-]. split; [|unfold work; rewrite Epc, Etodo; simpl; lia].
    eapply lock_inv_update; try done; simpl.
    + intros p Hin. apply Hl. auto.
    + intros p ? _. by apply Hl.
    + intros p Hlk%Hl. destruct (decide (p ∈ held t)); auto.
    + auto.
  - pose proof Hr as [Hin%bool_decide_eq_true _]%andb_true_iff.
    destruct (known_mutex_run path s (Hheld _ Hin)) as (mu & E & Hp).
    run E. intros [= <- <-]. split; [|unfold work; rewrite Epc, Etodo; simpl; lia].
    eapply lock_inv_update; try done; simpl; auto.
    intros p Hlk. destruct (decide (p ∈ held t)); auto.
Qed.

Lemma locking_goes_on nested ts s i t path mu r s' :
  inv nested (ts, s) -> ts !! i = Some t -> at_pc t = Locking path mu -> gstep t s = (r, s') ->
  goes_on nested ts s i t r s'.
Proof.
  intros Hinv Hi Epc. pose proof (inv_wf _ _ Hinv) as Hwf.
  destruct (inv_ready _ _ Hinv i t Hi) as [Hr Hpc].
  pose proof (fun p => inv_held _ _ Hinv i t p Hi) as Hheld. simpl in *.
  unfold gstep, pc_ok, goes_on in *. destruct (ready_lock _ _ _ _ Epc Hr) as (Hn & _ & Hr').
  rewrite Epc in *. unfold bind.
  destruct (mu_Lock mu s) as [r1 s1] eqn:E. apply mu_Lock_run in E as [(Hm & -> & ->)|(Hm & -> & ->)].
  { intros [= <- <-]. right. eauto. }
  intros [= <- <-]. split; [|unfold work; rewrite Epc; simpl; lia].
  pose proof (fun p => locked_set s path mu true p Hwf Hpc) as Hl.
  eapply lock_inv_update; try done; simpl.
  - by apply set_mutex_wf.
  - intros p [->%elem_of_singleton|Hin]%elem_of_union; apply Hl; [by left|].
    right. split; [by intros ->|auto].
  - intros p Hlk Hnot. apply Hl. right. split; [|done].
    intros ->. apply Hm. by apply (locked_unique s path mu).
  - intros p [[-> _]|[Hne Hlk]]%Hl; [left; set_solver|].
    destruct (decide (p ∈ held t)); [left; set_solver|auto].
  - intros p [->%elem_of_singleton|Hin]%elem_of_union; [right|by left].
    by rewrite (locked_unique s path mu).
Qed.

Lemma unlocking_goes_on nested ts s i t path mu r s' :
  inv nested (ts, s) -> ts !! i = Some t -> at_pc t = Unlocking path mu -> gstep t s = (r, s') ->
  goes_on nested ts s i t r s'.
Proof.
  intros Hinv Hi Epc. pose proof (inv_wf _ _ Hinv) as Hwf.
  destruct (inv_ready _ _ Hinv i t Hi) as [Hr Hpc].
  pose proof (fun p => inv_held _ _ Hinv i t p Hi) as Hheld. simpl in *.
  unfold gstep, pc_ok, goes_on in *. destruct (ready_unlock _ _ _ _ Epc Hr) as (Hin & Hr').
  rewrite Epc in *. specialize (Hheld _ Hin) as Hlk.
  assert (mutexes s !! mu = Some true) as Hm by by apply (locked_unique s path mu).
  run (mu_Unlock_run s mu Hm). intros [= <- <-]. split; [|unfold work; rewrite Epc; simpl; lia].
  pose proof (fun p => locked_set s path mu false p Hwf Hpc) as Hl.
  eapply lock_inv_update; try done; simpl.
  - by apply set_mutex_wf.
  - intros p [Hp Hne]%elem_of_difference. apply Hl. right. split; [set_solver|auto].
  - intros p Hp Hnot. apply Hl. right. split; [by intros ->|done].
  - intros p [[_ ?]|[Hne Hp]]%Hl; [done|]. destruct (decide (p ∈ held t)); [left; set_solver|auto].
  - set_solver.
Qed.

Lemma gstep_goes_on nested ts s i t r s' :
  inv nested (ts, s) -> ts !! i = Some t -> gstep t s = (r, s') -> goes_on nested ts s i t r s'.
Proof.
  destruct (at_pc t) eqn:E; eauto using lock_idle_goes_on, locking_goes_on, unlocking_goes_on.
Qed.

Lemma lock_step_inv nested c c' : inv nested c -> lock_step c c' -> inv nested c'.
Proof.
  intros Hinv Hs. destruct Hs as [ts s i t t' s' Hi E]. by apply (gstep_goes_on nested ts s i t _ _ Hinv Hi) in E as [? _].
Qed.

Lemma lock_step_work nested c c' :
  inv nested c -> lock_step c c' -> total work c'.1 < total work c.1.
Proof.
  intros Hinv Hs. destruct Hs as [ts s i t t' s' Hi E]. simpl.
  apply (gstep_goes_on nested ts s i t _ _ Hinv Hi) in E as [_ Hw].
  pose proof (total_insert work ts i t t' Hi). lia.
Qed.

(** Without nesting a goroutine that waits holds nothing, so whoever holds
    what it waits for can go on. *)
Lemma lock_stuck_done c :
  inv false c -> can_step gstep c = false -> Forall (fun t => done t = true) c.1.
Proof.
  destruct c as [ts s]. intros Hinv Hstuck. apply Forall_lookup_2. simpl.
  assert (Hb : forall i t, ts !! i = Some t -> done t = true \/
    exists path mu, at_pc t = Locking path mu /\ mutexes s !! mu = Some true).
  { intros i t Hi. destruct (gstep t s) as [r s'] eqn:E.
    pose proof (gstep_goes_on _ _ _ _ _ _ _ Hinv Hi E) as H. destruct r as [t'|?| |]; try done.
    by rewrite (can_step_at gstep (ts, s) i t t' s' Hi E) in Hstuck. }
  intros i t Hi. destruct (Hb i t Hi) as [|(path & mu & Epc & Hm)]; [done|]. exfalso.
  destruct (inv_ready _ _ Hinv i t Hi) as [_ Hpc]. unfold pc_ok in Hpc. rewrite Epc in Hpc.
  destruct (inv_owner _ _ Hinv path) as (j & u & Hj & Hin); [by exists mu|]. simpl in Hj.
  destruct (inv_ready _ _ Hinv j u Hj) as [Hr _].
  destruct (Hb j u Hj) as [Hd|(path' & mu' & Epc' & _)].
  - unfold done, ready in *. destruct (at_pc u), (todo u); try done. simpl in Hr.
    apply bool_decide_eq_true in Hr. set_solver.
  - destruct (ready_lock _ _ _ _ Epc' Hr) as (_ & [?|He] & _); [done|]. set_solver.
Qed.
End invariant.

(** ** Properties *)

(** C27: goroutines that unlock what they locked never hold the same path at
    the same time, however they are interleaved, and none of their calls
    panics; a path is locked exactly while one of them holds it. *)
Theorem Lock_excludes nested callss c :
  Forall (fun calls => legal nested ∅ calls = true) callss ->
  reachable gstep (start <$> callss, New) c ->
  (forall i j t t', i <> j -> c.1 !! i = Some t -> c.1 !! j = Some t' -> held t ## held t') /\
  (forall path, locked c.2 path <-> exists i t, c.1 !! i = Some t /\ path ∈ held t) /\
  ~ panicking gstep c.
Proof.
  intros Hl Hr. assert (inv nested c) as Hinv.
  { eapply reachable_invariant; [apply lock_step_inv|by apply lock_inv_start|done]. }
  split_and!; [by apply Hinv|..].
  - intros path. split; [by apply Hinv|]. intros (i & t & Hi & Hin). by eapply Hinv.
  - intros (i & t & why & s' & Hi & E). destruct c as [ts s].
    by apply (gstep_goes_on _ _ _ _ _ _ _ Hinv Hi) in E.
Qed.

(** Goroutines that hold one path at a time all come to an end: no
    execution has more than two steps per call, and one that cannot go on has
    finished every call and left every path unlocked. *)
Theorem Lock_comes_to_an_end callss n c :
  Forall (fun calls => legal false ∅ calls = true) callss ->
  nsteps lock_step n (start <$> callss, New) c ->
  n <= 2 * sum_list_with length callss /\
  (can_step gstep c = false ->
   Forall (fun t => done t = true) c.1 /\ forall path, ~ locked c.2 path).
Proof.
  intros Hl Hn. pose proof (lock_inv_start false callss Hl) as H0.
  pose proof (steps_bounded gstep (fun c => total work c.1) (inv false) (lock_step_inv false)
    (lock_step_work false) n _ _ H0 Hn) as Hb.
  assert (total work (start <$> callss) = 2 * sum_list_with length callss) as Hw.
  { clear. unfold total. induction callss as [|calls callss IH]; [done|].
    rewrite fmap_cons. cbn [sum_list_with]. rewrite IH. unfold work. simpl. lia. }
  simpl in Hb. rewrite Hw in Hb. split; [lia|]. intros Hstuck.
  assert (inv false c) as Hinv.
  { eapply reachable_invariant; [apply lock_step_inv|exact H0|]. by apply (rtc_nsteps_2 n). }
  pose proof (lock_stuck_done c Hinv Hstuck) as Hdone. split; [done|].
  intros path Hlk. destruct (inv_owner _ _ Hinv path Hlk) as (i & t & Hi & Hin).
  pose proof (Forall_lookup_1 _ _ _ _ Hdone Hi) as Hd. destruct (inv_ready _ _ Hinv i t Hi) as [Hr _].
  unfold done, ready in *. destruct (at_pc t), (todo t); try done.
  apply bool_decide_eq_true in Hr. set_solver.
Qed.

(** ** The theorems at concrete inputs *)
Definition demo_calls : list (list call) :=
  [[CLock "a"; CUnlock "a"; CLock "b"; CUnlock "b"]; [CLock "a"; CUnlock "a"]].

(** Two goroutines want the same path: the second waits. *)
Definition demo_config : lock_config :=
  default (start <$> demo_calls, New)
    (run_schedule gstep [0; 1; 0] (start <$> demo_calls, New)).

Lemma Lock_excludes_witness :
  held <$> demo_config.1 = [{["a"]}; ∅] /\ can_step gstep demo_config = true /\
  locked demo_config.2 "a" /\ ~ panicking gstep demo_config.
Proof.
  destruct (Lock_excludes false demo_calls demo_config) as (_ & Hl & Hp).
  - by repeat constructor.
  - apply (run_schedule_reachable gstep [0; 1; 0]). reflexivity.
  - split_and!; [vm_compute; reflexivity|vm_compute; reflexivity| |exact Hp].
    apply Hl. exists 0. eexists. split; [vm_compute; reflexivity|]. simpl. set_solver.
Defined.

Definition demo_end_schedule : list nat := first_schedule gstep 20 (start <$> demo_calls, New).

Lemma Lock_comes_to_an_end_witness :
  length demo_end_schedule = 12 /\ length demo_end_schedule <= 12 /\
  exists c, run_schedule gstep demo_end_schedule (start <$> demo_calls, New) = Some c /\
    forall path, ~ locked c.2 path.
Proof.
  split; [vm_compute; reflexivity|].
  destruct (run_schedule_end gstep demo_end_schedule (start <$> demo_calls, New)) as (c & Hc & Hn & Hs);
    [vm_compute; reflexivity|].
  destruct (Lock_comes_to_an_end demo_calls (length demo_end_schedule) c
    ltac:(by repeat constructor) Hn) as [Hb Hend].
  split; [exact Hb|]. exists c. split; [done|]. by apply Hend.
Defined.
