(* ===== verification/PubSub.v ===== *)
(** * Waiting for files of an archive ([tar/pubsub.go])

    [Emit] marks a key as visited and wakes the goroutines that wait for it;
    [Wait] returns once its key was visited or the context was cancelled. *)
From stdpp Require Import relations.
From S2P Require Import Prelude.
From S2P Require Import Conc.

Local Open Scope string_scope.
Local Open Scope list_scope.

(** [type pubsub struct]: the read-write mutex, the cancel functions of the
    waiting goroutines by key, the visited keys, and whether the context is
    done.  A cancel function is the number of the context that it cancels;
    [contexts] are the keys for which contexts were made, [cancelled] the
    contexts that were cancelled. *)
Record pubsub := MkPubsub {
  readers : nat;
  writer : bool;
  subscribers : gmap string (list nat);
  visited : gset string;
  ctx_done : bool;
  contexts : list string;
  cancelled : gset nat
}.

Definition newPubsub : pubsub := MkPubsub 0 false ∅ ∅ false [] ∅.

Definition set_readers (n : nat) (s : pubsub) : pubsub :=
  MkPubsub n (writer s) (subscribers s) (visited s) (ctx_done s) (contexts s) (cancelled s).
Definition set_writer (b : bool) (s : pubsub) : pubsub :=
  MkPubsub (readers s) b (subscribers s) (visited s) (ctx_done s) (contexts s) (cancelled s).
Definition set_subscribers (key : string) (funcs : list nat) (s : pubsub) : pubsub :=
  MkPubsub (readers s) (writer s) (<[key := funcs]> (subscribers s)) (visited s) (ctx_done s)
    (contexts s) (cancelled s).
Definition set_visited (key : string) (s : pubsub) : pubsub :=
  MkPubsub (readers s) (writer s) (subscribers s) ({[key]} ∪ visited s) (ctx_done s)
    (contexts s) (cancelled s).
Definition set_done (s : pubsub) : pubsub :=
  MkPubsub (readers s) (writer s) (subscribers s) (visited s) true (contexts s) (cancelled s).

(** The functions of the key; a missing entry of the map is the [nil] slice. *)
Definition funcs_of (s : pubsub) (key : string) : list nat := default [] (subscribers s !! key).

(** [sync.RWMutex] *)
Definition mu_RLock : M pubsub unit :=
  s <- gets id ;; if writer s then blocked else modify (set_readers (S (readers s))).
Definition mu_RUnlock : M pubsub unit :=
  s <- gets id ;;
  match readers s with
  | 0 => panic "sync: RUnlock of unlocked RWMutex"
  | S n => modify (set_readers n)
  end.
Definition mu_Lock : M pubsub unit :=
  s <- gets id ;;
  if writer s || negb (Nat.eqb (readers s) 0) then blocked else modify (set_writer true).
Definition mu_Unlock : M pubsub unit :=
  s <- gets id ;;
  if writer s then modify (set_writer false) else panic "sync: Unlock of unlocked RWMutex".

(** [context.WithCancel(ps.ctx)] on behalf of a key; a context is done once it
    was cancelled or its parent is done. *)
Definition WithCancel (key : string) : M pubsub nat := fun s =>
  (Ret (length (contexts s)),
   MkPubsub (readers s) (writer s) (subscribers s) (visited s) (ctx_done s)
     (contexts s ++ [key]) (cancelled s)).
Definition cancel (c : nat) : M pubsub unit :=
  modify (fun s => MkPubsub (readers s) (writer s) (subscribers s) (visited s) (ctx_done s)
     (contexts s) ({[c]} ∪ cancelled s)).
Definition child_done (s : pubsub) (c : nat) : bool := ctx_done s || bool_decide (c ∈ cancelled s).

(** ** [Emit] and [Wait], step by step

    A step is an operation of a mutex or of a context, or what a goroutine does
    between two of them while it holds the mutex. *)
Inductive emit_pc :=
  | EReading
  | ERead (visited : bool)
  | EMissing
  | EWriting
  | EWritten (funcs : list nat)
  | ECancelling (funcs : list nat).

Definition Emit (key : string) (at_ : option emit_pc) : M pubsub (option emit_pc) :=
  match at_ with
  | None => mu_RLock ;;; ret (Some EReading)
  | Some EReading => v <- gets (fun s => bool_decide (key ∈ visited s)) ;; ret (Some (ERead v))
  | Some (ERead v) => mu_RUnlock ;;; ret (if (v : bool) then None else Some EMissing)
  | Some EMissing => mu_Lock ;;; ret (Some EWriting)
  | Some EWriting =>
      modify (set_visited key) ;;;
      funcs <- gets (fun s => funcs_of s key) ;;
      modify (set_subscribers key []) ;;;
      ret (Some (EWritten funcs))
  | Some (EWritten funcs) => mu_Unlock ;;; ret (Some (ECancelling funcs))
  | Some (ECancelling []) => ret None
  | Some (ECancelling (c :: funcs)) => cancel c ;;; ret (Some (ECancelling funcs))
  end.

Inductive wait_pc :=
  | WLocking
  | WLocked
  | WVisited
  | WSubscribed (ctx : nat)
  | WWaiting (ctx : nat).

Definition Wait (key : string) (at_ : option wait_pc) : M pubsub (option wait_pc) :=
  match at_ with
  | None => d <- gets ctx_done ;; ret (if (d : bool) then None else Some WLocking)
  | Some WLocking => mu_Lock ;;; ret (Some WLocked)
  | Some WLocked =>
      v <- gets (fun s => bool_decide (key ∈ visited s)) ;;
      if (v : bool) then ret (Some WVisited)
      else
        ctx <- WithCancel key ;;
        modify (fun s => set_subscribers key (funcs_of s key ++ [ctx]) s) ;;;
        ret (Some (WSubscribed ctx))
  | Some WVisited => mu_Unlock ;;; ret None
  | Some (WSubscribed ctx) => mu_Unlock ;;; ret (Some (WWaiting ctx))
  | Some (WWaiting ctx) =>
      d <- gets (fun s => child_done s ctx) ;; if (d : bool) then ret None else blocked
  end.

(** ** Goroutines

    Each makes some calls in order; [finished] are those that returned. *)
Inductive call := CEmit (key : string) | CWait (key : string) | CCancel.
Inductive pc := Idle | Emitting (key : string) (at_ : emit_pc) | Waiting (key : string) (at_ : wait_pc).
Record goroutine := MkGoroutine {
  at_pc : pc;
  todo : list call;
  finished : list call
}.
Definition start (calls : list call) : goroutine := MkGoroutine Idle calls [].

Definition after_emit (t : goroutine) (key : string) (todo : list call) (r : option emit_pc) : goroutine :=
  match r with
  | Some at_ => MkGoroutine (Emitting key at_) todo (finished t)
  | None => MkGoroutine Idle todo (CEmit key :: finished t)
  end.
Definition after_wait (t : goroutine) (key : string) (todo : list call) (r : option wait_pc) : goroutine :=
  match r with
  | Some at_ => MkGoroutine (Waiting key at_) todo (finished t)
  | None => MkGoroutine Idle todo (CWait key :: finished t)
  end.

Definition pstep (t : goroutine) : M pubsub goroutine :=
  match at_pc t, todo t with
  | Idle, [] => blocked
  | Idle, CEmit key :: calls => r <- Emit key None ;; ret (after_emit t key calls r)
  | Idle, CWait key :: calls => r <- Wait key None ;; ret (after_wait t key calls r)
  | Idle, CCancel :: calls =>
      modify set_done ;;; ret (MkGoroutine Idle calls (CCancel :: finished t))
  | Emitting key at_, calls => r <- Emit key (Some at_) ;; ret (after_emit t key calls r)
  | Waiting key at_, calls => r <- Wait key (Some at_) ;; ret (after_wait t key calls r)
  end.

Definition done (t : goroutine) : bool :=
  match at_pc t, todo t with Idle, [] => true | _, _ => false end.

(** In the loop's [select], and for which key and context. *)
Definition waits_for (t : goroutine) : option (string * nat) :=
  match at_pc t with Waiting key (WWaiting ctx) => Some (key, ctx) | _ => None end.

Abbreviation ps_config := (config (T := goroutine) (S := pubsub)).
Abbreviation ps_step := (step pstep).

(** ** The invariant *)
Section invariant.
Implicit Types (c : ps_config) (s : pubsub) (t u : goroutine) (key : string).

(** Holding the mutex for reading, and for writing. *)
Definition reads t : nat :=
  match at_pc t with Emitting _ (EReading | ERead _) => 1 | _ => 0 end.
Definition writes t : nat :=
  match at_pc t with
  | Emitting _ (EWriting | EWritten _) | Waiting _ (WLocked | WVisited | WSubscribed _) => 1
  | _ => 0
  end.

(** The contexts a goroutine is about to cancel, and the one it waits for. *)
Definition cancels t : list nat :=
  match at_pc t with Emitting _ (EWritten funcs | ECancelling funcs) => funcs | _ => [] end.
Definition awaits t : option (string * nat) :=
  match at_pc t with Waiting key (WSubscribed ctx | WWaiting ctx) => Some (key, ctx) | _ => None end.

(** What a goroutine has seen of its key, and what its calls achieved. *)
Definition seen s t : Prop :=
  match at_pc t with
  | Emitting key (ERead true | EWritten _ | ECancelling _) | Waiting key WVisited => key ∈ visited s
  | _ => True
  end.
Definition achieved s (cl : call) : Prop :=
  match cl with
  | CEmit key => key ∈ visited s
  | CWait key => key ∈ visited s \/ ctx_done s = true
  | CCancel => ctx_done s = true
  end.

(** Whoever waits was cancelled, is still subscribed, or will be cancelled by a
    goroutine that is at it. *)
Definition reached (ts : list goroutine) s (key : string) (ctx : nat) : Prop :=
  ctx ∈ cancelled s \/ ctx ∈ funcs_of s key \/ exists i u, ts !! i = Some u /\ ctx ∈ cancels u.

(** A context whose key was visited. *)
Definition for_visited s (ctx : nat) : Prop :=
  exists key, contexts s !! ctx = Some key /\ key ∈ visited s.

Record inv c : Prop := {
  inv_readers : readers c.2 = total reads c.1;
  inv_writer : (if writer c.2 then 1 else 0) = total writes c.1;
  inv_excl : writer c.2 = true -> readers c.2 = 0;
  inv_visited key : key ∈ visited c.2 -> funcs_of c.2 key = [];
  inv_seen i t : c.1 !! i = Some t -> seen c.2 t /\ Forall (achieved c.2) (finished t);
  inv_awaits i t key ctx :
    c.1 !! i = Some t -> awaits t = Some (key, ctx) ->
    reached c.1 c.2 key ctx /\ contexts c.2 !! ctx = Some key;
  inv_subscribed key ctx : ctx ∈ funcs_of c.2 key -> contexts c.2 !! ctx = Some key;
  inv_cancels i t ctx : c.1 !! i = Some t -> ctx ∈ cancels t -> for_visited c.2 ctx;
  inv_cancelled ctx : ctx ∈ cancelled c.2 -> for_visited c.2 ctx
}.

Lemma total_start f callss :
  (forall calls, f (start calls) = 0) -> total f (start <$> callss) = 0.
Proof. intros Hf. apply total_0. intros t (calls & -> & _)%list_elem_of_fmap. apply Hf. Qed.

Lemma ps_inv_start callss : inv (start <$> callss, newPubsub).
Proof.
  split; simpl.
  - by rewrite total_start.
  - by rewrite total_start.
  - done.
  - done.
  - intros i t (calls & -> & _)%list_lookup_fmap_Some_1. by split.
  - by intros i t key ctx (calls & -> & _)%list_lookup_fmap_Some_1.
  - intros key ctx. unfold funcs_of. simpl. rewrite lookup_empty. set_solver.
  - intros i t ctx (calls & -> & _)%list_lookup_fmap_Some_1. unfold cancels. simpl. set_solver.
  - set_solver.
Qed.

(** What is known of the state only grows. *)
Definition grows s s' : Prop :=
  visited s ⊆ visited s' /\ (ctx_done s = true -> ctx_done s' = true) /\ cancelled s ⊆ cancelled s' /\
  (forall ctx key, contexts s !! ctx = Some key -> contexts s' !! ctx = Some key).

Lemma seen_grows s s' t : grows s s' -> seen s t -> seen s' t.
Proof.
  intros (Hv & _). unfold seen. destruct (at_pc t) as [|key [|[]| | | |]|key []]; set_solver.
Qed.
Lemma for_visited_grows s s' ctx : grows s s' -> for_visited s ctx -> for_visited s' ctx.
Proof. intros (Hv & _ & _ & Hc) (key & Hk & Hin). exists key. split; [auto|set_solver]. Qed.
Lemma achieved_grows s s' cl : grows s s' -> achieved s cl -> achieved s' cl.
Proof. intros (Hv & Hd & _). destruct cl; simpl; set_solver. Qed.

(** One goroutine goes on. *)
Lemma ps_inv_update ts s s' i t t' :
  inv (ts, s) -> ts !! i = Some t -> grows s s' ->
  readers s' + reads t = readers s + reads t' ->
  (if writer s' then 1 else 0) + writes t = (if writer s then 1 else 0) + writes t' ->
  (writer s' = true -> readers s' = 0) ->
  (forall key, key ∈ visited s' -> funcs_of s' key = []) ->
  seen s' t' -> Forall (achieved s') (finished t') ->
  (forall key ctx, ctx ∈ funcs_of s key -> ctx ∈ funcs_of s' key \/ ctx ∈ cancels t') ->
  (forall ctx, ctx ∈ cancels t -> ctx ∈ cancels t' \/ ctx ∈ cancelled s') ->
  (forall key ctx, awaits t' = Some (key, ctx) -> awaits t = Some (key, ctx) \/ ctx ∈ funcs_of s' key) ->
  (forall key ctx, ctx ∈ funcs_of s' key -> ctx ∈ funcs_of s key \/ contexts s' !! ctx = Some key) ->
  (forall ctx, ctx ∈ cancels t' -> ctx ∈ cancels t \/ for_visited s' ctx) ->
  (forall ctx, ctx ∈ cancelled s' -> ctx ∈ cancelled s \/ ctx ∈ cancels t) ->
  inv (<[i := t']> ts, s').
Proof.
  intros [Hr Hw Hx Hv Hs Ha Hm Hc Hd] Hi Hg Er Ew Hx' Hv' Hs' Hf' Hfuncs Hcan Haw Hm' Hc' Hd'. simpl in *.
  pose proof (total_insert reads ts i t t' Hi). pose proof (total_insert writes ts i t t' Hi).
  assert (Hget : forall j u, <[i := t']> ts !! j = Some u ->
    (j = i /\ u = t') \/ (j <> i /\ ts !! j = Some u)).
  { intros j u Hj. destruct (decide (j = i)) as [->|Hne].
    - left. rewrite list_lookup_insert_eq in Hj by (by eapply lookup_lt_Some). naive_solver.
    - right. by rewrite list_lookup_insert_ne in Hj. }
  assert (Hi' : <[i := t']> ts !! i = Some t') by by eapply list_lookup_insert_eq, lookup_lt_Some.
  assert (Hmade : forall key ctx, ctx ∈ funcs_of s' key -> contexts s' !! ctx = Some key).
  { intros key ctx Hin. destruct (Hm' key ctx Hin); [|done]. by apply Hg, Hm. }
  assert (Hreach : forall key ctx, reached ts s key ctx -> reached (<[i := t']> ts) s' key ctx).
  { intros key ctx [Hin|[Hin|(j & u & Hj & Hin)]].
    - left. by apply Hg.
    - destruct (Hfuncs key ctx Hin); right; [by left|right; eauto].
    - destruct (decide (j = i)) as [->|Hne].
      + simplify_eq. destruct (Hcan ctx Hin); [|by left]. right; right; eauto.
      + right; right. exists j, u. by rewrite list_lookup_insert_ne. }
  split; simpl; [lia|lia|done|done|..].
  - intros j u [[-> ->]|[Hne Hj]]%Hget; [done|]. destruct (Hs j u Hj) as [Hs1 Hs2]. split.
    + by eapply seen_grows.
    + eapply Forall_impl; [done|]. intros cl. by apply achieved_grows.
  - intros j u key ctx [[-> ->]|[Hne Hj]]%Hget Hu.
    + destruct (Haw key ctx Hu) as [Ht|Hin].
      * destruct (Ha i t key ctx Hi Ht) as [? ?]. split; [auto|by apply Hg].
      * split; [by right; left|auto].
    + destruct (Ha j u key ctx Hj Hu) as [? ?]. split; [auto|by apply Hg].
  - auto.
  - intros j u ctx [[-> ->]|[Hne Hj]]%Hget Hin.
    + destruct (Hc' ctx Hin); [|done]. eapply for_visited_grows; eauto.
    + eapply for_visited_grows; eauto.
  - intros ctx Hin. destruct (Hd' ctx Hin); eapply for_visited_grows; eauto.
Qed.

(** ** The weight of a configuration

    Every call has at most nine steps and one for a context to cancel, which is
    counted with the goroutine that waits until it is subscribed, and then with
    the subscription or the goroutine that cancels it. *)
Definition work t : nat :=
  10 * length (todo t) +
  match at_pc t with
  | Idle => 0
  | Emitting _ EReading => 9
  | Emitting _ (ERead _) => 8
  | Emitting _ EMissing => 7
  | Emitting _ EWriting => 6
  | Emitting _ (EWritten funcs) => 5 + length funcs
  | Emitting _ (ECancelling funcs) => 4 + length funcs
  | Waiting _ WLocking => 9
  | Waiting _ WLocked => 8
  | Waiting _ WVisited => 5
  | Waiting _ (WSubscribed _) => 6
  | Waiting _ (WWaiting _) => 5
  end.
Definition pending s : nat := map_fold (fun _ funcs n => length funcs + n) 0 (subscribers s).
Definition weight c : nat := total work c.1 + pending c.2.

Lemma pending_set key funcs s :
  pending (set_subscribers key funcs s) + length (funcs_of s key) = pending s + length funcs.
Proof.
  unfold pending, set_subscribers, funcs_of. simpl.
  assert (Hcomm : forall (m : gmap string (list nat)) k l, m !! k = Some l ->
    map_fold (fun _ funcs n => length funcs + n) 0 m =
    length l + map_fold (fun _ funcs n => length funcs + n) 0 (delete k m)).
  { intros m k l Hk. apply (map_fold_delete_L (fun _ (funcs : list nat) n => length funcs + n)); [lia|done]. }
  rewrite (Hcomm (<[key := funcs]> (subscribers s)) key funcs) by apply lookup_insert_eq.
  rewrite delete_insert_eq. destruct (subscribers s !! key) as [l|] eqn:E; simpl.
  - rewrite (Hcomm (subscribers s) key l E). lia.
  - rewrite delete_id by done. lia.
Qed.

Lemma funcs_of_set key funcs s key' :
  funcs_of (set_subscribers key funcs s) key' = if decide (key' = key) then funcs else funcs_of s key'.
Proof.
  unfold funcs_of, set_subscribers. simpl. rewrite lookup_insert. repeat case_decide; naive_solver.
Qed.

(** ** One step *)
Definition waits_for_mutex t : Prop :=
  match at_pc t, todo t with
  | Idle, CEmit _ :: _ | Emitting _ EMissing, _ | Waiting _ WLocking, _ => True
  | _, _ => False
  end.

Definition goes_on ts s i t (r : outcome goroutine) s' : Prop :=
  match r with
  | Ret t' => inv (<[i := t']> ts, s') /\ work t' + pending s' < work t + pending s
  | Blocked =>
      done t = true \/ (waits_for_mutex t /\ (writer s = true \/ readers s <> 0)) \/
      exists key ctx, waits_for t = Some (key, ctx) /\ child_done s ctx = false
  | _ => False
  end.

Lemma grows_refl s : grows s s.
Proof. unfold grows. set_solver. Qed.

Lemma RLock_run s :
  mu_RLock s = if writer s then (Blocked, s) else (Ret tt, set_readers (S (readers s)) s).
Proof. unfold mu_RLock, bind, gets. simpl. by destruct (writer s). Qed.
Lemma RUnlock_run s n : readers s = S n -> mu_RUnlock s = (Ret tt, set_readers n s).
Proof. unfold mu_RUnlock, bind, gets. simpl. by intros ->. Qed.
Lemma Lock_run s :
  mu_Lock s = if writer s || negb (Nat.eqb (readers s) 0) then (Blocked, s) else (Ret tt, set_writer true s).
Proof. unfold mu_Lock, bind, gets. simpl. by destruct (_ || _). Qed.
Lemma Unlock_run s : writer s = true -> mu_Unlock s = (Ret tt, set_writer false s).
Proof. unfold mu_Unlock, bind, gets. simpl. by intros ->. Qed.

Section one_step.
Context (ts : list goroutine) (s : pubsub) (i : nat) (t : goroutine).
Context (Hinv : inv (ts, s)) (Hi : ts !! i = Some t).

Lemma reader_here : reads t = 1 -> exists n, readers s = S n.
Proof.
  intros E. pose proof (inv_readers _ Hinv) as Hr. simpl in Hr.
  pose proof (total_elem reads ts i t Hi). exists (readers s - 1). lia.
Qed.
Lemma writer_here : writes t = 1 -> writer s = true.
Proof.
  intros E. pose proof (inv_writer _ Hinv) as Hw. simpl in Hw.
  pose proof (total_elem writes ts i t Hi). destruct (writer s); [done|lia].
Qed.
End one_step.

(** A step that leaves the subscriptions and what is visited alone. *)
Lemma inv_update_mutex ts s s' i t t' :
  inv (ts, s) -> ts !! i = Some t ->
  subscribers s' = subscribers s -> visited s' = visited s -> ctx_done s' = ctx_done s ->
  cancelled s' = cancelled s -> contexts s' = contexts s ->
  readers s' + reads t = readers s + reads t' ->
  (if writer s' then 1 else 0) + writes t = (if writer s then 1 else 0) + writes t' ->
  (writer s' = true -> readers s' = 0) ->
  seen s' t' -> Forall (achieved s') (finished t') ->
  cancels t' = cancels t -> awaits t' = awaits t \/ awaits t' = None ->
  inv (<[i := t']> ts, s').
Proof.
  intros Hinv Hi Esub Evis Edone Ecan Ectx Er Ew Hx Hs Hf Ec Ea.
  assert (funcs_of s' = funcs_of s) as Ef by (unfold funcs_of; by rewrite Esub).
  eapply (ps_inv_update ts s s' i t t'); try done.
  - unfold grows. rewrite Evis, Edone, Ecan, Ectx. done.
  - intros key. rewrite Evis, Ef. apply (inv_visited _ Hinv).
  - intros key ctx. rewrite Ef. auto.
  - intros ctx. rewrite Ec. auto.
  - intros key ctx Hk. destruct Ea as [Ea|Ea]; [rewrite <- Ea; by left|congruence].
  - intros key ctx. rewrite Ef. auto.
  - intros ctx. rewrite Ec. auto.
  - intros ctx. rewrite Ecan. auto.
Qed.

(** What an emitter does while it holds the mutex for writing. *)
Lemma writing_goes_on ts s i key cs fin r s' :
  let t := MkGoroutine (Emitting key EWriting) cs fin in
  inv (ts, s) -> ts !! i = Some t ->
  bind (Emit key (Some EWriting)) (fun r => ret (after_emit t key cs r)) s = (r, s') ->
  goes_on ts s i t r s'.
Proof.
  intros t Hinv Hi. destruct (inv_seen _ Hinv i t Hi) as [_ Hfin]. simpl in Hfin.
  unfold Emit. go_simpl. intros [= <- <-].
  pose proof (pending_set key [] (set_visited key s)) as Hp.
  set (s1 := set_subscribers key [] (set_visited key s)) in *.
  assert (Ef : forall k, funcs_of s1 k = if decide (k = key) then [] else funcs_of s k)
    by (intros k; unfold s1; by rewrite funcs_of_set).
  assert (pending (set_visited key s) = pending s) as Ep by done.
  assert (funcs_of (set_visited key s) key = funcs_of s key) as Efk by done.
  assert (Hg : grows s s1) by (unfold grows; simpl; set_solver).
  split; [|unfold work, t; simpl in *; lia].
  eapply (ps_inv_update ts s s1 i t); try done; simpl.
  - apply (inv_excl _ Hinv).
  - intros k [->%elem_of_singleton|Hk]%elem_of_union; rewrite Ef; [by rewrite decide_True|].
    case_decide; [done|]. by apply (inv_visited _ Hinv).
  - unfold seen. simpl. set_solver.
  - eapply Forall_impl; [done|]. intros cl. by apply achieved_grows.
  - intros k ctx Hin. rewrite Ef. case_decide; [subst; by right|by left].
  - set_solver.
  - intros k ctx. rewrite Ef. case_decide; [set_solver|by left].
  - intros ctx Hin. right. exists key. split; [apply (inv_subscribed _ Hinv key ctx Hin)|simpl; set_solver].
  - by left.
Qed.

Lemma emit_goes_on ts s i key at_ cs fin r s' :
  inv (ts, s) -> ts !! i = Some (MkGoroutine (Emitting key at_) cs fin) ->
  pstep (MkGoroutine (Emitting key at_) cs fin) s = (r, s') ->
  goes_on ts s i (MkGoroutine (Emitting key at_) cs fin) r s'.
Proof.
  intros Hinv Hi. set (t := MkGoroutine _ _ _) in *. unfold pstep, t. cbn [at_pc todo].
  destruct (inv_seen _ Hinv i t Hi) as [Hseen Hfin]. pose proof (inv_excl _ Hinv) as Hx.
  simpl in Hx, Hseen, Hfin. unfold seen in Hseen. simpl in Hseen.
  destruct at_ as [|v| | |funcs|[|c funcs]]; cbn [Emit].
  - rewrite bind_assoc, bind_gets. intros [= <- <-]. split; [|unfold work, t; simpl; lia].
    eapply inv_update_mutex; try done; simpl; auto.
    unfold seen. simpl. by case_bool_decide.
  - destruct (reader_here ts s i t Hinv Hi eq_refl) as [n En].
    rewrite bind_assoc. run (RUnlock_run s n En). rewrite bind_ret_l. intros [= <- <-].
    assert (writer s = false) as Ew by (destruct (writer s); [rewrite Hx in En by done|]; done).
    split; [|unfold work, pending, t; destruct v; simpl; lia].
    eapply inv_update_mutex; try done; simpl; [rewrite En; unfold reads, t; destruct v; simpl; lia|rewrite Ew; by destruct v|congruence|..].
    + by destruct v.
    + destruct v; simpl; [constructor; [done|]|]; done.
    + by destruct v.
    + by destruct v; left.
  - rewrite bind_assoc. pose proof (Lock_run s) as E.
    destruct (writer s || negb (Nat.eqb (readers s) 0)) eqn:Eb.
    + run E. intros [= <- <-]. right; left. split; [done|].
      apply orb_true_iff in Eb as [?|Eb%negb_true_iff%Nat.eqb_neq]; auto.
    + run E. rewrite bind_ret_l. intros [= <- <-].
      apply orb_false_iff in Eb as [Ew Er%negb_false_iff%Nat.eqb_eq].
      split; [|unfold work, pending, t; simpl; lia].
      eapply inv_update_mutex; try done; simpl; [by rewrite Ew|auto].
  - by apply writing_goes_on.
  - pose proof (writer_here ts s i t Hinv Hi eq_refl) as Ew.
    rewrite bind_assoc. run (Unlock_run s Ew). rewrite bind_ret_l. intros [= <- <-].
    split; [|unfold work, pending, t; simpl; lia].
    eapply inv_update_mutex; try done; simpl; [by rewrite Ew|auto].
  - rewrite bind_ret_l. intros [= <- <-]. split; [|unfold work, t; simpl; lia].
    eapply inv_update_mutex; try done; simpl; auto.
  - go_simpl. intros [= <- <-]. split; [|unfold work, pending, t; simpl; lia].
    eapply (ps_inv_update ts s _ i t); try done; simpl; auto.
    + unfold grows. simpl. set_solver.
    + apply (inv_visited _ Hinv).
    + set_solver.
    + intros ctx Hin. left. by right.
    + intros ctx [->%elem_of_singleton|Hin]%elem_of_union; [right; by left|by left].
Qed.

(** What a goroutine that has to wait does while it holds the mutex. *)
Lemma subscribing_goes_on ts s i key cs fin r s' :
  let t := MkGoroutine (Waiting key WLocked) cs fin in
  inv (ts, s) -> ts !! i = Some t -> key ∉ visited s ->
  bind (ctx <- WithCancel key ;;
        modify (fun s => set_subscribers key (funcs_of s key ++ [ctx]) s) ;;;
        ret (Some (WSubscribed ctx)))
    (fun r => ret (after_wait t key cs r)) s = (r, s') ->
  goes_on ts s i t r s'.
Proof.
  intros t Hinv Hi Hv. destruct (inv_seen _ Hinv i t Hi) as [_ Hfin]. simpl in Hfin.
  unfold WithCancel, bind, modify, ret. simpl. intros [= <- <-].
  set (ctx0 := length (contexts s)).
  match goal with |- goes_on _ _ _ _ (Ret ?u) (set_subscribers _ _ ?x) =>
    set (t' := u); set (s0 := x); set (s1 := set_subscribers _ _ _) end.
  pose proof (pending_set key (funcs_of s0 key ++ [ctx0]) s0) as Hp. fold s1 in Hp.
  change (pending s0) with (pending s) in Hp. change (funcs_of s0 key) with (funcs_of s key) in *.
  assert (Ef : forall k, funcs_of s1 k = if decide (k = key) then funcs_of s key ++ [ctx0] else funcs_of s k).
  { intros k. unfold s1. by rewrite funcs_of_set. }
  assert (Hc : contexts s1 !! ctx0 = Some key) by by apply list_lookup_middle.
  assert (Hg : grows s s1).
  { unfold grows. simpl. split_and!; [done..|]. intros ctx k. apply lookup_app_l_Some. }
  rewrite length_app in Hp. simpl in Hp. split; [|unfold work, t, t'; simpl; lia].
  eapply (ps_inv_update ts s s1 i t t'); try done; simpl.
  - apply (inv_excl _ Hinv).
  - intros k Hk. rewrite Ef. case_decide; [congruence|]. by apply (inv_visited _ Hinv).
  - intros k ctx Hin. left. rewrite Ef. case_decide; [subst|done]. apply elem_of_app. by left.
  - intros ctx Hin. by left.
  - intros k ctx [= <- <-]. right. rewrite Ef, decide_True by done. apply elem_of_app. right. by left.
  - intros k ctx. rewrite Ef. case_decide; [subst|by left].
    intros [Hin | ->%list_elem_of_singleton]%elem_of_app; [by left|by right].
  - intros ctx Hin. by left.
  - by left.
Qed.

Lemma wait_goes_on ts s i key at_ cs fin r s' :
  inv (ts, s) -> ts !! i = Some (MkGoroutine (Waiting key at_) cs fin) ->
  pstep (MkGoroutine (Waiting key at_) cs fin) s = (r, s') ->
  goes_on ts s i (MkGoroutine (Waiting key at_) cs fin) r s'.
Proof.
  intros Hinv Hi. set (t := MkGoroutine _ _ _) in *. unfold pstep, t. cbn [at_pc todo].
  destruct (inv_seen _ Hinv i t Hi) as [Hseen Hfin]. pose proof (inv_excl _ Hinv) as Hx.
  simpl in Hx, Hseen, Hfin. unfold seen in Hseen. simpl in Hseen.
  destruct at_ as [| | |ctx|ctx]; cbn [Wait].
  - rewrite bind_assoc. pose proof (Lock_run s) as E.
    destruct (writer s || negb (Nat.eqb (readers s) 0)) eqn:Eb; run E.
    + intros [= <- <-]. right; left. split; [done|].
      apply orb_true_iff in Eb as [?|Eb%negb_true_iff%Nat.eqb_neq]; auto.
    + rewrite bind_ret_l. intros [= <- <-].
      apply orb_false_iff in Eb as [Ew Er%negb_false_iff%Nat.eqb_eq].
      split; [|unfold work, pending, t; simpl; lia].
      eapply inv_update_mutex; try done; simpl; [by rewrite Ew|auto].
  - pose proof (writer_here ts s i t Hinv Hi eq_refl) as Ew.
    rewrite bind_assoc, bind_gets. case_bool_decide as Hv.
    + go_simpl. intros [= <- <-]. split; [|unfold work, pending, t; simpl; lia].
      eapply inv_update_mutex; try done; simpl; auto.
    + by apply subscribing_goes_on.
  - pose proof (writer_here ts s i t Hinv Hi eq_refl) as Ew.
    rewrite bind_assoc. run (Unlock_run s Ew). rewrite bind_ret_l. intros [= <- <-].
    split; [|unfold work, pending, t; simpl; lia].
    eapply inv_update_mutex; try done; simpl; [by rewrite Ew|constructor; [by left|done]|auto].
  - pose proof (writer_here ts s i t Hinv Hi eq_refl) as Ew.
    rewrite bind_assoc. run (Unlock_run s Ew). rewrite bind_ret_l. intros [= <- <-].
    split; [|unfold work, pending, t; simpl; lia].
    eapply inv_update_mutex; try done; simpl; [by rewrite Ew|auto].
  - rewrite bind_assoc, bind_gets. destruct (child_done s ctx) eqn:Ed.
    + rewrite bind_ret_l. intros [= <- <-]. split; [|unfold work, pending, t; simpl; lia].
      eapply inv_update_mutex; try done; simpl; [constructor; [|done]|auto].
      unfold child_done in Ed. apply orb_true_iff in Ed as [Ed|Ed%bool_decide_eq_true]; [by right|left].
      destruct (inv_cancelled _ Hinv ctx Ed) as (k & Hk & Hin).
      destruct (inv_awaits _ Hinv i t key ctx Hi eq_refl) as [_ Hk']. simpl in *. congruence.
    + intros [= <- <-]. right; right. exists key, ctx. done.
Qed.

Lemma ps_idle_goes_on ts s i cs fin r s' :
  inv (ts, s) -> ts !! i = Some (MkGoroutine Idle cs fin) ->
  pstep (MkGoroutine Idle cs fin) s = (r, s') -> goes_on ts s i (MkGoroutine Idle cs fin) r s'.
Proof.
  intros Hinv Hi. destruct (inv_seen _ Hinv i _ Hi) as [_ Hfin]. pose proof (inv_excl _ Hinv) as Hx.
  simpl in Hx, Hfin. unfold pstep. cbn [at_pc todo]. destruct cs as [|[key|key|] cs].
  - intros [= <- <-]. by left.
  - cbn [Emit]. rewrite bind_assoc. pose proof (RLock_run s) as E. destruct (writer s) eqn:Ew; run E.
    + intros [= <- <-]. right; left. split; [done|by left].
    + rewrite bind_ret_l. intros [= <- <-]. split; [|unfold work, pending; simpl; lia].
      eapply inv_update_mutex; try done; simpl; [unfold reads; simpl; lia|congruence|auto].
  - cbn [Wait]. rewrite bind_assoc, bind_gets. destruct (ctx_done s) eqn:Ed; go_simpl; intros [= <- <-].
    + split; [|unfold work, pending; simpl; lia].
      eapply inv_update_mutex; try done; simpl; [constructor; [by right|done]|auto].
    + split; [|unfold work, pending; simpl; lia]. eapply inv_update_mutex; try done; simpl; auto.
  - go_simpl. intros [= <- <-]. split; [|unfold work, pending; simpl; lia].
    assert (Hg : grows s (set_done s)) by (unfold grows; simpl; set_solver).
    eapply (ps_inv_update ts s _ i); try done; simpl; auto.
    + apply (inv_visited _ Hinv).
    + constructor; [done|]. eapply Forall_impl; [done|]. intros cl. by apply achieved_grows.
Qed.

Lemma pstep_goes_on ts s i t r s' :
  inv (ts, s) -> ts !! i = Some t -> pstep t s = (r, s') -> goes_on ts s i t r s'.
Proof.
  destruct t as [[|key at_|key at_] cs fin]; [apply ps_idle_goes_on|apply emit_goes_on|apply wait_goes_on].
Qed.

Lemma ps_step_inv c c' : inv c -> ps_step c c' -> inv c'.
Proof.
  intros Hinv Hs. destruct Hs as [ts s i t t' s' Hi E]. by apply (pstep_goes_on ts s i t _ _ Hinv Hi) in E as [? _].
Qed.

Lemma ps_step_weight c c' : inv c -> ps_step c c' -> weight c' < weight c.
Proof.
  intros Hinv Hs. destruct Hs as [ts s i t t' s' Hi E]. unfold weight. simpl.
  apply (pstep_goes_on ts s i t _ _ Hinv Hi) in E as [_ Hw].
  pose proof (total_insert work ts i t t' Hi). lia.
Qed.

Lemma reachable_inv callss c : reachable pstep (start <$> callss, newPubsub) c -> inv c.
Proof. apply reachable_invariant; [apply ps_step_inv|apply ps_inv_start]. Qed.

(** Whoever holds the mutex, or has contexts to cancel, can go on. *)
Lemma busy_goes_on ts s i t r s' :
  inv (ts, s) -> ts !! i = Some t -> (reads t <> 0 \/ writes t <> 0 \/ cancels t <> []) ->
  pstep t s = (r, s') -> exists t', r = Ret t'.
Proof.
  intros Hinv Hi Hb E. pose proof (pstep_goes_on ts s i t r s' Hinv Hi E) as H.
  destruct r as [t'|?| |]; try done; [by eexists|]. exfalso.
  destruct H as [Hd|[[Hm _]|(key & ctx & Hw & _)]].
  - unfold done, reads, writes, cancels in *. destruct (at_pc t), (todo t); naive_solver.
  - unfold waits_for_mutex, reads, writes, cancels in *.
    destruct (at_pc t) as [|? []|? []], (todo t) as [|[] ?]; naive_solver.
  - unfold waits_for, reads, writes, cancels in *. destruct (at_pc t) as [|? []|? []]; naive_solver.
Qed.

Lemma total_pos (f : goroutine -> nat) ts : total f ts <> 0 -> exists i t, ts !! i = Some t /\ f t <> 0.
Proof.
  intros H. destruct (decide (Exists (fun t => f t <> 0) ts)) as [He|Hn].
  - apply Exists_exists in He as (t & [i Hi]%list_elem_of_lookup & Hf). eauto.
  - exfalso. apply H, total_0. intros t Ht. apply dec_stable. intros Hf. apply Hn, Exists_exists. eauto.
Qed.

Lemma stuck_waits c i t :
  inv c -> can_step pstep c = false -> c.1 !! i = Some t ->
  done t = true \/
  exists key ctx, waits_for t = Some (key, ctx) /\ key ∉ visited c.2 /\ ctx_done c.2 = false.
Proof.
  destruct c as [ts s]. simpl. intros Hinv Hstuck Hi.
  assert (Hfree : forall j u, ts !! j = Some u -> ~ (reads u <> 0 \/ writes u <> 0 \/ cancels u <> [])).
  { intros j u Hj Hb. destruct (pstep u s) as [r s'] eqn:E.
    destruct (busy_goes_on ts s j u r s' Hinv Hj Hb E) as [t' ->].
    by rewrite (can_step_at pstep (ts, s) j u t' s' Hj E) in Hstuck. }
  destruct (pstep t s) as [r s'] eqn:E. pose proof (pstep_goes_on ts s i t r s' Hinv Hi E) as H.
  destruct r as [t'|?| |]; try done.
  { by rewrite (can_step_at pstep (ts, s) i t t' s' Hi E) in Hstuck. }
  destruct H as [Hd|[[_ Hm]|(key & ctx & Hw & Hc)]]; [by left|exfalso|right].
  - destruct Hm as [Hw|Hr].
    + pose proof (inv_writer _ Hinv) as Ht. simpl in Ht. rewrite Hw in Ht.
      destruct (total_pos writes ts) as (j & u & Hj & Hu); [lia|]. apply (Hfree j u Hj). auto.
    + pose proof (inv_readers _ Hinv) as Ht. simpl in Ht.
      destruct (total_pos reads ts) as (j & u & Hj & Hu); [lia|]. apply (Hfree j u Hj). auto.
  - exists key, ctx. apply orb_false_iff in Hc as [Hc Hn%bool_decide_eq_false].
    split_and!; [done| |done]. intros Hv.
    assert (awaits t = Some (key, ctx)) as Ha.
    { unfold waits_for, awaits in *. by destruct (at_pc t) as [|? []|? []]. }
    destruct (inv_awaits _ Hinv i t key ctx Hi Ha) as [[Hc'|[Hf|(j & u & Hj & Hu)]] _]; [done|..].
    + rewrite (inv_visited _ Hinv key Hv) in Hf. by apply elem_of_nil in Hf.
    + apply (Hfree j u Hj). right; right. intros Hnil. rewrite Hnil in Hu. by apply elem_of_nil in Hu.
Qed.
End invariant.

(** ** Properties *)

(** [Wait] returns only when its key was emitted or the context is done:
    in every interleaving, each call that returned has achieved what it is for,
    and no goroutine panics. *)
Theorem Wait_returns_after_Emit callss c i t cl :
  reachable pstep (start <$> callss, newPubsub) c ->
  c.1 !! i = Some t -> cl ∈ finished t ->
  match cl with
  | CEmit key => key ∈ visited c.2
  | CWait key => key ∈ visited c.2 \/ ctx_done c.2 = true
  | CCancel => ctx_done c.2 = true
  end /\ ~ panicking pstep c.
Proof.
  intros Hr Hi Hin. pose proof (reachable_inv callss c Hr) as Hinv. split.
  - destruct (inv_seen _ Hinv i t Hi) as [_ Hf]. rewrite Forall_forall in Hf.
    by specialize (Hf cl Hin).
  - intros (j & u & why & s' & Hj & E). destruct c as [ts s].
    by apply (pstep_goes_on ts s j u _ _ Hinv Hj) in E.
Qed.

(** C25: no wake-up is lost: every execution ends, after at most ten steps per
    call, and where it ends every goroutine has finished its calls or waits for
    a key that nobody emitted, with the context not cancelled. *)
Theorem Emit_wakes_all callss n c :
  nsteps ps_step n (start <$> callss, newPubsub) c ->
  n <= 10 * sum_list_with length callss /\
  (can_step pstep c = false ->
   forall i t, c.1 !! i = Some t ->
     done t = true \/
     exists key ctx, waits_for t = Some (key, ctx) /\ key ∉ visited c.2 /\ ctx_done c.2 = false).
Proof.
  intros Hn. split.
  - pose proof (steps_bounded pstep weight inv ps_step_inv ps_step_weight n _ _ (ps_inv_start callss) Hn) as Hb.
    assert (weight (start <$> callss, newPubsub) = 10 * sum_list_with length callss) as Hw; [|lia].
    unfold weight, pending. simpl. rewrite map_fold_empty, Nat.add_0_r. clear. unfold total.
    induction callss as [|calls callss IH]; [done|].
    rewrite fmap_cons. cbn [sum_list_with]. rewrite IH. unfold work. simpl. lia.
  - intros Hstuck i t Hi. eapply stuck_waits; [|done..]. eapply reachable_inv, (rtc_nsteps_2 n), Hn.
Qed.

(** ** The theorems at concrete inputs *)
Definition demo_calls : list (list call) :=
  [[CEmit "a"; CEmit "b"; CCancel]; [CWait "b"]; [CWait "c"]].
Definition demo_start : ps_config := (start <$> demo_calls, newPubsub).

(** The second goroutine subscribes before its key is emitted. *)
Definition demo_schedule : list nat :=
  [1; 1; 1; 1] ++ replicate 15 0 ++ [1].
Definition demo_config : ps_config := default demo_start (run_schedule pstep demo_schedule demo_start).

Lemma Wait_returns_after_Emit_witness :
  finished <$> demo_config.1 !! 1 = Some [CWait "b"] /\
  ("b" ∈ visited demo_config.2 \/ ctx_done demo_config.2 = true) /\ ctx_done demo_config.2 = false.
Proof.
  split_and!; [vm_compute; reflexivity| |vm_compute; reflexivity].
  refine (proj1 (Wait_returns_after_Emit demo_calls demo_config 1 (MkGoroutine Idle [] [CWait "b"])
    (CWait "b") _ _ _)).
  - apply (run_schedule_reachable pstep demo_schedule). vm_compute. reflexivity.
  - vm_compute. reflexivity.
  - by left.
Defined.

Definition demo_end_schedule : list nat := first_schedule pstep 60 demo_start.
Definition demo_end : ps_config := default demo_start (run_schedule pstep demo_end_schedule demo_start).

Lemma Emit_wakes_all_witness :
  length demo_end_schedule = 17 /\ length demo_end_schedule <= 50.
Proof.
  split; [vm_compute; reflexivity|].
  refine (proj1 (Emit_wakes_all demo_calls (length demo_end_schedule) demo_end _)).
  apply run_schedule_nsteps. vm_compute. reflexivity.
Defined.
