(* ===== verification/BufferPool.v ===== *)
(** * Buffers with bounded memory ([tar/bufferpool.go])

    A channel of buffers that goroutines take from and give back to; a
    goroutine that finds it empty makes a new buffer as long as there are fewer
    than the maximum. *)
From stdpp Require Import relations.
From S2P Require Import Prelude.
From S2P Require Import Conc.

Local Open Scope Z_scope.

(** [type bufferPool struct]: buffers are numbered as they are made; [max] is the
    capacity of the channel. *)
Record bufferPool := MkPool {
  count : Z;
  max : nat;
  buffers : list nat;
  made : nat
}.

Definition set_count (n : Z) (s : bufferPool) : bufferPool := MkPool n (max s) (buffers s) (made s).
Definition set_buffers (bs : list nat) (s : bufferPool) : bufferPool :=
  MkPool (count s) (max s) bs (made s).

(** [&buffer{...}] *)
Definition new_buffer : M bufferPool nat := fun s =>
  (Ret (made s), MkPool (count s) (max s) (buffers s) (S (made s))).

(** The channel: sending blocks when it is full, receiving when it is empty. *)
Definition send (b : nat) : M bufferPool unit :=
  s <- gets id ;;
  if Nat.ltb (length (buffers s)) (max s) then modify (set_buffers (buffers s ++ [b])) else blocked.
Definition receive : M bufferPool nat :=
  s <- gets id ;;
  match buffers s with
  | [] => blocked
  | b :: bs => modify (set_buffers bs) ;;; ret b
  end.

(** ** [addBuffer] and [Wait], step by step

    A step is an atomic operation on the counter or an operation on the
    channel. *)
Inductive add_pc := ALoad | ACompareAndSwap (n : Z) | ASend (b : nat).

Definition addBuffer (at_ : add_pc) : M bufferPool (option add_pc) :=
  match at_ with
  | ALoad =>
      s <- gets id ;;
      ret (if count s =? Z.of_nat (max s) then None else Some (ACompareAndSwap (count s)))
  | ACompareAndSwap n =>
      s <- gets id ;;
      if count s =? n then
        modify (set_count (add64 n 1)) ;;; b <- new_buffer ;; ret (Some (ASend b))
      else ret (Some ALoad)
  | ASend b => send b ;;; ret None
  end.

(** Where [Wait] is, or the buffer that it returned. *)
Inductive wait_pc := WAdding (at_ : add_pc) | WReceiving | WDone (b : nat).

Definition Wait (at_ : option wait_pc) : M bufferPool wait_pc :=
  match at_ with
  | None =>
      s <- gets id ;;
      match buffers s with
      | [] => ret (WAdding ALoad)
      | b :: bs => modify (set_buffers bs) ;;; ret (WDone b)
      end
  | Some (WAdding at_) =>
      r <- addBuffer at_ ;;
      ret (match r with Some at_ => WAdding at_ | None => WReceiving end)
  | Some WReceiving => b <- receive ;; ret (WDone b)
  | Some (WDone b) => ret (WDone b)
  end.

Definition Done (b : nat) : M bufferPool unit := send b.

(** [newBufferPool] runs [addBuffer] before there are other goroutines. *)
Definition empty_pool (maxBuffers : nat) : bufferPool :=
  MkPool 0 (if Nat.eqb maxBuffers 0 then 1 else maxBuffers)%nat [] 0.
Definition newBufferPool (maxBuffers : nat) : outcome (option add_pc) * bufferPool :=
  (r1 <- addBuffer ALoad ;;
   match r1 with
   | None => ret None
   | Some at1 =>
       r2 <- addBuffer at1 ;;
       match r2 with None => ret None | Some at2 => addBuffer at2 end
   end) (empty_pool maxBuffers).
Definition new_pool (maxBuffers : nat) : bufferPool := snd (newBufferPool maxBuffers).

(** ** Goroutines that take a buffer and give it back, some times each *)
Record goroutine := MkGoroutine { waiting : option wait_pc; uses : nat }.
Definition start (uses : nat) : goroutine := MkGoroutine None uses.

Definition bstep (t : goroutine) : M bufferPool goroutine :=
  match waiting t, uses t with
  | None, 0%nat => blocked
  | None, S n => r <- Wait None ;; ret (MkGoroutine (Some r) n)
  | Some (WDone b), n => Done b ;;; ret (MkGoroutine None n)
  | Some at_, n => r <- Wait (Some at_) ;; ret (MkGoroutine (Some r) n)
  end.

Definition done (t : goroutine) : bool :=
  match waiting t, uses t with None, 0%nat => true | _, _ => false end.

(** The buffer that a goroutine uses, or is about to put into the channel. *)
Definition lent (t : goroutine) : option nat :=
  match waiting t with Some (WDone b) => Some b | _ => None end.
Definition owned (t : goroutine) : list nat :=
  match waiting t with Some (WDone b) | Some (WAdding (ASend b)) => [b] | _ => [] end.

Abbreviation pool_config := (config (T := goroutine) (S := bufferPool)).
Abbreviation pool_step := (step bstep).

(** ** The invariant *)
Section invariant.
Implicit Types (c : pool_config) (s : bufferPool) (t u : goroutine) (ts : list goroutine).

Definition all_buffers ts s : list nat := buffers s ++ concat (owned <$> ts).

Lemma owned_insert ts i t t' :
  ts !! i = Some t ->
  concat (owned <$> <[i := t']> ts) ++ owned t ≡ₚ concat (owned <$> ts) ++ owned t'.
Proof.
  revert i. induction ts as [|u ts IH]; intros [|i]; simpl; try done.
  - intros [= ->]. rewrite (Permutation_app_comm (owned t')), <- app_assoc.
    rewrite (Permutation_app_comm (owned t') (owned t)), app_assoc.
    by rewrite (Permutation_app_comm _ (owned t)).
  - intros H%IH. by rewrite <- !app_assoc, H.
Qed.

(** Every buffer made is in the channel or with one goroutine. *)
Record inv c : Prop := {
  inv_count : count c.2 = Z.of_nat (made c.2);
  inv_max : (1 <= made c.2 <= max c.2)%nat;
  inv_int : is_int64 (Z.of_nat (max c.2));
  inv_all : all_buffers c.1 c.2 ≡ₚ seq 0 (made c.2);
  inv_cas i t n :
    c.1 !! i = Some t -> waiting t = Some (WAdding (ACompareAndSwap n)) -> n < Z.of_nat (max c.2)
}.

Lemma new_pool_eq maxBuffers :
  is_int64 (Z.of_nat maxBuffers) ->
  newBufferPool maxBuffers =
    (Ret None, MkPool 1 (if Nat.eqb maxBuffers 0 then 1 else maxBuffers)%nat [0%nat] 1).
Proof.
  intros Hi. unfold newBufferPool, empty_pool, addBuffer, send, new_buffer. go_simpl. simpl.
  destruct maxBuffers as [|n]; simpl; [done|].
  unfold bind, gets, modify, ret. simpl. done.
Qed.

Lemma pool_inv_start maxBuffers us :
  is_int64 (Z.of_nat maxBuffers) -> inv (start <$> us, new_pool maxBuffers).
Proof.
  intros Hi. unfold new_pool. rewrite new_pool_eq by done. split; simpl.
  - done.
  - destruct maxBuffers; simpl; lia.
  - destruct maxBuffers; simpl; [by int64|done].
  - unfold all_buffers. simpl. assert (concat (owned <$> (start <$> us)) = []) as ->; [|done].
    clear. induction us as [|u us IH]; [done|exact IH].
  - by intros i t n (u & -> & _)%list_lookup_fmap_Some_1.
Qed.

(** One goroutine goes on, with the buffers that it had or a new one. *)
Lemma pool_inv_update ts s s' i t t' :
  inv (ts, s) -> ts !! i = Some t -> max s' = max s ->
  count s' = Z.of_nat (made s') -> (made s' <= max s')%nat ->
  (made s' = made s /\ buffers s' ++ owned t' ≡ₚ buffers s ++ owned t \/
   made s' = S (made s) /\ buffers s' ++ owned t' ≡ₚ (buffers s ++ owned t) ++ [made s]) ->
  (forall n, waiting t' = Some (WAdding (ACompareAndSwap n)) -> n < Z.of_nat (max s')) ->
  inv (<[i := t']> ts, s').
Proof.
  intros [Hc Hm Hi Ha Hn] Hti Em Ec Hm' Hb Hn'. simpl in *.
  pose proof (owned_insert ts i t t' Hti) as Hp.
  assert (Hall : forall extra, buffers s' ++ owned t' ≡ₚ (buffers s ++ owned t) ++ extra ->
    all_buffers (<[i := t']> ts) s' ≡ₚ all_buffers ts s ++ extra).
  { intros extra H. unfold all_buffers. apply (Permutation_app_inv_r (owned t)).
    rewrite <- app_assoc, Hp, (Permutation_app_comm (concat _)), app_assoc, H, <- !app_assoc.
    apply Permutation_app_head. rewrite (Permutation_app_comm (owned t)), <- app_assoc.
    by rewrite !app_assoc, (Permutation_app_comm extra (concat _)). }
  split; simpl; [done| |by rewrite Em| |].
  - destruct Hb as [[E _]|[E _]]; lia.
  - destruct Hb as [[-> Hb]|[-> Hb]].
    + rewrite (Hall []), app_nil_r; [done|]. by rewrite app_nil_r.
    + rewrite (Hall [made s]) by done. by rewrite seq_S, Ha.
  - intros j u n Hj Hw. destruct (decide (j = i)) as [->|Hne].
    + rewrite list_lookup_insert_eq in Hj by (by eapply lookup_lt_Some). naive_solver.
    + rewrite list_lookup_insert_ne in Hj by done. rewrite Em. eauto.
Qed.

(** ** The weight of a configuration

    A use takes at most five steps when nobody interferes; that the counter was
    changed between the load and the compare-and-swap costs a goroutine two
    more, and happens to each at most once per buffer made. *)
Definition work (n : Z) t : nat :=
  (9 * uses t +
  match waiting t with
  | None => 0
  | Some (WAdding ALoad) => 7
  | Some (WAdding (ACompareAndSwap m)) => if (n =? m)%Z then 6 else 8
  | Some (WAdding (ASend _)) => 4
  | Some WReceiving => 3
  | Some (WDone _) => 1
  end)%nat.
Definition weight c : nat :=
  (total (work (count c.2)) c.1 + 2 * length c.1 * (max c.2 - made c.2))%nat.

Lemma work_stale n n' t : (work n' t <= work n t + 2)%nat.
Proof.
  unfold work. destruct (waiting t) as [[[|m|b]| |b]|]; try lia.
  destruct (n =? m), (n' =? m); lia.
Qed.
Lemma total_stale n n' ts : (total (work n') ts <= total (work n) ts + 2 * length ts)%nat.
Proof.
  unfold total. induction ts as [|t ts IH]; simpl; [lia|]. pose proof (work_stale n n' t). lia.
Qed.

Lemma length_buffers ts s i t :
  inv (ts, s) -> ts !! i = Some t -> (length (buffers s) + length (owned t) <= made s)%nat.
Proof.
  intros Hinv Hi. pose proof (inv_all _ Hinv) as Ha. simpl in Ha.
  apply Permutation_length in Ha. rewrite length_seq in Ha. unfold all_buffers in Ha.
  rewrite length_app in Ha.
  pose proof (Permutation_length (owned_insert ts i t (start 0) Hi)) as Hp.
  rewrite !length_app in Hp. simpl in Hp. lia.
Qed.

Definition goes_on ts s i t (r : outcome goroutine) s' : Prop :=
  match r with
  | Ret t' => inv (<[i := t']> ts, s') /\ (weight (<[i := t']> ts, s') < weight (ts, s))%nat
  | Blocked => done t = true \/ owned t = [] /\ buffers s = []
  | _ => False
  end.

(** A step that leaves the counter alone and makes the goroutine's work less. *)
Lemma weight_work ts s s' i t t' :
  ts !! i = Some t -> count s' = count s -> max s' = max s -> made s' = made s ->
  (work (count s) t' < work (count s) t)%nat -> (weight (<[i := t']> ts, s') < weight (ts, s))%nat.
Proof.
  intros Hi Ec Em Ed Hw. unfold weight. simpl. rewrite Ec, Em, Ed, length_insert.
  pose proof (total_insert (work (count s)) ts i t t' Hi). lia.
Qed.

Lemma send_run b s :
  (length (buffers s) < max s)%nat -> send b s = (Ret tt, set_buffers (buffers s ++ [b]) s).
Proof. intros H. unfold send, bind, gets. simpl. apply Nat.ltb_lt in H. by rewrite H. Qed.

Section one_step.
Context (ts : list goroutine) (s : bufferPool) (i : nat).
Context (Hinv : inv (ts, s)).

(** Taking from the channel. *)
Lemma taking_goes_on t b bs n :
  ts !! i = Some t -> owned t = [] -> buffers s = b :: bs ->
  (work (count s) (MkGoroutine (Some (WDone b)) n) < work (count s) t)%nat ->
  goes_on ts s i t (Ret (MkGoroutine (Some (WDone b)) n)) (set_buffers bs s).
Proof.
  intros Hi Ho Eb Hw. split; [|by eapply weight_work].
  pose proof (inv_max _ Hinv). pose proof (inv_count _ Hinv). simpl in *.
  eapply pool_inv_update; try done; simpl; [lia|]. left. split; [done|].
  unfold owned at 1. simpl. rewrite Ho, Eb, app_nil_r. by rewrite Permutation_app_comm.
Qed.

(** A buffer that a goroutine has always fits into the channel. *)
Lemma giving_goes_on t t' b :
  ts !! i = Some t -> owned t = [b] -> owned t' = [] ->
  (forall n, waiting t' <> Some (WAdding (ACompareAndSwap n))) ->
  (work (count s) t' < work (count s) t)%nat ->
  send b s = (Ret tt, set_buffers (buffers s ++ [b]) s) /\
  goes_on ts s i t (Ret t') (set_buffers (buffers s ++ [b]) s).
Proof.
  intros Hi Ho Ho' Hn Hw. pose proof (length_buffers _ _ _ _ Hinv Hi) as Hl. rewrite Ho in Hl.
  pose proof (inv_max _ Hinv). pose proof (inv_count _ Hinv). simpl in *.
  split; [apply send_run; lia|]. split; [|by eapply weight_work].
  eapply pool_inv_update; try done; simpl; [lia| |naive_solver]. left. split; [done|].
  by rewrite Ho, Ho', app_nil_r.
Qed.

(** Nothing changes but where the goroutine is. *)
Lemma moving_goes_on t t' :
  ts !! i = Some t -> owned t' = owned t ->
  (forall n, waiting t' = Some (WAdding (ACompareAndSwap n)) -> n < Z.of_nat (max s)) ->
  (work (count s) t' < work (count s) t)%nat ->
  goes_on ts s i t (Ret t') s.
Proof.
  intros Hi Ho Hn Hw. split; [|by eapply weight_work].
  pose proof (inv_max _ Hinv). pose proof (inv_count _ Hinv). simpl in *.
  eapply pool_inv_update; try done; [lia|]. left. by rewrite Ho.
Qed.

(** The compare-and-swap that succeeds. *)
Lemma adding_goes_on (k : nat) n :
  ts !! i = Some (MkGoroutine (Some (WAdding (ACompareAndSwap n))) k) -> count s = n ->
  goes_on ts s i (MkGoroutine (Some (WAdding (ACompareAndSwap n))) k)
    (Ret (MkGoroutine (Some (WAdding (ASend (made s)))) k))
    (MkPool (add64 n 1) (max s) (buffers s) (S (made s))).
Proof.
  intros Hi En. pose proof (inv_cas _ Hinv i _ n Hi eq_refl) as Hlt.
  pose proof (inv_max _ Hinv) as Hm. pose proof (inv_count _ Hinv) as Hc. pose proof (inv_int _ Hinv) as Hint.
  simpl in *. rewrite add64_id by int64. split.
  - eapply pool_inv_update; try done; simpl; [lia|lia|]. right. split; [done|].
    unfold owned. simpl. by rewrite app_nil_r.
  - unfold weight. simpl. rewrite length_insert.
    match goal with |- context [<[i := ?t']> ts] =>
      pose proof (total_insert (work (count s)) ts i _ t' Hi) as Ht;
      pose proof (total_stale (count s) (n + 1) (<[i := t']> ts)) as Hs end.
    rewrite length_insert in Hs. unfold work in Ht at 2 4. simpl in Ht.
    rewrite En, Z.eqb_refl in *.
    assert (2 * length ts * (max s - made s) = 2 * length ts * (max s - S (made s)) + 2 * length ts)%nat by nia.
    lia.
Qed.
End one_step.

Lemma bstep_goes_on ts s i t r s' :
  inv (ts, s) -> ts !! i = Some t -> bstep t s = (r, s') -> goes_on ts s i t r s'.
Proof.
  intros Hinv Hi. destruct t as [[[[|n|b]| |b]|] k]; unfold bstep; cbn [waiting uses Wait].
  - pose proof (inv_max _ Hinv) as Hm. pose proof (inv_count _ Hinv) as Hc. simpl in Hm, Hc.
    unfold addBuffer. go_simpl. intros [= <- <-]. simpl id. destruct (Z.eqb_spec (count s) (Z.of_nat (max s))) as [E|E]; apply moving_goes_on; try done.
    + unfold work. simpl. lia.
    + simpl. intros n [= <-]. lia.
    + unfold work. simpl. rewrite Z.eqb_refl. lia.
  - unfold addBuffer. go_simpl. simpl id. destruct (Z.eqb_spec (count s) n) as [E|E].
    + unfold new_buffer, bind, modify, ret. simpl. intros [= <- <-]. by apply adding_goes_on.
    + go_simpl. intros [= <- <-]. apply moving_goes_on; try done.
      unfold work. simpl. apply Z.eqb_neq in E. rewrite E. lia.
  - unfold addBuffer. rewrite !bind_assoc.
    destruct (giving_goes_on ts s i Hinv _ (MkGoroutine (Some WReceiving) k) b Hi eq_refl eq_refl)
      as [E Hg]; [done|unfold work; simpl; lia|].
    run E. go_simpl. by intros [= <- <-].
  - unfold receive. go_simpl. simpl id. destruct (buffers s) as [|b bs] eqn:Eb.
    + intros [= <- <-]. by right.
    + go_simpl. intros [= <- <-]. apply taking_goes_on; try done. unfold work. simpl. lia.
  - destruct (giving_goes_on ts s i Hinv _ (MkGoroutine None k) b Hi eq_refl eq_refl)
      as [E Hg]; [done|unfold work; simpl; lia|].
    unfold Done. run E. go_simpl. by intros [= <- <-].
  - destruct k as [|k]; [intros [= <- <-]; by left|].
    go_simpl. simpl id. destruct (buffers s) as [|b bs] eqn:Eb; go_simpl; intros [= <- <-].
    + apply moving_goes_on; try done. unfold work. simpl. lia.
    + apply taking_goes_on; try done. unfold work. simpl. lia.
Qed.

Lemma pool_step_inv c c' : inv c -> pool_step c c' -> inv c'.
Proof.
  intros Hinv Hs. destruct Hs as [ts s i t t' s' Hi E].
  by apply (bstep_goes_on ts s i t _ _ Hinv Hi) in E as [? _].
Qed.
Lemma pool_step_weight c c' : inv c -> pool_step c c' -> (weight c' < weight c)%nat.
Proof.
  intros Hinv Hs. destruct Hs as [ts s i t t' s' Hi E].
  by apply (bstep_goes_on ts s i t _ _ Hinv Hi) in E as [_ ?].
Qed.

(** Two goroutines never own the same buffer. *)
Lemma owned_apart ts s i j t u b :
  inv (ts, s) -> i <> j -> ts !! i = Some t -> ts !! j = Some u -> b ∈ owned t -> b ∈ owned u -> False.
Proof.
  intros Hinv Hne Hi Hj Hb Hb'. pose proof (inv_all _ Hinv) as Ha. simpl in Ha.
  assert (NoDup (concat (owned <$> ts))) as Hnd.
  { assert (NoDup (all_buffers ts s)) as Hnd; [rewrite Ha; apply NoDup_seq|].
    by apply NoDup_app in Hnd as (_ & _ & ?). }
  pose proof (owned_insert ts i t (start 0) Hi) as Hp. unfold start in Hp. simpl in Hp.
  rewrite app_nil_r in Hp. rewrite <- Hp in Hnd. apply NoDup_app in Hnd as (_ & Hd & _).
  apply (Hd b); [|done]. apply list_elem_of_In, in_concat. exists (owned u). rewrite <- !list_elem_of_In. split; [|done].
  apply list_elem_of_fmap. exists u. split; [done|]. apply (list_elem_of_lookup_2 _ j).
  by rewrite list_lookup_insert_ne.
Qed.

(** Where the channel is empty, somebody owns a buffer and can go on. *)
Lemma pool_stuck_done c : inv c -> can_step bstep c = false -> Forall (fun t => done t = true) c.1.
Proof.
  destruct c as [ts s]. intros Hinv Hstuck. apply Forall_lookup_2. simpl.
  assert (Hb : forall i t, ts !! i = Some t -> done t = true \/ owned t = [] /\ buffers s = []).
  { intros i t Hi. destruct (bstep t s) as [r s'] eqn:E.
    pose proof (bstep_goes_on _ _ _ _ _ _ Hinv Hi E) as H. destruct r as [t'|?| |]; try done.
    by rewrite (can_step_at bstep (ts, s) i t t' s' Hi E) in Hstuck. }
  intros i t Hi. destruct (Hb i t Hi) as [|[_ He]]; [done|]. exfalso.
  pose proof (inv_all _ Hinv) as Ha. pose proof (inv_max _ Hinv) as Hm.
  cbn [fst snd] in Ha, Hm. unfold all_buffers in Ha. rewrite He, app_nil_l in Ha.
  assert (concat (owned <$> ts) = []) as Hnil.
  { clear -Hb. assert (Forall (fun t => owned t = []) ts) as Hall.
    { apply Forall_lookup_2. intros i t Hi. destruct (Hb i t Hi) as [Hd|[? _]]; [|done].
      unfold done, owned in *. by destruct (waiting t). }
    clear Hb. induction Hall as [|t ts Ht Hall IH]; [done|]. rewrite fmap_cons. cbn [concat]. rewrite Ht. exact IH. }
  rewrite Hnil in Ha. apply Permutation_length in Ha. rewrite length_seq in Ha. simpl in Ha. lia.
Qed.
End invariant.

(** ** Properties *)

(** C26: at any time there are at most [maxBuffers] buffers (one, if that is
    zero), no two goroutines use the same one, the counter does not overflow,
    and giving a buffer back never blocks and never finds the channel full. *)
Theorem Wait_bounds_memory maxBuffers us c :
  is_int64 (Z.of_nat maxBuffers) ->
  reachable bstep (start <$> us, new_pool maxBuffers) c ->
  (1 <= made c.2 <= Nat.max 1 maxBuffers)%nat /\ count c.2 = Z.of_nat (made c.2) /\
  (forall i j t u b, i <> j -> c.1 !! i = Some t -> c.1 !! j = Some u ->
     lent t = Some b -> lent u <> Some b) /\
  (forall i t b, c.1 !! i = Some t -> lent t = Some b ->
     exists s', Done b c.2 = (Ret tt, s') /\ (length (buffers s') <= max s')%nat) /\
  ~ panicking bstep c.
Proof.
  intros Hint Hr. pose proof (pool_inv_start maxBuffers us Hint) as H0.
  assert (inv c) as Hinv by (eapply reachable_invariant; [apply pool_step_inv|exact H0|done]).
  assert (max c.2 = Nat.max 1 maxBuffers) as Hmax.
  { assert (max c.2 = max (new_pool maxBuffers)) as ->.
    { clear -Hr. remember (start <$> us, new_pool maxBuffers) as c0 eqn:E0.
      assert (max c.2 = max c0.2) as ->; [|by subst].
      clear E0. induction Hr as [|c1 c2 c3 Hs _ IH]; [done|]. rewrite IH.
      destruct Hs as [ts s i t t' s' Hi E]. simpl. revert E.
      unfold bstep, Wait, addBuffer, receive, Done, send, new_buffer, bind, gets, modify, ret, blocked.
      destruct (waiting t) as [[[|n|b]| |b]|], (uses t); repeat case_match; naive_solver. }
    unfold new_pool. rewrite new_pool_eq by done. simpl. destruct maxBuffers; simpl; lia. }
  destruct c as [ts s]. simpl in *. rewrite <- Hmax. pose proof (inv_max _ Hinv) as Hm. simpl in Hm.
  split_and!; [lia|lia|apply Hinv|..].
  - intros i j t u b Hne Hi Hj Ht Hu. eapply (owned_apart ts s i j t u b); try done;
      unfold lent, owned in *; [destruct (waiting t) as [[| |]|]|destruct (waiting u) as [[| |]|]];
      simplify_eq; by left.
  - intros i t b Hi Ht. assert (owned t = [b]) as Ho.
    { unfold lent, owned in *. destruct (waiting t) as [[| |]|]; by simplify_eq. }
    pose proof (length_buffers ts s i t Hinv Hi) as Hl. rewrite Ho in Hl. simpl in *.
    eexists. unfold Done. rewrite send_run by lia. split; [done|]. simpl. rewrite length_app. simpl. lia.
  - intros (i & t & why & s' & Hi & E). by apply (bstep_goes_on ts s i t _ _ Hinv Hi) in E.
Qed.

(** Nobody waits for ever: every execution ends, within nine steps per use
    and two per goroutine and buffer, and where it ends every goroutine has had
    all its buffers. *)
Theorem Wait_comes_to_an_end maxBuffers us n c :
  is_int64 (Z.of_nat maxBuffers) ->
  nsteps pool_step n (start <$> us, new_pool maxBuffers) c ->
  (n <= 9 * sum_list us + 2 * length us * Nat.max 1 maxBuffers)%nat /\
  (can_step bstep c = false -> Forall (fun t => done t = true) c.1).
Proof.
  intros Hint Hn. pose proof (pool_inv_start maxBuffers us Hint) as H0.
  pose proof (steps_bounded bstep weight inv pool_step_inv pool_step_weight n _ _ H0 Hn) as Hb. split.
  - assert (weight (start <$> us, new_pool maxBuffers) <=
      9 * sum_list us + 2 * length us * Nat.max 1 maxBuffers)%nat as Hw; [|lia].
    unfold weight, new_pool. rewrite new_pool_eq by done. simpl. rewrite length_fmap.
    assert (total (work 1) (start <$> us) = 9 * sum_list us)%nat as ->.
    { clear. unfold total. induction us as [|u us IH]; [done|]. rewrite fmap_cons. cbn [sum_list_with].
      rewrite IH. unfold work. simpl. lia. }
    destruct maxBuffers; simpl; nia.
  - apply pool_stuck_done. eapply reachable_invariant; [apply pool_step_inv|exact H0|]. by apply (rtc_nsteps_2 n).
Qed.

(** ** The theorems at concrete inputs *)

(** Two goroutines load the counter before one of them makes the second buffer,
    the third goroutine has the first one. *)
Definition demo_start : pool_config := (start <$> [1%nat; 1%nat; 1%nat], new_pool 2).
Definition demo_schedule : list nat := [2; 0; 1; 0; 1; 0; 1; 0; 0; 1]%nat.
Definition demo_config : pool_config := default demo_start (run_schedule bstep demo_schedule demo_start).

Lemma Wait_bounds_memory_witness :
  lent <$> demo_config.1 = [Some 1%nat; None; Some 0%nat] /\ made demo_config.2 = 2%nat /\
  exists s', Done 1 demo_config.2 = (Ret tt, s') /\ (length (buffers s') <= max s')%nat.
Proof.
  destruct (Wait_bounds_memory 2 [1%nat; 1%nat; 1%nat] demo_config) as (_ & _ & _ & Hd & _).
  - by int64.
  - apply (run_schedule_reachable bstep demo_schedule). vm_compute. reflexivity.
  - split_and!; [vm_compute; reflexivity..|].
    apply (Hd 0%nat (MkGoroutine (Some (WDone 1)) 0) 1%nat); vm_compute; reflexivity.
Defined.

Definition demo_end_schedule : list nat := first_schedule bstep 60 demo_start.

Lemma Wait_comes_to_an_end_witness :
  exists c, run_schedule bstep demo_end_schedule demo_start = Some c /\
    (length demo_end_schedule <= 39)%nat /\ Forall (fun t => done t = true) c.1.
Proof.
  destruct (run_schedule_end bstep demo_end_schedule demo_start) as (c & Hc & Hn & Hs);
    [vm_compute; reflexivity|].
  destruct (Wait_comes_to_an_end 2 [1%nat; 1%nat; 1%nat] (length demo_end_schedule) c
    ltac:(by int64) Hn) as [Hb Hend].
  exists c. split; [done|]. split; [exact Hb|by apply Hend].
Defined.
