(* ===== verification/Cache.v ===== *)
(** * The read-only cache ([cache/fs.go], [cache/dir.go])

    [ReadOnlyFS] opens files of a source file system through a copy in a cache
    file system that it fills on the first [Open], one path at a time under a
    path lock.  The two file systems live in a state of their own; the cache
    adds the infos it has seen, the path locks, and the offsets of the
    directories it has opened. *)
From S2P Require Import Prelude.
From S2P Require Import Paths.
From S2P Require Import Errors.
From S2P Require Import Modes.
From S2P Require Import HackFS.
From S2P Require Import PathLock.

Local Open Scope string_scope.

(** The mutable fields of a [ReadOnlyFS] and of its [dir]s, and what the file
    systems keep. *)
Record cworld (U : Type) := MkCWorld {
  cacheInfo : gmap string (option FileInfo);
  pathlock : Mutex;
  dir_offsets : list Z;
  below : U
}.
Arguments MkCWorld {U}.
Arguments cacheInfo {U}.
Arguments pathlock {U}.
Arguments dir_offsets {U}.
Arguments below {U}.

Definition new_cworld {U} (u : U) : cworld U := MkCWorld ∅ New [] u.

(** [ReadOnlyFS] with [ReadOnlyOptions]; a [RetainData] of [nil] is replaced by
    one that keeps everything. *)
Record ReadOnlyFS := MkReadOnlyFS {
  sourceFS : FS;
  cacheFS : FS;
  RetainData : string -> FileInfo -> bool
}.
Definition NewReadOnlyFS (source cache : FS) (retain : option (string -> FileInfo -> bool)) :
    option ReadOnlyFS * err :=
  (Some (MkReadOnlyFS source cache (default (fun _ _ => true) retain)), None).

Section cache.
Context {U : Type} (methods : FS -> FSOps U) (fuel : nat).
Notation W := (cworld U).
Implicit Types (fs : ReadOnlyFS) (name : string).

Definition in_below {A} (m : M U A) : M W A :=
  zoom below (fun u w => MkCWorld (cacheInfo w) (pathlock w) (dir_offsets w) u) m.
Definition in_pathlock {A} (m : M Mutex A) : M W A :=
  zoom pathlock (fun l w => MkCWorld (cacheInfo w) l (dir_offsets w) (below w)) m.

(** A file of the source or of the cache, as it is. *)
Definition pass_file (f : File U) : File W :=
  MkFile W (in_below (f_Stat f)) (fun len => in_below (f_Read f len)) (in_below (f_Close f))
    ((fun m len off => in_below (m len off)) <$> f_ReadAt f)
    ((fun m b => in_below (m b)) <$> f_Write f)
    ((fun m b off => in_below (m b off)) <$> f_WriteAt f)
    ((fun m n => in_below (m n)) <$> f_ReadDir f)
    ((fun m off whence => in_below (m off whence)) <$> f_Seek f)
    (in_below <$> f_Sync f)
    ((fun m size => in_below (m size)) <$> f_Truncate f)
    ((fun m mode => in_below (m mode)) <$> f_Chmod f)
    ((fun m uid gid => in_below (m uid gid)) <$> f_Chown f)
    ((fun m at_ mt => in_below (m at_ mt)) <$> f_Chtimes f).
Definition pass_open (m : M U (option (File U) * err)) : M W (option (File W) * err) :=
  let* (f, e) := in_below m in ret (pass_file <$> f, e).

(** ** [Stat] *)

(** The assertion that the stored value is a [FileInfo] fails on [nil]. *)
Definition load_info name : M W (option FileInfo) :=
  m <- gets cacheInfo ;;
  match m !! name with
  | None => ret None
  | Some (Some info) => ret (Some info)
  | Some None => panic "interface conversion: interface is nil, not fs.FileInfo"
  end.
Definition store_info name (info : option FileInfo) : M W unit :=
  modify (fun w => MkCWorld (<[name := info]> (cacheInfo w)) (pathlock w) (dir_offsets w) (below w)).

Definition Stat fs name : M W (option FileInfo * err) :=
  cached <- load_info name ;;
  match cached with
  | Some info => ret (Some info, None)
  | None =>
      let* (f, e) := in_below (fs_Open (methods (sourceFS fs)) name) in
      match e with
      | Some e => ret (None, Some e)
      | None =>
          not_nil f (fun f =>
            deferred (in_below (close f))
              (let* (info, e) := in_below (f_Stat f) in
               match e with
               | Some e => ret (None, Some e)
               | None => store_info name info ;;; ret (info, None)
               end))
      end
  end.

(** ** Directories *)
Definition new_dir : M W nat := fun w =>
  (Ret (length (dir_offsets w)), MkCWorld (cacheInfo w) (pathlock w) (dir_offsets w ++ [0%Z]) (below w)).
Definition get_offset (d : nat) : M W Z := gets (fun w => default 0%Z (dir_offsets w !! d)).
Definition set_offset (d : nat) (off : Z) : M W unit :=
  modify (fun w => MkCWorld (cacheInfo w) (pathlock w) (<[d := off]> (dir_offsets w)) (below w)).

(** The slice expression [entries[lo:hi]]. *)
Definition slice_entries (entries : list DirEntry) (lo hi : Z) : M W (list DirEntry) :=
  if ((lo <? 0) || (hi <? lo) || (Z.of_nat (length entries) <? hi))%Z
  then panic "slice bounds out of range"
  else ret (take (Z.to_nat (hi - lo)) (drop (Z.to_nat lo) entries)).

Definition dir_ReadDir fs name (d : nat) (n : Z) : M W (list DirEntry * err) :=
  let* (entries, e) := in_below (ReadDir methods fuel (sourceFS fs) name) in
  match e with
  | Some e => ret ([], Some e)
  | None =>
      offset <- get_offset d ;;
      let len := Z.of_nat (length entries) in
      if ((0 <? n) && (offset =? len))%Z then ret ([], Some EOF)
      else if ((n <=? 0) || (len <? add64 offset n))%Z then
        set_offset d n ;;; ret (entries, None)
      else
        entries <- slice_entries entries offset (add64 offset n) ;;
        set_offset d (add64 offset n) ;;;
        ret (entries, None)
  end.

Definition dir_Read name (_ : Z) : M W (list byte * err) :=
  ret ([], Some (PathError "read" name ErrIsDir)).
Definition dir_Close : M W err := ret None.

(** [hackpadfs.Stat] calls the [Stat] of the [ReadOnlyFS]. *)
Definition dir_Stat fs name : M W (option FileInfo * err) := Stat fs name.

Definition dir_file fs name (d : nat) : File W :=
  MkFile W (dir_Stat fs name) (dir_Read name) dir_Close None None None
    (Some (dir_ReadDir fs name d)) None None None None None None.

(** ** [Open] *)
Definition copyFile fs name (f : File U) (info : FileInfo) : M U err :=
  let parentName := Dir name in
  e <- MkdirAll methods fuel (cacheFS fs) parentName 448 ;;
  match e with
  | Some e => ret (Some (PathError "open" parentName e))
  | None =>
      let* (destFile, e) := match fs_OpenFile (methods (cacheFS fs)) with
        | Some openFile =>
            openFile name (Z.lor FlagWriteOnly (Z.lor FlagCreate FlagTruncate)) (fi_Mode info)
        | None => panic "a writableFS has OpenFile"
        end in
      match e with
      | Some e => ret (Some e)
      | None =>
          (* the deferred Close of a nil file panics as well *)
          not_nil destFile (fun destFile =>
            deferred (close destFile)
              match f_Write destFile with
              | None => ret (Some (PathError "open" name ErrPermission))
              | Some write => io_Copy fuel 512 write f
              end)
      end
  end.

(** The file of the source that was not in the cache. *)
Definition open_source fs name (info : FileInfo) : M U (option (File U) * err) :=
  let* (f, e) := fs_Open (methods (sourceFS fs)) name in
  match e with
  | Some e => ret (None, Some e)
  | None =>
      if negb (RetainData fs name info) then ret (f, None)
      else
        not_nil f (fun f =>
          e <- copyFile fs name f info ;;
          match e with
          | Some e => close f ;;; ret (None, Some e)
          | None =>
              let* (_, seekErr) := SeekFile f 0 0 in
              match seekErr with
              | Some _ => close f ;;; fs_Open (methods (cacheFS fs)) name
              | None => ret (Some f, None)
              end
          end)
  end.

(** What [Open] does while it holds the lock of the path. *)
Definition open_locked fs name (info : FileInfo) : M U (option (File U) * err) :=
  let* (f, e) := fs_Open (methods (cacheFS fs)) name in
  match e with
  | None => ret (f, None)
  | Some e => if negb (error_Is e ErrNotExist) then ret (None, Some e) else open_source fs name info
  end.

Definition Open fs name : M W (option (File W) * err) :=
  let* (info, e) := Stat fs name in
  match e with
  | Some e => ret (None, Some e)
  | None =>
      not_nil info (fun info =>
        if IsDir (fi_Mode info) then d <- new_dir ;; ret (Some (dir_file fs name d), None)
        else
          in_pathlock (Lock name) ;;;
          deferred (in_pathlock (Unlock name)) (pass_open (open_locked fs name info)))
  end.
End cache.
