(* ===== verification/CacheThms.v ===== *)
(** * Properties of the read-only cache

    What is cached stays, the path locks are released, the copy is exact; and
    reading a directory by pages need not come to an end. *)
From S2P Require Import Prelude.
From S2P Require Import Paths.
From S2P Require Import Errors.
From S2P Require Import Modes.
From S2P Require Import HackFS.
From S2P Require Import Frames.
From S2P Require Import CopySpec.
From S2P Require Import PathLock.
From S2P Require Import Cache.

Local Open Scope string_scope.

(** ** The calls of a client *)
Section calls.
Context {U : Type} (methods : FS -> FSOps U) (fuel : nat) (fs : ReadOnlyFS).
Notation W := (cworld U).
Implicit Types (w : W) (name : string).

(** Calls of the cache, of the directories it opened, and of anything below:
    files that were opened, or other users of the two file systems. *)
Inductive call :=
  | CStat name
  | COpen name
  | CReadDir name (d : nat) (n : Z)
  | CBelow (m : M U unit).

Definition run_call (c : call) : M W unit :=
  match c with
  | CStat name => _ <- Stat methods fs name ;; ret tt
  | COpen name => _ <- Open methods fuel fs name ;; ret tt
  | CReadDir name d n => _ <- dir_ReadDir methods fuel fs name d n ;; ret tt
  | CBelow m => in_below m
  end.

(** A call that panics leaves its world to the next one. *)
Fixpoint after_calls (cs : list call) w : W :=
  match cs with [] => w | c :: cs => after_calls cs (snd (run_call c w)) end.

(** ** What is cached stays *)
Definition info_kept w w' : Prop :=
  forall name info, cacheInfo w !! name = Some info -> cacheInfo w' !! name = Some info.
#[local] Instance info_kept_preorder : PreOrder info_kept.
Proof. split; unfold info_kept; repeat intro; eauto. Qed.
Definition kept_except name w w' : Prop :=
  forall name', name' <> name -> cacheInfo w' !! name' = cacheInfo w !! name'.
#[local] Instance kept_except_preorder name : PreOrder (kept_except name).
Proof. split; [by intros x n _|]. intros x y z H1 H2 n Hn. by rewrite H2, H1. Qed.

(** What does not touch the table. *)
Definition same_info {A} (m : M W A) : Prop := forall w, cacheInfo (snd (m w)) = cacheInfo w.
Lemma same_info_kept {A} (m : M W A) : same_info m -> keeps info_kept m.
Proof. intros H w name info. by rewrite H. Qed.
Lemma same_info_except {A} name (m : M W A) : same_info m -> keeps (kept_except name) m.
Proof. intros H w name' _. by rewrite H. Qed.
Lemma in_below_same {A} (m : M U A) : same_info (in_below m).
Proof. intros w. unfold in_below, zoom. by destruct (m (below w)). Qed.
Lemma in_pathlock_same {A} (m : M Mutex A) : same_info (in_pathlock (U := U) m).
Proof. intros w. unfold in_pathlock, zoom. by destruct (m (pathlock w)). Qed.
Lemma new_dir_same : same_info (new_dir (U := U)).
Proof. done. Qed.
Lemma set_offset_same d off : same_info (set_offset (U := U) d off).
Proof. done. Qed.
#[local] Hint Resolve same_info_kept same_info_except in_below_same in_pathlock_same new_dir_same
  set_offset_same : go_wf.

Lemma store_info_except name info : keeps (kept_except name) (store_info (U := U) name info).
Proof. intros w name' Hne. simpl. by rewrite lookup_insert_ne. Qed.
#[local] Hint Resolve store_info_except : go_wf.

Lemma Stat_except name : keeps (kept_except name) (Stat methods fs name).
Proof. unfold Stat, load_info. keeps. Qed.

Lemma Stat_cached name info w :
  cacheInfo w !! name = Some (Some info) -> Stat methods fs name w = (Ret (Some info, None), w).
Proof. intros E. unfold Stat, load_info. rewrite bind_assoc, bind_gets. by rewrite E. Qed.

Lemma Stat_kept name : keeps info_kept (Stat methods fs name).
Proof.
  intros w. destruct (cacheInfo w !! name) as [[info|]|] eqn:E.
  - by rewrite (Stat_cached name info) by done.
  - unfold Stat, load_info. rewrite bind_assoc, bind_gets. by rewrite E.
  - intros name' info' E'. rewrite (Stat_except name w name'); [done|]. congruence.
Qed.
#[local] Hint Resolve Stat_kept : go_wf.

Lemma run_call_kept c : keeps info_kept (run_call c).
Proof.
  destruct c; simpl; unfold Open, dir_ReadDir, get_offset, slice_entries, pass_open; keeps.
Qed.

Lemma after_calls_kept cs w : info_kept w (after_calls cs w).
Proof.
  revert w. induction cs as [|c cs IH]; intros w; [reflexivity|].
  simpl. etransitivity; [apply run_call_kept|apply IH].
Qed.

(** ** The path locks *)
Definition unlocked w : Prop := wf (pathlock w) /\ forall path, ~ locked (pathlock w) path.

Lemma Lock_free name (s : Mutex) :
  wf s -> ~ locked s name ->
  exists s', Lock name s = (Ret tt, s') /\ wf s' /\ forall p, locked s' p <-> p = name \/ locked s p.
Proof.
  intros Hwf Hn. destruct (find_mutex_run name s Hwf) as (mu & s1 & E & Hwf1 & Hp & _ & Hl).
  unfold Lock. run E. destruct (mu_Lock mu s1) as [r s2] eqn:E2.
  apply mu_Lock_run in E2 as [(Hm & _)|(Hm & -> & ->)].
  - exfalso. apply Hn, Hl. by exists mu.
  - eexists. split; [done|]. split; [by apply set_mutex_wf|]. intros p.
    rewrite (locked_set s1 name mu true p Hwf1 Hp), Hl. destruct (decide (p = name)); naive_solver.
Qed.
Lemma Unlock_held name (s : Mutex) :
  wf s -> locked s name ->
  exists s', Unlock name s = (Ret tt, s') /\ wf s' /\ forall p, locked s' p <-> p <> name /\ locked s p.
Proof.
  intros Hwf Hl. destruct (known_mutex_run name s Hl) as (mu & E & Hp). unfold Unlock. run E.
  apply (locked_unique s name mu Hp) in Hl as Hm. rewrite (mu_Unlock_run s mu Hm).
  eexists. split; [done|]. split; [by apply set_mutex_wf|]. intros p.
  rewrite (locked_set s name mu false p Hwf Hp). naive_solver.
Qed.

Definition same_lock w w' : Prop := pathlock w' = pathlock w.
#[local] Instance same_lock_preorder : PreOrder same_lock.
Proof. split; unfold same_lock; repeat intro; congruence. Qed.
Lemma in_below_lock {A} (m : M U A) : keeps same_lock (in_below m).
Proof. intros w. unfold in_below, zoom, same_lock. by destruct (m (below w)). Qed.
Lemma store_info_lock name info : keeps same_lock (store_info (U := U) name info).
Proof. by intros w. Qed.
#[local] Hint Resolve in_below_lock store_info_lock : go_wf.
Lemma Stat_lock name : keeps same_lock (Stat methods fs name).
Proof. unfold Stat, load_info. keeps. Qed.
Lemma pass_open_lock m : keeps same_lock (pass_open (U := U) m).
Proof. unfold pass_open. keeps. Qed.

Definition releases {A} (r : outcome A) w' : Prop :=
  match r with Ret _ | Panic _ => unlocked w' | _ => True end.

(** Whatever runs under the lock of a path, the path is free afterwards. *)
Lemma under_lock {A} name (body : M W A) w r w' :
  keeps same_lock body -> unlocked w ->
  (in_pathlock (Lock name) ;;; deferred (in_pathlock (Unlock name)) body) w = (r, w') -> releases r w'.
Proof.
  intros Hb [Hwf Hn]. destruct (Lock_free name (pathlock w) Hwf (Hn name)) as (s1 & E1 & Hwf1 & Hl1).
  unfold bind, in_pathlock at 1, zoom. rewrite E1. set (w1 := MkCWorld _ s1 _ _). unfold deferred.
  specialize (Hb w1). unfold same_lock in Hb. simpl in Hb.
  assert (Hend : forall w2 : W, pathlock w2 = s1 -> exists w3,
    in_pathlock (Unlock name) w2 = (Ret tt, w3) /\ unlocked w3).
  { intros w2 E2. destruct (Unlock_held name s1 Hwf1) as (s3 & E3 & Hwf3 & Hl3); [by apply Hl1; left|].
    unfold in_pathlock, zoom. rewrite E2, E3. eexists. split; [done|]. split; [done|].
    intros p [Hne [?|Hp]%Hl1]%Hl3; [done|]. by apply (Hn p). }
  destruct (body w1) as [[a|why| |] w2]; simpl in Hb; [..|by intros [= <- <-]|by intros [= <- <-]];
    destruct (Hend w2 Hb) as (w3 & E3 & Hw3); rewrite (bind_Ret _ _ _ _ _ E3); by intros [= <- <-].
Qed.

(** ** Reading a directory *)

(** One page, when the offset is a multiple of the page size and the page size
    does not divide the number of entries. *)
Lemma dir_ReadDir_page name d n entries q w :
  (forall u, exists u', ReadDir methods fuel (sourceFS fs) name u = (Ret (entries, None), u')) ->
  (0 < n)%Z -> ~ (n | Z.of_nat (length entries))%Z -> is_int64 (Z.of_nat (length entries) + n + n) ->
  d < length (dir_offsets w) -> default 0%Z (dir_offsets w !! d) = (q * n)%Z ->
  (0 <= q * n <= Z.of_nat (length entries) + n)%Z ->
  exists page q' w', dir_ReadDir methods fuel fs name d n w = (Ret (page, None), w') /\ page <> [] /\
    d < length (dir_offsets w') /\ default 0%Z (dir_offsets w' !! d) = (q' * n)%Z /\
    (0 <= q' * n <= Z.of_nat (length entries) + n)%Z.
Proof.
  intros Hsrc Hn Hdiv Hint Hd Eq Hq. unfold dir_ReadDir. destruct (Hsrc (below w)) as [u' Eu].
  unfold bind at 1, in_below, zoom. rewrite Eu. unfold get_offset. rewrite bind_gets. cbv beta.
  cbn [dir_offsets]. rewrite Eq. set (len := Z.of_nat (length entries)) in *. cbv zeta.
  assert (Hne : (q * n <> len)%Z) by (intros E; apply Hdiv; by exists q).
  assert (Hnil : entries <> []) by (intros ->; apply Hdiv, Z.divide_0_r).
  rewrite (proj2 (Z.ltb_lt 0 n) Hn), (proj2 (Z.eqb_neq _ _) Hne), (proj2 (Z.leb_gt n 0) Hn).
  cbn [andb orb]. rewrite add64_id by int64. unfold set_offset.
  destruct (Z.ltb_spec len (q * n + n)) as [Hlt|Hge].
  - exists entries, 1%Z. eexists. split; [done|]. simpl. rewrite length_insert.
    rewrite list_lookup_insert_eq by done. simpl. split_and!; [done..|lia|lia|lia].
  - unfold slice_entries. fold len.
    assert (((q * n <? 0) || (q * n + n <? q * n) || (len <? q * n + n))%Z = false) as ->
      by (rewrite !orb_false_iff, !Z.ltb_ge; lia).
    rewrite bind_ret_l. eexists _, (q + 1)%Z, _. split; [done|]. simpl. rewrite length_insert.
    rewrite list_lookup_insert_eq by done. simpl. split_and!; [|done|lia|lia|lia].
    intros E. apply (f_equal length) in E. rewrite length_take, length_drop in E. simpl in E. lia.
Qed.
End calls.

(** ** Properties *)
Section properties.
Context {U : Type} (methods : FS -> FSOps U) (fuel : nat) (fs : ReadOnlyFS).
Notation W := (cworld U).

(** C32: what the cache has said about a file it keeps saying: once [Stat] or
    [Open] has stored the info of a name, no later calls of the cache, of its
    directories, or of anything below it change what [Stat] returns, and it
    returns without calling the source. *)
Theorem Stat_is_stable name info cs (w : W) :
  cacheInfo w !! name = Some (Some info) ->
  let w' := after_calls methods fuel fs cs w in
  Stat methods fs name w' = (Ret (Some info, None), w').
Proof. intros E. apply Stat_cached. by apply after_calls_kept. Qed.

(** [Open] leaves no path locked, whether it returns a file or an error or
    the file systems below panic. *)
Theorem Open_releases_path name (w : W) r w' :
  unlocked w -> Open methods fuel fs name w = (r, w') ->
  releases r w'.
Proof.
  intros Hu. unfold Open, bind at 1. pose proof (Stat_lock methods fs name w) as Hl. unfold same_lock in Hl.
  assert (Hsame : forall w1 : W, pathlock w1 = pathlock w -> unlocked w1) by (unfold unlocked; by intros w1 ->).
  destruct (Stat methods fs name w) as [[[info e]|?| |] w1]; simpl in Hl;
    [|intros [= <- <-]; (done || by apply Hsame)..].
  destruct e as [e|]; [intros [= <- <-]; by apply Hsame|].
  destruct info as [info|]; simpl; [|intros [= <- <-]; by apply Hsame].
  destruct (IsDir (fi_Mode info)); [intros [= <- <-]; by apply Hsame|].
  intros E. eapply under_lock, E; [apply pass_open_lock|by apply Hsame].
Qed.

(** Filling the cache copies exactly: when the parents can be made and the
    file created, and the source ends with [io.EOF] and the destination takes
    what it is given, then all that the source had is written, the destination
    is closed, and there is no error. *)
Theorem copyFile_copies_all name (f : File U) info (u u1 u2 : U) destFile write I data :
  MkdirAll methods fuel (cacheFS fs) (Dir name) 448 u = (Ret None, u1) ->
  (exists openFile, fs_OpenFile (methods (cacheFS fs)) = Some openFile /\
    openFile name (Z.lor FlagWriteOnly (Z.lor FlagCreate FlagTruncate)) (fi_Mode info) u1 =
      (Ret (Some destFile, None), u2)) ->
  f_Write destFile = Some write ->
  copies f write 512 I -> I u2 data [] -> length data < fuel ->
  (forall v, exists e v', f_Close destFile v = (Ret e, v')) ->
  exists u3 e u4, I u3 [] data /\ f_Close destFile u3 = (Ret e, u4) /\
    copyFile methods fuel fs name f info u = (Ret None, u4).
Proof.
  intros Em (openFile & Eo & E2) Ew Hc HI Hf Hclose. unfold copyFile. run Em. rewrite Eo. run E2.
  simpl not_nil. rewrite Ew. unfold deferred.
  destruct (io_Copy_all f write 512 I fuel u2 data [] Hc HI Hf) as (u3 & E3 & HI3). rewrite E3.
  destruct (Hclose u3) as (e & u4 & E4). exists u3, e, u4. split_and!; [done..|].
  unfold close. by rewrite bind_assoc; run E4.
Qed.

(** Reading a directory by pages: [k] calls of [ReadDir(n)]. *)
Fixpoint read_pages (k : nat) name (d : nat) (n : Z) : M W (list (list DirEntry * err)) :=
  match k with
  | 0 => ret []
  | S k => r <- dir_ReadDir methods fuel fs name d n ;; rs <- read_pages k name d n ;; ret (r :: rs)
  end.

(** C40: reading a directory by pages does not come to an end unless the size of
    the pages divides the number of entries: each of any number of calls of
    [ReadDir(n)] returns entries and no error, so [io.EOF] never comes. *)
Theorem ReadDir_pages_never_end name d n entries k (w : W) :
  (forall u, exists u', ReadDir methods fuel (sourceFS fs) name u = (Ret (entries, None), u')) ->
  (0 < n)%Z -> ~ (n | Z.of_nat (length entries))%Z -> is_int64 (Z.of_nat (length entries) + n + n) ->
  d < length (dir_offsets w) -> default 0%Z (dir_offsets w !! d) = 0%Z ->
  exists rs w', read_pages k name d n w = (Ret rs, w') /\ length rs = k /\
    Forall (fun r => snd r = None /\ fst r <> []) rs.
Proof.
  intros Hsrc Hn Hdiv Hint Hd H0.
  assert (Hoff : exists q, default 0%Z (dir_offsets w !! d) = (q * n)%Z /\
    (0 <= q * n <= Z.of_nat (length entries) + n)%Z) by (exists 0%Z; lia).
  clear H0. revert w Hd Hoff. induction k as [|k IH]; intros w Hd (q & Eq & Hq); [by eexists [], w|].
  destruct (dir_ReadDir_page methods fuel fs name d n entries q w) as (page & q' & w1 & E & Hp & Hd1 & Eq1 & Hq1);
    try done.
  destruct (IH w1 Hd1) as (rs & w2 & E2 & El & Hrs); [by exists q'|].
  exists ((page, None) :: rs), w2. cbn [read_pages]. run E. run E2. simpl. split_and!; [done|lia|].
  by constructor.
Qed.
End properties.

(** ** The theorems at concrete inputs

    A source with one directory of three entries and one file, and a cache that
    takes one file; their state is what is left to read and what was written. *)
Definition demo_state : Type := list byte * list byte.

Definition demo_entries : list DirEntry := 
  (fun name => MkEntry name 0 (Some (MkInfo name 3 0 0), None)) <$> ["a"; "b"; "c"].
Definition demo_file : File demo_state :=
  MkFile demo_state (ret (Some (MkInfo "a" 3 0 0), None))
    (fun _ u => (Ret (fst u, Some EOF), ([], snd u))) (ret None)
    None (Some (fun b u => (Ret (Z.of_nat (length b), None), (fst u, snd u ++ b)%list)))
    None None None None None None None None.
Definition demo_ops : FSOps demo_state :=
  MkOps demo_state (fun _ => ret (Some demo_file, None)) None
    (Some (fun _ _ _ => ret (Some demo_file, None))) None (Some (fun _ _ => ret None))
    None None None None None None None None None (Some (fun _ => ret (demo_entries, None)))
    None None None None.
Definition demo_methods (_ : FS) : FSOps demo_state := demo_ops.
Definition demo_fs : ReadOnlyFS := MkReadOnlyFS (Other 0) (Other 1) (fun _ _ => true).
Definition demo_info : FileInfo := MkInfo "a" 3 0 0.
Definition demo_data : list byte := [Byte.x61; Byte.x62; Byte.x63].
Definition demo_world : cworld demo_state :=
  MkCWorld {["a" := Some demo_info]} New [0%Z] (demo_data, []).

Lemma demo_copies :
  copies demo_file (fun b u => (Ret (Z.of_nat (length b), None), (fst u, snd u ++ b)%list)) 512
    (fun u unread written => u = (unread, written)).
Proof.
  split.
  - intros u unread written ->. exists unread, [], (Some EOF). eexists. split; [done|].
    rewrite app_nil_r. auto.
  - intros u unread written p -> _. by eexists.
Qed.

Lemma Stat_is_stable_witness :
  let w' := after_calls demo_methods 5 demo_fs [COpen "b"; CStat "c"; CBelow (fun u => (Panic "", u))] demo_world in
  Stat demo_methods demo_fs "a" w' = (Ret (Some demo_info, None), w').
Proof. exact (Stat_is_stable demo_methods 5 demo_fs "a" demo_info _ demo_world eq_refl). Defined.

Lemma Open_releases_path_witness :
  let '(r, w') := Open demo_methods 5 demo_fs "a" demo_world in
  (exists f, r = Ret (Some f, None)) /\ unlocked w'.
Proof.
  destruct (Open demo_methods 5 demo_fs "a" demo_world) as [r w'] eqn:E.
  assert (unlocked demo_world) as Hu.
  { split; [apply (inv_wf false ([], New)), (lock_inv_start false [])|].
    - by constructor.
    - intros p (mu & Hp & _). by vm_compute in Hp. }
  pose proof (Open_releases_path demo_methods 5 demo_fs "a" demo_world r w' Hu E) as Hr.
  vm_compute in E. injection E as <- <-. split; [by eexists|exact Hr].
Defined.

Lemma copyFile_copies_all_witness :
  exists u3 e u4, u3 = ([], demo_data) /\ f_Close demo_file u3 = (Ret e, u4) /\
    copyFile demo_methods 5 demo_fs "d/a" demo_file demo_info (demo_data, []) = (Ret None, u4).
Proof.
  eapply (copyFile_copies_all demo_methods 5 demo_fs "d/a" demo_file demo_info (demo_data, [])
    (demo_data, []) (demo_data, []) demo_file _ (fun u unread written => u = (unread, written)) demo_data).
  - reflexivity.
  - eexists. split; reflexivity.
  - reflexivity.
  - apply demo_copies.
  - reflexivity.
  - simpl. lia.
  - intros v. by do 2 eexists.
Defined.

Lemma ReadDir_pages_never_end_witness :
  exists rs w', read_pages demo_methods 5 demo_fs 10 "." 0 2 demo_world = (Ret rs, w') /\
    length rs = 10 /\ Forall (fun r => snd r = None /\ fst r <> []) rs.
Proof.
  apply (ReadDir_pages_never_end demo_methods 5 demo_fs "." 0 2 demo_entries).
  - intros u. by eexists.
  - done.
  - intros [q Hq]. simpl in Hq. lia.
  - unfold is_int64, int64_min, int64_max; vm_compute; split; discriminate.
  - exact Nat.lt_0_1.
  - reflexivity.
Defined.
