(* ===== verification/TarFS.v ===== *)
(** * Unpacking an archive ([tar/fs.go])

    [ReaderFS] unpacks a tar archive into a file system while it is already in
    use.  One goroutine reads the archive; it hands directories and small files
    to goroutines of their own, and they report the first error through a
    channel.  [Open] waits for its file.

    What a goroutine does between two operations on what the goroutines share
    (the channels, the wait group, the archive) is one step, with all its calls
    of the file system below.  The buffers come from the pools of [BufferPool],
    which never let anybody wait for ever, and waiting for a path is [PubSub]:
    both are as good as immediate here. *)
From stdpp Require Import relations.
From S2P Require Import Prelude.
From S2P Require Import Paths.
From S2P Require Import Errors.
From S2P Require Import Modes.
From S2P Require Import HackFS.
From S2P Require Import Conc.

Local Open Scope string_scope.

(** ** Paths *)
Definition resolvePath (p : string) : string :=
  let p := Clean p in
  let p := TrimPrefix p "/" in
  if String.eqb p "" then "." else p.

(** ** The archive

    What [tar.Reader] delivers: a header with the bytes that follow it and how
    reading those ends ([None]: [io.EOF]); after the last entry, what [Next]
    returns. *)
Record tar_entry := MkTarEntry {
  h_Name : string;
  h_Mode : Z;
  h_data : list byte;
  h_end : err
}.

(** What a background goroutine was started for. *)
Inductive job :=
  | DirJob (p : string) (mode : Z)
  | FileJob (p : string) (mode : Z) (data : list byte).

(** What the goroutines share.  [errs] is a channel for one error, [wg] the
    counter of the wait group; the context of the caller is done with an error;
    [started] are the background goroutines, in order. *)
Record tworld (U : Type) := MkTWorld {
  unarchived : U;
  emitted : gset string;
  errs : err;
  wg : nat;
  started : list job;
  callerCtx : err;
  readerDone : bool;
  unarchiveErr : err;
  entries : list tar_entry;
  entries_end : error;
  unread : list byte;
  unread_end : err;
  mkdirCache : gset string;
  closing : bool;
  wg_done : bool
}.
Arguments MkTWorld {U}.
Arguments unarchived {U}.
Arguments emitted {U}.
Arguments errs {U}.
Arguments wg {U}.
Arguments started {U}.
Arguments callerCtx {U}.
Arguments readerDone {U}.
Arguments unarchiveErr {U}.
Arguments entries {U}.
Arguments entries_end {U}.
Arguments unread {U}.
Arguments unread_end {U}.
Arguments mkdirCache {U}.
Arguments closing {U}.
Arguments wg_done {U}.

Definition mebibyte : Z := Z.shiftl 1 20.
Definition kibibyte : Z := Z.shiftl 1 10.
Definition maxMemory : Z := 20 * mebibyte.
Definition bigBufMemory : Z := 4 * mebibyte.
Definition smallBufMemory : Z := 150 * kibibyte.
Definition bigBufCount : Z := 2.
Definition smallBufCount : Z := (maxMemory - bigBufCount * bigBufMemory) / smallBufMemory.

Section tar.
Context {U : Type} (methods : FS -> FSOps U) (unarchiveFS : FS) (fuel : nat).
Notation W := (tworld U).
Implicit Types (w : W) (e : err).

Definition set_unarchived (u : U) w : W :=
  MkTWorld u (emitted w) (errs w) (wg w) (started w) (callerCtx w) (readerDone w) (unarchiveErr w)
    (entries w) (entries_end w) (unread w) (unread_end w) (mkdirCache w) (closing w) (wg_done w).
Definition set_emitted (ks : gset string) w : W :=
  MkTWorld (unarchived w) ks (errs w) (wg w) (started w) (callerCtx w) (readerDone w) (unarchiveErr w)
    (entries w) (entries_end w) (unread w) (unread_end w) (mkdirCache w) (closing w) (wg_done w).
Definition set_errs e w : W :=
  MkTWorld (unarchived w) (emitted w) e (wg w) (started w) (callerCtx w) (readerDone w) (unarchiveErr w)
    (entries w) (entries_end w) (unread w) (unread_end w) (mkdirCache w) (closing w) (wg_done w).
Definition set_wg (n : nat) w : W :=
  MkTWorld (unarchived w) (emitted w) (errs w) n (started w) (callerCtx w) (readerDone w) (unarchiveErr w)
    (entries w) (entries_end w) (unread w) (unread_end w) (mkdirCache w) (closing w) (wg_done w).
Definition set_started (js : list job) w : W :=
  MkTWorld (unarchived w) (emitted w) (errs w) (wg w) js (callerCtx w) (readerDone w) (unarchiveErr w)
    (entries w) (entries_end w) (unread w) (unread_end w) (mkdirCache w) (closing w) (wg_done w).
Definition set_ended (ctx : err) (done : bool) e w : W :=
  MkTWorld (unarchived w) (emitted w) (errs w) (wg w) (started w) ctx done e
    (entries w) (entries_end w) (unread w) (unread_end w) (mkdirCache w) (closing w) (wg_done w).
Definition cancel w : W :=
  set_ended (match callerCtx w with None => Some Canceled | c => c end) (readerDone w) (unarchiveErr w) w.
Definition set_entries (es : list tar_entry) w : W :=
  MkTWorld (unarchived w) (emitted w) (errs w) (wg w) (started w) (callerCtx w) (readerDone w)
    (unarchiveErr w) es (entries_end w) (unread w) (unread_end w) (mkdirCache w) (closing w) (wg_done w).
Definition set_unread (data : list byte) e w : W :=
  MkTWorld (unarchived w) (emitted w) (errs w) (wg w) (started w) (callerCtx w) (readerDone w)
    (unarchiveErr w) (entries w) (entries_end w) data e (mkdirCache w) (closing w) (wg_done w).
Definition set_mkdirCache (c : gset string) w : W :=
  MkTWorld (unarchived w) (emitted w) (errs w) (wg w) (started w) (callerCtx w) (readerDone w)
    (unarchiveErr w) (entries w) (entries_end w) (unread w) (unread_end w) c (closing w) (wg_done w).
Definition set_closing (c d : bool) w : W :=
  MkTWorld (unarchived w) (emitted w) (errs w) (wg w) (started w) (callerCtx w) (readerDone w)
    (unarchiveErr w) (entries w) (entries_end w) (unread w) (unread_end w) (mkdirCache w) c d.

Definition in_fs {A} (m : M U A) : M W A := zoom unarchived set_unarchived m.

(** A method of [baseFS]. *)
Definition base {A B} (m : option A) (k : A -> M U B) : M W B :=
  match m with Some m => in_fs (k m) | None => panic "not a baseFS" end.

(** ** Reading one file of the archive *)

(** [io.ReadFull] on the rest of the current entry. *)
Definition ReadFull (len : Z) : M W (list byte * err) :=
  rest <- gets unread ;; e <- gets unread_end ;;
  if (Z.of_nat (length rest) <? len)%Z then
    modify (set_unread [] e) ;;;
    ret (rest, Some (match e with
                     | Some e => e
                     | None => match rest with [] => EOF | _ => Errorf "unexpected EOF" [] end
                     end))
  else modify (set_unread (drop (Z.to_nat len) rest) e) ;;; ret (take (Z.to_nat len) rest, None).

(** [fullReader.Read] *)
Definition fullReader_Read (len : Z) : M W (list byte * err) :=
  let* (p, e) := ReadFull len in
  ret (p, if bool_decide (e = Some (Errorf "unexpected EOF" [])) then Some EOF else e).

(** A [fullReader] has the one method. *)
Definition fullReader : File W :=
  MkFile W (ret (None, None)) fullReader_Read (ret None) None None None None None None None None None None.

Definition Emit (key : string) : M W unit := modify (fun w => set_emitted ({[key]} ∪ emitted w) w).

(** The file that is being written. *)
Definition write_out (f : File U) (initial : list byte) (more : bool) : M W err :=
  match f_Write f with
  | None => ret (Some ErrNotImplemented)
  | Some write =>
      let* (_, e) := in_fs (write initial) in
      match e with
      | Some e => ret (WithMessage (Some e) "write: copying file")
      | None =>
          if negb more then ret None
          else
            e <- io_Copy fuel bigBufMemory (fun b => in_fs (write b)) fullReader ;;
            ret (WithMessage e "copybuf: copying file")
      end
  end.

(** [more] is whether there is a reader for the rest of the file.  When the body
    panics the file is closed, and as the result is still [nil] the path is
    emitted. *)
Definition writeFile (path : string) (mode : Z) (initial : list byte) (more : bool) : M W err :=
  let* (f, e) := base (fs_OpenFile (methods unarchiveFS)) (fun openFile =>
    openFile path (Z.lor FlagWriteOnly (Z.lor FlagCreate FlagTruncate)) mode) in
  match e with
  | Some e => ret (WithMessage (Some e) "opening destination file")
  | None =>
      not_nil f (fun f => fun w =>
        match write_out f initial more w with
        | (Ret e, w') =>
            (in_fs (close f) ;;;
             (match e with None => Emit path | Some _ => ret tt end) ;;;
             ret e) w'
        | (Panic why, w') => (in_fs (close f) ;;; Emit path ;;; panic why) w'
        | r => r
        end)
  end.

(** ** The background goroutines *)
Definition start_job (j : job) : M W unit :=
  modify (fun w => set_wg (S (wg w)) (set_started (started w ++ [j])%list w)).

Definition dir_work (p : string) (mode : Z) : M W err :=
  e <- base (fs_Mkdir (methods unarchiveFS)) (fun mkdir => mkdir p mode) ;;
  match e with
  | None => ret None
  | Some e =>
      if negb (error_Is e ErrExist) then ret (WithMessage (Some e) "copying dir")
      else
        e <- base (fs_Chmod (methods unarchiveFS)) (fun chmod => chmod p mode) ;;
        ret (WithMessage e "copying dir")
  end.
Definition job_work (j : job) : M W err :=
  match j with
  | DirJob p mode => dir_work p mode
  | FileJob p mode data => writeFile p mode data false
  end.

(** ** One entry, in the foreground *)
Definition cachedMkdirAll (path : string) (perm : Z) : M W err :=
  c <- gets mkdirCache ;;
  if bool_decide (path ∈ c) then ret None
  else
    e <- in_fs (MkdirAll methods fuel unarchiveFS path perm) ;;
    match e with
    | None => modify (set_mkdirCache ({[path]} ∪ c)) ;;; ret None
    | Some e => ret (Some e)
    end.

Definition readProcessFile (header : tar_entry) : M W err :=
  ctx <- gets callerCtx ;;
  match ctx with
  | Some e => ret (Some e)
  | None =>
      let p := resolvePath (h_Name header) in
      e <- cachedMkdirAll (Dir p) 448 ;;
      match e with
      | Some e => ret (WithMessage (Some e) "prepping base dir")
      | None =>
          if IsDir (h_Mode header) then start_job (DirJob p (h_Mode header)) ;;; ret None
          else
            let* (buf, e) := fullReader_Read smallBufMemory in
            match e with
            | Some EOF => start_job (FileJob p (h_Mode header) buf) ;;; ret None
            | None => writeFile p (h_Mode header) buf true
            | Some e => ret (Some e)
            end
      end
  end.

(** ** The goroutines *)
Inductive main_pc :=
  | MLoop
  | MNext
  | MProcess (header : tar_entry)
  | MClose
  | MSelect
  | MReturned (e : err)
  | MDone (e : err).

(** [select] takes the error, if there is one, or the closed channel; when both
    are ready, either. *)
Definition receive_error (pick_done : bool) : M W (option err) :=
  e <- gets errs ;; d <- gets wg_done ;;
  match e, (d : bool) with
  | Some e, false => modify (set_errs None) ;;; ret (Some (Some e))
  | Some e, true =>
      if pick_done then ret (Some None) else modify (set_errs None) ;;; ret (Some (Some e))
  | None, true => ret (Some None)
  | None, false => blocked
  end.

(** [readErr] and then the rest of [read]. *)
Definition read (pick_done : bool) (at_ : main_pc) : M W main_pc :=
  match at_ with
  | MLoop =>
      e <- gets errs ;;
      match e with
      | Some e => modify (set_errs None) ;;; ret (MReturned (Some e))
      | None => ret MNext
      end
  | MNext =>
      es <- gets entries ;;
      match es with
      | [] =>
          e <- gets entries_end ;;
          if bool_decide (e = EOF) then ret MClose
          else ret (MReturned (WithMessage (Some e) "next tar file"))
      | h :: es => modify (fun w => set_unread (h_data h) (h_end h) (set_entries es w)) ;;; ret (MProcess h)
      end
  | MProcess h =>
      e <- readProcessFile h ;;
      ret (match e with Some e => MReturned (Some e) | None => MLoop end)
  | MClose => modify (set_closing true false) ;;; ret MSelect
  | MSelect =>
      r <- receive_error pick_done ;;
      match r with Some e => ret (MReturned e) | None => blocked end
  | MReturned e =>
      modify (fun w => set_ended (callerCtx (cancel w)) true
                         (match e with Some e => Some e | None => unarchiveErr w end) w) ;;;
      ret (MDone e)
  | MDone e => blocked
  end.

Inductive job_pc := JStart | JSend (e : error) | JFinish | JDone.
#[export] Instance job_pc_eq_dec : EqDecision job_pc.
Proof. solve_decision. Defined.

(** A background goroutine; one that was not started yet is blocked. *)
Definition run_job (k : nat) (at_ : job_pc) : M W job_pc :=
  match at_ with
  | JStart =>
      js <- gets started ;;
      match js !! k with
      | None => blocked
      | Some j => e <- job_work j ;; ret (match e with Some e => JSend e | None => JFinish end)
      end
  | JSend e =>
      c <- gets errs ;;
      match c with Some _ => blocked | None => modify (set_errs (Some e)) ;;; ret JFinish end
  | JFinish =>
      n <- gets wg ;;
      match n with
      | 0 => panic "sync: negative WaitGroup counter"
      | S n => modify (set_wg n) ;;; ret JDone
      end
  | JDone => blocked
  end.

(** [wg.Wait(); close(done)] *)
Definition run_closer (closed : bool) : M W bool :=
  w <- gets id ;;
  if negb closed && closing w && Nat.eqb (wg w) 0
  then modify (set_closing true true) ;;; ret true else blocked.

(** The caller may cancel its context, once, at any time. *)
Definition run_caller (cancels : bool) : M W bool :=
  if cancels then modify cancel ;;; ret false else blocked.

Inductive goroutine :=
  | GMain (pick_done : bool) (at_ : main_pc)
  | GJob (k : nat) (at_ : job_pc)
  | GCloser (closed : bool)
  | GCaller (cancels : bool).

Definition tstep (t : goroutine) : M W goroutine :=
  match t with
  | GMain pick at_ => at_ <- read pick at_ ;; ret (GMain pick at_)
  | GJob k at_ => at_ <- run_job k at_ ;; ret (GJob k at_)
  | GCloser closed => c <- run_closer closed ;; ret (GCloser c)
  | GCaller cancels => c <- run_caller cancels ;; ret (GCaller c)
  end.

(** The goroutines, with room for one in the background per entry. *)
Definition start_world (u : U) (es : list tar_entry) (end_ : error) : W :=
  MkTWorld u ∅ None 0 [] None false None es end_ [] None ∅ false false.
Definition threads (pick : bool) (main : main_pc) (closed cancels : bool) (jobs : list job_pc) :
    list goroutine :=
  GMain pick main :: GCloser closed :: GCaller cancels :: imap GJob jobs.
Definition start (pick cancels : bool) (u : U) (es : list tar_entry) (end_ : error) :
    config (T := goroutine) (S := W) :=
  (threads pick MLoop false cancels (replicate (length es) JStart), start_world u es end_).

(** ** [NewReaderFS] and [Open]

    The arguments of the error message are left out. *)
Definition NewReaderFS_check (u : U) : outcome err * U :=
  (let* (dirEntries, e) := ReadDir methods fuel unarchiveFS "." in
   ret (match e, dirEntries with
        | None, [] => None
        | _, _ => WithMessage (Some (Errorf "root '.' of options.UnarchiveFS must be an empty directory, got: %T %v %s" [])) "tar"
        end)) u.

Definition Done : M W bool := gets readerDone.
Definition UnarchiveErr : M W err := gets unarchiveErr.

Definition Open (name : string) : M W (option (File U) * err) :=
  if negb (ValidPath name) then ret (None, Some (PathError "open" name ErrInvalid))
  else
    w <- gets id ;;
    if bool_decide (name ∈ emitted w) || bool_decide (callerCtx w <> None) then
      e <- UnarchiveErr ;;
      match e with
      | Some e => ret (None, Some (PathError "open" name e))
      | None => in_fs (fs_Open (methods unarchiveFS) name)
      end
    else blocked.
End tar.
