(* ===== verification/TarThms.v ===== *)
(** * Properties of the tar reader

    Where the names of an archive lead; that a file is written as the archive
    has it; that reading the archive always comes to an end, and what has been
    done when it did. *)
From stdpp Require Import relations.
From S2P Require Import Prelude.
From S2P Require Import Paths.
From S2P Require Import Errors.
From S2P Require Import Modes.
From S2P Require Import HackFS.
From S2P Require Import Frames.
From S2P Require Import CopySpec.
From S2P Require Import Conc.
From S2P Require Import TarFS.

Local Open Scope string_scope.
Local Open Scope list_scope.

(** ** Paths *)
Section paths.
Implicit Types (es out : list string) (name : string).

Abbreviation dotdots n := (replicate n ("..")).

Lemma rev_replicate n : rev (dotdots n) = dotdots n.
Proof. rewrite rev_alt. fold (reverse (dotdots n)). by rewrite reverse_replicate. Qed.

(** What [path.Clean] keeps: names, below a number of [".."] if the path is not
    rooted. *)
Lemma clean_loop_shape rooted es n out :
  forallb ValidString es = true -> Forall (fun e => contains_char slash e = false) es ->
  good_elems out -> (rooted = true -> n = 0) ->
  exists n' out', clean_loop rooted (rev out ++ dotdots n) es = dotdots n' ++ out' /\
    good_elems out' /\ (rooted = true -> n' = 0).
Proof.
  revert n out. induction es as [|e es IH]; intros n out Hv Hs Ho Hr; simpl.
  { exists n, out. rewrite rev_app_distr, rev_involutive, rev_replicate. done. }
  simpl in Hv. apply andb_true_iff in Hv as [Hve Hv]. apply Forall_cons in Hs as [Hse Hs].
  destruct (String.eqb_spec e "") as [->|He1]; [by apply IH|].
  destruct (String.eqb_spec e ".") as [->|He2]; [by apply IH|]. simpl.
  destruct (String.eqb_spec e "..") as [->|He3].
  - destruct out as [|x out _] using rev_ind.
    + simpl. destruct n as [|n].
      * destruct rooted; [apply (IH 0 []); auto|]. by apply (IH 1 []).
      * destruct rooted; [by specialize (Hr eq_refl)|]. simpl. by apply (IH (S (S n)) []).
    + rewrite rev_app_distr. simpl. apply Forall_app in Ho as [Ho Hx].
      rewrite Forall_singleton in Hx. apply good_elem_spec in Hx as (_ & _ & Hx & _).
      destruct (String.eqb_spec x ".."); [done|]. by apply IH.
  - specialize (IH n (out ++ [e]) Hv Hs). rewrite rev_app_distr in IH. apply IH; [|done].
    apply Forall_app. split; [done|]. rewrite Forall_singleton. by apply good_elem_spec.
Qed.

Lemma Clean_rooted name :
  ValidString name = true -> HasPrefix name "/" = true ->
  exists es, good_elems es /\ Clean name = "/" +:+ join_slash es.
Proof.
  intros Hv Hp. destruct (clean_loop_shape true (split_slash name) 0 []) as (n & es & E & Hes & Hn); [..|done|].
  { rewrite <- ValidString_join. by rewrite join_split. }
  { apply split_slash_no_slash. }
  { done. }
  rewrite Hn in E by done. simpl in E. exists es. split; [done|].
  unfold Clean. rewrite Hp, E. by destruct name.
Qed.
Lemma Clean_relative name :
  ValidString name = true -> HasPrefix name "/" = false ->
  exists n es, good_elems es /\ Clean name = of_elems (dotdots n ++ es).
Proof.
  intros Hv Hp. destruct (clean_loop_shape false (split_slash name) 0 []) as (n & es & E & Hes & _); [..|done|].
  { rewrite <- ValidString_join. by rewrite join_split. }
  { apply split_slash_no_slash. }
  { done. }
  simpl in E. unfold Clean. rewrite Hp, E. destruct name as [|c name]; [by exists 0, []|].
  exists n, es. split; [done|]. by destruct (dotdots n ++ es).
Qed.

(** A path of elements is not empty and does not begin with a slash. *)
Lemma of_elems_relative es :
  Forall (fun e => e <> "" /\ contains_char slash e = false) es ->
  TrimPrefix (of_elems es) "/" = of_elems es /\ of_elems es <> "".
Proof.
  destruct es as [|e es]; [done|]. intros [[He Hs] _]%Forall_cons. destruct e as [|c e]; [done|].
  simpl in Hs. apply orb_false_iff in Hs as [Hs _].
  unfold TrimPrefix. by destruct es; simpl; rewrite Hs.
Qed.
Lemma dotdots_relative n es :
  good_elems es -> Forall (fun e => e <> "" /\ contains_char slash e = false) (dotdots n ++ es).
Proof.
  intros Hes. apply Forall_app. split; [by apply Forall_replicate|].
  eapply Forall_impl; [exact Hes|]. intros e He%good_elem_spec. tauto.
Qed.

Lemma resolvePath_shape name :
  ValidString name = true ->
  exists n es, good_elems es /\ resolvePath name = of_elems (dotdots n ++ es) /\
    (HasPrefix name "/" = true -> n = 0).
Proof.
  intros Hv. unfold resolvePath. destruct (HasPrefix name "/") eqn:Hp.
  - destruct (Clean_rooted name Hv Hp) as (es & Hes & ->). exists 0, es. rewrite TrimPrefix_app.
    split; [done|]. split; [|done]. destruct es as [|e es]; [done|].
    pose proof (join_slash_nonempty (e :: es) ltac:(done) Hes).
    by destruct (String.eqb_spec (join_slash (e :: es)) "").
  - destruct (Clean_relative name Hv Hp) as (n & es & Hes & ->). exists n, es. split; [done|].
    destruct (of_elems_relative _ (dotdots_relative n es Hes)) as [-> Hne].
    destruct (String.eqb_spec (of_elems (dotdots n ++ es)) ""); done.
Qed.

Lemma elems_dotdots n es :
  good_elems es -> dotdots n ++ es <> [] -> split_slash (of_elems (dotdots n ++ es)) = dotdots n ++ es.
Proof.
  intros Hes Hne. pose proof (dotdots_relative n es Hes) as Hr.
  destruct (dotdots n ++ es) as [|e l]; [done|]. apply split_join; [done|].
  eapply Forall_impl; [exact Hr|]. naive_solver.
Qed.

(** [path.Dir] of a path that climbs. *)
Lemma clean_loop_dotdots n m es :
  clean_loop false (dotdots m) (dotdots n ++ es) = clean_loop false (dotdots (n + m)) es.
Proof.
  revert m. induction n as [|n IH]; intros m; [done|].
  transitivity (clean_loop false (dotdots (S m)) (dotdots n ++ es)); [by destruct m|].
  by rewrite IH, Nat.add_succ_r.
Qed.
Lemma Dir_dotdots n es e :
  good_elems es -> contains_char slash e = false ->
  Dir (of_elems (dotdots (S n) ++ es ++ [e])) = of_elems (dotdots (S n) ++ es).
Proof.
  intros Hes He. set (l := dotdots (S n) ++ es). rewrite app_assoc. fold l.
  assert (Hl : l <> []) by done.
  assert (Hr := dotdots_relative (S n) es Hes). fold l in Hr.
  assert (of_elems (l ++ [e]) = join_slash l +:+ "/" +:+ e) as ->.
  { transitivity (join_slash (l ++ [e])); [done|by rewrite join_slash_app]. }
  unfold Dir. rewrite Split_slash by done. unfold fst.
  assert (join_slash l +:+ "/" = join_slash (l ++ [""])) as ->.
  { by rewrite join_slash_app. }
  unfold Clean.
  assert (HasPrefix (join_slash (l ++ [""])) "/" = false) as -> by (simpl; by destruct ((dotdots n ++ es) ++ [""])).
  assert (String.eqb (join_slash (l ++ [""])) "" = false) as -> by (simpl; by destruct ((dotdots n ++ es) ++ [""])).
  rewrite split_join; [|done|].
  - unfold l. rewrite <- app_assoc, (clean_loop_dotdots (S n) 0), Nat.add_0_r, clean_loop_good by done.
    change (clean_loop false ?out [""]) with (rev out).
    by rewrite rev_app_distr, rev_involutive, rev_replicate.
  - apply Forall_app. split; [|by constructor]. eapply Forall_impl; [exact Hr|]. naive_solver.
Qed.
Lemma dotdots_not_valid n es : good_elems es -> ValidPath (of_elems (dotdots (S n) ++ es)) = false.
Proof.
  intros Hes. unfold ValidPath. rewrite elems_dotdots by done.
  assert (String.eqb (of_elems (dotdots (S n) ++ es)) "." = false) as -> by by destruct n, es.
  simpl. by rewrite andb_false_r.
Qed.

(** C30: an entry of an archive cannot name a file outside the destination: for
    any UTF-8 name of an entry the path is a valid one, or its name is relative
    and climbs above the root, and then no path of a file system is meant: the
    path is not valid, and neither is its directory, save for [".."] itself.  A
    name that is a valid path stays as it is. *)
Theorem resolvePath_stays_inside name :
  ValidString name = true ->
  (ValidPath (resolvePath name) = true \/
   HasPrefix name "/" = false /\ ValidPath (resolvePath name) = false /\
   (resolvePath name = ".." \/ ValidPath (Dir (resolvePath name)) = false)) /\
  (ValidPath name = true -> resolvePath name = name).
Proof.
  intros Hv. split.
  - destruct (resolvePath_shape name Hv) as (n & es & Hes & -> & Hn). destruct n as [|n].
    { left. by apply ValidPath_of_elems. }
    right. destruct (HasPrefix name "/"); [by specialize (Hn eq_refl)|]. split; [done|]. clear Hn Hv.
    split; [by apply dotdots_not_valid|].
    destruct es as [|e es _] using rev_ind.
    + destruct n as [|n]; [by left|]. right.
      rewrite (replicate_S_end (S n)), app_nil_r. rewrite (Dir_dotdots n [] ".." : _ -> _ -> Dir (of_elems (_ ++ [".."])) = _) by done.
      by apply dotdots_not_valid.
    + right. apply Forall_app in Hes as [Hes He]. rewrite Forall_singleton in He.
      apply good_elem_spec in He as (_ & _ & _ & _ & He).
      rewrite Dir_dotdots by done. by apply dotdots_not_valid.
  - intros Hp. destruct (ValidPath_cases name Hp) as [->|(es & e & Hes & He & _ & -> & Hd)]; [done|].
    assert (good_elems (es ++ [e])) as Hg by (apply Forall_app; by rewrite Forall_singleton).
    assert (of_elems (es ++ [e]) = join_slash (es ++ [e])) as Ej by by destruct es.
    unfold resolvePath. rewrite Ej, Clean_join by (done || by destruct es). rewrite <- Ej.
    destruct (of_elems_relative (es ++ [e]) (dotdots_relative 0 _ Hg)) as [-> Hne].
    by destruct (String.eqb_spec (of_elems (es ++ [e])) "").
Qed.
End paths.

(** ** Writing a file *)
Section writing.
Context {U : Type} (methods : FS -> FSOps U) (unarchiveFS : FS) (fuel : nat).
Abbreviation W := (tworld U).
Implicit Types (w : W) (u : U) (p : string) (data out : list byte).

Lemma in_fs_run {A} (m : M U A) w r u' : m (unarchived w) = (r, u') -> in_fs m w = (r, set_unarchived u' w).
Proof. intros E. unfold in_fs, zoom. by rewrite E. Qed.

(** A destination for the file at [p]: the directories can be made and the file
    opened in the states of [ready], the file takes what it is given ([holds]),
    and closing it leaves it at that ([stored]). *)
Record takes_file (p : string) (mode : Z) (f : File U) (ready : U -> Prop) (holds stored : U -> list byte -> Prop) :
    Prop := {
  takes_MkdirAll u :
    ready u -> exists u', MkdirAll methods fuel unarchiveFS (Dir p) 448 u = (Ret None, u') /\ ready u';
  takes_OpenFile : exists openFile, fs_OpenFile (methods unarchiveFS) = Some openFile /\ forall u,
    ready u -> exists u', openFile p (Z.lor FlagWriteOnly (Z.lor FlagCreate FlagTruncate)) mode u =
      (Ret (Some f, None), u') /\ holds u' [];
  takes_Write : exists write, f_Write f = Some write /\ forall u out b,
    holds u out -> exists u', write b u = (Ret (Z.of_nat (length b), None), u') /\ holds u' (out ++ b);
  takes_Close u out : holds u out -> exists e u', f_Close f u = (Ret e, u') /\ stored u' out
}.

Lemma fullReader_Read_run len w :
  unread_end w = None ->
  let data := unread w in
  fullReader_Read len w =
    if (Z.of_nat (length data) <? len)%Z then (Ret (data, Some EOF), set_unread [] None w)
    else (Ret (take (Z.to_nat len) data, None), set_unread (drop (Z.to_nat len) data) None w).
Proof.
  intros He. unfold fullReader_Read, ReadFull. go_simpl. rewrite He.
  destruct (Z.of_nat (length (unread w)) <? len)%Z; [|done]. by destruct (unread w).
Qed.

Section one_file.
Context p mode f ready holds stored (Ht : takes_file p mode f ready holds stored).

(** What writing a file leaves alone until it is done. *)
Definition fixed w := (emitted w, started w, wg w).

(** The rest of the archive's file, as a source for [io.Copy]. *)
Lemma fullReader_copies w0 write :
  f_Write f = Some write ->
  copies fullReader (fun b => in_fs (write b)) bigBufMemory
    (fun w rest out => unread w = rest /\ unread_end w = None /\ holds (unarchived w) out /\
      fixed w = fixed w0).
Proof.
  intros Hwr. destruct (takes_Write _ _ _ _ _ _ Ht) as (write' & Hwr' & Hwrite).
  rewrite Hwr in Hwr'. injection Hwr' as <-. split.
  - intros w rest out (<- & He & Ho & Hx). simpl f_Read. rewrite fullReader_Read_run by done.
    destruct (Z.ltb_spec (Z.of_nat (length (unread w))) bigBufMemory) as [Hl|Hl].
    + exists (unread w), [], (Some EOF). eexists. rewrite app_nil_r. by split_and!; [..|right].
    + exists (take (Z.to_nat bigBufMemory) (unread w)), (drop (Z.to_nat bigBufMemory) (unread w)), None.
      eexists. rewrite take_drop. split_and!; [done..|]. left. split; [done|].
      assert (0 < bigBufMemory)%Z as Hb by done. revert Hl Hb. generalize bigBufMemory. intros size Hl Hb.
      intros E%(f_equal length). rewrite length_take in E. simpl in E. lia.
  - intros w rest out b (Hr & He & Ho & Hx) _. destruct (Hwrite _ _ b Ho) as (u' & E & Ho').
    eexists. split; [by apply in_fs_run|done].
Qed.

Lemma write_out_all initial more w :
  holds (unarchived w) [] ->
  (more = true -> unread_end w = None /\ length (unread w) < fuel) ->
  exists w', write_out fuel f initial more w = (Ret None, w') /\
    holds (unarchived w') (initial ++ if more then unread w else []) /\ fixed w' = fixed w.
Proof.
  intros Ho Hm. destruct (takes_Write _ _ _ _ _ _ Ht) as (write & Hwr & Hwrite). unfold write_out. rewrite Hwr.
  destruct (Hwrite _ _ initial Ho) as (u1 & E1 & Ho1). run (in_fs_run _ _ _ _ E1).
  destruct more; unfold negb.
  2: { eexists. split; [reflexivity|]. by rewrite app_nil_r. }
  destruct (Hm eq_refl) as [He Hf].
  destruct (io_Copy_all _ _ _ _ fuel (set_unarchived u1 w) (unread w) initial (fullReader_copies w write Hwr))
    as (w2 & E2 & _ & _ & Ho2 & Hx2); [done|done|].
  run E2. by exists w2.
Qed.

Lemma writeFile_all initial more w :
  ready (unarchived w) ->
  (more = true -> unread_end w = None /\ length (unread w) < fuel) ->
  exists w', writeFile methods unarchiveFS fuel p mode initial more w = (Ret None, w') /\
    stored (unarchived w') (initial ++ if more then unread w else []) /\
    emitted w' = {[p]} ∪ emitted w /\ started w' = started w /\ wg w' = wg w.
Proof.
  intros Hready Hm. destruct (takes_OpenFile _ _ _ _ _ _ Ht) as (openFile & Eo & Hopen).
  destruct (Hopen _ Hready) as (u1 & E1 & Ho1). unfold writeFile, base. rewrite Eo.
  run (in_fs_run _ _ _ _ E1). simpl not_nil.
  destruct (write_out_all initial more (set_unarchived u1 w)) as (w2 & E2 & Ho2 & Hx2); [done|done|].
  rewrite E2. destruct (takes_Close _ _ _ _ _ _ Ht _ _ Ho2) as (e & u3 & E3 & Hs).
  assert (close f (unarchived w2) = (Ret tt, u3)) as Ec by by (unfold close; run E3).
  run (in_fs_run _ _ _ _ Ec). unfold Emit. go_simpl. eexists. split; [reflexivity|].
  injection Hx2 as Hx1 Hx2 Hx3. simpl in *. by rewrite Hx1.
Qed.
End one_file.

(** C31: an entry is written as the archive has it, and its path is announced
    when all of it is written: a small file by a goroutine of its own that is
    started with all the data, a large one at once in parts; whatever the path
    and the mode, when the destination takes files. *)
Theorem entries_are_copied (h : tar_entry) f ready holds stored w w2 :
  let p := resolvePath (h_Name h) in
  takes_file p (h_Mode h) f ready holds stored ->
  IsDir (h_Mode h) = false -> callerCtx w = None ->
  unread w = h_data h -> unread_end w = None -> length (h_data h) < fuel ->
  ready (unarchived w) -> ready (unarchived w2) ->
  exists w', readProcessFile methods unarchiveFS fuel h w = (Ret None, w') /\
    ((Z.of_nat (length (h_data h)) < smallBufMemory)%Z /\ wg w' = S (wg w) /\
       started w' = started w ++ [FileJob p (h_Mode h) (h_data h)] /\ emitted w' = emitted w /\
       (exists w3, job_work methods unarchiveFS fuel (FileJob p (h_Mode h) (h_data h)) w2 = (Ret None, w3) /\
          stored (unarchived w3) (h_data h) /\ emitted w3 = {[p]} ∪ emitted w2) \/
     (smallBufMemory <= Z.of_nat (length (h_data h)))%Z /\ wg w' = wg w /\ started w' = started w /\
       stored (unarchived w') (h_data h) /\ emitted w' = {[p]} ∪ emitted w).
Proof.
  intros p Ht Hd Hctx Hu He Hf Hr Hr2. unfold readProcessFile. go_simpl. rewrite Hctx. fold p.
  assert (exists u1 c, cachedMkdirAll methods unarchiveFS fuel (Dir p) 448 w =
    (Ret None, set_mkdirCache c (set_unarchived u1 w)) /\ ready u1) as (u1 & c & E1 & Hr1).
  { unfold cachedMkdirAll. go_simpl. destruct (bool_decide _).
    - exists (unarchived w), (mkdirCache w). by destruct w.
    - destruct (takes_MkdirAll _ _ _ _ _ _ Ht _ Hr) as (u1 & E1 & Hr1).
      run (in_fs_run _ _ _ _ E1). by do 2 eexists. }
  run E1. rewrite Hd.
  pose proof (fullReader_Read_run smallBufMemory (set_mkdirCache c (set_unarchived u1 w)) He) as ER.
  cbv zeta in ER. simpl unread in ER. rewrite Hu in ER.
  destruct (Z.ltb_spec (Z.of_nat (length (h_data h))) smallBufMemory) as [Hl|Hl]; run ER.
  - eexists. split; [reflexivity|]. left. split_and!; [done..|].
    destruct (writeFile_all _ _ _ _ _ _ Ht (h_data h) false w2 Hr2) as (w3 & E3 & Hs & Hem & _); [done|].
    exists w3. by rewrite app_nil_r in Hs.
  - edestruct (writeFile_all _ _ _ _ _ _ Ht (take (Z.to_nat smallBufMemory) (h_data h)) true)
      as (w3 & E3 & Hs & Hem & Hst & Hwg); [..|exists w3; split; [exact E3|]]; [done| |].
    + intros _. split; [done|]. simpl. rewrite length_drop. lia.
    + right. simpl in Hs, Hem, Hst, Hwg. by rewrite take_drop in Hs.
Qed.
End writing.

(** ** The theorems at concrete inputs *)

(** A destination that keeps what is written in a map and refuses some paths. *)
Abbreviation demo_state := (gmap string (list byte)).

Definition demo_file (p : string) : File demo_state :=
  MkFile demo_state (ret (None, None)) (fun _ => ret ([], Some EOF)) (ret None) None
    (Some (fun b u => (Ret (Z.of_nat (length b), None), <[p := default [] (u !! p) ++ b]> u)))
    None None None None None None None None.
Definition demo_methods (refuses : string -> bool) (_ : FS) : FSOps demo_state :=
  MkOps demo_state (fun p => ret (Some (demo_file p), None)) None
    (Some (fun p _ _ u =>
       if refuses p then (Ret (None, Some ErrPermission), u) else (Ret (Some (demo_file p), None), <[p := []]> u)))
    None (Some (fun _ _ => ret None)) (Some (fun _ _ => ret None)) None None None None None
    (Some (fun _ _ => ret None)) None None None None None None None.
Definition demo_data : list byte := [Byte.x61; Byte.x62; Byte.x63].
Definition demo_entry : tar_entry := MkTarEntry "/a/../b" 420 demo_data None.
Definition demo_entry_world : tworld demo_state :=
  set_unread demo_data None (start_world ∅ [] EOF).

Lemma demo_takes_file :
  takes_file (demo_methods (fun _ => false)) (Other 0) 5 "b" 420 (demo_file "b") (fun _ => True)
    (fun u out => u !! "b" = Some out) (fun u out => u !! "b" = Some out).
Proof.
  split.
  - intros u _. by exists u.
  - eexists. split; [reflexivity|]. intros u _. eexists. split; [reflexivity|]. by rewrite lookup_insert_eq.
  - eexists. split; [reflexivity|]. intros u out b Hu. eexists. split; [reflexivity|].
    by rewrite Hu, lookup_insert_eq.
  - intros u out Hu. by exists None, u.
Qed.

Lemma resolvePath_stays_inside_witness :
  ValidPath (resolvePath "/x/../../y") = true /\ resolvePath "../x" = "../x" /\ ValidPath "../x" = false.
Proof.
  split_and!.
  - destruct (resolvePath_stays_inside "/x/../../y" eq_refl) as [[H|(H & _)] _]; [exact H|done].
  - reflexivity.
  - destruct (resolvePath_stays_inside "../x" eq_refl) as [[H|(_ & H & _)] _]; [done|exact H].
Defined.

Lemma entries_are_copied_witness :
  exists w', readProcessFile (demo_methods (fun _ => false)) (Other 0) 5 demo_entry demo_entry_world = (Ret None, w') /\
    started w' = [FileJob "b" 420 demo_data].
Proof.
  destruct (entries_are_copied (demo_methods (fun _ => false)) (Other 0) 5 demo_entry (demo_file "b")
    (fun _ => True) (fun u out => u !! "b" = Some out) (fun u out => u !! "b" = Some out)
    demo_entry_world demo_entry_world demo_takes_file eq_refl eq_refl eq_refl eq_refl)
    as (w' & E & [(_ & _ & Hs & _)|(Hl & _)]); [simpl; lia|done|done| |].
  - exists w'. by split.
  - exfalso. by vm_compute in Hl.
Defined.
