(* ===== verification/TarRun.v ===== *)
(** * Every run of the tar reader

    The invariant of the goroutines that unpack an archive, whatever the file
    system below does, and what follows for the end of a run. *)
From stdpp Require Import relations.
From S2P Require Import Prelude.
From S2P Require Import Paths.
From S2P Require Import Errors.
From S2P Require Import Modes.
From S2P Require Import HackFS.
From S2P Require Import Frames.
From S2P Require Import Conc.
From S2P Require Import TarFS.
From S2P Require Import TarThms.

Local Open Scope string_scope.
Local Open Scope list_scope.

Section run.
Context {U : Type} (methods : FS -> FSOps U) (unarchiveFS : FS) (fuel : nat).
Abbreviation W := (tworld U).
Abbreviation tar_config := (config (T := goroutine) (S := W)).
Abbreviation tar_step := (step (tstep methods unarchiveFS fuel)).
Implicit Types (w : W) (main : main_pc) (jobs : list job_pc) (c : tar_config).

(** ** What the work on one entry leaves alone *)

(** What the goroutines agree on, besides the background work. *)
Definition sync w :=
  (errs w, callerCtx w, readerDone w, unarchiveErr w, entries w, entries_end w, closing w, wg_done w).

Definition quiet w w' : Prop := sync w' = sync w /\ wg w' = wg w /\ started w' = started w.
(** ... and the archive is not read either. *)
Definition background w w' : Prop := quiet w w' /\ unread w' = unread w.
(** ... or one goroutine is started. *)
Definition spawns w w' : Prop :=
  sync w' = sync w /\ exists js, length js <= 1 /\ wg w' = wg w + length js /\ started w' = started w ++ js.

#[local] Instance quiet_preorder : PreOrder quiet.
Proof. unfold quiet. split; [done|]. intros w1 w2 w3 (E1 & E2 & E3) (E4 & E5 & E6). split_and!; congruence. Qed.
#[local] Instance background_preorder : PreOrder background.
Proof.
  unfold background. split; [done|]. intros w1 w2 w3 [H1 E1] [H2 E2].
  split; [by transitivity w2|congruence].
Qed.

Lemma quiet_spawns w w' : quiet w w' -> spawns w w'.
Proof.
  intros (E1 & E2 & E3). split; [done|]. exists []. rewrite app_nil_r, Nat.add_0_r. simpl. auto.
Qed.
Lemma keeps_quiet_spawns {A} (m : M W A) : keeps quiet m -> keeps spawns m.
Proof. intros H w. apply quiet_spawns, H. Qed.
Lemma quiet_then_spawns {A B} (m : M W A) (k : A -> M W B) :
  keeps quiet m -> (forall a, keeps spawns (k a)) -> keeps spawns (bind m k).
Proof.
  intros Hm Hk w. specialize (Hm w). unfold bind.
  destruct (m w) as [[a|?| |] w1]; simpl in *; try by apply quiet_spawns.
  specialize (Hk a w1). destruct Hm as (E1 & E2 & E3), Hk as (E4 & js & Hl & E5 & E6).
  split; [congruence|]. exists js. by rewrite E5, E6, E2, E3.
Qed.

(** Writing a file changes the destination and the paths announced, and reads
    the archive if there is more of the file. *)
Section writing.
Context (R : W -> W -> Prop) `{!PreOrder R}.
Context (Hu : forall u w, R w (set_unarchived u w)) (Hemit : forall ks w, R w (set_emitted ks w)).

Lemma keeps_in_fs {A} (m : M U A) : keeps R (in_fs m).
Proof. apply keeps_zoom. intros s t. apply Hu. Qed.
Lemma keeps_base {A B} (m : option A) (k : A -> M U B) : keeps R (base m k).
Proof. destruct m; [apply keeps_in_fs|by apply keeps_panic]. Qed.
Hint Resolve keeps_in_fs keeps_base : go_wf.

Lemma keeps_write_out f initial more :
  (more = true -> forall len, keeps R (fullReader_Read len)) -> keeps R (write_out fuel f initial more).
Proof.
  intros Hr. unfold write_out. destruct (f_Write f) as [write|]; [|by apply keeps_ret].
  destruct more; simpl negb; keeps; by apply Hr.
Qed.
Lemma keeps_writeFile path mode initial more :
  (more = true -> forall len, keeps R (fullReader_Read len)) ->
  keeps R (writeFile methods unarchiveFS fuel path mode initial more).
Proof.
  intros Hr. unfold writeFile. keeps. intros w.
  match goal with |- context [write_out fuel ?f initial more w] =>
    pose proof (keeps_write_out f initial more Hr w) as Hw;
    destruct (write_out fuel f initial more w) as [[e|why| |] w'] end; simpl in Hw; try done.
  all: transitivity w'; [done|].
  - match goal with |- R w' (snd (?m w')) => enough (keeps R m) as H by apply H end.
    keeps. intros ?. apply Hemit.
  - match goal with |- R w' (snd (?m w')) => enough (keeps R m) as H by apply H end.
    keeps. intros ?. apply Hemit.
Qed.
End writing.

Lemma background_unarchived u w : background w (set_unarchived u w).
Proof. done. Qed.
Lemma background_emitted ks w : background w (set_emitted ks w).
Proof. done. Qed.
Lemma quiet_unarchived u w : quiet w (set_unarchived u w).
Proof. done. Qed.
Lemma quiet_emitted ks w : quiet w (set_emitted ks w).
Proof. done. Qed.
Hint Resolve background_unarchived background_emitted quiet_unarchived quiet_emitted : go_wf.
Hint Resolve keeps_in_fs keeps_base : go_wf.

Lemma fullReader_quiet len : keeps quiet (fullReader_Read len).
Proof.
  unfold fullReader_Read, ReadFull. keeps; by intros w.
Qed.
Lemma job_work_background j : keeps background (job_work methods unarchiveFS fuel j).
Proof.
  destruct j as [p mode|p mode data]; simpl.
  - unfold dir_work. keeps.
  - apply keeps_writeFile; auto with go_wf typeclass_instances; done.
Qed.
Lemma readProcessFile_spawns h : keeps spawns (readProcessFile methods unarchiveFS fuel h).
Proof.
  unfold readProcessFile. apply quiet_then_spawns; [keeps|]. intros [e|].
  { by (apply keeps_quiet_spawns; keeps). }
  apply quiet_then_spawns.
  { unfold cachedMkdirAll. keeps. by intros w. }
  intros [e|]; [by (apply keeps_quiet_spawns; keeps)|].
  assert (Hstart : forall j, keeps spawns (start_job (U := U) j ;;; ret (None : err))).
  { intros j w. split; [done|]. exists [j]. simpl. split; [done|]. split; [lia|done]. }
  destruct (IsDir (h_Mode h)); [apply Hstart|].
  apply quiet_then_spawns; [apply fullReader_quiet|]. intros [buf [e|]].
  - destruct e; try apply Hstart; by (apply keeps_quiet_spawns; keeps).
  - apply keeps_quiet_spawns, keeps_writeFile; auto with go_wf typeclass_instances.
    intros _. apply fullReader_quiet.
Qed.

(** ** The invariant *)
Definition live (at_ : job_pc) : nat := match at_ with JDone => 0 | _ => 1 end.
Definition in_hand main : nat := match main with MProcess _ => 1 | _ => 0 end.

(** Where the reader is in the archive. *)
Definition at_entry (end_ : error) main w : Prop :=
  match main with
  | MLoop | MNext | MProcess _ => closing w = false
  | MClose => closing w = false /\ entries w = [] /\ end_ = EOF
  | MSelect => closing w = true /\ entries w = [] /\ end_ = EOF
  | MReturned None | MDone None => wg_done w = true /\ entries w = [] /\ end_ = EOF
  | MReturned (Some _) | MDone (Some _) => True
  end.
(** What the caller sees of it. *)
Definition seen main w : Prop :=
  match main with
  | MDone e => readerDone w = true /\ unarchiveErr w = e /\ callerCtx w <> None
  | _ => readerDone w = false /\ unarchiveErr w = None
  end.

(** The counter of the wait group is the number of background goroutines that
    have not finished; each entry has room for one. *)
Record good (n : nat) (end_ : error) main (closed : bool) jobs w : Prop := {
  good_jobs : length jobs = n;
  good_wg : wg w = total live (take (length (started w)) jobs);
  good_idle : drop (length (started w)) jobs = replicate (n - length (started w)) JStart;
  good_room : length (started w) + length (entries w) + in_hand main <= n;
  good_end : entries_end w = end_;
  good_closed : closed = wg_done w;
  good_done : wg_done w = true -> closing w = true /\ wg w = 0;
  good_entry : at_entry end_ main w;
  good_seen : seen main w
}.

Definition inv (pick : bool) (n : nat) (end_ : error) c : Prop :=
  exists main closed cancels jobs w,
    c = (threads pick main closed cancels jobs, w) /\ good n end_ main closed jobs w.

Lemma inv_start pick cancels u es end_ : inv pick (length es) end_ (start pick cancels u es end_).
Proof.
  exists MLoop, false, cancels, (replicate (length es) JStart), (start_world u es end_).
  split; [done|]. split; simpl; try done; [by rewrite length_replicate| |lia].
  by rewrite drop_0, Nat.sub_0_r.
Qed.

Lemma imap_insert {A B} (f : nat -> A -> B) l i x : <[i := f i x]> (imap f l) = imap f (<[i := x]> l).
Proof.
  apply list_eq. intros j. rewrite list_lookup_imap. destruct (decide (i = j)) as [<-|Hne].
  - destruct (decide (i < length l)).
    + rewrite !list_lookup_insert_eq; [done|done|by rewrite length_imap].
    + rewrite !list_insert_ge, list_lookup_imap; [done|lia|rewrite length_imap; lia].
  - by rewrite !list_lookup_insert_ne, list_lookup_imap by done.
Qed.

(** A step is a step of one of the goroutines. *)
Lemma step_cases pick main closed cancels jobs w c' :
  tar_step (threads pick main closed cancels jobs, w) c' ->
  (exists main' w', read methods unarchiveFS fuel pick main w = (Ret main', w') /\
     c' = (threads pick main' closed cancels jobs, w')) \/
  (exists w', run_closer closed w = (Ret true, w') /\ c' = (threads pick main true cancels jobs, w')) \/
  (cancels = true /\ c' = (threads pick main closed false jobs, cancel w)) \/
  (exists k at_ at_' w', jobs !! k = Some at_ /\ run_job methods unarchiveFS fuel k at_ w = (Ret at_', w') /\
     c' = (threads pick main closed cancels (<[k := at_']> jobs), w')).
Proof.
  intros Hs. inversion Hs as [ts s i t t' s' Hi E]; subst. destruct i as [|[|[|k]]]; simpl in Hi.
  - injection Hi as <-. simpl in E. apply bind_inv_Ret in E as (main' & w1 & E & [= <- <-]). left. by do 2 eexists.
  - injection Hi as <-. simpl in E. apply bind_inv_Ret in E as (cl & w1 & E & [= <- <-]). right. left.
    exists w1. unfold run_closer in *. rewrite bind_gets in E |- *. unfold id in *.
    by destruct (negb closed && closing w && Nat.eqb (wg w) 0); [injection E as <- <-|].
  - injection Hi as <-. simpl in E. right. right. left. destruct cancels; [|done]. by injection E as <- <-.
  - rewrite list_lookup_imap in Hi. destruct (jobs !! k) as [at_|] eqn:Hk; [|done]. injection Hi as <-.
    simpl in E. apply bind_inv_Ret in E as (at_' & w1 & E & [= <- <-]). right. right. right.
    exists k, at_, at_', w1. split_and!; [done..|]. by simpl; rewrite imap_insert.
Qed.

(** An entry is done: a goroutine may be started for it. *)
Lemma process_good n end_ h (r : err) closed jobs w w' :
  good n end_ (MProcess h) closed jobs w -> spawns w w' ->
  good n end_ (match r with Some e => MReturned (Some e) | None => MLoop end) closed jobs w'.
Proof.
  intros [Hlen Hwg Hidle Hroom Hend Hcl Hdone Hat Hseen] (Hsync & js & Hl & Ewg & Est).
  injection Hsync as H1 H2 H3 H4 H5 H6 H7 H8. simpl in Hat, Hroom, Hseen.
  assert (Hopen : wg_done w = false).
  { destruct (wg_done w); [|done]. destruct Hdone; congruence. }
  split; rewrite ?H6, ?H8; try done.
  - rewrite Ewg, Est, Hwg. destruct js as [|j [|]]; simpl in Hl; [by rewrite app_nil_r, Nat.add_0_r| |lia].
    rewrite length_app. simpl. rewrite (Nat.add_1_r (length _)), (take_S_r _ _ JStart).
    + unfold total. by rewrite sum_list_with_app.
    + rewrite <- (Nat.add_0_r (length (started w))), <- lookup_drop, Hidle. apply lookup_replicate. split; [done|lia].
  - rewrite Est, length_app, <- drop_drop, Hidle, drop_replicate. f_equal. lia.
  - rewrite Est, H5, length_app. destruct r; simpl; lia.
  - by rewrite Hopen.
  - destruct r; simpl; [done|congruence].
  - destruct r; simpl; by rewrite H3, H4.
Qed.

Lemma main_step pick n end_ main main' closed jobs w w' :
  good n end_ main closed jobs w -> read methods unarchiveFS fuel pick main w = (Ret main', w') ->
  good n end_ main' closed jobs w'.
Proof.
  intros [Hlen Hwg Hidle Hroom Hend Hcl Hdone Hat Hseen] E.
  destruct main as [| |h| | |e|e]; simpl in E.
  - unfold bind, gets in E. destruct (errs w) as [e|]; injection E as <- <-; by split.
  - unfold bind, gets in E. destruct (entries w) as [|h es] eqn:Ees.
    + case_bool_decide; injection E as <- <-; split; simpl; rewrite ?Ees; simpl; auto; simpl in *; try lia.
      split_and!; [done..|congruence].
    + injection E as <- <-. simpl in Hroom. split; simpl; try done. lia.
  - apply bind_inv_Ret in E as (r & w1 & E & [= <- <-]).
    pose proof (readProcessFile_spawns h w) as Hs. rewrite E in Hs. by eapply process_good.
  - injection E as <- <-. destruct Hat as (H1 & H2 & H3). split; simpl; try done.
    rewrite Hcl. destruct (wg_done w); [|done]. destruct Hdone; congruence.
  - apply bind_inv_Ret in E as (r & w1 & E & Er).
    destruct r as [r|]; [|done]. injection Er as <- <-. destruct Hat as (H1 & H2 & H3).
    assert ((w1 = w \/ exists e, w1 = set_errs e w) /\ (r = None -> wg_done w = true)) as [Hw Hr].
    { revert E. unfold receive_error, bind, gets.
      destruct (errs w), (wg_done w), pick; intros [= <- <-]; eauto; naive_solver. }
    assert (at_entry end_ (MReturned r) w1 /\ seen (MReturned r) w1) as [Ha Hs].
    { destruct Hw as [->|[e ->]]; simpl; destruct r; naive_solver. }
    by destruct Hw as [->|[e' ->]]; split.
  - injection E as <- <-. destruct Hseen as [H1 H2].
    split; simpl; try done.
    rewrite H2. split; [done|]. split; [by destruct e|]. by destruct (callerCtx w).
  - done.
Qed.

(** A background goroutine goes on, and nothing else changes but the counter. *)
Lemma good_job n end_ main closed jobs w w' k at_ at_' :
  good n end_ main closed jobs w -> jobs !! k = Some at_ -> k < length (started w) ->
  wg w' + live at_ = wg w + live at_' -> live at_' <= live at_ -> started w' = started w ->
  (callerCtx w', readerDone w', unarchiveErr w', entries w', entries_end w', closing w', wg_done w') =
    (callerCtx w, readerDone w, unarchiveErr w, entries w, entries_end w, closing w, wg_done w) ->
  good n end_ main closed (<[k := at_']> jobs) w'.
Proof.
  intros [Hlen Hwg Hidle Hroom Hend Hcl Hdone Hat Hseen] Hk Hlt Ewg Hle' Est [= E1 E2 E3 E4 E5 E6 E7].
  assert (Hk' : take (length (started w)) jobs !! k = Some at_) by by rewrite lookup_take_lt.
  pose proof (total_insert live _ _ _ at_' Hk') as Ht.
  pose proof (total_elem live _ _ _ Hk') as Hle.
  split; rewrite ?Est, ?E4, ?E5, ?E7; try done.
  - by rewrite length_insert.
  - rewrite take_insert_lt by done. lia.
  - by rewrite drop_insert_lt.
  - rewrite E6. intros [Hc H0]%Hdone. split; [done|]. lia.
  - unfold at_entry in *. by rewrite E4, E6, E7.
  - unfold seen in *. by rewrite E1, E2, E3.
Qed.

(** Only goroutines that were started are anywhere but at their start. *)
Lemma good_started n end_ main closed jobs w k at_ :
  good n end_ main closed jobs w -> jobs !! k = Some at_ -> at_ <> JStart -> k < length (started w).
Proof.
  intros Hg Hk Hne. destruct (decide (k < length (started w))); [done|]. destruct Hne.
  pose proof (good_idle _ _ _ _ _ _ Hg) as Hi.
  assert (Hd : drop (length (started w)) jobs !! (k - length (started w)) = Some at_)
    by (rewrite lookup_drop, <- Hk; f_equal; lia).
  rewrite Hi in Hd. by apply lookup_replicate in Hd as [-> _].
Qed.

(** While one of them is not done the counter is not zero. *)
Lemma good_live n end_ main closed jobs w k at_ :
  good n end_ main closed jobs w -> jobs !! k = Some at_ -> k < length (started w) -> live at_ <= wg w.
Proof.
  intros Hg Hk Hlt. rewrite (good_wg _ _ _ _ _ _ Hg). apply (total_elem live _ k). by rewrite lookup_take_lt.
Qed.

Lemma job_step n end_ main closed jobs w w' k at_ at_' :
  good n end_ main closed jobs w -> jobs !! k = Some at_ ->
  run_job methods unarchiveFS fuel k at_ w = (Ret at_', w') ->
  good n end_ main closed (<[k := at_']> jobs) w' /\ k < length (started w).
Proof.
  intros Hg Hk E.
  assert (Hlt : k < length (started w)).
  { destruct (decide (at_ = JStart)) as [->|Hne]; [|by eapply good_started].
    simpl in E. rewrite bind_gets in E. destruct (started w !! k) eqn:Hs; [|done].
    by eapply lookup_lt_Some. }
  split; [|done]. destruct at_ as [|e| |]; simpl in E.
  - rewrite bind_gets in E. destruct (started w !! k) as [j|]; [|done].
    apply bind_inv_Ret in E as (r & w1 & E & [= <- <-]).
    pose proof (job_work_background j w) as Hb. rewrite E in Hb. destruct Hb as [(Hs & Ewg & Est) _].
    injection Hs as E1 E2 E3 E4 E5 E6 E7 E8. simpl in *.
    eapply good_job; try done; [| |congruence]; [rewrite Ewg|]; by destruct r.
  - rewrite bind_gets in E. destruct (errs w); [done|]. injection E as <- <-. by eapply good_job.
  - rewrite bind_gets in E. destruct (wg w) as [|m] eqn:Ewg; [done|]. injection E as <- <-.
    eapply good_job; try done; simpl; lia.
  - done.
Qed.

Lemma inv_step pick n end_ c c' : inv pick n end_ c -> tar_step c c' -> inv pick n end_ c'.
Proof.
  intros (main & closed & cancels & jobs & w & -> & Hg) Hs.
  apply step_cases in Hs as [(main' & w' & E & ->)|[(w' & E & ->)|[[-> ->]|(k & at_ & at_' & w' & Hk & E & ->)]]].
  - do 5 eexists. split; [reflexivity|]. by eapply main_step.
  - do 5 eexists. split; [reflexivity|]. unfold run_closer in E. rewrite bind_gets in E. unfold id in E.
    destruct closed; [done|]. destruct (closing w) eqn:Hc; [|done].
    destruct (Nat.eqb_spec (wg w) 0) as [H0|]; [|done]. injection E as <-.
    destruct Hg as [Hlen Hwg Hidle Hroom Hend Hcl Hdone Hat Hseen].
    split; simpl; try done. destruct main as [| | | | |[]|[]]; simpl in *; naive_solver.
  - do 5 eexists. split; [reflexivity|]. destruct Hg as [Hlen Hwg Hidle Hroom Hend Hcl Hdone Hat Hseen].
    split; simpl; try done.
    all: destruct main as [| | | | |[]|[]]; unfold seen, cancel in *; simpl in *; destruct (callerCtx w); naive_solver.
  - do 5 eexists. split; [reflexivity|]. by eapply job_step.
Qed.

(** ** What a finished run has done *)
Lemma inv_reachable pick cancels u es end_ c :
  reachable (tstep methods unarchiveFS fuel) (start pick cancels u es end_) c -> inv pick (length es) end_ c.
Proof. apply reachable_invariant; [apply inv_step|apply inv_start]. Qed.

(** C29: [UnarchiveErr] is [nil] after [Done] only when the archive was read to
    its end and every goroutine that was started has finished, whatever the
    file system does and however the goroutines are scheduled; a panicking
    [WaitGroup] is not among the outcomes. *)
Theorem read_nil_means_finished pick cancels u es end_ c :
  reachable (tstep methods unarchiveFS fuel) (start pick cancels u es end_) c ->
  (readerDone c.2 = true -> unarchiveErr c.2 = None ->
     end_ = EOF /\ entries c.2 = [] /\
     forall k, k < length (started c.2) -> c.1 !! (3 + k) = Some (GJob k JDone)) /\
  (forall k, c.1 !! (3 + k) = Some (GJob k JFinish) -> wg c.2 <> 0).
Proof.
  intros Hr. apply inv_reachable in Hr as (main & closed & cancels' & jobs & w & -> & Hg).
  assert (Hjobs : forall k at_, (imap GJob jobs) !! k = Some (GJob k at_) <-> jobs !! k = Some at_).
  { intros k at_. rewrite list_lookup_imap. destruct (jobs !! k); simpl; naive_solver. }
  simpl. split.
  - intros Hd He. pose proof Hg as [Hlen Hwg Hidle Hroom Hend Hcl Hdone Hat Hseen].
    destruct main as [| | | | |e|e]; simpl in Hseen; try (destruct Hseen; congruence).
    destruct Hseen as (_ & Hs & _). rewrite He in Hs. subst e. destruct Hat as (Hw & Hes & ->).
    split_and!; [done..|]. intros k Hk. apply Hjobs.
    destruct (Hdone Hw) as [_ H0].
    destruct (lookup_lt_is_Some_2 jobs k) as [at_ Hat]; [lia|]. rewrite Hat. f_equal.
    pose proof (good_live _ _ _ _ _ _ _ _ Hg Hat Hk). by destruct at_; simpl in *; [lia..|].
  - intros k Hk%Hjobs H0.
    pose proof (good_live _ _ _ _ _ _ _ _ Hg Hk (good_started _ _ _ _ _ _ _ _ Hg Hk ltac:(done))) as Hl.
    rewrite H0 in Hl. simpl in Hl. lia.
Qed.

(** ** Termination *)
Definition main_work main : nat :=
  match main with
  | MLoop => 5 | MNext => 4 | MProcess _ => 6 | MClose => 3 | MSelect => 2 | MReturned _ => 1 | MDone _ => 0
  end.
Definition job_left (at_ : job_pc) : nat :=
  match at_ with JStart => 3 | JSend _ => 2 | JFinish => 1 | JDone => 0 end.
Definition work_left (t : goroutine) : nat :=
  match t with
  | GMain _ main => main_work main
  | GJob _ at_ => job_left at_
  | GCloser closed => if closed then 0 else 1
  | GCaller cancels => if cancels then 1 else 0
  end.
Definition tar_weight c : nat := total work_left c.1 + 3 * length (entries c.2).

Lemma read_work pick main main' w w' :
  read methods unarchiveFS fuel pick main w = (Ret main', w') ->
  main_work main' + 3 * length (entries w') < main_work main + 3 * length (entries w).
Proof.
  destruct main as [| |h| | |e|e]; simpl.
  - unfold bind, gets. destruct (errs w); intros [= <- <-]; simpl; lia.
  - unfold bind, gets. destruct (entries w) as [|h es] eqn:Ees.
    + case_bool_decide; intros [= <- <-]; rewrite ?Ees; simpl; lia.
    + intros [= <- <-]. simpl. lia.
  - intros (r & w1 & E & [= <- <-])%bind_inv_Ret. pose proof (readProcessFile_spawns h w) as Hs.
    rewrite E in Hs. destruct Hs as [[= _ _ _ _ -> _ _ _] _]. destruct r; simpl; lia.
  - intros [= <- <-]. simpl. lia.
  - unfold receive_error, bind, gets.
    destruct (errs w), (wg_done w), pick; intros [= <- <-]; simpl; lia.
  - intros [= <- <-]. simpl. lia.
  - done.
Qed.
Lemma run_job_work k at_ at_' w w' :
  run_job methods unarchiveFS fuel k at_ w = (Ret at_', w') ->
  job_left at_' < job_left at_ /\ entries w' = entries w.
Proof.
  destruct at_; simpl; try done; unfold bind at 1, gets.
  - destruct (started w !! k) as [j|]; [|done]. intros (r & w1 & E & [= <- <-])%bind_inv_Ret.
    pose proof (job_work_background j w) as Hb. rewrite E in Hb.
    destruct Hb as [([= _ _ _ _ -> _ _ _] & _) _]. destruct r; simpl; split; [lia|done|lia|done].
  - destruct (errs w); [done|]. intros [= <- <-]. simpl. split; [lia|done].
  - destruct (wg w); [done|]. intros [= <- <-]. simpl. split; [lia|done].
Qed.
Lemma tstep_work t t' w w' :
  tstep methods unarchiveFS fuel t w = (Ret t', w') ->
  work_left t' + 3 * length (entries w') < work_left t + 3 * length (entries w).
Proof.
  destruct t as [pick main|k at_|closed|cancels]; simpl; intros (r & w1 & E & [= <- <-])%bind_inv_Ret; simpl.
  - by eapply read_work.
  - destruct (run_job_work _ _ _ _ _ E) as [Hl ->]. lia.
  - revert E. unfold run_closer. rewrite bind_gets. unfold id.
    destruct closed; [done|]. destruct (negb false && closing w && Nat.eqb (wg w) 0); [|done].
    intros [= <- <-]. simpl. lia.
  - destruct cancels; [|done]. injection E as <- <-. simpl. lia.
Qed.
Lemma tar_step_weight c c' : tar_step c c' -> tar_weight c' < tar_weight c.
Proof.
  intros Hs. inversion Hs as [ts w i t t' w' Hi E]; subst. unfold tar_weight. simpl.
  pose proof (total_insert work_left ts i t t' Hi). pose proof (tstep_work _ _ _ _ E). lia.
Qed.

Lemma tar_weight_start pick cancels u es end_ :
  tar_weight (start pick cancels u es end_) <= 6 * length es + 7.
Proof.
  unfold tar_weight, start, threads, total. simpl.
  assert (forall f : nat -> nat, sum_list_with work_left (imap (fun k => GJob (f k)) (replicate (length es) JStart)) =
    3 * length es) as H.
  { induction (length es) as [|n IH]; intros f; [done|]. simpl.
    pose proof (IH (fun k => f (S k))) as E. unfold compose. rewrite E. lia. }
  specialize (H (fun k => k)). change (sum_list_with work_left (imap GJob (replicate (length es) JStart)) = 3 * length es) in H.
  rewrite H. destruct cancels; lia.
Qed.

(** *** When the file system's calls return *)
Definition returns {S A} (m : M S A) : Prop := forall s, exists a s', m s = (Ret a, s').

Lemma returns_bind {S A B} (m : M S A) (k : A -> M S B) :
  returns m -> (forall a, returns (k a)) -> returns (bind m k).
Proof. intros Hm Hk s. destruct (Hm s) as (a & s' & E). run E. apply Hk. Qed.
Lemma returns_ret {S A} (a : A) : returns (S := S) (ret a).
Proof. intros s. by do 2 eexists. Qed.
Lemma returns_in_fs {A} (m : M U A) : returns m -> returns (in_fs m).
Proof.
  intros H w. destruct (H (unarchived w)) as (a & u & E). unfold in_fs, zoom. rewrite E. by do 2 eexists.
Qed.

(** The calls of the destination return, with a file when they open one. *)
Record calls_return : Prop := {
  MkdirAll_returns p perm : returns (MkdirAll methods fuel unarchiveFS p perm);
  Mkdir_returns : exists mkdir, fs_Mkdir (methods unarchiveFS) = Some mkdir /\
    forall p mode, returns (mkdir p mode);
  Chmod_returns : exists chmod, fs_Chmod (methods unarchiveFS) = Some chmod /\
    forall p mode, returns (chmod p mode);
  OpenFile_returns : exists openFile, fs_OpenFile (methods unarchiveFS) = Some openFile /\
    forall p flag mode u, exists f e u', openFile p flag mode u = (Ret (f, e), u') /\
      (e = None -> exists f', f = Some f' /\ returns (f_Close f') /\
        forall write, f_Write f' = Some write -> forall b, returns (write b))
}.

Section returning.
Context (Hc : calls_return).

Lemma fullReader_Read_less len w :
  (0 < len)%Z -> exists p e w', fullReader_Read len w = (Ret (p, e), w') /\
    (e = None -> length (unread w') < length (unread w)).
Proof.
  intros Hl. unfold fullReader_Read, ReadFull. go_simpl.
  destruct (Z.ltb_spec (Z.of_nat (length (unread w))) len) as [Hlt|Hge].
  - do 3 eexists. split; [reflexivity|]. case_bool_decide; [done|]. done.
  - do 3 eexists. split; [reflexivity|]. intros _. simpl. rewrite length_drop. lia.
Qed.

Lemma io_Copy_returns n write w :
  (forall b, returns (write b)) -> length (unread w) < n ->
  exists r w', io_Copy n bigBufMemory (fun b => in_fs (U := U) (write b)) fullReader w = (Ret r, w').
Proof.
  intros Hw. revert w. induction n as [|n IH]; [lia|]. intros w Hl. cbn [io_Copy].
  destruct (fullReader_Read_less bigBufMemory w ltac:(done)) as (p & e & w1 & E & Hl1).
  change (f_Read fullReader bigBufMemory) with (fullReader_Read (U := U) bigBufMemory). run E.
  match goal with |- exists r w', bind ?m _ w1 = _ =>
    assert (exists failed w2, m w1 = (Ret failed, w2) /\ unread w2 = unread w1) as (failed & w2 & E2 & Hu) end.
  { destruct p as [|b p]; [by do 2 eexists|].
    destruct (Hw (b :: p) (unarchived w1)) as ([nw ew] & u' & Ew).
    assert (in_fs (write (b :: p)) w1 = (Ret (nw, ew), set_unarchived u' w1)) as Ew1
      by (unfold in_fs, zoom; rewrite Ew; reflexivity).
    run Ew1. repeat case_match; by do 2 eexists. }
  run E2. destruct failed, e; try apply returns_ret. apply IH. rewrite Hu. specialize (Hl1 eq_refl). lia.
Qed.

Lemma write_out_returns f initial more w :
  (forall write, f_Write f = Some write -> forall b, returns (write b)) ->
  (more = true -> length (unread w) < fuel) ->
  exists e w', write_out fuel f initial more w = (Ret e, w').
Proof.
  intros Hf Hm. unfold write_out. destruct (f_Write f) as [write|]; [|apply returns_ret].
  destruct (Hf write eq_refl initial (unarchived w)) as ([n e] & u1 & E).
  assert (in_fs (write initial) w = (Ret (n, e), set_unarchived u1 w)) as E1
    by (unfold in_fs, zoom; rewrite E; reflexivity).
  run E1. destruct e as [e|]; [apply returns_ret|].
  destruct more; unfold negb; [|apply returns_ret].
  destruct (io_Copy_returns fuel write (set_unarchived u1 w) (Hf write eq_refl) (Hm eq_refl)) as (r & w2 & E2).
  run E2. apply returns_ret.
Qed.

Lemma writeFile_returns p mode initial more w :
  (more = true -> length (unread w) < fuel) ->
  exists e w', writeFile methods unarchiveFS fuel p mode initial more w = (Ret e, w').
Proof.
  intros Hm. unfold writeFile, base. destruct (OpenFile_returns Hc) as (openFile & -> & Hopen).
  destruct (Hopen p (Z.lor FlagWriteOnly (Z.lor FlagCreate FlagTruncate)) mode (unarchived w))
    as (f & e & u1 & E & Hf).
  assert (in_fs (openFile p (Z.lor FlagWriteOnly (Z.lor FlagCreate FlagTruncate)) mode) w =
    (Ret (f, e), set_unarchived u1 w)) as E1 by (unfold in_fs, zoom; rewrite E; reflexivity).
  run E1. destruct e as [e|]; [apply returns_ret|].
  destruct (Hf eq_refl) as (f' & -> & Hclose & Hwrite). simpl not_nil.
  destruct (write_out_returns f' initial more (set_unarchived u1 w) Hwrite Hm) as (r & w2 & E2).
  rewrite E2. match goal with |- exists e w', ?m w2 = _ => enough (returns m) as H by apply H end.
  apply returns_bind; [apply returns_in_fs, returns_bind; [done|intros ?; apply returns_ret]|].
  intros []. apply returns_bind; [|intros ?; apply returns_ret].
  destruct r; [apply returns_ret|]. intros w3. by do 2 eexists.
Qed.

Lemma job_work_returns j : returns (job_work methods unarchiveFS fuel j).
Proof.
  destruct j as [p mode|p mode data]; simpl; [|intros w; by apply writeFile_returns].
  unfold dir_work, base. destruct (Mkdir_returns Hc) as (mkdir & -> & Hmk), (Chmod_returns Hc) as (chmod & -> & Hch).
  apply returns_bind; [by apply returns_in_fs|]. intros [e|]; [|apply returns_ret].
  destruct (negb (error_Is e ErrExist)); [apply returns_ret|].
  apply returns_bind; [by apply returns_in_fs|]. intros ?. apply returns_ret.
Qed.

Lemma cachedMkdirAll_returns p perm w :
  exists e w', cachedMkdirAll methods unarchiveFS fuel p perm w = (Ret e, w') /\ unread w' = unread w.
Proof.
  unfold cachedMkdirAll. go_simpl. destruct (bool_decide _); [by do 2 eexists|].
  destruct (MkdirAll_returns Hc p perm (unarchived w)) as (e & u1 & E).
  assert (in_fs (MkdirAll methods fuel unarchiveFS p perm) w = (Ret e, set_unarchived u1 w)) as E1
    by (unfold in_fs, zoom; rewrite E; reflexivity).
  run E1. destruct e; by do 2 eexists.
Qed.
Lemma readProcessFile_returns h w :
  length (unread w) < fuel ->
  exists e w', readProcessFile methods unarchiveFS fuel h w = (Ret e, w').
Proof.
  intros Hl. unfold readProcessFile. go_simpl. destruct (callerCtx w); [apply returns_ret|].
  destruct (cachedMkdirAll_returns (Dir (resolvePath (h_Name h))) 448 w) as (e & w1 & E & Hu). run E.
  destruct e as [e|]; [apply returns_ret|]. destruct (IsDir (h_Mode h)); [by do 2 eexists|].
  destruct (fullReader_Read_less smallBufMemory w1 ltac:(done)) as (p & e & w2 & E2 & Hl2). run E2.
  destruct e as [e|].
  - destruct e; by do 2 eexists.
  - apply writeFile_returns. intros _. specialize (Hl2 eq_refl). rewrite Hu in Hl2. lia.
Qed.

(** There is enough fuel for what is left of the archive. *)
Definition fits c : Prop :=
  Forall (fun h => length (h_data h) < fuel) (entries c.2) /\
  (forall pick h, c.1 !! 0 = Some (GMain pick (MProcess h)) -> length (unread c.2) < fuel).

Lemma fits_step pick n end_ c c' : inv pick n end_ c -> fits c -> tar_step c c' -> fits c'.
Proof.
  intros (main & closed & cancels & jobs & w & -> & Hg) [Hes Hun] Hs. simpl in *.
  apply step_cases in Hs as [(main' & w' & E & ->)|[(w' & E & ->)|[[-> ->]|(k & at_ & at_' & w' & Hk & E & ->)]]].
  - unfold fits. simpl. destruct main as [| |h| | |e|e]; simpl in E.
    + unfold bind, gets in E. destruct (errs w); injection E as <- <-; by split.
    + unfold bind, gets in E. destruct (entries w) as [|h es] eqn:Ees.
      * case_bool_decide; injection E as <- <-; rewrite ?Ees; by split.
      * injection E as <- <-. apply Forall_cons in Hes as [Hh Hes]. by split.
    + apply bind_inv_Ret in E as (r & w1 & E & [= <- <-]). pose proof (readProcessFile_spawns h w) as Hsp.
      rewrite E in Hsp. destruct Hsp as [[= _ _ _ _ -> _ _ _] _]. split; [done|]. by destruct r.
    + injection E as <- <-. by split.
    + revert E. unfold receive_error, bind, gets.
      destruct (errs w), (wg_done w), pick; intros [= <- <-]; by split.
    + injection E as <- <-. by split.
    + done.
  - unfold run_closer in E. rewrite bind_gets in E. unfold id in E.
    by destruct (negb closed && closing w && Nat.eqb (wg w) 0); [injection E as <-|].
  - done.
  - assert (entries w' = entries w /\ unread w' = unread w) as [Ee Eu]; [|unfold fits; simpl; by rewrite Ee, Eu].
    destruct at_; simpl in E; rewrite ?bind_gets in E.
    + destruct (started w !! k) as [j|]; [|done]. apply bind_inv_Ret in E as (r & w1 & E & [= <- <-]).
      pose proof (job_work_background j w) as Hb. rewrite E in Hb.
      by destruct Hb as [([= _ _ _ _ He _ _ _] & _) Hu'].
    + by destruct (errs w); [|injection E as <- <-].
    + by destruct (wg w); [|injection E as <- <-].
    + done.
Qed.

(** When a goroutine can go on. *)
Lemma run_job_enabled n end_ main closed jobs w k at_ :
  good n end_ main closed jobs w -> jobs !! k = Some at_ -> k < length (started w) ->
  (exists at_' w', run_job methods unarchiveFS fuel k at_ w = (Ret at_', w')) \/
  at_ = JDone \/ exists e, at_ = JSend e /\ errs w <> None.
Proof.
  intros Hg Hk Hlt. destruct at_ as [|e| |]; simpl; rewrite ?bind_gets; [left| |left|by right; left].
  - destruct (lookup_lt_is_Some_2 (started w) k Hlt) as [j ->].
    destruct (job_work_returns j w) as (r & w' & E). run E. by do 2 eexists.
  - destruct (errs w) as [e'|] eqn:He; [right; right; by exists e|left; by do 2 eexists].
  - pose proof (good_live _ _ _ _ _ _ _ _ Hg Hk Hlt) as Hl. simpl in Hl.
    destruct (wg w); [lia|]. by do 2 eexists.
Qed.
Lemma read_enabled pick main w :
  (forall h, main = MProcess h -> length (unread w) < fuel) ->
  (exists main' w', read methods unarchiveFS fuel pick main w = (Ret main', w')) \/
  (exists e, main = MDone e) \/ main = MSelect /\ errs w = None /\ wg_done w = false.
Proof.
  intros Hf. destruct main as [| |h| | |e|e]; simpl.
  - left. rewrite bind_gets. destruct (errs w); by do 2 eexists.
  - left. rewrite bind_gets. destruct (entries w); [|by do 2 eexists].
    rewrite bind_gets. case_bool_decide; by do 2 eexists.
  - left. destruct (readProcessFile_returns h w (Hf h eq_refl)) as (r & w' & E). run E. by do 2 eexists.
  - left. by do 2 eexists.
  - unfold receive_error, bind, gets. destruct (errs w), (wg_done w), pick; try (left; by do 2 eexists); by right; right.
  - left. by do 2 eexists.
  - right. left. by eexists.
Qed.

(** A configuration in which nothing can happen any more. *)
Lemma stuck_is_done pick n end_ c :
  inv pick n end_ c -> fits c -> can_step (tstep methods unarchiveFS fuel) c = false ->
  exists e, c.1 !! 0 = Some (GMain pick (MDone e)) /\ readerDone c.2 = true /\ unarchiveErr c.2 = e /\
    forall k, k < length (started c.2) ->
      c.1 !! (3 + k) = Some (GJob k JDone) \/
      exists e', c.1 !! (3 + k) = Some (GJob k (JSend e')) /\ errs c.2 <> None.
Proof.
  intros (main & closed & cancels & jobs & w & -> & Hg) [Hes Hun] Hstuck.
  assert (Hno : forall i t t' w', (threads pick main closed cancels jobs) !! i = Some t ->
    tstep methods unarchiveFS fuel t w = (Ret t', w') -> False).
  { intros i t t' w' Hi E. pose proof (can_step_at (tstep methods unarchiveFS fuel) (_, w) i _ _ _ Hi E). congruence. }
  assert (Hjob : forall k at_, jobs !! k = Some at_ -> k < length (started w) ->
    at_ = JDone \/ exists e, at_ = JSend e /\ errs w <> None).
  { intros k at_ Hk Hlt. destruct (run_job_enabled _ _ _ _ _ _ _ _ Hg Hk Hlt) as [(at_' & w' & E)|H]; [|done].
    exfalso. apply (Hno (3 + k) (GJob k at_) (GJob k at_') w').
    - simpl. by rewrite list_lookup_imap, Hk.
    - simpl. by run E. }
  assert (exists e, main = MDone e) as [e ->].
  { destruct (read_enabled pick main w) as [(main' & w' & E)|[?|(-> & He & Hd)]]; [..|done|].
    { intros h ->. by eapply Hun. }
    { exfalso. apply (Hno 0 (GMain pick main) (GMain pick main') w'); [done|]. simpl. by run E. }
    exfalso. apply (Hno 1 (GCloser closed) (GCloser true) (set_closing true true w)); [done|].
    assert (wg w = 0) as H0.
    { rewrite (good_wg _ _ _ _ _ _ Hg). apply total_0. intros at_ [k Hk]%list_elem_of_lookup.
      apply lookup_take_Some in Hk as [Hk Hlt]. by destruct (Hjob k at_ Hk Hlt) as [->|(e & _ & ?)]. }
    destruct (good_entry _ _ _ _ _ _ Hg) as [Hcl _]. rewrite (good_closed _ _ _ _ _ _ Hg), Hd.
    simpl. unfold run_closer, bind, gets, id. by rewrite Hcl, H0. }
  destruct (good_seen _ _ _ _ _ _ Hg) as (Hr & Hu & _). exists e. split_and!; [done..|].
  intros k Hk. pose proof (good_room _ _ _ _ _ _ Hg). pose proof (good_jobs _ _ _ _ _ _ Hg).
  destruct (lookup_lt_is_Some_2 jobs k) as [at_ Hat]; [simpl in *; lia|]. simpl.
  rewrite list_lookup_imap, Hat. destruct (Hjob k at_ Hat Hk) as [->|(e' & -> & He)]; [by left|right; by exists e'].
Qed.
End returning.

(** C28: unpacking always comes to an end: with a destination whose calls return,
    no execution has more than six steps per entry and seven, and where one
    cannot go on [Done] is closed with the outcome in [UnarchiveErr], and every
    goroutine has finished or waits to report an error while one is waiting
    in the channel already. *)
Theorem read_comes_to_an_end pick cancels u es end_ n c :
  calls_return -> Forall (fun h => length (h_data h) < fuel) es ->
  nsteps tar_step n (start pick cancels u es end_) c ->
  n <= 6 * length es + 7 /\
  (can_step (tstep methods unarchiveFS fuel) c = false ->
   exists e, c.1 !! 0 = Some (GMain pick (MDone e)) /\ readerDone c.2 = true /\ unarchiveErr c.2 = e /\
     forall k, k < length (started c.2) ->
       c.1 !! (3 + k) = Some (GJob k JDone) \/
       exists e', c.1 !! (3 + k) = Some (GJob k (JSend e')) /\ errs c.2 <> None).
Proof.
  intros Hc Hes Hn.
  set (P := fun c => inv pick (length es) end_ c /\ fits c).
  assert (HP : forall c c', P c -> tar_step c c' -> P c').
  { intros c1 c2 [Hi Hf] Hs. split; [by eapply inv_step|by eapply fits_step]. }
  assert (H0 : P (start pick cancels u es end_)) by (split; [apply inv_start|by split]).
  split.
  - pose proof (steps_bounded _ tar_weight P HP (fun c c' _ => tar_step_weight c c') n _ _ H0 Hn).
    pose proof (tar_weight_start pick cancels u es end_). lia.
  - intros Hs. assert (P c) as [Hi Hf].
    { eapply reachable_invariant; [exact HP|exact H0|]. by apply (rtc_nsteps_2 n). }
    by eapply stuck_is_done.
Qed.

(** Goroutine [i] takes a step. *)
Ltac schedule i := eapply rtc_l; [eapply (step_goroutine _ _ _ i); [reflexivity|reflexivity]|simpl].
Ltac schedule_with i E :=
  eapply rtc_l; [eapply (step_goroutine _ _ _ i); [reflexivity|simpl; rewrite bind_assoc; run E; reflexivity]|simpl].

(** C39: an error of the last goroutines can get lost: when the file of the only
    entry of an archive cannot be opened there is an execution that ends with
    [Done] closed and [UnarchiveErr] [nil], the error still in the channel.
    The [select] that ends [readErr] finds both channels ready and takes the one
    that says that all is done. *)
Theorem late_error_is_lost h (e : error) (u u1 u2 : U) f openFile :
  let p := resolvePath (h_Name h) in
  IsDir (h_Mode h) = false -> h_end h = None -> (Z.of_nat (length (h_data h)) < smallBufMemory)%Z ->
  MkdirAll methods fuel unarchiveFS (Dir p) 448 u = (Ret None, u1) ->
  fs_OpenFile (methods unarchiveFS) = Some openFile ->
  openFile p (Z.lor FlagWriteOnly (Z.lor FlagCreate FlagTruncate)) (h_Mode h) u1 = (Ret (f, Some e), u2) ->
  exists c, reachable (tstep methods unarchiveFS fuel) (start true false u [h] EOF) c /\
    readerDone c.2 = true /\ unarchiveErr c.2 = None /\
    errs c.2 = Some (messageError e "opening destination file").
Proof.
  intros p Hd He Hl Em Eo Ef.
  set (w0 := set_unread (h_data h) (h_end h) (set_entries [] (start_world u [h] EOF))).
  set (w1 := set_wg 1 (set_started [FileJob p (h_Mode h) (h_data h)]
    (set_unread [] None (set_mkdirCache ({[Dir p]} ∪ ∅) (set_unarchived u1 w0))))).
  assert (readProcessFile methods unarchiveFS fuel h w0 = (Ret None, w1)) as E1.
  { assert (cachedMkdirAll methods unarchiveFS fuel (Dir p) 448 w0 =
      (Ret None, set_mkdirCache ({[Dir p]} ∪ ∅) (set_unarchived u1 w0))) as Ec.
    { unfold cachedMkdirAll. go_simpl. rewrite bool_decide_eq_false_2 by set_solver.
      by run (in_fs_run _ w0 _ _ Em). }
    unfold readProcessFile. go_simpl. change (callerCtx w0) with (@None error). cbv iota. fold p. run Ec. rewrite Hd.
    pose proof (fullReader_Read_run smallBufMemory (set_mkdirCache ({[Dir p]} ∪ ∅) (set_unarchived u1 w0)) He) as ER.
    cbv zeta in ER. simpl unread in ER. destruct (Z.ltb_spec (Z.of_nat (length (h_data h))) smallBufMemory); [|lia].
    by run ER. }
  set (e' := messageError e "opening destination file").
  assert (job_work methods unarchiveFS fuel (FileJob p (h_Mode h) (h_data h)) w1 =
    (Ret (Some e'), set_unarchived u2 w1)) as Ej.
  { unfold job_work, writeFile, base. rewrite Eo. by run (in_fs_run _ w1 _ _ Ef). }
  eexists. split.
  - unfold reachable, start, threads.
    do 2 schedule 0. schedule_with 0 E1. do 2 schedule 0.
    eapply rtc_l; [eapply (step_goroutine _ _ _ 3); [reflexivity|]|].
    { simpl. rewrite bind_assoc, bind_gets. change (started w1) with [FileJob p (h_Mode h) (h_data h)].
      simpl. rewrite bind_assoc. run Ej. reflexivity. }
    simpl. do 2 schedule 3. schedule 0. schedule 1. do 2 schedule 0. apply rtc_refl.
  - done.
Qed.
End run.

(** ** The theorems at concrete inputs *)
Definition demo_archive : list tar_entry :=
  [MkTarEntry "d" (2147483648 + 493) [] None; MkTarEntry "d/f" 420 demo_data None].
Definition demo_tstep := tstep (demo_methods (fun _ => false)) (Other 0) 5.
Definition demo_start : config (T := goroutine) (S := tworld demo_state) :=
  start false false ∅ demo_archive EOF.
Definition demo_schedule : list nat := first_schedule demo_tstep 30 demo_start.

Lemma demo_calls_return : calls_return (demo_methods (fun _ => false)) (Other 0) 5.
Proof.
  split.
  - intros p perm u. by do 2 eexists.
  - eexists. split; [reflexivity|]. intros p mode u. by do 2 eexists.
  - eexists. split; [reflexivity|]. intros p mode u. by do 2 eexists.
  - eexists. split; [reflexivity|]. intros p flag mode u. do 3 eexists. split; [reflexivity|].
    intros _. eexists. split; [reflexivity|]. split; [intros v; by do 2 eexists|].
    intros write [= <-] b v. by do 2 eexists.
Qed.

Lemma read_nil_means_finished_witness :
  exists c, run_schedule demo_tstep demo_schedule demo_start = Some c /\
    entries c.2 = [] /\ c.1 !! 4 = Some (GJob 1 JDone).
Proof.
  destruct (fmap_Some_1 (fun c : config => (readerDone c.2, unarchiveErr c.2, length (started c.2)))
    (run_schedule demo_tstep demo_schedule demo_start) (true, None, 2)) as (c & E & H); [vm_compute; reflexivity|].
  injection H as Hd He Hl.
  destruct (read_nil_means_finished (demo_methods (fun _ => false)) (Other 0) 5 false false ∅ demo_archive EOF c)
    as [H _]; [exact (run_schedule_reachable demo_tstep demo_schedule _ _ E)|].
  destruct (H (eq_sym Hd) (eq_sym He)) as (_ & Hes & Hj). exists c. split; [exact E|]. split; [exact Hes|].
  apply (Hj 1). rewrite <- Hl. lia.
Defined.

Lemma read_comes_to_an_end_witness :
  exists c, run_schedule demo_tstep demo_schedule demo_start = Some c /\
    length demo_schedule <= 19 /\ readerDone c.2 = true.
Proof.
  destruct (run_schedule_end demo_tstep demo_schedule demo_start) as (c & Hc & Hn & Hs); [vm_compute; reflexivity|].
  destruct (read_comes_to_an_end (demo_methods (fun _ => false)) (Other 0) 5 false false ∅ demo_archive EOF
    (length demo_schedule) c demo_calls_return) as [Hb Hend]; [by repeat constructor; simpl; lia|exact Hn|].
  exists c. split; [done|]. split; [exact Hb|]. by destruct (Hend Hs) as (e & _ & Hd & _).
Defined.

Lemma late_error_is_lost_witness :
  exists c, reachable (tstep (demo_methods (String.eqb "b")) (Other 0) 5) (start true false ∅ [demo_entry] EOF) c /\
    unarchiveErr c.2 = None /\ errs c.2 = Some (messageError ErrPermission "opening destination file").
Proof.
  destruct (late_error_is_lost (demo_methods (String.eqb "b")) (Other 0) 5 demo_entry ErrPermission ∅ ∅ ∅ None _
    eq_refl eq_refl eq_refl eq_refl eq_refl eq_refl) as (c & Hr & _ & Hu & He).
  exists c. by split_and!.
Defined.
