(* ===== verification/S3.v ===== *)
(** * The object store ([examples/s3/store.go], [examples/s3/fs.go])

    A key-value store over the objects of a bucket: a file is one object, a
    directory an object inside it that holds its mode.  The client library is
    the class [Client], the text of a time is [TimeFormat]; both are
    parameters.  [s3.FS] is the key-value file system on the store. *)
From Stdlib Require Import Ascii.
From S2P Require Import Prelude.
From S2P Require Import Paths.
From S2P Require Import Errors.
From S2P Require Import Modes.
From S2P Require Import Blob.
From S2P Require Import Record.
From S2P Require Import Txn.
From S2P Require Import KVFile.
From S2P Require Import KVFS.

Local Open Scope string_scope.

(** ** Keys of objects *)
Definition modeMetadataKey : string := "Mode".
Definition modTimeMetadataKey : string := "Modtime".
Definition rootPath : string := "files".
Definition filePrefix : string := "file-".
Definition dirMetaName : string := "dir-meta".

Definition fileToObjectKey (p : string) (isDir : bool) : string :=
  let '(dir, file) := Split p in
  if isDir then Join [rootPath; dir; file; dirMetaName]
  else Join [rootPath; dir; filePrefix +:+ file].

Definition objectKeyToFile {S} (p : string) : M S string :=
  let p := TrimPrefix p (rootPath +:+ "/") in
  let p := if HasSuffix p "/" then Join [p; dirMetaName] else p in
  let '(dir, file) := Split (Clean p) in
  let dir := Clean dir in
  if HasPrefix file filePrefix then ret (Join [dir; TrimPrefix file filePrefix])
  else if String.eqb file dirMetaName then ret dir
  else panic "Unrecognized file name".

(** ** Octal numbers

    [strconv.FormatUint(n, 8)] and [strconv.ParseUint(s, 8, 64)] for the mode,
    which has 32 bits. *)
Definition octalSize : Z := 8.

Definition digit_char (d : Z) : ascii := ascii_of_nat (48 + Z.to_nat d).
Fixpoint format_digits (fuel : nat) (n : Z) (acc : string) : string :=
  match fuel with
  | O => acc
  | S fuel =>
      let acc := String (digit_char (n `mod` octalSize)) acc in
      if (n / octalSize =? 0)%Z then acc else format_digits fuel (n / octalSize) acc
  end.
(** 64 bits have at most 22 digits. *)
Definition FormatUint (n : Z) : string := format_digits 22 n "".

Definition ErrSyntax : error := Errorf "invalid syntax" [].
Definition ErrRange : error := Errorf "value out of range" [].
Fixpoint parse_digits (s : string) (n : Z) : Z * err :=
  match s with
  | "" => (n, None)
  | String c s =>
      let d := (Z.of_nat (nat_of_ascii c) - 48)%Z in
      if ((d <? 0) || (octalSize <=? d))%Z then (0%Z, Some ErrSyntax)
      else
        let n := (n * octalSize + d)%Z in
        if (2 ^ 64 <=? n)%Z then ((2 ^ 64 - 1)%Z, Some ErrRange) else parse_digits s n
  end.
Definition ParseUint (s : string) : Z * err :=
  if String.eqb s "" then (0%Z, Some ErrSyntax) else parse_digits s 0.

(** ** The client and the format of times *)
Record ObjectInfo := MkObjectInfo {
  o_Key : string;
  o_Size : Z;
  o_LastModified : Z;
  o_UserMetadata : gmap string string;
  o_Err : err
}.

(** An object that is being read. *)
Record Object (ST : Type) := MkObject {
  obj_Stat : M ST (ObjectInfo * err);
  obj_ReadAt : Z -> Z -> M ST (list byte * err);
  obj_Close : M ST err
}.
Arguments MkObject {ST}.
Arguments obj_Stat {ST}.
Arguments obj_ReadAt {ST}.
Arguments obj_Close {ST}.

(** [minio.Client] at one bucket; [error_Code] is [minio.ToErrorResponse(err).Code]. *)
Class Client (ST : Type) := {
  StatObject : string -> M ST (ObjectInfo * err);
  GetObject : string -> M ST (option (Object ST) * err);
  PutObject : string -> list byte -> Z -> gmap string string -> M ST err;
  RemoveObject : string -> M ST err;
  ListObjects : string -> M ST (list ObjectInfo);
  error_Code : err -> string
}.

(** [time.Parse] and [Time.Format] for [time.RFC3339Nano]. *)
Class TimeFormat := {
  time_Format : Z -> string;
  time_Parse : string -> Z * err
}.

(** A store without records of its own. *)
#[export] Instance no_records ST : RecordOps ST Empty_set := {|
  rec_Data := Empty_set_rect _;
  rec_ReadDirNames := Empty_set_rect _;
  rec_Size := Empty_set_rect _;
  rec_Mode := Empty_set_rect _;
  rec_ModTime := Empty_set_rect _
|}.

Section s3.
Context {ST : Type} `{!Client ST, !TimeFormat, !GoRuntime}.
Notation W := (world ST).
Notation FD := (fileData ST Empty_set).
Implicit Types (name key : string).

Definition in_store {A} (m : M ST A) : M W A := zoom w_store set_store m.

Definition wrapS3Err (e : err) : err :=
  if String.eqb (error_Code e) "NoSuchKey" then Some ErrNotExist else e.

Definition stat key : M W (ObjectInfo * err) :=
  let* (info, e) := in_store (StatObject key) in ret (info, wrapS3Err e).

(** ** What a record reads when it is asked *)
Fixpoint dir_names key (infos : list ObjectInfo) (names : list string) : M W (list string * err) :=
  match infos with
  | [] => ret (names, None)
  | info :: infos =>
      match o_Err info with
      | Some e => ret ([], wrapS3Err (Some e))
      | None =>
          if String.eqb (o_Key info) key then dir_names key infos names
          else
            filePath <- objectKeyToFile (o_Key info) ;;
            dir_names key infos (names ++ [Base filePath])
      end
  end.
Definition getDirNamesFunc key : M W (list string * err) :=
  let '(prefix, _) := Split (Clean key) in
  infos <- in_store (ListObjects prefix) ;;
  dir_names key infos [].

(** The body of [getDataFunc] once the object is open. *)
Definition read_object (obj : Object ST) : M W (option Blob * err) :=
  let* (info, e) := in_store (obj_Stat obj) in
  match e with
  | Some e => ret (None, wrapS3Err (Some e))
  | None =>
      if (o_Size info <? 0)%Z then panic "makeslice: len out of range"
      else
        let* (read, e) := in_store (obj_ReadAt obj (o_Size info) 0) in
        buf <- in_heap (make_slice (copy_into (replicate (Z.to_nat (o_Size info)) zero) read)) ;;
        l <- in_heap (NewBytes buf) ;;
        ret (Some (BBytes l), wrapS3Err (if bool_decide (e = Some EOF) then None else e))
  end.
Definition getDataFunc key : M W (option Blob * err) :=
  let* (obj, e) := in_store (GetObject key) in
  match e with
  | Some e => ret (None, wrapS3Err (Some e))
  | None =>
      match obj with
      | None => nil_deref
      | Some obj => fun w =>
          match read_object obj w with
          | (Ret (b, e), w') =>
              (e' <- in_store (obj_Close obj) ;;
               ret (b, match e with None => e' | Some e => Some e end)) w'
          | (Panic why, w') => (_ <- in_store (obj_Close obj) ;; panic why) w'
          | r => r
          end
      end
  end.

(** ** [Get] *)
Definition record_of key (info : ObjectInfo) : option (FileRecord ST Empty_set) * err :=
  let '(modTime, e) :=
    match o_UserMetadata info !! modTimeMetadataKey with
    | Some modTimeStr => time_Parse modTimeStr
    | None => (o_LastModified info, None)
    end in
  match e with
  | Some e => (None, Some e)
  | None =>
      match o_UserMetadata info !! modeMetadataKey with
      | None => (None, Some ErrInvalid)
      | Some modeStr =>
          let '(modeInt, e) := ParseUint modeStr in
          match e with
          | Some e => (None, Some e)
          | None =>
              let mode := FileMode modeInt in
              (Some (BaseRecord (NewBaseFileRecord (o_Size info) modTime mode
                 (if IsDir mode then None else Some (getDataFunc key))
                 (if IsDir mode then Some (getDirNamesFunc key) else None))), None)
          end
      end
  end.

Definition Get name : M W (option (FileRecord ST Empty_set) * err) :=
  let key := fileToObjectKey name true in
  let* (info, e) := stat key in
  if errors_Is e ErrNotExist then
    let key := fileToObjectKey name false in
    let* (info, e) := stat key in
    match e with Some e => ret (None, Some e) | None => ret (record_of key info) end
  else match e with Some e => ret (None, Some e) | None => ret (record_of key info) end.

(** ** [Set] *)
Definition remove name : M W err :=
  let* (getRecord, e) := Get name in
  if errors_Is e ErrNotExist then ret None
  else match e with
  | Some e => ret (Some e)
  | None =>
      match getRecord with
      | None => nil_deref
      | Some r =>
          mode <- fr_Mode r ;;
          let key := fileToObjectKey name (IsDir mode) in
          in_store (RemoveObject (if IsDir mode then Dir key else key))
      end
  end.

(** A directory is no file: [None] lets [Set] go on. *)
Definition check_existing name : M W err :=
  let* (existingRecord, e) := Get name in
  if errors_Is e ErrNotExist then ret None
  else match e with
  | Some e => ret (Some e)
  | None =>
      match existingRecord with
      | None => nil_deref
      | Some r => mode <- fr_Mode r ;; ret (if IsDir mode then Some ErrIsDir else None)
      end
  end.

Definition Set_ name (record : option FD) : M W (err * option FD) :=
  match record with
  | None => e <- remove name ;; ret (e, None)
  | Some fd =>
      let* (mode, fd) := on_var fd fd_Mode in
      let key := fileToObjectKey name (IsDir mode) in
      e <- (if IsDir mode then ret None else check_existing name) ;;
      match e with
      | Some e => ret (Some e, Some fd)
      | None =>
          let* (d, fd) := on_var fd fd_Data in
          match d with
          | (_, Some e) => ret (Some e, Some fd)
          | (None, None) => nil_deref
          | (Some b, None) =>
              s <- in_heap (Blob_Bytes b) ;;
              data <- gets (fun w => read_slice (w_heap w) s) ;;
              length <- in_heap (Blob_Len b) ;;
              let* (mode, fd) := on_var fd fd_Mode in
              let* (modTime, fd) := on_var fd fd_ModTime in
              e <- in_store (PutObject key data length
                     (<[modeMetadataKey := FormatUint mode]>
                      {[modTimeMetadataKey := time_Format modTime]})) ;;
              ret (e, Some fd)
          end
      end
  end.

#[export] Instance s3_store : Store ST Empty_set Empty_set := {|
  s_Get := Get;
  s_Set := Set_;
  s_txn := None
|}.

(** ** [s3.FS] *)
Definition FS_NewFS : M W err := NewFS.
Definition FS_Open : string -> M W (option (handle ST Empty_set) * err) := Open.
Definition FS_OpenFile : string -> Z -> Z -> M W (option (handle ST Empty_set) * err) := OpenFile.
Definition FS_Mkdir : string -> Z -> M W err := Mkdir.
Definition FS_MkdirAll : string -> Z -> M W err := MkdirAll.
Definition FS_Remove : string -> M W err := Remove.
Definition FS_Rename : nat -> string -> string -> M W err := Rename.
Definition FS_Stat : string -> M W (option (fileInfo ST Empty_set) * err) := Stat.
Definition FS_Chmod : string -> Z -> M W err := Chmod.
Definition FS_Chtimes : string -> Z -> Z -> M W err := Chtimes.
End s3.
