(* ===== verification/S3Thms.v ===== *)
(** * Properties of the object store

    The keys of objects tell files and directories apart and give their paths
    back; with a client that keeps the contract of an object store what is set
    is what is got, and a directory cannot be removed. *)
From Stdlib Require Import Ascii.
From S2P Require Import Prelude.
From S2P Require Import Paths.
From S2P Require Import Errors.
From S2P Require Import Modes.
From S2P Require Import Blob.
From S2P Require Import BlobSpec.
From S2P Require Import Record.
From S2P Require Import Txn.
From S2P Require Import StoreSpec.
From S2P Require Import S3.

Local Open Scope string_scope.
Local Open Scope list_scope.

(** ** Octal numbers *)
Section octal.
Local Open Scope Z_scope.

Lemma digit_value d : 0 <= d < 8 -> Z.of_nat (nat_of_ascii (digit_char d)) - 48 = d.
Proof.
  intros Hd. unfold digit_char. rewrite nat_ascii_embedding by lia. lia.
Qed.

Lemma parse_format fuel n acc :
  0 <= n < 8 ^ Z.of_nat fuel -> n < 2 ^ 64 -> (0 < fuel)%nat ->
  parse_digits (format_digits fuel n acc) 0 = parse_digits acc n.
Proof.
  revert n acc. induction fuel as [|fuel IH]; intros n acc Hn Hmax Hf; [lia|].
  assert (Hstep : forall m, 0 <= m -> m * 8 + n mod 8 = n ->
    parse_digits (String (digit_char (n mod 8)) acc) m = parse_digits acc n).
  { intros m Hm E. cbn [parse_digits]. cbv zeta. pose proof (Z.mod_pos_bound n 8 ltac:(lia)).
    rewrite digit_value by lia. unfold octalSize. rewrite E.
    destruct (Z.ltb_spec (n mod 8) 0); [lia|]. destruct (Z.leb_spec 8 (n mod 8)); [lia|]. unfold orb.
    destruct (Z.leb_spec (2 ^ 64) n); [lia|done]. }
  cbn [format_digits]. unfold octalSize. pose proof (Z.div_mod n 8 ltac:(lia)). pose proof (Z.mod_pos_bound n 8 ltac:(lia)).
  destruct (Z.eqb_spec (n / 8) 0) as [E|E].
  - apply Hstep; lia.
  - assert (0 <= n / 8) by (apply Z.div_pos; lia).
    destruct fuel as [|fuel].
    { change (8 ^ Z.of_nat 1) with 8 in Hn. rewrite Z.div_small in E by lia. done. }
    rewrite IH; [apply Hstep; lia| |lia|lia]. split; [done|].
    apply Z.div_lt_upper_bound; [lia|].
    rewrite (Nat2Z.inj_succ (S fuel)), Z.pow_succ_r in Hn by lia. lia.
Qed.

Lemma format_digits_cons fuel n acc : exists c s, format_digits (S fuel) n acc = String c s.
Proof.
  revert n acc. induction fuel as [|fuel IH]; intros n acc; cbn [format_digits].
  - destruct (n / octalSize =? 0); eauto.
  - destruct (n / octalSize =? 0); [eauto|apply IH].
Qed.
Lemma ParseUint_FormatUint n : 0 <= n < 2 ^ 64 -> ParseUint (FormatUint n) = (n, None).
Proof.
  intros Hn. unfold ParseUint, FormatUint.
  destruct (format_digits_cons 21 n "") as (c & s & E). rewrite E. cbn [String.eqb]. rewrite <- E.
  rewrite parse_format; [done| |lia|lia]. change (8 ^ Z.of_nat 22) with (2 ^ 66). lia.
Qed.
End octal.

(** ** Keys *)
Section keys.
Implicit Types (p name e : string) (es : list string).

(** [path.Clean] of elements none of which climbs: the others stay. *)
Definition kept (e : string) : bool := negb (String.eqb e "" || String.eqb e ".").
Lemma clean_loop_kept rooted out es :
  Forall (fun e => e <> "..") es ->
  clean_loop rooted out es = rev out ++ List.filter kept es.
Proof.
  intros H. revert out. induction H as [|e es He Hes IH]; intros out; simpl; [by rewrite app_nil_r|].
  unfold kept at 1. destruct (String.eqb e "" || String.eqb e "."); simpl; [apply IH|].
  destruct (String.eqb_spec e ".."); [done|]. rewrite IH. simpl. by rewrite <- app_assoc.
Qed.
Lemma filter_kept_good es : good_elems es -> List.filter kept es = es.
Proof.
  induction 1 as [|e es He Hes IH]; [done|]. apply good_elem_spec in He as (H1 & H2 & _). simpl. unfold kept at 1.
  destruct (String.eqb_spec e ""), (String.eqb_spec e "."); try done. simpl. by rewrite IH.
Qed.

Lemma kept_good e : good_elem e = true -> kept e = true.
Proof.
  intros (H1 & H2 & _)%good_elem_spec. unfold kept.
  by destruct (String.eqb_spec e ""), (String.eqb_spec e ".").
Qed.

(** A path of good elements below ["files"], written with spare slashes. *)
Lemma Clean_files s es :
  List.filter kept (split_slash s) = es -> Forall (fun e => e <> "..") (split_slash s) ->
  Clean ("files/" +:+ s) = join_slash ("files" :: es).
Proof.
  intros E Hs. unfold Clean. change (split_slash ("files/" +:+ s)) with ("files" :: split_slash s).
  change (HasPrefix ("files/" +:+ s) "/") with false. change (String.eqb ("files/" +:+ s) "") with false. cbv iota.
  rewrite clean_loop_kept by by constructor.
  change (List.filter kept ("files" :: split_slash s)) with ("files" :: List.filter kept (split_slash s)).
  by rewrite E.
Qed.

Lemma Split_valid es e :
  good_elems (es ++ [e]) -> Split (of_elems (es ++ [e])) = (join_slash (es ++ [""]), e).
Proof.
  intros [Hes He]%Forall_app. rewrite Forall_singleton in He. apply good_elem_spec in He as (_ & _ & _ & _ & He).
  destruct es as [|e0 es]; [by apply Split_no_slash|].
  change (of_elems ((e0 :: es) ++ [e])) with (join_slash ((e0 :: es) ++ [e])).
  rewrite !join_slash_app by done. change (join_slash [e]) with e. by rewrite Split_slash.
Qed.
Lemma split_parent es :
  good_elems es -> split_slash (join_slash (es ++ [""])) = es ++ [""].
Proof.
  intros Hes. apply split_join; [by destruct es|]. apply Forall_app.
  split; [by apply good_elems_no_slash|by constructor].
Qed.
Lemma good_no_dotdot es : good_elems es -> Forall (fun e => e <> "..") es.
Proof. intros H. eapply Forall_impl; [exact H|]. intros e He%good_elem_spec. tauto. Qed.

Lemma filePrefix_good e : good_elem e = true -> good_elem (filePrefix +:+ e) = true.
Proof.
  intros (_ & _ & _ & Hv & Hs)%good_elem_spec. apply good_elem_spec. by split_and!.
Qed.

(** The key of a directory and of a file. *)
Lemma dir_key es :
  good_elems es -> fileToObjectKey (of_elems es) true = join_slash ("files" :: es ++ [dirMetaName]).
Proof.
  intros Hes. destruct es as [|e es _] using rev_ind; [reflexivity|].
  unfold fileToObjectKey. rewrite Split_valid by done. pose proof Hes as [Hes' He]%Forall_app.
  rewrite Forall_singleton in He. unfold Join. cbn [drop_empty]. simpl String.eqb at 1. cbv iota.
  change (join_slash [rootPath; join_slash (es ++ [""]); e; dirMetaName])
    with ("files/" +:+ (join_slash (es ++ [""]) +:+ "/" +:+ (e +:+ "/" +:+ dirMetaName))).
  pose proof (proj1 (good_elem_spec e) He) as (_ & _ & _ & _ & Hs).
  assert (E : split_slash (join_slash (es ++ [""]) +:+ "/" +:+ (e +:+ "/" +:+ dirMetaName)) =
    (es ++ [""]) ++ [e; dirMetaName]).
  { by rewrite split_slash_append, split_parent, split_slash_append, (split_slash_elem e). }
  rewrite (Clean_files _ ((es ++ [e]) ++ [dirMetaName])); [done|..]; rewrite E.
  - rewrite !List.filter_app, filter_kept_good by done. simpl. rewrite app_nil_r.
    by rewrite kept_good, <- app_assoc.
  - repeat (apply Forall_app; split); try (by repeat constructor); [by apply good_no_dotdot|].
    constructor; [|by repeat constructor]. by apply good_elem_spec in He as (_ & _ & ? & _).
Qed.
Lemma file_key es e :
  good_elems (es ++ [e]) ->
  fileToObjectKey (of_elems (es ++ [e])) false = join_slash ("files" :: es ++ [filePrefix +:+ e]).
Proof.
  intros Hes. unfold fileToObjectKey. rewrite Split_valid by done. pose proof Hes as [Hes' He]%Forall_app.
  rewrite Forall_singleton in He. apply filePrefix_good in He.
  pose proof (proj1 (good_elem_spec _) He) as (_ & _ & Hd & _ & Hs).
  unfold Join. cbn [drop_empty]. simpl String.eqb at 1. cbv iota.
  change (join_slash [rootPath; join_slash (es ++ [""]); filePrefix +:+ e])
    with ("files/" +:+ (join_slash (es ++ [""]) +:+ "/" +:+ (filePrefix +:+ e))).
  assert (E : split_slash (join_slash (es ++ [""]) +:+ "/" +:+ (filePrefix +:+ e)) =
    (es ++ [""]) ++ [filePrefix +:+ e]).
  { by rewrite split_slash_append, split_parent, (split_slash_elem (filePrefix +:+ e)). }
  rewrite (Clean_files _ (es ++ [filePrefix +:+ e])); [done|..]; rewrite E.
  - rewrite !List.filter_app, filter_kept_good by done.
    change (List.filter kept [filePrefix +:+ e]) with (if kept (filePrefix +:+ e) then [filePrefix +:+ e] else []).
    by rewrite kept_good, app_nil_r.
  - repeat (apply Forall_app; split); try (by repeat constructor). by apply good_no_dotdot.
Qed.

Lemma HasSuffix_slash d f : f <> "" -> contains_char slash f = false -> HasSuffix (d +:+ f) "/" = false.
Proof.
  intros Hf Hs. unfold HasSuffix. rewrite rev_string_app.
  assert (contains_char slash (rev_string f) = false) as Hr
    by (unfold rev_string; by rewrite contains_char_rev, Hs).
  destruct (rev_string f) as [|c r] eqn:E.
  { apply (f_equal rev_string) in E. by rewrite rev_string_involutive in E. }
  simpl in Hr. apply orb_false_iff in Hr as [Hc _]. change (rev_string "/") with "/".
  unfold HasPrefix. simpl. by rewrite Hc.
Qed.
Lemma Clean_parent es : good_elems es -> Clean (join_slash (es ++ [""])) = of_elems es.
Proof.
  intros Hes. destruct es as [|e es]; [done|]. rewrite join_slash_app by done. by apply Clean_trailing.
Qed.

(** ... and back. *)
Lemma objectKeyToFile_split {S} (s : S) es f :
  good_elems (es ++ [f]) ->
  objectKeyToFile (join_slash ("files" :: es ++ [f])) s =
    (if HasPrefix f filePrefix then ret (Join [of_elems es; TrimPrefix f filePrefix])
     else if String.eqb f dirMetaName then ret (of_elems es) else panic "Unrecognized file name") s.
Proof.
  intros Hg. unfold objectKeyToFile.
  assert (join_slash ("files" :: es ++ [f]) = (rootPath +:+ "/") +:+ of_elems (es ++ [f])) as -> by by destruct es.
  rewrite TrimPrefix_app. pose proof Hg as [Hes Hf]%Forall_app. rewrite Forall_singleton in Hf.
  apply good_elem_spec in Hf as (Hne & _ & _ & _ & Hs).
  assert (exists d, of_elems (es ++ [f]) = d +:+ f) as [d Ed].
  { destruct es as [|e0 es]; [by exists ""|]. exists (join_slash (e0 :: es) +:+ "/").
    change (of_elems ((e0 :: es) ++ [f])) with (join_slash ((e0 :: es) ++ [f])).
    by rewrite join_slash_app, app_assoc_s. }
  assert (HasSuffix (of_elems (es ++ [f])) "/" = false) as -> by (rewrite Ed; by apply HasSuffix_slash).
  assert (Clean (of_elems (es ++ [f])) = of_elems (es ++ [f])) as ->.
  { assert (of_elems (es ++ [f]) = join_slash (es ++ [f])) as -> by by destruct es.
    apply Clean_join; [by destruct es|done]. }
  by rewrite Split_valid, Clean_parent.
Qed.
Lemma objectKeyToFile_dir {S} (s : S) es :
  good_elems es -> objectKeyToFile (join_slash ("files" :: es ++ [dirMetaName])) s = (Ret (of_elems es), s).
Proof.
  intros Hes. rewrite objectKeyToFile_split; [done|]. apply Forall_app. split; [done|]. by repeat constructor.
Qed.
Lemma objectKeyToFile_file {S} (s : S) es e :
  good_elems (es ++ [e]) ->
  objectKeyToFile (join_slash ("files" :: es ++ [filePrefix +:+ e])) s = (Ret (of_elems (es ++ [e])), s).
Proof.
  intros Hg. pose proof Hg as [Hes He]%Forall_app. rewrite Forall_singleton in He.
  rewrite objectKeyToFile_split.
  - rewrite HasPrefix_app, TrimPrefix_app, Join_snoc, elems_of_elems by (done || by apply ValidPath_of_elems). done.
  - apply Forall_app. rewrite Forall_singleton. split; [done|]. by apply filePrefix_good.
Qed.

(** A directory inside another is listed by a common prefix of its keys. *)
Lemma objectKeyToFile_prefix {S} (s : S) es :
  good_elems es -> es <> [] ->
  objectKeyToFile (join_slash ("files" :: es ++ [""])) s = (Ret (of_elems es), s).
Proof.
  intros Hes Hne. rewrite <- (objectKeyToFile_dir s es Hes). unfold objectKeyToFile.
  assert (forall f, join_slash ("files" :: es ++ [f]) = (rootPath +:+ "/") +:+ join_slash (es ++ [f])) as E
    by by destruct es.
  rewrite !E, !TrimPrefix_app.
  assert (HasSuffix (join_slash (es ++ [dirMetaName])) "/" = false) as ->.
  { rewrite join_slash_app by done. rewrite <- app_assoc_s. by apply HasSuffix_slash. }
  assert (HasSuffix (join_slash (es ++ [""])) "/" = true) as ->.
  { rewrite join_slash_app by done. unfold HasSuffix. change (join_slash [""]) with "". rewrite app_nil_r_s, rev_string_app.
    apply HasPrefix_app. }
  assert (Join [join_slash (es ++ [""]); dirMetaName] = join_slash (es ++ [dirMetaName])) as ->.
  { assert (join_slash (es ++ [""]) = join_slash es +:+ "/") as Ej by by rewrite join_slash_app.
    unfold Join. rewrite drop_empty_cons by (rewrite Ej; by destruct (join_slash es)).
    change (join_slash [join_slash (es ++ [""]); dirMetaName]) with (join_slash (es ++ [""]) +:+ "/" +:+ dirMetaName).
    unfold Clean. rewrite split_slash_append, split_parent by done.
    assert (HasPrefix (join_slash (es ++ [""]) +:+ "/" +:+ dirMetaName) "/" = false) as ->.
    { rewrite Ej, app_assoc_s. by apply HasPrefix_slash_join. }
    assert (String.eqb (join_slash (es ++ [""]) +:+ "/" +:+ dirMetaName) "" = false) as ->.
    { rewrite Ej. by destruct (join_slash es). }
    rewrite clean_loop_kept.
    - rewrite !List.filter_app, filter_kept_good by done. simpl. rewrite app_nil_r. by destruct es.
    - repeat (apply Forall_app; split); try (by repeat constructor). by apply good_no_dotdot. }
  done.
Qed.

(** The elements of a key. *)
Lemma fileToObjectKey_elems p isDir :
  ValidPath p = true -> (isDir = false -> p <> ".") ->
  exists es f, good_elems (es ++ [f]) /\ fileToObjectKey p isDir = join_slash ("files" :: es ++ [f]) /\
    (forall S (s : S), objectKeyToFile (join_slash ("files" :: es ++ [f])) s = (Ret p, s)) /\
    (f = dirMetaName <-> isDir = true).
Proof.
  intros Hp Hd. destruct isDir.
  - destruct (ValidPath_elems p Hp) as [Hg <-]. exists (elems p), dirMetaName.
    split_and!; [|by apply dir_key|intros; by apply objectKeyToFile_dir|done].
    apply Forall_app. split; [done|by repeat constructor].
  - destruct (ValidPath_cases p Hp) as [->|(es & e & Hes & He & _ & -> & _)]; [by destruct Hd|].
    assert (good_elems (es ++ [e])) as Hg by (apply Forall_app; by rewrite Forall_singleton).
    exists es, (filePrefix +:+ e).
    split_and!; [|by apply file_key|intros; by apply objectKeyToFile_file|].
    + apply Forall_app. rewrite Forall_singleton. split; [done|by apply filePrefix_good].
    + by split.
Qed.

(** The key of an object gives the path back of the file or directory that
    it was made for, a key belongs to one path and kind only, and the prefix that
    a listing has for a directory gives the directory. *)
Theorem object_keys_roundtrip {S} (s : S) p isDir p' isDir' :
  ValidPath p = true -> ValidPath p' = true ->
  (isDir = false -> p <> ".") -> (isDir' = false -> p' <> ".") ->
  objectKeyToFile (fileToObjectKey p isDir) s = (Ret p, s) /\
  (p <> "." -> objectKeyToFile (Dir (fileToObjectKey p true) +:+ "/") s = (Ret p, s)) /\
  (fileToObjectKey p isDir = fileToObjectKey p' isDir' -> p = p' /\ isDir = isDir').
Proof.
  intros Hp Hp' Hd Hd'.
  destruct (fileToObjectKey_elems p isDir Hp Hd) as (es & f & Hg & E & Hback & Hf).
  destruct (fileToObjectKey_elems p' isDir' Hp' Hd') as (es' & f' & Hg' & E' & Hback' & Hf').
  split_and!.
  - by rewrite E.
  - intros Hne. destruct (ValidPath_elems p Hp) as [Hgp Ep]. rewrite <- Ep at 1. rewrite dir_key by done.
    assert (join_slash ("files" :: elems p ++ [dirMetaName]) = of_elems (("files" :: elems p) ++ [dirMetaName])) as -> by done.
    rewrite Dir_snoc by (constructor; [done|]; apply Forall_app; split; [done|by repeat constructor]).
    assert (of_elems ("files" :: elems p) +:+ "/" = join_slash ("files" :: elems p ++ [""])) as ->.
    { change (of_elems ("files" :: elems p)) with (join_slash ("files" :: elems p)).
      change ("files" :: elems p ++ [""]) with (("files" :: elems p) ++ [""]). by rewrite join_slash_app. }
    rewrite objectKeyToFile_prefix; [by rewrite Ep|done|]. by rewrite elems_nil.
  - rewrite E, E'. intros Ek.
    assert (("files" :: es ++ [f]) = ("files" :: es' ++ [f'])) as [= Hes].
    { rewrite <- (split_join ("files" :: es ++ [f])), <- (split_join ("files" :: es' ++ [f'])), Ek; [done|done| |done|];
        apply good_elems_no_slash; by constructor. }
    apply app_inj_tail in Hes as [-> ->].
    specialize (Hback S s). rewrite Hback' in Hback. injection Hback as ->. split; [done|].
    destruct isDir, isDir'; naive_solver.
Qed.
End keys.

(** ** The contract of the client

    The objects of the bucket, each with its data and its metadata. *)
Class LawfulClient (ST : Type) `{!Client ST, !TimeFormat} := {
  bucket : ST -> gmap string (list byte * gmap string string);
  time_valid : Z -> Prop;

  law_time t : time_valid t -> time_Parse (time_Format t) = (t, None);
  law_nil_Code : error_Code None <> "NoSuchKey";
  law_EOF_Code : error_Code (Some EOF) <> "NoSuchKey";
  law_StatObject s key data md :
    bucket s !! key = Some (data, md) ->
    exists info s', StatObject key s = (Ret (info, None), s') /\ bucket s' = bucket s /\
      o_Size info = Z.of_nat (length data) /\ o_UserMetadata info = md;
  law_StatObject_missing s key :
    bucket s !! key = None ->
    exists info e s', StatObject key s = (Ret (info, Some e), s') /\ bucket s' = bucket s /\
      error_Code (Some e) = "NoSuchKey";
  law_GetObject s key data md :
    bucket s !! key = Some (data, md) ->
    exists obj s', GetObject key s = (Ret (Some obj, None), s') /\ bucket s' = bucket s /\
      (forall s, exists info s', obj_Stat obj s = (Ret (info, None), s') /\ bucket s' = bucket s /\
         o_Size info = Z.of_nat (length data)) /\
      (forall s, exists e s', obj_ReadAt obj (Z.of_nat (length data)) 0 s = (Ret (data, e), s') /\
         bucket s' = bucket s /\ (e = None \/ e = Some EOF)) /\
      (forall s, exists s', obj_Close obj s = (Ret None, s') /\ bucket s' = bucket s);
  law_PutObject s key data md :
    exists s', PutObject key data (Z.of_nat (length data)) md s = (Ret None, s') /\
      bucket s' = <[key := (data, md)]> (bucket s);
  law_RemoveObject s key :
    exists s', RemoveObject key s = (Ret None, s') /\ bucket s' = delete key (bucket s)
}.

Section lawful.
Context {ST : Type} `{!Client ST, !TimeFormat, !LawfulClient ST, !GoRuntime}.
Abbreviation W := (world ST).
Implicit Types (name key : string) (data : list byte) (w : W).

(** The metadata that [Set] writes. *)
Definition metadata (mode modTime : Z) : gmap string string :=
  <[modeMetadataKey := FormatUint mode]> {[modTimeMetadataKey := time_Format modTime]}.

Lemma wrapS3Err_None : wrapS3Err None = None.
Proof. unfold wrapS3Err. destruct (String.eqb_spec (error_Code None) "NoSuchKey") as [E|]; [|done]. by apply law_nil_Code in E. Qed.

Lemma stat_found key data md w :
  bucket (w_store w) !! key = Some (data, md) ->
  exists info s', stat key w = (Ret (info, None), set_store s' w) /\ bucket s' = bucket (w_store w) /\
    o_Size info = Z.of_nat (length data) /\ o_UserMetadata info = md.
Proof.
  intros Hst. destruct (law_StatObject _ _ _ _ Hst) as (info & s' & E & Hb & Hs & Hm). exists info, s'.
  split; [|done]. unfold stat, in_store, bind, zoom. rewrite E. by rewrite wrapS3Err_None.
Qed.
Lemma stat_missing key w :
  bucket (w_store w) !! key = None ->
  exists info s', stat key w = (Ret (info, Some ErrNotExist), set_store s' w) /\ bucket s' = bucket (w_store w).
Proof.
  intros Hst. destruct (law_StatObject_missing _ _ Hst) as (info & e & s' & E & Hb & Hc). exists info, s'.
  split; [|done]. unfold stat, in_store, bind, zoom. rewrite E. unfold wrapS3Err. by rewrite Hc.
Qed.

(** The record made from the metadata. *)
Lemma record_of_metadata key info mode modTime :
  o_UserMetadata info = metadata mode modTime -> time_valid modTime -> (0 <= mode < 2 ^ 32)%Z ->
  record_of key info =
    (Some (BaseRecord (NewBaseFileRecord (o_Size info) modTime mode
       (if IsDir mode then None else Some (getDataFunc key))
       (if IsDir mode then Some (getDirNamesFunc key) else None))), None).
Proof.
  intros Hm Ht Hmode. unfold record_of. rewrite Hm. unfold metadata.
  rewrite lookup_insert_ne by done. rewrite lookup_singleton_eq, law_time by done. rewrite lookup_insert_eq.
  rewrite ParseUint_FormatUint by lia. unfold FileMode. by rewrite Z.mod_small.
Qed.

(** What the bucket has under a name. *)
Definition stored (b : gmap string (list byte * gmap string string)) name (mode modTime : Z) data : Prop :=
  b !! fileToObjectKey name (IsDir mode) = Some (data, metadata mode modTime) /\
  (IsDir mode = false -> b !! fileToObjectKey name true = None).

Lemma Get_stored name mode modTime data w :
  stored (bucket (w_store w)) name mode modTime data -> time_valid modTime -> (0 <= mode < 2 ^ 32)%Z ->
  let key := fileToObjectKey name (IsDir mode) in
  exists s', bucket s' = bucket (w_store w) /\
    Get name w = (Ret (Some (BaseRecord (NewBaseFileRecord (Z.of_nat (length data)) modTime mode
      (if IsDir mode then None else Some (getDataFunc key))
      (if IsDir mode then Some (getDirNamesFunc key) else None))), None), set_store s' w).
Proof.
  intros [Hk Hd] Ht Hm. unfold Get. destruct (IsDir mode) eqn:Em.
  - destruct (stat_found _ _ _ _ Hk) as (info & s' & E & Hb & Hs & Hmd). run E.
    exists s'. split; [done|]. simpl errors_Is. cbv iota. rewrite (record_of_metadata _ _ mode modTime) by done.
    by rewrite Em, Hs.
  - destruct (stat_missing _ _ (Hd eq_refl)) as (info & s1 & E1 & Hb1). run E1.
    change (errors_Is (Some ErrNotExist) ErrNotExist) with true. cbv iota.
    destruct (stat_found (fileToObjectKey name false) data (metadata mode modTime) (set_store s1 w))
      as (info2 & s2 & E2 & Hb2 & Hs & Hmd); [simpl; by rewrite Hb1|].
    run E2. exists s2. split; [simpl in Hb2; congruence|].
    rewrite (record_of_metadata _ _ mode modTime) by done. by rewrite Em, Hs.
Qed.
Lemma Get_missing name w :
  bucket (w_store w) !! fileToObjectKey name true = None ->
  bucket (w_store w) !! fileToObjectKey name false = None ->
  exists s', bucket s' = bucket (w_store w) /\ Get name w = (Ret (None, Some ErrNotExist), set_store s' w).
Proof.
  intros Hd Hf. unfold Get. destruct (stat_missing _ _ Hd) as (info & s1 & E1 & Hb1). run E1.
  change (errors_Is (Some ErrNotExist) ErrNotExist) with true. cbv iota.
  destruct (stat_missing (fileToObjectKey name false) (set_store s1 w)) as (info2 & s2 & E2 & Hb2); [simpl; by rewrite Hb1|].
  run E2. exists s2. split; [simpl in Hb2; congruence|done].
Qed.

Lemma in_store_run {A} (m : M ST A) w r s' :
  m (w_store w) = (r, s') -> in_store m w = (r, set_store s' w).
Proof. intros E. unfold in_store, zoom. by rewrite E. Qed.

(** Opening the object and reading all of it. *)
Lemma getDataFunc_run key data md w :
  bucket (w_store w) !! key = Some (data, md) -> wf_heap (w_heap w) ->
  exists b w', getDataFunc key w = (Ret (Some b, None), w') /\ blob_data (w_heap w') b data /\ 
    bucket (w_store w') = bucket (w_store w).
Proof.
  intros Hk Hwf. destruct (law_GetObject _ _ _ _ Hk) as (obj & s1 & E1 & Hb1 & Hstat & Hread & Hclose).
  destruct (Hstat s1) as (info & s2 & E2 & Hb2 & Hs2).
  destruct (Hread s2) as (e & s3 & E3 & Hb3 & He).
  destruct (Hclose s3) as (s4 & E4 & Hb4).
  destruct (new_blob_spec (w_heap w) data Hwf) as (sl & h1 & l & h2 & Es & El & Hwf2 & Hx2 & Hr & b & Hb & Hsl).
  assert (read_object obj (set_store s1 w) =
    (Ret (Some (BBytes l), None), set_heap h2 (set_store s3 w))) as Eo.
  { unfold read_object. run (in_store_run _ (set_store s1 w) _ _ E2). rewrite Hs2.
    destruct (Z.ltb_spec (Z.of_nat (length data)) 0); [lia|].
    run (in_store_run _ (set_store s2 w) _ _ E3).
    rewrite copy_into_full by (rewrite length_replicate; lia).
    run (in_heap_run _ (set_store s3 w) _ _ Es). run (in_heap_run _ (set_heap h1 (set_store s3 w)) _ _ El).
    destruct He as [-> | ->]; unfold ret; simpl; by rewrite wrapS3Err_None. }
  exists (BBytes l). eexists. unfold getDataFunc. run (in_store_run _ w _ _ E1). rewrite Eo.
  run (in_store_run _ (set_heap h2 (set_store s3 w)) _ _ E4). split; [reflexivity|]. split; [|simpl; congruence].
  exists b. split; [done|]. simpl. by rewrite Hsl, Hr.
Qed.

Lemma blob_data_ext h h' b data : wf_heap h -> ext h h' -> blob_data h b data -> blob_data h' b data.
Proof.
  intros Hwf Hx. destruct b as [l|d]; [|done]. intros (b & Hu & ->). exists b.
  split; [by eapply ext_usable|]. symmetry. destruct Hu as [Hb _]. apply read_slice_eq; [done|by apply (wf_blobs h Hwf l)|].
  intros. by apply (ext_arrays h h').
Qed.

(** ** [Set] *)
Lemma check_existing_file name w :
  bucket (w_store w) !! fileToObjectKey name true = None ->
  (forall v, bucket (w_store w) !! fileToObjectKey name false = Some v ->
     exists mode modTime data, stored (bucket (w_store w)) name mode modTime data /\
       time_valid modTime /\ (0 <= mode < 2 ^ 32)%Z /\ IsDir mode = false) ->
  exists s', check_existing name w = (Ret None, set_store s' w) /\ bucket s' = bucket (w_store w).
Proof.
  intros Hd Hf. unfold check_existing.
  destruct (bucket (w_store w) !! fileToObjectKey name false) as [v|] eqn:Ef.
  - destruct (Hf v eq_refl) as (mode & modTime & data & Hst & Ht & Hm & Hfile).
    destruct (Get_stored name mode modTime data w Hst Ht Hm) as (s' & Hb & E). run E.
    exists s'. split; [|done]. simpl errors_Is. cbv iota. unfold bind, fr_Mode, Base_Mode, ret. simpl.
    by rewrite Hfile.
  - destruct (Get_missing name w Hd Ef) as (s' & Hb & E). run E. exists s'. by split.
Qed.

Lemma keys_differ name :
  ValidPath name = true -> name <> "." -> fileToObjectKey name true <> fileToObjectKey name false.
Proof.
  intros Hv Hd E. by destruct (object_keys_roundtrip tt name true name false Hv Hv) as (_ & _ & Hinj);
    [done|done|destruct (Hinj E)].
Qed.

Lemma Dir_key_differs name mode :
  ValidPath name = true -> IsDir mode = true ->
  Dir (fileToObjectKey name (IsDir mode)) <> fileToObjectKey name (IsDir mode).
Proof.
  intros Hv -> E. destruct (ValidPath_elems name Hv) as [Hg Ep].
  assert (good_elems ("files" :: elems name ++ [dirMetaName])) as Hk.
  { constructor; [done|]. apply Forall_app. split; [done|by repeat constructor]. }
  rewrite <- Ep, dir_key in E by done.
  change (join_slash ("files" :: elems name ++ [dirMetaName]))
    with (of_elems ("files" :: elems name ++ [dirMetaName])) in E.
  pose proof (length_elems_Dir (of_elems ("files" :: elems name ++ [dirMetaName]))) as Hl.
  rewrite E in Hl. specialize (Hl (ValidPath_of_elems _ Hk)).
  assert (of_elems ("files" :: elems name ++ [dirMetaName]) <> ".") as Hne by by destruct (elems name).
  specialize (Hl Hne). lia.
Qed.

(** A file may be set where no directory is and where a file is that was set
    before or none. *)
Definition free_for_file (b : gmap string (list byte * gmap string string)) name : Prop :=
  name <> "." /\ b !! fileToObjectKey name true = None /\
  forall v, b !! fileToObjectKey name false = Some v ->
    exists mode modTime data, stored b name mode modTime data /\
      time_valid modTime /\ (0 <= mode < 2 ^ 32)%Z /\ IsDir mode = false.

Lemma Set_stores name (fd : fileData ST Empty_set) mode modTime b data w h' :
  ValidPath name = true -> (IsDir mode = false -> free_for_file (bucket (w_store w)) name) ->
  fd_mode fd = Some mode -> fd_mtime fd = Some modTime -> gives fd (w_heap w) b h' ->
  wf_heap h' -> blob_data h' b data ->
  exists fd' w', Set_ name (Some fd) w = (Ret (None, Some fd'), w') /\
    stored (bucket (w_store w')) name mode modTime data.
Proof.
  intros Hv Hfree Hmode Htime Hgives Hwf Hdata. unfold Set_.
  destruct (fd_Mode_run fd mode w Hmode) as (fd1 & E1 & Hs1).
  assert (on_var fd fd_Mode w = (Ret (mode, fd1), w)) as Ev1 by (unfold on_var; by rewrite E1).
  run Ev1.
  assert (exists s', (if IsDir mode then ret None else check_existing name) w = (Ret None, set_store s' w) /\
    bucket s' = bucket (w_store w)) as (s' & Ec & Hb).
  { destruct (IsDir mode) eqn:Em.
    - exists (w_store w). by destruct w.
    - destruct (Hfree eq_refl) as (_ & Hd & Hf). by apply check_existing_file. }
  run Ec.
  destruct (Hgives fd1 (set_store s' w) Hs1 eq_refl) as (fd2 & E2 & Hk2 & Hl2).
  assert (on_var fd1 fd_Data (set_store s' w) = (Ret ((Some b, None), fd2), set_heap h' (set_store s' w))) as Ev2
    by (unfold on_var; by rewrite E2).
  run Ev2.
  destruct (Blob_Bytes_spec h' b data Hwf Hdata) as (sl & h2 & Es & Hwf2 & Hx2 & _ & _ & Hr).
  run (in_heap_run _ (set_heap h' (set_store s' w)) _ _ Es).
  rewrite bind_gets. simpl w_heap. rewrite Hr.
  run (in_heap_run _ (set_heap h2 (set_heap h' (set_store s' w))) _ _
    (Blob_Len_spec h2 b data Hwf2 (blob_data_ext _ _ _ _ Hwf Hx2 Hdata))).
  set (w2 := set_heap h2 _).
  assert (Hm2 : fd_mode fd2 = Some mode).
  { by rewrite (keeps_mode _ _ Hk2). }
  assert (Ht2 : fd_mtime fd2 = Some modTime).
  { by rewrite (keeps_mtime _ _ Hk2). }
  destruct (fd_Mode_run fd2 mode w2 Hm2) as (fd3 & E3 & Hs3).
  assert (on_var fd2 fd_Mode w2 = (Ret (mode, fd3), w2)) as Ev3 by (unfold on_var; by rewrite E3).
  run Ev3.
  destruct (fd_ModTime_run fd3 modTime w2) as (fd4 & E4 & Hs4); [by rewrite (same_mtime _ _ Hs3)|].
  assert (on_var fd3 fd_ModTime w2 = (Ret (modTime, fd4), w2)) as Ev4 by (unfold on_var; by rewrite E4).
  run Ev4.
  destruct (law_PutObject (w_store w2) (fileToObjectKey name (IsDir mode)) data (metadata mode modTime)) as (s5 & E5 & Hb5).
  unfold metadata in E5. run (in_store_run _ w2 _ _ E5). do 2 eexists. split; [reflexivity|].
  change (bucket s5 = <[fileToObjectKey name (IsDir mode) := (data, metadata mode modTime)]> (bucket s')) in Hb5.
  unfold stored. simpl w_store. rewrite Hb5, Hb. split; [by rewrite lookup_insert_eq|].
  intros Hf. rewrite Hf, lookup_insert_ne by (by apply not_eq_sym, keys_differ; [|apply (Hfree Hf)]).
  by apply (Hfree Hf).
Qed.

(** C35: what is set is what is got: on a client that keeps the contract of an
    object store, after [Set] of a file or directory every later [Get] of the
    name, as long as the bucket is the same, has the mode and the time, and the
    record of a file has the data. *)
Theorem Set_then_Get name (fd : fileData ST Empty_set) mode modTime b data w h' :
  ValidPath name = true -> (IsDir mode = false -> free_for_file (bucket (w_store w)) name) ->
  fd_mode fd = Some mode -> fd_mtime fd = Some modTime -> gives fd (w_heap w) b h' ->
  wf_heap h' -> blob_data h' b data -> time_valid modTime -> (0 <= mode < 2 ^ 32)%Z ->
  exists fd' w', Set_ name (Some fd) w = (Ret (None, Some fd'), w') /\
    forall w2, bucket (w_store w2) = bucket (w_store w') -> wf_heap (w_heap w2) ->
      exists r w3, Get name w2 = (Ret (Some (BaseRecord r), None), w3) /\
        Base_Mode r = mode /\ Base_ModTime r = modTime /\ Base_Size r = Z.of_nat (length data) /\
        (IsDir mode = false -> exists b' w4, Base_Data r w3 = (Ret (Some b', None), w4) /\
           blob_data (w_heap w4) b' data).
Proof.
  intros Hv Hfree Hmode Htime Hgives Hwf Hdata Ht Hm.
  destruct (Set_stores name fd mode modTime b data w h') as (fd' & w' & E & Hst); [done..|].
  exists fd', w'. split; [done|]. intros w2 Hb Hwf2. rewrite <- Hb in Hst.
  destruct (Get_stored name mode modTime data w2 Hst Ht Hm) as (s3 & Hb3 & Eg).
  do 2 eexists. split; [exact Eg|]. split_and!; [done..|]. intros Hf. unfold Base_Data. simpl getData. rewrite Hf.
  destruct Hst as [Hk _]. rewrite Hf in Hk.
  destruct (getDataFunc_run (fileToObjectKey name false) data (metadata mode modTime) (set_store s3 w2))
    as (b' & w4 & Ed & Hd' & _); [simpl; by rewrite Hb3|done|]. by exists b', w4.
Qed.

(** A directory cannot be removed: [Set] of no record for a directory
    returns no error and leaves the directory as it is, as it removes an object
    that is not there, the one named by the prefix of the directory's keys. *)
Theorem removed_directory_stays name mode modTime data w :
  ValidPath name = true -> stored (bucket (w_store w)) name mode modTime data ->
  time_valid modTime -> (0 <= mode < 2 ^ 32)%Z -> IsDir mode = true ->
  exists w', Set_ name None w = (Ret (None, None), w') /\
    exists r w2, Get name w' = (Ret (Some (BaseRecord r), None), w2) /\ Base_Mode r = mode.
Proof.
  intros Hv Hst Ht Hm Hd.
  destruct (Get_stored name mode modTime data w Hst Ht Hm) as (s1 & Hb1 & E1).
  destruct (law_RemoveObject s1 (Dir (fileToObjectKey name (IsDir mode)))) as (s2 & E2 & Hb2).
  assert (remove name w = (Ret None, set_store s2 w)) as Er.
  { unfold remove. run E1. change (errors_Is None ErrNotExist) with false. cbv iota.
    unfold bind, fr_Mode, Base_Mode, ret, NewBaseFileRecord. cbn [b_mode]. rewrite Hd in *. exact (in_store_run _ (set_store s1 w) _ _ E2). }
  exists (set_store s2 w). split; [unfold Set_; by run Er|].
  destruct (Get_stored name mode modTime data (set_store s2 w)) as (s3 & Hb3 & E3); [|done|done|by do 2 eexists].
  simpl w_store. rewrite Hb2, Hb1. destruct Hst as [Hk _]. split; [|by rewrite Hd].
  rewrite lookup_delete_ne; [done|]. by apply Dir_key_differs.
Qed.
End lawful.

(** ** The theorems at concrete inputs *)

(** A bucket that is a map; times are written in octal. *)
Abbreviation demo_bucket := (gmap string (list byte * gmap string string)).
Definition demo_info (data : list byte) (md : gmap string string) : ObjectInfo :=
  MkObjectInfo "" (Z.of_nat (length data)) 0 md None.
Definition demo_missing : error := Errorf "The specified key does not exist." [].

#[local] Instance demo_client : Client demo_bucket := {|
  StatObject key s :=
    match s !! key with
    | Some (data, md) => (Ret (demo_info data md, None), s)
    | None => (Ret (demo_info [] ∅, Some demo_missing), s)
    end;
  GetObject key s :=
    match s !! key with
    | Some (data, md) =>
        (Ret (Some (MkObject (ret (demo_info data md, None)) (fun len _ => ret (take (Z.to_nat len) data, None))
                      (ret None)), None), s)
    | None => (Ret (None, Some demo_missing), s)
    end;
  PutObject key data len md s := (Ret None, <[key := (take (Z.to_nat len) data, md)]> s);
  RemoveObject key s := (Ret None, delete key s);
  ListObjects prefix s :=
    (Ret ((fun key => MkObjectInfo key 0 0 ∅ None) <$>
       List.filter (fun key => HasPrefix key prefix && negb (contains_char slash (TrimPrefix key prefix)))
         (map_to_list s).*1), s);
  error_Code e := if bool_decide (e = Some demo_missing) then "NoSuchKey" else ""
|}.
#[local] Instance demo_times : TimeFormat := {| time_Format := FormatUint; time_Parse := ParseUint |}.
#[local] Instance demo_lawful : LawfulClient demo_bucket.
Proof.
  refine {| bucket s := s; time_valid t := (0 <= t < 2 ^ 64)%Z |}.
  - apply ParseUint_FormatUint.
  - done.
  - done.
  - intros s key data md E. simpl. rewrite E. by do 2 eexists.
  - intros s key E. simpl. rewrite E. by do 3 eexists.
  - intros s key data md E. simpl. rewrite E. do 2 eexists. split; [reflexivity|]. split; [done|].
    split_and!; intros s'; [by do 2 eexists| |by eexists].
    do 2 eexists. simpl. rewrite take_ge by lia. split_and!; [reflexivity|done|by left].
  - intros s key data md. eexists. simpl. rewrite take_ge by lia. by split.
  - intros s key. by eexists.
Defined.
#[local] Existing Instance simple_runtime.

Definition demo_bytes : list byte := [Byte.x61; Byte.x62].
Definition demo_fd : fileData demo_bucket Empty_set :=
  MkFileData (run_once (Some (BaseRecord
    (NewBaseFileRecord 2 7 420 (Some (ret (Some (BPlain demo_bytes), None))) None)))) None 0 "d/f".
Definition demo_s3_world : world demo_bucket :=
  World empty_heap {["files/d/dir-meta" := ([], metadata (2147483648 + 493) 5)]} 0.

Lemma object_keys_roundtrip_witness :
  objectKeyToFile (fileToObjectKey "a/b" false) tt = (Ret "a/b", tt) /\
  fileToObjectKey "a/b" false = "files/a/file-b".
Proof.
  split; [|reflexivity].
  by destruct (object_keys_roundtrip tt "a/b" false "." true eq_refl eq_refl ltac:(done) ltac:(done)) as [H _].
Defined.

Lemma Set_then_Get_witness :
  exists fd' w', Set_ "d/f" (Some demo_fd) demo_s3_world = (Ret (None, Some fd'), w') /\
    forall w2, bucket (w_store w2) = bucket (w_store w') -> wf_heap (w_heap w2) ->
      exists r w3, Get "d/f" w2 = (Ret (Some (BaseRecord r), None), w3) /\ Base_Mode r = 420%Z.
Proof.
  destruct (Set_then_Get "d/f" demo_fd 420 7 (BPlain demo_bytes) demo_bytes demo_s3_world empty_heap)
    as (fd' & w' & E & H); try done.
  - eapply gives_record; [reflexivity|reflexivity|]. intros [hp st t] Hw. simpl in Hw. by rewrite Hw.
  - apply wf_empty_heap.
  - exists fd', w'. split; [exact E|]. intros w2 Hb Hwf.
    destruct (H w2 Hb Hwf) as (r & w3 & Eg & Hm & _). by exists r, w3.
Defined.

Lemma removed_directory_stays_witness :
  exists w', Set_ "d" None demo_s3_world = (Ret (None, None), w') /\
    exists r w2, Get "d" w' = (Ret (Some (BaseRecord r), None), w2) /\ Base_Mode r = (2147483648 + 493)%Z.
Proof.
  apply (removed_directory_stays "d" (2147483648 + 493) 5 [] demo_s3_world); try done.
Defined.
