(* ===== verification/BlobIO.v ===== *)
(** * Blobs of readers and writers ([keyvalue/blob/io.go])

    A reader that can return a blob does; any other is read into a buffer. *)
From S2P Require Import Prelude.
From S2P Require Import Errors.
From S2P Require Import Blob.
From S2P Require Import BlobSpec.
From S2P Require Import Record.

Section io.
Context {ST : Type} `{!GoRuntime}.
Notation W := (world ST).

(** [io.Reader], [io.ReaderAt], [io.Writer] and [io.WriterAt], and the methods
    of [Reader], [ReaderAt], [Writer] and [WriterAt] if the value has them.  A
    read gets the length of the buffer and returns what it put there. *)
Record ioReader := MkReader {
  r_Read : Z -> M W (list byte * err);
  r_ReadBlob : option (Z -> M W (option Blob * Z * err))
}.
Record ioReaderAt := MkReaderAt {
  r_ReadAt : Z -> Z -> M W (list byte * err);
  r_ReadBlobAt : option (Z -> Z -> M W (option Blob * Z * err))
}.
Record ioWriter := MkWriter {
  w_Write : list byte -> M W (Z * err);
  w_WriteBlob : option (Blob -> M W (Z * err))
}.
Record ioWriterAt := MkWriterAt {
  w_WriteAt : list byte -> Z -> M W (Z * err);
  w_WriteBlobAt : option (Blob -> Z -> M W (Z * err))
}.

(** [make], the read and [NewBytes]. *)
Definition read_buffer (length : Z) (read : M W (list byte * err)) : M W (option Blob * Z * err) :=
  if (length <? 0)%Z then panic "makeslice: len out of range"
  else
    let* (p, e) := read in
    buf <- in_heap (make_slice (copy_into (replicate (Z.to_nat length) zero) p)) ;;
    l <- in_heap (NewBytes buf) ;;
    ret (Some (BBytes l), Z.of_nat (List.length p), e).

Definition Read (src : ioReader) (length : Z) : M W (option Blob * Z * err) :=
  match r_ReadBlob src with
  | Some readBlob => readBlob length
  | None => read_buffer length (r_Read src length)
  end.
Definition ReadAt (src : ioReaderAt) (length srcOffset : Z) : M W (option Blob * Z * err) :=
  match r_ReadBlobAt src with
  | Some readBlobAt => readBlobAt length srcOffset
  | None => read_buffer length (r_ReadAt src length srcOffset)
  end.

Definition blob_bytes (src : Blob) : M W (list byte) :=
  s <- in_heap (Blob_Bytes src) ;; gets (fun w => read_slice (w_heap w) s).
Definition Write (dest : ioWriter) (src : Blob) : M W (Z * err) :=
  match w_WriteBlob dest with
  | Some writeBlob => writeBlob src
  | None => data <- blob_bytes src ;; w_Write dest data
  end.
Definition WriteAt (dest : ioWriterAt) (src : Blob) (destOffset : Z) : M W (Z * err) :=
  match w_WriteBlobAt dest with
  | Some writeBlobAt => writeBlobAt src destOffset
  | None => data <- blob_bytes src ;; w_WriteAt dest data destOffset
  end.

(** The blob that a plain reader gives is as long as asked for: what was read,
    and zeros. *)
Lemma read_buffer_run (length : Z) read w p e w1 :
  (0 <= length)%Z -> read w = (Ret (p, e), w1) -> wf_heap (w_heap w1) ->
  exists l w', read_buffer length read w = (Ret (Some (BBytes l), Z.of_nat (List.length p), e), w') /\
    blob_data (w_heap w') (BBytes l) (copy_into (replicate (Z.to_nat length) zero) p).
Proof.
  intros Hl E Hwf. unfold read_buffer. destruct (Z.ltb_spec length 0); [lia|]. run E.
  set (data := copy_into _ p).
  destruct (new_blob_spec (w_heap w1) data Hwf) as (sl & h1 & l & h2 & Es & El & Hwf2 & Hx2 & Hr & b & Hb & Hsl).
  run (in_heap_run _ w1 _ _ Es). run (in_heap_run _ (set_heap h1 w1) _ _ El).
  do 2 eexists. split; [reflexivity|]. exists b. split; [done|]. simpl. by rewrite Hsl, Hr.
Qed.
End io.
