(* ===== verification/IdbBlob.v ===== *)
(** * Blobs in a browser ([indexeddb/idbblob/blob.go])

    A blob that is a JavaScript [Uint8Array], with a Go copy of its bytes that
    is made when it is first asked for.  Every operation works on both.  The
    arrays of the browser are the class [JSArrays], a parameter; the Go copies
    live in the heap of [Blob]. *)
From S2P Require Import Prelude.
From S2P Require Import Errors.
From S2P Require Import Blob.

Local Open Scope string_scope.

(** What [syscall/js] and a [Uint8Array] offer; an error is a JavaScript
    exception. *)
Class JSArrays (J V : Type) := {
  js_Truthy : V -> M J (bool * err);
  js_InstanceOf_Uint8Array : V -> M J (bool * err);
  js_Length : V -> M J (Z * err);
  js_New : Z -> M J (V * err);
  js_CopyBytesToJS : V -> list byte -> M J (Z * err);
  js_CopyBytesToGo : V -> Z -> M J (list byte * err);
  js_subarray : V -> Z -> Z -> M J (V * err);
  js_slice : V -> Z -> Z -> M J (V * err);
  js_set : V -> V -> Z -> M J err
}.

(** [type Blob struct] *)
Record idbBlob (V : Type) := MkIdbBlob {
  ib_bytes : option nat;
  ib_jsValue : V;
  ib_length : Z
}.
Arguments MkIdbBlob {V}.
Arguments ib_bytes {V}.
Arguments ib_jsValue {V}.
Arguments ib_length {V}.

Record iworld (J V : Type) := MkIWorld {
  i_js : J;
  i_heap : heap;
  i_blobs : gmap nat (idbBlob V)
}.
Arguments MkIWorld {J V}.
Arguments i_js {J V}.
Arguments i_heap {J V}.
Arguments i_blobs {J V}.

(** A [blob.Blob]: one of this package or another. *)
Inductive anyBlob :=
  | IdbBlob (a : nat)
  | GoBlob (b : Blob).

Section idbblob.
Context {J V : Type} `{!JSArrays J V, !GoRuntime}.
Notation W := (iworld J V).
Implicit Types (a : nat) (v : V).

Definition set_js (j : J) (w : W) : W := MkIWorld j (i_heap w) (i_blobs w).
Definition set_iheap (h : heap) (w : W) : W := MkIWorld (i_js w) h (i_blobs w).
Definition set_iblobs (bs : gmap nat (idbBlob V)) (w : W) : W := MkIWorld (i_js w) (i_heap w) bs.
Definition in_js {A} (m : M J A) : M W A := zoom i_js set_js m.
Definition in_go {A} (m : M heap A) : M W A := zoom i_heap set_iheap m.

Definition get_idb a : M W (idbBlob V) :=
  b <- gets (fun w => i_blobs w !! a) ;;
  match b with Some b => ret b | None => panic "nil pointer dereference" end.
Definition put_idb a (b : idbBlob V) : M W unit :=
  modify (fun w => set_iblobs (<[a := b]> (i_blobs w)) w).
Definition store_bytes a (l : nat) : M W unit :=
  b <- get_idb a ;; put_idb a (MkIdbBlob (Some l) (ib_jsValue b) (ib_length b)).
Definition store_value a v (length : Z) : M W unit :=
  b <- get_idb a ;; put_idb a (MkIdbBlob (ib_bytes b) v length).

(** ** Making blobs *)
Definition newBlob v : M W (option nat * err) :=
  try (in_js (js_Length v)) None (fun length =>
    w <- gets id ;;
    let a := base.fresh (dom (i_blobs w)) in
    put_idb a (MkIdbBlob None v length) ;;;
    ret (Some a, None)).

Definition NewLength (length : Z) : M W (option nat * err) :=
  try (in_js (js_New length)) None newBlob.

Definition currentBytes a : M W (option nat) := b <- get_idb a ;; ret (ib_bytes b).
Definition JSValue a : M W V := b <- get_idb a ;; ret (ib_jsValue b).
Definition idb_Len a : M W Z := b <- get_idb a ;; ret (ib_length b).

Definition getBytes a : M W (slice * err) :=
  c <- currentBytes a ;;
  match c with
  | Some l => s <- in_go (Bytes_Bytes l) ;; ret (s, None)
  | None =>
      jsBuf <- JSValue a ;;
      try (in_js (js_Length jsBuf)) nil_slice (fun length =>
        (if (length <? 0)%Z then panic "makeslice: len out of range" else ret tt) ;;;
        try (in_js (js_CopyBytesToGo jsBuf length)) nil_slice (fun data =>
          buf <- in_go (make_slice (copy_into (replicate (Z.to_nat length) zero) data)) ;;
          l <- in_go (NewBytes buf) ;;
          store_bytes a l ;;;
          ret (buf, None)))
  end.
Definition idb_Bytes a : M W slice :=
  let* (buf, e) := getBytes a in
  match e with Some e => panic "getBytes" | None => ret buf end.

(** [Len] and [Bytes] of any blob. *)
Definition any_Len (b : anyBlob) : M W Z :=
  match b with IdbBlob a => idb_Len a | GoBlob b => in_go (Blob_Len b) end.
Definition any_Bytes (b : anyBlob) : M W slice :=
  match b with IdbBlob a => idb_Bytes a | GoBlob b => in_go (Blob_Bytes b) end.
Definition any_data (b : anyBlob) : M W (list byte) :=
  s <- any_Bytes b ;; gets (fun w => read_slice (i_heap w) s).

Definition fromBlob (b : anyBlob) : M W (option nat * err) :=
  match b with
  | IdbBlob a => v <- JSValue a ;; newBlob v
  | GoBlob _ =>
      buf <- any_data b ;;
      try (in_js (js_New (Z.of_nat (length buf)))) None (fun jsBuf =>
        try (in_js (js_CopyBytesToJS jsBuf buf)) None (fun _ => newBlob jsBuf))
  end.
Definition FromBlob (b : anyBlob) : M W nat :=
  let* (a, e) := fromBlob b in
  match a, e with Some a, None => ret a | _, _ => panic "FromBlob" end.

Definition New_ v : M W (option nat * err) :=
  try (in_js (js_Truthy v)) None (fun truthy =>
    if negb truthy then
      l <- in_go (NewBytes nil_slice) ;;
      a <- FromBlob (GoBlob (BBytes l)) ;; ret (Some a, None)
    else
      try (in_js (js_InstanceOf_Uint8Array v)) None (fun instanceOf =>
        if negb instanceOf then ret (None, Some (Errorf "invalid JS array type: %v" []))
        else newBlob v)).

(** ** The operations *)
Definition idb_View a (start end_ : Z) : M W (option nat * err) :=
  len <- idb_Len a ;;
  if ((start =? 0) && (end_ =? len))%Z then ret (Some a, None)
  else
    value <- JSValue a ;;
    try (in_js (js_subarray value start end_)) None (fun subarray =>
      try (New_ subarray) None (fun newB =>
        c <- currentBytes a ;;
        match c, newB with
        | Some l, Some n =>
            try (in_go (Bytes_View l start end_)) None (fun newBytes =>
              match newBytes with
              | Some (BBytes l') => store_bytes n l' ;;; ret (Some n, None)
              | _ => panic "interface conversion"
              end)
        | _, _ => ret (newB, None)
        end)).

Definition idb_Slice a (start end_ : Z) : M W (option nat * err) :=
  len <- idb_Len a ;;
  match check_range len start end_ with
  | Some e => ret (None, Some e)
  | None =>
      value <- JSValue a ;;
      try (in_js (js_slice value start end_)) None (fun slice =>
        try (New_ slice) None (fun newB =>
          c <- currentBytes a ;;
          match c, newB with
          | Some l, Some n =>
              try (in_go (Bytes_Slice l start end_)) None (fun newBytes =>
                match newBytes with
                | Some l' => store_bytes n l' ;;; ret (Some n, None)
                | None => panic "interface conversion"
                end)
          | _, _ => ret (newB, None)
          end))
  end.

(** [Bytes.Set] of the Go copy.  When the source is a blob of this package it
    asks that one for its length, and for its bytes while it holds its own
    mutex. *)
Definition Bytes_Set_any (l : nat) (src : anyBlob) (destStart : Z) : M W (Z * err) :=
  match src with
  | GoBlob b => in_go (Bytes_Set l b destStart)
  | IdbBlob s =>
      if (destStart <? 0)%Z then ret (0%Z, Some (Errorf "negative offset" [])) else
      len <- in_go (Bytes_Len l) ;;
      srcLen <- idb_Len s ;;
      if ((len <=? destStart) && (destStart =? 0) && (0 <? srcLen))%Z then
        ret (0%Z, Some (Errorf "Offset out of bounds: " [destStart]))
      else
        b <- in_go (get_blob l) ;;
        in_go (lock (mu b)) ;;;
        srcBytes <- idb_Bytes s ;;
        dest <- in_go (slice_from (bytes b) destStart) ;;
        n <- in_go (copy_slice dest srcBytes) ;;
        in_go (unlock (mu b)) ;;;
        ret (n, None)
  end.

Definition idb_Set a (src : anyBlob) (destStart : Z) : M W (Z * err) :=
  if (destStart <? 0)%Z then ret (0%Z, Some (Errorf "negative offset" []))
  else
    len <- idb_Len a ;;
    srcLen <- any_Len src ;;
    if ((len <=? destStart) && (destStart =? 0) && (0 <? srcLen))%Z then
      ret (0%Z, Some (Errorf "Offset out of bounds: " [destStart]))
    else
      bValue <- JSValue a ;;
      s <- FromBlob src ;;
      srcValue <- JSValue s ;;
      e <- in_js (js_set bValue srcValue destStart) ;;
      match e with
      | Some e => ret (0%Z, Some e)
      | None =>
          n <- any_Len src ;;
          c <- currentBytes a ;;
          match c with
          | None => ret (n, None)
          | Some l =>
              let* (_, e) := Bytes_Set_any l src destStart in
              match e with Some e => ret (0%Z, Some e) | None => ret (n, None) end
          end
      end.

Definition idb_Grow a (off : Z) : M W err :=
  len <- idb_Len a ;;
  let newLength := add64 len off in
  buf <- JSValue a ;;
  let* (biggerBuf, e) := in_js (js_New newLength) in
  match e with
  | Some e => ret (Some e)
  | None =>
      e <- in_js (js_set biggerBuf buf 0) ;;
      match e with
      | Some e => ret (Some e)
      | None =>
          store_value a biggerBuf newLength ;;;
          c <- currentBytes a ;;
          match c with Some l => in_go (Bytes_Grow l off) | None => ret None end
      end
  end.

Definition idb_Truncate a (size : Z) : M W err :=
  len <- idb_Len a ;;
  if (len <? size)%Z then ret None
  else
    value <- JSValue a ;;
    let* (smallerBuf, e) := in_js (js_slice value 0 size) in
    match e with
    | Some e => ret (Some e)
    | None =>
        store_value a smallerBuf size ;;;
        c <- currentBytes a ;;
        match c with Some l => in_go (Bytes_Truncate l size) | None => ret None end
    end.
End idbblob.
