(* ===== verification/IdbThms.v ===== *)
(** * Properties of blobs in a browser

    As long as nobody else writes to its arrays, a blob with its two copies of
    the bytes is a list of bytes; but after [Slice] the two copies differ. *)
From S2P Require Import Prelude.
From S2P Require Import Errors.
From S2P Require Import Blob.
From S2P Require Import BlobSpec.
From S2P Require Import BlobThms.
From S2P Require Import IdbBlob.

(** ** The arrays of JavaScript

    [js_bytes] is what an array shows, [js_buffer] the memory it is on. *)
Class LawfulJS (J V : Type) `{!JSArrays J V} := {
  js_bytes : J -> V -> option (list byte);
  js_buffer : V -> nat;
  law_Truthy j v c : js_bytes j v = Some c -> js_Truthy v j = (Ret (true, None), j);
  law_InstanceOf j v c : js_bytes j v = Some c -> js_InstanceOf_Uint8Array v j = (Ret (true, None), j);
  law_Length j v c : js_bytes j v = Some c -> js_Length v j = (Ret (Z.of_nat (length c), None), j);
  law_New j n :
    (0 <= n)%Z ->
    exists v j', js_New n j = (Ret (v, None), j') /\ js_bytes j' v = Some (replicate (Z.to_nat n) zero) /\
      forall u c, js_bytes j u = Some c -> js_bytes j' u = Some c /\ js_buffer u <> js_buffer v;
  law_CopyBytesToGo j v c :
    js_bytes j v = Some c -> js_CopyBytesToGo v (Z.of_nat (length c)) j = (Ret (c, None), j);
  law_CopyBytesToJS j v c data :
    js_bytes j v = Some c -> length data = length c ->
    exists j', js_CopyBytesToJS v data j = (Ret (Z.of_nat (length data), None), j') /\
      js_bytes j' v = Some data /\
      forall u, js_buffer u <> js_buffer v -> js_bytes j' u = js_bytes j u;
  law_set j v c src d off :
    js_bytes j v = Some c -> js_bytes j src = Some d -> off + length d <= length c ->
    exists j', js_set v src (Z.of_nat off) j = (Ret None, j') /\ js_bytes j' v = Some (splice c off d) /\
      forall u, js_buffer u <> js_buffer v -> js_bytes j' u = js_bytes j u;
  law_slice j v c s e :
    js_bytes j v = Some c -> s <= e <= length c ->
    exists u j', js_slice v (Z.of_nat s) (Z.of_nat e) j = (Ret (u, None), j') /\
      js_bytes j' u = Some (take (e - s) (drop s c)) /\
      forall u' c', js_bytes j u' = Some c' -> js_bytes j' u' = Some c' /\ js_buffer u' <> js_buffer u
}.

Section blobs.
Context {J V : Type} `{!JSArrays J V, !LawfulJS J V, !GoRuntime}.
Abbreviation W := (iworld J V).
Implicit Types (w : W) (a : nat) (bs data : list byte).

(** The Go copy, if there is one. *)
Record go_copy (h : heap) (o : option nat) bs : Prop := {
  copy_wf : wf_heap h;
  copy_bytes l : o = Some l -> exists b, usable h l b /\ read_slice h (bytes b) = bs
}.

Lemma go_copy_ext h h' o bs : wf_heap h' -> ext h h' -> go_copy h o bs -> go_copy h' o bs.
Proof.
  intros Hwf' Hx [Hwf Hgo]. split; [done|]. intros l Hl. destruct (Hgo l Hl) as (b & Hu & <-). exists b.
  split; [by eapply ext_usable|]. destruct Hu as [Hb _]. apply read_slice_eq; [done|by apply (wf_blobs _ Hwf l)|].
  intros. by apply (ext_arrays h h').
Qed.

(** The blob at [a] holds the bytes, in both copies. *)
Definition is_blob w a bs : Prop :=
  exists ib, i_blobs w !! a = Some ib /\ js_bytes (i_js w) (ib_jsValue ib) = Some bs /\
    ib_length ib = Z.of_nat (length bs) /\ go_copy (i_heap w) (ib_bytes ib) bs.

Lemma in_js_run {A} (m : M J A) w r j' : m (i_js w) = (r, j') -> in_js m w = (r, set_js j' w).
Proof. intros E. unfold in_js, zoom. by rewrite E. Qed.
Lemma in_go_run {A} (m : M heap A) w r h' : m (i_heap w) = (r, h') -> in_go m w = (r, set_iheap h' w).
Proof. intros E. unfold in_go, zoom. by rewrite E. Qed.
Lemma get_idb_run a ib w : i_blobs w !! a = Some ib -> get_idb a w = (Ret ib, w).
Proof. intros E. unfold get_idb. rewrite bind_gets, E. done. Qed.

(** [Bytes]: the first call makes the Go copy. *)
Lemma getBytes_run w a bs :
  is_blob w a bs ->
  exists s w', getBytes a w = (Ret (s, None), w') /\ read_slice (i_heap w') s = bs /\ is_blob w' a bs.
Proof.
  intros (ib & Ha & Hjs & Hlen & Hcopy). pose proof Hcopy as [Hwf Hgo]. unfold getBytes, currentBytes. rewrite bind_assoc.
  run (get_idb_run a ib w Ha). rewrite bind_ret_l. destruct (ib_bytes ib) as [l|] eqn:Eb.
  - destruct (Hgo l eq_refl) as (b & Hu & Hr).
    destruct (Bytes_Bytes_spec _ _ _ Hwf Hu) as (s & h' & E & Hwf' & Hx & _ & _ & Hs).
    run (in_go_run _ w _ _ E). do 2 eexists. split; [reflexivity|]. split; [simpl; congruence|].
    exists ib. split_and!; [done..|]. rewrite Eb. by apply (go_copy_ext (i_heap w) h').
  - unfold JSValue. rewrite bind_assoc. run (get_idb_run a ib w Ha). rewrite bind_ret_l.
    rewrite (try_run _ _ _ _ _ _ (in_js_run _ w _ _ (law_Length _ _ _ Hjs))).
    destruct (Z.ltb_spec (Z.of_nat (length bs)) 0); [lia|]. rewrite bind_ret_l.
    rewrite (try_run _ _ _ _ _ _ (in_js_run _ (set_js (i_js w) w) _ _ (law_CopyBytesToGo _ _ _ Hjs))).
    rewrite copy_into_full by (rewrite length_replicate; lia).
    destruct (new_blob_spec (i_heap w) bs (copy_wf _ _ _ Hcopy))
      as (sl & h1 & l & h2 & Es & El & Hwf2 & Hx2 & Hr2 & b & Hb & Hsl).
    run (in_go_run _ (set_js (i_js w) (set_js (i_js w) w)) _ _ Es).
    run (in_go_run _ (set_iheap h1 (set_js (i_js w) (set_js (i_js w) w))) _ _ El).
    unfold store_bytes. rewrite bind_assoc. set (w2 := set_iheap h2 _).
    run (get_idb_run a ib w2 Ha). do 2 eexists. split; [reflexivity|]. split; [done|].
    eexists. split; [simpl; apply lookup_insert_eq|]. simpl. split_and!; [done..|].
    split; [done|]. intros l' [= <-]. exists b. by rewrite Hsl.
Qed.

(** [newBlob] makes a blob and touches no other. *)
Lemma newBlob_run w v c :
  js_bytes (i_js w) v = Some c ->
  exists n, i_blobs w !! n = None /\
    newBlob v w = (Ret (Some n, None),
      set_iblobs (<[n := MkIdbBlob None v (Z.of_nat (length c))]> (i_blobs w)) w).
Proof.
  intros Hv. exists (base.fresh (dom (i_blobs w))). split.
  - apply not_elem_of_dom, is_fresh.
  - unfold newBlob. rewrite (try_run _ _ _ _ _ _ (in_js_run _ w _ _ (law_Length _ _ _ Hv))). by destruct w.
Qed.

(** A foreign blob becomes a JavaScript array of its own; what the two calls
    that make it keep is kept. *)
Lemma FromBlob_run w data :
  wf_heap (i_heap w) ->
  exists n v w', FromBlob (GoBlob (BPlain data)) w = (Ret n, w') /\
    (exists ibn, i_blobs w' !! n = Some ibn /\ ib_jsValue ibn = v) /\
    js_bytes (i_js w') v = Some data /\
    (forall a ib, i_blobs w !! a = Some ib -> i_blobs w' !! a = Some ib) /\
    wf_heap (i_heap w') /\ ext (i_heap w) (i_heap w') /\
    (forall u c, js_bytes (i_js w) u = Some c -> js_bytes (i_js w') u = Some c /\ js_buffer u <> js_buffer v) /\
    forall R : J -> J -> Prop,
      (forall j1 j2 j3, R j1 j2 -> R j2 j3 -> R j1 j3) ->
      (forall j n r j', js_New n j = (r, j') -> R j j') ->
      (forall j v bs r j', js_CopyBytesToJS v bs j = (r, j') -> R j j') -> R (i_js w) (i_js w').
Proof.
  intros Hwf. destruct (make_slice_spec (i_heap w) data Hwf) as (sl & h1 & Es & Hwf1 & Hx1 & _ & Hr & _).
  unfold FromBlob, fromBlob, any_data, any_Bytes, Blob_Bytes. rewrite !bind_assoc.
  run (in_go_run _ w _ _ Es). rewrite bind_gets. simpl i_heap. rewrite Hr.
  destruct (law_New (i_js w) (Z.of_nat (length data))) as (v & j1 & E1 & Hv1 & Hf1); [lia|].
  destruct (law_CopyBytesToJS j1 v _ data Hv1) as (j2 & E2 & Hv2 & Hf2); [by rewrite length_replicate, Nat2Z.id|].
  unfold bind at 1. rewrite (try_run _ _ _ _ _ _ (in_js_run _ (set_iheap h1 w) _ _ E1)).
  rewrite (try_run _ _ _ _ _ _ (in_js_run _ (set_js j1 (set_iheap h1 w)) _ _ E2)).
  destruct (newBlob_run (set_js j2 (set_js j1 (set_iheap h1 w))) v data Hv2) as (n & Hn & En). rewrite En.
  exists n, v. eexists. split; [reflexivity|]. simpl. simpl in Hn. split_and!; [|done| |done|done| |].
  - eexists. split; [apply lookup_insert_eq|done].
  - intros a ib Ha. rewrite lookup_insert_ne; [done|]. congruence.
  - intros u c Hu. destruct (Hf1 u c Hu) as [Hu1 Hne]. by rewrite Hf2.
  - intros R Ht Hnew Hcopy. eauto.
Qed.

Lemma set_at_fits bs off data : off + length data <= length bs -> set_at bs off data = splice bs off data.
Proof. intros Hl. unfold set_at. by rewrite take_ge by lia. Qed.

Lemma idb_Set_run w a bs data (off : nat) :
  is_blob w a bs -> off + length data <= length bs -> bs <> [] ->
  exists w', idb_Set a (GoBlob (BPlain data)) (Z.of_nat off) w = (Ret (Z.of_nat (length data), None), w') /\
    is_blob w' a (splice bs off data).
Proof.
  intros (ib & Ha & Hjs & Hlen & Hcopy) Hfit Hne. unfold idb_Set.
  destruct (Z.ltb_spec (Z.of_nat off) 0); [lia|]. unfold idb_Len. rewrite bind_assoc.
  run (get_idb_run a ib w Ha). rewrite bind_ret_l.
  run (in_go_run (Blob_Len (BPlain data)) w _ _ eq_refl).
  assert (Hchk : ((ib_length ib <=? Z.of_nat off) && (Z.of_nat off =? 0) && (0 <? Z.of_nat (length data)))%Z = false).
  { rewrite Hlen. destruct (Z.leb_spec (Z.of_nat (length bs)) (Z.of_nat off)); [|done].
    destruct (Z.eqb_spec (Z.of_nat off) 0); [|done]. destruct bs; [done|]. simpl in *. lia. }
  rewrite Hchk. unfold JSValue at 1. rewrite bind_assoc. set (w0 := set_iheap _ w).
  assert (w0 = w) as -> by by destruct w.
  run (get_idb_run a ib w Ha). rewrite bind_ret_l.
  destruct (FromBlob_run w data (copy_wf _ _ _ Hcopy))
    as (n & v & w1 & E1 & (ibn & Hn & Hvn) & Hv & Ha1 & Hwf1 & Hx1 & Hkeep & _). apply Ha1 in Ha as Ha1'.
  run E1. unfold JSValue. rewrite bind_assoc. run (get_idb_run n ibn w1 Hn). rewrite bind_ret_l, Hvn.
  destruct (Hkeep _ _ Hjs) as [Hjs1 Hbuf].
  destruct (law_set (i_js w1) (ib_jsValue ib) bs v data off Hjs1 Hv Hfit) as (j2 & E2 & Hset & Hf2).
  run (in_js_run _ w1 _ _ E2). set (w2 := set_js j2 w1).
  run (in_go_run (Blob_Len (BPlain data)) w2 _ _ eq_refl). set (w3 := set_iheap _ w2).
  assert (w3 = w2) as -> by by destruct w1.
  unfold currentBytes. rewrite bind_assoc. run (get_idb_run a ib w2 Ha1'). rewrite bind_ret_l.
  pose proof (go_copy_ext _ _ _ _ Hwf1 Hx1 Hcopy) as Hcopy1.
  assert (Hsl : length (splice bs off data) = length bs) by by apply length_splice.
  destruct (ib_bytes ib) as [l|] eqn:Eb.
  - destruct (copy_bytes _ _ _ Hcopy1 l eq_refl) as (b & Hu & Hr).
    assert (length_ b = Z.of_nat (length bs)) as Hlb.
    { destruct Hu as [Hb _]. destruct (wf_blobs _ Hwf1 l b Hb) as [Hs Hl _].
      by rewrite Hl, <- Hr, length_read_slice. }
    destruct (Bytes_Set_spec (i_heap w1) l b (BPlain data) data (Z.of_nat off)) as (h' & E3 & Hwf3 & Hup & Hb3 & Hr3 & _);
      [done|done|done|done|lia|destruct bs; [done|simpl in *; lia]|].
    unfold Bytes_Set_any. run (in_go_run _ w2 _ _ E3). eexists. split; [reflexivity|].
    exists ib. simpl. split_and!; [done|done|by rewrite Hsl|]. split; [done|]. rewrite Eb. intros l' [= <-].
    exists b. split; [split; [done|]|by rewrite Hr3, Nat2Z.id, Hr, set_at_fits].
    destruct Hu as [Hb Hmu]. rewrite (upd_mutexes _ _ _ _ Hup); [done|]. eauto with go_wf.
  - eexists. split; [reflexivity|]. exists ib. simpl. split_and!; [done|done|by rewrite Hsl|].
    split; [done|]. by rewrite Eb.
Qed.

Lemma idb_Grow_run w a bs (n : nat) :
  is_blob w a bs -> is_int64 (Z.of_nat (length bs) + Z.of_nat n) ->
  exists w', idb_Grow a (Z.of_nat n) w = (Ret None, w') /\ is_blob w' a (bs ++ replicate n zero).
Proof.
  intros (ib & Ha & Hjs & Hlen & Hcopy) Hint. unfold idb_Grow, idb_Len. rewrite bind_assoc.
  run (get_idb_run a ib w Ha). rewrite bind_ret_l. rewrite Hlen, add64_id by done.
  unfold JSValue. rewrite bind_assoc. run (get_idb_run a ib w Ha). rewrite bind_ret_l.
  destruct (law_New (i_js w) (Z.of_nat (length bs) + Z.of_nat n)) as (v & j1 & E1 & Hv & Hf); [lia|].
  run (in_js_run _ w _ _ E1). destruct (Hf _ _ Hjs) as [Hjs1 Hne].
  destruct (law_set j1 v _ (ib_jsValue ib) bs 0 Hv Hjs1) as (j2 & E2 & Hset & _); [rewrite length_replicate; lia|].
  simpl Z.of_nat in E2. run (in_js_run _ (set_js j1 w) _ _ E2).
  assert (splice (replicate (Z.to_nat (Z.of_nat (length bs) + Z.of_nat n)) zero) 0 bs = bs ++ replicate n zero) as Esp.
  { unfold splice. simpl. rewrite drop_replicate. do 2 f_equal. lia. }
  rewrite Esp in Hset. unfold store_value, currentBytes. set (w2 := set_js j2 (set_js j1 w)).
  rewrite bind_assoc. run (get_idb_run a ib w2 Ha). unfold put_idb. rewrite bind_modify. rewrite bind_assoc.
  set (ib' := MkIdbBlob (ib_bytes ib) v (Z.of_nat (length bs) + Z.of_nat n)).
  set (w3 := set_iblobs _ w2). assert (i_blobs w3 !! a = Some ib') as Ha3 by apply lookup_insert_eq.
  run (get_idb_run a ib' w3 Ha3). rewrite bind_ret_l. unfold ib' at 1. cbn [ib_bytes].
  assert (Hl : (Z.of_nat (length bs) + Z.of_nat n = Z.of_nat (length (bs ++ replicate n zero)))%Z)
    by (rewrite length_app, length_replicate; lia).
  destruct (ib_bytes ib) as [l|] eqn:Eb.
  - destruct (copy_bytes _ _ _ Hcopy l eq_refl) as (b & Hu & Hr).
    destruct (Bytes_Grow_spec (i_heap w) l b (Z.of_nat n) (copy_wf _ _ _ Hcopy) Hu)
      as (b' & h' & E3 & Hwf3 & _ & Hu' & _ & _ & Hr3); [lia|].
    eexists. split; [exact (in_go_run _ w3 _ _ E3)|]. exists ib'. split_and!; [done|done|done|].
    split; [done|]. simpl. intros l' [= <-]. exists b'. split; [done|]. by rewrite Hr3, Nat2Z.id, Hr.
  - eexists. split; [reflexivity|]. exists ib'. split_and!; [done|done|done|].
    split; [apply (copy_wf _ _ _ Hcopy)|done].
Qed.

Lemma idb_Truncate_run w a bs (n : nat) :
  is_blob w a bs ->
  exists w', idb_Truncate a (Z.of_nat n) w = (Ret None, w') /\ is_blob w' a (take n bs).
Proof.
  intros Hb. pose proof Hb as (ib & Ha & Hjs & Hlen & Hcopy). unfold idb_Truncate, idb_Len. rewrite bind_assoc.
  run (get_idb_run a ib w Ha). rewrite bind_ret_l. rewrite Hlen.
  destruct (Z.ltb_spec (Z.of_nat (length bs)) (Z.of_nat n)).
  { exists w. split; [done|]. by rewrite take_ge by lia. }
  unfold JSValue. rewrite bind_assoc. run (get_idb_run a ib w Ha). rewrite bind_ret_l.
  destruct (law_slice (i_js w) (ib_jsValue ib) bs 0 n Hjs) as (v & j1 & E1 & Hv & _); [lia|].
  rewrite Nat.sub_0_r, drop_0 in Hv. simpl (Z.of_nat 0) in E1. run (in_js_run _ w _ _ E1).
  unfold store_value, currentBytes. set (w2 := set_js j1 w).
  rewrite bind_assoc. run (get_idb_run a ib w2 Ha). unfold put_idb. rewrite bind_modify. rewrite bind_assoc.
  set (ib' := MkIdbBlob (ib_bytes ib) v (Z.of_nat n)).
  set (w3 := set_iblobs _ w2). assert (i_blobs w3 !! a = Some ib') as Ha3 by apply lookup_insert_eq.
  run (get_idb_run a ib' w3 Ha3). rewrite bind_ret_l. unfold ib' at 1. cbn [ib_bytes].
  assert (Hl : Z.of_nat n = Z.of_nat (length (take n bs))) by (rewrite length_take; lia).
  destruct (ib_bytes ib) as [l|] eqn:Eb.
  - destruct (copy_bytes _ _ _ Hcopy l eq_refl) as (b & Hu & Hr).
    assert (length_ b = Z.of_nat (length bs)) as Hlb.
    { destruct Hu as [Hbl _]. destruct (wf_blobs _ (copy_wf _ _ _ Hcopy) l b Hbl) as [Hs Hl' _].
      by rewrite Hl', <- Hr, length_read_slice. }
    destruct (Bytes_Truncate_spec (i_heap w) l b (Z.of_nat n) (copy_wf _ _ _ Hcopy) Hu)
      as (b' & h' & E3 & Hwf3 & _ & Hu' & _ & _ & Hr3); [lia|].
    eexists. split; [exact (in_go_run _ w3 _ _ E3)|]. exists ib'. split_and!; [done|done|done|].
    split; [done|]. simpl. intros l' [= <-]. exists b'. split; [done|]. by rewrite Hr3, Nat2Z.id, Hr.
  - eexists. split; [reflexivity|]. exists ib'. split_and!; [done|done|done|].
    split; [apply (copy_wf _ _ _ Hcopy)|done].
Qed.

(** ** Sequences of operations *)
Inductive idb_op :=
  | IBytes
  | ISet data (off : nat)
  | IGrow (n : nat)
  | ITruncate (n : nat).
Inductive idb_answer := ABytes data | ACount (n : Z) (e : err) | AErr (e : err).

Definition run_idb_op a (op : idb_op) : M W idb_answer :=
  match op with
  | IBytes => data <- any_data (IdbBlob a) ;; ret (ABytes data)
  | ISet data off =>
      let* (n, e) := idb_Set a (GoBlob (BPlain data)) (Z.of_nat off) in ret (ACount n e)
  | IGrow n => e <- idb_Grow a (Z.of_nat n) ;; ret (AErr e)
  | ITruncate n => e <- idb_Truncate a (Z.of_nat n) ;; ret (AErr e)
  end.
Fixpoint run_idb_ops a (ops : list idb_op) : M W (list idb_answer) :=
  match ops with
  | [] => ret []
  | op :: ops => r <- run_idb_op a op ;; rs <- run_idb_ops a ops ;; ret (r :: rs)
  end.

(** What the operations do to a list of bytes, and when they may be called. *)
Definition spec_idb_op (op : idb_op) bs : idb_answer * list byte :=
  match op with
  | IBytes => (ABytes bs, bs)
  | ISet data off => (ACount (Z.of_nat (length data)) None, splice bs off data)
  | IGrow n => (AErr None, bs ++ replicate n zero)
  | ITruncate n => (AErr None, take n bs)
  end.
Fixpoint spec_idb_ops (ops : list idb_op) bs : list idb_answer * list byte :=
  match ops with
  | [] => ([], bs)
  | op :: ops =>
      let '(r, bs) := spec_idb_op op bs in let '(rs, bs) := spec_idb_ops ops bs in (r :: rs, bs)
  end.
Definition idb_legal (op : idb_op) bs : bool :=
  match op with
  | ISet data off => bool_decide (off + length data <= length bs) && negb (bool_decide (bs = []))
  | IGrow n => bool_decide (is_int64 (Z.of_nat (length bs) + Z.of_nat n))
  | _ => true
  end.
Fixpoint idb_all_legal (ops : list idb_op) bs : bool :=
  match ops with
  | [] => true
  | op :: ops => idb_legal op bs && idb_all_legal ops (spec_idb_op op bs).2
  end.

Lemma run_idb_op_spec w a op bs :
  is_blob w a bs -> idb_legal op bs = true ->
  exists w', run_idb_op a op w = (Ret (spec_idb_op op bs).1, w') /\ is_blob w' a (spec_idb_op op bs).2.
Proof.
  intros Hb Hl. destruct op as [|data off|n|n]; simpl in *.
  - destruct (getBytes_run w a bs Hb) as (s & w' & E & Hr & Hb'). exists w'. split; [|done].
    unfold any_data, any_Bytes, idb_Bytes. rewrite !bind_assoc. run E. go_simpl.
    by rewrite Hr.
  - apply andb_true_iff in Hl as [Hl Hne]. apply bool_decide_eq_true in Hl.
    apply negb_true_iff, bool_decide_eq_false in Hne.
    destruct (idb_Set_run w a bs data off Hb Hl Hne) as (w' & E & Hb'). run E. by exists w'.
  - apply bool_decide_eq_true in Hl. destruct (idb_Grow_run w a bs n Hb Hl) as (w' & E & Hb'). run E. by exists w'.
  - destruct (idb_Truncate_run w a bs n Hb) as (w' & E & Hb'). run E. by exists w'.
Qed.

(** C36: a blob of the browser is a list of bytes: whatever legal operations run
    on it, [Bytes], [Set] from a foreign blob, [Grow] and [Truncate], and
    whenever the Go copy is first made, they answer as on a list, and the
    JavaScript array, the Go copy and the length agree at the end. *)
Theorem idb_blob_refines_bytes w a ops bs :
  is_blob w a bs -> idb_all_legal ops bs = true ->
  exists w', run_idb_ops a ops w = (Ret (spec_idb_ops ops bs).1, w') /\ is_blob w' a (spec_idb_ops ops bs).2.
Proof.
  revert w bs. induction ops as [|op ops IH]; intros w bs Hb Hl; simpl in *; [by exists w|].
  apply andb_true_iff in Hl as [Hl Hls].
  destruct (run_idb_op_spec w a op bs Hb Hl) as (w1 & E1 & Hb1). run E1.
  destruct (spec_idb_op op bs) as [r bs1]. destruct (IH w1 bs1 Hb1 Hls) as (w2 & E2 & Hb2). simpl in *. run E2.
  exists w2. by destruct (spec_idb_ops ops bs1).
Qed.

(** A slice of a blob with a Go copy shows two different things: JavaScript
    the bytes from [start] on, Go the first bytes of the blob, as [Bytes.Slice]
    copies from the beginning. *)
Theorem idb_Slice_splits_copies w a ib bs (s e : nat) :
  is_blob w a bs -> i_blobs w !! a = Some ib -> ib_bytes ib <> None -> s <= e <= length bs ->
  exists n ibn l b w', idb_Slice a (Z.of_nat s) (Z.of_nat e) w = (Ret (Some n, None), w') /\
    i_blobs w' !! n = Some ibn /\ js_bytes (i_js w') (ib_jsValue ibn) = Some (take (e - s) (drop s bs)) /\
    ib_bytes ibn = Some l /\ blobs (i_heap w') !! l = Some b /\
    read_slice (i_heap w') (bytes b) = take (e - s) bs.
Proof.
  intros (ib' & Ha & Hjs & Hlen & Hcopy) Hib Hgo Hse. rewrite Ha in Hib. injection Hib as ->.
  unfold idb_Slice, idb_Len. rewrite bind_assoc. run (get_idb_run a ib w Ha). rewrite bind_ret_l.
  rewrite check_range_ok by lia. unfold JSValue. rewrite bind_assoc.
  run (get_idb_run a ib w Ha). rewrite bind_ret_l.
  destruct (law_slice (i_js w) (ib_jsValue ib) bs s e Hjs Hse) as (v & j1 & E1 & Hv & _).
  rewrite (try_run _ _ _ _ _ _ (in_js_run _ w _ _ E1)). set (w1 := set_js j1 w).
  assert (exists n, i_blobs w1 !! n = None /\ New_ v w1 = (Ret (Some n, None),
    set_iblobs (<[n := MkIdbBlob None v (Z.of_nat (length (take (e - s) (drop s bs))))]> (i_blobs w1)) w1)) as (n & Hn & En).
  { destruct (newBlob_run w1 v _ Hv) as (n & Hn & En). exists n. split; [done|]. unfold New_.
    rewrite (try_run _ _ _ _ _ _ (in_js_run _ w1 _ _ (law_Truthy _ _ _ Hv))). unfold negb.
    change (set_js j1 w1) with w1.
    rewrite (try_run _ _ _ _ _ _ (in_js_run _ w1 _ _ (law_InstanceOf _ _ _ Hv))). unfold negb.
    exact En. }
  rewrite (try_run _ _ _ _ _ _ En). set (w2 := set_iblobs _ w1).
  assert (Ha2 : i_blobs w2 !! a = Some ib).
  { simpl. rewrite lookup_insert_ne; [done|]. simpl in Hn. congruence. }
  unfold currentBytes. rewrite bind_assoc. run (get_idb_run a ib w2 Ha2). rewrite bind_ret_l.
  destruct (ib_bytes ib) as [l|] eqn:Eb; [|done].
  destruct (copy_bytes _ _ _ Hcopy l eq_refl) as (b & Hu & Hr).
  assert (length_ b = Z.of_nat (length bs)) as Hlb.
  { destruct Hu as [Hbl _]. destruct (wf_blobs _ (copy_wf _ _ _ Hcopy) l b Hbl) as [Hs Hl' _].
    by rewrite Hl', <- Hr, length_read_slice. }
  destruct (Bytes_Slice_spec (i_heap w) l b (Z.of_nat s) (Z.of_nat e) (copy_wf _ _ _ Hcopy) Hu)
    as (l' & b' & h' & E3 & Hwf3 & _ & Hb' & _ & _ & _ & _ & Hr'); [lia|lia|].
  rewrite (try_run _ _ _ _ _ _ (in_go_run _ w2 _ _ E3)). unfold store_bytes. rewrite bind_assoc.
  set (ibn := MkIdbBlob None v _) in w2. set (w3 := set_iheap h' w2).
  assert (Hn3 : i_blobs w3 !! n = Some ibn) by apply lookup_insert_eq.
  run (get_idb_run n ibn w3 Hn3). do 5 eexists. split; [reflexivity|].
  split; [apply lookup_insert_eq|]. split; [exact Hv|]. split; [reflexivity|]. split; [exact Hb'|].
  simpl. rewrite Hr', Hr. f_equal. lia.
Qed.
End blobs.

(** ** The theorems at concrete inputs *)

(** Buffers, and arrays on a part of one. *)
Abbreviation demo_js := (gmap nat (list byte)).
Abbreviation demo_array := (nat * nat * nat)%type.
Definition demo_bytes_of (j : demo_js) (v : demo_array) : option (list byte) :=
  let '(b, off, len) := v in
  match j !! b with
  | Some buf => if bool_decide (off + len <= length buf) then Some (take len (drop off buf)) else None
  | None => None
  end.
Definition demo_alloc (data : list byte) (j : demo_js) : demo_array * demo_js :=
  let b := base.fresh (dom j) in ((b, 0, length data), <[b := data]> j).
Definition demo_error : error := Errorf "RangeError" [].

#[local] Instance demo_arrays : JSArrays demo_js demo_array := {|
  js_Truthy v := ret (true, None);
  js_InstanceOf_Uint8Array v := ret (true, None);
  js_Length v := ret (Z.of_nat v.2, None);
  js_New n j :=
    if (n <? 0)%Z then (Ret ((0, 0, 0), Some demo_error), j)
    else let '(v, j') := demo_alloc (replicate (Z.to_nat n) zero) j in (Ret (v, None), j');
  js_CopyBytesToJS v data j :=
    let '(b, off, len) := v in
    (Ret (Z.of_nat (length data), None), <[b := splice (default [] (j !! b)) off (take len data)]> j);
  js_CopyBytesToGo v len j := (Ret (take (Z.to_nat len) (default [] (demo_bytes_of j v)), None), j);
  js_subarray v s e := ret ((v.1.1, v.1.2 + Z.to_nat s, Z.to_nat e - Z.to_nat s), None);
  js_slice v s e j :=
    let '(u, j') := demo_alloc (take (Z.to_nat e - Z.to_nat s) (drop (Z.to_nat s) (default [] (demo_bytes_of j v)))) j in
    (Ret (u, None), j');
  js_set v src off j :=
    let '(b, o, len) := v in
    let data := default [] (demo_bytes_of j src) in
    if ((off <? 0) || (Z.of_nat len <? off + Z.of_nat (length data)))%Z then (Ret (Some demo_error), j)
    else (Ret None, <[b := splice (default [] (j !! b)) (o + Z.to_nat off) data]> j)
|}.

Lemma demo_bytes_inv j b off len c :
  demo_bytes_of j (b, off, len) = Some c ->
  exists buf, j !! b = Some buf /\ off + len <= length buf /\ c = take len (drop off buf) /\ length c = len.
Proof.
  simpl. destruct (j !! b) as [buf|]; [|done]. case_bool_decide as Hl; [|done]. intros [= <-].
  exists buf. split_and!; [done..|]. rewrite length_take, length_drop. lia.
Qed.
Lemma demo_alloc_spec data j :
  demo_bytes_of (demo_alloc data j).2 (demo_alloc data j).1 = Some data /\
  forall u c, demo_bytes_of j u = Some c ->
    demo_bytes_of (demo_alloc data j).2 u = Some c /\ u.1.1 <> (demo_alloc data j).1.1.1.
Proof.
  assert (Hf : j !! base.fresh (dom j) = None) by apply not_elem_of_dom, is_fresh.
  split.
  - simpl. by rewrite lookup_insert_eq, bool_decide_eq_true_2, firstn_all by (simpl; lia).
  - intros [[b off] len] c Hc. pose proof (demo_bytes_inv _ _ _ _ _ Hc) as (buf & Hb & _). simpl.
    assert (b <> base.fresh (dom j)) by congruence. rewrite lookup_insert_ne by done. by split.
Qed.
Lemma demo_write_spec j b off len c buf o data :
  j !! b = Some buf -> off + len <= length buf -> c = take len (drop off buf) ->
  o + length data <= len ->
  demo_bytes_of (<[b := splice buf (off + o) data]> j) (b, off, len) = Some (splice c o data) /\
  forall u, u.1.1 <> b -> demo_bytes_of (<[b := splice buf (off + o) data]> j) u = demo_bytes_of j u.
Proof.
  intros Hb Hl -> Hd. split.
  - simpl. rewrite lookup_insert_eq, bool_decide_eq_true_2 by (rewrite length_splice; lia).
    by rewrite window_splice.
  - intros [[b' off'] len'] Hne. simpl in *. by rewrite lookup_insert_ne.
Qed.

#[local] Instance demo_lawful : LawfulJS demo_js demo_array.
Proof.
  refine {| js_bytes := demo_bytes_of; js_buffer v := v.1.1 |}.
  - done.
  - done.
  - intros j [[b off] len] c Hc. apply demo_bytes_inv in Hc as (buf & _ & _ & _ & Hl). simpl. by rewrite Hl.
  - intros j n Hn. simpl. destruct (Z.ltb_spec n 0); [lia|].
    destruct (demo_alloc_spec (replicate (Z.to_nat n) zero) j) as [H1 H2].
    do 2 eexists. split; [reflexivity|]. by split.
  - intros j v c Hc. simpl. rewrite Hc. simpl. by rewrite take_ge by lia.
  - intros j [[b off] len] c data Hc Hd. apply demo_bytes_inv in Hc as (buf & Hb & Hl & Ec & Hlc). simpl.
    rewrite Hb. simpl. rewrite take_ge by lia. eexists. split; [reflexivity|].
    destruct (demo_write_spec j b off len c buf 0 data Hb Hl Ec) as [H1 H2]; [lia|].
    rewrite Nat.add_0_r in H1, H2. split; [|exact H2]. etransitivity; [exact H1|]. f_equal.
    unfold splice. simpl. rewrite drop_ge by lia. by rewrite app_nil_r.
  - intros j [[b o] len] c src d off Hc Hs Hfit. apply demo_bytes_inv in Hc as (buf & Hb & Hl & Ec & Hlc). simpl.
    rewrite Hs, Hb. simpl. destruct (Z.ltb_spec (Z.of_nat off) 0); [lia|].
    destruct (Z.ltb_spec (Z.of_nat len) (Z.of_nat off + Z.of_nat (length d))); [lia|]. simpl.
    eexists. split; [reflexivity|]. rewrite Nat2Z.id. apply demo_write_spec; [done..|lia].
  - intros j v c s e Hc Hse. simpl. rewrite Hc. simpl. rewrite !Nat2Z.id.
    destruct (demo_alloc_spec (take (e - s) (drop s c)) j) as [H1 H2].
    do 2 eexists. split; [reflexivity|]. by split.
Defined.
#[local] Existing Instance simple_runtime.

Definition demo_abc : list byte := [Byte.x61; Byte.x62; Byte.x63].
Definition demo_iworld : iworld demo_js demo_array :=
  MkIWorld {[0 := demo_abc]} empty_heap {[0 := MkIdbBlob None (0, 0, 3) 3]}.
Lemma demo_is_blob : is_blob demo_iworld 0 demo_abc.
Proof.
  eexists. split; [reflexivity|]. split; [reflexivity|]. split; [done|]. split; [apply wf_empty_heap|done].
Qed.

Lemma idb_blob_refines_bytes_witness :
  exists w', run_idb_ops 0 [IGrow 1; IBytes; ISet [Byte.x7a] 3; ITruncate 2; IBytes] demo_iworld =
      (Ret [AErr None; ABytes (demo_abc ++ [zero]); ACount 1 None; AErr None; ABytes [Byte.x61; Byte.x62]], w') /\
    is_blob w' 0 [Byte.x61; Byte.x62].
Proof.
  exact (idb_blob_refines_bytes demo_iworld 0 [IGrow 1; IBytes; ISet [Byte.x7a] 3; ITruncate 2; IBytes] demo_abc
    demo_is_blob eq_refl).
Defined.

Lemma idb_Slice_splits_copies_witness :
  exists n ibn l b w', idb_Slice 0 1 2 (getBytes 0 demo_iworld).2 = (Ret (Some n, None), w') /\
    i_blobs w' !! n = Some ibn /\ js_bytes (i_js w') (ib_jsValue ibn) = Some [Byte.x62] /\
    ib_bytes ibn = Some l /\ blobs (i_heap w') !! l = Some b /\
    read_slice (i_heap w') (bytes b) = [Byte.x61].
Proof.
  destruct (getBytes_run demo_iworld 0 demo_abc demo_is_blob) as (s & w' & E & _ & Hb). rewrite E.
  assert (exists ib, i_blobs w' !! 0 = Some ib /\ ib_bytes ib <> None) as (ib & Hib & Hgo).
  { vm_compute in E. injection E as <- <-. eexists. split; [vm_compute; reflexivity|done]. }
  apply (idb_Slice_splits_copies w' 0 ib demo_abc 1 2 Hb Hib Hgo). simpl. lia.
Defined.
