(* ===== verification/IdbStore.v ===== *)
(** * The key-value store of a browser ([indexeddb/store.go], [transaction.go], [fs.go])

    A store over two object stores of an IndexedDB database, one for the
    metadata and one for the contents of files.  Requests run after the code
    that makes them has returned: only [Await] lets the browser work, and while
    it does the listeners of the requests are called.  The database and its
    client library are the class [IndexedDB], a parameter.

    What Go keeps in closures is kept as data here: a listener, a result that
    is still pending, and the file that a record reads from. *)
From stdpp Require Import sorting.
From S2P Require Import Prelude.
From S2P Require Import Paths.
From S2P Require Import Errors.
From S2P Require Import Modes.
From S2P Require Import Blob.
From S2P Require Import Record.
From S2P Require Import Txn.
From S2P Require Import IdbBlob.

Local Open Scope string_scope.

Definition contentsStore : string := "contents".
Definition infoStore : string := "info".
Definition parentKey : string := "Parent".
Definition rootPath : string := ".".
Definition fsVersion : Z := 1.

(** ** The client library and the browser *)

(** What [safejs.ValueOf] is given. *)
Inductive goValue :=
  | GoInt (n : Z)
  | GoString (s : string)
  | GoMap (fields : list (string * goValue)).

(** What [Await] waits for, and what the browser does next: it delivers a
    request that succeeded or failed, or what is waited for is over. *)
Inductive target := OnTransaction (t : nat) | OnRequest (r : nat).
Inductive event (V : Type) :=
  | Fired (r : nat) (success : bool)
  | Finished (value : V) (e : err).
Arguments Fired {V}.
Arguments Finished {V}.

(** Transactions, object stores, indices and requests are numbers.
    [is_AbortError e] is [errors.Is(e, errAborted)].  [next] is also given the
    error of the context of [Await].  A request to open a database first asks
    for an upgrade if the database is new or old. *)
Class IndexedDB (J V : Type) := {
  ValueOf : goValue -> M J (V * err);
  IsUndefined : V -> bool;
  js_Get : V -> string -> M J (V * err);
  js_Int : V -> M J (Z * err);
  js_String : V -> string;
  array_elements : V -> list V;
  db_Transaction : TransactionMode -> list string -> M J (option nat * err);
  txn_ObjectStore : nat -> string -> M J (nat * err);
  txn_Abort : nat -> M J err;
  txn_Commit : nat -> M J err;
  os_Transaction : nat -> M J (nat * err);
  os_Get : nat -> V -> M J (nat * err);
  os_PutKey : nat -> V -> V -> M J (nat * err);
  os_Delete : nat -> V -> M J (nat * err);
  os_Clear : nat -> M J (nat * err);
  os_Index : nat -> string -> M J (nat * err);
  NewKeyRangeOnly : V -> M J (V * err);
  index_GetAllKeysRange : nat -> V -> Z -> M J (nat * err);
  req_listen : nat -> M J err;
  req_Result : nat -> M J (V * err);
  req_Err : nat -> M J err;
  next : target -> err -> M J (event V);
  is_AbortError : error -> bool;
  CreateObjectStore : string -> M J (nat * err);
  CreateIndex : nat -> string -> V -> M J (nat * err);
  factory_Open : string -> Z -> M J (nat * err);
  open_NeedsUpgrade : nat -> M J bool;
  open_Upgraded : nat -> err -> M J unit;
  open_Await : nat -> err -> M J err
}.

(** ** The state *)

(** A [keyvalue.BaseFileRecord]: [rec_data] and [rec_dirNames] are the paths
    that its getters read from. *)
Record idbRecord := MkIdbRecord {
  rec_size : Z;
  rec_modTime : Z;
  rec_mode : Z;
  rec_data : option string;
  rec_dirNames : option string
}.

(** [keyvalue.OpResult] *)
Record idbResult := MkIdbResult {
  r_Op : OpID;
  r_Record : option idbRecord;
  r_Err : err
}.

Record getFileRequest := MkGetFileRequest {
  g_Request : nat;
  g_path : string
}.

Record parentDirExistsReq := MkParentReq {
  p_Request : nat;
  p_notExists : bool
}.

(** The closures in [pendingResults]. *)
Inductive pendingResult :=
  | PendingGet (op : OpID) (req : option getFileRequest)
  | PendingValidate (op : OpID) (parentExistsReq : nat).

(** [type transaction struct]; [t_done]: its context was cancelled.  The code
    runs on one thread and holds [resultsMu] around single accesses only. *)
Record transaction := MkTransaction {
  t_done : bool;
  t_txn : option nat;
  t_nextOp : Z;
  t_results : gmap Z idbResult;
  t_pendingResults : list pendingResult
}.

(** The listeners of a request, each with the transaction whose context it was
    given; a handler of the caller is a number. *)
Inductive listener :=
  | ParentListener (t infos p : nat)
  | GetListener (t : nat) (op : OpID) (req : getFileRequest) (handler : nat)
  | SetListener (t : nat) (op : OpID) (req : nat) (handler : nat).
Definition listener_ctx (l : listener) : nat :=
  match l with ParentListener t _ _ | GetListener t _ _ _ | SetListener t _ _ _ => t end.

Record bworld (J V : Type) := MkBWorld {
  b_idb : iworld J V;
  b_txns : gmap nat transaction;
  b_parents : gmap nat parentDirExistsReq;
  b_listeners : list (nat * listener)
}.
Arguments MkBWorld {J V}.
Arguments b_idb {J V}.
Arguments b_txns {J V}.
Arguments b_parents {J V}.
Arguments b_listeners {J V}.

Section store.
Context {J V : Type} `{!JSArrays J V, !IndexedDB J V, !GoRuntime}.
Notation W := (bworld J V).
Implicit Types (t op infos contents r : nat) (name path : string).

(** A [keyvalue.FileRecord] that is to be stored. *)
Record FileRecord := MkFileRecord {
  fr_Size : M W Z;
  fr_ModTime : M W Z;
  fr_Mode : M W Z;
  fr_Data : M W (option anyBlob * err)
}.

Definition set_idb (i : iworld J V) (w : W) : W := MkBWorld i (b_txns w) (b_parents w) (b_listeners w).
Definition set_txns ts (w : W) : W := MkBWorld (b_idb w) ts (b_parents w) (b_listeners w).
Definition set_parents ps (w : W) : W := MkBWorld (b_idb w) (b_txns w) ps (b_listeners w).
Definition set_listeners ls (w : W) : W := MkBWorld (b_idb w) (b_txns w) (b_parents w) ls.
Definition in_blobs {A} (m : M (iworld J V) A) : M W A := zoom b_idb set_idb m.
Definition in_db {A} (m : M J A) : M W A := in_blobs (in_js m).

Definition get_txn t : M W transaction :=
  o <- gets (fun w => b_txns w !! t) ;;
  match o with Some x => ret x | None => panic "nil pointer dereference" end.
Definition put_txn t (x : transaction) : M W unit :=
  modify (fun w => set_txns (<[t := x]> (b_txns w)) w).
Definition idb_txn t : M W nat :=
  x <- get_txn t ;;
  match t_txn x with Some i => ret i | None => panic "nil pointer dereference" end.

(** ** Results of a transaction *)
Definition newOp t : M W OpID :=
  x <- get_txn t ;;
  let nextOp := add64 (t_nextOp x) 1 in
  put_txn t (MkTransaction (t_done x) (t_txn x) nextOp (t_results x) (t_pendingResults x)) ;;;
  ret (sub64 nextOp 1).

Definition setResult t (op : OpID) (result : idbResult) : M W unit :=
  x <- get_txn t ;;
  put_txn t (MkTransaction (t_done x) (t_txn x) (t_nextOp x) (<[op := result]> (t_results x)) (t_pendingResults x)).
Definition setErr t (op : OpID) (e : error) : M W OpID :=
  setResult t op (MkIdbResult op None (Some e)) ;;; ret op.

Definition add_pending t (p : pendingResult) : M W unit :=
  x <- get_txn t ;;
  put_txn t (MkTransaction (t_done x) (t_txn x) (t_nextOp x) (t_results x) (t_pendingResults x ++ [p])).
Definition setPendingResult t (op : OpID) (req : option getFileRequest) : M W unit :=
  add_pending t (PendingGet op req).
Definition setPendingValidateErr t (op : OpID) (parentExistsReq : option nat) : M W unit :=
  match parentExistsReq with
  | None => ret tt
  | Some p => add_pending t (PendingValidate op p)
  end.

Definition ObjectStore t name : M W (nat * err) :=
  i <- idb_txn t ;; in_db (txn_ObjectStore i name).

(** [Listen]: if the listener cannot be registered it is never called. *)
Definition Listen r (l : listener) : M W err :=
  e <- in_db (req_listen r) ;;
  match e with
  | Some e => ret (Some e)
  | None => modify (fun w => set_listeners (b_listeners w ++ [(r, l)])%list w) ;;; ret None
  end.

(** ** Reading metadata *)
Definition getFile infos path : M W (option getFileRequest * err) :=
  try (in_db (ValueOf (GoString path))) None (fun jsPath =>
    try (in_db (os_Get infos jsPath)) None (fun req =>
      ret (Some (MkGetFileRequest req path), None))).

Definition getMode (fileRecord : V) : M W (Z * err) :=
  try (in_db (js_Get fileRecord "Mode")) 0%Z (fun mode =>
    let* (intMode, e) := in_db (js_Int mode) in ret (FileMode intMode, e)).

Definition parseResult path (result : V) (e : err) : M W (option idbRecord * err) :=
  if IsUndefined result then ret (None, Some ErrNotExist)
  else match e with
  | Some e => ret (None, Some e)
  | None =>
      try (in_db (js_Get result "Size")) None (fun jsInitialSize =>
      try (in_db (js_Int jsInitialSize)) None (fun initialSize =>
      try (in_db (js_Get result "ModTime")) None (fun jsModTime =>
      try (in_db (js_Int jsModTime)) None (fun intModTime =>
      try (getMode result) None (fun mode =>
        ret (Some (MkIdbRecord initialSize intModTime mode
                     (if IsDir mode then None else Some path)
                     (if IsDir mode then Some path else None)), None))))))
  end.
Definition Result (g : getFileRequest) : M W (option idbRecord * err) :=
  let* (result, e) := in_db (req_Result (g_Request g)) in parseResult (g_path g) result e.

(** ** Writing *)
Definition deleteRecord infos contents name : M W (option nat * err) :=
  try (in_db (ValueOf (GoString name))) None (fun jsName =>
    try (in_db (os_Delete infos jsName)) None (fun _ =>
      try (in_db (os_Delete contents jsName)) None (fun req => ret (Some req, None)))).

Definition setFileContents contents name (data : anyBlob) : M W err :=
  try_ (in_db (ValueOf (GoString name))) (fun jsName =>
    a <- in_blobs (FromBlob data) ;;
    value <- in_blobs (JSValue a) ;;
    let* (_, e) := in_db (os_PutKey contents jsName value) in ret e).

Definition requireParentDirectoryExists t infos name : M W (option nat * err) :=
  let dir := Dir name in
  if String.eqb dir "" || String.eqb dir rootPath then ret (None, None)
  else
    try (in_db (ValueOf (GoString dir))) None (fun jsDir =>
      try (in_db (os_Get infos jsDir)) None (fun req =>
        w <- gets id ;;
        let p := base.fresh (dom (b_parents w)) in
        modify (fun w => set_parents (<[p := MkParentReq req false]> (b_parents w)) w) ;;;
        listenErr <- Listen req (ParentListener t infos p) ;;
        ret (Some p, listenErr))).

Definition validateAndSetFileMeta t infos name (record : FileRecord) (data : option anyBlob) :
    M W (option nat * option nat * err) :=
  size <- match data with None => fr_Size record | Some b => in_blobs (any_Len b) end ;;
  modTime <- fr_ModTime record ;;
  mode <- fr_Mode record ;;
  let fileInfo := GoMap ([("ModTime", GoInt modTime); ("Mode", GoInt mode); ("Size", GoInt size)] ++
    if negb (String.eqb name rootPath) then [(parentKey, GoString (Dir name))] else [])%list in
  try (requireParentDirectoryExists t infos name) (None, None) (fun parentExistsReq =>
    try (in_db (ValueOf (GoString name))) (None, None) (fun jsName =>
      try (in_db (ValueOf fileInfo)) (None, None) (fun jsFileInfo =>
        let* (req, e) := in_db (os_PutKey infos jsName jsFileInfo) in
        ret (Some req, parentExistsReq, e)))).

(** ** The operations of a transaction *)
Definition t_Get_ t path : M W OpID :=
  op <- newOp t ;;
  let* (infos, e) := ObjectStore t infoStore in
  match e with
  | Some e => setErr t op e
  | None =>
      let* (req, e) := getFile infos path in
      match e with
      | Some e => setErr t op e
      | None => setPendingResult t op req ;;; ret op
      end
  end.

Definition t_GetHandler t path (handler : nat) : M W OpID :=
  op <- newOp t ;;
  let* (infos, e) := ObjectStore t infoStore in
  match e with
  | Some e => setErr t op e
  | None =>
      let* (req, e) := getFile infos path in
      match e, req with
      | Some e, _ => setErr t op e
      | None, None => panic "nil pointer dereference"
      | None, Some req =>
          listenErr <- Listen (g_Request req) (GetListener t op req handler) ;;
          match listenErr with Some e => setErr t op e | None => ret op end
      end
  end.

(** [set] with its two object stores. *)
Definition set_in t (op : OpID) infos contents name (record : option FileRecord) (data : option anyBlob) :
    M W (option nat * err) :=
  match record with
  | None =>
      if String.eqb name rootPath then ret (None, Some ErrNotImplemented)
      else deleteRecord infos contents name
  | Some record =>
      e <- match data with Some b => setFileContents contents name b | None => ret None end ;;
      match e with
      | Some e => ret (None, Some e)
      | None =>
          let* (reqs, e) := validateAndSetFileMeta t infos name record data in
          match e with
          | Some e => ret (None, Some e)
          | None =>
              setPendingValidateErr t op (snd reqs) ;;;
              ret (fst reqs, None)
          end
      end
  end.
Definition set_ t (op : OpID) name (record : option FileRecord) (data : option anyBlob) :
    M W (option nat * err) :=
  try (ObjectStore t infoStore) None (fun infos =>
    try (ObjectStore t contentsStore) None (fun contents =>
      setResult t op (MkIdbResult op None None) ;;;
      set_in t op infos contents name record data)).

Definition t_Set_ t name (record : option FileRecord) (contents : option anyBlob) : M W OpID :=
  op <- newOp t ;;
  let* (_, e) := set_ t op name record contents in
  match e with Some e => setErr t op e | None => ret op end.

Definition t_SetHandler t name (record : option FileRecord) (data : option anyBlob) (handler : nat) : M W OpID :=
  op <- newOp t ;;
  let* (req, e) := set_ t op name record data in
  match e, req with
  | Some e, _ => setErr t op e
  | None, None => panic "nil pointer dereference"
  | None, Some req =>
      listenErr <- Listen req (SetListener t op req handler) ;;
      match listenErr with Some e => setErr t op e | None => ret op end
  end.

Definition t_Abort_ t : M W err := i <- idb_txn t ;; in_db (txn_Abort i).

(** ** Listeners *)
Section handlers.
Context (Handle : nat -> nat -> idbResult -> M W err).

Definition abort_store infos : M W unit :=
  let* (txn, e) := in_db (os_Transaction infos) in
  match e with
  | None => _ <- in_db (txn_Abort txn) ;; ret tt
  | Some _ => ret tt
  end.
Definition set_notExists p (b : bool) : M W unit :=
  modify (fun w => set_parents
    (alter (fun q => MkParentReq (p_Request q) b) p (b_parents w)) w).

Definition parent_listener r infos p : M W unit :=
  let* (result, e) := in_db (req_Result r) in
  if bool_decide (e <> None) || IsUndefined result then
    set_notExists p (IsUndefined result) ;;; abort_store infos
  else
    let* (mode, e) := getMode result in
    if bool_decide (e = None) && negb (IsDir mode) then
      abort_store infos ;;; set_notExists p true
    else ret tt.

(** [parentDirExistsReq.Err] *)
Definition parent_Err p : M W err :=
  o <- gets (fun w => b_parents w !! p) ;;
  match o with
  | None => panic "nil pointer dereference"
  | Some q => if p_notExists q then ret (Some ErrNotDir) else in_db (req_Err (p_Request q))
  end.

Definition handled (handler t : nat) (result : idbResult) : M W unit :=
  e <- Handle handler t result ;;
  setResult t (r_Op result)
    (match e with Some e => MkIdbResult (r_Op result) (r_Record result) (Some e) | None => result end).

Definition run_listener r (success : bool) (l : listener) : M W unit :=
  match l with
  | ParentListener _ infos p => if success then parent_listener r infos p else ret tt
  | GetListener t op req handler =>
      if success then
        let* (record, e) := Result req in handled handler t (MkIdbResult op record e)
      else e <- in_db (req_Err r) ;; setResult t op (MkIdbResult op None e)
  | SetListener t op req handler =>
      e <- in_db (req_Err req) ;;
      if success then handled handler t (MkIdbResult op None e)
      else setResult t op (MkIdbResult op None e)
  end.

(** A listener whose context is done is not called any more. *)
Fixpoint run_listeners r (success : bool) (ls : list (nat * listener)) : M W unit :=
  match ls with
  | [] => ret tt
  | (r', l) :: ls =>
      (if Nat.eqb r' r then
         x <- get_txn (listener_ctx l) ;;
         if t_done x then ret tt else run_listener r success l
       else ret tt) ;;;
      run_listeners r success ls
  end.

(** [Await] on a transaction or a request. *)
Fixpoint await (fuel : nat) (on : target) (ctx : err) : M W (V * err) :=
  match fuel with
  | O => out_of_fuel
  | S fuel =>
      ev <- in_db (next on ctx) ;;
      match ev with
      | Finished value e => ret (value, e)
      | Fired r success =>
          ls <- gets b_listeners ;;
          run_listeners r success ls ;;;
          await fuel on ctx
      end
  end.

(** ** [Commit] *)
Definition run_pending t (p : pendingResult) : M W unit :=
  match p with
  | PendingGet op None => setResult t op (MkIdbResult op None None)
  | PendingGet op (Some req) =>
      let* (record, e) := Result req in setResult t op (MkIdbResult op record e)
  | PendingValidate op p => e <- parent_Err p ;; setResult t op (MkIdbResult op None e)
  end.
Fixpoint run_pendings t (ps : list pendingResult) : M W unit :=
  match ps with [] => ret tt | p :: ps => run_pending t p ;;; run_pendings t ps end.

Definition before (a b : idbResult) : Prop := (r_Op a <= r_Op b)%Z.
#[local] Instance before_dec a b : Decision (before a b).
Proof. unfold before. apply _. Defined.
Definition sorted_results (rs : gmap Z idbResult) : list idbResult :=
  merge_sort before (snd <$> map_to_list rs).

Definition t_Commit_ (fuel : nat) t (ctx : err) : M W (list idbResult * err) :=
  i <- idb_txn t ;;
  let* (_, awaitErr) := await fuel (OnTransaction i) ctx in
  x <- get_txn t ;;
  put_txn t (MkTransaction true (t_txn x) (t_nextOp x) (t_results x) (t_pendingResults x)) ;;;
  run_pendings t (t_pendingResults x) ;;;
  x <- get_txn t ;;
  ret (sorted_results (t_results x), awaitErr).

(** ** The store *)
Definition Transaction (mode : TransactionMode) : M W (nat * err) :=
  let stores := match mode with
                | TransactionReadWrite => [infoStore; contentsStore]
                | TransactionReadOnly => [infoStore]
                end in
  let* (txn, e) := in_db (db_Transaction mode stores) in
  w <- gets id ;;
  let t := base.fresh (dom (b_txns w)) in
  put_txn t (MkTransaction false txn 0 ∅ []) ;;;
  ret (t, e).

Fixpoint first_err (ops : list idbResult) : err :=
  match ops with
  | [] => None
  | op :: ops => match r_Err op with Some e => Some e | None => first_err ops end
  end.
Definition getFirstCommitError (ops : list idbResult) (e : err) : err :=
  if match e with None => true | Some e => is_AbortError e end then
    match first_err ops with Some e => Some e | None => e end
  else e.

Definition Get (fuel : nat) path (ctx : err) : M W (option idbRecord * err) :=
  try (Transaction TransactionReadOnly) None (fun txn =>
    t_Get_ txn path ;;;
    let* (ops, e) := t_Commit_ fuel txn ctx in
    match getFirstCommitError ops e with
    | Some e => ret (None, Some e)
    | None => match ops with op :: _ => ret (r_Record op, None) | [] => panic "index out of range" end
    end).

(** The contents that [Set] stores: those of a record that is a regular file. *)
Definition regular_data (record : option FileRecord) : M W (option anyBlob * err) :=
  match record with
  | None => ret (None, None)
  | Some record =>
      mode <- fr_Mode record ;;
      if IsRegular mode then fr_Data record else ret (None, None)
  end.
Definition Set_ (fuel : nat) name (record : option FileRecord) (ctx : err) : M W err :=
  try_ (regular_data record) (fun data =>
    try_ (Transaction TransactionReadWrite) (fun txn =>
      t_Set_ txn name record data ;;;
      let* (ops, e) := t_Commit_ fuel txn ctx in
      ret (getFirstCommitError ops e))).

(** ** What a record reads *)
Definition getFileData (fuel : nat) path : M W (option nat * err) :=
  let* (txn, e) := in_db (db_Transaction TransactionReadOnly [contentsStore]) in
  match e, txn with
  | Some e, _ => ret (None, Some e)
  | None, None => panic "nil pointer dereference"
  | None, Some txn =>
      try (in_db (txn_ObjectStore txn contentsStore)) None (fun files =>
      try (in_db (ValueOf (GoString path))) None (fun jsPath =>
      try (in_db (os_Get files jsPath)) None (fun req =>
        let* (value, e) := await fuel (OnRequest req) None in
        if IsUndefined value then ret (None, Some ErrNotExist)
        else match e with
        | Some e => ret (None, Some e)
        | None => in_blobs (New_ value)
        end)))
  end.

Definition getDirNames (fuel : nat) name : M W (list string * err) :=
  let* (txn, e) := in_db (db_Transaction TransactionReadOnly [infoStore]) in
  match e, txn with
  | Some e, _ => ret ([], Some e)
  | None, None => panic "nil pointer dereference"
  | None, Some txn =>
      try (in_db (txn_ObjectStore txn infoStore)) [] (fun files =>
      try (in_db (os_Index files parentKey)) [] (fun parentIndex =>
      try (in_db (ValueOf (GoString name))) [] (fun jsName =>
      try (in_db (NewKeyRangeOnly jsName)) [] (fun keyRange =>
      try (in_db (index_GetAllKeysRange parentIndex keyRange 0)) [] (fun keysReq =>
        let* (jsKeys, e) := await fuel (OnRequest keysReq) None in
        ret (match e with
             | None => (fun jsKey => Base (js_String jsKey)) <$> array_elements jsKeys
             | Some _ => []
             end, e))))))
  end.

(** ** [FS] *)

(** The upgrade of a new database. *)
Definition upgrade : M W err :=
  try_ (in_db (CreateObjectStore contentsStore)) (fun _ =>
  try_ (in_db (CreateObjectStore infoStore)) (fun infos =>
  try_ (in_db (ValueOf (GoString parentKey))) (fun jsParentKey =>
    let* (_, e) := in_db (CreateIndex infos parentKey jsParentKey) in ret e))).

(** [NewFS] up to the key-value file system on the store. *)
Definition open_database (name : string) (ctx : err) : M W err :=
  try_ (in_db (factory_Open name fsVersion)) (fun openRequest =>
    needed <- in_db (open_NeedsUpgrade openRequest) ;;
    (if needed then e <- upgrade ;; in_db (open_Upgraded openRequest e) else ret tt) ;;;
    in_db (open_Await openRequest ctx)).

Fixpoint clear_stores (txn : nat) (stores : list string) : M W err :=
  match stores with
  | [] => ret None
  | name :: stores =>
      try_ (in_db (txn_ObjectStore txn name)) (fun store =>
        try_ (in_db (os_Clear store)) (fun _ => clear_stores txn stores))
  end.

(** [Clear] up to making the root again. *)
Definition Clear (fuel : nat) (ctx : err) : M W err :=
  let stores := [contentsStore; infoStore] in
  let* (txn, e) := in_db (db_Transaction TransactionReadWrite stores) in
  match e, txn with
  | Some e, _ => ret (Some e)
  | None, None => panic "nil pointer dereference"
  | None, Some txn =>
      e <- clear_stores txn stores ;;
      match e with
      | Some e => ret (Some e)
      | None =>
          e <- in_db (txn_Commit txn) ;;
          match e with
          | Some e => ret (Some e)
          | None => let* (_, e) := await fuel (OnTransaction txn) ctx in ret e
          end
      end
  end.
End handlers.
End store.
