(* ===== verification/IdbFS.v ===== *)
(** * The file system of a browser ([indexeddb/fs.go])

    [FS] is a key-value file system on the store of [IdbStore], and the database
    behind that store.  The records of that store have the blobs of the browser,
    those of [KVFS] have the blobs of [Blob]; here the store is any one that has
    such a database in its state, and [Clear] and [NewFS] work on the database
    before they call the file system on it. *)
From S2P Require Import Prelude.
From S2P Require Import Errors.
From S2P Require Import Record.
From S2P Require Import Txn.
From S2P Require Import KVFile.
From S2P Require Import KVFS.
From S2P Require Import IdbBlob.
From S2P Require Import IdbStore.

Local Open Scope string_scope.

Section FS.
Context {ST R T : Type} `{!RecordOps ST R, !Store ST R T, !GoRuntime}.
Context {J V : Type} `{!JSArrays J V, !IndexedDB J V}.
Notation W := (world ST).

(** The database in the state of the store, and the code that is called when one
    of its requests succeeds. *)
Context (database : ST -> bworld J V) (set_database : bworld J V -> ST -> ST).
Context (Handle : nat -> nat -> idbResult -> M (bworld J V) err).

Definition in_database {A} (m : M (bworld J V) A) : M W A :=
  zoom (fun w => database (w_store w))
       (fun d w => World (w_heap w) (set_database d (w_store w)) (w_now w)) m.

Definition FS_NewFS (name : string) (ctx : err) : M W err :=
  e <- in_database (open_database name ctx) ;;
  match e with Some e => ret (Some e) | None => KVFS.NewFS end.

Definition FS_Mkdir : string -> Z -> M W err := KVFS.Mkdir.
Definition FS_Clear (fuel : nat) (ctx : err) : M W err :=
  e <- in_database (Clear Handle fuel ctx) ;;
  match e with Some e => ret (Some e) | None => FS_Mkdir "." 438 end.

Definition FS_Open : string -> M W (option (handle ST R) * err) := KVFS.Open.
Definition FS_OpenFile : string -> Z -> Z -> M W (option (handle ST R) * err) := KVFS.OpenFile.
Definition FS_MkdirAll : string -> Z -> M W err := KVFS.MkdirAll.
Definition FS_Remove : string -> M W err := KVFS.Remove.
Definition FS_Rename : nat -> string -> string -> M W err := KVFS.Rename.
Definition FS_Stat : string -> M W (option (fileInfo ST R) * err) := KVFile.Stat.
Definition FS_Chmod : string -> Z -> M W err := KVFS.Chmod.
Definition FS_Chtimes : string -> Z -> Z -> M W err := KVFS.Chtimes.
End FS.
