(* ===== verification/IdbView.v ===== *)
(** * What a browser promises to the store

    The contract of IndexedDB as [indexeddb] relies on it: requests of a
    transaction run one after the other in the order they were made, on the
    data as the transaction left it so far; the transaction then commits or, if
    it was aborted, leaves the database as it was.  The class [LawfulIDB] states
    it, with what [safejs.ValueOf] makes of Go values; the rest of the file
    derives one lemma for each call of [IdbStore]. *)
From S2P Require Import Prelude.
From S2P Require Import Paths.
From S2P Require Import Errors.
From S2P Require Import Modes.
From S2P Require Import Blob.
From S2P Require Import Txn.
From S2P Require Import IdbBlob.
From S2P Require Import IdbThms.
From S2P Require Import IdbStore.

Local Open Scope string_scope.

(** ** Numbers of JavaScript

    An integer as a [float64]: 53 bits, rounded to the nearest, ties to even. *)
Definition float64_of (n : Z) : Z :=
  let m := Z.abs n in
  if (m <=? 2 ^ 53)%Z then n
  else
    let unit := (2 ^ (Z.log2 m - 52))%Z in
    let q := (m / unit)%Z in
    let rest := (m `mod` unit)%Z in
    let up := (unit <? 2 * rest)%Z || ((unit =? 2 * rest)%Z && Z.odd q) in
    (Z.sgn n * ((if up then q + 1 else q) * unit))%Z.

Lemma float64_of_small n : (Z.abs n <= 2 ^ 53)%Z -> float64_of n = n.
Proof. intros H. unfold float64_of. by rewrite (proj2 (Z.leb_le _ _) H). Qed.

(** The error is half a unit in the last place at most. *)
Lemma float64_of_close n : (Z.abs n < 2 ^ 63)%Z -> (Z.abs (float64_of n - n) <= 512)%Z.
Proof.
  intros H. unfold float64_of. destruct (Z.leb_spec (Z.abs n) (2 ^ 53)); [lia|].
  set (m := Z.abs n) in *. set (u := (2 ^ (Z.log2 m - 52))%Z).
  assert (Hl : (53 <= Z.log2 m <= 62)%Z).
  { split; [apply Z.log2_le_pow2; lia|]. apply Z.lt_succ_r. apply Z.log2_lt_pow2; lia. }
  assert (Hu : (0 < u <= 1024)%Z).
  { unfold u. split; [apply Z.pow_pos_nonneg; lia|]. change 1024%Z with (2 ^ 10)%Z. apply Z.pow_le_mono_r; lia. }
  pose proof (Z.div_mod m u ltac:(lia)) as Hd. pose proof (Z.mod_pos_bound m u ltac:(lia)) as Hm.
  set (q := (m / u)%Z) in *. set (rest := (m `mod` u)%Z) in *.
  assert (Hc : forall k, (Z.abs (k * u - m) <= 512)%Z -> (Z.abs (Z.sgn n * (k * u) - n) <= 512)%Z).
  { intros k Hk. subst m. destruct (Z.abs_spec n) as [[? E]|[? E]]; rewrite E in Hk.
    - destruct (Z.eq_dec n 0%Z); [lia|]. rewrite Z.sgn_pos by lia. lia.
    - rewrite Z.sgn_neg by lia. lia. }
  apply Hc. destruct (Z.ltb_spec u (2 * rest)); simpl; [nia|].
  destruct (Z.eqb_spec u (2 * rest)); simpl; [|nia]. destruct (Z.odd q); nia.
Qed.

(** ** The abstract database *)

(** What a JavaScript value shows. *)
Inductive jval :=
  | JInt (n : Z)
  | JString (s : string)
  | JBytes (bs : list byte)
  | JObject (fields : list (string * jval))
  | JKeys (keys : list string).

Fixpoint to_js (g : goValue) : jval :=
  match g with
  | GoInt n => JInt (float64_of n)
  | GoString s => JString s
  | GoMap fields => JObject ((fix go l := match l with [] => [] | (k, v) :: l => (k, to_js v) :: go l end) fields)
  end.

Fixpoint field (name : string) (fields : list (string * jval)) : option jval :=
  match fields with
  | [] => None
  | (k, v) :: fields => if String.eqb k name then Some v else field name fields
  end.

(** The values by store and key. *)
Abbreviation db := (gmap (string * string) jval).

Inductive request :=
  | RGet (store key : string)
  | RPut (store key : string) (v : jval)
  | RDelete (store key : string)
  | RKeys (store parent : string).

Definition parent_is (parent : string) (v : jval) : bool :=
  match v with
  | JObject fields => match field parentKey fields with Some (JString s) => String.eqb s parent | _ => false end
  | _ => false
  end.
Definition keys_of (store parent : string) (d : db) : list string :=
  omap (fun kv => if String.eqb kv.1.1 store && parent_is parent kv.2 then Some kv.1.2 else None) (map_to_list d).

(** Running a request: the data after it and the result, [None] if that is
    [undefined]. *)
Definition exec (q : request) (d : db) : db * option jval :=
  match q with
  | RGet s k => (d, d !! (s, k))
  | RPut s k v => (<[(s, k) := v]> d, Some (JString k))
  | RDelete s k => (delete (s, k) d, None)
  | RKeys s parent => (d, Some (JKeys (keys_of s parent d)))
  end.

(** [tv_write] and [tv_scope] are the mode and the object stores the transaction
    was made with, [tv_db] the data as it sees them, [tv_todo] the requests that
    have not run yet. *)
Record txnview := MkTxnView {
  tv_write : bool;
  tv_scope : list string;
  tv_db : db;
  tv_todo : list (nat * request);
  tv_aborted : bool
}.
Definition set_tv d todo aborted (tv : txnview) : txnview :=
  MkTxnView (tv_write tv) (tv_scope tv) d todo aborted.
Definition writes (q : request) : bool :=
  match q with RPut _ _ _ | RDelete _ _ => true | _ => false end.

(** [v_requests] are the requests made so far, [v_results] those that have
    succeeded; [v_stores], [v_indices] and [v_ranges] what the handles are. *)
Record jview := MkView {
  v_db : db;
  v_txns : gmap nat txnview;
  v_requests : gset nat;
  v_results : gmap nat (option jval);
  v_stores : gmap nat (nat * string);
  v_indices : gmap nat (nat * string)
}.
Definition set_v_db d v := MkView d (v_txns v) (v_requests v) (v_results v) (v_stores v) (v_indices v).
Definition set_v_txn i tv v :=
  MkView (v_db v) (<[i := tv]> (v_txns v)) (v_requests v) (v_results v) (v_stores v) (v_indices v).
Definition set_v_store o s v :=
  MkView (v_db v) (v_txns v) (v_requests v) (v_results v) (<[o := s]> (v_stores v)) (v_indices v).
Definition set_v_index x s v :=
  MkView (v_db v) (v_txns v) (v_requests v) (v_results v) (v_stores v) (<[x := s]> (v_indices v)).
Definition set_v_result r res v :=
  MkView (v_db v) (v_txns v) (v_requests v) (<[r := res]> (v_results v)) (v_stores v) (v_indices v).
Definition add_v_request r v :=
  MkView (v_db v) (v_txns v) ({[r]} ∪ v_requests v) (v_results v) (v_stores v) (v_indices v).

(** A request is made in the transaction [i]. *)
Definition add_request i (tv : txnview) r (q : request) (v : jview) : jview :=
  set_v_txn i (set_tv (tv_db tv) (tv_todo tv ++ [(r, q)])%list (tv_aborted tv) tv) (add_v_request r v).

(** A number that is no request yet. *)
Definition unknown r v : Prop :=
  r ∉ v_requests v /\ v_results v !! r = None /\
  forall i tv, v_txns v !! i = Some tv -> r ∉ (tv_todo tv).*1.
Definition nowhere_else i r v : Prop :=
  forall i' tv, v_txns v !! i' = Some tv -> i' <> i -> r ∉ (tv_todo tv).*1.

Lemma unknown_nowhere_else i tv r q v : unknown r v -> nowhere_else i r (add_request i tv r q v).
Proof. intros (_ & _ & Hr) i' tv' Hi Hne. simpl in Hi. rewrite lookup_insert_ne in Hi by done. by eapply Hr. Qed.

Definition abort_error : error := Errorf "AbortError" [].

(** ** The contract *)
Class LawfulIDB (J V : Type) `{!JSArrays J V, !LawfulJS J V, !IndexedDB J V} := {
  view : J -> jview;
  val : J -> V -> option jval;
  is_key_range : V -> string -> Prop;
  val_bytes j v bs : val j v = Some (JBytes bs) <-> js_bytes j v = Some bs;
  val_defined j v c : val j v = Some c -> IsUndefined v = false;
  val_string j v s : val j v = Some (JString s) -> js_String v = s;
  val_keys j v ks : val j v = Some (JKeys ks) -> js_String <$> array_elements v = ks;
  (* arrays are apart from the database, and other values do not change *)
  law_array_New j n r j' :
    js_New n j = (r, j') ->
    view j' = view j /\ forall v c, val j v = Some c -> (forall bs, c <> JBytes bs) -> val j' v = Some c;
  law_array_CopyBytesToJS j v bs r j' :
    js_CopyBytesToJS v bs j = (r, j') ->
    view j' = view j /\ forall v c, val j v = Some c -> (forall bs, c <> JBytes bs) -> val j' v = Some c;
  (* values *)
  law_ValueOf j g :
    exists v j', ValueOf g j = (Ret (v, None), j') /\ view j' = view j /\ val j' v = Some (to_js g) /\
      forall u c, val j u = Some c -> val j' u = Some c;
  law_Get j v fields name x :
    val j v = Some (JObject fields) -> field name fields = Some x ->
    exists u j', js_Get v name j = (Ret (u, None), j') /\ view j' = view j /\ val j' u = Some x /\
      forall u c, val j u = Some c -> val j' u = Some c;
  law_Int j v n : val j v = Some (JInt n) -> is_int64 n -> js_Int v j = (Ret (n, None), j);
  (* transactions *)
  law_Transaction j mode stores :
    exists i j', db_Transaction mode stores j = (Ret (Some i, None), j') /\ v_txns (view j) !! i = None /\
      view j' = set_v_txn i (MkTxnView (match mode with TransactionReadWrite => true | TransactionReadOnly => false end)
                                   stores (v_db (view j)) [] false) (view j) /\
      forall u c, val j u = Some c -> val j' u = Some c;
  law_ObjectStore j i tv name :
    v_txns (view j) !! i = Some tv -> name ∈ tv_scope tv ->
    exists o j', txn_ObjectStore i name j = (Ret (o, None), j') /\ v_stores (view j) !! o = None /\
      view j' = set_v_store o (i, name) (view j) /\
      forall u c, val j u = Some c -> val j' u = Some c;
  law_os_Transaction j o i name :
    v_stores (view j) !! o = Some (i, name) -> os_Transaction o j = (Ret (i, None), j);
  law_Abort j i tv :
    v_txns (view j) !! i = Some tv -> tv_aborted tv = false ->
    exists j', txn_Abort i j = (Ret None, j') /\
      view j' = set_v_txn i (set_tv (tv_db tv) (tv_todo tv) true tv) (view j) /\
      forall u c, val j u = Some c -> val j' u = Some c;
  (* requests *)
  law_request j i name tv o (q : request) (m : M J (nat * err)) :
    v_stores (view j) !! o = Some (i, name) -> v_txns (view j) !! i = Some tv -> tv_aborted tv = false ->
    (writes q = true -> tv_write tv = true) ->
    match q with
    | RGet s k => s = name /\ exists key, val j key = Some (JString k) /\ m = os_Get o key
    | RPut s k v => s = name /\ exists key value,
        val j key = Some (JString k) /\ val j value = Some v /\ m = os_PutKey o key value
    | RDelete s k => s = name /\ exists key, val j key = Some (JString k) /\ m = os_Delete o key
    | RKeys s parent => s = name /\ exists x range, v_indices (view j) !! x = Some (o, parentKey) /\
        is_key_range range parent /\ m = index_GetAllKeysRange x range 0
    end ->
    exists r j', m j = (Ret (r, None), j') /\ unknown r (view j) /\
      view j' = add_request i tv r q (view j) /\
      forall u c, val j u = Some c -> val j' u = Some c;
  law_Index j o i name key :
    v_stores (view j) !! o = Some (i, name) ->
    exists x j', os_Index o key j = (Ret (x, None), j') /\ view j' = set_v_index x (o, key) (view j) /\
      forall u c, val j u = Some c -> val j' u = Some c;
  law_KeyRange j v s :
    val j v = Some (JString s) ->
    exists range j', NewKeyRangeOnly v j = (Ret (range, None), j') /\ is_key_range range s /\ view j' = view j /\
      forall u c, val j u = Some c -> val j' u = Some c;
  law_listen j r : r ∈ v_requests (view j) -> req_listen r j = (Ret None, j);
  law_Result j r res :
    v_results (view j) !! r = Some res ->
    exists v j', req_Result r j = (Ret (v, None), j') /\ view j' = view j /\
      match res with Some c => val j' v = Some c | None => IsUndefined v = true end /\
      forall u c, val j u = Some c -> val j' u = Some c;
  law_Err j r res : v_results (view j) !! r = Some res -> req_Err r j = (Ret None, j);
  (* what the browser does while Go waits *)
  law_next_request j i tv r q todo on :
    v_txns (view j) !! i = Some tv -> tv_todo tv = (r, q) :: todo -> tv_aborted tv = false ->
    on = OnTransaction i \/ (on = OnRequest r /\ v_results (view j) !! r = None /\ nowhere_else i r (view j)) ->
    exists j', next on None j = (Ret (Fired r true), j') /\
      view j' = set_v_result r (snd (exec q (tv_db tv)))
                  (set_v_txn i (set_tv (fst (exec q (tv_db tv))) todo false tv) (view j)) /\
      forall u c, val j u = Some c -> val j' u = Some c;
  law_next_failed j i tv r q todo :
    v_txns (view j) !! i = Some tv -> tv_todo tv = (r, q) :: todo -> tv_aborted tv = true ->
    exists j', next (OnTransaction i) None j = (Ret (Fired r false), j') /\
      view j' = set_v_txn i (set_tv (tv_db tv) todo true tv) (view j) /\
      forall u c, val j u = Some c -> val j' u = Some c;
  law_next_commit j i tv :
    v_txns (view j) !! i = Some tv -> tv_todo tv = [] -> tv_aborted tv = false ->
    exists v j', next (OnTransaction i) None j = (Ret (Finished v None), j') /\
      view j' = (if tv_write tv then set_v_db (tv_db tv) (view j) else view j) /\
      forall u c, val j u = Some c -> val j' u = Some c;
  law_next_aborted j i tv :
    v_txns (view j) !! i = Some tv -> tv_todo tv = [] -> tv_aborted tv = true ->
    exists v e j', next (OnTransaction i) None j = (Ret (Finished v (Some e)), j') /\ is_AbortError e = true /\
      view j' = view j /\
      forall u c, val j u = Some c -> val j' u = Some c;
  law_next_done j r res :
    v_results (view j) !! r = Some res ->
    exists v j', next (OnRequest r) None j = (Ret (Finished v None), j') /\ view j' = view j /\
      match res with Some c => val j' v = Some c | None => IsUndefined v = true end /\
      forall u c, val j u = Some c -> val j' u = Some c
}.
