(* ===== verification/IdbRun.v ===== *)
(** * Running the key-value store of a browser

    What each operation of [IdbStore] does on a browser that keeps the contract
    of [IdbView]: values, waiting, the steps of a transaction, and [Get]. *)
From stdpp Require Import sorting.
From S2P Require Import Prelude.
From S2P Require Import Paths.
From S2P Require Import Errors.
From S2P Require Import Modes.
From S2P Require Import Blob.
From S2P Require Import BlobSpec.
From S2P Require Import Txn.
From S2P Require Import IdbBlob.
From S2P Require Import IdbThms.
From S2P Require Import IdbStore.
From S2P Require Import IdbView.

Local Open Scope string_scope.

Section store.
Context {J V : Type} `{!JSArrays J V, !LawfulJS J V, !IndexedDB J V, !LawfulIDB J V, !GoRuntime}.
Context (Handle : nat -> nat -> idbResult -> M (bworld J V) err).
Abbreviation W := (bworld J V).
Implicit Types (w : W) (j : J) (v : V) (tv : txnview) (name path : string) (d : db).

Definition js w : J := i_js (b_idb w).
Definition with_js j w : W := set_idb (set_js j (b_idb w)) w.
Definition later j j' : Prop := forall u c, val j u = Some c -> val j' u = Some c.

Lemma later_refl j : later j j.
Proof. by intros u c. Qed.
Lemma later_trans j1 j2 j3 : later j1 j2 -> later j2 j3 -> later j1 j3.
Proof. unfold later. auto. Qed.
Lemma with_js_js w : with_js (js w) w = w.
Proof. by destruct w as [[] ?]. Qed.

Lemma js_with_js j w : js (with_js j w) = j.
Proof. done. Qed.

Lemma in_db_run {A} (m : M J A) w r j' : m (js w) = (r, j') -> in_db m w = (r, with_js j' w).
Proof. intros E. unfold in_db, in_blobs, zoom. by rewrite (in_js_run m (b_idb w) r j' E). Qed.

Lemma get_txn_run t x w : b_txns w !! t = Some x -> get_txn t w = (Ret x, w).
Proof. intros E. unfold get_txn. by rewrite bind_gets, E. Qed.
Lemma idb_txn_run t x i w : b_txns w !! t = Some x -> t_txn x = Some i -> idb_txn t w = (Ret i, w).
Proof. intros E Ei. unfold idb_txn. run (get_txn_run _ _ _ E). by rewrite Ei. Qed.

(** ** Values *)
Lemma to_js_map fields : to_js (GoMap fields) = JObject ((fun kv => (kv.1, to_js kv.2)) <$> fields).
Proof.
  simpl. f_equal. induction fields as [|[k v] fields IH]; [done|]. simpl. by rewrite IH.
Qed.

(** The metadata of a file as an object. *)
Definition shows_info (c : jval) (mode mtime size : Z) : Prop :=
  exists fields, c = JObject fields /\ field "Mode" fields = Some (JInt mode) /\
    field "ModTime" fields = Some (JInt mtime) /\ field "Size" fields = Some (JInt size) /\
    (0 <= mode < 2 ^ 32)%Z /\ is_int64 mtime /\ is_int64 size.

Lemma getMode_run w v fields m :
  val (js w) v = Some (JObject fields) -> field "Mode" fields = Some (JInt m) -> (0 <= m < 2 ^ 32)%Z ->
  exists j', getMode v w = (Ret (m, None), with_js j' w) /\ view j' = view (js w) /\ later (js w) j'.
Proof.
  intros Hv Hf Hm. destruct (law_Get _ _ _ _ _ Hv Hf) as (u & j' & E & Hview & Hu & Hl).
  exists j'. split; [|done]. unfold getMode. rewrite (try_run _ _ _ _ _ _ (in_db_run _ w _ _ E)).
  run (in_db_run _ (with_js j' w) _ _ (law_Int _ _ _ Hu ltac:(int64))).
  unfold FileMode. by rewrite Z.mod_small.
Qed.

(** One property of an object that is a number. *)
Lemma number_run {B} w v fields name n (zero : B) k :
  val (js w) v = Some (JObject fields) -> field name fields = Some (JInt n) -> is_int64 n ->
  exists j', try (in_db (js_Get v name)) zero (fun x => try (in_db (js_Int x)) zero k) w = k n (with_js j' w) /\
    view j' = view (js w) /\ later (js w) j'.
Proof.
  intros Hv Hf Hn. destruct (law_Get _ _ _ _ _ Hv Hf) as (u & j' & E & Hview & Hu & Hl).
  exists j'. split; [|done]. rewrite (try_run _ _ _ _ _ _ (in_db_run _ w _ _ E)).
  by rewrite (try_run _ _ _ _ _ _ (in_db_run _ (with_js j' w) _ _ (law_Int _ _ _ Hu Hn))).
Qed.

Definition record_of path (mode mtime size : Z) : idbRecord :=
  MkIdbRecord size mtime mode (if IsDir mode then None else Some path) (if IsDir mode then Some path else None).

Lemma parseResult_run w path v c mode mtime size :
  val (js w) v = Some c -> shows_info c mode mtime size ->
  exists j', parseResult path v None w = (Ret (Some (record_of path mode mtime size), None), with_js j' w) /\
    view j' = view (js w) /\ later (js w) j'.
Proof.
  intros Hv (fields & -> & Hm & Ht & Hs & Hmr & Htr & Hsr). unfold parseResult. rewrite (val_defined _ _ _ Hv).
  destruct (number_run w v fields "Size" size None (fun initialSize =>
      try (in_db (js_Get v "ModTime")) None (fun jsModTime =>
      try (in_db (js_Int jsModTime)) None (fun intModTime =>
      try (getMode v) None (fun mode => ret (Some (MkIdbRecord initialSize intModTime mode
         (if IsDir mode then None else Some path) (if IsDir mode then Some path else None)), None)))))
    Hv Hs Hsr) as (j1 & E1 & Hv1 & Hl1).
  rewrite E1. cbv beta.
  destruct (number_run (with_js j1 w) v fields "ModTime" mtime None (fun intModTime =>
      try (getMode v) None (fun mode => ret (Some (MkIdbRecord size intModTime mode
         (if IsDir mode then None else Some path) (if IsDir mode then Some path else None)), None)))
    (Hl1 _ _ Hv) Ht Htr) as (j2 & E2 & Hv2 & Hl2).
  rewrite E2. cbv beta.
  destruct (getMode_run (with_js j2 (with_js j1 w)) v fields mode (Hl2 _ _ (Hl1 _ _ Hv)) Hm Hmr)
    as (j3 & E3 & Hv3 & Hl3).
  rewrite (try_run _ _ _ _ _ _ E3). exists j3. split; [reflexivity|].
  split; [rewrite js_with_js in *; congruence|]. eauto using later_trans.
Qed.

Lemma Result_run w g c mode mtime size :
  v_results (view (js w)) !! g_Request g = Some (Some c) -> shows_info c mode mtime size ->
  exists j', Result g w = (Ret (Some (record_of (g_path g) mode mtime size), None), with_js j' w) /\
    view j' = view (js w) /\ later (js w) j'.
Proof.
  intros Hr Hc. destruct (law_Result _ _ _ Hr) as (v & j1 & E1 & Hv1 & Hv & Hl1). unfold Result.
  run (in_db_run _ w _ _ E1).
  destruct (parseResult_run (with_js j1 w) (g_path g) v c mode mtime size Hv Hc) as (j2 & E2 & Hv2 & Hl2).
  exists j2. rewrite E2. split; [reflexivity|]. split; [rewrite js_with_js in *; congruence|]. by eapply later_trans.
Qed.

Lemma Result_missing w g :
  v_results (view (js w)) !! g_Request g = Some None ->
  exists j', Result g w = (Ret (None, Some ErrNotExist), with_js j' w) /\ view j' = view (js w) /\ later (js w) j'.
Proof.
  intros Hr. destruct (law_Result _ _ _ Hr) as (v & j1 & E1 & Hv1 & Hv & Hl1). unfold Result.
  run (in_db_run _ w _ _ E1). exists j1. unfold parseResult. rewrite Hv. by split.
Qed.

(** ** Waiting *)
Lemma run_listeners_none r success ls w :
  Forall (fun rl => rl.1 <> r) ls -> run_listeners Handle r success ls w = (Ret tt, w).
Proof.
  induction 1 as [|[r' l] ls Hne _ IH]; [done|]. simpl in *.
  destruct (Nat.eqb_spec r' r); [done|]. by rewrite bind_ret_l.
Qed.

(** The requests of a transaction run one after the other. *)
Fixpoint run_todo (i : nat) tv (todo : list (nat * request)) (v : jview) : jview :=
  match todo with
  | [] => if tv_write tv then set_v_db (tv_db tv) v else v
  | (r, q) :: todo =>
      let tv' := set_tv (fst (exec q (tv_db tv))) todo false tv in
      run_todo i tv' todo (set_v_result r (snd (exec q (tv_db tv))) (set_v_txn i tv' v))
  end.

Lemma await_quiet i todo : forall fuel tv w,
  length todo < fuel ->
  v_txns (view (js w)) !! i = Some tv -> tv_todo tv = todo -> tv_aborted tv = false ->
  Forall (fun rq => Forall (fun rl => rl.1 <> rq.1) (b_listeners w)) todo ->
  exists v j', await Handle fuel (OnTransaction i) None w = (Ret (v, None), with_js j' w) /\
    view j' = run_todo i tv todo (view (js w)) /\ later (js w) j'.
Proof.
  induction todo as [|[r q] todo IH]; intros fuel tv w Hf Hi Ht Ha Hq;
    (destruct fuel as [|fuel]; [simpl in Hf; lia|]); simpl.
  - destruct (law_next_commit _ _ _ Hi Ht Ha) as (v & j' & E & Hv & Hl).
    run (in_db_run _ w _ _ E). by exists v, j'.
  - apply Forall_cons in Hq as [Hr Hq].
    destruct (law_next_request _ _ _ _ _ _ (OnTransaction i) Hi Ht Ha (or_introl eq_refl)) as (j1 & E & Hv & Hl).
    run (in_db_run _ w _ _ E). rewrite bind_gets.
    run (run_listeners_none r true (b_listeners (with_js j1 w)) (with_js j1 w) Hr).
    destruct (IH fuel (set_tv (fst (exec q (tv_db tv))) todo false tv) (with_js j1 w)) as (v & j2 & E2 & Hv2 & Hl2).
    + simpl in Hf. lia.
    + rewrite js_with_js, Hv. apply lookup_insert_eq.
    + done.
    + done.
    + exact Hq.
    + rewrite js_with_js, Hv in Hv2. exists v, j2. split; [exact E2|]. split; [done|]. by eapply later_trans.
Qed.

(** ** The steps of a transaction *)
Definition with_txn t (x : transaction) w : W := set_txns (<[t := x]> (b_txns w)) w.

Lemma Transaction_run mode w :
  exists t i j', Transaction mode w =
      (Ret (t, None), with_txn t (MkTransaction false (Some i) 0 ∅ []) (with_js j' w)) /\
    v_txns (view (js w)) !! i = None /\
    view j' = set_v_txn i (MkTxnView (match mode with TransactionReadWrite => true | TransactionReadOnly => false end)
      (match mode with TransactionReadWrite => [infoStore; contentsStore] | TransactionReadOnly => [infoStore] end)
      (v_db (view (js w))) [] false) (view (js w)) /\
    later (js w) j'.
Proof.
  destruct (law_Transaction (js w) mode
    (match mode with TransactionReadWrite => [infoStore; contentsStore] | TransactionReadOnly => [infoStore] end))
    as (i & j' & E & Hi & Hv & Hl).
  do 3 eexists. unfold Transaction. run (in_db_run _ w _ _ E). rewrite bind_gets.
  split; [reflexivity|]. by split.
Qed.

Lemma idb_newOp_run t x w :
  b_txns w !! t = Some x -> is_int64 (t_nextOp x) -> is_int64 (t_nextOp x + 1) ->
  newOp t w = (Ret (t_nextOp x),
    with_txn t (MkTransaction (t_done x) (t_txn x) (t_nextOp x + 1) (t_results x) (t_pendingResults x)) w).
Proof.
  intros Hx H1 H2. unfold newOp. run (get_txn_run _ _ _ Hx). unfold put_txn. rewrite bind_modify.
  rewrite add64_id by done. rewrite sub64_id; by replace (t_nextOp x + 1 - 1)%Z with (t_nextOp x) by lia.
Qed.

Lemma ObjectStore_run t x i tv name w :
  b_txns w !! t = Some x -> t_txn x = Some i -> v_txns (view (js w)) !! i = Some tv -> name ∈ tv_scope tv ->
  exists o j', ObjectStore t name w = (Ret (o, None), with_js j' w) /\
    v_stores (view (js w)) !! o = None /\
    view j' = set_v_store o (i, name) (view (js w)) /\ later (js w) j'.
Proof.
  intros Hx Hi Htv Hn. destruct (law_ObjectStore _ _ _ _ Htv Hn) as (o & j' & E & Ho & Hv & Hl).
  exists o, j'. split; [|done]. unfold ObjectStore. run (idb_txn_run _ _ _ _ Hx Hi). exact (in_db_run _ w _ _ E).
Qed.

(** A request for what is stored under a name. *)
Lemma getFile_run o i store tv path w :
  v_stores (view (js w)) !! o = Some (i, store) -> v_txns (view (js w)) !! i = Some tv -> tv_aborted tv = false ->
  exists r j', getFile o path w = (Ret (Some (MkGetFileRequest r path), None), with_js j' w) /\
    r ∉ v_requests (view (js w)) /\
    view j' = add_request i tv r (RGet store path) (view (js w)) /\ later (js w) j'.
Proof.
  intros Ho Htv Ha. destruct (law_ValueOf (js w) (GoString path)) as (v & j1 & E1 & Hv1 & Hval & Hl1).
  destruct (law_request j1 i store tv o (RGet store path) (os_Get o v)) as (r & j2 & E2 & (Hr & _) & Hv2 & Hl2);
    [congruence..|done| |].
  { split; [done|]. by exists v. }
  exists r, j2. unfold getFile. rewrite (try_run _ _ _ _ _ _ (in_db_run _ w _ _ E1)).
  rewrite (try_run _ _ _ _ _ _ (in_db_run _ (with_js j1 w) _ _ E2)).
  split; [reflexivity|]. rewrite Hv1 in Hr, Hv2. split_and!; [done..|]. by eapply later_trans.
Qed.

Lemma t_Get_run t x i tv path w :
  b_txns w !! t = Some x -> is_int64 (t_nextOp x) -> is_int64 (t_nextOp x + 1) ->
  t_txn x = Some i -> v_txns (view (js w)) !! i = Some tv -> tv_aborted tv = false -> infoStore ∈ tv_scope tv ->
  exists r o j', t_Get_ t path w = (Ret (t_nextOp x),
      with_txn t (MkTransaction (t_done x) (t_txn x) (t_nextOp x + 1) (t_results x)
        (t_pendingResults x ++ [PendingGet (t_nextOp x) (Some (MkGetFileRequest r path))])) (with_js j' w)) /\
    r ∉ v_requests (view (js w)) /\
    view j' = add_request i tv r (RGet infoStore path) (set_v_store o (i, infoStore) (view (js w))) /\
    later (js w) j'.
Proof.
  intros Hx H1 H2 Hi Htv Ha Hs. unfold t_Get_. run (idb_newOp_run _ _ _ Hx H1 H2). set (w1 := with_txn _ _ w).
  destruct (ObjectStore_run t _ i tv infoStore w1 (lookup_insert_eq _ _ _) Hi Htv Hs) as (o & j1 & E1 & _ & Hv1 & Hl1).
  run E1.
  destruct (getFile_run o i infoStore tv path (with_js j1 w1)) as (r & j2 & E2 & Hr & Hv2 & Hl2).
  { rewrite js_with_js, Hv1. apply lookup_insert_eq. }
  { by rewrite js_with_js, Hv1. }
  { done. }
  run E2. rewrite js_with_js, Hv1 in *. exists r, o, j2. split; [|split_and!; [done..|by eapply later_trans]].
  unfold setPendingResult, add_pending. rewrite bind_assoc.
  run (get_txn_run t _ (with_js j2 (with_js j1 w1)) (lookup_insert_eq _ _ _)).
  unfold put_txn. rewrite bind_modify. unfold ret. do 2 f_equal. unfold with_txn, set_txns. simpl. f_equal.
  by rewrite insert_insert_eq.
Qed.

(** ** [Get] *)

(** The requests with listeners are known to the browser. *)
Definition settled w : Prop := Forall (fun rl => rl.1 ∈ v_requests (view (js w))) (b_listeners w).

Lemma settled_fresh w r : settled w -> r ∉ v_requests (view (js w)) -> Forall (fun rl => rl.1 <> r) (b_listeners w).
Proof. intros Hs Hr. eapply Forall_impl; [exact Hs|]. simpl. congruence. Qed.

Lemma sorted_one op res : sorted_results {[op := res]} = [res].
Proof. unfold sorted_results. by rewrite map_to_list_singleton. Qed.

(** What [Get] answers about a stored value. *)
Definition answers (c : option jval) path (res : option idbRecord * err) : Prop :=
  match c with
  | None => res = (None, Some ErrNotExist)
  | Some c => exists mode mtime size, shows_info c mode mtime size /\ res = (Some (record_of path mode mtime size), None)
  end.

Lemma Result_answers w r path c res :
  v_results (view (js w)) !! r = Some c -> answers c path res ->
  exists j', Result (MkGetFileRequest r path) w = (Ret res, with_js j' w) /\ view j' = view (js w) /\ later (js w) j'.
Proof.
  intros Hr Hc. destruct c as [c|]; simpl in Hc.
  - destruct Hc as (mode & mtime & size & Hc & ->). by apply (Result_run w (MkGetFileRequest r path) c).
  - subst. by apply Result_missing.
Qed.

(** [Commit] when no listener waits: what is left is to read the results. *)
Definition finished (x : transaction) : transaction :=
  MkTransaction true (t_txn x) (t_nextOp x) (t_results x) (t_pendingResults x).
Definition collect t (x : transaction) (e : err) : M W (list idbResult * err) :=
  run_pendings t (t_pendingResults x) ;;;
  x <- get_txn t ;;
  ret (sorted_results (t_results x), e).

Lemma Commit_awaited fuel t x i v e w w' :
  b_txns w !! t = Some x -> t_txn x = Some i ->
  await Handle fuel (OnTransaction i) None w = (Ret (v, e), w') -> b_txns w' !! t = Some x ->
  t_Commit_ Handle fuel t None w = collect t x e (with_txn t (finished x) w').
Proof.
  intros Hx Hi E Hx'. unfold t_Commit_. run (idb_txn_run _ _ _ _ Hx Hi). run E. run (get_txn_run _ _ _ Hx').
  unfold put_txn. by rewrite bind_modify.
Qed.

Lemma Commit_quiet fuel t x i tv w :
  b_txns w !! t = Some x -> t_txn x = Some i ->
  v_txns (view (js w)) !! i = Some tv -> tv_aborted tv = false -> length (tv_todo tv) < fuel ->
  Forall (fun rq => Forall (fun rl => rl.1 <> rq.1) (b_listeners w)) (tv_todo tv) ->
  exists j', t_Commit_ Handle fuel t None w = collect t x None (with_txn t (finished x) (with_js j' w)) /\
    view j' = run_todo i tv (tv_todo tv) (view (js w)) /\ later (js w) j'.
Proof.
  intros Hx Hi Htv Ha Hf Hq.
  destruct (await_quiet i (tv_todo tv) fuel tv w Hf Htv eq_refl Ha Hq) as (v & j' & E & Hv & Hl).
  exists j'. split; [|done]. by apply (Commit_awaited fuel t x i v None w (with_js j' w)).
Qed.

(** One pending result that makes one result. *)
Lemma collect_one t x op p res w1 w2 e :
  t_pendingResults x = [p] -> run_pending t p w1 = (Ret tt, w2) ->
  (exists x2, b_txns w2 !! t = Some x2 /\ t_results x2 = {[op := res]}) ->
  collect t x e w1 = (Ret ([res], e), w2).
Proof.
  intros Hp E (x2 & Hx2 & Hr). unfold collect. rewrite Hp. simpl run_pendings. go_simpl. run E.
  rewrite bind_ret_l. run (get_txn_run _ _ _ Hx2). by rewrite Hr, sorted_one.
Qed.

Lemma setResult_run t x op res w :
  b_txns w !! t = Some x ->
  setResult t op res w = (Ret tt, with_txn t
    (MkTransaction (t_done x) (t_txn x) (t_nextOp x) (<[op := res]> (t_results x)) (t_pendingResults x)) w).
Proof. intros Hx. unfold setResult. by run (get_txn_run _ _ _ Hx). Qed.

Lemma first_one res : getFirstCommitError [res] None = r_Err res.
Proof. unfold getFirstCommitError. simpl. by destruct (r_Err res). Qed.

Lemma Get_run fuel path w res :
  settled w -> 2 <= fuel -> answers (v_db (view (js w)) !! (infoStore, path)) path res ->
  exists w', Get Handle fuel path None w = (Ret res, w') /\ settled w' /\
    v_db (view (js w')) = v_db (view (js w)) /\ later (js w) (js w') /\ b_idb w' = set_js (js w') (b_idb w).
Proof.
  intros Hs Hf Hres. unfold Get.
  destruct (Transaction_run TransactionReadOnly w) as (t & i & j1 & E1 & _ & Hv1 & Hl1).
  rewrite (try_run _ _ _ _ _ _ E1). set (w1 := with_txn t _ (with_js j1 w)).
  set (tv := MkTxnView false [infoStore] (v_db (view (js w))) [] false) in *.
  destruct (t_Get_run t _ i tv path w1 (lookup_insert_eq _ _ _)) as (r & o & j2 & E2 & Hr & Hv2 & Hl2);
    [done|done|done| |done|set_solver|].
  { change (js w1) with j1. rewrite Hv1. apply lookup_insert_eq. }
  run E2. change (js w1) with j1 in *. rewrite Hv1 in Hr, Hv2. set (w2 := with_txn t _ (with_js j2 w1)).
  set (x := MkTransaction false (Some i) 1 ∅ [PendingGet 0 (Some (MkGetFileRequest r path))]).
  destruct (Commit_quiet fuel t x i (set_tv (v_db (view (js w))) [(r, RGet infoStore path)] false tv) w2
    (lookup_insert_eq _ _ _) eq_refl) as (j3 & E3 & Hv3 & Hl3); [|done|simpl; lia| |].
  { change (js w2) with j2. rewrite Hv2. apply lookup_insert_eq. }
  { constructor; [|constructor]. by apply (settled_fresh w). }
  change (js w2) with j2 in *. rewrite Hv2 in Hv3. set (w3 := with_txn t (finished x) (with_js j3 w2)) in E3.
  destruct (Result_answers w3 r path (v_db (view (js w)) !! (infoStore, path)) res) as (j4 & E4 & Hv4 & Hl4);
    [change (js w3) with j3; rewrite Hv3; apply lookup_insert_eq|done|].
  change (js w3) with j3 in *. set (out := MkIdbResult 0 res.1 res.2).
  set (w4 := with_txn t (MkTransaction true (Some i) 1 {[0%Z := out]}
    [PendingGet 0 (Some (MkGetFileRequest r path))]) (with_js j4 w3)).
  assert (collect t x None w3 = (Ret ([out], None), w4)) as Ec.
  { eapply (collect_one t x 0%Z); [reflexivity| |eexists; split; [apply lookup_insert_eq|reflexivity]].
    simpl. run E4. destruct res as [record e]. exact (setResult_run t (finished x) 0%Z _ (with_js j4 w3) (lookup_insert_eq _ _ _)). }
  unfold bind at 1. rewrite E3, Ec, first_one. exists w4. split.
  { destruct res as [record [e|]]; [|reflexivity]. unfold out. simpl.
    destruct (v_db (view (js w)) !! (infoStore, path)); simpl in Hres; [|by injection Hres as -> ->].
    destruct Hres as (? & ? & ? & _ & [=]). }
  change (js w4) with j4. split_and!.
  - eapply Forall_impl; [exact Hs|]. intros rl Hk. change (js w4) with j4. rewrite Hv4, Hv3. simpl. set_solver.
  - by rewrite Hv4, Hv3.
  - eauto using later_trans.
  - done.
Qed.
End store.
