(* ===== verification/IdbSet.v ===== *)
(** * Storing in a browser, and what records read

    What [Set] of [IdbStore] does on a browser that keeps the contract of
    [IdbView]: the requests it makes, what the browser does with them while Go
    waits, and what comes back; then the getters of records, and deleting. *)
From stdpp Require Import sorting.
From S2P Require Import Prelude.
From S2P Require Import Paths.
From S2P Require Import Errors.
From S2P Require Import Modes.
From S2P Require Import Blob.
From S2P Require Import BlobSpec.
From S2P Require Import Txn.
From S2P Require Import IdbBlob.
From S2P Require Import IdbThms.
From S2P Require Import IdbStore.
From S2P Require Import IdbView.
From S2P Require Import IdbRun.

Local Open Scope string_scope.

Section store.
Context {J V : Type} `{!JSArrays J V, !LawfulJS J V, !IndexedDB J V, !LawfulIDB J V, !GoRuntime}.
Context (Handle : nat -> nat -> idbResult -> M (bworld J V) err).
Abbreviation W := (bworld J V).
Implicit Types (w : W) (j : J) (v : V) (tv : txnview) (name path : string) (d : db).

(** ** [Set] *)

(** What the code leaves of the Go side. *)
Definition go_same w w' : Prop :=
  b_txns w' = b_txns w /\ b_parents w' = b_parents w /\ b_listeners w' = b_listeners w.
Definition heap_ok w : Prop := wf_heap (i_heap (b_idb w)).

Lemma setFileContents_run contents i tv name bs w :
  heap_ok w -> v_stores (view (js w)) !! contents = Some (i, contentsStore) ->
  v_txns (view (js w)) !! i = Some tv -> tv_aborted tv = false -> tv_write tv = true ->
  exists r w', setFileContents contents name (GoBlob (BPlain bs)) w = (Ret None, w') /\
    go_same w w' /\ heap_ok w' /\ r ∉ v_requests (view (js w)) /\
    view (js w') = add_request i tv r (RPut contentsStore name (JBytes bs)) (view (js w)) /\
    later (js w) (js w').
Proof.
  intros Hh Ho Htv Ha Hw.
  destruct (law_ValueOf (js w) (GoString name)) as (key & j1 & E1 & Hv1 & Hkey & Hl1).
  destruct (FromBlob_run (b_idb (with_js j1 w)) bs Hh)
    as (n & v & i2 & E2 & (ibn & Hn & Hvn) & Hv & _ & Hwf2 & _ & Hkeep & HR).
  assert (view (i_js i2) = view j1 /\ forall u c, val j1 u = Some c -> (forall bs, c <> JBytes bs) ->
    val (i_js i2) u = Some c) as [Hv2 Hl2].
  { apply (HR (fun j j' => view j' = view j /\
      forall u c, val j u = Some c -> (forall bs, c <> JBytes bs) -> val j' u = Some c)).
    - intros a b c [E Hab] [E' Hbc]. split; [congruence|eauto].
    - apply law_array_New.
    - apply law_array_CopyBytesToJS. }
  set (w2 := set_idb i2 w).
  destruct (law_request (js w2) i contentsStore tv contents (RPut contentsStore name (JBytes bs))
    (os_PutKey contents key v)) as (r & j3 & E3 & (Hr & _) & Hv3 & Hl3).
  { change (js w2) with (i_js i2). congruence. }
  { change (js w2) with (i_js i2). congruence. }
  { done. }
  { done. }
  { split; [done|]. exists key, v. split; [by apply Hl2|]. split; [by apply val_bytes|done]. }
  assert (Hl2' : later j1 (i_js i2)).
  { intros u c Hu. destruct c; try (apply Hl2; [done|]; intros; discriminate).
    apply val_bytes. apply Hkeep. by apply val_bytes. }
  change (js w2) with (i_js i2) in *. rewrite Hv2, Hv1 in *.
  exists r, (with_js j3 w2). split; [|split_and!; [by repeat split|exact Hwf2|done|done|]].
  - unfold setFileContents. rewrite (try__run _ _ _ _ _ (in_db_run _ w _ _ E1)).
    assert (in_blobs (FromBlob (GoBlob (BPlain bs))) (with_js j1 w) = (Ret n, w2)) as E.
    { unfold in_blobs, zoom. by rewrite E2. }
    run E. assert (in_blobs (JSValue n) w2 = (Ret v, w2)) as E'.
    { unfold in_blobs, zoom, JSValue. change (b_idb w2) with i2. run (get_idb_run n ibn i2 Hn).
      unfold ret. by rewrite Hvn. }
    run E'. by run (in_db_run _ w2 _ _ E3).
  - rewrite js_with_js. intros u c Hu. apply Hl3, Hl2', Hl1, Hu.
Qed.

Definition parent_needed name : bool := negb (String.eqb (Dir name) "" || String.eqb (Dir name) rootPath).

Definition with_parent p r (l : listener) w : W :=
  set_listeners (b_listeners w ++ [(r, l)])%list (set_parents (<[p := MkParentReq r false]> (b_parents w)) w).

Lemma requireParent_run t infos i tv name w :
  parent_needed name = true -> v_stores (view (js w)) !! infos = Some (i, infoStore) ->
  v_txns (view (js w)) !! i = Some tv -> tv_aborted tv = false ->
  exists p r j', requireParentDirectoryExists t infos name w =
      (Ret (Some p, None), with_parent p r (ParentListener t infos p) (with_js j' w)) /\
    r ∉ v_requests (view (js w)) /\
    view j' = add_request i tv r (RGet infoStore (Dir name)) (view (js w)) /\ later (js w) j'.
Proof.
  intros Hn Ho Htv Ha. destruct (law_ValueOf (js w) (GoString (Dir name))) as (v & j1 & E1 & Hv1 & Hval & Hl1).
  destruct (law_request j1 i infoStore tv infos (RGet infoStore (Dir name)) (os_Get infos v))
    as (r & j2 & E2 & (Hr & _) & Hv2 & Hl2); [congruence..|done| |].
  { split; [done|]. by exists v. }
  rewrite Hv1 in Hr, Hv2. eexists _, r, j2. split; [|split_and!; [done..|by eapply later_trans]].
  unfold requireParentDirectoryExists. apply negb_true_iff in Hn. rewrite Hn.
  rewrite (try_run _ _ _ _ _ _ (in_db_run _ w _ _ E1)), (try_run _ _ _ _ _ _ (in_db_run _ (with_js j1 w) _ _ E2)).
  rewrite bind_gets, bind_modify. unfold Listen. rewrite bind_assoc. set (w3 := set_parents _ _).
  assert (req_listen r (js w3) = (Ret None, js w3)) as E3.
  { apply law_listen. change (js w3) with j2. rewrite Hv2. simpl. set_solver. }
  run (in_db_run _ w3 _ _ E3). rewrite bind_assoc, bind_modify. reflexivity.
Qed.

Definition fileInfo_of name (mode mtime size : Z) : goValue :=
  GoMap ([("ModTime", GoInt mtime); ("Mode", GoInt mode); ("Size", GoInt size)] ++
    if negb (String.eqb name rootPath) then [(parentKey, GoString (Dir name))] else [])%list.

Lemma put_info_run infos i tv name g po w :
  v_stores (view (js w)) !! infos = Some (i, infoStore) ->
  v_txns (view (js w)) !! i = Some tv -> tv_aborted tv = false -> tv_write tv = true ->
  exists r j', try (in_db (ValueOf (GoString name))) (None, None) (fun jsName =>
      try (in_db (ValueOf g)) (None, None) (fun jsFileInfo =>
        let* (req, e) := in_db (os_PutKey infos jsName jsFileInfo) in
        ret (Some req, po : option nat, e))) w = (Ret (Some r, po, None), with_js j' w) /\
    r ∉ v_requests (view (js w)) /\
    view j' = add_request i tv r (RPut infoStore name (to_js g)) (view (js w)) /\ later (js w) j'.
Proof.
  intros Ho Htv Ha Hw.
  destruct (law_ValueOf (js w) (GoString name)) as (k & j1 & E1 & Hv1 & Hk & Hl1).
  destruct (law_ValueOf j1 g) as (v & j2 & E2 & Hv2 & Hv & Hl2).
  destruct (law_request j2 i infoStore tv infos (RPut infoStore name (to_js g)) (os_PutKey infos k v))
    as (r & j3 & E3 & (Hr & _) & Hv3 & Hl3); [congruence..|done| |].
  { split; [done|]. exists k, v. split; [by apply Hl2|]. by split. }
  rewrite Hv2, Hv1 in Hr, Hv3. exists r, j3.
  rewrite (try_run _ _ _ _ _ _ (in_db_run _ w _ _ E1)), (try_run _ _ _ _ _ _ (in_db_run _ (with_js j1 w) _ _ E2)).
  run (in_db_run _ (with_js j2 (with_js j1 w)) _ _ E3).
  split; [reflexivity|]. split_and!; [done..|]. eauto using later_trans.
Qed.

(** A record to be stored, as the code asks for it: what its methods return. *)
Record record_gives (rec : @FileRecord J V) (mode mtime size : Z) (data : option (list byte)) : Prop := {
  gives_mode w : fr_Mode rec w = (Ret mode, w);
  gives_mtime w : fr_ModTime rec w = (Ret mtime, w);
  gives_size w : fr_Size rec w = (Ret size, w);
  gives_data w : if IsRegular mode then
      exists bs, data = Some bs /\ size = Z.of_nat (length bs) /\
        fr_Data rec w = (Ret (Some (GoBlob (BPlain bs)), None), w)
    else data = None
}.
Definition blob_of (data : option (list byte)) : option anyBlob := (fun bs => GoBlob (BPlain bs)) <$> data.

(** The requests for metadata that [Set] makes. *)
Record meta_made (t i infos : nat) (name : string) (c : jval) tv w (r2 r3 p : nat) w' : Prop := {
  made_txns : b_txns w' = b_txns w;
  made_heap : i_heap (b_idb w') = i_heap (b_idb w);
  made_listeners : b_listeners w' =
    (b_listeners w ++ if parent_needed name then [(r2, ParentListener t infos p)] else [])%list;
  made_parent : parent_needed name = true -> b_parents w' !! p = Some (MkParentReq r2 false);
  made_todo : v_txns (view (js w')) !! i = Some (set_tv (tv_db tv)
    (tv_todo tv ++ (if parent_needed name then [(r2, RGet infoStore (Dir name))] else []) ++
     [(r3, RPut infoStore name c)])%list false tv);
  made_db : v_db (view (js w')) = v_db (view (js w));
  made_stores : v_stores (view (js w')) = v_stores (view (js w));
  made_fresh : r2 ∉ v_requests (view (js w)) /\ r3 ∉ v_requests (view (js w)) /\
    (parent_needed name = true -> r3 <> r2);
  made_known : forall r, r ∈ v_requests (view (js w)) \/ (parent_needed name = true /\ r = r2) ->
    r ∈ v_requests (view (js w'));
  made_later : later (js w) (js w')
}.

Lemma validate_run t i infos tv name rec mode mtime size data w :
  record_gives rec mode mtime size data ->
  v_stores (view (js w)) !! infos = Some (i, infoStore) ->
  v_txns (view (js w)) !! i = Some tv -> tv_aborted tv = false -> tv_write tv = true ->
  exists r2 r3 p w', validateAndSetFileMeta t infos name rec (blob_of data) w =
      (Ret (Some r3, if parent_needed name then Some p else None, None), w') /\
    meta_made t i infos name (to_js (fileInfo_of name mode mtime size)) tv w r2 r3 p w'.
Proof.
  intros Hg Ho Htv Ha Hw. unfold validateAndSetFileMeta.
  assert (match blob_of data with None => fr_Size rec | Some b => in_blobs (any_Len b) end w = (Ret size, w)) as Es.
  { pose proof (gives_data _ _ _ _ _ Hg w) as Hd. pose proof (gives_size _ _ _ _ _ Hg w) as Hs.
    destruct data as [bs|]; simpl; [|done]. destruct (IsRegular mode); [|done].
    destruct Hd as (bs' & [= <-] & -> & _). by destruct w as [[] ? ? ?]. }
  run Es. run (gives_mtime _ _ _ _ _ Hg w). run (gives_mode _ _ _ _ _ Hg w).
  fold (fileInfo_of name mode mtime size). set (g := fileInfo_of _ _ _ _).
  destruct (parent_needed name) eqn:Hn.
  - destruct (requireParent_run t infos i tv name w Hn Ho Htv Ha) as (p & r2 & j1 & E1 & Hr2 & Hv1 & Hl1).
    rewrite (try_run _ _ _ _ _ _ E1). set (w1 := with_parent _ _ _ _).
    destruct (put_info_run infos i (set_tv (tv_db tv) (tv_todo tv ++ [(r2, RGet infoStore (Dir name))])%list (tv_aborted tv) tv)
      name g (Some p) w1) as (r3 & j2 & E2 & Hr3 & Hv2 & Hl2);
      [change (js w1) with j1; rewrite ?Hv1; simpl; first [done|apply lookup_insert_eq]..|].
    rewrite E2. change (js w1) with j1 in *. rewrite Hv1 in *. simpl in Hr3.
    exists r2, r3, p, (with_js j2 w1). split; [reflexivity|].
    split; rewrite ?Hn, ?js_with_js, ?Hv2; try done.
    + intros _. apply lookup_insert_eq.
    + simpl. rewrite lookup_insert_eq. f_equal. unfold set_tv. simpl. by rewrite <- app_assoc, Ha.
    + set_solver.
    + intros r Hr. simpl. set_solver.
    + by eapply later_trans.
  - unfold requireParentDirectoryExists. apply negb_false_iff in Hn as Hn'. rewrite Hn'.
    rewrite (try_run (ret (None, None)) _ _ w _ w eq_refl).
    destruct (put_info_run infos i tv name g None w Ho Htv Ha Hw) as (r3 & j2 & E2 & Hr3 & Hv2 & Hl2).
    rewrite E2. exists r3, r3, 0, (with_js j2 w). split; [reflexivity|].
    split; rewrite ?Hn, ?js_with_js, ?Hv2; try done.
    + by rewrite app_nil_r.
    + simpl. rewrite lookup_insert_eq. by rewrite Ha.
    + intros r [Hr|[? _]]; [|done]. simpl. set_solver.
Qed.

(** The transaction of [Set] when all its requests are made. *)
Definition both_stores : list string := [infoStore; contentsStore].
Definition put_contents name (data : option (list byte)) (r1 : nat) : list (nat * request) :=
  match data with Some bs => [(r1, RPut contentsStore name (JBytes bs))] | None => [] end.

Record issued (t i infos : nat) (name : string) (c : jval) (d : db) (data : option (list byte)) w (r1 r2 r3 p : nat) w' : Prop := {
  issued_txn : b_txns w' !! t = Some (MkTransaction false (Some i) 1 {[0%Z := MkIdbResult 0 None None]}
    (if parent_needed name then [PendingValidate 0 p] else []));
  issued_listeners : b_listeners w' =
    (b_listeners w ++ if parent_needed name then [(r2, ParentListener t infos p)] else [])%list;
  issued_parent : parent_needed name = true -> b_parents w' !! p = Some (MkParentReq r2 false);
  issued_tv : v_txns (view (js w')) !! i = Some (MkTxnView true both_stores d
    (put_contents name data r1 ++ (if parent_needed name then [(r2, RGet infoStore (Dir name))] else []) ++
     [(r3, RPut infoStore name c)])%list false);
  issued_db : v_db (view (js w')) = v_db (view (js w));
  issued_store : v_stores (view (js w')) !! infos = Some (i, infoStore);
  issued_fresh : r1 ∉ v_requests (view (js w)) /\ r2 ∉ v_requests (view (js w)) /\ r3 ∉ v_requests (view (js w)) /\
    (data <> None -> r1 <> r2) /\ (parent_needed name = true -> r3 <> r2);
  issued_settled : settled w';
  issued_heap : heap_ok w';
  issued_later : later (js w) (js w')
}.

Lemma set_contents_run t x i infos contents name data w :
  heap_ok w -> b_txns w !! t = Some x ->
  v_stores (view (js w)) !! contents = Some (i, contentsStore) ->
  v_stores (view (js w)) !! infos = Some (i, infoStore) ->
  forall d, v_txns (view (js w)) !! i = Some (MkTxnView true both_stores d [] false) ->
  exists r1 w', match blob_of data with Some b => setFileContents contents name b | None => ret None end w =
      (Ret None, w') /\
    go_same w w' /\ heap_ok w' /\ r1 ∉ v_requests (view (js w)) /\
    v_txns (view (js w')) !! i = Some (MkTxnView true both_stores d (put_contents name data r1) false) /\
    v_db (view (js w')) = v_db (view (js w)) /\
    v_stores (view (js w')) = v_stores (view (js w)) /\
    v_requests (view (js w')) = (if data then {[r1]} else ∅) ∪ v_requests (view (js w)) /\
    later (js w) (js w').
Proof.
  intros Hh Hx Ho Hi d Htv. destruct data as [bs|]; simpl.
  - destruct (setFileContents_run contents i _ name bs w Hh Ho Htv eq_refl eq_refl)
      as (r & w' & E & Hs & Hh' & Hr & Hv & Hl).
    exists r, w'. rewrite Hv. split_and!; try done. apply lookup_insert_eq.
  - exists (base.fresh (v_requests (view (js w)))), w. split_and!; try done.
    + apply is_fresh.
    + set_solver.
    + apply later_refl.
Qed.

Lemma setPendingValidateErr_run t x op (po : option nat) w :
  b_txns w !! t = Some x ->
  exists w', setPendingValidateErr t op po w = (Ret tt, w') /\
    b_txns w' !! t = Some (MkTransaction (t_done x) (t_txn x) (t_nextOp x) (t_results x)
      (t_pendingResults x ++ match po with Some p => [PendingValidate op p] | None => [] end)) /\
    b_idb w' = b_idb w /\ b_parents w' = b_parents w /\ b_listeners w' = b_listeners w.
Proof.
  intros Hx. destruct po as [p|]; simpl.
  - unfold add_pending. run (get_txn_run _ _ _ Hx). eexists. split; [reflexivity|].
    split; [apply lookup_insert_eq|done].
  - exists w. rewrite app_nil_r, Hx. by destruct x.
Qed.

(** Where every [set] begins. *)
Definition opened_txn i : transaction := MkTransaction false (Some i) 1 {[0%Z := MkIdbResult 0 None None]} [].
Lemma t_Set_opens t i d name record data w :
  b_txns w !! t = Some (MkTransaction false (Some i) 0 ∅ []) ->
  v_txns (view (js w)) !! i = Some (MkTxnView true both_stores d [] false) ->
  exists infos contents j', t_Set_ t name record data w =
      (let* (_, e) := set_in t 0 infos contents name record data in
       match e with Some e => setErr t 0 e | None => ret 0%Z end) (with_txn t (opened_txn i) (with_js j' w)) /\
    infos <> contents /\
    view j' = set_v_store contents (i, contentsStore) (set_v_store infos (i, infoStore) (view (js w))) /\
    later (js w) j'.
Proof.
  intros Ht Htv. set (tv := MkTxnView true both_stores d [] false) in *.
  unfold t_Set_. run (idb_newOp_run t _ w Ht ltac:(done) ltac:(done)).
  cbn [t_nextOp t_done t_txn t_results t_pendingResults]. set (w1 := with_txn t _ w). unfold set_.
  destruct (ObjectStore_run t _ i tv infoStore w1 (lookup_insert_eq _ _ _) eq_refl Htv) as (infos & j1 & E1 & _ & Hv1 & Hl1);
    [simpl; set_solver|].
  unfold bind at 1. rewrite (try_run _ _ _ _ _ _ E1). change (js w1) with (js w) in *.
  destruct (ObjectStore_run t _ i tv contentsStore (with_js j1 w1) (lookup_insert_eq _ _ _) eq_refl)
    as (contents & j2 & E2 & Hne & Hv2 & Hl2); [by rewrite js_with_js, Hv1|simpl; set_solver|].
  rewrite (try_run _ _ _ _ _ _ E2). rewrite js_with_js, Hv1 in *.
  run (setResult_run t _ 0%Z (MkIdbResult 0 None None) (with_js j2 (with_js j1 w1)) (lookup_insert_eq _ _ _)).
  exists infos, contents, j2. split_and!; [| |done|by eapply later_trans].
  - unfold bind, with_txn, set_txns. simpl. by rewrite !insert_insert_eq.
  - intros <-. simpl in Hne. by rewrite lookup_insert_eq in Hne.
Qed.

Lemma t_Set_run t i d name rec mode mtime size data w :
  record_gives rec mode mtime size data -> heap_ok w -> settled w ->
  b_txns w !! t = Some (MkTransaction false (Some i) 0 ∅ []) ->
  v_txns (view (js w)) !! i = Some (MkTxnView true both_stores d [] false) ->
  exists infos r1 r2 r3 p w', t_Set_ t name (Some rec) (blob_of data) w = (Ret 0%Z, w') /\
    issued t i infos name (to_js (fileInfo_of name mode mtime size)) d data w r1 r2 r3 p w'.
Proof.
  intros Hg Hh Hs Ht Htv.
  destruct (t_Set_opens t i d name (Some rec) (blob_of data) w Ht Htv) as (infos & contents & j2 & E2 & Hne & Hv2 & Hl2).
  rewrite E2. unfold set_in. set (w2 := with_txn t _ (with_js j2 w)). unfold bind at 1.
  destruct (set_contents_run t _ i infos contents name data w2 Hh (lookup_insert_eq _ _ _)) with (d := d)
    as (r1 & w3 & E3 & (Hg1 & Hg2 & Hg3) & Hh3 & Hr1 & Htv3 & Hdb3 & Hst3 & Hrq3 & Hl3);
    [change (js w2) with j2; rewrite Hv2..|].
  { apply lookup_insert_eq. }
  { simpl. rewrite lookup_insert_ne by done. apply lookup_insert_eq. }
  { done. }
  run E3. change (js w2) with j2 in *. rewrite Hv2 in *. simpl in Hdb3, Hst3, Hrq3, Hr1.
  destruct (validate_run t i infos (MkTxnView true both_stores d (put_contents name data r1) false) name rec
    mode mtime size data w3 Hg) as (r2 & r3 & p & w4 & E4 & Hm); [|done|done|done|].
  { rewrite Hst3, lookup_insert_ne by done. apply lookup_insert_eq. }
  run E4. cbn [fst snd]. destruct Hm as [Ht4 Hh4 Hls4 Hp4 Htv4 Hdb4 Hst4 (Hf2 & Hf3 & Hf23) Hk4 Hl4].
  destruct (setPendingValidateErr_run t (MkTransaction false (Some i) 1 {[0%Z := MkIdbResult 0 None None]} []) 0%Z (if parent_needed name then Some p else None) w4)
    as (w5 & E5 & Ht5 & Hi5 & Hp5 & Hls5).
  { rewrite Ht4, Hg1. apply lookup_insert_eq. }
  run E5. assert (js w5 = js w4) as Hj by (unfold js; by rewrite Hi5).
  exists infos, r1, r2, r3, p, w5. split; [reflexivity|]. rewrite Hrq3 in Hf2, Hf3. split; rewrite ?Hj.
  - rewrite Ht5. simpl. by destruct (parent_needed name).
  - by rewrite Hls5, Hls4, Hg3.
  - by rewrite Hp5.
  - exact Htv4.
  - by rewrite Hdb4, Hdb3.
  - rewrite Hst4, Hst3, lookup_insert_ne by done. apply lookup_insert_eq.
  - split_and!; [done|set_solver..| |done]. intros Hd. destruct data; [set_solver|done].
  - unfold settled. rewrite Hj, Hls5, Hls4, Hg3. apply Forall_app. split.
    + eapply Forall_impl; [exact Hs|]. intros rl Hrl. apply Hk4. left. rewrite Hrq3. set_solver.
    + destruct (parent_needed name); constructor; [|done]. apply Hk4. by right.
  - unfold heap_ok. by rewrite Hi5, Hh4.
  - repeat (eapply later_trans; [eassumption|]). apply later_refl.
Qed.

(** ** What the browser does with them *)
Definition with_contents name (data : option (list byte)) (d : db) : db :=
  match data with Some bs => <[(contentsStore, name) := JBytes bs]> d | None => d end.

(** What stays as it is while requests run. *)
Definition same_handles j j' : Prop :=
  v_db (view j') = v_db (view j) /\ v_stores (view j') = v_stores (view j) /\
  v_requests (view j') = v_requests (view j) /\ later j j'.

Lemma same_handles_trans j1 j2 j3 : same_handles j1 j2 -> same_handles j2 j3 -> same_handles j1 j3.
Proof.
  intros (?&?&?&?) (?&?&?&?). repeat split; [congruence..|]. by eapply later_trans.
Qed.

(** One request runs, and its listeners. *)
Lemma await_request fuel i d r q todo w :
  v_txns (view (js w)) !! i = Some (MkTxnView true both_stores d ((r, q) :: todo) false) ->
  exists j', await Handle (S fuel) (OnTransaction i) None w =
      (run_listeners Handle r true (b_listeners w) ;;; await Handle fuel (OnTransaction i) None) (with_js j' w) /\
    v_txns (view j') !! i = Some (MkTxnView true both_stores (fst (exec q d)) todo false) /\
    v_results (view j') !! r = Some (snd (exec q d)) /\ same_handles (js w) j'.
Proof.
  intros Hi. destruct (law_next_request _ _ _ _ _ _ (OnTransaction i) Hi eq_refl eq_refl (or_introl eq_refl))
    as (j' & E & Hv & Hl).
  exists j'. simpl. run (in_db_run _ w _ _ E). rewrite bind_gets. split; [done|].
  rewrite Hv. split; [apply lookup_insert_eq|]. split; [apply lookup_insert_eq|]. unfold same_handles. rewrite Hv. by split_and!.
Qed.

Lemma await_puts fuel i d name data r1 todo w :
  Forall (fun rl => data <> None -> rl.1 <> r1) (b_listeners w) ->
  v_txns (view (js w)) !! i = Some (MkTxnView true both_stores d (put_contents name data r1 ++ todo)%list false) ->
  exists j', await Handle (length (put_contents name data r1) + fuel) (OnTransaction i) None w =
      await Handle fuel (OnTransaction i) None (with_js j' w) /\
    v_txns (view j') !! i = Some (MkTxnView true both_stores (with_contents name data d) todo false) /\
    same_handles (js w) j'.
Proof.
  intros Hls Hi. destruct data as [bs|]; simpl in *.
  - destruct (await_request fuel i d _ _ _ w Hi) as (j' & E & Htv & _ & Hs). exists j'. split; [|done].
    assert (Forall (fun rl => rl.1 <> r1) (b_listeners w)) as Hq
      by (eapply Forall_impl; [exact Hls|]; simpl; auto).
    etransitivity; [exact E|]. by run (run_listeners_none Handle r1 true _ (with_js j' w) Hq).
  - exists (js w). rewrite with_js_js. split; [done|]. split; [done|]. unfold same_handles.
    split_and!; [done..|apply later_refl].
Qed.

(** The listener is called with what is stored for the parent. *)
Lemma run_parent_listener t x r infos p old w :
  Forall (fun rl => rl.1 <> r) old -> b_txns w !! t = Some x -> t_done x = false ->
  run_listeners Handle r true (old ++ [(r, ParentListener t infos p)]) w =
    (parent_listener r infos p ;;; ret tt) w.
Proof.
  intros Hold Hx Hd. induction Hold as [|[r' l] old Hne _ IH]; simpl in *.
  - rewrite Nat.eqb_refl. rewrite bind_assoc. run (get_txn_run _ _ _ Hx). by rewrite Hd.
  - destruct (Nat.eqb_spec r' r); [done|]. by rewrite bind_ret_l.
Qed.

Definition is_dir_at name (d : db) : Prop :=
  exists c mode mtime size, d !! (infoStore, name) = Some c /\ shows_info c mode mtime size /\ IsDir mode = true.
Definition no_dir_at name (d : db) : Prop :=
  d !! (infoStore, name) = None \/
  exists c mode mtime size, d !! (infoStore, name) = Some c /\ shows_info c mode mtime size /\ IsDir mode = false.

Lemma same_view_handles j j' : view j' = view j -> later j j' -> same_handles j j'.
Proof. intros Hv Hl. unfold same_handles. by rewrite Hv. Qed.

Lemma parent_is_dir r infos p name d w :
  is_dir_at name d -> v_results (view (js w)) !! r = Some (d !! (infoStore, name)) ->
  exists j', parent_listener r infos p w = (Ret tt, with_js j' w) /\ view j' = view (js w) /\ later (js w) j'.
Proof.
  intros (c & mode & mtime & size & -> & (fields & -> & Hm & _ & _ & Hr & _) & Hd) Hres.
  destruct (law_Result _ _ _ Hres) as (v & j1 & E1 & Hv1 & Hv & Hl1).
  destruct (getMode_run (with_js j1 w) v fields mode Hv Hm Hr) as (j2 & E2 & Hv2 & Hl2).
  exists j2. unfold parent_listener. run (in_db_run _ w _ _ E1).
  rewrite (val_defined _ _ _ Hv). cbn [orb bool_decide]. rewrite bool_decide_eq_false_2 by congruence. cbn [orb].
  run E2. rewrite Hd, andb_false_r. rewrite js_with_js in Hv2. split; [done|]. split; [congruence|].
  by eapply later_trans.
Qed.

Lemma parent_is_no_dir i d0 todo r infos p name d w :
  no_dir_at name d -> v_results (view (js w)) !! r = Some (d !! (infoStore, name)) ->
  v_stores (view (js w)) !! infos = Some (i, infoStore) ->
  v_txns (view (js w)) !! i = Some (MkTxnView true both_stores d0 todo false) ->
  b_parents w !! p = Some (MkParentReq r false) ->
  exists j', parent_listener r infos p w =
      (Ret tt, set_parents (<[p := MkParentReq r true]> (b_parents w)) (with_js j' w)) /\
    v_txns (view j') !! i = Some (MkTxnView true both_stores d0 todo true) /\ same_handles (js w) j'.
Proof.
  intros Hno Hres Hst Htv Hp.
  assert (Habort : forall j1, view j1 = view (js w) -> later (js w) j1 -> exists j2,
    v_txns (view j2) !! i = Some (MkTxnView true both_stores d0 todo true) /\ same_handles (js w) j2 /\
    forall w1, js w1 = j1 -> abort_store infos w1 = (Ret tt, with_js j2 w1)).
  { intros j1 Hv1 Hl1. rewrite <- Hv1 in Hst, Htv. destruct (law_Abort j1 i _ Htv eq_refl) as (j2 & E2 & Hv2 & Hl2).
    exists j2. split; [rewrite Hv2; apply lookup_insert_eq|]. split.
    - eapply same_handles_trans; [by apply same_view_handles|]. unfold same_handles. rewrite Hv2. by split_and!.
    - intros w1 <-. unfold abort_store. run (in_db_run _ w1 _ _ (law_os_Transaction _ _ _ _ Hst)).
      rewrite with_js_js. by run (in_db_run _ w1 _ _ E2). }
  assert (Halter : alter (fun q => MkParentReq (p_Request q) true) p (b_parents w) =
    <[p := MkParentReq r true]> (b_parents w)).
  { apply map_eq. intros p'. destruct (decide (p' = p)) as [->|].
    - by rewrite lookup_alter_eq, lookup_insert_eq, Hp.
    - by rewrite lookup_alter_ne, lookup_insert_ne. }
  destruct (law_Result _ _ _ Hres) as (v & j1 & E1 & Hv1 & Hv & Hl1).
  unfold parent_listener. destruct Hno as [Hno|(c & mode & mtime & size & Hc & (fields & -> & Hm & _ & _ & Hr & _) & Hd)].
  - rewrite Hno in Hv. destruct (Habort j1 Hv1 Hl1) as (j2 & Htv2 & Hs2 & Ha). exists j2. split; [|done].
    run (in_db_run _ w _ _ E1). rewrite Hv, orb_true_r. unfold set_notExists. rewrite bind_modify.
    rewrite Ha by done. simpl. by rewrite Halter.
  - rewrite Hc in Hv. destruct (getMode_run (with_js j1 w) v fields mode Hv Hm Hr) as (j2 & E2 & Hv2 & Hl2).
    rewrite js_with_js in Hv2, Hl2.
    destruct (Habort j2) as (j3 & Htv3 & Hs3 & Ha); [congruence|by eapply later_trans|]. exists j3. split; [|done].
    run (in_db_run _ w _ _ E1). rewrite (val_defined _ _ _ Hv), bool_decide_eq_false_2 by congruence. cbn [orb].
    run E2. rewrite Hd, bool_decide_eq_true_2 by done. cbn [andb negb].
    rewrite (bind_Ret _ _ _ _ _ (Ha (with_js j2 (with_js j1 w)) eq_refl)).
    unfold set_notExists, modify. simpl. by rewrite Halter.
Qed.

Lemma await_parent fuel t x i infos r p old name d todo w :
  b_listeners w = (old ++ [(r, ParentListener t infos p)])%list -> Forall (fun rl => rl.1 <> r) old ->
  b_txns w !! t = Some x -> t_done x = false ->
  v_txns (view (js w)) !! i = Some (MkTxnView true both_stores d ((r, RGet infoStore name) :: todo) false) ->
  exists j', await Handle (S fuel) (OnTransaction i) None w =
      (parent_listener r infos p ;;; await Handle fuel (OnTransaction i) None) (with_js j' w) /\
    v_txns (view j') !! i = Some (MkTxnView true both_stores d todo false) /\
    v_results (view j') !! r = Some (d !! (infoStore, name)) /\ same_handles (js w) j'.
Proof.
  intros Hls Hold Hx Hd Hi. destruct (await_request fuel i d _ _ _ w Hi) as (j' & E & Htv & Hres & Hs).
  exists j'. split; [|done]. rewrite E, Hls. unfold bind.
  rewrite (run_parent_listener t x r infos p old (with_js j' w)) by done.
  unfold bind, ret. by destruct (parent_listener r infos p (with_js j' w)) as [[[]| | |] ?].
Qed.

(** The last request, for the metadata, and the commit. *)
Lemma await_info fuel i d r name c w :
  Forall (fun rl => rl.1 <> r) (b_listeners w) ->
  v_txns (view (js w)) !! i = Some (MkTxnView true both_stores d [(r, RPut infoStore name c)] false) ->
  exists v j', await Handle (S (S fuel)) (OnTransaction i) None w = (Ret (v, None), with_js j' w) /\
    v_db (view j') = <[(infoStore, name) := c]> d /\ v_requests (view j') = v_requests (view (js w)) /\
    (forall r', r' <> r -> v_results (view j') !! r' = v_results (view (js w)) !! r') /\ later (js w) j'.
Proof.
  intros Hq Hi. destruct (await_quiet Handle i [(r, RPut infoStore name c)] (S (S fuel)) _ w ltac:(simpl; lia) Hi eq_refl eq_refl)
    as (v & j' & E & Hv & Hl); [by constructor|].
  exists v, j'. rewrite Hv. split; [exact E|]. split_and!; [done|done| |done].
  intros r' Hne. by apply lookup_insert_ne.
Qed.

(** A transaction that was aborted. *)
Lemma await_aborted fuel i d r q w :
  Forall (fun rl => rl.1 <> r) (b_listeners w) ->
  v_txns (view (js w)) !! i = Some (MkTxnView true both_stores d [(r, q)] true) ->
  exists v e j', await Handle (S (S fuel)) (OnTransaction i) None w = (Ret (v, Some e), with_js j' w) /\
    is_AbortError e = true /\ same_handles (js w) j'.
Proof.
  intros Hq Hi. destruct (law_next_failed _ _ _ _ _ _ Hi eq_refl eq_refl) as (j1 & E1 & Hv1 & Hl1).
  destruct (law_next_aborted j1 i (set_tv d [] true (MkTxnView true both_stores d [(r, q)] true)))
    as (v & e & j2 & E2 & He & Hv2 & Hl2); [rewrite Hv1; apply lookup_insert_eq|done|done|].
  exists v, e, j2. simpl. run (in_db_run _ w _ _ E1). rewrite bind_gets.
  run (run_listeners_none Handle r false (b_listeners (with_js j1 w)) (with_js j1 w) Hq).
  run (in_db_run _ (with_js j1 w) _ _ E2). split; [done|]. split; [done|].
  unfold same_handles. rewrite Hv2, Hv1. split_and!; [done..|]. by eapply later_trans.
Qed.

Lemma with_contents_info name data d key : with_contents name data d !! (infoStore, key) = d !! (infoStore, key).
Proof. destruct data; [|done]. simpl. by rewrite lookup_insert_ne. Qed.

(** What [Set] stores. *)
Definition stored name (c : jval) (data : option (list byte)) d : db :=
  <[(infoStore, name) := c]> (with_contents name data d).

Section issued_requests.
Context (t i infos : nat) (name : string) (c : jval) (d : db) (data : option (list byte)) (w0 : W) (r1 r2 r3 p : nat) (w : W).
Context (Hissued : issued t i infos name c d data w0 r1 r2 r3 p w) (Hw0 : settled w0).

Lemma old_fresh r : r ∉ v_requests (view (js w0)) -> Forall (fun rl => rl.1 <> r) (b_listeners w0).
Proof. by apply settled_fresh. Qed.

Lemma listeners_not r :
  r ∉ v_requests (view (js w0)) -> (parent_needed name = true -> r <> r2) ->
  Forall (fun rl => rl.1 <> r) (b_listeners w).
Proof.
  intros Hr Hne. rewrite (issued_listeners _ _ _ _ _ _ _ _ _ _ _ _ _ Hissued). apply Forall_app. split.
  - by apply old_fresh.
  - destruct (parent_needed name); repeat constructor. intros E. by apply Hne.
Qed.

Lemma await_issued_puts fuel :
  exists j', await Handle (length (put_contents name data r1) + fuel) (OnTransaction i) None w =
      await Handle fuel (OnTransaction i) None (with_js j' w) /\
    v_txns (view j') !! i = Some (MkTxnView true both_stores (with_contents name data d)
      ((if parent_needed name then [(r2, RGet infoStore (Dir name))] else []) ++ [(r3, RPut infoStore name c)])%list false) /\
    same_handles (js w) j'.
Proof.
  destruct (issued_fresh _ _ _ _ _ _ _ _ _ _ _ _ _ Hissued) as (H1 & H2 & H3 & H12 & H32).
  apply await_puts; [|by apply (issued_tv _ _ _ _ _ _ _ _ _ _ _ _ _ Hissued)].
  destruct (decide (data = None)) as [Hd|Hd]; [by apply Forall_forall|].
  eapply Forall_impl; [apply listeners_not; [exact H1|intros _; by apply H12]|]. simpl. auto.
Qed.

Lemma await_stores fuel :
  4 <= fuel -> (parent_needed name = true -> is_dir_at (Dir name) d) ->
  exists v j', await Handle fuel (OnTransaction i) None w = (Ret (v, None), with_js j' w) /\
    v_db (view j') = stored name c data d /\ v_requests (view j') = v_requests (view (js w)) /\
    (parent_needed name = true -> exists res, v_results (view j') !! r2 = Some res) /\ later (js w) j'.
Proof.
  intros Hf Hdir. destruct (issued_fresh _ _ _ _ _ _ _ _ _ _ _ _ _ Hissued) as (H1 & H2 & H3 & H12 & H32).
  assert (exists f, fuel = length (put_contents name data r1) + S (S (S f))) as [f ->].
  { exists (fuel - 3 - length (put_contents name data r1)). destruct data; simpl; lia. }
  destruct (await_issued_puts (S (S (S f)))) as (j1 & E1 & Htv1 & Hs1). rewrite E1.
  destruct Hs1 as (Hdb1 & Hst1 & Hrq1 & Hl1).
  destruct (parent_needed name) eqn:Hn.
  - pose proof (issued_listeners _ _ _ _ _ _ _ _ _ _ _ _ _ Hissued) as Hls. rewrite Hn in Hls.
    destruct (await_parent (S (S f)) t _ i infos r2 p _ (Dir name) _ _ (with_js j1 w) Hls (old_fresh r2 H2)
      (issued_txn _ _ _ _ _ _ _ _ _ _ _ _ _ Hissued) eq_refl Htv1) as (j2 & E2 & Htv2 & Hres2 & Hs2).
    rewrite E2. destruct Hs2 as (Hdb2 & Hst2 & Hrq2 & Hl2). rewrite with_contents_info in Hres2.
    destruct (parent_is_dir r2 infos p (Dir name) d (with_js j2 (with_js j1 w)) (Hdir eq_refl) Hres2)
      as (j3 & E3 & Hv3 & Hl3). run E3. rewrite js_with_js in *.
    destruct (await_info f i (with_contents name data d) r3 name c (with_js j3 (with_js j2 (with_js j1 w))))
      as (v & j4 & E4 & Hdb4 & Hrq4 & Hres4 & Hl4);
      [by apply listeners_not; auto|rewrite js_with_js; congruence|].
    rewrite js_with_js in *. exists v, j4. split; [exact E4|]. split; [exact Hdb4|]. split; [congruence|]. split.
    + intros _. rewrite Hres4, Hv3, Hres2 by (apply not_eq_sym; auto). by eexists.
    + eauto 6 using later_trans.
  - destruct (await_info (S f) i (with_contents name data d) r3 name c (with_js j1 w))
      as (v & j4 & E4 & Hdb4 & Hrq4 & _ & Hl4); [by apply listeners_not; congruence|exact Htv1|].
    rewrite js_with_js in *. exists v, j4. split; [exact E4|]. split; [exact Hdb4|]. split; [congruence|].
    split; [done|]. by eapply later_trans.
Qed.

Lemma await_refuses fuel :
  4 <= fuel -> parent_needed name = true -> no_dir_at (Dir name) d ->
  exists v e j', await Handle fuel (OnTransaction i) None w =
      (Ret (v, Some e), set_parents (<[p := MkParentReq r2 true]> (b_parents w)) (with_js j' w)) /\
    is_AbortError e = true /\ same_handles (js w) j'.
Proof.
  intros Hf Hn Hdir. destruct (issued_fresh _ _ _ _ _ _ _ _ _ _ _ _ _ Hissued) as (H1 & H2 & H3 & H12 & H32).
  assert (exists f, fuel = length (put_contents name data r1) + S (S (S f))) as [f ->].
  { exists (fuel - 3 - length (put_contents name data r1)). destruct data; simpl; lia. }
  destruct (await_issued_puts (S (S (S f)))) as (j1 & E1 & Htv1 & Hs1). rewrite E1.
  pose proof (issued_listeners _ _ _ _ _ _ _ _ _ _ _ _ _ Hissued) as Hls. rewrite Hn in Hls, Htv1.
  destruct (await_parent (S (S f)) t _ i infos r2 p _ (Dir name) _ _ (with_js j1 w) Hls (old_fresh r2 H2)
    (issued_txn _ _ _ _ _ _ _ _ _ _ _ _ _ Hissued) eq_refl Htv1) as (j2 & E2 & Htv2 & Hres2 & Hs2).
  rewrite E2. rewrite with_contents_info in Hres2. rewrite js_with_js in *.
  destruct (parent_is_no_dir i (with_contents name data d) [(r3, RPut infoStore name c)] r2 infos p (Dir name) d (with_js j2 (with_js j1 w)) Hdir Hres2) as (j3 & E3 & Htv3 & Hs3);
    [| |by apply (issued_parent _ _ _ _ _ _ _ _ _ _ _ _ _ Hissued)|].
  { rewrite js_with_js. destruct Hs2 as (_ & -> & _), Hs1 as (_ & -> & _).
    apply (issued_store _ _ _ _ _ _ _ _ _ _ _ _ _ Hissued). }
  { exact Htv2. }
  run E3. set (w3 := set_parents _ _).
  destruct (await_aborted f i (with_contents name data d) r3 (RPut infoStore name c) w3) as (v & e & j4 & E4 & He & Hs4).
  { by apply listeners_not. }
  { exact Htv3. }
  exists v, e, j4. split; [exact E4|]. split; [done|]. rewrite js_with_js in Hs3. change (js w3) with j3 in Hs4.
  eauto using same_handles_trans.
Qed.
End issued_requests.

(** ** The result of [Set] *)
Lemma regular_data_run rec mode mtime size data w :
  record_gives rec mode mtime size data -> regular_data (Some rec) w = (Ret (blob_of data, None), w).
Proof.
  intros Hg. unfold regular_data. run (gives_mode _ _ _ _ _ Hg w).
  pose proof (gives_data _ _ _ _ _ Hg w) as Hd. destruct (IsRegular mode).
  - by destruct Hd as (bs & -> & _ & ->).
  - by subst.
Qed.

(** The results of the transaction, by what the parent's request says. *)
Definition result_of (e : err) : idbResult := MkIdbResult 0 None e.
Lemma collect_set t i name p e pe w :
  b_txns w !! t = Some (finished (MkTransaction false (Some i) 1 {[0%Z := result_of None]}
    (if parent_needed name then [PendingValidate 0 p] else []))) ->
  (if parent_needed name then parent_Err p w = (Ret pe, w) else pe = None) ->
  exists w', collect t (MkTransaction false (Some i) 1 {[0%Z := result_of None]}
      (if parent_needed name then [PendingValidate 0 p] else [])) e w = (Ret ([result_of pe], e), w') /\
    b_idb w' = b_idb w /\ b_listeners w' = b_listeners w.
Proof.
  intros Ht Hp. destruct (parent_needed name).
  - exists (with_txn t (MkTransaction true (Some i) 1 {[0%Z := result_of pe]} [PendingValidate 0 p]) w).
    split; [|split; reflexivity].
    apply (collect_one t _ 0%Z (PendingValidate 0 p)); [done| |eexists; split; [apply lookup_insert_eq|done]].
    simpl run_pending. run Hp. rewrite (setResult_run _ _ _ _ w Ht). simpl. by rewrite insert_singleton_eq.
  - subst pe. exists w. split; [|done]. unfold collect. simpl. rewrite bind_ret_l. run (get_txn_run _ _ _ Ht).
    cbn [finished t_results]. by rewrite sorted_one.
Qed.

Lemma Set_issues fuel name rec mode mtime size data w :
  record_gives rec mode mtime size data -> heap_ok w -> settled w ->
  exists t i infos r1 r2 r3 p w0 w1,
    Set_ Handle fuel name (Some rec) None w =
      (let* (ops, e) := t_Commit_ Handle fuel t None in ret (getFirstCommitError ops e)) w1 /\
    issued t i infos name (to_js (fileInfo_of name mode mtime size)) (v_db (view (js w))) data w0 r1 r2 r3 p w1 /\
    settled w0 /\ v_db (view (js w0)) = v_db (view (js w)) /\ later (js w) (js w0).
Proof.
  intros Hg Hh Hs.
  destruct (Transaction_run TransactionReadWrite w) as (t & i & j1 & E1 & _ & Hv1 & Hl1).
  set (w1 := with_txn t _ (with_js j1 w)) in E1.
  assert (settled w1) as Hs1.
  { eapply Forall_impl; [exact Hs|]. intros rl Hrl. change (js w1) with j1. by rewrite Hv1. }
  destruct (t_Set_run t i (v_db (view (js w))) name rec mode mtime size data w1 Hg Hh Hs1 (lookup_insert_eq _ _ _))
    as (infos & r1 & r2 & r3 & p & w2 & E2 & Hiss).
  { change (js w1) with j1. rewrite Hv1. apply lookup_insert_eq. }
  exists t, i, infos, r1, r2, r3, p, w1, w2. split_and!; [|done|done| |done].
  - unfold Set_. rewrite (try__run _ _ _ _ _ (regular_data_run _ _ _ _ _ w Hg)), (try__run _ _ _ _ _ E1). by run E2.
  - change (js w1) with j1. by rewrite Hv1.
Qed.

Lemma setter_stores fuel name rec mode mtime size data w :
  record_gives rec mode mtime size data -> heap_ok w -> settled w -> 4 <= fuel ->
  (parent_needed name = true -> is_dir_at (Dir name) (v_db (view (js w)))) ->
  exists w', Set_ Handle fuel name (Some rec) None w = (Ret None, w') /\ heap_ok w' /\ settled w' /\
    v_db (view (js w')) = stored name (to_js (fileInfo_of name mode mtime size)) data (v_db (view (js w))).
Proof.
  intros Hg Hh Hs Hf Hdir.
  destruct (Set_issues fuel name rec mode mtime size data w Hg Hh Hs)
    as (t & i & infos & r1 & r2 & r3 & p & w0 & w1 & -> & Hi & Hs0 & _ & _).
  destruct (await_stores _ _ _ _ _ _ _ _ _ _ _ _ _ Hi Hs0 fuel Hf Hdir) as (v & j2 & E2 & Hdb2 & Hrq2 & Hres2 & _).
  pose proof (issued_txn _ _ _ _ _ _ _ _ _ _ _ _ _ Hi) as Ht.
  pose proof (Commit_awaited Handle fuel t _ i v None w1 (with_js j2 w1) Ht eq_refl E2 Ht) as E3.
  set (w2 := with_txn t _ (with_js j2 w1)) in E3.
  destruct (collect_set t i name p None None w2 (lookup_insert_eq _ _ _)) as (w3 & E4 & Hi3 & Hl3).
  { destruct (parent_needed name) eqn:Hn; [|done]. destruct (Hres2 eq_refl) as [res Hres].
    unfold parent_Err. rewrite bind_gets. change (b_parents w2) with (b_parents w1).
    rewrite (issued_parent _ _ _ _ _ _ _ _ _ _ _ _ _ Hi Hn).
    exact (in_db_run _ w2 _ _ (law_Err _ _ _ Hres)). }
  unfold bind. unfold result_of in E4. rewrite E3, E4, first_one. exists w3. split; [done|].
  assert (js w3 = j2) as Hj by (unfold js; by rewrite Hi3). split_and!.
  - unfold heap_ok. rewrite Hi3. apply (issued_heap _ _ _ _ _ _ _ _ _ _ _ _ _ Hi).
  - unfold settled. rewrite Hj, Hl3, Hrq2. apply (issued_settled _ _ _ _ _ _ _ _ _ _ _ _ _ Hi).
  - by rewrite Hj.
Qed.

Lemma Set_refuses fuel name rec mode mtime size data w :
  record_gives rec mode mtime size data -> heap_ok w -> settled w -> 4 <= fuel ->
  parent_needed name = true -> no_dir_at (Dir name) (v_db (view (js w))) ->
  exists w', Set_ Handle fuel name (Some rec) None w = (Ret (Some ErrNotDir), w') /\ heap_ok w' /\ settled w' /\
    v_db (view (js w')) = v_db (view (js w)).
Proof.
  intros Hg Hh Hs Hf Hn Hdir.
  destruct (Set_issues fuel name rec mode mtime size data w Hg Hh Hs)
    as (t & i & infos & r1 & r2 & r3 & p & w0 & w1 & -> & Hi & Hs0 & Hdb0 & _).
  destruct (await_refuses _ _ _ _ _ _ _ _ _ _ _ _ _ Hi Hs0 fuel Hf Hn Hdir)
    as (v & e & j2 & E2 & He & Hdb2 & _ & Hrq2 & _).
  pose proof (issued_txn _ _ _ _ _ _ _ _ _ _ _ _ _ Hi) as Ht. set (w2 := set_parents _ _) in E2.
  pose proof (Commit_awaited Handle fuel t _ i v (Some e) w1 w2 Ht eq_refl E2 Ht) as E3.
  set (w3 := with_txn t _ w2) in E3.
  destruct (collect_set t i name p (Some e) (Some ErrNotDir) w3 (lookup_insert_eq _ _ _)) as (w4 & E4 & Hi4 & Hl4).
  { rewrite Hn. unfold parent_Err. rewrite bind_gets. simpl. by rewrite lookup_insert_eq. }
  unfold bind. unfold result_of in E4. rewrite E3, E4. exists w4. split.
  { unfold getFirstCommitError. by rewrite He. }
  assert (js w4 = j2) as Hj by (unfold js; by rewrite Hi4). split_and!.
  - unfold heap_ok. rewrite Hi4. apply (issued_heap _ _ _ _ _ _ _ _ _ _ _ _ _ Hi).
  - unfold settled. rewrite Hj, Hl4, Hrq2. apply (issued_settled _ _ _ _ _ _ _ _ _ _ _ _ _ Hi).
  - rewrite Hj, Hdb2, (issued_db _ _ _ _ _ _ _ _ _ _ _ _ _ Hi). done.
Qed.

(** ** What a record reads *)

(** Waiting for one request of a transaction of its own. *)
Lemma await_result fuel i b scope d r q w :
  Forall (fun rl => rl.1 <> r) (b_listeners w) ->
  v_results (view (js w)) !! r = None -> nowhere_else i r (view (js w)) ->
  v_txns (view (js w)) !! i = Some (MkTxnView b scope d [(r, q)] false) -> 2 <= fuel ->
  exists v j', await Handle fuel (OnRequest r) None w = (Ret (v, None), with_js j' w) /\
    match snd (exec q d) with Some c => val j' v = Some c | None => IsUndefined v = true end /\
    v_db (view j') = v_db (view (js w)) /\ v_requests (view j') = v_requests (view (js w)) /\ later (js w) j'.
Proof.
  intros Hq Hnew Hno Hi Hf. destruct fuel as [|[|fuel]]; [lia|lia|].
  destruct (law_next_request _ _ _ _ _ _ (OnRequest r) Hi eq_refl eq_refl (or_intror (conj eq_refl (conj Hnew Hno))))
    as (j1 & E1 & Hv1 & Hl1).
  destruct (law_next_done j1 r (snd (exec q d))) as (v & j2 & E2 & Hv2 & Hres & Hl2);
    [rewrite Hv1; apply lookup_insert_eq|].
  exists v, j2. simpl. run (in_db_run _ w _ _ E1). rewrite bind_gets.
  run (run_listeners_none Handle r true (b_listeners (with_js j1 w)) (with_js j1 w) Hq).
  run (in_db_run _ (with_js j1 w) _ _ E2). split; [done|]. split; [done|]. rewrite Hv2, Hv1.
  split_and!; [done..|]. by eapply later_trans.
Qed.

(** Opening one object store for reading. *)
Lemma read_store_run {A} (store : string) (failed : A) (k : nat -> M W (A * err)) w :
  exists i o j', (let* (txn, e) := in_db (db_Transaction TransactionReadOnly [store]) in
      match e, txn with
      | Some e, _ => ret (failed, Some e)
      | None, None => panic "nil pointer dereference"
      | None, Some txn => try (in_db (txn_ObjectStore txn store)) failed k
      end) w = k o (with_js j' w) /\
    view j' = set_v_store o (i, store) (set_v_txn i (MkTxnView false [store] (v_db (view (js w))) [] false) (view (js w))) /\
    later (js w) j'.
Proof.
  destruct (law_Transaction (js w) TransactionReadOnly [store]) as (i & j1 & E1 & _ & Hv1 & Hl1).
  destruct (law_ObjectStore j1 i (MkTxnView false [store] (v_db (view (js w))) [] false) store) as (o & j2 & E2 & _ & Hv2 & Hl2).
  { rewrite Hv1. apply lookup_insert_eq. }
  { simpl. set_solver. }
  exists i, o, j2. run (in_db_run _ w _ _ E1). rewrite (try_run _ _ _ _ _ _ (in_db_run _ (with_js j1 w) _ _ E2)).
  split; [done|]. split; [by rewrite Hv2, Hv1|]. by eapply later_trans.
Qed.

Lemma getFileData_run fuel path bs w :
  heap_ok w -> settled w -> 2 <= fuel -> v_db (view (js w)) !! (contentsStore, path) = Some (JBytes bs) ->
  exists a w', getFileData Handle fuel path w = (Ret (Some a, None), w') /\ is_blob (b_idb w') a bs.
Proof.
  intros Hh Hs Hf Hd. unfold getFileData.
  destruct (read_store_run contentsStore (None : option nat) (fun files =>
      try (in_db (ValueOf (GoString path))) None (fun jsPath =>
      try (in_db (os_Get files jsPath)) None (fun req =>
        let* (value, e) := await Handle fuel (OnRequest req) None in
        if IsUndefined value then ret (None, Some ErrNotExist)
        else match e with Some e => ret (None, Some e) | None => in_blobs (New_ value) end))) w)
    as (i & o & j1 & E1 & Hv1 & _).
  rewrite E1. destruct (law_ValueOf j1 (GoString path)) as (key & j2 & E2 & Hv2 & Hkey & _).
  rewrite (try_run _ _ _ _ _ _ (in_db_run _ (with_js j1 w) _ _ E2)).
  set (tv := MkTxnView false [contentsStore] (v_db (view (js w))) [] false) in *.
  destruct (law_request j2 i contentsStore tv o (RGet contentsStore path) (os_Get o key)) as (r & j3 & E3 & Hunk & Hv3 & _).
  { rewrite Hv2, Hv1. apply lookup_insert_eq. }
  { rewrite Hv2, Hv1. apply lookup_insert_eq. }
  { done. }
  { done. }
  { split; [done|]. by exists key. }
  rewrite (try_run _ _ _ _ _ _ (in_db_run _ (with_js j2 (with_js j1 w)) _ _ E3)).
  set (w3 := with_js j3 _). rewrite Hv2, Hv1 in Hv3, Hunk.
  assert (v_results (view (js w3)) !! r = None /\ nowhere_else i r (view (js w3))) as [Hnone Hno].
  { change (js w3) with j3. rewrite Hv3. split; [apply Hunk|by apply unknown_nowhere_else]. }
  destruct (await_result fuel i false [contentsStore] (v_db (view (js w))) r (RGet contentsStore path) w3)
    as (v & j4 & E4 & Hval & _); [by apply (settled_fresh w); [|apply Hunk]|done|done| |done|].
  { change (js w3) with j3. rewrite Hv3. apply lookup_insert_eq. }
  simpl in Hval. rewrite Hd in Hval. run E4. rewrite (val_defined _ _ _ Hval).
  apply val_bytes in Hval. set (iw := b_idb (with_js j4 w3)).
  destruct (newBlob_run iw v bs Hval) as (n & Hn & En).
  assert (New_ v iw = (Ret (Some n, None), set_iblobs (<[n := MkIdbBlob None v (Z.of_nat (length bs))]> (i_blobs iw)) iw))
    as Enew.
  { unfold New_. rewrite (try_run _ _ _ _ _ _ (in_js_run _ iw _ _ (law_Truthy _ _ _ Hval))). unfold negb.
    change (set_js (i_js iw) iw) with iw.
    rewrite (try_run _ _ _ _ _ _ (in_js_run _ iw _ _ (law_InstanceOf _ _ _ Hval))). exact En. }
  exists n. eexists. split.
  { unfold in_blobs, zoom. change (b_idb (with_js j4 w3)) with iw. rewrite Enew. reflexivity. }
  eexists. split; [apply lookup_insert_eq|]. split; [exact Hval|]. split; [done|].
  split; [exact Hh|done].
Qed.

Lemma getDirNames_run fuel name w :
  settled w -> 2 <= fuel ->
  exists w', getDirNames Handle fuel name w =
      (Ret (Base <$> keys_of infoStore name (v_db (view (js w))), None), w') /\
    v_db (view (js w')) = v_db (view (js w)).
Proof.
  intros Hs Hf. unfold getDirNames.
  match goal with |- context [try (in_db (txn_ObjectStore _ infoStore)) [] ?k] =>
    destruct (read_store_run infoStore ([] : list string) k w) as (i & o & j1 & E1 & Hv1 & _) end.
  rewrite E1. cbv beta.
  destruct (law_Index j1 o i infoStore parentKey) as (x & j2 & E2 & Hv2 & _); [rewrite Hv1; apply lookup_insert_eq|].
  rewrite (try_run _ _ _ _ _ _ (in_db_run _ (with_js j1 w) _ _ E2)).
  destruct (law_ValueOf j2 (GoString name)) as (key & j3 & E3 & Hv3 & Hkey & _).
  rewrite (try_run _ _ _ _ _ _ (in_db_run _ (with_js j2 (with_js j1 w)) _ _ E3)).
  destruct (law_KeyRange j3 key name Hkey) as (range & j4 & E4 & Hrange & Hv4 & _).
  rewrite (try_run _ _ _ _ _ _ (in_db_run _ (with_js j3 (with_js j2 (with_js j1 w))) _ _ E4)).
  set (tv := MkTxnView false [infoStore] (v_db (view (js w))) [] false) in *.
  destruct (law_request j4 i infoStore tv o (RKeys infoStore name) (index_GetAllKeysRange x range 0))
    as (r & j5 & E5 & Hunk & Hv5 & _).
  { rewrite Hv4, Hv3, Hv2, Hv1. apply lookup_insert_eq. }
  { rewrite Hv4, Hv3, Hv2, Hv1. apply lookup_insert_eq. }
  { done. }
  { done. }
  { split; [done|]. exists x, range. split; [|done]. rewrite Hv4, Hv3, Hv2. apply lookup_insert_eq. }
  set (w4 := with_js j4 _). rewrite (try_run _ _ _ _ _ _ (in_db_run _ w4 _ _ E5)).
  set (w5 := with_js j5 w4). rewrite Hv4, Hv3, Hv2, Hv1 in Hv5, Hunk.
  assert (v_results (view (js w5)) !! r = None /\ nowhere_else i r (view (js w5))) as [Hnone Hno].
  { change (js w5) with j5. rewrite Hv5. split; [apply Hunk|by apply unknown_nowhere_else]. }
  destruct (await_result fuel i false [infoStore] (v_db (view (js w))) r (RKeys infoStore name) w5)
    as (v & j6 & E6 & Hval & Hdb6 & _); [by apply (settled_fresh w); [|apply Hunk]|done|done| |done|].
  { change (js w5) with j5. rewrite Hv5. apply lookup_insert_eq. }
  run E6. apply val_keys in Hval. exists (with_js j6 w5). split.
  - unfold ret. do 3 f_equal. rewrite <- Hval. by rewrite <- list_fmap_compose.
  - rewrite js_with_js, Hdb6. change (js w5) with j5. by rewrite Hv5.
Qed.

(** ** Deleting *)
Lemma delete_run o i store tv name w :
  v_stores (view (js w)) !! o = Some (i, store) -> v_txns (view (js w)) !! i = Some tv -> tv_aborted tv = false ->
  tv_write tv = true -> forall key, val (js w) key = Some (JString name) ->
  exists r j', in_db (os_Delete o key) w = (Ret (r, None), with_js j' w) /\ r ∉ v_requests (view (js w)) /\
    view j' = add_request i tv r (RDelete store name) (view (js w)) /\ later (js w) j'.
Proof.
  intros Ho Htv Ha Hw key Hk.
  destruct (law_request (js w) i store tv o (RDelete store name) (os_Delete o key) Ho Htv Ha) as (r & j' & E & (Hr & _) & Hv & Hl);
    [done| |].
  { split; [done|]. by exists key. }
  exists r, j'. split; [exact (in_db_run _ w _ _ E)|done].
Qed.

Lemma deleteRecord_run infos contents i d name w :
  v_stores (view (js w)) !! infos = Some (i, infoStore) ->
  v_stores (view (js w)) !! contents = Some (i, contentsStore) ->
  v_txns (view (js w)) !! i = Some (MkTxnView true both_stores d [] false) ->
  exists r1 r2 j', deleteRecord infos contents name w = (Ret (Some r2, None), with_js j' w) /\
    r1 ∉ v_requests (view (js w)) /\ r2 ∉ v_requests (view (js w)) /\
    v_txns (view j') !! i = Some (MkTxnView true both_stores d
      [(r1, RDelete infoStore name); (r2, RDelete contentsStore name)] false) /\
    v_db (view j') = v_db (view (js w)) /\ v_requests (view j') = {[r2]} ∪ ({[r1]} ∪ v_requests (view (js w))).
Proof.
  intros Hi Hc Htv. unfold deleteRecord.
  destruct (law_ValueOf (js w) (GoString name)) as (key & j1 & E1 & Hv1 & Hkey & _).
  rewrite (try_run _ _ _ _ _ _ (in_db_run _ w _ _ E1)).
  destruct (delete_run infos i infoStore (MkTxnView true both_stores d [] false) name (with_js j1 w)) with (key := key) as (r1 & j2 & E2 & Hr1 & Hv2 & Hl2);
    [by rewrite ?js_with_js, ?Hv1..|].
  rewrite (try_run _ _ _ _ _ _ E2). rewrite js_with_js, Hv1 in *.
  destruct (delete_run contents i contentsStore (MkTxnView true both_stores d [(r1, RDelete infoStore name)] false) name
    (with_js j2 (with_js j1 w))) with (key := key) as (r2 & j3 & E3 & Hr2 & Hv3 & _).
  { by rewrite js_with_js, Hv2. }
  { rewrite js_with_js, Hv2. apply lookup_insert_eq. }
  { done. }
  { done. }
  { by apply Hl2. }
  rewrite (try_run _ _ _ _ _ _ E3). rewrite js_with_js, Hv2 in *. simpl in Hr2.
  exists r1, r2, j3. rewrite Hv3. split; [done|]. split_and!; [done|set_solver|apply lookup_insert_eq|done|done].
Qed.

Lemma Set_deletes fuel name w :
  settled w -> 3 <= fuel -> name <> rootPath ->
  exists w', Set_ Handle fuel name None None w = (Ret None, w') /\ settled w' /\ b_idb w' = set_js (js w') (b_idb w) /\
    v_db (view (js w')) = delete (contentsStore, name) (delete (infoStore, name) (v_db (view (js w)))).
Proof.
  intros Hs Hf Hne. set (d := v_db (view (js w))).
  destruct (Transaction_run TransactionReadWrite w) as (t & i & j1 & E1 & _ & Hv1 & _).
  unfold Set_. rewrite (try__run (regular_data None) _ w None w eq_refl), (try__run _ _ _ _ _ E1).
  set (w1 := with_txn t _ (with_js j1 w)).
  assert (v_txns (view (js w1)) !! i = Some (MkTxnView true both_stores d [] false)) as Htv.
  { change (js w1) with j1. rewrite Hv1. apply lookup_insert_eq. }
  destruct (t_Set_opens t i d name None None w1 (lookup_insert_eq _ _ _) Htv) as (infos & contents & j2 & E2 & Hio & Hv2 & _).
  set (w2 := with_txn t _ (with_js j2 w1)) in E2. change (js w1) with j1 in *.
  destruct (deleteRecord_run infos contents i d name w2) as (r1 & r2 & j3 & E3 & Hr1 & Hr2 & Htv3 & Hdb3 & Hrq3);
    [change (js w2) with j2; rewrite Hv2; simpl; rewrite ?lookup_insert_ne by done; first [done|apply lookup_insert_eq]..|].
  change (js w2) with j2 in *. rewrite Hv2 in *. simpl in Hr1, Hr2, Hdb3, Hrq3. rewrite Hv1 in *.
  assert (t_Set_ t name None None w1 = (Ret 0%Z, with_js j3 w2)) as E4.
  { rewrite E2. unfold set_in. rewrite (proj2 (String.eqb_neq _ _) Hne). by run E3. }
  run E4. set (w3 := with_js j3 w2).
  destruct (Commit_quiet Handle fuel t (opened_txn i) i _ w3 (lookup_insert_eq _ _ _) eq_refl Htv3) as (j4 & E5 & Hv4 & _);
    [done|simpl; lia| |].
  { repeat constructor; by apply (settled_fresh w). }
  set (w4 := with_txn t _ (with_js j4 w3)) in E5. change (js w3) with j3 in *.
  assert (collect t (opened_txn i) None w4 = (Ret ([MkIdbResult 0 None None], None), w4)) as E6.
  { unfold collect. simpl. rewrite bind_ret_l. run (get_txn_run t (finished (opened_txn i)) w4 (lookup_insert_eq _ _ _)).
    cbn [finished opened_txn t_results]. by rewrite sorted_one. }
  unfold bind. rewrite E5, E6. exists w4. split; [done|].
  change (js w4) with j4. rewrite Hv4. split_and!; [|done|done].
  eapply Forall_impl; [exact Hs|]. intros rl Hrl. change (js w4) with j4. rewrite Hv4. simpl. rewrite Hrq3. set_solver.
Qed.
End store.
