(* ===== verification/IdbDemo.v ===== *)
(** * A browser to evaluate the store on

    An implementation of the contracts of [IdbThms] and [IdbView]: a memory of
    arrays, and the abstract database itself. *)
From S2P Require Import Prelude.
From S2P Require Import Errors.
From S2P Require Import Blob.
From S2P Require Import Txn.
From S2P Require Import IdbBlob.
From S2P Require Import IdbThms.
From S2P Require Import IdbStore.
From S2P Require Import IdbView.

Local Open Scope string_scope.

Record browser := MkBrowser {
  br_arrays : gmap nat (list byte);
  br_view : jview
}.
Inductive jsvalue := Undefined | Array (a : nat) | Plain (c : jval) | Range (s : string).

Definition set_arrays h j := MkBrowser h (br_view j).
Definition set_view v j := MkBrowser (br_arrays j) v.
Definition js_error : error := Errorf "TypeError" [].

Definition shown_by (j : browser) (v : jsvalue) : option jval :=
  match v with
  | Array a => JBytes <$> br_arrays j !! a
  | Plain (JBytes _) => None
  | Plain c => Some c
  | _ => None
  end.
Definition array_of (j : browser) (v : jsvalue) : option (list byte) :=
  match v with Array a => br_arrays j !! a | _ => None end.

(** A value to give out: an array is copied. *)
Definition give (c : jval) (j : browser) : jsvalue * browser :=
  match c with
  | JBytes bs => let a := base.fresh (dom (br_arrays j)) in (Array a, set_arrays (<[a := bs]> (br_arrays j)) j)
  | c => (Plain c, j)
  end.
Definition give_result (res : option jval) (j : browser) : jsvalue * browser :=
  match res with Some c => give c j | None => (Undefined, j) end.

Lemma give_spec c j :
  shown_by (give c j).2 (give c j).1 = Some c /\ br_view (give c j).2 = br_view j /\
  forall u d, shown_by j u = Some d -> shown_by (give c j).2 u = Some d.
Proof.
  destruct c; simpl; try done. rewrite lookup_insert_eq. split; [done|]. split; [done|].
  intros [] d Hd; simpl in *; try done.
  rewrite lookup_insert_ne; [done|]. intros <-. apply fmap_Some in Hd as (bs' & Hb & _).
  eapply (is_fresh (dom (br_arrays j))). apply elem_of_dom. by eexists.
Qed.
Lemma give_result_spec res j :
  match res with
  | Some c => shown_by (give_result res j).2 (give_result res j).1 = Some c
  | None => (give_result res j).1 = Undefined
  end /\ br_view (give_result res j).2 = br_view j /\
  forall u d, shown_by j u = Some d -> shown_by (give_result res j).2 u = Some d.
Proof. destruct res as [c|]; [apply give_spec|done]. Qed.

(** ** Arrays *)
#[export] Instance browser_arrays : JSArrays browser jsvalue := {|
  js_Truthy v := ret (match v with Undefined => false | _ => true end, None);
  js_InstanceOf_Uint8Array v := ret (match v with Array _ => true | _ => false end, None);
  js_Length v j :=
    match array_of j v with Some c => (Ret (Z.of_nat (length c), None), j) | None => (Ret (0%Z, Some js_error), j) end;
  js_New n j :=
    if (n <? 0)%Z then (Ret (Undefined, Some js_error), j)
    else let '(v, j') := give (JBytes (replicate (Z.to_nat n) zero)) j in (Ret (v, None), j');
  js_CopyBytesToJS v data j :=
    match v, array_of j v with
    | Array a, Some c => (Ret (Z.of_nat (length data), None), set_arrays (<[a := copy_into c data]> (br_arrays j)) j)
    | _, _ => (Ret (0%Z, Some js_error), j)
    end;
  js_CopyBytesToGo v len j :=
    match array_of j v with Some c => (Ret (take (Z.to_nat len) c, None), j) | None => (Ret ([], Some js_error), j) end;
  js_subarray v s e j := (Ret (Undefined, Some js_error), j);
  js_slice v s e j :=
    match array_of j v with
    | Some c => let '(u, j') := give (JBytes (take (Z.to_nat e - Z.to_nat s) (drop (Z.to_nat s) c))) j in (Ret (u, None), j')
    | None => (Ret (Undefined, Some js_error), j)
    end;
  js_set v src off j :=
    match v, array_of j v, array_of j src with
    | Array a, Some c, Some data =>
        if ((off <? 0) || (Z.of_nat (length c) <? off + Z.of_nat (length data)))%Z then (Ret (Some js_error), j)
        else (Ret None, set_arrays (<[a := splice c (Z.to_nat off) data]> (br_arrays j)) j)
    | _, _, _ => (Ret (Some js_error), j)
    end
|}.

Definition buffer_of (v : jsvalue) : nat := match v with Array a => a | _ => 0 end.

Lemma array_of_Some j v c : array_of j v = Some c -> exists a, v = Array a /\ br_arrays j !! a = Some c.
Proof. destruct v; simpl; try done. eauto. Qed.

Lemma give_array j bs :
  array_of (give (JBytes bs) j).2 (give (JBytes bs) j).1 = Some bs /\
  forall u c, array_of j u = Some c ->
    array_of (give (JBytes bs) j).2 u = Some c /\ buffer_of u <> buffer_of (give (JBytes bs) j).1.
Proof.
  simpl. rewrite lookup_insert_eq. split; [done|]. intros u c (a & -> & Ha)%array_of_Some. simpl.
  assert (a <> base.fresh (dom (br_arrays j))).
  { intros ->. eapply (is_fresh (dom (br_arrays j))). apply elem_of_dom. by eexists. }
  by rewrite lookup_insert_ne.
Qed.

Lemma write_array j a c :
  array_of (set_arrays (<[a := c]> (br_arrays j)) j) (Array a) = Some c /\
  forall u, buffer_of u <> buffer_of (Array a) ->
    array_of (set_arrays (<[a := c]> (br_arrays j)) j) u = array_of j u.
Proof.
  simpl. rewrite lookup_insert_eq. split; [done|]. intros [] Hne; simpl in *; try done. by rewrite lookup_insert_ne.
Qed.

#[export] Instance browser_lawful_arrays : LawfulJS browser jsvalue.
Proof.
  refine {| js_bytes := array_of; js_buffer := buffer_of |}.
  - by intros j v c (a & -> & _)%array_of_Some.
  - by intros j v c (a & -> & _)%array_of_Some.
  - intros j v c Hc. simpl. by rewrite Hc.
  - intros j n Hn. simpl. destruct (Z.ltb_spec n 0); [lia|].
    destruct (give_array j (replicate (Z.to_nat n) zero)) as [H1 H2]. do 2 eexists. split; [reflexivity|]. by split.
  - intros j v c Hc. simpl. rewrite Hc. by rewrite take_ge by lia.
  - intros j v c data Hc Hd. apply array_of_Some in Hc as (a & -> & Ha). simpl. rewrite Ha.
    rewrite copy_into_full by done. eexists. split; [reflexivity|]. apply write_array.
  - intros j v c src d off Hc Hs Hfit. apply array_of_Some in Hc as (a & -> & Ha). simpl. rewrite Ha, Hs.
    destruct (Z.ltb_spec (Z.of_nat off) 0); [lia|].
    destruct (Z.ltb_spec (Z.of_nat (length c)) (Z.of_nat off + Z.of_nat (length d))); [lia|]. simpl.
    rewrite Nat2Z.id. eexists. split; [reflexivity|]. apply write_array.
  - intros j v c s e Hc Hse. simpl. rewrite Hc, !Nat2Z.id.
    destruct (give_array j (take (e - s) (drop s c))) as [H1 H2]. do 2 eexists. split; [reflexivity|]. by split.
Defined.

(** ** The database *)
Definition todo_of (txns : gmap nat txnview) : gset nat :=
  ⋃ ((fun kv => list_to_set (tv_todo kv.2).*1) <$> map_to_list txns).
Definition new_request (v : jview) : nat :=
  base.fresh (v_requests v ∪ dom (v_results v) ∪ todo_of (v_txns v)).
Lemma new_request_unknown v : unknown (new_request v) v.
Proof.
  pose proof (is_fresh (v_requests v ∪ dom (v_results v) ∪ todo_of (v_txns v))) as Hf.
  fold (new_request v) in Hf. split; [set_solver|]. split; [apply not_elem_of_dom; set_solver|].
  intros i tv Hi Hr. apply Hf. apply elem_of_union_r. apply elem_of_union_list.
  exists (list_to_set (tv_todo tv).*1). split; [|by apply elem_of_list_to_set].
  apply list_elem_of_fmap. exists (i, tv). split; [done|]. by apply elem_of_map_to_list.
Qed.

Definition make_request (o : nat) (q : string -> request) (j : browser) : outcome (nat * err) * browser :=
  match v_stores (br_view j) !! o with
  | Some (i, store) =>
      match v_txns (br_view j) !! i with
      | Some tv =>
          if tv_aborted tv || (writes (q store) && negb (tv_write tv)) then (Ret (0, Some js_error), j)
          else
            let r := new_request (br_view j) in
            (Ret (r, None), set_view (add_request i tv r (q store) (br_view j)) j)
      | None => (Ret (0, Some js_error), j)
      end
  | None => (Ret (0, Some js_error), j)
  end.

Definition key_of (v : jsvalue) : option string := match v with Plain (JString s) => Some s | _ => None end.
Definition with_key (key : jsvalue) (j : browser) (k : string -> outcome (nat * err) * browser) :
    outcome (nat * err) * browser :=
  match key_of key with Some s => k s | None => (Ret (0, Some js_error), j) end.

(** What the browser does next for a transaction. *)
Definition txn_next (i : nat) (j : browser) : outcome (event jsvalue) * browser :=
  match v_txns (br_view j) !! i with
  | None => (Ret (Finished Undefined (Some js_error)), j)
  | Some tv =>
      match tv_todo tv, tv_aborted tv with
      | (r, q) :: todo, false =>
          (Ret (Fired r true), set_view (set_v_result r (snd (exec q (tv_db tv)))
             (set_v_txn i (set_tv (fst (exec q (tv_db tv))) todo false tv) (br_view j))) j)
      | (r, q) :: todo, true =>
          (Ret (Fired r false), set_view (set_v_txn i (set_tv (tv_db tv) todo true tv) (br_view j)) j)
      | [], false =>
          (Ret (Finished Undefined None),
           set_view (if tv_write tv then set_v_db (tv_db tv) (br_view j) else br_view j) j)
      | [], true => (Ret (Finished Undefined (Some abort_error)), j)
      end
  end.

(** The transaction whose first request is [r]. *)
Definition owner (r : nat) (v : jview) : option nat :=
  fst <$> head (filter (fun kv => fst <$> head (tv_todo kv.2) = Some r) (map_to_list (v_txns v))).

Lemma owner_found i tv r q todo v :
  v_txns v !! i = Some tv -> tv_todo tv = (r, q) :: todo -> nowhere_else i r v -> owner r v = Some i.
Proof.
  intros Hi Ht Hno. unfold owner.
  assert ((i, tv) ∈ filter (fun kv => fst <$> head (tv_todo kv.2) = Some r) (map_to_list (v_txns v))) as Hin.
  { apply list_elem_of_filter. simpl. rewrite Ht. split; [done|]. by apply elem_of_map_to_list. }
  destruct (filter _ _) as [|[i' tv'] l] eqn:E; [by apply elem_of_nil in Hin|]. simpl. f_equal.
  assert ((i', tv') ∈ filter (fun kv => fst <$> head (tv_todo kv.2) = Some r) (map_to_list (v_txns v))) as Hin'
    by (rewrite E; by left).
  apply list_elem_of_filter in Hin' as [Hh Hin']. apply elem_of_map_to_list in Hin'. simpl in Hh.
  destruct (decide (i' = i)); [done|]. exfalso. apply (Hno i' tv' Hin'); [done|].
  destruct (tv_todo tv') as [|[r' q'] l']; [done|]. simpl in *. injection Hh as ->. by left.
Qed.

Definition request_next (r : nat) (j : browser) : outcome (event jsvalue) * browser :=
  match v_results (br_view j) !! r with
  | Some res => let '(v, j) := give_result res j in (Ret (Finished v None), j)
  | None =>
      match owner r (br_view j) with
      | Some i => txn_next i j
      | None => (Ret (Finished Undefined (Some js_error)), j)
      end
  end.

#[export] Instance browser_idb : IndexedDB browser jsvalue := {|
  ValueOf g := ret (Plain (to_js g), None);
  IsUndefined v := match v with Undefined => true | _ => false end;
  js_Get v name j :=
    match v with
    | Plain (JObject fields) => let '(u, j) := give_result (field name fields) j in (Ret (u, None), j)
    | _ => (Ret (Undefined, Some js_error), j)
    end;
  js_Int v := ret match v with Plain (JInt n) => (n, None) | _ => (0%Z, Some js_error) end;
  js_String v := match v with Plain (JString s) => s | _ => "" end;
  array_elements v := match v with Plain (JKeys ks) => (fun k => Plain (JString k)) <$> ks | _ => [] end;
  db_Transaction mode stores j :=
    let i := base.fresh (dom (v_txns (br_view j))) in
    let write := match mode with TransactionReadWrite => true | TransactionReadOnly => false end in
    (Ret (Some i, None), set_view (set_v_txn i (MkTxnView write stores (v_db (br_view j)) [] false) (br_view j)) j);
  txn_ObjectStore i name j :=
    match v_txns (br_view j) !! i with
    | Some tv =>
        if decide (name ∈ tv_scope tv) then
          let o := base.fresh (dom (v_stores (br_view j))) in
          (Ret (o, None), set_view (set_v_store o (i, name) (br_view j)) j)
        else (Ret (0, Some js_error), j)
    | None => (Ret (0, Some js_error), j)
    end;
  txn_Abort i j :=
    match v_txns (br_view j) !! i with
    | Some tv =>
        if tv_aborted tv then (Ret (Some js_error), j)
        else (Ret None, set_view (set_v_txn i (set_tv (tv_db tv) (tv_todo tv) true tv) (br_view j)) j)
    | None => (Ret (Some js_error), j)
    end;
  txn_Commit i := ret None;
  os_Transaction o j :=
    (Ret match v_stores (br_view j) !! o with Some (i, _) => (i, None) | None => (0, Some js_error) end, j);
  os_Get o key j := with_key key j (fun k => make_request o (fun store => RGet store k) j);
  os_PutKey o key value j :=
    with_key key j (fun k =>
      match shown_by j value with
      | Some c => make_request o (fun store => RPut store k c) j
      | None => (Ret (0, Some js_error), j)
      end);
  os_Delete o key j := with_key key j (fun k => make_request o (fun store => RDelete store k) j);
  os_Clear o := ret (0, Some js_error);
  os_Index o key j :=
    let x := base.fresh (dom (v_indices (br_view j))) in
    (Ret (x, None), set_view (set_v_index x (o, key) (br_view j)) j);
  NewKeyRangeOnly v := ret match key_of v with Some s => (Range s, None) | None => (Undefined, Some js_error) end;
  index_GetAllKeysRange x range _ j :=
    match v_indices (br_view j) !! x, range with
    | Some (o, key), Range s =>
        if String.eqb key parentKey then make_request o (fun store => RKeys store s) j else (Ret (0, Some js_error), j)
    | _, _ => (Ret (0, Some js_error), j)
    end;
  req_listen r := ret None;
  req_Result r j :=
    match v_results (br_view j) !! r with
    | Some res => let '(v, j) := give_result res j in (Ret (v, None), j)
    | None => (Ret (Undefined, Some js_error), j)
    end;
  req_Err r j := (Ret match v_results (br_view j) !! r with Some _ => None | None => Some js_error end, j);
  next on _ := match on with OnTransaction i => txn_next i | OnRequest r => request_next r end;
  is_AbortError e := bool_decide (e = abort_error);
  CreateObjectStore name := ret (0, None);
  CreateIndex o name key := ret (0, None);
  factory_Open name version := ret (0, None);
  open_NeedsUpgrade r := ret false;
  open_Upgraded r e := ret tt;
  open_Await r ctx := ret None
|}.

Lemma make_request_run o i store tv (q : string -> request) j :
  v_stores (br_view j) !! o = Some (i, store) -> v_txns (br_view j) !! i = Some tv -> tv_aborted tv = false ->
  (writes (q store) = true -> tv_write tv = true) ->
  make_request o q j = (Ret (new_request (br_view j), None),
    set_view (add_request i tv (new_request (br_view j)) (q store) (br_view j)) j).
Proof.
  intros Ho Hi Ha Hw. unfold make_request. rewrite Ho, Hi, Ha. simpl.
  destruct (writes (q store)); [by rewrite Hw|done].
Qed.

Lemma key_shown j key k : shown_by j key = Some (JString k) -> key_of key = Some k.
Proof. destruct key as [|a|[]|]; simpl; try done; [by destruct (br_arrays j !! a)|by intros [= ->]]. Qed.

#[export] Instance browser_lawful_idb : LawfulIDB browser jsvalue.
Proof.
  refine {| view := br_view; val := shown_by; is_key_range v s := v = Range s |}.
  - intros j v bs. destruct v as [|a|[]|]; simpl; try done. destruct (br_arrays j !! a); simpl; naive_solver.
  - by intros j [|a|[]|].
  - intros j v s H. destruct v as [|a|[]|]; simpl in *; simplify_eq; [by destruct (br_arrays j !! a)|done].
  - intros j v ks H. destruct v as [|a|[]|]; simpl in *; simplify_eq; [by destruct (br_arrays j !! a)|].
    rewrite <- list_fmap_compose. by rewrite list_fmap_id.
  - intros j n r j' H. simpl in H. destruct (n <? 0)%Z; simplify_eq/=; [done|]. split; [done|].
    intros [|b|c|s] d Hd Hne; simpl in *; try done. destruct (br_arrays j !! b); simplify_eq/=. by edestruct Hne.
  - intros j v bs r j' H. simpl in H. destruct v as [|a|c|s]; simpl in H; simplify_eq; try done.
    destruct (br_arrays j !! a); simplify_eq; [|done]. split; [done|].
    intros [|b|c|s] d Hd Hne; simpl in *; try done. destruct (br_arrays j !! b); simplify_eq/=. by edestruct Hne.
  - intros j g. do 2 eexists. split; [reflexivity|]. split; [done|]. split; [by destruct g|done].
  - intros j v fields name x Hv Hf. destruct v as [|a|[]|]; simpl in Hv; simplify_eq; [by destruct (br_arrays j !! a)|].
    destruct (give_spec x j) as (H1 & H2 & H3). simpl. rewrite Hf. simpl.
    destruct (give x j) as [u j'] eqn:E. do 2 eexists. split; [reflexivity|]. done.
  - intros j v n Hv _. destruct v as [|a|[]|]; simpl in Hv; simplify_eq; [by destruct (br_arrays j !! a)|done].
  - intros j mode stores. do 2 eexists. split; [reflexivity|]. split; [apply not_elem_of_dom, is_fresh|done].
  - intros j i tv name Hi Hn. simpl. rewrite Hi, decide_True by done. do 2 eexists. split; [reflexivity|].
    split; [apply not_elem_of_dom, is_fresh|done].
  - intros j o i name Ho. simpl. by rewrite Ho.
  - intros j i tv Hi Ha. simpl. rewrite Hi, Ha. eexists. split; [reflexivity|done].
  - intros j i name tv o q m Ho Hi Ha Hw Hq.
    exists (new_request (br_view j)), (set_view (add_request i tv (new_request (br_view j)) q (br_view j)) j).
    split; [|split; [apply new_request_unknown|done]].
    destruct q as [s k|s k c|s k|s parent]; destruct Hq as [-> Hq].
    + destruct Hq as (key & Hk & ->). simpl. unfold with_key. rewrite (key_shown _ _ _ Hk).
      by apply make_request_run with (q := fun store => RGet store k).
    + destruct Hq as (key & value & Hk & Hv & ->). simpl. unfold with_key. rewrite (key_shown _ _ _ Hk), Hv.
      by apply make_request_run with (q := fun store => RPut store k c).
    + destruct Hq as (key & Hk & ->). simpl. unfold with_key. rewrite (key_shown _ _ _ Hk).
      by apply make_request_run with (q := fun store => RDelete store k).
    + destruct Hq as (x & range & Hx & -> & ->). simpl. rewrite Hx. simpl.
      by apply make_request_run with (q := fun store => RKeys store parent).
  - intros j o i name key Ho. do 2 eexists. split; [reflexivity|done].
  - intros j v s Hv. simpl. rewrite (key_shown _ _ _ Hv). do 2 eexists. split; [reflexivity|done].
  - done.
  - intros j r res Hr. simpl. rewrite Hr. destruct (give_result_spec res j) as (H1 & H2 & H3).
    destruct (give_result res j) as [v j']. do 2 eexists. split; [reflexivity|]. split; [done|]. split; [|done].
    destruct res; [done|]. simpl in H1. by subst.
  - intros j r res Hr. simpl. by rewrite Hr.
  - intros j i tv r q todo on Hi Ht Ha Hon.
    assert (next on None j = txn_next i j) as ->.
    { destruct Hon as [->|(-> & Hr & Hno)]; [done|]. simpl. unfold request_next.
      by rewrite Hr, (owner_found i tv r q todo). }
    unfold txn_next. rewrite Hi, Ht, Ha. eexists. split; [reflexivity|done].
  - intros j i tv r q todo Hi Ht Ha. simpl. unfold txn_next. rewrite Hi, Ht, Ha. eexists. split; [reflexivity|done].
  - intros j i tv Hi Ht Ha. simpl. unfold txn_next. rewrite Hi, Ht, Ha. do 2 eexists. split; [reflexivity|done].
  - intros j i tv Hi Ht Ha. simpl. unfold txn_next. rewrite Hi, Ht, Ha. do 3 eexists. split; [reflexivity|].
    split; [by rewrite bool_decide_eq_true_2|done].
  - intros j r res Hr. simpl. unfold request_next. rewrite Hr. destruct (give_result_spec res j) as (H1 & H2 & H3).
    destruct (give_result res j) as [v j']. do 2 eexists. split; [reflexivity|]. split; [done|]. split; [|done].
    destruct res; [done|]. simpl in H1. by subst.
Defined.
