(* ===== verification/IdbStoreThms.v ===== *)
(** * Properties of the key-value store of a browser

    On a browser that keeps the contract of [IdbView], what is set is what is
    got, up to the precision that JavaScript has for times; a file whose parent
    is no directory is not stored; and a listing has the children and nothing
    else. *)
From S2P Require Import Prelude.
From S2P Require Import Paths.
From S2P Require Import Errors.
From S2P Require Import Modes.
From S2P Require Import Blob.
From S2P Require Import BlobSpec.
From S2P Require Import Txn.
From S2P Require Import IdbBlob.
From S2P Require Import IdbThms.
From S2P Require Import IdbStore.
From S2P Require Import IdbView.
From S2P Require Import IdbRun.
From S2P Require Import IdbSet.
From S2P Require Import IdbDemo.

Local Open Scope string_scope.

Section store.
Context {J V : Type} `{!JSArrays J V, !LawfulJS J V, !IndexedDB J V, !LawfulIDB J V, !GoRuntime}.
Context (Handle : nat -> nat -> idbResult -> M (bworld J V) err).
Implicit Types (w : bworld J V) (name : string).

(** What the store holds. *)
Definition held w : db := v_db (view (js w)).

(** The file is at the top or its parent is stored as a directory. *)
Definition has_parent name w : Prop := parent_needed name = true -> is_dir_at (Dir name) (held w).
Definition lacks_parent name w : Prop := parent_needed name = true /\ no_dir_at (Dir name) (held w).

Lemma shows_fileInfo name mode mtime size :
  (0 <= mode < 2 ^ 32)%Z -> (Z.abs mtime <= 2 ^ 63 - 1024)%Z -> (0 <= size <= 2 ^ 53)%Z ->
  shows_info (to_js (fileInfo_of name mode mtime size)) mode (float64_of mtime) size.
Proof.
  intros Hm Ht Hs. pose proof (float64_of_close mtime ltac:(lia)).
  unfold fileInfo_of. rewrite to_js_map. eexists. split; [reflexivity|].
  rewrite fmap_app. simpl. rewrite (float64_of_small mode), (float64_of_small size) by lia.
  split_and!; try done; int64.
Qed.

Lemma stored_info name c data d : stored name c data d !! (infoStore, name) = Some c.
Proof. apply lookup_insert_eq. Qed.
Lemma stored_contents name c bs d : stored name c (Some bs) d !! (contentsStore, name) = Some (JBytes bs).
Proof. unfold stored. rewrite lookup_insert_ne by done. apply lookup_insert_eq. Qed.
Lemma stored_other name c data d store key : key <> name -> stored name c data d !! (store, key) = d !! (store, key).
Proof.
  intros Hne. unfold stored, with_contents. rewrite lookup_insert_ne by congruence.
  destruct data; [|done]. by rewrite lookup_insert_ne by congruence.
Qed.

(** C33: what [Set] stores [Get] returns: the mode, the size and the bytes, and
    the time up to the rounding of JavaScript numbers, which is exact below
    2^53 nanoseconds and off by at most 512 of them otherwise.  Nothing else in
    the database changes. *)
Theorem idb_Set_then_Get fuel name rec mode mtime size data w :
  record_gives rec mode mtime size data -> heap_ok w -> settled w -> 4 <= fuel -> has_parent name w ->
  (0 <= mode < 2 ^ 32)%Z -> (Z.abs mtime <= 2 ^ 63 - 1024)%Z -> (0 <= size <= 2 ^ 53)%Z ->
  exists w1, Set_ Handle fuel name (Some rec) None w = (Ret None, w1) /\
    (forall store key, key <> name -> held w1 !! (store, key) = held w !! (store, key)) /\
    (Z.abs (float64_of mtime - mtime) <= 512)%Z /\ ((Z.abs mtime <= 2 ^ 53)%Z -> float64_of mtime = mtime) /\
    exists w2, Get Handle fuel name None w1 = (Ret (Some (record_of name mode (float64_of mtime) size), None), w2) /\
      forall bs, data = Some bs ->
        exists a w3, getFileData Handle fuel name w2 = (Ret (Some a, None), w3) /\ is_blob (b_idb w3) a bs.
Proof.
  intros Hg Hh Hs Hf Hp Hm Ht Hsz.
  destruct (setter_stores Handle fuel name rec mode mtime size data w Hg Hh Hs Hf Hp) as (w1 & E1 & Hh1 & Hs1 & Hd1).
  exists w1. split; [done|]. split; [intros; unfold held; rewrite Hd1; by apply stored_other|].
  destruct (Get_run Handle fuel name w1 (Some (record_of name mode (float64_of mtime) size), None))
    as (w2 & E2 & Hs2 & Hd2 & _ & Hi2); [done|lia| |].
  { rewrite Hd1, stored_info. exists mode, (float64_of mtime), size. split; [by apply shows_fileInfo|done]. }
  split; [apply float64_of_close; lia|]. split; [apply float64_of_small|].
  exists w2. split; [done|]. intros bs ->.
  apply getFileData_run; [unfold heap_ok; by rewrite Hi2|done|lia|]. rewrite Hd2, Hd1. apply stored_contents.
Qed.

(** C34: a file whose parent is missing or is not a directory is not stored: the
    listener of the request for the parent aborts the transaction, [Set] returns
    [ErrNotDir] and not the abort, and the database is as it was. *)
Theorem idb_Set_needs_directory fuel name rec mode mtime size data w :
  record_gives rec mode mtime size data -> heap_ok w -> settled w -> 4 <= fuel -> lacks_parent name w ->
  exists w', Set_ Handle fuel name (Some rec) None w = (Ret (Some ErrNotDir), w') /\
    heap_ok w' /\ settled w' /\ held w' = held w.
Proof. intros Hg Hh Hs Hf [Hn Hp]. by apply (Set_refuses Handle fuel name rec mode mtime size data). Qed.

(** A removed file is gone, with its contents, and nothing else is. *)
Theorem idb_removed_is_gone fuel name w :
  settled w -> 3 <= fuel -> name <> rootPath ->
  exists w1 w2, Set_ Handle fuel name None None w = (Ret None, w1) /\
    Get Handle fuel name None w1 = (Ret (None, Some ErrNotExist), w2) /\
    held w1 !! (contentsStore, name) = None /\
    forall store key, key <> name -> held w1 !! (store, key) = held w !! (store, key).
Proof.
  intros Hs Hf Hne. destruct (Set_deletes Handle fuel name w Hs Hf Hne) as (w1 & E1 & Hs1 & _ & Hd1).
  destruct (Get_run Handle fuel name w1 (None, Some ErrNotExist)) as (w2 & E2 & _); [done|lia| |].
  { rewrite Hd1, lookup_delete_ne by done. by rewrite lookup_delete_eq. }
  exists w1, w2. unfold held. rewrite Hd1. split_and!; [done|done|apply lookup_delete_eq|].
  intros store key Hk. by rewrite !lookup_delete_ne by congruence.
Qed.

(** Listing a directory gives the base names of the paths that were stored
    with it as their parent, and no others. *)
Theorem idb_getDirNames_lists fuel name w :
  settled w -> 2 <= fuel ->
  exists names w', getDirNames Handle fuel name w = (Ret (names, None), w') /\ held w' = held w /\
    forall x, x ∈ names <->
      exists key c, held w !! (infoStore, key) = Some c /\ parent_is name c = true /\ x = Base key.
Proof.
  intros Hs Hf. destruct (getDirNames_run Handle fuel name w Hs Hf) as (w' & E & Hd).
  do 2 eexists. split; [exact E|]. split; [done|]. intros x. rewrite list_elem_of_fmap. unfold keys_of.
  split.
  - intros (key & -> & Hk). apply list_elem_of_omap in Hk as ([[store k] c] & Hin & Hk). simpl in Hk.
    destruct (String.eqb store infoStore && parent_is name c) eqn:Eb; [|done]. injection Hk as ->.
    apply andb_true_iff in Eb as [Es Ep]. apply String.eqb_eq in Es as ->.
    exists key, c. apply elem_of_map_to_list in Hin. done.
  - intros (key & c & Hin & Hp & ->). exists key. split; [done|]. apply list_elem_of_omap.
    exists (infoStore, key, c). split; [by apply elem_of_map_to_list|]. simpl. by rewrite Hp.
Qed.
End store.

(** ** The theorems at concrete inputs *)
#[local] Existing Instance simple_runtime.

Definition idb_dir_mode : Z := Z.lor ModeDir 493.
Definition idb_abc : list byte := [Byte.x61; Byte.x62; Byte.x63].
(** A database with the directory [dir] and the file [f]. *)
Definition idb_world : bworld browser jsvalue :=
  MkBWorld (MkIWorld (MkBrowser ∅ (MkView
    (<[(infoStore, "dir") := to_js (fileInfo_of "dir" idb_dir_mode 0 0)]>
     {[(infoStore, "f") := to_js (fileInfo_of "f" 420 0 0)]}) ∅ ∅ ∅ ∅ ∅)) empty_heap ∅) ∅ ∅ [].
Definition idb_file (mtime : Z) : @FileRecord browser jsvalue :=
  MkFileRecord (ret 3%Z) (ret mtime) (ret 420%Z) (ret (Some (GoBlob (BPlain idb_abc)), None)).
Definition no_handlers (h t : nat) (r : idbResult) : M (bworld browser jsvalue) err := ret None.

Lemma idb_file_gives mtime : record_gives (idb_file mtime) 420 mtime 3 (Some idb_abc).
Proof. split; [done..|]. intros w. by exists idb_abc. Qed.
Lemma idb_world_ok : heap_ok idb_world /\ settled idb_world.
Proof. split; [apply wf_empty_heap|constructor]. Qed.

Lemma idb_world_info : held idb_world !! (infoStore, "f") = Some (to_js (fileInfo_of "f" 420 0 0)).
Proof. unfold held. simpl. rewrite lookup_insert_ne by done. apply lookup_insert_eq. Qed.
Lemma idb_world_dir :
  held idb_world !! (infoStore, "dir") = Some (to_js (fileInfo_of "dir" idb_dir_mode 0 0)).
Proof. unfold held. simpl. apply lookup_insert_eq. Qed.
Lemma idb_world_parents : has_parent "dir/a" idb_world /\ lacks_parent "f/a" idb_world.
Proof.
  split.
  - intros _. change (Dir "dir/a") with "dir". exists (to_js (fileInfo_of "dir" idb_dir_mode 0 0)), idb_dir_mode, 0%Z, 0%Z.
    split; [exact idb_world_dir|]. split; [|done]. by apply (shows_fileInfo "dir" idb_dir_mode 0 0).
  - split; [done|]. change (Dir "f/a") with "f". right. exists (to_js (fileInfo_of "f" 420 0 0)), 420%Z, 0%Z, 0%Z.
    split; [exact idb_world_info|]. split; [|done]. by apply (shows_fileInfo "f" 420 0 0).
Qed.

(** One nanosecond after a full second of the year 2023 is that second when it
    comes back. *)
Lemma idb_Set_then_Get_witness :
  exists w1 w2 a w3, Set_ no_handlers 4 "dir/a" (Some (idb_file 1700000000000000001)) None idb_world = (Ret None, w1) /\
    Get no_handlers 4 "dir/a" None w1 = (Ret (Some (record_of "dir/a" 420 1700000000000000000 3), None), w2) /\
    getFileData no_handlers 4 "dir/a" w2 = (Ret (Some a, None), w3) /\ is_blob (b_idb w3) a idb_abc.
Proof.
  destruct (idb_Set_then_Get no_handlers 4 "dir/a" (idb_file 1700000000000000001) 420 1700000000000000001 3 (Some idb_abc)
    idb_world (idb_file_gives _) (proj1 idb_world_ok) (proj2 idb_world_ok)) as (w1 & E1 & _ & _ & _ & w2 & E2 & Hb).
  - lia.
  - apply idb_world_parents.
  - done.
  - done.
  - done.
  - assert (float64_of 1700000000000000001 = 1700000000000000000%Z) as Ef by reflexivity. rewrite Ef in E2.
    destruct (Hb idb_abc eq_refl) as (a & w3 & E3 & Ha). exists w1, w2, a, w3. exact (conj E1 (conj E2 (conj E3 Ha))).
Defined.

Lemma idb_Set_needs_directory_witness :
  exists w', Set_ no_handlers 4 "f/a" (Some (idb_file 0)) None idb_world = (Ret (Some ErrNotDir), w') /\
    held w' = held idb_world.
Proof.
  destruct (idb_Set_needs_directory no_handlers 4 "f/a" (idb_file 0) 420 0 3 (Some idb_abc)
    idb_world (idb_file_gives _) (proj1 idb_world_ok) (proj2 idb_world_ok)) as (w' & E & _ & _ & Hh).
  - lia.
  - apply idb_world_parents.
  - exists w'. exact (conj E Hh).
Defined.

Lemma idb_removed_is_gone_witness :
  exists w1 w2, Set_ no_handlers 3 "f" None None idb_world = (Ret None, w1) /\
    Get no_handlers 3 "f" None w1 = (Ret (None, Some ErrNotExist), w2).
Proof.
  destruct (idb_removed_is_gone no_handlers 3 "f" idb_world (proj2 idb_world_ok)) as (w1 & w2 & E1 & E2 & _);
    [lia|done|]. exists w1, w2. exact (conj E1 E2).
Defined.

Lemma idb_getDirNames_lists_witness :
  exists names w', getDirNames no_handlers 2 "." idb_world = (Ret (names, None), w') /\ "f" ∈ names.
Proof.
  destruct (idb_getDirNames_lists no_handlers 2 "." idb_world (proj2 idb_world_ok)) as (names & w' & E & _ & Hn); [lia|].
  exists names, w'. split; [exact E|]. apply Hn. exists "f", (to_js (fileInfo_of "f" 420 0 0)).
  split; [exact idb_world_info|]. split; vm_compute; reflexivity.
Defined.
