(* ===== verification/Testing.v ===== *)
(** * Tests and assertions (package [testing], [internal/assert])

    What the conformance suite needs of Go's [testing]: tests with subtests,
    their failures and skips, [runtime.Goexit], and the clean-ups that run when
    a test is over.  The assertions of [internal/assert] are on top of it.

    The state of a run is the state of the system under test, a table of tests
    and the lines logged so far, without their arguments.  A test that calls
    [Parallel] runs where it was started: the tests of the suite that run in
    parallel share nothing that they change. *)
From stdpp Require Import strings.
From Stdlib Require Import Ascii.
From S2P Require Import Prelude.
From S2P Require Import Paths.
From S2P Require Import Errors.
From S2P Require Import HackFS.

Local Open Scope string_scope.

(** ** Package [testing] *)

(** [testing.common].  A clean-up is a call whose error has to be [nil]: the
    suite registers no other. *)
Record test (U : Type) := MkTest {
  t_name : string;
  t_parent : option nat;
  t_isT : bool;              (* a *testing.T, or another testing.TB *)
  t_failed : bool;
  t_skipped : bool;
  t_finished : bool;
  t_cleanups : list (M U err)
}.
Arguments MkTest {U}.
Arguments t_name {U}.
Arguments t_parent {U}.
Arguments t_isT {U}.
Arguments t_failed {U}.
Arguments t_skipped {U}.
Arguments t_finished {U}.
Arguments t_cleanups {U}.

(** The run: [skips] has the [sync.Map]s of the suites, keyed by name. *)
Record suite (U : Type) := MkSuite {
  s_sys : U;
  s_tests : list (test U);
  s_log : list (nat * string);
  s_skips : list (gmap string unit)
}.
Arguments MkSuite {U}.
Arguments s_sys {U}.
Arguments s_tests {U}.
Arguments s_log {U}.
Arguments s_skips {U}.

(** A [testing.TB]: the number of a test. *)
Abbreviation TB := nat.

Definition goexit : string := "runtime.Goexit".

(** [unicode.IsSpace] on ASCII, and what [testing] makes of a name; the names
    of the suite are printable and no test has two subtests of one name. *)
Definition is_space (c : ascii) : bool :=
  let n := nat_of_ascii c in (n =? 32)%nat || ((9 <=? n)%nat && (n <=? 13)%nat).
Fixpoint rewrite_name (s : string) : string :=
  match s with
  | "" => ""
  | String c s => String (if is_space c then "_"%char else c) (rewrite_name s)
  end.

Section testing.
Context {U : Type}.
Notation TM := (M (suite U)).
Implicit Types (tb : TB) (t : test U).

Definition set_failed t : test U :=
  MkTest (t_name t) (t_parent t) (t_isT t) true (t_skipped t) (t_finished t) (t_cleanups t).
Definition set_finished t : test U :=
  MkTest (t_name t) (t_parent t) (t_isT t) (t_failed t) (t_skipped t) true (t_cleanups t).
Definition set_skipped t : test U :=
  MkTest (t_name t) (t_parent t) (t_isT t) (t_failed t) true true (t_cleanups t).
Definition set_cleanups (c : list (M U err)) t : test U :=
  MkTest (t_name t) (t_parent t) (t_isT t) (t_failed t) (t_skipped t) (t_finished t) c.

(** Calls of the system under test. *)
Definition sys {A} (m : M U A) : TM A :=
  zoom s_sys (fun u s => MkSuite u (s_tests s) (s_log s) (s_skips s)) m.

Definition upd_tests (f : list (test U) -> list (test U)) : TM unit :=
  modify (fun s => MkSuite (s_sys s) (f (s_tests s)) (s_log s) (s_skips s)).
Definition get_test tb : TM (test U) :=
  t <- gets (fun s => s_tests s !! tb) ;; not_nil t ret.

Definition tb_log tb (line : string) : TM unit :=
  modify (fun s => MkSuite (s_sys s) (s_tests s) (s_log s ++ [(tb, line)])%list (s_skips s)).

(** [Fail]: the parents of a test fail with it.  A parent is older than its
    children. *)
Fixpoint fail_from (fuel : nat) tb (ts : list (test U)) : list (test U) :=
  match fuel, ts !! tb with
  | S fuel, Some t =>
      alter set_failed tb (match t_parent t with Some p => fail_from fuel p ts | None => ts end)
  | _, _ => ts
  end.
Definition tb_Fail tb : TM unit := upd_tests (fail_from (S tb) tb).

Definition tb_Errorf tb (format : string) : TM unit := tb_log tb format ;;; tb_Fail tb.
Definition Goexit {A} : TM A := panic goexit.
Definition tb_FailNow {A} tb : TM A :=
  tb_Fail tb ;;; upd_tests (alter set_finished tb) ;;; Goexit.
Definition tb_Fatal {A} tb (line : string) : TM A := tb_log tb line ;;; tb_FailNow tb.
Definition tb_Skip {A} tb (line : string) : TM A :=
  tb_log tb line ;;; upd_tests (alter set_skipped tb) ;;; Goexit.
Definition tb_Skipped tb : TM bool := t <- get_test tb ;; ret (t_skipped t).
Definition tb_Name tb : TM string := t <- get_test tb ;; ret (t_name t).
Definition tb_Cleanup tb (close : M U err) : TM unit :=
  upd_tests (alter (fun t => set_cleanups (close :: t_cleanups t) t) tb).

(** Run a function of its own goroutine; was it left by [Goexit]? *)
Definition exited (m : TM unit) : TM bool := fun s =>
  match m s with
  | (Ret _, s') => (Ret false, s')
  | (Panic why, s') => if String.eqb why goexit then (Ret true, s') else (Panic why, s')
  | (Blocked, s') => (Blocked, s')
  | (OutOfFuel, s') => (OutOfFuel, s')
  end.

Fixpoint ancestor_finished (fuel : nat) (parent : option nat) (ts : list (test U)) : bool :=
  match fuel, parent with
  | S fuel, Some p =>
      match ts !! p with
      | Some t => t_finished t || ancestor_finished fuel (t_parent t) ts
      | None => false
      end
  | _, _ => false
  end.
End testing.
Arguments TB : clear implicits.

(** ** [internal/assert] *)

(** The zero values of what the suite asks it about: interfaces that are [nil],
    and the error number 0. *)
Class IsZero (A : Type) := is_zero : A -> bool.
#[export] Instance nil_zero {A} : IsZero (option A) | 10 :=
  fun x => match x with None => true | Some _ => false end.
#[export] Instance err_zero : IsZero err :=
  fun e => match e with None => true | Some (Errno n) => (n =? 0)%Z | Some _ => false end.

Module assert.
Section assert.
Context {U : Type}.
Notation TM := (M (suite U)).
Implicit Types (tb : TB) (e : err).

(** The optional message of an assertion comes before its own. *)
Definition fail_with tb (args : list string) (format : string) : TM bool :=
  (match args with [] => ret tt | line :: _ => tb_Errorf tb line end) ;;;
  tb_Errorf tb format ;;; ret false.

Definition Error tb e : TM bool :=
  match e with None => fail_with tb [] "Expected error, got nil" | Some _ => ret true end.
Definition NoErrorArgs tb e (args : list string) : TM bool :=
  match e with Some _ => fail_with tb args "Unexpected error: %+v" | None => ret true end.
Definition NoError tb e : TM bool := NoErrorArgs tb e [].

Definition Zero {A} `{IsZero A} tb (value : A) : TM bool :=
  if is_zero value then ret true else fail_with tb [] "Value should be zero, got: %#v".
Definition NotZero {A} `{IsZero A} tb (value : A) : TM bool :=
  if is_zero value then fail_with tb [] "Value should not be zero" else ret true.

(** Values of one type; [reflect.DeepEqual] is equality here. *)
Definition Equal {A} `{EqDecision A} tb (expected actual : A) : TM bool :=
  if bool_decide (expected = actual) then ret true else fail_with tb [] "%+v != %+v".
Definition NotEqual {A} `{EqDecision A} tb (expected actual : A) : TM bool :=
  if bool_decide (expected = actual) then fail_with tb [] "Should not be equal: %+v" else ret true.

(** Of a slice. *)
Definition contains {A} `{EqDecision A} (collection : list A) (item : A) : bool :=
  existsb (fun candidate => bool_decide (candidate = item)) collection.
Definition Contains {A} `{EqDecision A} tb (collection : list A) (item : A) : TM bool :=
  if contains collection item then ret true
  else fail_with tb [] "Collection does not contain expected item".
Definition NotContains {A} `{EqDecision A} tb (collection : list A) (item : A) : TM bool :=
  if contains collection item then fail_with tb [] "Collection contains unexpected item"
  else ret true.

(** [fn] may panic; [Goexit] is no panic, and goes on after the deferred call. *)
Definition Panics tb (fn : TM unit) : TM bool := fun s =>
  match fn s with
  | (Ret _, s') => bind (tb_Errorf tb "Function should panic") (fun _ => ret false) s'
  | (Panic why, s') =>
      if String.eqb why goexit
      then bind (tb_Errorf tb "Function should panic") (fun _ => Goexit) s'
      else (Ret true, s')
  | (Blocked, s') => (Blocked, s')
  | (OutOfFuel, s') => (OutOfFuel, s')
  end.
Definition NotPanics tb (fn : TM unit) : TM bool := fun s =>
  match fn s with
  | (Ret _, s') => (Ret true, s')
  | (Panic why, s') =>
      if String.eqb why goexit then (Panic why, s')
      else fail_with tb [] "Function should not panic, got: %#v" s'
  | (Blocked, s') => (Blocked, s')
  | (OutOfFuel, s') => (OutOfFuel, s')
  end.

(** [reflect.TypeOf] of an error, by the name that [%T] prints. *)
Definition TypeOf (e : error) : string :=
  match e with
  | ErrInvalid | ErrIsDir | ErrNotDir | ErrNotEmpty | ErrNotImplemented | Errno _ => "syscall.Errno"
  | DeadlineExceeded => "context.deadlineExceededError"
  | PathError _ _ _ => "*fs.PathError"
  | LinkError _ _ _ _ => "*hackpadfs.LinkError"
  | osLinkError _ _ _ _ => "*os.LinkError"
  | messageError _ _ => "*fserrors.messageError"
  | mappedErr _ _ => "*os.mappedErr"
  | _ => "*errors.errorString"
  end.
Definition IsType tb (expected : string) e : TM bool := Equal tb (Some expected) (TypeOf <$> e).

Definition Prefix tb (expected actual : string) : TM bool :=
  if HasPrefix actual expected then ret true
  else fail_with tb [] "Actual is not prefixed with expected".
Definition Suffix tb (expected actual : string) : TM bool :=
  if HasSuffix actual expected then ret true
  else fail_with tb [] "Actual is not suffixed with expected".

(** Of maps and of slices. *)
Definition subset_map {A} `{EqDecision A, !GoRuntime} (sub super : gmap string A) : bool :=
  forallb (fun kv => bool_decide (super !! kv.1 = Some kv.2)) (range_order sub).
Definition subset {A} `{EqDecision A} (sub super : list A) : bool :=
  forallb (contains super) sub.
Definition SubsetMap {A} `{EqDecision A, !GoRuntime} tb (sub super : gmap string A) : TM bool :=
  if subset_map sub super then ret true else fail_with tb [] "Sub is not a subset of Super".
Definition Subset {A} `{EqDecision A} tb (sub super : list A) : TM bool :=
  if subset sub super then ret true else fail_with tb [] "Sub is not a subset of Super".

Definition ErrorIs tb (target : error) e : TM bool :=
  if errors_Is e target then ret true else fail_with tb [] "Error must match target".

(** [clock k] is what round [k] meets: the error of the context that [fn] is
    called with, and whether the [select] after it takes the end of the context
    and not the timer. *)
Fixpoint Eventually_round (fuel k : nat) (clock : nat -> err * bool) tb
    (fn : err -> TM bool) : TM bool :=
  match fuel with
  | 0 => out_of_fuel
  | S fuel =>
      let '(ctx, expired) := clock k in
      success <- fn ctx ;;
      if (success : bool) then ret true
      else if (expired : bool) then fail_with tb [] "Condition did not become true within %s"
      else Eventually_round fuel (S k) clock tb fn
  end.
Definition Eventually (fuel : nat) (clock : nat -> err * bool) tb (fn : err -> TM bool) :
    TM bool :=
  Eventually_round fuel 0 clock tb fn.

(** It needs no more rounds than it takes the context to end. *)
Lemma Eventually_round_ends (clock : nat -> err * bool) tb (fn : err -> TM bool) n :
  (forall ctx s, exists b s', fn ctx s = (Ret b, s')) -> snd (clock n) = true ->
  forall fuel k s, k <= n -> n < k + fuel ->
  exists b s', Eventually_round fuel k clock tb fn s = (Ret b, s').
Proof.
  intros Hfn Hn. induction fuel as [|fuel IH]; intros k s Hk Hf; [lia|]. simpl.
  destruct (clock k) as [ctx expired] eqn:Hc, (Hfn ctx s) as ([] & s' & E).
  { exists true, s'. unfold bind. by rewrite E. }
  unfold bind at 1. rewrite E.
  destruct expired; [by eexists _, _|].
  destruct (decide (k = n)) as [->|]; [by rewrite Hc in Hn|]. apply IH; lia.
Qed.
Lemma Eventually_ends (clock : nat -> err * bool) tb (fn : err -> TM bool) n s :
  (forall ctx s, exists b s', fn ctx s = (Ret b, s')) -> snd (clock n) = true ->
  exists b s', Eventually (S n) clock tb fn s = (Ret b, s').
Proof. intros Hfn Hn. by apply (Eventually_round_ends clock tb fn n Hfn Hn); lia. Qed.
End assert.
End assert.

(** ** Running a test *)
Section run.
Context {U : Type}.
Notation TM := (M (suite U)).
Implicit Types (tb : TB).

Fixpoint cleanup_loop (fuel : nat) tb : TM unit :=
  match fuel with
  | 0 => ret tt
  | S fuel =>
      t <- get_test tb ;;
      match t_cleanups t with
      | [] => ret tt
      | close :: rest =>
          upd_tests (alter (set_cleanups rest) tb) ;;;
          e <- sys close ;; assert.NoError tb e ;;; cleanup_loop fuel tb
      end
  end.
(** The last one first; a clean-up registers no other. *)
Definition run_cleanups tb : TM unit :=
  t <- get_test tb ;; cleanup_loop (length (t_cleanups t)) tb.

(** [tRunner], which ends the test, and ends its parent too when the test was
    left by a [FailNow] or [Skip] of the parent. *)
Definition tRunner tb (fn : TM unit) : TM unit :=
  left <- exited (deferred (run_cleanups tb) fn) ;;
  if (left : bool) then
    t <- get_test tb ;;
    if t_finished t then ret tt
    else
      stopped <- gets (fun s => ancestor_finished tb (t_parent t) (s_tests s)) ;;
      if (stopped : bool) then
        tb_Errorf tb "%v: subtest may have called FailNow on a parent test" ;;; Goexit
      else panic "test executed panic(nil) or runtime.Goexit"
  else upd_tests (alter set_finished tb).

(** [T.Run] *)
Definition T_Run (parent : TB) (name : string) (fn : TB -> TM unit) : TM unit :=
  p <- get_test parent ;;
  tb <- gets (fun s => length (s_tests s)) ;;
  upd_tests (fun ts => ts ++ [MkTest (t_name p +:+ "/" +:+ rewrite_name name) (Some parent) true
                                false false false []])%list ;;;
  tRunner tb (fn tb).

(** A run with the one top-level test [name]. *)
Definition new_suite (name : string) (u : U) : suite U :=
  MkSuite u [MkTest name None true false false false []] [] [].
End run.
