(* ===== verification/FSTest.v ===== *)
(** * The conformance suite: options and assertions ([fstest.go], [assert.go])

    Package [fstest] tests any file system through the helpers of [HackFS].
    This file has its options, the runner of subtests and the assertions about
    file systems and their errors; the tests are in [FSTestFS] and
    [FSTestFile]. *)
From stdpp Require Import sorting.
From S2P Require Import Prelude.
From S2P Require Import Paths.
From S2P Require Import Errors.
From S2P Require Import Modes.
From S2P Require Import HackFS.
From S2P Require Import Testing.

Local Open Scope string_scope.

(** What a run of the suite depends on: the methods of all file systems, the
    free space that [append] leaves, the fuel of every call, and [time.Now]. *)
Class Env (U : Type) := {
  env_methods : FS -> FSOps U;
  env_grow : Z -> nat -> Z;
  env_fuel : nat;
  env_now : M U Z
}.

(** An octal number. *)
Fixpoint octal_digits (s : string) (n : Z) : Z :=
  match s with
  | "" => n
  | String c s => octal_digits s (8 * n + (Z.of_nat (Ascii.nat_of_ascii c) - 48))
  end.
Definition octal (s : string) : Z := octal_digits s 0.

Definition bytes_of (s : string) : list byte := Stdlib.Strings.String.list_byte_of_string s.

(** ** The calls of the suite *)
Module hackpadfs.
Section calls.
Context {U : Type} `{!Env U}.
Notation TM := (M (suite U)).
Implicit Types (fs : FS) (f : option (File U)).

Definition Open fs name : TM (option (File U) * err) := sys (fs_Open (env_methods fs) name).
Definition OpenFile fs name flag perm : TM (option (File U) * err) :=
  sys (OpenFile env_methods env_fuel fs name flag perm).
Definition Create fs name : TM (option (File U) * err) :=
  sys (Create env_methods env_fuel fs name).
Definition Mkdir fs name perm : TM err := sys (Mkdir env_methods env_fuel fs name perm).
Definition MkdirAll fs name perm : TM err := sys (MkdirAll env_methods env_fuel fs name perm).
Definition Remove fs name : TM err := sys (Remove env_methods env_fuel fs name).
Definition RemoveAll fs name : TM err := sys (RemoveAll env_methods env_fuel fs name).
Definition Rename fs oldname newname : TM err := sys (Rename env_methods fs oldname newname).
Definition Symlink fs oldname newname : TM err := sys (Symlink env_methods fs oldname newname).
Definition Stat fs name : TM (option FileInfo * err) := sys (Stat env_methods env_fuel fs name).
Definition Chmod fs name mode : TM err := sys (Chmod env_methods env_fuel fs name mode).
Definition Chtimes fs name atime mtime : TM err :=
  sys (Chtimes env_methods env_fuel fs name atime mtime).
Definition ReadDir fs name : TM (list DirEntry * err) := sys (ReadDir env_methods env_fuel fs name).
Definition ReadFile fs name : TM (list byte * err) :=
  sys (ReadFile env_methods env_grow env_fuel fs name).
Definition WriteFullFile fs name data perm : TM err :=
  sys (WriteFullFile env_methods env_fuel fs name data perm).

(** The functions on files; a [nil] file has no method to call. *)
Definition on_file {A} f (m : File U -> M U A) : TM A :=
  not_nil f (fun file => sys (m file)).
Definition Close f := on_file f f_Close.
Definition Read f len := on_file f (fun file => f_Read file len).
Definition FileStat f := on_file f f_Stat.
Definition WriteFile f p := on_file f (fun file => WriteFile file p).
Definition ReadAtFile f len off := on_file f (fun file => ReadAtFile file len off).
Definition WriteAtFile f p off := on_file f (fun file => WriteAtFile file p off).
Definition ReadDirFile f n := on_file f (fun file => ReadDirFile file n).
Definition SeekFile f off whence := on_file f (fun file => SeekFile file off whence).
Definition SyncFile f := on_file f SyncFile.
Definition TruncateFile f size := on_file f (fun file => TruncateFile file size).
End calls.
End hackpadfs.

(** ** Options *)
Record Constraints := MkConstraints { FileModeMask : Z; AllowErrPathPrefix : bool }.
Definition no_constraints : Constraints := MkConstraints 0 false.

Section suite.
Context {U : Type} `{!Env U, !GoRuntime}.
Notation TM := (M (suite U)).
Implicit Types (tb : TB) (fs : FS) (e : err).

(** [Facets] are the name of a test; [skippedTests] is the address of a map. *)
Record FSOptions := MkOptions {
  Name : string;
  TestFS : option (TB -> TM FS);
  Setup : option (TB -> TM (FS * TM FS));
  constraints : Constraints;
  ShouldSkip : option (string -> bool);
  skippedTests : nat
}.
Implicit Types (o : FSOptions).

Definition new_skips : TM nat :=
  n <- gets (fun s => length (s_skips s)) ;;
  modify (fun s => MkSuite (s_sys s) (s_tests s) (s_log s) (s_skips s ++ [∅])%list) ;;; ret n.
Definition store_skip (l : nat) (facets : string) : TM unit :=
  modify (fun s => MkSuite (s_sys s) (s_tests s) (s_log s) (alter <[facets := tt]> l (s_skips s))).

(** The options as they are after the call. *)
Definition setupOptions o : TM (FSOptions * err) :=
  l <- new_skips ;;
  let o' setup skip := MkOptions (Name o) (TestFS o) setup (constraints o) skip l in
  if String.eqb (Name o) "" then
    ret (o' (Setup o) (ShouldSkip o), Some (Errorf "FS test name is required" []))
  else
    match TestFS o, Setup o with
    | None, None => ret (o' None (ShouldSkip o), Some (Errorf "TestFS func is required" []))
    | _, _ =>
        let default_setup tb :=
          not_nil (TestFS o) (fun testFS => fs <- testFS tb ;; ret (fs, ret fs)) in
        ret (o' (Some (default default_setup (Setup o)))
                (Some (default (fun _ => false) (ShouldSkip o))), None)
    end.

(** [SetupFS]: a file system that has these methods. *)
Definition SetupFS_OpenFile fs name flag perm : TM (option (File U) * err) :=
  not_nil (fs_OpenFile (env_methods fs)) (fun f => sys (f name flag perm)).
Definition SetupFS_Mkdir fs name perm : TM err :=
  not_nil (fs_Mkdir (env_methods fs)) (fun f => sys (f name perm)).

(** [o.Setup.FS(tb)] *)
Definition Setup_FS o tb : TM (FS * TM FS) := not_nil (Setup o) (fun setup => setup tb).

Definition tbRunInner o tb (subtest : TB -> TM unit) : TM unit :=
  facets <- tb_Name tb ;;
  deferred (skipped <- tb_Skipped tb ;;
            if (skipped : bool) then store_skip (skippedTests o) facets else ret tt)
    (not_nil (ShouldSkip o) (fun shouldSkip =>
       if shouldSkip facets then tb_Skip tb "FSOption.ShouldSkip: %#v" else subtest tb)).

(** Benchmarks are left out: the suite is run by tests. *)
Definition tbRun o tb (name : string) (subtest : TB -> TM unit) : TM unit :=
  t <- get_test tb ;;
  if t_isT t then T_Run tb name (fun tb => tbRunInner o tb subtest)
  else tb_Errorf tb "Unrecognized testing type: %T".

(** [TestData] is the list of the tests that were skipped. *)
Definition generateTestData o : TM (list string) :=
  l <- gets (fun s => s_skips s !! skippedTests o) ;;
  not_nil l (fun m => ret (range_order m).*1).

Definition skipNotImplemented tb e : TM unit :=
  if errors_Is e ErrNotImplemented then tb_Skip tb "skip" else ret tt.

(** [if assert...(...) { ... }] *)
Definition when (c : TM bool) (body : TM unit) : TM unit :=
  ok <- c ;; if (ok : bool) then body else ret tt.

(** ** [assert.go] *)
Record fsEntry := MkFsEntry { fe_Size : Z; fe_Mode : Z; fe_IsDir : bool }.
#[export] Instance fsEntry_eq_dec : EqDecision fsEntry.
Proof. solve_decision. Defined.

Record quickInfo := MkQuickInfo { q_Name : string; q_Size : Z; q_Mode : Z; q_IsDir : bool }.
#[export] Instance quickInfo_eq_dec : EqDecision quickInfo.
Proof. solve_decision. Defined.

Definition mask_mode o (mode : Z) : Z := Z.land mode (FileModeMask (constraints o)).
Definition mask_entry o (x : fsEntry) : fsEntry :=
  MkFsEntry (fe_Size x) (mask_mode o (fe_Mode x)) (fe_IsDir x).
Definition mask_info o (x : quickInfo) : quickInfo :=
  MkQuickInfo (q_Name x) (q_Size x) (mask_mode o (q_Mode x)) (q_IsDir x).

(** One entry of the listing of [dir], added to the map. *)
Definition walk_entry o tb (dir : string) (entries : gmap string fsEntry) (entry : DirEntry) :
    TM (string * gmap string fsEntry) :=
  let isDir := de_IsDir entry in
  let '(info, e) := de_Info entry in
  ok <- assert.NoError tb e ;;
  let* (mode, size) :=
    (if (ok : bool) then
       not_nil info (fun info => ret (fi_Mode info, if isDir then 0%Z else fi_Size info))
     else ret (de_Type entry, 0%Z)) in
  let name := de_Name entry in
  assert.Equal tb true (ValidPath name) ;;;
  let filePath := Join [dir; name] in
  assert.Equal tb false (bool_decide (is_Some (entries !! filePath))) ;;;
  ret (filePath, <[filePath := MkFsEntry size (mask_mode o mode) isDir]> entries).

Fixpoint walkFSEntries (fuel : nat) o tb fs (entries : gmap string fsEntry) (dir : string) :
    TM (gmap string fsEntry) :=
  match fuel with
  | 0 => out_of_fuel
  | S fuel =>
      let dir := if String.eqb dir "" then "." else dir in
      let* (dirs, e) := hackpadfs.ReadDir fs dir in
      if errors_Is e ErrNotImplemented then ret entries
      else
        assert.NoError tb e ;;;
        (fix loop (dirs : list DirEntry) (entries : gmap string fsEntry) :
             TM (gmap string fsEntry) :=
           match dirs with
           | [] => ret entries
           | entry :: dirs =>
               let* (filePath, entries) := walk_entry o tb dir entries entry in
               entries <- (if de_IsDir entry then walkFSEntries fuel o tb fs entries filePath
                           else ret entries) ;;
               loop dirs entries
           end) dirs entries
  end.

Definition tryAssertEqualFS o tb (expected : gmap string fsEntry) fs : TM unit :=
  let expected := mask_entry o <$> expected in
  entries <- walkFSEntries env_fuel o tb fs ∅ "" ;;
  assert.SubsetMap tb expected entries ;;; ret tt.

Definition assertEqualQuickInfo o tb (a b : quickInfo) : TM bool :=
  assert.Equal tb (mask_info o a) (mask_info o b).
Definition assertEqualQuickInfos o tb (a b : list quickInfo) : TM bool :=
  assert.Equal tb (mask_info o <$> a) (mask_info o <$> b).
Definition assertSubsetQuickInfos o tb (a b : list quickInfo) : TM bool :=
  assert.Subset tb (mask_info o <$> a) (mask_info o <$> b).

Definition assertEqualErrPath o tb (expected actual : string) : TM unit :=
  (if AllowErrPathPrefix (constraints o) && negb (String.eqb expected actual)
   then assert.Suffix tb ("/" +:+ expected) actual
   else assert.Equal tb expected actual) ;;; ret tt.

Definition assertEqualErrField tb (expected actual : err) : TM unit :=
  when (assert.NotZero tb expected) (when (assert.NotZero tb actual)
    (not_nil expected (fun expected => not_nil actual (fun actual =>
       if negb (error_Is actual expected) && negb (String.eqb (Error expected) (Error actual))
       then assert.ErrorIs tb expected (Some actual) ;;; ret tt else ret tt)))).

Definition assertEqualPathErr o tb (op path : string) (expected : error) (actual : err) : TM unit :=
  when (assert.IsType tb "*fs.PathError" actual)
    match actual with
    | Some (PathError op' path' e') =>
        assert.Equal tb op op' ;;;
        assertEqualErrPath o tb path path' ;;;
        assertEqualErrField tb (Some expected) (Some e')
    | _ => panic "interface conversion"
    end.

Definition assertEqualLinkErr o tb (op old new : string) (expected : error) (actual : err) :
    TM unit :=
  when (assert.IsType tb "*hackpadfs.LinkError" actual)
    match actual with
    | Some (LinkError op' old' new' e') =>
        assert.Equal tb op op' ;;;
        assertEqualErrPath o tb old old' ;;;
        assertEqualErrPath o tb new new' ;;;
        assertEqualErrField tb (Some expected) (Some e')
    | _ => panic "interface conversion"
    end.

(** ** What the tests have in common ([fs.go]) *)
Definition asQuickInfo (info : option FileInfo) : quickInfo :=
  match info with
  | None => MkQuickInfo "" 0 0 false
  | Some info =>
      let isDir := IsDir (fi_Mode info) in
      MkQuickInfo (fi_Name info) (if isDir then 0 else fi_Size info) (fi_Mode info) isDir
  end.

Definition asQuickDirInfo tb (entry : DirEntry) : TM quickInfo :=
  let '(info, e) := de_Info entry in
  ok <- assert.NoError tb e ;;
  if (ok : bool) then
    not_nil info (fun info =>
      ret (MkQuickInfo (de_Name entry) (if de_IsDir entry then 0 else fi_Size info)
             (fi_Mode info) (de_IsDir entry)))
  else ret (MkQuickInfo (de_Name entry) 0 (de_Type entry) (de_IsDir entry)).

Fixpoint asQuickDirInfos tb (entries : list DirEntry) : TM (list quickInfo) :=
  match entries with
  | [] => ret []
  | entry :: entries =>
      q <- asQuickDirInfo tb entry ;; qs <- asQuickDirInfos tb entries ;; ret (q :: qs)
  end.

(** [assert.NoError(tb, f.Close())] *)
Definition close_file tb (f : option (File U)) : TM unit :=
  e <- hackpadfs.Close f ;; assert.NoError tb e ;;; ret tt.
Definition write_file tb (f : option (File U)) (contents : string) : TM unit :=
  let* (_, e) := hackpadfs.WriteFile f (bytes_of contents) in assert.NoError tb e ;;; ret tt.

(** How most tests prepare a file: [Create], then [WriteFile] if it has contents,
    then [Close]. *)
Definition create_file tb fs (name : string) : TM unit :=
  let* (f, e) := hackpadfs.Create fs name in
  when (assert.NoError tb e) (close_file tb f).
Definition create_with tb fs (name contents : string) : TM unit :=
  let* (f, e) := hackpadfs.Create fs name in
  when (assert.NoError tb e) (write_file tb f contents ;;; close_file tb f).
Definition mkdir tb fs (name : string) (perm : Z) : TM unit :=
  e <- SetupFS_Mkdir fs name perm ;; assert.NoError tb e ;;; ret tt.
Definition write_full tb fs (name contents : string) : TM unit :=
  e <- hackpadfs.WriteFullFile fs name (bytes_of contents) (octal "666") ;;
  assert.NoError tb e ;;; ret tt.
Definition expect_nil tb (m : TM err) : TM unit :=
  e <- m ;; skipNotImplemented tb e ;;; assert.NoError tb e ;;; ret tt.
End suite.
Arguments FSOptions U : clear implicits.
