(* ===== verification/FSTestFS.v ===== *)
(** * The conformance suite: tests of file systems ([fstest/fs.go])

    One definition per test function, and one per subtest where the function is
    long. *)
From S2P Require Import Prelude.
From S2P Require Import Paths.
From S2P Require Import Errors.
From S2P Require Import Modes.
From S2P Require Import Blob.
From S2P Require Import HackFS.
From S2P Require Import Testing.
From S2P Require Import FSTest.

Local Open Scope string_scope.

Section tests.
Context {U : Type} `{!Env U, !GoRuntime}.
Notation TM := (M (suite U)).
Notation Options := (FSOptions U).
Implicit Types (tb : TB) (fs : FS) (o : Options).

Definition second : Z := 1000000000.

(** [_, commit := o.Setup.FS(tb); fs := commit()] *)
Definition new_fs o tb : TM FS := let* (_, commit) := Setup_FS o tb in commit.

(** Expected entries. *)
Definition dir_mode (perm : string) : Z := Z.lor ModeDir (octal perm).
Definition a_dir (perm : string) : fsEntry := MkFsEntry 0 (dir_mode perm) true.
Definition a_file (perm : string) (size : Z) : fsEntry := MkFsEntry size (octal perm) false.
Definition len (s : string) : Z := Z.of_nat (String.length s).
Definition expect_fs o tb fs (l : list (string * fsEntry)) : TM unit :=
  tryAssertEqualFS o tb (list_to_map l) fs.

Definition q_file (name perm : string) : quickInfo := MkQuickInfo name 0 (octal perm) false.
Definition q_dir (name perm : string) : quickInfo := MkQuickInfo name 0 (dir_mode perm) true.
(** [info, err := hackpadfs.Stat(fs, name)], which must be as expected. *)
Definition expect_stat o tb fs (name : string) (q : quickInfo) : TM bool :=
  let* (info, e) := hackpadfs.Stat fs name in
  assert.NoError tb e ;;; assertEqualQuickInfo o tb q (asQuickInfo info).

(** ** Base operations *)
Definition TestBaseCreate tb o : TM unit :=
  fs <- new_fs o tb ;;
  let* (file, e) := hackpadfs.Create fs "foo" in
  skipNotImplemented tb e ;;;
  assert.NoError tb e ;;;
  when (assert.NotZero tb file) (close_file tb file).

Definition TestBaseMkdir tb o : TM unit :=
  fs <- new_fs o tb ;;
  expect_nil tb (hackpadfs.Mkdir fs "foo" (octal "600")).

Definition TestBaseChmod tb o : TM unit :=
  let* (setupFS, commit) := Setup_FS o tb in
  create_file tb setupFS "foo" ;;;
  fs <- commit ;;
  expect_nil tb (hackpadfs.Chmod fs "foo" (octal "755")).

Definition TestBaseChtimes tb o : TM unit :=
  accessTime <- sys env_now ;;
  let modifyTime := (accessTime - 10 * second)%Z in
  let* (setupFS, commit) := Setup_FS o tb in
  create_file tb setupFS "foo" ;;;
  fs <- commit ;;
  expect_nil tb (hackpadfs.Chtimes fs "foo" accessTime modifyTime).

(** ** [Create] *)
Definition testCreate tb o (createFn : FS -> string -> TM (option (File U) * err)) : TM unit :=
  fs <- new_fs o tb ;;
  let* (f, e) := createFn fs "foo" in
  when (assert.NoError tb e) (close_file tb f) ;;;
  tbRun o tb "new file" (fun tb =>
    fs <- new_fs o tb ;;
    let* (file, e) := createFn fs "foo" in
    assert.NoError tb e ;;;
    when (assert.NotZero tb file) (close_file tb file) ;;;
    expect_stat o tb fs "foo" (q_file "foo" "666") ;;; ret tt) ;;;
  tbRun o tb "existing file" (fun tb =>
    let* (setupFS, commit) := Setup_FS o tb in
    let* (file, e) := SetupFS_OpenFile setupFS "foo" (Z.lor FlagReadWrite FlagCreate) (octal "755") in
    when (assert.NoError tb e) (write_file tb file "hello world" ;;; close_file tb file) ;;;
    fs <- commit ;;
    let* (file, e) := createFn fs "foo" in
    when (assert.NoError tb e) (close_file tb file) ;;;
    expect_stat o tb fs "foo" (q_file "foo" "755") ;;; ret tt) ;;;
  tbRun o tb "existing directory" (fun tb =>
    let* (setupFS, commit) := Setup_FS o tb in
    mkdir tb setupFS "foo" (octal "700") ;;;
    fs <- commit ;;
    let* (_, e) := createFn fs "foo" in
    assertEqualPathErr o tb "open" "foo" ErrIsDir e) ;;;
  tbRun o tb "parent directory must exist" (fun tb =>
    fs <- new_fs o tb ;;
    let* (_, e) := createFn fs "foo/bar" in
    assertEqualPathErr o tb "open" "foo/bar" ErrNotExist e).

(** The functions that the tests run skip the outer test. *)
Definition or_skip {A} tb (m : TM (A * err)) : TM (A * err) :=
  let* (a, e) := m in skipNotImplemented tb e ;;; ret (a, e).

Definition TestCreate tb o : TM unit :=
  testCreate tb o (fun fs name => or_skip tb (hackpadfs.Create fs name)).

(** ** [Mkdir], [MkdirAll] *)
Definition TestMkdir tb o : TM unit :=
  tbRun o tb "fail dir exists" (fun tb =>
    fs <- new_fs o tb ;;
    expect_nil tb (hackpadfs.Mkdir fs "foo" (octal "600")) ;;;
    e <- hackpadfs.Mkdir fs "foo" (octal "600") ;;
    assertEqualPathErr o tb "mkdir" "foo" ErrExist e ;;;
    expect_fs o tb fs [("foo", a_dir "600")]) ;;;
  tbRun o tb "fail file exists" (fun tb =>
    let* (setupFS, commit) := Setup_FS o tb in
    create_file tb setupFS "foo" ;;;
    fs <- commit ;;
    e <- hackpadfs.Mkdir fs "foo" (octal "600") ;;
    skipNotImplemented tb e ;;;
    assertEqualPathErr o tb "mkdir" "foo" ErrExist e ;;;
    expect_fs o tb fs [("foo", a_file "666" 0)]) ;;;
  tbRun o tb "create sub dir" (fun tb =>
    fs <- new_fs o tb ;;
    expect_nil tb (hackpadfs.Mkdir fs "foo" (octal "700")) ;;;
    e <- hackpadfs.Mkdir fs "foo/bar" (octal "600") ;;
    assert.NoError tb e ;;;
    expect_fs o tb fs [("foo", a_dir "700"); ("foo/bar", a_dir "600")]) ;;;
  tbRun o tb "only permission bits allowed" (fun tb =>
    fs <- new_fs o tb ;;
    expect_nil tb (hackpadfs.Mkdir fs "foo" (Z.lor ModeSocket (octal "755"))) ;;;
    expect_fs o tb fs [("foo", a_dir "755")]) ;;;
  tbRun o tb "parent directory must exist" (fun tb =>
    fs <- new_fs o tb ;;
    e <- hackpadfs.Mkdir fs "foo/bar" (octal "755") ;;
    skipNotImplemented tb e ;;;
    assertEqualPathErr o tb "mkdir" "foo/bar" ErrNotExist e ;;;
    expect_fs o tb fs []).

Definition TestMkdirAll tb o : TM unit :=
  tbRun o tb "create one directory" (fun tb =>
    fs <- new_fs o tb ;;
    expect_nil tb (hackpadfs.MkdirAll fs "foo" (octal "700")) ;;;
    expect_fs o tb fs [("foo", a_dir "700")]) ;;;
  tbRun o tb "create multiple directories" (fun tb =>
    fs <- new_fs o tb ;;
    expect_nil tb (hackpadfs.MkdirAll fs "foo/bar" (octal "700")) ;;;
    expect_fs o tb fs [("foo", a_dir "700"); ("foo/bar", a_dir "700")]) ;;;
  tbRun o tb "all directories exist" (fun tb =>
    let* (setupFS, commit) := Setup_FS o tb in
    mkdir tb setupFS "foo" (octal "700") ;;;
    mkdir tb setupFS "foo/bar" (octal "644") ;;;
    fs <- commit ;;
    expect_nil tb (hackpadfs.MkdirAll fs "foo/bar" (octal "600")) ;;;
    expect_fs o tb fs [("foo", a_dir "700"); ("foo/bar", a_dir "644")]) ;;;
  tbRun o tb "file exists" (fun tb =>
    let* (setupFS, commit) := Setup_FS o tb in
    create_file tb setupFS "foo" ;;;
    fs <- commit ;;
    e <- hackpadfs.MkdirAll fs "foo/bar" (octal "700") ;;
    skipNotImplemented tb e ;;;
    assertEqualPathErr o tb "mkdir" "foo" ErrNotDir e ;;;
    expect_fs o tb fs [("foo", a_file "666" 0)]) ;;;
  tbRun o tb "illegal permission bits" (fun tb =>
    fs <- new_fs o tb ;;
    expect_nil tb (hackpadfs.MkdirAll fs "foo/bar" (Z.lor ModeSocket (octal "777"))) ;;;
    expect_fs o tb fs [("foo", a_dir "777"); ("foo/bar", a_dir "777")]).

(** ** [Open], [OpenFile] *)

(** [io.ReadFull]: [len] bytes, or an error. *)
Fixpoint ReadFull_loop (fuel : nat) (f : option (File U)) (len : Z) (got : list byte) :
    TM (list byte * err) :=
  match fuel with
  | 0 => out_of_fuel
  | S fuel =>
      let n := Z.of_nat (length got) in
      if (len <=? n)%Z then ret (got, None)
      else
        let* (p, e) := hackpadfs.Read f (len - n) in
        let got := (got ++ p)%list in
        match e with
        | None => ReadFull_loop fuel f len got
        | Some e =>
            if (len <=? Z.of_nat (length got))%Z then ret (got, None)
            else if bool_decide (got <> []) && bool_decide (e = EOF)
            then ret (got, Some (Errorf "unexpected EOF" []))
            else ret (got, Some e)
        end
  end.
Definition io_ReadFull (f : option (File U)) (len : Z) : TM (list byte * err) :=
  ReadFull_loop env_fuel f len [].

(** A buffer of the given length after [p] was read into it. *)
Definition buffer (len : Z) (p : list byte) : list byte :=
  copy_into (replicate (Z.to_nat len) zero) p.

Definition open_reads o (openFn : FS -> string -> TM (option (File U) * err)) tb : TM unit :=
  let* (setupFS, commit) := Setup_FS o tb in
  let* (f, e) := hackpadfs.Create setupFS "foo" in
  ok <- assert.NoError tb e ;;
  n <- (if (ok : bool) then
          let* (n, e) := hackpadfs.WriteFile f (bytes_of "hello world") in
          assert.NoError tb e ;;; close_file tb f ;;; ret n
        else ret 0%Z) ;;
  fs <- commit ;;
  let* (f, e) := openFn fs "foo" in
  ok <- assert.NoError tb e ;;
  (if (ok : bool) then ret tt else tb_FailNow tb) ;;;
  let* (p, e) := io_ReadFull f n in
  assert.NoError tb e ;;;
  assert.Equal tb n (Z.of_nat (length p)) ;;;
  assert.Equal tb (bytes_of "hello world") (buffer n p) ;;;
  close_file tb f.

Definition testOpen tb o (openFn : FS -> string -> TM (option (File U) * err)) : TM unit :=
  tbRun o tb "invalid path" (fun tb =>
    fs <- new_fs o tb ;;
    let* (_, e) := openFn fs "foo/../bar" in
    assertEqualPathErr o tb "open" "foo/../bar" ErrInvalid e) ;;;
  tbRun o tb "does not exist" (fun tb =>
    fs <- new_fs o tb ;;
    let* (_, e) := openFn fs "foo" in
    assertEqualPathErr o tb "open" "foo" ErrNotExist e) ;;;
  tbRun o tb "open file" (fun tb =>
    let* (setupFS, commit) := Setup_FS o tb in
    create_file tb setupFS "foo" ;;;
    fs <- commit ;;
    let* (f, e) := openFn fs "foo" in
    assert.NoError tb e ;;;
    when (assert.NotZero tb f) (close_file tb f)) ;;;
  tbRun o tb "supports reads" (open_reads o openFn) ;;;
  tbRun o tb "fails writes" (fun tb =>
    let* (setupFS, commit) := Setup_FS o tb in
    create_file tb setupFS "foo" ;;;
    fs <- commit ;;
    let* (f, e) := openFn fs "foo" in
    when (assert.NoError tb e)
      (let* (_, e) := hackpadfs.WriteFile f (bytes_of "bar") in
       assert.Error tb e ;;; close_file tb f)).

Definition TestOpen tb o : TM unit := testOpen tb o hackpadfs.Open.

(** The call of a subtest of [TestOpenFile] whose error is a failure. *)
Definition open_with o tb fs (flag perm : Z) (body : option (File U) -> TM unit) : TM unit :=
  let* (f, e) := or_skip tb (hackpadfs.OpenFile fs "foo" flag perm) in
  when (assert.NoError tb e) (body f ;;; close_file tb f).

Definition TestOpenFile tb o : TM unit :=
  tbRun o tb "read-only" (fun tb =>
    testOpen tb o (fun fs name => or_skip tb (hackpadfs.OpenFile fs name FlagReadOnly (octal "777")))) ;;;
  tbRun o tb "create" (fun tb =>
    testCreate tb o (fun fs name =>
      or_skip tb (hackpadfs.OpenFile fs name (Z.lor FlagReadWrite (Z.lor FlagCreate FlagTruncate))
                    (octal "666")))) ;;;
  tbRun o tb "create illegal perms" (fun tb =>
    fs <- new_fs o tb ;;
    open_with o tb fs (Z.lor FlagReadOnly FlagCreate) (Z.lor ModeSocket (octal "777"))
      (fun _ => ret tt) ;;;
    expect_fs o tb fs [("foo", a_file "777" 0)]) ;;;
  tbRun o tb "truncate on existing file" (fun tb =>
    let* (setupFS, commit) := Setup_FS o tb in
    create_with tb setupFS "foo" "hello world" ;;;
    fs <- commit ;;
    open_with o tb fs (Z.lor FlagTruncate FlagWriteOnly) (octal "700") (fun _ => ret tt) ;;;
    expect_fs o tb fs [("foo", a_file "666" 0)]) ;;;
  tbRun o tb "truncate on non-existent file" (fun tb =>
    fs <- new_fs o tb ;;
    let* (_, e) := or_skip tb
      (hackpadfs.OpenFile fs "foo" (Z.lor FlagTruncate FlagWriteOnly) (octal "700")) in
    assertEqualPathErr o tb "open" "foo" ErrNotExist e) ;;;
  tbRun o tb "truncate on existing dir" (fun tb =>
    let* (setupFS, commit) := Setup_FS o tb in
    mkdir tb setupFS "foo" (octal "700") ;;;
    fs <- commit ;;
    let* (_, e) := or_skip tb
      (hackpadfs.OpenFile fs "foo" (Z.lor FlagTruncate FlagWriteOnly) (octal "700")) in
    assertEqualPathErr o tb "open" "foo" ErrIsDir e) ;;;
  tbRun o tb "append flag writes to end" (fun tb =>
    let* (setupFS, commit) := Setup_FS o tb in
    create_with tb setupFS "foo" "hello world" ;;;
    fs <- commit ;;
    open_with o tb fs (Z.lor FlagReadWrite FlagAppend) (octal "700")
      (fun f => write_file tb f "sup ") ;;;
    expect_fs o tb fs [("foo", a_file "666" (len "hello world" + len "sup "))]).

(** ** [Remove], [RemoveAll] *)
Definition TestRemove tb o : TM unit :=
  tbRun o tb "remove file" (fun tb =>
    let* (setupFS, commit) := Setup_FS o tb in
    create_file tb setupFS "foo" ;;;
    fs <- commit ;;
    expect_nil tb (hackpadfs.Remove fs "foo") ;;;
    expect_fs o tb fs []) ;;;
  tbRun o tb "remove empty dir" (fun tb =>
    let* (setupFS, commit) := Setup_FS o tb in
    mkdir tb setupFS "foo" (octal "700") ;;;
    fs <- commit ;;
    e <- hackpadfs.Remove fs "foo" ;;
    skipNotImplemented tb e ;;;
    expect_fs o tb fs []) ;;;
  tbRun o tb "remove non-existing file" (fun tb =>
    fs <- new_fs o tb ;;
    e <- hackpadfs.Remove fs "foo" ;;
    skipNotImplemented tb e ;;;
    assertEqualPathErr o tb "remove" "foo" ErrNotExist e ;;;
    expect_fs o tb fs []) ;;;
  tbRun o tb "remove non-empty dir" (fun tb =>
    let* (setupFS, commit) := Setup_FS o tb in
    mkdir tb setupFS "foo" (octal "700") ;;;
    create_file tb setupFS "foo/bar" ;;;
    fs <- commit ;;
    e <- hackpadfs.Remove fs "foo" ;;
    skipNotImplemented tb e ;;;
    assertEqualPathErr o tb "remove" "foo" ErrNotEmpty e ;;;
    expect_fs o tb fs [("foo", a_dir "700"); ("foo/bar", a_file "666" 0)]).

Definition TestRemoveAll tb o : TM unit :=
  tbRun o tb "remove file" (fun tb =>
    let* (setupFS, commit) := Setup_FS o tb in
    create_file tb setupFS "foo" ;;;
    fs <- commit ;;
    expect_nil tb (hackpadfs.RemoveAll fs "foo") ;;;
    expect_fs o tb fs []) ;;;
  tbRun o tb "remove empty dir" (fun tb =>
    let* (setupFS, commit) := Setup_FS o tb in
    mkdir tb setupFS "foo" (octal "700") ;;;
    fs <- commit ;;
    expect_nil tb (hackpadfs.RemoveAll fs "foo") ;;;
    expect_fs o tb fs []) ;;;
  tbRun o tb "remove non-existing file" (fun tb =>
    fs <- new_fs o tb ;;
    expect_nil tb (hackpadfs.RemoveAll fs "foo") ;;;
    expect_fs o tb fs []) ;;;
  tbRun o tb "remove non-empty dir" (fun tb =>
    let* (setupFS, commit) := Setup_FS o tb in
    mkdir tb setupFS "foo" (octal "700") ;;;
    create_file tb setupFS "foo/bar" ;;;
    fs <- commit ;;
    expect_nil tb (hackpadfs.RemoveAll fs "foo") ;;;
    expect_fs o tb fs []).

(** ** [Rename] *)
Definition rename_missing o tb : TM unit :=
  fs <- new_fs o tb ;;
  e <- hackpadfs.Rename fs "foo" "bar" ;;
  skipNotImplemented tb e ;;;
  assertEqualLinkErr o tb "rename" "foo" "bar" ErrNotExist e.

Definition rename_inside_dir o tb : TM unit :=
  let* (setupFS, commit) := Setup_FS o tb in
  mkdir tb setupFS "foo" (octal "700") ;;;
  create_file tb setupFS "foo/bar" ;;;
  fs <- commit ;;
  expect_nil tb (hackpadfs.Rename fs "foo/bar" "foo/baz") ;;;
  expect_fs o tb fs [("foo", a_dir "700"); ("foo/baz", a_file "666" 0)].

Definition rename_in_root o tb : TM unit :=
  let* (setupFS, commit) := Setup_FS o tb in
  create_file tb setupFS "bar" ;;;
  fs <- commit ;;
  expect_nil tb (hackpadfs.Rename fs "bar" "baz") ;;;
  expect_fs o tb fs [("baz", a_file "666" 0)].

Definition rename_same_file o tb : TM unit :=
  let* (setupFS, commit) := Setup_FS o tb in
  mkdir tb setupFS "foo" (octal "700") ;;;
  write_full tb setupFS "foo/bar" "hello world" ;;;
  fs <- commit ;;
  expect_nil tb (hackpadfs.Rename fs "foo/bar" "foo/bar") ;;;
  expect_fs o tb fs [("foo", a_dir "700"); ("foo/bar", a_file "666" (len "hello world"))].

(** The error of a rename onto something that is there, of this package or of
    package [os]. *)
Definition expect_rename_exists o tb (old new : string) (e : err) : TM unit :=
  when (assert.Error tb e)
    match e with
    | Some (LinkError _ _ _ _) => assertEqualLinkErr o tb "rename" old new ErrExist e
    | Some e =>
        assert.Equal tb "*os.LinkError" (assert.TypeOf e) ;;;
        assert.Equal tb ("rename " +:+ old +:+ " " +:+ new +:+ ": file exists") (Error e) ;;;
        assert.ErrorIs tb ErrExist (Some e) ;;; ret tt
    | None => ret tt
    end.

Definition rename_same_dir o tb : TM unit :=
  let* (setupFS, commit) := Setup_FS o tb in
  mkdir tb setupFS "foo" (octal "700") ;;;
  fs <- commit ;;
  e <- hackpadfs.Rename fs "foo" "foo" ;;
  skipNotImplemented tb e ;;;
  expect_rename_exists o tb "foo" "foo" e ;;;
  expect_fs o tb fs [("foo", a_dir "700")].

Definition rename_onto_dir o tb : TM unit :=
  let* (setupFS, commit) := Setup_FS o tb in
  mkdir tb setupFS "foo" (octal "700") ;;;
  mkdir tb setupFS "bar" (octal "700") ;;;
  fs <- commit ;;
  e <- hackpadfs.Rename fs "foo" "bar" ;;
  skipNotImplemented tb e ;;;
  expect_rename_exists o tb "foo" "bar" e ;;;
  expect_fs o tb fs [("foo", a_dir "700"); ("bar", a_dir "700")].

Definition rename_to_root o tb : TM unit :=
  let* (setupFS, commit) := Setup_FS o tb in
  mkdir tb setupFS "foo" (octal "700") ;;;
  write_full tb setupFS "foo/bar" "hello world" ;;;
  fs <- commit ;;
  expect_nil tb (hackpadfs.Rename fs "foo/bar" "baz") ;;;
  expect_fs o tb fs [("foo", a_dir "700"); ("baz", a_file "666" (len "hello world"))].

Definition rename_to_subdir o tb : TM unit :=
  let* (setupFS, commit) := Setup_FS o tb in
  mkdir tb setupFS "foo" (octal "700") ;;;
  write_full tb setupFS "bar" "hello world" ;;;
  fs <- commit ;;
  expect_nil tb (hackpadfs.Rename fs "bar" "foo/baz") ;;;
  expect_fs o tb fs [("foo", a_dir "700"); ("foo/baz", a_file "666" (len "hello world"))].

Definition rename_full_dir o tb : TM unit :=
  let* (setupFS, commit) := Setup_FS o tb in
  mkdir tb setupFS "foo" (octal "700") ;;;
  write_full tb setupFS "foo/bar" "hello world" ;;;
  fs <- commit ;;
  expect_nil tb (hackpadfs.Rename fs "foo" "baz") ;;;
  expect_fs o tb fs [("baz", a_dir "700"); ("baz/bar", a_file "666" (len "hello world"))].

Definition TestRename tb o : TM unit :=
  tbRun o tb "oldpath does not exist" (rename_missing o) ;;;
  tbRun o tb "inside same directory" (rename_inside_dir o) ;;;
  tbRun o tb "inside same directory in root" (rename_in_root o) ;;;
  tbRun o tb "same file" (rename_same_file o) ;;;
  tbRun o tb "same directory" (rename_same_dir o) ;;;
  tbRun o tb "newpath is directory" (rename_onto_dir o) ;;;
  tbRun o tb "newpath in root" (rename_to_root o) ;;;
  tbRun o tb "newpath in subdirectory" (rename_to_subdir o) ;;;
  tbRun o tb "non-empty directory" (rename_full_dir o).

(** ** [Stat] *)
Definition testStat tb o (stater : TB -> FS -> string -> TM (option FileInfo * err)) : TM unit :=
  tbRun o tb "invalid path" (fun tb =>
    fs <- new_fs o tb ;;
    let* (_, e) := stater tb fs "foo/../bar" in
    when (assert.IsType tb "*fs.PathError" e)
      match e with
      | Some (PathError _ path _) =>
          assert.Equal tb "foo/../bar" path ;;; assert.ErrorIs tb ErrInvalid e ;;; ret tt
      | _ => panic "interface conversion"
      end) ;;;
  tbRun o tb "stat root" (fun tb =>
    fs <- new_fs o tb ;;
    let* (info, e) := stater tb fs "." in
    when (assert.NoError tb e)
      (not_nil info (fun info => assert.Equal tb true (IsDir (fi_Mode info)) ;;; ret tt))) ;;;
  tbRun o tb "stat a file" (fun tb =>
    let* (setupFS, commit) := Setup_FS o tb in
    create_file tb setupFS "foo" ;;;
    e <- hackpadfs.Chmod setupFS "foo" (octal "755") ;;
    assert.NoError tb e ;;;
    fs <- commit ;;
    let* (info, e) := stater tb fs "foo" in
    assert.NoError tb e ;;;
    assertEqualQuickInfo o tb (q_file "foo" "755") (asQuickInfo info) ;;;
    assert.NotPanics tb (not_nil info (fun _ => ret tt)) ;;; ret tt) ;;;
  tbRun o tb "stat a directory" (fun tb =>
    let* (setupFS, commit) := Setup_FS o tb in
    mkdir tb setupFS "foo" (octal "755") ;;;
    fs <- commit ;;
    let* (info, e) := stater tb fs "foo" in
    assert.NoError tb e ;;;
    assertEqualQuickInfo o tb (q_dir "foo" "755") (asQuickInfo info) ;;; ret tt) ;;;
  tbRun o tb "stat nested files" (fun tb =>
    let* (setupFS, commit) := Setup_FS o tb in
    mkdir tb setupFS "foo" (octal "755") ;;;
    mkdir tb setupFS "foo/bar" (octal "755") ;;;
    create_file tb setupFS "foo/bar/baz" ;;;
    fs <- commit ;;
    let* (info1, e) := stater tb fs "foo/bar" in
    assert.NoError tb e ;;;
    let* (info2, e) := stater tb fs "foo/bar/baz" in
    assert.NoError tb e ;;;
    assertEqualQuickInfo o tb (q_dir "bar" "755") (asQuickInfo info1) ;;;
    assertEqualQuickInfo o tb (q_file "baz" "666") (asQuickInfo info2) ;;; ret tt).

Definition TestStat tb o : TM unit :=
  testStat tb o (fun tb fs path => or_skip tb (hackpadfs.Stat fs path)).

(** ** [Chmod], [Chtimes] *)
Definition chmod_symlink o tb : TM unit :=
  let* (setupFS, commit) := Setup_FS o tb in
  (match fs_Symlink (env_methods setupFS) with
   | None => tb_Skip tb "FS is not an SymlinkFS"
   | Some _ => ret tt
   end) ;;;
  create_file tb setupFS "foo" ;;;
  e <- hackpadfs.Symlink setupFS "foo" "bar" ;;
  assert.NoError tb e ;;;
  fs <- commit ;;
  expect_nil tb (hackpadfs.Chmod fs "foo" (octal "755")) ;;;
  let* (linkInfo, e) := hackpadfs.Stat fs "foo" in
  assert.NoError tb e ;;;
  let* (info, e) := hackpadfs.Stat fs "bar" in
  assert.NoError tb e ;;;
  assertEqualQuickInfo o tb (q_file "foo" "755") (asQuickInfo linkInfo) ;;;
  assertEqualQuickInfo o tb (q_file "bar" "755") (asQuickInfo info) ;;; ret tt.

Definition TestChmod tb o : TM unit :=
  tbRun o tb "change permission bits" (fun tb =>
    let* (setupFS, commit) := Setup_FS o tb in
    create_file tb setupFS "foo" ;;;
    fs <- commit ;;
    expect_nil tb (hackpadfs.Chmod fs "foo" (octal "755")) ;;;
    expect_stat o tb fs "foo" (q_file "foo" "755") ;;; ret tt) ;;;
  tbRun o tb "change symlink target permission bits" (chmod_symlink o).

(** [t.Format(time.RFC3339)], of local times: it shows the second. *)
Definition rfc3339 (t : Z) : Z := (t / second)%Z.

Definition TestChtimes tb o : TM unit :=
  accessTime <- sys env_now ;;
  let modifyTime := (accessTime - 60 * second)%Z in
  tbRun o tb "file does not exist" (fun tb =>
    fs <- new_fs o tb ;;
    e <- hackpadfs.Chtimes fs "foo" accessTime modifyTime ;;
    skipNotImplemented tb e ;;;
    assertEqualPathErr o tb "chtimes" "foo" ErrNotExist e) ;;;
  tbRun o tb "change access and modify times" (fun tb =>
    let* (setupFS, commit) := Setup_FS o tb in
    create_file tb setupFS "foo" ;;;
    fs <- commit ;;
    expect_nil tb (hackpadfs.Chtimes fs "foo" accessTime modifyTime) ;;;
    let* (info, e) := hackpadfs.Stat fs "foo" in
    assert.NoError tb e ;;;
    when (assertEqualQuickInfo o tb (q_file "foo" "666") (asQuickInfo info))
      (not_nil info (fun info =>
         assert.Equal tb (rfc3339 modifyTime) (rfc3339 (fi_ModTime info)) ;;; ret tt))).

(** ** [ReadFile], [ReadDir], [WriteFile] *)
Definition TestReadFile tb o : TM unit :=
  tbRun o tb "not exists" (fun tb =>
    fs <- new_fs o tb ;;
    let* (_, e) := or_skip tb (hackpadfs.ReadFile fs "foo") in
    assertEqualPathErr o tb "open" "foo" ErrNotExist e) ;;;
  tbRun o tb "exists" (fun tb =>
    let* (setupFS, commit) := Setup_FS o tb in
    write_full tb setupFS "foo" "hello" ;;;
    fs <- commit ;;
    let* (buf, e) := or_skip tb (hackpadfs.ReadFile fs "foo") in
    assert.NoError tb e ;;;
    assert.Equal tb (bytes_of "hello") buf ;;; ret tt).

(** One entry of a listing, compared bit by bit. *)
Definition expect_entry tb (dir : list DirEntry) (i : nat) (q : quickInfo) (type : Z) : TM unit :=
  not_nil (dir !! i) (fun entry =>
    assert.Equal tb (q_Name q) (de_Name entry) ;;;
    let '(info, e) := de_Info entry in
    assert.NoError tb e ;;;
    assert.Equal tb q (asQuickInfo info) ;;;
    assert.Equal tb (q_IsDir q) (de_IsDir entry) ;;;
    assert.Equal tb type (de_Type entry) ;;; ret tt).

(** [dir, err := hackpadfs.ReadDir(fs, "foo")] of a file; the names of the
    operation are those of macOS, Linux and Windows. *)
Definition expect_not_dir o tb (e : err) : TM unit :=
  when (assert.IsType tb "*fs.PathError" e)
    match e with
    | Some (PathError op path _) =>
        assert.ErrorIs tb ErrNotDir e ;;;
        assert.Contains tb ["fdopendir"; "readdirent"; "readdir"] op ;;;
        assertEqualErrPath o tb "foo" path
    | _ => panic "interface conversion"
    end.

Definition TestReadDir tb o : TM unit :=
  tbRun o tb "exists" (fun tb =>
    let* (setupFS, commit) := Setup_FS o tb in
    e <- hackpadfs.MkdirAll setupFS "foo/bar" (octal "777") ;;
    assert.NoError tb e ;;;
    create_file tb setupFS "foo/baz" ;;;
    create_file tb setupFS "foo/biff" ;;;
    fs <- commit ;;
    let* (dir, e) := or_skip tb (hackpadfs.ReadDir fs "foo") in
    assert.NoError tb e ;;;
    when (assert.Equal tb 3 (length dir))
      (expect_entry tb dir 0 (q_dir "bar" "777") ModeDir ;;;
       expect_entry tb dir 1 (q_file "baz" "666") 0 ;;;
       expect_entry tb dir 2 (q_file "biff" "666") 0)) ;;;
  tbRun o tb "not exists" (fun tb =>
    fs <- new_fs o tb ;;
    let* (_, e) := or_skip tb (hackpadfs.ReadDir fs "foo") in
    assertEqualPathErr o tb "open" "foo" ErrNotExist e) ;;;
  tbRun o tb "file is not a dir" (fun tb =>
    let* (setupFS, commit) := Setup_FS o tb in
    create_file tb setupFS "foo" ;;;
    fs <- commit ;;
    let* (_, e) := or_skip tb (hackpadfs.ReadDir fs "foo") in
    expect_not_dir o tb e).

(** [hackpadfs.ReadFile] of what was written. *)
Definition expect_contents tb fs (contents : string) : TM unit :=
  let* (buf, e) := hackpadfs.ReadFile fs "foo" in
  assert.NoError tb e ;;; assert.Equal tb (bytes_of contents) buf ;;; ret tt.

Definition TestWriteFile tb o : TM unit :=
  tbRun o tb "not exists" (fun tb =>
    fs <- new_fs o tb ;;
    expect_nil tb (hackpadfs.WriteFullFile fs "foo" (bytes_of "bar") (octal "765")) ;;;
    expect_fs o tb fs [("foo", a_file "765" 3)] ;;;
    expect_contents tb fs "bar") ;;;
  tbRun o tb "file exists" (fun tb =>
    let* (setupFS, commit) := Setup_FS o tb in
    let* (f, e) := SetupFS_OpenFile setupFS "foo" (Z.lor FlagWriteOnly FlagCreate) (octal "666") in
    when (assert.NoError tb e) (write_file tb f "bar" ;;; close_file tb f) ;;;
    fs <- commit ;;
    expect_nil tb (hackpadfs.WriteFullFile fs "foo" (bytes_of "baz") (octal "765")) ;;;
    expect_fs o tb fs [("foo", a_file "666" 3)] ;;;
    expect_contents tb fs "baz") ;;;
  tbRun o tb "dir exists" (fun tb =>
    let* (setupFS, commit) := Setup_FS o tb in
    mkdir tb setupFS "foo" (octal "700") ;;;
    fs <- commit ;;
    e <- hackpadfs.WriteFullFile fs "foo" (bytes_of "bar") (octal "765") ;;
    skipNotImplemented tb e ;;;
    assertEqualPathErr o tb "open" "foo" ErrIsDir e ;;;
    expect_fs o tb fs [("foo", MkFsEntry 0 (octal "700") true)]).
End tests.
