(* ===== verification/FSTestFile.v ===== *)
(** * The conformance suite: tests of files, and the suite
    ([fstest/file.go], [fstest.go]) *)
From stdpp Require Import sorting.
From S2P Require Import Prelude.
From S2P Require Import Paths.
From S2P Require Import Errors.
From S2P Require Import Modes.
From S2P Require Import Blob.
From S2P Require Import HackFS.
From S2P Require Import Testing.
From S2P Require Import FSTest.
From S2P Require Import FSTestFS.

Local Open Scope string_scope.

Section tests.
Context {U : Type} `{!Env U, !GoRuntime}.
Notation TM := (M (suite U)).
Notation Options := (FSOptions U).
Implicit Types (tb : TB) (fs : FS) (o : Options).

(** [fs := commit(); f, err := fs.Open(name)] whose error is a failure. *)
Definition must_open tb fs (name : string) : TM (option (File U)) :=
  let* (f, e) := hackpadfs.Open fs name in assert.NoError tb e ;;; ret f.
Definition open_or_stop tb fs (name : string) : TM (option (File U)) :=
  let* (f, e) := hackpadfs.Open fs name in
  ok <- assert.NoError tb e ;; if (ok : bool) then ret f else tb_FailNow tb.
(** [hackpadfs.OpenFile(fs, "foo", flag, 0)] *)
Definition must_open_file tb fs (flag : Z) : TM (option (File U)) :=
  let* (f, e) := or_skip tb (hackpadfs.OpenFile fs "foo" flag 0) in
  assert.NoError tb e ;;; ret f.

(** ** [Close], [Read], [ReadAt] *)
Definition TestFileClose tb o : TM unit :=
  let* (setupFS, commit) := Setup_FS o tb in
  create_file tb setupFS "foo" ;;;
  fs <- commit ;;
  let* (f, e) := hackpadfs.Open fs "foo" in
  when (assert.NoError tb e)
    (close_file tb f ;;; e <- hackpadfs.Close f ;; assert.Error tb e ;;; ret tt).

Definition TestFileRead tb o : TM unit :=
  tbRun o tb "read empty" (fun tb =>
    let* (setupFS, commit) := Setup_FS o tb in
    create_file tb setupFS "foo" ;;;
    fs <- commit ;;
    f <- open_or_stop tb fs "foo" ;;
    let* (p, e) := hackpadfs.Read f 10 in
    assert.Equal tb 0 (length p) ;;;
    assert.Equal tb (Some EOF) e ;;;
    close_file tb f) ;;;
  tbRun o tb "read a few bytes at a time" (fun tb =>
    let* (setupFS, commit) := Setup_FS o tb in
    create_with tb setupFS "foo" "hello world" ;;;
    fs <- commit ;;
    f <- open_or_stop tb fs "foo" ;;
    let* (p, e) := hackpadfs.Read f 2 in
    assert.Equal tb 2 (length p) ;;;
    assert.NoError tb e ;;;
    assert.Equal tb (bytes_of "he") (buffer 2 p) ;;;
    let* (p, e) := hackpadfs.Read f (len "hello world" * 2) in
    assert.Equal tb (len "hello world" - 2)%Z (Z.of_nat (length p)) ;;;
    e <- match e with
         | None =>
             let* (p, e) := hackpadfs.Read f (len "hello world" * 2) in
             assert.Equal tb 0 (length p) ;;; ret e
         | Some e => ret (Some e)
         end ;;
    assert.Equal tb (Some EOF) e ;;;
    assert.Equal tb (bytes_of "llo world") p ;;;
    close_file tb f).

Record readAtCase := MkReadAt {
  ra_description : string;
  bufSize : Z;
  ra_off : Z;
  expectN : Z;
  expectBuf : string;
  expectErr : err
}.
Definition readAtCases : list readAtCase := [
  MkReadAt "at start" 11 0 11 "hello world" None;
  MkReadAt "negative offset" 11 (-1) 0 "" (Some (Errorf "negative offset" []));
  MkReadAt "small byte offset" 11 2 9 "llo world" (Some EOF);
  MkReadAt "small read at offset" 2 2 2 "ll" None;
  MkReadAt "full read at offset" 11 2 9 "llo world" (Some EOF)].

Definition readAt_case o fs (tc : readAtCase) tb : TM unit :=
  let* (file, e) := hackpadfs.Open fs "foo" in
  when (assert.NoError tb e)
    (deferred (close_file tb file)
      (let* (p, e) := hackpadfs.ReadAtFile file (bufSize tc) (ra_off tc) in
       let n := Z.of_nat (length p) in
       skipNotImplemented tb e ;;;
       let e := if (n =? bufSize tc)%Z && bool_decide (e = Some EOF) then None else e in
       match expectErr tc with
       | Some expected =>
           match e with
           | Some (PathError _ _ _) => assertEqualPathErr o tb "readat" "foo" expected e
           | _ => ret tt
           end
       | None =>
           assert.NoError tb e ;;;
           assert.Equal tb (expectN tc) n ;;;
           assert.Equal tb (bytes_of (expectBuf tc)) p ;;; ret tt
       end)).

(** The subtests are parallel: each stops in [Parallel] until the loop is over,
    and [tc] is one variable of the whole loop, as in Go before 1.22.  So when
    they go on they all see the last case. *)
Fixpoint readAt_loop o tb fs (last : readAtCase) (cases : list readAtCase) : TM unit :=
  match cases with
  | [] => ret tt
  | tc :: cases =>
      tbRun o tb (ra_description tc) (readAt_case o fs last) ;;; readAt_loop o tb fs last cases
  end.

Definition TestFileReadAt tb o : TM unit :=
  let* (setupFS, commit) := Setup_FS o tb in
  write_full tb setupFS "foo" "hello world" ;;;
  fs <- commit ;;
  not_nil (last readAtCases) (fun tc => readAt_loop o tb fs tc readAtCases).

(** ** [Seek] *)
Definition seek_fails o (off whence : Z) tb : TM unit :=
  let* (setupFS, commit) := Setup_FS o tb in
  create_with tb setupFS "foo" "hello world" ;;;
  fs <- commit ;;
  file <- must_open tb fs "foo" ;;
  let* (_, e) := or_skip tb (hackpadfs.SeekFile file off whence) in
  assertEqualPathErr o tb "seek" "foo" ErrInvalid e ;;;
  close_file tb file.

(** Seek, and read on from there. *)
Definition seek_and_read tb (file : option (File U)) (off whence to : Z) (rest : string) : TM unit :=
  let* (off, e) := hackpadfs.SeekFile file off whence in
  skipNotImplemented tb e ;;;
  assert.NoError tb e ;;;
  assert.Equal tb to off ;;;
  let* (p, e) := hackpadfs.Read file (len "hello world") in
  assert.Equal tb true (bool_decide (e = None) || bool_decide (e = Some EOF)) ;;;
  assert.Equal tb (bytes_of rest) p ;;;
  close_file tb file.

Definition TestFileSeek tb o : TM unit :=
  tbRun o tb "seek unknown start" (seek_fails o 0 (-1)) ;;;
  tbRun o tb "seek negative offset" (seek_fails o (-1) 0) ;;;
  tbRun o tb "seek start" (fun tb =>
    let* (setupFS, commit) := Setup_FS o tb in
    create_with tb setupFS "foo" "hello world" ;;;
    fs <- commit ;;
    file <- must_open tb fs "foo" ;;
    seek_and_read tb file 1 0 1 "ello world") ;;;
  tbRun o tb "seek current" (fun tb =>
    let* (setupFS, commit) := Setup_FS o tb in
    write_full tb setupFS "foo" "hello world" ;;;
    fs <- commit ;;
    file <- must_open tb fs "foo" ;;
    let* (_, e) := or_skip tb (hackpadfs.SeekFile file 5 0) in
    assert.NoError tb e ;;;
    let* (off, e) := hackpadfs.SeekFile file (-1) 1 in
    assert.NoError tb e ;;;
    assert.Equal tb 4%Z off ;;;
    let* (p, e) := hackpadfs.Read file (len "hello world") in
    assert.Equal tb true (bool_decide (e = None) || bool_decide (e = Some EOF)) ;;;
    assert.Equal tb (bytes_of "o world") p ;;;
    close_file tb file) ;;;
  tbRun o tb "seek end" (fun tb =>
    let* (setupFS, commit) := Setup_FS o tb in
    create_with tb setupFS "foo" "hello world" ;;;
    fs <- commit ;;
    file <- must_open tb fs "foo" ;;
    seek_and_read tb file (-1) 2 (len "hello world" + -1) "d").

(** ** [Write], [WriteAt] *)
Definition expect_n tb (contents : string) (r : Z * err) : TM unit :=
  let '(n, e) := r in
  assert.Equal tb (len contents) n ;;; assert.NoError tb e ;;; ret tt.

(** Open again, and read into a buffer of the length of what is expected. *)
Definition expect_read tb fs (contents : list byte) : TM unit :=
  file <- must_open tb fs "foo" ;;
  let size := Z.of_nat (length contents) in
  let* (p, _) := hackpadfs.Read file size in
  assert.Equal tb contents (buffer size p) ;;;
  close_file tb file.

Definition testFileWrite tb o (writer : option (File U) -> list byte -> TM (Z * err)) : TM unit :=
  tbRun o tb "write-read" (fun tb =>
    let* (setupFS, commit) := Setup_FS o tb in
    create_file tb setupFS "foo" ;;;
    fs <- commit ;;
    f <- must_open_file tb fs FlagReadWrite ;;
    r <- writer f (bytes_of "hello world") ;;
    expect_n tb "hello world" r ;;;
    close_file tb f ;;;
    expect_read tb fs (bytes_of "hello world")) ;;;
  tbRun o tb "write-truncate-write-read" (fun tb =>
    let* (setupFS, commit) := Setup_FS o tb in
    write_full tb setupFS "foo" "hello world" ;;;
    fs <- commit ;;
    file <- must_open_file tb fs (Z.lor FlagReadWrite FlagTruncate) ;;
    r <- writer file (bytes_of "hello world") ;;
    expect_n tb "hello world" r ;;;
    close_file tb file ;;;
    expect_read tb fs (bytes_of "hello world")).

Definition TestFileWrite tb o : TM unit :=
  testFileWrite tb o (fun file b => or_skip tb (hackpadfs.WriteFile file b)).

(** A file that the set-up created, opened for reading and writing. *)
Definition created_file o tb : TM (FS * option (File U)) :=
  let* (setupFS, commit) := Setup_FS o tb in
  create_file tb setupFS "foo" ;;;
  fs <- commit ;;
  file <- must_open_file tb fs FlagReadWrite ;; ret (fs, file).

Definition TestFileWriteAt tb o : TM unit :=
  tbRun o tb "negative offset" (fun tb =>
    let* (fs, file) := created_file o tb in
    let* (n, e) := hackpadfs.WriteAtFile file (bytes_of "hello") (-1) in
    assert.Equal tb 0%Z n ;;;
    assert.Error tb e ;;;
    close_file tb file ;;;
    assertEqualPathErr o tb "writeat" "foo" (Errorf "negative offset" []) e) ;;;
  tbRun o tb "no offset" (fun tb =>
    let* (fs, file) := created_file o tb in
    r <- hackpadfs.WriteAtFile file (bytes_of "hello world") 0 ;;
    expect_n tb "hello world" r ;;;
    close_file tb file ;;;
    expect_read tb fs (bytes_of "hello world")) ;;;
  tbRun o tb "offset inside file" (fun tb =>
    let* (fs, file) := created_file o tb in
    let* (_, e) := or_skip tb (hackpadfs.WriteAtFile file (bytes_of "hello world") 0) in
    assert.NoError tb e ;;;
    r <- hackpadfs.WriteAtFile file (bytes_of "hi") 5 ;;
    expect_n tb "hi" r ;;;
    close_file tb file ;;;
    expect_read tb fs (bytes_of "hellohiorld")) ;;;
  tbRun o tb "offset outside file" (fun tb =>
    let* (fs, file) := created_file o tb in
    r <- hackpadfs.WriteAtFile file (bytes_of "hello world") 5 ;;
    expect_n tb "hello world" r ;;;
    close_file tb file ;;;
    expect_read tb fs (replicate 5 zero ++ bytes_of "hello world")).

(** ** [ReadDir] *)
Definition list_dir tb (file : option (File U)) (n : Z) : TM (list DirEntry) :=
  let* (entries, e) := or_skip tb (hackpadfs.ReadDirFile file n) in
  assert.NoError tb e ;;; ret entries.
Definition list_and_close tb fs (name : string) (n : Z) : TM (list DirEntry) :=
  file <- must_open tb fs name ;;
  entries <- list_dir tb file n ;;
  close_file tb file ;;; ret entries.

Definition readdir_initial_root o tb : TM unit :=
  fs <- new_fs o tb ;;
  list_and_close tb fs "." 0 ;;; ret tt.

Definition readdir_root o tb : TM unit :=
  let* (setupFS, commit) := Setup_FS o tb in
  create_file tb setupFS "foo" ;;;
  mkdir tb setupFS "bar" (octal "700") ;;;
  fs <- commit ;;
  entries <- list_and_close tb fs "." 0 ;;
  infos <- asQuickDirInfos tb (merge_sort name_le entries) ;;
  assertSubsetQuickInfos o tb [q_dir "bar" "700"; q_file "foo" "666"] infos ;;; ret tt.

Definition readdir_batches o tb : TM unit :=
  let* (setupFS, commit) := Setup_FS o tb in
  create_file tb setupFS "foo" ;;;
  mkdir tb setupFS "bar" (octal "700") ;;;
  fs <- commit ;;
  file <- must_open tb fs "." ;;
  entries1 <- list_dir tb file 1 ;;
  entries2 <- list_dir tb file 1 ;;
  close_file tb file ;;;
  entriesAll <- list_and_close tb fs "." 0 ;;
  let entries := (entries1 ++ entries2)%list in
  assert.Equal tb 2 (length entries) ;;;
  infos <- asQuickDirInfos tb entries ;;
  infosAll <- asQuickDirInfos tb entriesAll ;;
  assertSubsetQuickInfos o tb infos infosAll ;;;
  infosAll <- asQuickDirInfos tb entriesAll ;;
  assertSubsetQuickInfos o tb [q_dir "bar" "700"; q_file "foo" "666"] infosAll ;;; ret tt.

Definition readdir_high_n o tb : TM unit :=
  let* (setupFS, commit) := Setup_FS o tb in
  mkdir tb setupFS "bar" (octal "700") ;;;
  fs <- commit ;;
  entries <- list_and_close tb fs "." 100000000 ;;
  infos <- asQuickDirInfos tb entries ;;
  assertSubsetQuickInfos o tb [q_dir "bar" "700"] infos ;;; ret tt.

Definition readdir_empty_subdir o tb : TM unit :=
  let* (setupFS, commit) := Setup_FS o tb in
  mkdir tb setupFS "foo" (octal "700") ;;;
  fs <- commit ;;
  entries <- list_and_close tb fs "foo" 0 ;;
  assert.Equal tb 0 (length entries) ;;; ret tt.

Definition readdir_subdir o tb : TM unit :=
  let* (setupFS, commit) := Setup_FS o tb in
  mkdir tb setupFS "foo" (octal "700") ;;;
  create_file tb setupFS "foo/bar" ;;;
  create_file tb setupFS "foo/baz" ;;;
  mkdir tb setupFS "foo/boo" (octal "700") ;;;
  fs <- commit ;;
  entries <- list_and_close tb fs "foo" 0 ;;
  infos <- asQuickDirInfos tb (merge_sort name_le entries) ;;
  assertEqualQuickInfos o tb [q_file "bar" "666"; q_file "baz" "666"; q_dir "boo" "700"] infos ;;;
  ret tt.

Definition readdir_on_file o tb : TM unit :=
  let* (setupFS, commit) := Setup_FS o tb in
  create_file tb setupFS "foo" ;;;
  fs <- commit ;;
  file <- must_open tb fs "foo" ;;
  tb_Cleanup tb (not_nil file f_Close) ;;;
  let* (entries, e) := or_skip tb (hackpadfs.ReadDirFile file 0) in
  expect_not_dir o tb e ;;;
  assert.Equal tb 0 (length entries) ;;; ret tt.

Definition TestFileReadDir tb o : TM unit :=
  tbRun o tb "list initial root" (readdir_initial_root o) ;;;
  tbRun o tb "list root" (readdir_root o) ;;;
  tbRun o tb "readdir batches" (readdir_batches o) ;;;
  tbRun o tb "readdir high N" (readdir_high_n o) ;;;
  tbRun o tb "list empty subdirectory" (readdir_empty_subdir o) ;;;
  tbRun o tb "list subdirectory" (readdir_subdir o) ;;;
  tbRun o tb "list on file" (readdir_on_file o).

(** ** [Stat], [Sync], [Truncate] *)
Definition TestFileStat tb o : TM unit :=
  testStat tb o (fun tb fs path =>
    let* (f, e) := hackpadfs.Open fs path in
    match e with
    | Some e => ret (None, Some e)
    | None => tb_Cleanup tb (not_nil f f_Close) ;;; hackpadfs.FileStat f
    end).

Definition TestFileSync tb o : TM unit :=
  let* (setupFS, commit) := Setup_FS o tb in
  create_with tb setupFS "foo" "hello world" ;;;
  fs <- commit ;;
  let* (file, e) :=
    match fs_OpenFile (env_methods fs) with
    | Some openFile => sys (openFile "foo" FlagWriteOnly 0%Z)
    | None => hackpadfs.Open fs "foo"
    end in
  assert.NoError tb e ;;;
  let* (_, e) := or_skip tb (hackpadfs.WriteFile file (bytes_of "hello")) in
  assert.NoError tb e ;;;
  expect_nil tb (hackpadfs.SyncFile file) ;;;
  close_file tb file.

Definition truncate_case o (size : Z) (expectErrKind : err) tb : TM unit :=
  let* (setupFS, commit) := Setup_FS o tb in
  create_with tb setupFS "foo" "hello world" ;;;
  fs <- commit ;;
  file <- must_open_file tb fs FlagReadWrite ;;
  e <- hackpadfs.TruncateFile file size ;;
  skipNotImplemented tb e ;;;
  close_file tb file ;;;
  match expectErrKind with
  | Some kind =>
      assert.Error tb e ;;;
      assertEqualPathErr o tb "truncate" "foo" kind e ;;;
      expect_fs o tb fs [("foo", a_file "666" (len "hello world"))]
  | None =>
      assert.NoError tb e ;;;
      expect_fs o tb fs [("foo", a_file "666" size)]
  end.

Definition TestFileTruncate tb o : TM unit :=
  tbRun o tb "negative size" (truncate_case o (-1) (Some ErrInvalid)) ;;;
  tbRun o tb "zero size" (truncate_case o 0 None) ;;;
  tbRun o tb "small size" (truncate_case o 1 None) ;;;
  tbRun o tb "too big" (truncate_case o (len "hello world" * 2) None).

(** ** The suite *)
Definition subtask : Type := TB -> Options -> TM unit.

Definition runner_Run o tb (task : string * subtask) : TM unit :=
  tbRun o tb task.1 (fun tb => task.2 tb o).
Fixpoint run_tasks o tb (tasks : list (string * subtask)) : TM unit :=
  match tasks with
  | [] => ret tt
  | task :: tasks => runner_Run o tb task ;;; run_tasks o tb tasks
  end.

(** The tests of [fs_concurrent.go] and [file_concurrent.go] are parameters:
    they run goroutines. *)
Definition fs_tests : list (string * subtask) := [
  ("base fs.Create", TestBaseCreate);
  ("base fs.Mkdir", TestBaseMkdir);
  ("base fs.Chmod", TestBaseChmod);
  ("base fs.Chtimes", TestBaseChtimes);
  ("fs.Chmod", TestChmod);
  ("fs.Chtimes", TestChtimes);
  ("fs.Create", TestCreate);
  ("fs.Mkdir", TestMkdir);
  ("fs.MkdirAll", TestMkdirAll);
  ("fs.Open", TestOpen);
  ("fs.OpenFile", TestOpenFile);
  ("fs.ReadDir", TestReadDir);
  ("fs.ReadFile", TestReadFile);
  ("fs.Remove", TestRemove);
  ("fs.RemoveAll", TestRemoveAll);
  ("fs.Rename", TestRename);
  ("fs.Stat", TestStat);
  ("fs.WriteFile", TestWriteFile)].
Definition runFS (concurrent : list (string * subtask)) tb o : TM unit :=
  run_tasks o tb (fs_tests ++ concurrent)%list.

Definition file_tests : list (string * subtask) := [
  ("base file.Close", TestFileClose);
  ("file.Read", TestFileRead);
  ("file.ReadAt", TestFileReadAt);
  ("file.Seek", TestFileSeek);
  ("file.Write", TestFileWrite);
  ("file.WriteAt", TestFileWriteAt);
  ("file.ReadDir", TestFileReadDir);
  ("file.Stat", TestFileStat);
  ("file.Sync", TestFileSync);
  ("file.Truncate", TestFileTruncate)].
Definition runFile (concurrent : list (string * subtask)) tb o : TM unit :=
  run_tasks o tb (file_tests ++ concurrent)%list.

Definition run_suite (suffix : string) (run : TB -> Options -> TM unit) tb o : TM (list string) :=
  let* (o, e) := setupOptions o in
  match e with
  | Some e => tb_Fatal tb (Error e)
  | None => tbRun o tb (Name o +:+ suffix) (fun tb => run tb o) ;;; generateTestData o
  end.
Definition FS_ (concurrent : list (string * subtask)) : TB -> Options -> TM (list string) :=
  run_suite "_FS" (runFS concurrent).
Definition File_ (concurrent : list (string * subtask)) : TB -> Options -> TM (list string) :=
  run_suite "_File" (runFile concurrent).
End tests.
