(* ===== verification/MemHack.v ===== *)
(** * Memory file systems as values of [hackpadfs.FS]
    ([mem/fs.go], [internal/mounttest])

    The helpers of [HackFS] and the file systems on top of others take the
    methods of a file system as a record.  Here are those of [mem.FS], run on
    the model of the key-value file system, and those of [allMountFS], the
    wrapper of a [mount.FS] that the tests of mount use.  So whole programs of
    several file systems can be run: a memory file system mounted in another,
    and the conformance suite on all of them. *)
From S2P Require Import Prelude.
From S2P Require Import Paths.
From S2P Require Import Errors.
From S2P Require Import Modes.
From S2P Require Import Blob.
From S2P Require Import Record.
From S2P Require Import Txn.
From S2P Require Import KVFile.
From S2P Require Import KVFS.
From S2P Require Import Mem.
From S2P Require Import HackFS.
From S2P Require Import Mount.

Local Open Scope string_scope.

(** All memory file systems of a program, each with its heap, the files opened
    so far, and the mounts that were wrapped. *)
Record universe := MkUniverse {
  systems : list (world store);
  files : list (nat * KVFile.handle store fileRecord);
  wrapped : list FS;
  u_now : Z
}.

Section hack.
Context `{!GoRuntime}.
Notation MW := (world store).
Notation F := (KVFile.file store fileRecord).
Notation W := (hworld universe).

Definition upd_user (f : universe -> universe) : M W unit :=
  modify (fun w => MkWorld (tables w) (f (user w))).

(** Run code of the [n]-th memory file system. *)
Definition on_system {A} (n : nat) (m : M MW A) : M W A := fun u =>
  match systems (user u) !! n with
  | None => nil_deref u
  | Some w =>
      let '(r, w') := m w in
      (r, MkWorld (tables u) (MkUniverse (<[n := w']> (systems (user u))) (files (user u))
                                (wrapped (user u)) (u_now (user u))))
  end.

(** Run a method of the [i]-th open file. *)
Definition on_handle {A} (i : nat) (m : M (F * MW) A) : M W A := fun u =>
  match files (user u) !! i with
  | None => nil_deref u
  | Some (n, h) =>
      match systems (user u) !! n with
      | None => nil_deref u
      | Some w =>
          let '(r, (f', w')) := m (underlying h, w) in
          (r, MkWorld (tables u) (MkUniverse (<[n := w']> (systems (user u)))
                                    (<[i := (n, MkHandle (kind h) f')]> (files (user u)))
                                    (wrapped (user u)) (u_now (user u))))
      end
  end.

(** ** Values *)

(** A file info answers the same as long as nobody changes the file. *)
Definition as_info (i : KVFile.fileInfo store fileRecord) : M MW FileInfo :=
  size <- info_Size i ;; mode <- info_Mode i ;; modTime <- info_ModTime i ;;
  ret (MkInfo (info_Name i) size mode modTime).

Definition as_entry (d : KVFile.dirEntry store fileRecord) : M MW DirEntry :=
  not_nil (entry_info d) (fun i =>
    info <- as_info i ;;
    ret (MkEntry (baseName d) (Type_ (fi_Mode info)) (Some info, None))).

Fixpoint as_entries (ds : list (KVFile.dirEntry store fileRecord)) : M MW (list DirEntry) :=
  match ds with
  | [] => ret []
  | d :: ds => x <- as_entry d ;; xs <- as_entries ds ;; ret (x :: xs)
  end.

(** ** The methods of an open file *)

(** A caller's buffer of the given length, and what is in it afterwards. *)
Definition into_buffer (len : Z) (m : slice -> M (F * MW) (Z * err)) :
    M (F * MW) (list byte * err) :=
  p <- in_world (in_heap (make_zeros len)) ;;
  let* (n, e) := m p in
  data <- in_world (in_heap (gets (fun h => read_slice h p))) ;;
  ret (take (Z.to_nat n) data, e).

Definition from_bytes (data : list byte) (m : slice -> M (F * MW) (Z * err)) : M (F * MW) (Z * err) :=
  p <- in_world (in_heap (make_slice data)) ;; m p.

Definition if_method {A} (k : access) (m : method) (f : A) : option A :=
  if has_method k m then Some f else None.

Definition as_file (i : nat) (k : access) : File W :=
  MkFile W
    (on_handle i (let* (info, e) := FileStat in
                  info <- in_world (as_info info) ;; ret (Some info, e)))
    (fun len => on_handle i (into_buffer len (handle_Read k)))
    (on_handle i Close)
    (if_method k MReadAt (fun len off => on_handle i (into_buffer len (fun p => ReadAt p off))))
    (if_method k MWrite (fun data => on_handle i (from_bytes data Write)))
    (if_method k MWriteAt (fun data off => on_handle i (from_bytes data (fun p => WriteAt p off))))
    (if_method k MReadDir (fun n => on_handle i (
       let* (entries, e) := KVFile.ReadDir n in
       entries <- in_world (as_entries entries) ;; ret (entries, e))))
    (if_method k MSeek (fun off whence => on_handle i (Seek off whence)))
    None
    (if_method k MTruncate (fun size => on_handle i (FileTruncate size)))
    (if_method k MChmod (fun mode => on_handle i (FileChmod mode)))
    None None.

(** ** The methods of [mem.FS] *)
Definition new_handle (n : nat) (r : option (KVFile.handle store fileRecord) * err) :
    M W (option (File W) * err) :=
  let '(h, e) := r in
  match h with
  | None => ret (None, e)
  | Some h =>
      i <- gets (fun w => length (files (user w))) ;;
      upd_user (fun u => MkUniverse (systems u) (files u ++ [(n, h)])%list (wrapped u) (u_now u)) ;;;
      ret (Some (as_file i (kind h)), e)
  end.

Definition mem_ops (fuel n : nat) : FSOps W :=
  MkOps W
    (fun name => r <- on_system n (FS_Open name) ;; new_handle n r)
    None
    (Some (fun name flag perm => r <- on_system n (FS_OpenFile name flag perm) ;; new_handle n r))
    None
    (Some (fun name perm => on_system n (FS_Mkdir name perm)))
    (Some (fun name perm => on_system n (FS_MkdirAll name perm)))
    (Some (fun name => on_system n (FS_Remove name)))
    None
    (Some (fun old new => on_system n (FS_Rename fuel old new)))
    (Some (fun name => on_system n (
       let* (info, e) := FS_Stat name in
       match info with
       | None => ret (None, e)
       | Some info => info <- as_info info ;; ret (Some info, e)
       end)))
    None
    (Some (fun name mode => on_system n (FS_Chmod name mode)))
    None
    (Some (fun name atime mtime => on_system n (FS_Chtimes name atime mtime)))
    None None None None None.

(** ** [mounttest.allMountFS]

    The [k]-th wrapper; what it does not have itself it has from the embedded
    [mount.FS]. *)
Definition with_wrapped {A} (k : nat) (m : FS -> M W A) : M W A :=
  fs <- gets (fun w => wrapped (user w) !! k) ;; not_nil fs m.

Section allMountFS.
Context (methods : FS -> FSOps W) (grow : Z -> nat -> Z) (fuel : nat).

Definition allMountFS_ops (k : nat) : FSOps W :=
  MkOps W
    (fun name => with_wrapped k (fun fs => fs_Open (methods fs) name))
    None
    (Some (fun name flag perm => with_wrapped k (fun fs => OpenFile methods fuel fs name flag perm)))
    (Some (fun name => with_wrapped k (fun fs => Create methods fuel fs name)))
    (Some (fun name perm => with_wrapped k (fun fs => Mkdir methods fuel fs name perm)))
    (Some (fun path perm => with_wrapped k (fun fs => MkdirAll methods fuel fs path perm)))
    (Some (fun name => with_wrapped k (fun fs => Remove methods fuel fs name)))
    None
    (Some (fun old new => with_wrapped k (fun fs => not_nil (fs_Rename (methods fs)) (fun f => f old new))))
    (Some (fun name => with_wrapped k (fun fs => Stat methods fuel fs name)))
    (Some (fun name => with_wrapped k (fun fs => Lstat methods fuel fs name)))
    (Some (fun name mode => with_wrapped k (fun fs => Chmod methods fuel fs name mode)))
    (Some (fun name uid gid => with_wrapped k (fun fs => Chown methods fuel fs name uid gid)))
    (Some (fun name atime mtime => with_wrapped k (fun fs => Chtimes methods fuel fs name atime mtime)))
    (Some (fun name => with_wrapped k (fun fs => ReadDir methods fuel fs name)))
    (Some (fun name => with_wrapped k (fun fs => ReadFile methods grow fuel fs name)))
    None None
    (Some (fun path => with_wrapped k (fun fs => not_nil (fs_Mount (methods fs)) (fun f => f path)))).
End allMountFS.

(** ** All file systems of the program

    [Other (2 * n)] is the [n]-th memory file system, [Other (2 * k + 1)] the
    [k]-th wrapper. *)
Context (grow : Z -> nat -> Z).

Fixpoint other_ops (fuel n : nat) : FSOps W :=
  match fuel with
  | 0 => stuck
  | S fuel' =>
      if Nat.even n then mem_ops fuel (Nat.div2 n)
      else allMountFS_ops (methods (other_ops fuel') fuel') grow fuel' (Nat.div2 n)
  end.
Definition all_methods (fuel : nat) : FS -> FSOps W := methods (other_ops fuel) fuel.

(** [mem.NewFS]: it returns the file system and the error. *)
Definition mem_NewFS : M W (FS * err) :=
  n <- gets (fun w => length (systems (user w))) ;;
  upd_user (fun u => MkUniverse (systems u ++ [new_world (u_now u)])%list (files u) (wrapped u) (u_now u)) ;;;
  e <- on_system n FS_NewFS ;; ret (Other (2 * n), e).

(** [mount.NewFS] never fails, and takes the next free table. *)
Definition mount_NewFS (rootFS : FS) : M W FS :=
  l <- gets (fun w => size (tables w)) ;; NewFS l rootFS.

(** [mounttest.NewFS] *)
Definition mounttest_NewFS (fs : FS) : M W FS :=
  k <- gets (fun w => length (wrapped (user w))) ;;
  upd_user (fun u => MkUniverse (systems u) (files u) (wrapped u ++ [fs])%list (u_now u)) ;;;
  ret (Other (2 * k + 1)).

Definition u_Now : M W Z := gets (fun w => u_now (user w)).
Definition new_universe (t : Z) : W := MkWorld ∅ (MkUniverse [] [] [] t).
End hack.
