(* ===== verification/TestLogic.v ===== *)
(** * What a test can do to a run of the suite

    A test leaves the tests that were there what they are, except that they can
    fail, and that those it may stop can be skipped; a failed test has failed
    parents; and of the tests it adds, those that are skipped are in the map of
    skipped tests.  [orderly] says this of a computation, with a postcondition
    on what it returns; it goes through all constructs that tests are made of. *)
From S2P Require Import Prelude.
From S2P Require Import Paths.
From S2P Require Import Errors.
From S2P Require Import Modes.
From S2P Require Import Blob.
From S2P Require Import HackFS.
From S2P Require Import Testing.
From S2P Require Import FSTest.

Local Open Scope string_scope.

Section table.
Context {U : Type}.
Implicit Types (ts : list (test U)) (s : suite U) (A : list TB).

(** Parents are older, and fail with their children. *)
Definition table_wf ts : Prop := forall i t p,
  ts !! i = Some t -> t_parent t = Some p ->
  p < i /\ exists tp, ts !! p = Some tp /\ (t_failed t = true -> t_failed tp = true).

(** A test [name] was skipped, and it is the [k]-th or a later one. *)
Definition skipped_from (k : nat) ts (name : string) : Prop :=
  exists i t, k <= i /\ ts !! i = Some t /\ t_skipped t = true /\ t_name t = name.

Definition grown (t t' : test U) : Prop :=
  t_name t' = t_name t /\ t_parent t' = t_parent t /\ t_isT t' = t_isT t /\
  (t_failed t = true -> t_failed t' = true).

Record tests_advance A ts ts' : Prop := {
  adv_old i t : ts !! i = Some t ->
    exists t', ts' !! i = Some t' /\ grown t t' /\ (i ∉ A -> t_skipped t' = t_skipped t);
  adv_new i t : length ts <= i -> ts' !! i = Some t ->
    exists p, t_parent t = Some p /\ (p ∈ A \/ length ts <= p);
  adv_wf : table_wf ts -> table_wf ts'
}.

(** The map [l] has what it had and the skipped tests from the [k]-th on. *)
Definition recorded (l k : nat) s s' : Prop := forall m, s_skips s !! l = Some m ->
  exists m', s_skips s' !! l = Some m' /\
    forall n, is_Some (m' !! n) <-> is_Some (m !! n) \/ skipped_from k (s_tests s') n.

Definition advances (l : nat) A s s' : Prop :=
  tests_advance A (s_tests s) (s_tests s') /\ recorded l (length (s_tests s)) s s'.

Definition below A ts : Prop := forall a, a ∈ A -> a < length ts.

Lemma grown_refl t : grown t t.
Proof. done. Qed.
Lemma grown_trans t t' t'' : grown t t' -> grown t' t'' -> grown t t''.
Proof. unfold grown. intros (? & ? & ? & ?) (? & ? & ? & ?). split_and!; [congruence..|auto]. Qed.

Lemma tests_advance_length A ts ts' : tests_advance A ts ts' -> length ts <= length ts'.
Proof.
  intros H. destruct (decide (length ts = 0)) as [->|Hl]; [lia|].
  destruct (lookup_lt_is_Some_2 ts (length ts - 1)) as [t Ht]; [lia|].
  destruct (adv_old _ _ _ H _ _ Ht) as (t' & Ht' & _). apply lookup_lt_Some in Ht'. lia.
Qed.

Lemma tests_advance_trans A ts1 ts2 ts3 :
  tests_advance A ts1 ts2 -> tests_advance A ts2 ts3 -> tests_advance A ts1 ts3.
Proof.
  intros H1 H2. pose proof (tests_advance_length _ _ _ H1). split.
  - intros i t Hi. destruct (adv_old _ _ _ H1 _ _ Hi) as (t' & Hi' & Hg & Hs).
    destruct (adv_old _ _ _ H2 _ _ Hi') as (t'' & Hi'' & Hg' & Hs').
    exists t''. split_and!; [done|by eapply grown_trans|]. intros. rewrite Hs' by done. auto.
  - intros i t Hl Hi. destruct (decide (length ts2 <= i)).
    + destruct (adv_new _ _ _ H2 i t) as (p & ? & [? | ?]); [done..| |]; exists p; (split; [done|]); [by left|].
      right. lia.
    + destruct (lookup_lt_is_Some_2 ts2 i) as [t' Hi']; [lia|].
      destruct (adv_old _ _ _ H2 _ _ Hi') as (t'' & Ht'' & (_ & Hp & _) & _). simplify_eq.
      rewrite Hp. by apply (adv_new _ _ _ H1 i).
  - intros Hw. by apply (adv_wf _ _ _ H2), (adv_wf _ _ _ H1).
Qed.

Lemma tests_advance_weaken A A' ts ts' :
  A ⊆ A' -> tests_advance A ts ts' -> tests_advance A' ts ts'.
Proof.
  intros HA H. split; [|..|apply (adv_wf _ _ _ H)].
  - intros i t Hi. destruct (adv_old _ _ _ H _ _ Hi) as (t' & ? & ? & ?). exists t'. set_solver.
  - intros i t Hl Hi. destruct (adv_new _ _ _ H _ _ Hl Hi) as (p & ? & ?). exists p. set_solver.
Qed.

Lemma tests_advance_refl A ts : tests_advance A ts ts.
Proof.
  split; [|..|done].
  - intros i t Hi. by exists t.
  - intros i t Hl Hi. apply lookup_lt_Some in Hi. lia.
Qed.

(** What was skipped stays what it is when nobody of [k] and later may be
    stopped any more. *)
Lemma skipped_advance A k ts ts' n :
  tests_advance A ts ts' -> (forall a, a ∈ A -> a < k) -> k <= length ts ->
  skipped_from k ts' n <-> skipped_from k ts n \/ skipped_from (length ts) ts' n.
Proof.
  intros H HA Hk. split.
  - intros (i & t & Hi & Ht & Hs & Hn). destruct (decide (length ts <= i)); [right; by exists i, t|left].
    destruct (lookup_lt_is_Some_2 ts i) as [t0 H0]; [lia|].
    destruct (adv_old _ _ _ H _ _ H0) as (t' & Ht' & (Hn' & _) & Hs'). simplify_eq.
    exists i, t0. rewrite <- Hs', <- Hn'; [done|]. intros HA'%HA. lia.
  - intros [(i & t & Hi & Ht & Hs & Hn) | (i & t & Hi & Ht & Hs & Hn)].
    + destruct (adv_old _ _ _ H _ _ Ht) as (t' & Ht' & (Hn' & _) & Hs').
      exists i, t'. rewrite Hs', Hn'; [done|]. intros HA'%HA. lia.
    + exists i, t. split_and!; [lia|done..].
Qed.

Lemma recorded_trans l A k s1 s2 s3 :
  tests_advance A (s_tests s2) (s_tests s3) -> (forall a, a ∈ A -> a < k) -> k <= length (s_tests s2) ->
  recorded l k s1 s2 -> recorded l (length (s_tests s2)) s2 s3 -> recorded l k s1 s3.
Proof.
  intros Ha HA Hk H1 H2 m Hm. destruct (H1 m Hm) as (m2 & Hm2 & E2).
  destruct (H2 m2 Hm2) as (m3 & Hm3 & E3). exists m3. split; [done|]. intros n.
  rewrite E3, E2, (skipped_advance A k _ _ n Ha HA Hk). tauto.
Qed.

Lemma recorded_refl l s : recorded l (length (s_tests s)) s s.
Proof.
  intros m Hm. exists m. split; [done|]. intros n. split; [by left|]. intros [? | (i & t & Hi & Ht & _)]; [done|].
  apply lookup_lt_Some in Ht. lia.
Qed.

Lemma advances_refl l A s : advances l A s s.
Proof. split; [apply tests_advance_refl|apply recorded_refl]. Qed.

Lemma advances_trans l A s1 s2 s3 :
  below A (s_tests s1) -> advances l A s1 s2 -> advances l A s2 s3 -> advances l A s1 s3.
Proof.
  intros HA [H1 R1] [H2 R2]. split; [by eapply tests_advance_trans|].
  eapply recorded_trans; try done. by eapply tests_advance_length.
Qed.

Lemma advances_weaken l A A' s s' : A ⊆ A' -> advances l A s s' -> advances l A' s s'.
Proof. intros HA [? ?]. split; [by eapply tests_advance_weaken|done]. Qed.

(** Changing one test in place. *)
Lemma tests_advance_alter A ts tb (f : test U -> test U) :
  (forall t, grown t (f t) /\ (t_failed (f t) = true -> t_failed t = true) /\
             (tb ∉ A -> t_skipped (f t) = t_skipped t)) ->
  tests_advance A ts (alter f tb ts).
Proof.
  intros Hf. split.
  - intros i t Hi. destruct (decide (i = tb)) as [->|].
    + exists (f t). rewrite list_lookup_alter_eq, Hi. split_and!; [done|apply Hf|apply Hf].
    + exists t. rewrite list_lookup_alter_ne by done. by split_and!.
  - intros i t Hl Hi. apply lookup_lt_Some in Hi. rewrite length_alter in Hi. lia.
  - intros Hw i t p Hi Hp.
    assert (exists t0, ts !! i = Some t0 /\ t_parent t0 = Some p /\ (t_failed t = true -> t_failed t0 = true))
      as (t0 & H0 & Hp0 & Hf0).
    { destruct (decide (i = tb)) as [->|].
      - rewrite list_lookup_alter_eq in Hi. destruct (ts !! tb) as [t0|] eqn:E; simplify_eq/=.
        exists t0. destruct (Hf t0) as ((_ & Hp0 & _) & ? & _). rewrite Hp0 in Hp. by split_and!.
      - rewrite list_lookup_alter_ne in Hi by done. by exists t. }
    destruct (Hw i t0 p H0 Hp0) as (? & tp & Htp & Hfp). split; [done|].
    destruct (decide (p = tb)) as [->|].
    + exists (f tp). rewrite list_lookup_alter_eq, Htp. split; [done|]. intros.
      apply (Hf tp), Hfp. auto.
    + exists tp. rewrite list_lookup_alter_ne by done. auto.
Qed.

(** [Fail] *)
Lemma fail_from_spec fuel tb ts : table_wf ts -> tb < fuel ->
  table_wf (fail_from fuel tb ts) /\
  (forall i t, ts !! i = Some t -> exists t', fail_from fuel tb ts !! i = Some t' /\
     grown t t' /\ t_skipped t' = t_skipped t) /\
  length (fail_from fuel tb ts) = length ts /\
  (forall t, fail_from fuel tb ts !! tb = Some t -> t_failed t = true).
Proof.
  revert tb ts. induction fuel as [|fuel IH]; intros tb ts Hw Hl; [lia|]. simpl.
  destruct (ts !! tb) as [t|] eqn:Et; [|split_and!; [done|intros i t Hi; by exists t|done|intros; congruence]].
  set (ts1 := match t_parent t with Some p => fail_from fuel p ts | None => ts end).
  assert (table_wf ts1 /\
    (forall i t, ts !! i = Some t -> exists t', ts1 !! i = Some t' /\ grown t t' /\ t_skipped t' = t_skipped t) /\
    length ts1 = length ts /\
    (forall p tp, t_parent t = Some p -> ts1 !! p = Some tp -> t_failed tp = true)) as (Hw1 & Hg & Hlen & Hp).
  { subst ts1. destruct (t_parent t) as [p|] eqn:Ep; [|split_and!; [done|intros i t' Hi; by exists t'|done..]].
    destruct (Hw tb t p Et Ep) as [Hlt _].
    destruct (IH p ts Hw) as (? & ? & ? & ?); [lia|]. split_and!; [done..|]. intros ? tp [= <-]. auto. }
  destruct (Hg tb t Et) as (t1 & Ht1 & (_ & Hp1 & _) & _). rewrite length_alter. split_and!; [|..|done|].
  - intros i x p Hi Hx. destruct (decide (i = tb)) as [->|].
    + rewrite list_lookup_alter_eq, Ht1 in Hi. simplify_eq/=. rewrite Hp1 in Hx.
      destruct (Hw1 tb t1 p Ht1) as (? & tp & Htp & _); [congruence|]. split; [done|].
      exists tp. rewrite list_lookup_alter_ne by lia. split; [done|]. intros _. by eapply Hp.
    + rewrite list_lookup_alter_ne in Hi by done. destruct (Hw1 i x p Hi Hx) as (? & tp & Htp & ?).
      split; [done|]. destruct (decide (p = tb)) as [->|].
      * exists (set_failed tp). by rewrite list_lookup_alter_eq, Htp.
      * exists tp. by rewrite list_lookup_alter_ne.
  - intros i x Hi. destruct (Hg i x Hi) as (x1 & Hx1 & Hgx & Hsx). destruct (decide (i = tb)) as [->|].
    + exists (set_failed x1). rewrite list_lookup_alter_eq, Hx1. split_and!; [done| |done].
      eapply grown_trans; [done|]. done.
    + exists x1. by rewrite list_lookup_alter_ne.
  - intros x. rewrite list_lookup_alter_eq, Ht1. by intros [= <-].
Qed.

(** A table in which something is known about every test of another. *)
Lemma tests_advance_in_place A ts ts' :
  length ts' = length ts -> (table_wf ts -> table_wf ts') ->
  (forall i t, ts !! i = Some t -> exists t', ts' !! i = Some t' /\ grown t t' /\ t_skipped t' = t_skipped t) ->
  tests_advance A ts ts'.
Proof.
  intros Hl Hw H. split; [|..|done].
  - intros i t Hi. destruct (H i t Hi) as (t' & ? & ? & ?). by exists t'.
  - intros i t Hi Hi'. apply lookup_lt_Some in Hi'. lia.
Qed.
End table.

(** ** Computations *)
Definition orderly {U X} (l : nat) (A : list TB) (Q : X -> Prop) (m : M (suite U) X) : Prop :=
  forall s r s', table_wf (s_tests s) -> below A (s_tests s) -> m s = (r, s') ->
  match r with
  | Ret a => advances l A s s' /\ Q a
  | Panic _ => advances l A s s'
  | _ => True
  end.

Section orderly.
Context {U : Type} (l : nat).
Notation TM := (M (suite U)).
Notation any := (fun _ => True).

Lemma orderly_weaken {X} A A' (Q Q' : X -> Prop) (m : TM X) :
  A ⊆ A' -> (forall x, Q x -> Q' x) -> orderly l A Q m -> orderly l A' Q' m.
Proof.
  intros HA HQ H s r s' Hw Hb E.
  assert (below A (s_tests s)) as Hb' by (intros a Ha; by apply Hb, HA).
  specialize (H s r s' Hw Hb' E). destruct r; [destruct H; split|..]; eauto using advances_weaken.
Qed.
Lemma orderly_any {X} A (Q : X -> Prop) (m : TM X) : orderly l A Q m -> orderly l A any m.
Proof. by apply orderly_weaken. Qed.

Lemma orderly_ret {X} A (Q : X -> Prop) (x : X) : Q x -> orderly l A Q (ret (S := suite U) x).
Proof. intros HQ s r s' _ _ [= <- <-]. split; [apply advances_refl|done]. Qed.
Lemma orderly_panic {X} A (Q : X -> Prop) why : orderly l A Q (panic (S := suite U) why).
Proof. intros s r s' _ _ [= <- <-]. apply advances_refl. Qed.
Lemma orderly_out_of_fuel {X} A (Q : X -> Prop) : orderly l A Q (out_of_fuel (S := suite U)).
Proof. by intros s r s' _ _ [= <- <-]. Qed.
Lemma orderly_gets {X} A (f : suite U -> X) : orderly l A any (gets f).
Proof. intros s r s' _ _ [= <- <-]. split; [apply advances_refl|done]. Qed.

Lemma below_advance A (s s' : suite U) : advances l A s s' -> below A (s_tests s) -> below A (s_tests s').
Proof.
  intros [H _] Hb a Ha%Hb. pose proof (tests_advance_length _ _ _ H). lia.
Qed.

(** Go on from a state that was reached. *)
Lemma orderly_after {X} A (Q : X -> Prop) (m : TM X) s s1 r s' :
  table_wf (s_tests s) -> below A (s_tests s) -> advances l A s s1 -> orderly l A Q m -> m s1 = (r, s') ->
  match r with
  | Ret a => advances l A s s' /\ Q a
  | Panic _ => advances l A s s'
  | _ => True
  end.
Proof.
  intros Hw Hb Ha Hm E.
  pose proof (Hm s1 r s' (adv_wf _ _ _ (proj1 Ha) Hw) (below_advance _ _ _ Ha Hb) E) as H.
  destruct r; [destruct H; split; [|done]|..]; try done; by eapply advances_trans.
Qed.

Lemma orderly_bind {X Y} A (Q : X -> Prop) (Q' : Y -> Prop) (m : TM X) (k : X -> TM Y) :
  orderly l A Q m -> (forall x, Q x -> orderly l A Q' (k x)) -> orderly l A Q' (bind m k).
Proof.
  intros Hm Hk s r s' Hw Hb E. unfold bind in E. pose proof (fun r s1 => Hm s r s1 Hw Hb) as H.
  destruct (m s) as [[x|why| |] s1]; specialize (H _ _ eq_refl); [|by injection E as <- <-..].
  destruct H as [Ha HQ].
  by eapply orderly_after; [| |exact Ha|apply Hk|].
Qed.

Lemma orderly_not_nil {X Y} A (Q : Y -> Prop) (x : option X) (k : X -> TM Y) :
  (forall a, orderly l A Q (k a)) -> orderly l A Q (not_nil x k).
Proof. intros Hk. destruct x; [apply Hk|apply orderly_panic]. Qed.

Lemma orderly_deferred {X} A (Q : X -> Prop) (after : TM unit) (body : TM X) :
  orderly l A any after -> orderly l A Q body -> orderly l A Q (deferred after body).
Proof.
  intros Ha Hb s r s' Hw Hl E. unfold deferred in E. pose proof (fun r s1 => Hb s r s1 Hw Hl) as H.
  destruct (body s) as [[x|why| |] s1]; specialize (H _ _ eq_refl); [| |by injection E as <- <-..].
  - destruct H as [H1 HQ]. eapply orderly_after; [exact Hw|exact Hl|exact H1| |exact E].
    eapply orderly_bind; [exact Ha|intros; by apply orderly_ret].
  - eapply orderly_after; [exact Hw|exact Hl|exact H| |exact E].
    eapply orderly_bind; [exact Ha|intros; by apply orderly_panic].
Qed.

(** *** The operations of [testing.TB] *)

(** Steps that change neither tests nor skips. *)
Lemma advances_same A (s s' : suite U) :
  s_tests s' = s_tests s -> s_skips s' = s_skips s -> advances l A s s'.
Proof.
  intros Et Es. unfold advances. rewrite Et. split; [apply tests_advance_refl|].
  pose proof (recorded_refl l s) as H. unfold recorded in *. by rewrite Et, Es.
Qed.
Lemma orderly_sys {X} A (m : M U X) : orderly l A any (sys m).
Proof.
  intros s r s' _ _ E. unfold sys, zoom in E. destruct (m (s_sys s)) as [r0 u]. simplify_eq.
  pose proof (advances_same A s (MkSuite u (s_tests s) (s_log s) (s_skips s)) eq_refl eq_refl).
  by destruct r.
Qed.
Lemma orderly_log A tb line : orderly l A any (tb_log (U := U) tb line).
Proof. intros s r s' _ _ [= <- <-]. split; [by apply advances_same|done]. Qed.

Lemma orderly_upd A (f : list (test U) -> list (test U)) :
  (forall ts, table_wf ts -> length (f ts) = length ts /\ tests_advance A ts (f ts)) ->
  orderly l A any (upd_tests f).
Proof.
  intros Hf s r s' Hw Hb [= <- <-]. split; [|done]. destruct (Hf _ Hw) as [Hl Ha].
  split; [done|]. intros m Hm. exists m. split; [done|]. intros n. split; [by left|].
  intros [? | (i & t & Hi & Ht & _)]; [done|]. simpl in Ht. apply lookup_lt_Some in Ht. lia.
Qed.
Lemma orderly_alter A tb (f : test U -> test U) :
  (forall t, grown t (f t) /\ (t_failed (f t) = true -> t_failed t = true) /\
             (tb ∉ A -> t_skipped (f t) = t_skipped t)) ->
  orderly l A any (upd_tests (alter f tb)).
Proof.
  intros Hf. apply orderly_upd. intros ts _. split; [apply length_alter|by apply tests_advance_alter].
Qed.
Lemma orderly_finished A tb : orderly l A any (upd_tests (U := U) (alter set_finished tb)).
Proof. by apply orderly_alter. Qed.
Lemma orderly_Cleanup A tb close : orderly l A any (tb_Cleanup (U := U) tb close).
Proof. by apply orderly_alter. Qed.
Lemma orderly_Fail A tb : orderly l A any (tb_Fail (U := U) tb).
Proof.
  apply orderly_upd. intros ts Hw. destruct (fail_from_spec (S tb) tb ts Hw) as (? & ? & ? & _); [lia|].
  split; [done|]. by apply tests_advance_in_place.
Qed.

Lemma orderly_Errorf A tb line : orderly l A any (tb_Errorf (U := U) tb line).
Proof. eapply orderly_bind; [apply orderly_log|intros; apply orderly_Fail]. Qed.
Lemma orderly_FailNow {X} A (Q : X -> Prop) tb : orderly l A Q (tb_FailNow (U := U) tb).
Proof.
  eapply orderly_bind; [apply orderly_Fail|intros _ _].
  eapply orderly_bind; [apply orderly_finished|intros; apply orderly_panic].
Qed.
Lemma orderly_Fatal {X} A (Q : X -> Prop) tb line : orderly l A Q (tb_Fatal (U := U) tb line).
Proof. eapply orderly_bind; [apply orderly_log|intros; apply orderly_FailNow]. Qed.
Lemma orderly_Skip {X} A (Q : X -> Prop) tb line :
  tb ∈ A -> orderly l A Q (tb_Skip (U := U) tb line).
Proof.
  intros HA. eapply orderly_bind; [apply orderly_log|intros _ _].
  eapply orderly_bind; [|intros; apply orderly_panic]. by apply orderly_alter.
Qed.
Lemma orderly_get_test A tb : orderly l A any (get_test (U := U) tb).
Proof.
  eapply orderly_bind; [apply orderly_gets|intros t _]. apply orderly_not_nil. intros; by apply orderly_ret.
Qed.
Lemma orderly_skipNotImplemented A tb e : tb ∈ A -> orderly l A any (skipNotImplemented (U := U) tb e).
Proof. intros HA. unfold skipNotImplemented. case_match; [by apply orderly_Skip|by apply orderly_ret]. Qed.
Lemma orderly_when A (c : TM bool) (body : TM unit) :
  orderly l A any c -> orderly l A any body -> orderly l A any (when c body).
Proof.
  intros Hc Hb. eapply orderly_bind; [done|]. intros [] _; [done|by apply orderly_ret].
Qed.

(** *** Assertions *)
Lemma orderly_fail_with A tb args format : orderly l A any (assert.fail_with (U := U) tb args format).
Proof.
  eapply (orderly_bind _ any); [destruct args; [by apply orderly_ret|apply orderly_Errorf]|intros _ _].
  eapply orderly_bind; [apply orderly_Errorf|intros; by apply orderly_ret].
Qed.
Lemma orderly_check A tb (b : bool) format :
  orderly l A any (if b then ret true else assert.fail_with (U := U) tb [] format).
Proof. destruct b; [by apply orderly_ret|apply orderly_fail_with]. Qed.
Lemma orderly_NoError A tb e : orderly l A any (assert.NoError (U := U) tb e).
Proof. destruct e; [apply orderly_fail_with|by apply orderly_ret]. Qed.
Lemma orderly_Error A tb e : orderly l A any (assert.Error (U := U) tb e).
Proof. destruct e; [by apply orderly_ret|apply orderly_fail_with]. Qed.
Lemma orderly_Equal {X} `{EqDecision X} A tb (x y : X) : orderly l A any (assert.Equal (U := U) tb x y).
Proof. apply orderly_check. Qed.
Lemma orderly_NotZero {X} `{IsZero X} A tb (x : X) : orderly l A any (assert.NotZero (U := U) tb x).
Proof. unfold assert.NotZero. case_match; [apply orderly_fail_with|by apply orderly_ret]. Qed.
Lemma orderly_Contains {X} `{EqDecision X} A tb (xs : list X) x :
  orderly l A any (assert.Contains (U := U) tb xs x).
Proof. apply orderly_check. Qed.
Lemma orderly_IsType A tb expected e : orderly l A any (assert.IsType (U := U) tb expected e).
Proof. apply orderly_check. Qed.
Lemma orderly_Suffix A tb x y : orderly l A any (assert.Suffix (U := U) tb x y).
Proof. apply orderly_check. Qed.
Lemma orderly_Subset {X} `{EqDecision X} A tb (xs ys : list X) :
  orderly l A any (assert.Subset (U := U) tb xs ys).
Proof. apply orderly_check. Qed.
Lemma orderly_SubsetMap {X} `{EqDecision X, !GoRuntime} A tb (xs ys : gmap string X) :
  orderly l A any (assert.SubsetMap (U := U) tb xs ys).
Proof. apply orderly_check. Qed.
Lemma orderly_ErrorIs A tb target e : orderly l A any (assert.ErrorIs (U := U) tb target e).
Proof. apply orderly_check. Qed.
Lemma orderly_NotPanics A tb (fn : TM unit) :
  orderly l A any fn -> orderly l A any (assert.NotPanics tb fn).
Proof.
  intros Hf s r s' Hw Hb E. unfold assert.NotPanics in E. pose proof (fun r s1 => Hf s r s1 Hw Hb) as H.
  destruct (fn s) as [[u|why| |] s1]; specialize (H _ _ eq_refl); [| |by injection E as <- <-..].
  - injection E as <- <-. by destruct H.
  - destruct (why =? goexit); [by injection E as <- <-|].
    eapply orderly_after; [exact Hw|exact Hb|exact H|apply orderly_fail_with|exact E].
Qed.

(** *** Running a test *)
Lemma orderly_cleanup_loop A fuel tb : orderly l A any (cleanup_loop (U := U) fuel tb).
Proof.
  induction fuel as [|fuel IH]; [by apply orderly_ret|].
  eapply orderly_bind; [apply orderly_get_test|intros t _]. destruct (t_cleanups t); [by apply orderly_ret|].
  eapply orderly_bind; [by apply orderly_alter|intros _ _].
  eapply orderly_bind; [apply orderly_sys|intros e _].
  eapply orderly_bind; [apply orderly_NoError|intros _ _]. exact IH.
Qed.
Lemma orderly_run_cleanups A tb : orderly l A any (run_cleanups (U := U) tb).
Proof. eapply orderly_bind; [apply orderly_get_test|intros t _]. apply orderly_cleanup_loop. Qed.

(** A computation that also stores the [k]-th test if it is skipped. *)
Definition stores_own (A : list TB) (k : nat) (m : TM unit) : Prop := forall s r s',
  table_wf (s_tests s) -> below A (s_tests s) -> length (s_tests s) = S k -> m s = (r, s') ->
  match r with
  | Ret _ | Panic _ => tests_advance A (s_tests s) (s_tests s') /\ recorded l k s s'
  | _ => True
  end.

(** Orderly steps that stop nobody may follow. *)
Lemma stores_own_after A k (m : TM unit) s s1 :
  table_wf (s_tests s) -> length (s_tests s) = S k -> tests_advance A (s_tests s) (s_tests s1) ->
  recorded l k s s1 -> orderly l [] any m -> forall r s', m s1 = (r, s') ->
  match r with
  | Ret _ | Panic _ => tests_advance A (s_tests s) (s_tests s') /\ recorded l k s s'
  | _ => True
  end.
Proof.
  intros Hw Hk Ht Hr Hm r s' E. pose proof (tests_advance_length _ _ _ Ht) as Hlen.
  assert (advances l [] s1 s' -> tests_advance A (s_tests s) (s_tests s') /\ recorded l k s s') as H.
  { intros [Ht' Hr']. split.
    - eapply tests_advance_trans; [done|]. eapply tests_advance_weaken, Ht'. set_solver.
    - eapply recorded_trans; [exact Ht'|set_solver|lia|done|done]. }
  assert (below [] (s_tests s1)) as Hb by (intros ?; set_solver).
  pose proof (Hm s1 r s' (adv_wf _ _ _ Ht Hw) Hb E) as Ha.
  destruct r; try done; apply H; [by destruct Ha|done].
Qed.

(** What [tbRunInner] does when the test is over. *)
Definition store_if_skipped (k : nat) (facets : string) : TM unit :=
  skipped <- tb_Skipped k ;; if (skipped : bool) then store_skip l facets else ret tt.

Lemma skipped_from_S k (ts : list (test U)) t n : ts !! k = Some t ->
  skipped_from k ts n <-> skipped_from (S k) ts n \/ (t_skipped t = true /\ t_name t = n).
Proof.
  intros Ht. split.
  - intros (i & x & Hi & Hx & Hs & Hn). destruct (decide (i = k)) as [->|]; [right; by simplify_eq|].
    left. exists i, x. split_and!; [lia|done..].
  - intros [(i & x & Hi & Hx & Hs & Hn) | [Hs Hn]]; [exists i, x; split_and!; [lia|done..]|].
    by exists k, t.
Qed.

Lemma store_if_skipped_run k facets s s1 t :
  s_tests s1 !! k = Some t -> t_name t = facets -> recorded l (S k) s s1 ->
  exists s', store_if_skipped k facets s1 = (Ret tt, s') /\ s_tests s' = s_tests s1 /\ recorded l k s s'.
Proof.
  intros Ht Hn Hr. unfold store_if_skipped, tb_Skipped, get_test. go_simpl. rewrite Ht. simpl. go_simpl.
  destruct (t_skipped t) eqn:Es; eexists; (split; [reflexivity|]; split; [done|]); intros m Hm;
    destruct (Hr m Hm) as (m' & Hm' & E).
  - exists (<[facets:=tt]> m'). simpl. rewrite list_lookup_alter_eq, Hm'. split; [done|]. intros n.
    rewrite lookup_insert_is_Some', E, (skipped_from_S k _ t n Ht), Es. naive_solver.
  - exists m'. split; [done|]. intros n. rewrite E. simpl. rewrite (skipped_from_S k _ t n Ht), Es. naive_solver.
Qed.

(** [tbRunInner] on a fresh test. *)
Lemma stores_own_Inner (o : FSOptions U) A k (sub : TB -> TM unit) :
  skippedTests o = l -> k ∈ A -> orderly l A any (sub k) -> stores_own A k (tbRunInner o k sub).
Proof.
  intros Ho HA Hsub s r s' Hw Hb Hk E.
  destruct (lookup_lt_is_Some_2 (s_tests s) k) as [t Ht]; [lia|].
  set (body := not_nil (ShouldSkip o) (fun shouldSkip =>
       if shouldSkip (t_name t) then tb_Skip k "FSOption.ShouldSkip: %#v" else sub k)).
  assert (tbRunInner o k sub s = deferred (store_if_skipped k (t_name t)) body s) as E'.
  { unfold tbRunInner, tb_Name, get_test. go_simpl. rewrite Ht. simpl. go_simpl. by rewrite Ho. }
  rewrite E' in E. clear E'.
  assert (orderly l A any body) as Hbody.
  { apply orderly_not_nil. intros shouldSkip. case_match; [by apply orderly_Skip|done]. }
  unfold deferred in E. pose proof (fun r s1 => Hbody s r s1 Hw Hb) as H.
  assert (forall s1, advances l A s s1 -> exists s2,
    store_if_skipped k (t_name t) s1 = (Ret tt, s2) /\
    tests_advance A (s_tests s) (s_tests s2) /\ recorded l k s s2) as Hstore.
  { intros s1 [Ht1 Hr1]. destruct (adv_old _ _ _ Ht1 _ _ Ht) as (t1 & Hk1 & (Hn & _) & _).
    rewrite Hk in Hr1. destruct (store_if_skipped_run k (t_name t) s s1 t1 Hk1 Hn Hr1)
      as (s2 & E2 & Et & Hr2). exists s2. by rewrite Et. }
  destruct (body s) as [[x|why| |] s1]; specialize (H _ _ eq_refl); [..|by injection E as <- <-|by injection E as <- <-].
  - destruct (Hstore s1 (proj1 H)) as (s2 & E2 & Hst). rewrite (bind_Ret _ _ _ _ _ E2) in E.
    by injection E as <- <-.
  - destruct (Hstore s1 H) as (s2 & E2 & Hst). rewrite (bind_Ret _ _ _ _ _ E2) in E.
    by injection E as <- <-.
Qed.

Lemma orderly_exited A (m : TM unit) : orderly l A any m -> orderly l A any (exited m).
Proof.
  intros Hm s r s' Hw Hb E. unfold exited in E. pose proof (fun r s1 => Hm s r s1 Hw Hb) as H.
  destruct (m s) as [[x|why| |] s1]; specialize (H _ _ eq_refl); [| |by injection E as <- <-..].
  - injection E as <- <-. by destruct H.
  - destruct (why =? goexit); by injection E as <- <-.
Qed.

(** The end of [tRunner]. *)
Definition runner_end (tb : TB) (left : bool) : TM unit :=
  if left then
    t <- get_test tb ;;
    if t_finished t then ret tt
    else
      stopped <- gets (fun s => ancestor_finished tb (t_parent t) (s_tests s)) ;;
      if (stopped : bool) then
        tb_Errorf tb "%v: subtest may have called FailNow on a parent test" ;;; Goexit
      else panic "test executed panic(nil) or runtime.Goexit"
  else upd_tests (alter set_finished tb).

Lemma orderly_runner_end A tb left : orderly l A any (runner_end tb left).
Proof.
  destruct left; [|apply orderly_finished].
  eapply orderly_bind; [apply orderly_get_test|intros t _]. destruct (t_finished t); [by apply orderly_ret|].
  eapply orderly_bind; [apply orderly_gets|intros [] _]; [|apply orderly_panic].
  eapply orderly_bind; [apply orderly_Errorf|intros _ _]. apply orderly_panic.
Qed.

Definition runner_rest (tb : TB) (again : TM unit) : TM unit :=
  left <- exited (run_cleanups tb ;;; again) ;; runner_end tb left.

Lemma orderly_runner_rest A tb again : orderly l A any again -> orderly l A any (runner_rest tb again).
Proof.
  intros Ha. eapply (orderly_bind _ any); [apply orderly_exited|intros; apply orderly_runner_end].
  by eapply (orderly_bind _ any); [apply orderly_run_cleanups|].
Qed.

Lemma stores_own_tRunner A k (fn : TM unit) : stores_own A k fn -> stores_own A k (tRunner k fn).
Proof.
  intros Hfn s r s' Hw Hb Hk E.
  assert (tRunner k fn s = match fn s with
    | (Ret u, s1) => runner_rest k (ret u) s1
    | (Panic why, s1) => runner_rest k (panic why) s1
    | (Blocked, s1) => (Blocked, s1)
    | (OutOfFuel, s1) => (OutOfFuel, s1)
    end) as E'.
  { unfold tRunner, runner_rest, bind at 1 3, exited, deferred. by destruct (fn s) as [[]?]. }
  rewrite E' in E. clear E'. pose proof (fun r s1 => Hfn s r s1 Hw Hb Hk) as H.
  destruct (fn s) as [[u|why| |] s1]; specialize (H _ _ eq_refl); [| |by injection E as <- <-..].
  - destruct H as [Ht Hr]. eapply (stores_own_after A k _ s s1 Hw Hk Ht Hr); [|exact E].
    by apply orderly_runner_rest, orderly_ret.
  - destruct H as [Ht Hr]. eapply (stores_own_after A k _ s s1 Hw Hk Ht Hr); [|exact E].
    by apply orderly_runner_rest, orderly_panic.
Qed.

Lemma tests_advance_snoc A (ts : list (test U)) t p :
  t_parent t = Some p -> p ∈ A -> p < length ts -> t_failed t = false ->
  tests_advance A ts (ts ++ [t]).
Proof.
  intros Hp HA Hlt Hf. split.
  - intros i x Hi. exists x. split; [|done]. by apply lookup_app_l_Some.
  - intros i x Hl [Hi | [Hi Hx]]%lookup_app_Some; [apply lookup_lt_Some in Hi; lia|].
    apply list_lookup_singleton_Some in Hx as [_ <-]. exists p. auto.
  - intros Hw i x q [Hi | [Hi Hx]]%lookup_app_Some Hq.
    + destruct (Hw i x q Hi Hq) as (? & tp & Htp & ?). split; [done|]. exists tp.
      split; [by apply lookup_app_l_Some|done].
    + apply list_lookup_singleton_Some in Hx as [Hi' <-]. assert (q = p) as -> by congruence.
      split; [lia|]. destruct (lookup_lt_is_Some_2 ts p) as [tp Htp]; [done|]. exists tp.
      split; [by apply lookup_app_l_Some|congruence].
Qed.

(** A child may be stopped by itself, but that is not seen from outside. *)
Lemma tests_advance_child A (ts ts1 ts2 : list (test U)) :
  tests_advance A ts ts1 -> length ts1 = S (length ts) -> tests_advance (length ts :: A) ts1 ts2 ->
  tests_advance A ts ts2.
Proof.
  intros H1 Hl H2. split.
  - intros i t Hi. destruct (adv_old _ _ _ H1 _ _ Hi) as (t1 & Hi1 & Hg & Hs).
    destruct (adv_old _ _ _ H2 _ _ Hi1) as (t2 & Hi2 & Hg2 & Hs2). exists t2.
    split_and!; [done|by eapply grown_trans|]. intros HA. rewrite Hs2; [auto|].
    apply lookup_lt_Some in Hi. rewrite not_elem_of_cons. split; [lia|done].
  - intros i t Hi Ht. destruct (decide (i = length ts)) as [->|].
    + destruct (lookup_lt_is_Some_2 ts1 (length ts)) as [t1 Ht1]; [lia|].
      destruct (adv_new _ _ _ H1 _ _ Hi Ht1) as (p & Hp & Hor).
      destruct (adv_old _ _ _ H2 _ _ Ht1) as (t2 & ? & (_ & Hp2 & _) & _). simplify_eq. exists p.
      by rewrite Hp2.
    + destruct (adv_new _ _ _ H2 i t) as (p & Hp & Hor); [lia|done|]. exists p. split; [done|].
      destruct Hor as [[->|HA]%elem_of_cons | ?]; [right; lia|by left|right; lia].
  - intros Hw. by apply (adv_wf _ _ _ H2), (adv_wf _ _ _ H1).
Qed.

Lemma orderly_T_Run A tb name (fn : TB -> TM unit) :
  tb ∈ A -> (forall k, stores_own (k :: A) k (fn k)) -> orderly l A any (T_Run tb name fn).
Proof.
  intros HA Hfn s r s' Hw Hb E. unfold T_Run in E. 
  destruct (lookup_lt_is_Some_2 (s_tests s) tb) as [p Hp]; [by apply Hb|].
  set (t := MkTest (t_name p +:+ "/" +:+ rewrite_name name) (Some tb) true false false false [] : test U).
  set (n := length (s_tests s)) in *.
  set (s1 := MkSuite (s_sys s) (s_tests s ++ [t]) (s_log s) (s_skips s)).
  assert (tRunner n (fn n) s1 = (r, s')) as E1.
  { rewrite <- E. unfold get_test. go_simpl. rewrite Hp. simpl. by go_simpl. }
  assert (tests_advance A (s_tests s) (s_tests s1)) as H1.
  { apply (tests_advance_snoc A _ t tb); try done. by apply Hb. }
  assert (length (s_tests s1) = S n) as Hn by (simpl; rewrite length_app; simpl; lia).
  assert (below (n :: A) (s_tests s1)) as Hb1.
  { intros a [->|Ha%Hb]%elem_of_cons; lia. }
  pose proof (stores_own_tRunner (n :: A) n (fn n) (Hfn n) s1 r s' (adv_wf _ _ _ H1 Hw) Hb1 Hn E1) as H.
  assert (tests_advance (n :: A) (s_tests s1) (s_tests s') /\ recorded l n s1 s' -> advances l A s s') as Hadv.
  { intros [Ht Hr]. split; [by eapply tests_advance_child|]. exact Hr. }
  destruct r; try done; [split; [|done]|]; by apply Hadv.
Qed.

Lemma orderly_tbRun (o : FSOptions U) A tb name (sub : TB -> TM unit) :
  skippedTests o = l -> tb ∈ A -> (forall k, orderly l (k :: A) any (sub k)) ->
  orderly l A any (tbRun o tb name sub).
Proof.
  intros Ho HA Hsub. eapply orderly_bind; [apply orderly_get_test|intros t _].
  destruct (t_isT t); [|apply orderly_Errorf]. apply orderly_T_Run; [done|]. intros k.
  apply stores_own_Inner; [done|set_solver|apply Hsub].
Qed.
End orderly.
