(* ===== verification/FSTestThms.v ===== *)
(** * What the conformance suite reports *)
From stdpp Require Import sorting.
From S2P Require Import Prelude.
From S2P Require Import Paths.
From S2P Require Import Errors.
From S2P Require Import Modes.
From S2P Require Import Blob.
From S2P Require Import HackFS.
From S2P Require Import Testing.
From S2P Require Import FSTest.
From S2P Require Import FSTestFS.
From S2P Require Import FSTestFile.
From S2P Require Import TestLogic.

Local Open Scope string_scope.

(** ** Every test is orderly *)
Create HintDb fstest discriminated.

(** [tb ∈ A] *)
Ltac in_tests := solve [assumption | repeat first [apply list_elem_of_here | apply list_elem_of_further; try assumption]].

Ltac orderly_step :=
  match goal with
  | H : orderly _ ?A _ ?c |- orderly _ ?A _ ?c => exact H
  | |- orderly _ _ _ (bind _ _) => eapply (orderly_bind _ _ (fun _ => True)); [|intros ? _]
  | |- orderly _ _ _ (ret _) => by apply orderly_ret
  | |- orderly _ _ _ (panic _) => apply orderly_panic
  | |- orderly _ _ _ out_of_fuel => apply orderly_out_of_fuel
  | |- orderly _ _ _ (gets _) => apply orderly_gets
  | |- orderly _ _ _ (not_nil _ _) => apply orderly_not_nil; intros ?
  | |- orderly _ _ _ (deferred _ _) => apply orderly_deferred
  | |- orderly _ _ _ (when _ _) => apply orderly_when
  | |- orderly _ _ _ (tbRun _ _ _ _) => apply orderly_tbRun; [assumption|in_tests|intros ?]
  | |- orderly _ _ _ (match ?x with _ => _ end) => destruct x
  | |- orderly _ _ _ (tb_Skip _ _) => apply orderly_Skip; in_tests
  | |- orderly _ _ _ (tb_FailNow _) => apply orderly_FailNow
  | |- orderly _ _ _ (assert.NotPanics _ _) => apply orderly_NotPanics
  | |- orderly _ _ _ _ => progress cbv zeta
  | |- orderly _ _ _ (skipNotImplemented _ _) => apply orderly_skipNotImplemented; in_tests
  | |- orderly _ _ _ _ => solve [eauto 2 with fstest nocore]
  end.
Ltac orderly := repeat orderly_step.

#[export] Hint Resolve orderly_sys orderly_log orderly_Errorf orderly_Cleanup orderly_get_test
  orderly_NoError orderly_Error orderly_Equal orderly_NotZero orderly_Contains orderly_IsType
  orderly_Suffix orderly_Subset orderly_SubsetMap orderly_ErrorIs orderly_NotPanics : fstest.
#[export] Hint Extern 0 (_ ∈ _) => in_tests : fstest.
#[export] Hint Extern 5 (_ = _) => assumption : fstest.

Section orderly.
Context {U : Type} `{!Env U, !GoRuntime} (l : nat).
Notation TM := (M (suite U)).
Notation any := (fun _ => True).
Implicit Types (A : list TB) (o : FSOptions U).

Lemma orderly_on_file {X} A f (m : File U -> M U X) : orderly l A any (hackpadfs.on_file f m).
Proof. unfold hackpadfs.on_file. orderly. Qed.

#[local] Hint Extern 3 (orderly _ _ _ _) =>
  progress unfold hackpadfs.Open, hackpadfs.OpenFile, hackpadfs.Create, hackpadfs.Mkdir,
    hackpadfs.MkdirAll, hackpadfs.Remove, hackpadfs.RemoveAll, hackpadfs.Rename, hackpadfs.Symlink,
    hackpadfs.Stat, hackpadfs.Chmod, hackpadfs.Chtimes, hackpadfs.ReadDir, hackpadfs.ReadFile,
    hackpadfs.WriteFullFile; apply orderly_sys : fstest.
#[local] Hint Extern 3 (orderly _ _ _ _) =>
  progress unfold hackpadfs.Close, hackpadfs.Read, hackpadfs.FileStat, hackpadfs.WriteFile,
    hackpadfs.ReadAtFile, hackpadfs.WriteAtFile, hackpadfs.ReadDirFile, hackpadfs.SeekFile,
    hackpadfs.SyncFile, hackpadfs.TruncateFile; apply orderly_on_file : fstest.

(** *** What the tests have in common *)
Lemma orderly_SetupFS_OpenFile A fs name flag perm : orderly l A any (SetupFS_OpenFile (U := U) fs name flag perm).
Proof. unfold SetupFS_OpenFile. orderly. Qed.
Lemma orderly_SetupFS_Mkdir A fs name perm : orderly l A any (SetupFS_Mkdir (U := U) fs name perm).
Proof. unfold SetupFS_Mkdir. orderly. Qed.
#[local] Hint Resolve orderly_SetupFS_OpenFile orderly_SetupFS_Mkdir : fstest.
Lemma orderly_close_file A tb f : orderly l A any (close_file (U := U) tb f).
Proof. unfold close_file. orderly. Qed.
Lemma orderly_write_file A tb f contents : orderly l A any (write_file (U := U) tb f contents).
Proof. unfold write_file. orderly. Qed.
#[local] Hint Resolve orderly_close_file orderly_write_file : fstest.
Lemma orderly_create_file A tb fs name : orderly l A any (create_file (U := U) tb fs name).
Proof. unfold create_file. orderly. Qed.
Lemma orderly_create_with A tb fs name contents : orderly l A any (create_with (U := U) tb fs name contents).
Proof. unfold create_with. orderly. Qed.
Lemma orderly_mkdir A tb fs name perm : orderly l A any (mkdir (U := U) tb fs name perm).
Proof. unfold mkdir. orderly. Qed.
Lemma orderly_write_full A tb fs name contents : orderly l A any (write_full (U := U) tb fs name contents).
Proof. unfold write_full. orderly. Qed.
Lemma orderly_expect_nil A tb (m : TM err) :
  tb ∈ A -> orderly l A any m -> orderly l A any (expect_nil tb m).
Proof. intros. unfold expect_nil. orderly. Qed.
Lemma orderly_or_skip {X} A tb (m : TM (X * err)) :
  tb ∈ A -> orderly l A any m -> orderly l A any (or_skip tb m).
Proof. intros. unfold or_skip. orderly. Qed.
#[local] Hint Resolve orderly_create_file orderly_create_with orderly_mkdir orderly_write_full
  orderly_expect_nil orderly_or_skip : fstest.

Lemma orderly_walk_entry A o tb dir entries entry :
  orderly l A any (walk_entry (U := U) o tb dir entries entry).
Proof. unfold walk_entry. orderly. Qed.
#[local] Hint Resolve orderly_walk_entry : fstest.
Lemma orderly_walkFSEntries A fuel o tb fs entries dir :
  orderly l A any (walkFSEntries (U := U) fuel o tb fs entries dir).
Proof.
  revert entries dir. induction fuel as [|fuel IH]; intros entries dir; [apply orderly_out_of_fuel|].
  cbn [walkFSEntries]. cbv zeta. orderly.
  match goal with |- orderly _ _ _ (_ ?dirs _) => revert entries; induction dirs as [|d dirs IHd]; intros entries end;
    orderly.
Qed.
#[local] Hint Resolve orderly_walkFSEntries : fstest.
Lemma orderly_expect_fs A o tb fs x : orderly l A any (expect_fs (U := U) o tb fs x).
Proof. unfold expect_fs, tryAssertEqualFS. orderly. Qed.
Lemma orderly_EqualQuickInfo A o tb a b : orderly l A any (assertEqualQuickInfo (U := U) o tb a b).
Proof. apply orderly_Equal. Qed.
Lemma orderly_EqualQuickInfos A o tb a b : orderly l A any (assertEqualQuickInfos (U := U) o tb a b).
Proof. apply orderly_Equal. Qed.
Lemma orderly_SubsetQuickInfos A o tb a b : orderly l A any (assertSubsetQuickInfos (U := U) o tb a b).
Proof. apply orderly_Subset. Qed.
Lemma orderly_ErrPath A o tb a b : orderly l A any (assertEqualErrPath (U := U) o tb a b).
Proof. unfold assertEqualErrPath. orderly. Qed.
Lemma orderly_ErrField A tb a b : orderly l A any (assertEqualErrField (U := U) tb a b).
Proof. unfold assertEqualErrField. orderly. Qed.
#[local] Hint Resolve orderly_expect_fs orderly_EqualQuickInfo orderly_EqualQuickInfos
  orderly_SubsetQuickInfos orderly_ErrPath orderly_ErrField : fstest.
Lemma orderly_PathErr A o tb op path e actual :
  orderly l A any (assertEqualPathErr (U := U) o tb op path e actual).
Proof. unfold assertEqualPathErr. orderly. Qed.
Lemma orderly_LinkErr A o tb op old new e actual :
  orderly l A any (assertEqualLinkErr (U := U) o tb op old new e actual).
Proof. unfold assertEqualLinkErr. orderly. Qed.
Lemma orderly_asQuickDirInfos A tb entries : orderly l A any (asQuickDirInfos (U := U) tb entries).
Proof. induction entries; simpl; unfold asQuickDirInfo; orderly. Qed.
Lemma orderly_expect_stat A o tb fs name q : orderly l A any (expect_stat (U := U) o tb fs name q).
Proof. unfold expect_stat. orderly. Qed.
Lemma orderly_io_ReadFull A f n : orderly l A any (io_ReadFull (U := U) f n).
Proof.
  unfold io_ReadFull. generalize (@nil byte). induction env_fuel as [|fuel IH]; intros got; simpl; orderly.
Qed.
Lemma orderly_expect_not_dir A o tb e : orderly l A any (expect_not_dir (U := U) o tb e).
Proof. unfold expect_not_dir. orderly. Qed.
Lemma orderly_expect_contents A tb fs c : orderly l A any (expect_contents (U := U) tb fs c).
Proof. unfold expect_contents. orderly. Qed.
Lemma orderly_expect_entry A tb dir i q type : orderly l A any (expect_entry (U := U) tb dir i q type).
Proof. unfold expect_entry. orderly. Qed.
Lemma orderly_expect_rename A o tb old new e :
  orderly l A any (expect_rename_exists (U := U) o tb old new e).
Proof. unfold expect_rename_exists. orderly; eauto using orderly_LinkErr. Qed.
End orderly.

#[export] Hint Extern 3 (orderly _ _ _ _) =>
  progress unfold hackpadfs.Open, hackpadfs.OpenFile, hackpadfs.Create, hackpadfs.Mkdir,
    hackpadfs.MkdirAll, hackpadfs.Remove, hackpadfs.RemoveAll, hackpadfs.Rename, hackpadfs.Symlink,
    hackpadfs.Stat, hackpadfs.Chmod, hackpadfs.Chtimes, hackpadfs.ReadDir, hackpadfs.ReadFile,
    hackpadfs.WriteFullFile; apply orderly_sys : fstest.
#[export] Hint Extern 3 (orderly _ _ _ _) =>
  progress unfold hackpadfs.Close, hackpadfs.Read, hackpadfs.FileStat, hackpadfs.WriteFile,
    hackpadfs.ReadAtFile, hackpadfs.WriteAtFile, hackpadfs.ReadDirFile, hackpadfs.SeekFile,
    hackpadfs.SyncFile, hackpadfs.TruncateFile; apply orderly_on_file : fstest.
#[export] Hint Resolve orderly_SetupFS_OpenFile orderly_SetupFS_Mkdir orderly_close_file
  orderly_write_file orderly_create_file orderly_create_with orderly_mkdir orderly_write_full
  orderly_expect_nil orderly_or_skip orderly_walkFSEntries orderly_expect_fs orderly_EqualQuickInfo
  orderly_EqualQuickInfos orderly_SubsetQuickInfos orderly_ErrPath orderly_ErrField orderly_PathErr
  orderly_LinkErr orderly_asQuickDirInfos orderly_expect_stat orderly_io_ReadFull
  orderly_expect_not_dir orderly_expect_contents orderly_expect_entry orderly_expect_rename : fstest.

(** *** The tests, for a set-up that is orderly itself *)
Definition orderly_setup {U} (l : nat) (o : FSOptions U) : Prop := forall A tb, tb ∈ A ->
  orderly l A (fun r => orderly l A (fun _ => True) r.2) (Setup_FS o tb).

Section tests.
Context {U : Type} `{!Env U, !GoRuntime} (l : nat) (o : FSOptions U).
Hypothesis (Hl : skippedTests o = l) (Hsetup : orderly_setup l o).
Notation TM := (M (suite U)).
Notation any := (fun _ => True).
Implicit Types (A : list TB) (tb : TB).

Lemma orderly_Setup {X} A tb (Q : X -> Prop) (k : FS * TM FS -> TM X) :
  tb ∈ A -> (forall fs commit, orderly l A any commit -> orderly l A Q (k (fs, commit))) ->
  orderly l A Q (bind (Setup_FS o tb) k).
Proof. intros HA Hk. eapply orderly_bind; [by apply Hsetup|]. intros [fs commit]. apply Hk. Qed.
Lemma orderly_new_fs A tb : tb ∈ A -> orderly l A any (new_fs o tb).
Proof. intros HA. apply orderly_Setup; [done|]. by intros _ commit. Qed.

Ltac test :=
  repeat first
    [ match goal with
      | |- orderly _ _ _ (bind (Setup_FS _ _) _) => apply orderly_Setup; [in_tests|intros ? ? ?]
      | |- orderly _ _ _ (new_fs _ _) => apply orderly_new_fs; in_tests
      end
    | orderly_step ].

Lemma orderly_TestBaseCreate A tb : tb ∈ A -> orderly l A any (TestBaseCreate tb o).
Proof. intros. unfold TestBaseCreate. test. Qed.
Lemma orderly_TestBaseMkdir A tb : tb ∈ A -> orderly l A any (TestBaseMkdir tb o).
Proof. intros. unfold TestBaseMkdir. test. Qed.
Lemma orderly_TestBaseChmod A tb : tb ∈ A -> orderly l A any (TestBaseChmod tb o).
Proof. intros. unfold TestBaseChmod. test. Qed.
Lemma orderly_TestBaseChtimes A tb : tb ∈ A -> orderly l A any (TestBaseChtimes tb o).
Proof. intros. unfold TestBaseChtimes. test. Qed.

(** The function under test may stop the test it was made for. *)
Lemma orderly_testCreate A tb createFn : tb ∈ A ->
  (forall A fs name, tb ∈ A -> orderly l A any (createFn fs name)) ->
  orderly l A any (testCreate tb o createFn).
Proof. intros HA Hc. unfold testCreate. test. Qed.
Lemma orderly_testOpen A tb openFn : tb ∈ A ->
  (forall A fs name, tb ∈ A -> orderly l A any (openFn fs name)) ->
  orderly l A any (testOpen tb o openFn).
Proof. intros HA Hc. unfold testOpen, open_reads. test. Qed.
Lemma orderly_testStat A tb stater : tb ∈ A ->
  (forall A tb' fs name, tb ∈ A -> tb' ∈ A -> orderly l A any (stater tb' fs name)) ->
  orderly l A any (testStat tb o stater).
Proof. intros HA Hc. unfold testStat. test. Qed.
Lemma orderly_testFileWrite A tb writer : tb ∈ A ->
  (forall A f b, tb ∈ A -> orderly l A any (writer f b)) ->
  orderly l A any (testFileWrite tb o writer).
Proof. intros HA Hc. unfold testFileWrite, must_open_file, expect_n, expect_read, must_open. test. Qed.
Ltac test ::=
  repeat first
    [ match goal with
      | |- orderly _ _ _ (bind (Setup_FS _ _) _) => apply orderly_Setup; [in_tests|intros ? ? ?]
      | |- orderly _ _ _ (new_fs _ _) => apply orderly_new_fs; in_tests
      | |- orderly _ _ _ (testCreate _ _ _) => apply orderly_testCreate; [in_tests|intros ? ? ? ?]
      | |- orderly _ _ _ (testOpen _ _ _) => apply orderly_testOpen; [in_tests|intros ? ? ? ?]
      | |- orderly _ _ _ (testStat _ _ _) => apply orderly_testStat; [in_tests|intros ? ? ? ? ? ?]
      | |- orderly _ _ _ (testFileWrite _ _ _) => apply orderly_testFileWrite; [in_tests|intros ? ? ? ?]
      end
    | orderly_step ].
Lemma orderly_TestChmod A tb : tb ∈ A -> orderly l A any (TestChmod tb o).
Proof. intros. unfold TestChmod, chmod_symlink. test. Qed.
Lemma orderly_TestChtimes A tb : tb ∈ A -> orderly l A any (TestChtimes tb o).
Proof. intros. unfold TestChtimes. test. Qed.
Lemma orderly_TestCreate A tb : tb ∈ A -> orderly l A any (TestCreate tb o).
Proof. intros. unfold TestCreate. test. Qed.
Lemma orderly_TestMkdir A tb : tb ∈ A -> orderly l A any (TestMkdir tb o).
Proof. intros. unfold TestMkdir. test. Qed.
Lemma orderly_TestMkdirAll A tb : tb ∈ A -> orderly l A any (TestMkdirAll tb o).
Proof. intros. unfold TestMkdirAll. test. Qed.
Lemma orderly_TestOpen A tb : tb ∈ A -> orderly l A any (TestOpen tb o).
Proof. intros. unfold TestOpen. test. Qed.
Lemma orderly_TestOpenFile A tb : tb ∈ A -> orderly l A any (TestOpenFile tb o).
Proof. intros. unfold TestOpenFile, open_with. test. Qed.
Lemma orderly_TestReadDir A tb : tb ∈ A -> orderly l A any (TestReadDir tb o).
Proof. intros. unfold TestReadDir. test. Qed.
Lemma orderly_TestReadFile A tb : tb ∈ A -> orderly l A any (TestReadFile tb o).
Proof. intros. unfold TestReadFile. test. Qed.
Lemma orderly_TestRemove A tb : tb ∈ A -> orderly l A any (TestRemove tb o).
Proof. intros. unfold TestRemove. test. Qed.
Lemma orderly_TestRemoveAll A tb : tb ∈ A -> orderly l A any (TestRemoveAll tb o).
Proof. intros. unfold TestRemoveAll. test. Qed.
Lemma orderly_TestRename A tb : tb ∈ A -> orderly l A any (TestRename tb o).
Proof. intros. unfold TestRename, rename_missing, rename_inside_dir, rename_in_root, rename_same_file,
    rename_same_dir, rename_onto_dir, rename_to_root, rename_to_subdir, rename_full_dir. test. Qed.
Lemma orderly_TestStat A tb : tb ∈ A -> orderly l A any (TestStat tb o).
Proof. intros. unfold TestStat. test. Qed.
Lemma orderly_TestWriteFile A tb : tb ∈ A -> orderly l A any (TestWriteFile tb o).
Proof. intros. unfold TestWriteFile. test. Qed.

Lemma orderly_must_open A tb fs name : orderly l A any (must_open (U := U) tb fs name).
Proof. unfold must_open. orderly. Qed.
Lemma orderly_open_or_stop A tb fs name : orderly l A any (open_or_stop (U := U) tb fs name).
Proof. unfold open_or_stop. orderly. Qed.
Lemma orderly_must_open_file A tb fs flag :
  tb ∈ A -> orderly l A any (must_open_file (U := U) tb fs flag).
Proof. intros. unfold must_open_file. orderly. Qed.
#[local] Hint Resolve orderly_must_open orderly_open_or_stop orderly_must_open_file : fstest.
Lemma orderly_expect_read A tb fs contents : orderly l A any (expect_read (U := U) tb fs contents).
Proof. unfold expect_read. orderly. Qed.
Lemma orderly_created_file A tb : tb ∈ A -> orderly l A any (created_file o tb).
Proof. intros. unfold created_file. test. Qed.
Lemma orderly_list_dir A tb f n : tb ∈ A -> orderly l A any (list_dir (U := U) tb f n).
Proof. intros. unfold list_dir. orderly. Qed.
#[local] Hint Resolve orderly_expect_read orderly_created_file orderly_list_dir : fstest.
Lemma orderly_list_and_close A tb fs name n :
  tb ∈ A -> orderly l A any (list_and_close (U := U) tb fs name n).
Proof. intros. unfold list_and_close. orderly. Qed.
#[local] Hint Resolve orderly_list_and_close : fstest.
Lemma orderly_readAt_case A tb fs tc : tb ∈ A -> orderly l A any (readAt_case o fs tc tb).
Proof. intros. unfold readAt_case. orderly. Qed.
#[local] Hint Resolve orderly_readAt_case : fstest.
Lemma orderly_readAt_loop A tb fs tc cases :
  tb ∈ A -> orderly l A any (readAt_loop o tb fs tc cases).
Proof. intros. induction cases; simpl; orderly. Qed.
#[local] Hint Resolve orderly_readAt_loop : fstest.
Lemma orderly_TestFileClose A tb : tb ∈ A -> orderly l A any (TestFileClose tb o).
Proof. intros. unfold TestFileClose. test. Qed.
Lemma orderly_TestFileRead A tb : tb ∈ A -> orderly l A any (TestFileRead tb o).
Proof. intros. unfold TestFileRead. test. Qed.
Lemma orderly_TestFileReadAt A tb : tb ∈ A -> orderly l A any (TestFileReadAt tb o).
Proof. intros. unfold TestFileReadAt. test. Qed.
Lemma orderly_TestFileSeek A tb : tb ∈ A -> orderly l A any (TestFileSeek tb o).
Proof. intros. unfold TestFileSeek, seek_fails, seek_and_read. test. Qed.
Lemma orderly_TestFileWrite A tb : tb ∈ A -> orderly l A any (TestFileWrite tb o).
Proof. intros. unfold TestFileWrite. test. Qed.
Lemma orderly_TestFileWriteAt A tb : tb ∈ A -> orderly l A any (TestFileWriteAt tb o).
Proof. intros. unfold TestFileWriteAt, expect_n. test. Qed.
Lemma orderly_TestFileReadDir A tb : tb ∈ A -> orderly l A any (TestFileReadDir tb o).
Proof. intros. unfold TestFileReadDir, readdir_initial_root, readdir_root, readdir_batches, readdir_high_n,
    readdir_empty_subdir, readdir_subdir, readdir_on_file. test. Qed.
Lemma orderly_TestFileStat A tb : tb ∈ A -> orderly l A any (TestFileStat tb o).
Proof. intros. unfold TestFileStat. test. Qed.
Lemma orderly_TestFileSync A tb : tb ∈ A -> orderly l A any (TestFileSync tb o).
Proof. intros. unfold TestFileSync. test. Qed.
Lemma orderly_TestFileTruncate A tb : tb ∈ A -> orderly l A any (TestFileTruncate tb o).
Proof. intros. unfold TestFileTruncate, truncate_case. test. Qed.

(** *** The suite *)
Lemma orderly_run_tasks A tb (tasks : list (string * subtask)) : tb ∈ A ->
  Forall (fun task => forall A tb, tb ∈ A -> orderly l A any (task.2 tb o)) tasks ->
  orderly l A any (run_tasks o tb tasks).
Proof.
  intros HA Ht. induction Ht as [|task tasks Htask Htasks IH]; simpl; [by apply orderly_ret|].
  unfold runner_Run. orderly.
Qed.

Lemma orderly_runFS concurrent A tb : tb ∈ A ->
  Forall (fun task : string * subtask => forall A tb, tb ∈ A -> orderly l A any (task.2 tb o)) concurrent ->
  orderly l A any (runFS concurrent tb o).
Proof.
  intros HA Hc. apply orderly_run_tasks; [done|]. apply Forall_app. split; [|done].
  repeat (apply Forall_cons; split); try apply Forall_nil; try done; cbn [snd];
    eauto using orderly_TestBaseCreate, orderly_TestBaseMkdir, orderly_TestBaseChmod,
      orderly_TestBaseChtimes, orderly_TestChmod, orderly_TestChtimes, orderly_TestCreate,
      orderly_TestMkdir, orderly_TestMkdirAll, orderly_TestOpen, orderly_TestOpenFile,
      orderly_TestReadDir, orderly_TestReadFile, orderly_TestRemove, orderly_TestRemoveAll,
      orderly_TestRename, orderly_TestStat, orderly_TestWriteFile.
Qed.

Lemma orderly_runFile concurrent A tb : tb ∈ A ->
  Forall (fun task : string * subtask => forall A tb, tb ∈ A -> orderly l A any (task.2 tb o)) concurrent ->
  orderly l A any (runFile concurrent tb o).
Proof.
  intros HA Hc. apply orderly_run_tasks; [done|]. apply Forall_app. split; [|done].
  repeat (apply Forall_cons; split); try apply Forall_nil; try done; cbn [snd];
    eauto using orderly_TestFileClose, orderly_TestFileRead, orderly_TestFileReadAt,
      orderly_TestFileSeek, orderly_TestFileWrite, orderly_TestFileWriteAt, orderly_TestFileReadDir,
      orderly_TestFileStat, orderly_TestFileSync, orderly_TestFileTruncate.
Qed.
End tests.

(** ** What a run reports *)

(** The functions of the options leave the run as a test may. *)
Definition orderly_options {U} (o : FSOptions U) : Prop := forall l A tb, tb ∈ A ->
  (forall testFS, TestFS o = Some testFS -> orderly l A (fun _ => True) (testFS tb)) /\
  (forall setup, Setup o = Some setup ->
     orderly l A (fun r => orderly l A (fun _ => True) r.2) (setup tb)).

Definition orderly_task {U} (task : string * subtask (U := U)) : Prop := forall l o A tb,
  skippedTests o = l -> orderly_setup l o -> tb ∈ A -> orderly l A (fun _ => True) (task.2 tb o).

Section report.
Context {U : Type} `{!Env U, !GoRuntime}.
Implicit Types (o : FSOptions U) (s : suite U).

(** A failed test fails the test that everything new is below. *)
Lemma failure_climbs ts ts' tb i (t : test U) :
  tests_advance [tb] ts ts' -> table_wf ts' -> length ts <= i -> ts' !! i = Some t ->
  t_failed t = true -> exists t', ts' !! tb = Some t' /\ t_failed t' = true.
Proof.
  intros Ha Hw. revert t. induction (lt_wf i) as [i _ IH]. intros t Hi Ht Hf.
  destruct (adv_new _ _ _ Ha _ _ Hi Ht) as (p & Hp & Hor).
  destruct (Hw i t p Ht Hp) as (Hlt & tp & Htp & Hfp).
  destruct Hor as [->%list_elem_of_singleton | Hge]; [by exists tp; auto|].
  apply (IH p Hlt tp); auto.
Qed.

Lemma setupOptions_orderly o s o' e s' :
  orderly_options o -> setupOptions o s = (Ret (o', e), s') ->
  orderly_setup (skippedTests o') o' /\ s_tests s' = s_tests s /\ s_skips s' !! skippedTests o' = Some ∅.
Proof.
  intros Ho E. unfold setupOptions, new_skips, bind, gets, modify, ret in E. cbn in E.
  assert (orderly_setup (skippedTests o') o' /\ skippedTests o' = length (s_skips s) /\
    s' = MkSuite (s_sys s) (s_tests s) (s_log s) (s_skips s ++ [∅])) as (Hs & Hl & ->);
    [|split; [done|split; [done|]]; simpl; rewrite Hl; by apply list_lookup_middle].
  destruct (Name o =? ""); [|destruct (TestFS o) as [testFS|] eqn:Et, (Setup o) as [setup|] eqn:Es];
    injection E as <- _ <-; (split; [|done]); intros A tb HA; unfold Setup_FS; simpl;
    try (by apply orderly_panic); try (by apply (proj2 (Ho _ A tb HA))).
  - destruct (Setup o) as [setup|] eqn:Es; [by apply (proj2 (Ho _ A tb HA))|apply orderly_panic].
  - change (orderly (length (s_skips s)) A (fun r : FS * M (suite U) FS => orderly (length (s_skips s)) A (fun _ => True) r.2)
              (fs <- testFS tb ;; ret (fs, ret fs))).
    eapply orderly_bind; [by apply (proj1 (Ho _ A tb HA))|]. intros fs _.
    by apply orderly_ret, orderly_ret.
Qed.

Lemma run_suite_reports suffix run o tb s d s' :
  (forall l o A, skippedTests o = l -> orderly_setup l o -> forall tb, tb ∈ A ->
     orderly l A (fun _ => True) (run tb o)) ->
  orderly_options o -> table_wf (s_tests s) -> tb < length (s_tests s) ->
  run_suite suffix run tb o s = (Ret d, s') ->
  (forall name, name ∈ d <-> skipped_from (length (s_tests s)) (s_tests s') name) /\
  (forall i t, length (s_tests s) <= i -> s_tests s' !! i = Some t -> t_failed t = true ->
     exists t', s_tests s' !! tb = Some t' /\ t_failed t' = true).
Proof.
  intros Hrun Ho Hw Htb E. unfold run_suite in E.
  apply bind_inv_Ret in E as ([o' e] & s1 & E1 & E).
  destruct (setupOptions_orderly o s o' e s1 Ho E1) as (Hset & Ht1 & Hm).
  destruct e as [e|]; [by unfold tb_Fatal, tb_FailNow, tb_log, bind in E; cbn in E|].
  apply bind_inv_Ret in E as ([] & s2 & E2 & E).
  assert (orderly (skippedTests o') [tb] (fun _ => True)
            (tbRun o' tb (Name o' +:+ suffix) (fun tb => run tb o'))) as Horder.
  { apply orderly_tbRun; [done|by apply list_elem_of_singleton|]. intros k. apply Hrun; [done..|].
    apply list_elem_of_here. }
  assert (below [tb] (s_tests s1)) as Hb by (intros a ->%list_elem_of_singleton; by rewrite Ht1).
  rewrite <- Ht1 in Hw. destruct (Horder s1 _ s2 Hw Hb E2) as [[Ha Hr] _]. rewrite Ht1 in *.
  destruct (Hr ∅ Hm) as (m & Hm2 & Hin).
  unfold generateTestData in E. rewrite bind_gets, Hm2 in E. injection E as <- <-. split.
  - intros name. rewrite range_order_perm, list_elem_of_fmap, <- (right_id False or (skipped_from _ _ _)).
    split.
    + intros ([k []] & -> & Hk%elem_of_map_to_list). left. by destruct (proj1 (Hin k) (mk_is_Some _ _ Hk)) as [[? ?] | ?].
    + intros [Hs|[]]. destruct (proj2 (Hin name) (or_intror Hs)) as [[] Hk]. exists (name, ()).
      by rewrite elem_of_map_to_list.
  - intros i t Hi Hit Hf. eapply failure_climbs; try done. by apply (adv_wf _ _ _ Ha).
Qed.

End report.

(** ** What an assertion about an error accepts *)

(** The test [tb], if there is one, has failed. *)
Definition has_failed {U} (tb : TB) (s : suite U) : Prop :=
  forall t, s_tests s !! tb = Some t -> t_failed t = true.

(** An assertion that holds leaves the run as it was, one that does not fails
    the test. *)
Definition judges {U X} (tb : TB) (b : bool) (x : X) (m : M (suite U) X) : Prop := forall s,
  table_wf (s_tests s) ->
  exists s', m s = (Ret x, s') /\ if b then s' = s else table_wf (s_tests s') /\ has_failed tb s'.

Section judges.
Context {U : Type}.
Notation TM := (M (suite U)).
Implicit Types (tb : TB) (o : FSOptions U).

Lemma judges_fail tb format : judges tb false false (assert.fail_with (U := U) tb [] format).
Proof.
  intros s Hw. eexists. split; [reflexivity|]. simpl.
  destruct (fail_from_spec (S tb) tb (s_tests s) Hw) as (Hw' & _ & _ & Hf); [lia|]. by split.
Qed.
Lemma judges_check tb (b : bool) format :
  judges tb b b (if b then ret true else assert.fail_with (U := U) tb [] format).
Proof. destruct b; [by intros s _; exists s|apply judges_fail]. Qed.
Lemma judges_Equal {X} `{EqDecision X} tb (x y : X) :
  judges tb (bool_decide (x = y)) (bool_decide (x = y)) (assert.Equal (U := U) tb x y).
Proof. apply judges_check. Qed.
Lemma judges_NotZero {X} `{IsZero X} tb (x : X) :
  judges tb (negb (is_zero x)) (negb (is_zero x)) (assert.NotZero (U := U) tb x).
Proof. unfold assert.NotZero. destruct (is_zero x); [apply judges_fail|by intros s _; exists s]. Qed.

Lemma judges_ret {X} tb (x : X) : judges tb true x (ret (S := suite U) x).
Proof. intros s _. by exists s. Qed.
Lemma judges_bind {X Y} tb b c (x : X) (y : Y) (m : TM X) (k : X -> TM Y) :
  judges tb b x m -> judges tb c y (k x) -> judges tb (b && c) y (bind m k).
Proof.
  intros Hm Hk s Hw. destruct (Hm s Hw) as (s1 & E1 & H1). rewrite (bind_Ret _ _ _ _ _ E1).
  destruct b; simpl; [subst s1; by apply Hk|]. destruct H1 as [Hw1 Hf].
  destruct (Hk s1 Hw1) as (s2 & E2 & H2). exists s2. split; [done|]. destruct c; [by subst|done].
Qed.
Lemma judges_when_false tb (m : TM bool) (body : TM unit) :
  judges tb false false m -> judges tb false tt (when m body).
Proof. intros Hm. apply (judges_bind tb false true false tt m); [done|apply judges_ret]. Qed.
Lemma judges_when tb (b c : bool) (m : TM bool) (body : TM unit) :
  judges tb b b m -> judges tb c tt body -> judges tb (b && c) tt (when m body).
Proof.
  intros Hm Hb. destruct b; [by apply (judges_bind tb true c true tt m)|by apply judges_when_false].
Qed.
Lemma judges_eq {X} tb b c (x : X) (m : TM X) : b = c -> judges tb b x m -> judges tb c x m.
Proof. by intros ->. Qed.
Lemma judges_unit {X} tb b (x : X) (m : TM X) : judges tb b x m -> judges tb b tt (m ;;; ret tt).
Proof. intros Hm. rewrite <- (andb_true_r b). eapply judges_bind; [done|apply judges_ret]. Qed.

(** What the assertions accept. *)
Definition path_ok o (expected actual : string) : bool :=
  String.eqb expected actual ||
  AllowErrPathPrefix (constraints o) && HasSuffix actual ("/" +:+ expected).
Definition field_ok (expected actual : error) : bool :=
  negb (is_zero (Some expected)) && negb (is_zero (Some actual)) &&
  (error_Is actual expected || String.eqb (Error expected) (Error actual)).
Definition path_err_ok o (op path : string) (expected : error) (actual : err) : bool :=
  match actual with
  | Some (PathError op' path' e') => String.eqb op op' && path_ok o path path' && field_ok expected e'
  | _ => false
  end.

Definition is_path_error (e : err) : bool :=
  match e with Some (PathError _ _ _) => true | _ => false end.

Lemma bool_decide_eqb (x y : string) : bool_decide (x = y) = String.eqb x y.
Proof. apply eq_bool_prop_intro. rewrite bool_decide_spec, <- String.eqb_eq. by destruct (x =? y). Qed.

Lemma judges_ErrPath o tb expected actual :
  judges tb (path_ok o expected actual) tt (assertEqualErrPath o tb expected actual).
Proof.
  unfold assertEqualErrPath, path_ok.
  destruct (AllowErrPathPrefix (constraints o) && negb (expected =? actual)) eqn:E.
  - apply andb_true_iff in E as [-> E%negb_true_iff]. rewrite E. eapply judges_unit, judges_check.
  - eapply (judges_eq _ (bool_decide (expected = actual))), judges_unit, judges_Equal.
    rewrite bool_decide_eqb. by destruct (expected =? actual), (AllowErrPathPrefix (constraints o)).
Qed.
Lemma judges_ErrField tb expected actual :
  judges tb (field_ok expected actual) tt (assertEqualErrField (U := U) tb (Some expected) (Some actual)).
Proof.
  unfold field_ok, assertEqualErrField. rewrite <- andb_assoc.
  apply judges_when; [apply judges_NotZero|]. apply judges_when; [apply judges_NotZero|]. simpl.
  destruct (error_Is actual expected) eqn:Ei, (Error expected =? Error actual) eqn:Ee; simpl;
    try apply judges_ret.
  eapply (judges_eq _ (errors_Is (Some actual) expected)), judges_unit, judges_check. done.
Qed.

(** C22: the assertion about a [PathError] leaves the run as it is exactly when
    the error is a [PathError] of the same operation, with the same path (or
    one that ends in it, if prefixes are allowed), whose cause is the expected
    one or reads like it; in all other cases it fails the test. *)
Theorem assertEqualPathErr_judges o tb op path expected actual s :
  table_wf (s_tests s) ->
  exists s', assertEqualPathErr o tb op path expected actual s = (Ret tt, s') /\
    if path_err_ok o op path expected actual then s' = s else has_failed tb s'.
Proof.
  intros Hw.
  enough (judges tb (path_err_ok o op path expected actual) tt
            (assertEqualPathErr o tb op path expected actual)) as H.
  { destruct (H s Hw) as (s' & E & Hs). exists s'. split; [done|]. by case_match; [|apply Hs]. }
  destruct (is_path_error actual) eqn:Ei.
  - destruct actual as [[]|]; try done. simpl. rewrite <- andb_assoc.
    eapply (judges_when tb true); [apply judges_check|].
    eapply judges_bind; [rewrite <- bool_decide_eqb; apply judges_Equal|].
    eapply judges_bind; [apply judges_ErrPath|apply judges_ErrField].
  - assert (path_err_ok o op path expected actual = false) as -> by by destruct actual as [[]|].
    apply judges_when_false. eapply (judges_eq _ (bool_decide (Some "*fs.PathError" = assert.TypeOf <$> actual)));
      [|intros s0 Hw0; destruct (judges_Equal tb (Some "*fs.PathError") (assert.TypeOf <$> actual) s0 Hw0) as (s1 & E & H1)].
    + by destruct actual as [[]|].
    + exists s1. split; [|done]. by destruct actual as [[]|].
Qed.
End judges.
