(* ===== verification/Conform.v ===== *)
(** * The conformance suite on the file systems of the repository
    ([mem/fs_test.go], [mount/fs_test.go])

    The suite is a program of this development, and so are the file systems
    that it is run on: here it is run.  The runtime and the free space that
    [append] leaves are those of a concrete Go. *)
From S2P Require Import Prelude.
From S2P Require Import Paths.
From S2P Require Import Errors.
From S2P Require Import Modes.
From S2P Require Import HackFS.
From S2P Require Import Mount.
From S2P Require Import Testing.
From S2P Require Import FSTest.
From S2P Require Import FSTestFS.
From S2P Require Import FSTestFile.
From S2P Require Import MemHack.
From S2P Require Import TestLogic.
From S2P Require Import FSTestThms.

Local Open Scope string_scope.

#[local] Existing Instance simple_runtime.
Abbreviation W := (hworld universe).

Definition chunk (_ : Z) (_ : nat) : Z := 512.
Definition demo_fuel : nat := 20.
(** Any change of the methods of all file systems. *)
Definition env_with (change : FSOps W -> FSOps W) : Env W := {|
  env_methods fs := change (all_methods chunk 10 fs);
  env_grow := chunk;
  env_fuel := demo_fuel;
  env_now := u_Now
|}.
#[export] Instance mem_env : Env W := env_with id.

(** ** The options of the tests *)
Definition requireNoError (tb : TB) (e : err) : M (suite W) unit :=
  ok <- assert.NoError tb e ;; if (ok : bool) then ret tt else tb_FailNow tb.

Definition options_of (name : string) (testFS : TB -> M (suite W) FS) (mask : Z) : FSOptions W :=
  MkOptions name (Some testFS) None (MkConstraints mask false) None 0.

(** [mem/fs_test.go] *)
Definition mem_TestFS (tb : TB) : M (suite W) FS :=
  let* (fs, e) := sys mem_NewFS in requireNoError tb e ;;; ret fs.
Definition mem_options : Z -> FSOptions W := options_of "mem" mem_TestFS.

(** [mount/fs_test.go]: a mount of memory, and one with another file system
    mounted that the tests do not touch. *)
Definition mount_TestFS (tb : TB) : M (suite W) FS :=
  let* (memFS, e) := sys mem_NewFS in
  requireNoError tb e ;;;
  fs <- sys (mount_NewFS memFS) ;; sys (mounttest_NewFS fs).
Definition mount_unused_TestFS (tb : TB) : M (suite W) FS :=
  let* (memRoot, e) := sys mem_NewFS in
  requireNoError tb e ;;;
  e <- SetupFS_Mkdir memRoot "unused" (octal "666") ;;
  requireNoError tb e ;;;
  let* (memUnused, e) := sys mem_NewFS in
  requireNoError tb e ;;;
  fs <- sys (mount_NewFS memRoot) ;;
  e <- match fs with
       | mountFS l rootFS => sys (AddMount env_methods l rootFS "unused" memUnused)
       | _ => ret None
       end ;;
  requireNoError tb e ;;;
  sys (mounttest_NewFS fs).
Definition mount_options : Z -> FSOptions W := options_of "mount" mount_TestFS.
Definition mount_unused_options : Z -> FSOptions W := options_of "mount unused" mount_unused_TestFS.

(** ** Running the suite *)
Definition start : suite W := new_suite "TestFS" (new_universe 1000000000000).

(** [fstest.FS(t, options); fstest.File(t, options)], without goroutines. *)
Definition run_both {U} {E : Env U} (o : FSOptions U) : M (suite U) (list string * list string) :=
  d1 <- FS_ [] 0 o ;; d2 <- File_ [] 0 o ;; ret (d1, d2).

(** The skipped tests of both calls, the failed tests, and how many there were. *)
Definition verdict {U} (r : outcome (list string * list string) * suite U) :
    option (list string * list string * list string * nat) :=
  match r with
  | (Ret (d1, d2), s) =>
      Some (d1, d2, t_name <$> filter (fun t => t_failed t = true) (s_tests s), length (s_tests s))
  | _ => None
  end.

Definition symlink_test (name : string) : string :=
  "TestFS/" +:+ name +:+ "_FS/fs.Chmod/change_symlink_target_permission_bits".
Definition sync_test (name : string) : string := "TestFS/" +:+ name +:+ "_File/file.Sync".

(** Every test passes but the two that are skipped. *)
Definition conforms (name : string) : option (list string * list string * list string * nat) :=
  Some ([symlink_test name], [sync_test name], [], 134).


(** A [mount.FS] over [mem.FS], behind the wrapper of its tests, passes the
    conformance suite, also with another file system mounted in it. *)
Theorem mount_FS_conforms :
  verdict (run_both (mount_options 0) start) = conforms "mount" /\
  verdict (run_both (mount_unused_options ModePerm) start) = conforms "mount_unused".
Proof. split; vm_compute; reflexivity. Qed.

(** ** What the suite does not see *)

(** [Chmod] that does nothing. *)
Definition no_Chmod (ops : FSOps W) : FSOps W :=
  MkOps W (fs_Open ops) (fs_Sub ops) (fs_OpenFile ops) (fs_Create ops) (fs_Mkdir ops) (fs_MkdirAll ops)
    (fs_Remove ops) (fs_RemoveAll ops) (fs_Rename ops) (fs_Stat ops) (fs_Lstat ops)
    (Some (fun _ _ => ret None)) (fs_Chown ops) (fs_Chtimes ops) (fs_ReadDir ops) (fs_ReadFile ops)
    (fs_WriteFile ops) (fs_Symlink ops) (fs_Mount ops).

(** Files whose [ReadAt] reads nothing and reports no error. *)
Definition broken_file (f : File W) : File W :=
  MkFile W (f_Stat f) (f_Read f) (f_Close f) (Some (fun _ _ => ret ([], None)))
    (f_Write f) (f_WriteAt f) (f_ReadDir f) (f_Seek f) (f_Sync f) (f_Truncate f) (f_Chmod f)
    (f_Chown f) (f_Chtimes f).
Definition broken_ReadAt (ops : FSOps W) : FSOps W :=
  MkOps W (fun name => let* (f, e) := fs_Open ops name in ret (broken_file <$> f, e))
    (fs_Sub ops) (fs_OpenFile ops) (fs_Create ops) (fs_Mkdir ops) (fs_MkdirAll ops)
    (fs_Remove ops) (fs_RemoveAll ops) (fs_Rename ops) (fs_Stat ops) (fs_Lstat ops)
    (fs_Chmod ops) (fs_Chown ops) (fs_Chtimes ops) (fs_ReadDir ops) (fs_ReadFile ops)
    (fs_WriteFile ops) (fs_Symlink ops) (fs_Mount ops).


(** When the type bits of modes are compared too, the subtest on writing a
    file over a directory fails on [mem.FS], because it expects a directory
    without [ModeDir]; all others pass. *)
Theorem dir_exists_expects_no_ModeDir :
  verdict (run_both (mem_options (2 ^ 32 - 1)) start) =
  Some ([symlink_test "mem"], [sync_test "mem"],
        ["TestFS"; "TestFS/mem_FS"; "TestFS/mem_FS/fs.WriteFile"; "TestFS/mem_FS/fs.WriteFile/dir_exists"],
        134).
Proof. vm_compute; reflexivity. Qed.

(** ** The report theorem on a run *)
Lemma mem_options_orderly mask : orderly_options (mem_options mask).
Proof.
  intros l A tb HA. split; [|done]. intros _ [= <-]. unfold mem_TestFS, requireNoError. orderly.
Qed.

Lemma start_wf : table_wf (s_tests start).
Proof. intros i t p Ht Hp. by destruct i as [|i]; simplify_eq/=. Qed.

Lemma assertEqualPathErr_judges_witness :
  exists s', assertEqualPathErr (mem_options 0) 0 "open" "foo" ErrNotExist
               (Some (PathError "open" "foo" ErrExist)) start = (Ret tt, s') /\ has_failed 0 s'.
Proof.
  exact (assertEqualPathErr_judges (mem_options 0) 0 "open" "foo" ErrNotExist
           (Some (PathError "open" "foo" ErrExist)) start start_wf).
Defined.

