(* ===== verification/CacheHack.v ===== *)
(** * The conformance suite on a read-only cache ([cache/fs_test.go])

    A cache over two memory file systems, as a value of [hackpadfs.FS]: the
    tests prepare the source, and look at it through the cache. *)
From S2P Require Import Prelude.
From S2P Require Import Paths.
From S2P Require Import Errors.
From S2P Require Import Modes.
From S2P Require Import HackFS.
From S2P Require Import Mount.
From S2P Require Import PathLock.
From S2P Require Import Cache.
From S2P Require Import Testing.
From S2P Require Import FSTest.
From S2P Require Import FSTestFS.
From S2P Require Import FSTestFile.
From S2P Require Import MemHack.
From S2P Require Import Conform.

Local Open Scope string_scope.

(** ** Caches among the file systems of a program *)

(** A cache with its own state. *)
Record cache_state := MkCache {
  cs_fs : ReadOnlyFS;
  cs_info : gmap string (option FileInfo);
  cs_lock : PathLock.Mutex;
  cs_offsets : list Z
}.
Record cuniverse := MkCUniverse { base : W; caches : list cache_state }.

Definition on_base {A} (m : M W A) : M cuniverse A :=
  zoom base (fun b u => MkCUniverse b (caches u)) m.

(** Run code of the [k]-th cache. *)
Definition on_cache {A} (k : nat) (m : ReadOnlyFS -> M (cworld W) A) : M cuniverse A := fun u =>
  match caches u !! k with
  | None => panic "invalid memory address or nil pointer dereference" u
  | Some c =>
      let '(r, w) := m (cs_fs c) (MkCWorld (cs_info c) (cs_lock c) (cs_offsets c) (base u)) in
      (r, MkCUniverse (Cache.below w)
            (<[k := MkCache (cs_fs c) (cacheInfo w) (pathlock w) (dir_offsets w)]> (caches u)))
  end.

Section lift.
Context {U V : Type} (run : forall A, M U A -> M V A).
Arguments run {A}.

Definition map_file (f : File U) : File V :=
  MkFile V (run (f_Stat f)) (fun len => run (f_Read f len)) (run (f_Close f))
    ((fun m len off => run (m len off)) <$> f_ReadAt f)
    ((fun m b => run (m b)) <$> f_Write f)
    ((fun m b off => run (m b off)) <$> f_WriteAt f)
    ((fun m n => run (m n)) <$> f_ReadDir f)
    ((fun m off whence => run (m off whence)) <$> f_Seek f)
    (run <$> f_Sync f)
    ((fun m size => run (m size)) <$> f_Truncate f)
    ((fun m mode => run (m mode)) <$> f_Chmod f)
    ((fun m uid gid => run (m uid gid)) <$> f_Chown f)
    ((fun m at_ mt => run (m at_ mt)) <$> f_Chtimes f).
Definition map_open (m : M U (option (File U) * err)) : M V (option (File V) * err) :=
  let* (f, e) := run m in ret (map_file <$> f, e).

Definition map_ops (ops : FSOps U) : FSOps V :=
  MkOps V (fun name => map_open (fs_Open ops name))
    ((fun m dir => run (m dir)) <$> fs_Sub ops)
    ((fun m name flag perm => map_open (m name flag perm)) <$> fs_OpenFile ops)
    ((fun m name => map_open (m name)) <$> fs_Create ops)
    ((fun m name perm => run (m name perm)) <$> fs_Mkdir ops)
    ((fun m name perm => run (m name perm)) <$> fs_MkdirAll ops)
    ((fun m name => run (m name)) <$> fs_Remove ops)
    ((fun m name => run (m name)) <$> fs_RemoveAll ops)
    ((fun m old new => run (m old new)) <$> fs_Rename ops)
    ((fun m name => run (m name)) <$> fs_Stat ops)
    ((fun m name => run (m name)) <$> fs_Lstat ops)
    ((fun m name mode => run (m name mode)) <$> fs_Chmod ops)
    ((fun m name uid gid => run (m name uid gid)) <$> fs_Chown ops)
    ((fun m name at_ mt => run (m name at_ mt)) <$> fs_Chtimes ops)
    ((fun m name => run (m name)) <$> fs_ReadDir ops)
    ((fun m name => run (m name)) <$> fs_ReadFile ops)
    ((fun m name data perm => run (m name data perm)) <$> fs_WriteFile ops)
    ((fun m old new => run (m old new)) <$> fs_Symlink ops)
    ((fun m name => run (m name)) <$> fs_Mount ops).
End lift.

Section ops.
Context (methods : FS -> FSOps W) (fuel : nat).

(** [ReadOnlyFS] has [Open] and [Stat]. *)
Definition cache_ops (k : nat) : FSOps cuniverse :=
  MkOps cuniverse
    (fun name =>
       let* (f, e) := on_cache k (fun fs => Open methods fuel fs name) in
       ret (map_file (fun _ m => on_cache k (fun _ => m)) <$> f, e))
    None None None None None None None None
    (Some (fun name => on_cache k (fun fs => Stat methods fs name)))
    None None None None None None None None None.

(** In this program [Other (2 * k + 1)] is the [k]-th cache. *)
Definition cached_methods (fs : FS) : FSOps cuniverse :=
  match fs with
  | Other n => if Nat.even n then map_ops (@on_base) (methods fs) else cache_ops (Nat.div2 n)
  | _ => map_ops (@on_base) (methods fs)
  end.
End ops.

(** [cache.NewReadOnlyFS] never fails. *)
Definition cache_New (source cache : FS) : M cuniverse FS :=
  k <- gets (fun u => length (caches u)) ;;
  not_nil (fst (NewReadOnlyFS source cache None)) (fun fs =>
    modify (fun u => MkCUniverse (base u) (caches u ++ [MkCache fs ∅ New []])%list) ;;;
    ret (Other (2 * k + 1))).

(** ** The suite *)
#[local] Existing Instance simple_runtime.
#[export] Instance cache_env : Env cuniverse := {|
  env_methods := cached_methods (all_methods chunk 10) demo_fuel;
  env_grow := chunk;
  env_fuel := demo_fuel;
  env_now := on_base u_Now
|}.

Definition new_mem (tb : TB) : M (suite cuniverse) FS :=
  let* (fs, e) := sys (on_base mem_NewFS) in
  ok <- assert.NoError tb e ;; if (ok : bool) then ret fs else tb_FailNow tb.

Definition cache_Setup (tb : TB) : M (suite cuniverse) (FS * M (suite cuniverse) FS) :=
  source <- new_mem tb ;;
  cache <- new_mem tb ;;
  fs <- sys (cache_New source cache) ;;
  ret (source, ret fs).
Definition cache_options (mask : Z) : FSOptions cuniverse :=
  MkOptions "cache" None (Some cache_Setup) (MkConstraints mask false) None 0.
Definition cache_start : suite cuniverse :=
  new_suite "TestFS" (MkCUniverse (new_universe 1000000000000) []).

(** The tests below [test] that are skipped. *)
Definition under (test : string) (names : list string) : list string :=
  (fun name => test +:+ "/" +:+ name) <$> names.
Definition cache_skips_FS : list string :=
  under "TestFS/cache_FS" (
    under "fs.OpenFile" ["create_illegal_perms"; "create"; "append_flag_writes_to_end";
      "truncate_on_existing_file"; "truncate_on_existing_dir"; "truncate_on_non-existent_file"] ++
    under "fs.WriteFile" ["not_exists"; "file_exists"; "dir_exists"] ++
    ["fs.Create"; "fs.Chmod/change_symlink_target_permission_bits";
     "fs.Chtimes/change_access_and_modify_times"] ++
    under "fs.Mkdir" ["only_permission_bits_allowed"; "create_sub_dir"; "fail_file_exists";
      "fail_dir_exists"; "parent_directory_must_exist"] ++
    under "fs.MkdirAll" ["create_one_directory"; "create_multiple_directories";
      "illegal_permission_bits"; "all_directories_exist"; "file_exists"] ++
    under "fs.Remove" ["remove_empty_dir"; "remove_non-empty_dir"; "remove_non-existing_file";
      "remove_file"] ++
    under "fs.RemoveAll" ["remove_non-empty_dir"; "remove_file"] ++
    under "fs.Rename" ["oldpath_does_not_exist"; "same_file"; "same_directory";
      "inside_same_directory_in_root"; "inside_same_directory"; "non-empty_directory";
      "newpath_is_directory"; "newpath_in_subdirectory"; "newpath_in_root"] ++
    ["base_fs.Create"; "base_fs.Chtimes"; "base_fs.Mkdir"])%list.
Definition cache_skips_File : list string :=
  under "TestFS/cache_File" (
    under "file.Write" ["write-read"; "write-truncate-write-read"] ++
    under "file.WriteAt" ["offset_outside_file"; "offset_inside_file"; "no_offset"; "negative_offset"] ++
    ["file.Sync"] ++
    under "file.Truncate" ["small_size"; "negative_size"; "zero_size"; "too_big"])%list.

