(* ===== verification/Prog.v ===== *)
(** * Calls that other goroutines can interrupt

    A call as a sequence of atomic steps, and many of them side by side: the
    rules of rely and guarantee, and what follows for every interleaving. *)
From stdpp Require Import relations.
From S2P Require Import Prelude.
From S2P Require Import Conc.

(** A call that is over, or the next atomic step and what it leaves to do. *)
Inductive prog (S A : Type) : Type :=
  | Done (a : A)
  | Atomic (m : M S (prog S A)).
Arguments Done {S A}.
Arguments Atomic {S A}.

(** The value of an outcome, mapped. *)
Definition map_outcome {A B} (f : A -> B) (r : outcome A) : outcome B :=
  match r with
  | Ret a => Ret (f a)
  | Panic why => Panic why
  | Blocked => Blocked
  | OutOfFuel => OutOfFuel
  end.

Fixpoint pbind {S A B} (p : prog S A) (k : A -> prog S B) : prog S B :=
  match p with
  | Done a => k a
  | Atomic m => Atomic (fun s => let '(r, s') := m s in (map_outcome (fun p => pbind p k) r, s'))
  end.

(** One step that runs [m]. *)
Definition atomic {S A} (m : M S A) : prog S A := Atomic (a <- m ;; ret (Done a)).

Notation "x <~ p ;; k" := (pbind p (fun x => k))
  (at level 60, p at next level, k at level 200, right associativity) : go_scope.
Notation "'let~' p ':=' m 'in' k" := (pbind m (fun x => match x with p => k end))
  (at level 10, p strict pattern, m at level 100, k at level 200) : go_scope.

(** A call that nobody interrupts. *)
Fixpoint alone {S A} (p : prog S A) : M S A :=
  match p with
  | Done a => ret a
  | Atomic m => fun s =>
      match m s with
      | (Ret p, s') => alone p s'
      | (Panic why, s') => (Panic why, s')
      | (Blocked, s') => (Blocked, s')
      | (OutOfFuel, s') => (OutOfFuel, s')
      end
  end.

(** A call on a part of a bigger state. *)
Fixpoint pzoom {S T A} (get : T -> S) (put : S -> T -> T) (p : prog S A) : prog T A :=
  match p with
  | Done a => Done a
  | Atomic m => Atomic (fun t =>
      let '(r, s) := m (get t) in (map_outcome (pzoom get put) r, put s t))
  end.

(** A call on a variable of the goroutine and the state that is shared. *)
Fixpoint pvar {S W A} (x : S) (p : prog (S * W) A) : prog W (A * S) :=
  match p with
  | Done a => Done (a, x)
  | Atomic m => Atomic (fun w => let '(r, (x', w')) := m (x, w) in (map_outcome (pvar x') r, w'))
  end.
Definition pworld {S W A} (p : prog W A) : prog (S * W) A :=
  pzoom snd (fun w t => (t.1, w)) p.
(** Set the variable to what comes out of a call that was given it. *)
Definition pset {S W A} (p : S -> prog W (A * S)) : prog (S * W) A :=
  x <~ atomic (gets fst) ;;
  let~ (a, x) := pworld (p x) in
  atomic (modify (fun t => (x, t.2)) ;;; ret a).

(** *** A call that is alone does what the code does that it is made of *)
Definition like {S A} (p : prog S A) (m : M S A) : Prop := forall s, alone p s = m s.

Section like.
Context {S : Type}.

Lemma like_Done {A} (a : A) : like (S := S) (Done a) (ret a).
Proof. done. Qed.
Lemma like_atomic {A} (m : M S A) : like (atomic m) m.
Proof. intros s. unfold atomic, bind, ret. simpl. by destruct (m s) as [[?|?| |] ?]. Qed.
Lemma like_pbind {A B} (p : prog S A) m (k : A -> prog S B) h :
  like p m -> (forall a, like (k a) (h a)) -> like (pbind p k) (bind m h).
Proof.
  intros Hp Hk s. unfold bind. rewrite <- Hp. clear Hp. revert p s. fix IH 1. intros [a|n] s; [apply Hk|].
  simpl. destruct (n s) as [[p|?| |] s']; [|done..]. apply (IH p s').
Qed.
Lemma like_pzoom {T A} (get : T -> S) (put : S -> T -> T) (p : prog S A) m :
  (forall s t, get (put s t) = s) -> (forall s s' t, put s (put s' t) = put s t) ->
  (forall t, put (get t) t = t) -> like p m -> like (pzoom get put p) (zoom get put m).
Proof.
  intros H1 H2 H3 Hp t. unfold zoom. rewrite <- Hp. clear Hp. revert p t. fix IH 1.
  intros [a|n] t; simpl; [by rewrite H3|].
  destruct (n (get t)) as [[p|?| |] s']; [|done..]. simpl. rewrite (IH p). rewrite H1.
  destruct (alone p s') as [r s'']. by rewrite H2.
Qed.
End like.

(** ** Goroutines *)
Definition pstep {S A} (p : prog S A) : M S (prog S A) :=
  match p with Done _ => blocked | Atomic m => m end.
Definition is_done {S A} (p : prog S A) : option A :=
  match p with Done a => Some a | Atomic _ => None end.

(** *** Rely and guarantee

    [v] is what the state stands for; others change it by [R] only and the
    call by [G] only.  [safe n P p]: from a state in [P], whatever the others
    do, each step of [p] returns, there are at most [n] of them, and the
    result is in [Q]. *)
Definition stable {V} (R : V -> V -> Prop) (P : V -> Prop) : Prop :=
  forall v v', P v -> R v v' -> P v'.

(** What is stable by its form. *)
Section stable.
Context {V : Type} (R : V -> V -> Prop).
Lemma stable_pure (phi : Prop) : stable R (fun _ => phi).
Proof. by intros v v'. Qed.
Lemma stable_and P P' : stable R P -> stable R P' -> stable R (fun v => P v /\ P' v).
Proof. intros H H' v v' [] ?. split; eauto. Qed.
Lemma stable_ex {X} (P : X -> V -> Prop) :
  (forall x, stable R (P x)) -> stable R (fun v => exists x, P x v).
Proof. intros H v v' [x Hx] ?. exists x. by eapply H. Qed.
Lemma stable_imp (phi : Prop) P : (phi -> stable R P) -> stable R (fun v => phi -> P v).
Proof. intros H v v' HP Hr Hphi. by eapply H; [|apply HP|]. Qed.
End stable.
Create HintDb go_stable.
#[export] Hint Resolve stable_pure stable_and stable_ex stable_imp : go_stable.

Section safe.
Context {S V : Type} (rel : S -> V -> Prop) (R G : V -> V -> Prop).

Fixpoint safe {A} (Q : A -> V -> Prop) (n : nat) (P : V -> Prop) (p : prog S A) : Prop :=
  stable R P /\
  match p with
  | Done a => forall v, P v -> Q a v
  | Atomic m =>
      match n with
      | 0 => False
      | Datatypes.S n => forall s v, rel s v -> P v -> exists p s' v' P',
          m s = (Ret p, s') /\ rel s' v' /\ G v v' /\ P' v' /\ safe Q n P' p
      end
  end.

Lemma safe_stable {A} (Q : A -> V -> Prop) n P p : safe Q n P p -> stable R P.
Proof. destruct n; by intros [? _]. Qed.

Lemma safe_pre {A} (Q : A -> V -> Prop) n (P P' : V -> Prop) p :
  stable R P' -> (forall v, P' v -> P v) -> safe Q n P p -> safe Q n P' p.
Proof.
  intros Hst HP. destruct n, p as [a|m]; intros [_ H]; (split; [done|]); [auto|done|auto|].
  intros s v Hr Hv. apply (H s v Hr (HP v Hv)).
Qed.

Lemma safe_post {A} (Q Q' : A -> V -> Prop) n n' P p :
  n <= n' -> (forall a v, Q a v -> Q' a v) -> safe Q n P p -> safe Q' n' P p.
Proof.
  intros Hn HQ. revert n' P p Hn. induction n as [|n IH]; intros n' P p Hn.
  - destruct p as [a|m]; intros [Hst H]; [|done]. destruct n'; (split; [done|auto]).
  - destruct p as [a|m]; intros [Hst H]; [destruct n'; (split; [done|auto])|].
    destruct n' as [|n']; [lia|]. split; [done|]. intros s v Hr Hv.
    destruct (H s v Hr Hv) as (p & s' & v' & P' & ? & ? & ? & ? & Hs).
    exists p, s', v', P'. split_and!; [done..|]. apply IH; [lia|done].
Qed.

Lemma psafe_ret {A} (Q : A -> V -> Prop) n a : stable R (Q a) -> safe Q n (Q a) (Done a).
Proof. intros. destruct n; by split. Qed.

Lemma safe_done {A} (Q : A -> V -> Prop) n P a :
  stable R P -> (forall v, P v -> Q a v) -> safe Q n P (Done a).
Proof. intros. destruct n; by split. Qed.

Lemma safe_absurd {A} (Q : A -> V -> Prop) n p : safe Q (Datatypes.S n) (fun _ => False) p.
Proof. destruct p; (split; [by intros v v'|done]). Qed.

Lemma psafe_bind {A B} (Q1 : A -> V -> Prop) (Q : B -> V -> Prop) n1 n2 P p (k : A -> prog S B) :
  safe Q1 n1 P p -> (forall a, safe Q n2 (Q1 a) (k a)) -> safe Q (n1 + n2) P (pbind p k).
Proof.
  intros Hp Hk. revert P p Hp. induction n1 as [|n1 IH]; intros P [a|m] [Hst H]; simpl pbind; [|done|..].
  - apply (safe_pre _ _ (Q1 a)); [done..|]. apply (safe_post Q _ n2); [lia|done|apply Hk].
  - apply (safe_pre _ _ (Q1 a)); [done..|]. apply (safe_post Q _ n2); [lia|done|apply Hk].
  - split; [done|]. intros s v Hr Hv. destruct (H s v Hr Hv) as (p & s' & v' & P' & E & ? & ? & ? & Hs).
    rewrite E. exists (pbind p k), s', v', P'. split_and!; [done..|]. by apply IH.
Qed.

(** What is known of values, and not of the state. *)
Lemma safe_assume {A} (Q : A -> V -> Prop) n (phi : Prop) P p :
  stable R (fun v => phi /\ P v) -> (phi -> safe Q (Datatypes.S n) P p) ->
  safe Q (Datatypes.S n) (fun v => phi /\ P v) p.
Proof.
  intros Hst H. destruct p as [a|m]; (split; [done|]).
  - intros v [Hphi Hv]. by apply (H Hphi).
  - intros s v Hr [Hphi Hv]. destruct (H Hphi) as [_ Hm]. by apply Hm.
Qed.

Lemma safe_ex {A X} (Q : A -> V -> Prop) n (P : X -> V -> Prop) p :
  stable R (fun v => exists x, P x v) -> (forall x, safe Q (Datatypes.S n) (P x) p) ->
  safe Q (Datatypes.S n) (fun v => exists x, P x v) p.
Proof.
  intros Hst H. destruct p as [a|m]; (split; [done|]).
  - intros v [x Hv]. by apply (H x).
  - intros s v Hr [x Hv]. destruct (H x) as [_ Hm]. by apply Hm.
Qed.

(** A step of its own. *)
Lemma safe_atomic {A} (Q : A -> V -> Prop) n P (m : M S A) :
  stable R P -> (forall a, stable R (Q a)) ->
  (forall s v, rel s v -> P v -> exists a s' v',
     m s = (Ret a, s') /\ rel s' v' /\ G v v' /\ Q a v') ->
  safe Q (Datatypes.S n) P (atomic m).
Proof.
  intros Hst HQ H. split; [done|]. intros s v Hr Hv.
  destruct (H s v Hr Hv) as (a & s' & v' & E & ? & ? & ?).
  exists (Done a), s', v', (Q a). split_and!; [|done..|by apply psafe_ret].
  by rewrite (bind_Ret _ _ _ _ _ E).
Qed.
End safe.

(** *** Side by side

    Goroutine [i] relies on [R i] and guarantees [G i]. *)
Section parallel.
Context {S V A : Type} (rel : S -> V -> Prop) (R G : nat -> V -> V -> Prop).
Context (Q : nat -> A -> V -> Prop) (J : V -> Prop).
Context (HJ : forall i v v', J v -> G i v v' -> J v').
Context (HG : forall i j v v', i <> j -> G i v v' -> R j v v').
Notation conf := (config (T := prog S A) (S := S)).
Implicit Types (c : conf).

(** Everybody is safe, the invariant [J] holds, and [k] steps are left at most. *)
Definition all_safe (k : nat) c : Prop := exists v ns,
  (rel c.2 v /\ J v) /\ length ns = length c.1 /\ sum_list ns <= k /\
  forall i p n, c.1 !! i = Some p -> ns !! i = Some n ->
    exists P, P v /\ safe rel (R i) (G i) (Q i) n P p.

Lemma sum_list_insert ns i (n n' : nat) :
  ns !! i = Some n -> sum_list (<[i := n']> ns) + n = sum_list ns + n'.
Proof.
  revert i. induction ns as [|x ns IH]; intros [|i]; simpl; [done|done|intros [= ->]; lia|].
  intros H%IH. lia.
Qed.

Lemma all_safe_step k c c' : all_safe k c -> step pstep c c' -> exists k', all_safe k' c' /\ k' < k.
Proof.
  intros (v & ns & [Hr HJv] & Hl & Hk & Hs) Hstep. destruct Hstep as [ts s i p p' s' Hi E]. simpl in *.
  destruct (lookup_lt_is_Some_2 ns i) as [n Hn]; [rewrite Hl; by eapply lookup_lt_Some|].
  destruct (Hs i p n Hi Hn) as (P & HP & Hp). destruct p as [a|m]; [done|]. simpl in E.
  destruct n as [|n]; [by destruct Hp|]. destruct Hp as [_ Hp].
  destruct (Hp s v Hr HP) as (p1 & s1 & v' & P' & E' & Hr' & Hg & HP' & Hp').
  rewrite E in E'. injection E' as <- <-.
  pose proof (sum_list_insert ns i (Datatypes.S n) n Hn) as Hsum.
  exists (k - 1). split; [|lia]. exists v', (<[i := n]> ns). simpl.
  split_and!; [done|by apply (HJ i v)|by rewrite !length_insert|lia|].
  intros j q nq. destruct (decide (i = j)) as [<-|Hij].
  - rewrite !list_lookup_insert_eq by (by eapply lookup_lt_Some). intros [= <-] [= <-]. by exists P'.
  - rewrite !list_lookup_insert_ne by done. intros Hj Hnj.
    destruct (Hs j q nq Hj Hnj) as (Pj & HPj & Hq). exists Pj. split; [|done].
    by apply (safe_stable _ _ _ _ _ _ _ Hq v), (HG i).
Qed.

Lemma all_safe_steps j k c c' :
  all_safe k c -> nsteps (step pstep) j c c' -> exists k', all_safe k' c' /\ j + k' <= k.
Proof.
  intros Hs Hn. revert k Hs. induction Hn as [c|j c1 c2 c3 H1 _ IH]; intros k Hs; [exists k; by split|].
  destruct (all_safe_step k c1 c2 Hs H1) as (k1 & Hs1 & Hk1). destruct (IH k1 Hs1) as (k' & ? & ?).
  exists k'. split; [done|lia].
Qed.

Lemma all_safe_no_panic k c : all_safe k c -> ~ panicking pstep c.
Proof.
  intros (v & ns & [Hr _] & Hl & _ & Hs) (i & p & why & s' & Hi & E).
  destruct (lookup_lt_is_Some_2 ns i) as [n Hn]; [rewrite Hl; by eapply lookup_lt_Some|].
  destruct (Hs i p n Hi Hn) as (P & HP & Hp). destruct p as [a|m]; [done|].
  destruct n as [|n]; destruct Hp as [_ Hp]; [done|].
  destruct (Hp _ _ Hr HP) as (p1 & s1 & v' & P' & E' & _). simpl in E. congruence.
Qed.

(** Whoever is not done can take a step, and who is done has its result. *)
Lemma all_safe_at_end k c :
  all_safe k c -> can_step pstep c = false ->
  exists v, (rel c.2 v /\ J v) /\ forall i p, c.1 !! i = Some p -> exists a, p = Done a /\ Q i a v.
Proof.
  intros (v & ns & [Hr Hj] & Hl & _ & Hs) Hc. exists v. split; [done|]. intros i p Hi.
  destruct (lookup_lt_is_Some_2 ns i) as [n Hn]; [rewrite Hl; by eapply lookup_lt_Some|].
  destruct (Hs i p n Hi Hn) as (P & HP & Hp). destruct p as [a|m].
  - exists a. split; [done|]. destruct n; by apply Hp.
  - destruct n as [|n]; destruct Hp as [_ Hp]; [done|].
    destruct (Hp _ _ Hr HP) as (p1 & s1 & v' & P' & E' & _).
    by rewrite (can_step_at pstep c i (Atomic m) p1 s1 Hi E') in Hc.
Qed.

Lemma all_safe_weight k c : all_safe k c -> exists c', reachable pstep c c' /\ can_step pstep c' = false.
Proof.
  revert c. induction k as [k IH] using lt_wf_ind. intros c Hs.
  destruct (can_step pstep c) eqn:E; [|exists c; by split].
  apply can_step_spec in E as [c1 H1]. destruct (all_safe_step k c c1 Hs H1) as (k1 & Hs1 & Hk).
  destruct (IH k1 Hk c1 Hs1) as (c' & Hr & E'). exists c'. split; [by eapply rtc_l|done].
Qed.
End parallel.

(** The goroutines [ps] on the state [s]: no execution panics or gets stuck,
    every one ends within [k] steps, what the state stands for can always be
    told and has the property [J], and when all have returned [Q] holds of their
    results. *)
Record in_every_interleaving {S V A} (rel : S -> V -> Prop) (k : nat) (J : V -> Prop)
    (Q : list A -> V -> Prop) (ps : list (prog S A)) (s : S) : Prop := {
  every_safe n c : nsteps (step pstep) n (ps, s) c ->
    n <= k /\ ~ panicking pstep c /\ exists v, rel c.2 v /\ J v;
  every_ends c : reachable pstep (ps, s) c ->
    exists c', reachable pstep c c' /\ can_step pstep c' = false;
  every_result c : reachable pstep (ps, s) c -> can_step pstep c = false ->
    exists rs v, is_done <$> c.1 = Some <$> rs /\ rel c.2 v /\ J v /\ Q rs v
}.

Lemma parallel_mono {S V A} (rel : S -> V -> Prop) k (J : V -> Prop)
    (Q Q' : list A -> V -> Prop) ps s :
  in_every_interleaving rel k J Q ps s -> (forall rs v, Q rs v -> Q' rs v) ->
  in_every_interleaving rel k J Q' ps s.
Proof.
  intros [H1 H2 H3] HQ. split; [done|done|]. intros c Hr Hc.
  destruct (H3 c Hr Hc) as (rs & v & ? & ? & ? & ?). exists rs, v. auto.
Qed.

(** The same about what a view stands for. *)
Lemma parallel_view {S V V' A} (f : V -> V') (rel : S -> V -> Prop) (rel' : S -> V' -> Prop) k
    (J : V -> Prop) (J' : V' -> Prop) (Q : list A -> V -> Prop) (Q' : list A -> V' -> Prop) ps s :
  in_every_interleaving rel k J Q ps s ->
  (forall s v, rel s v -> rel' s (f v)) -> (forall v, J v -> J' (f v)) -> (forall rs v, Q rs v -> Q' rs (f v)) ->
  in_every_interleaving rel' k J' Q' ps s.
Proof.
  intros [H1 H2 H3] Hr HJ HQ. split; [|done|].
  - intros n c Hn. destruct (H1 n c Hn) as (? & ? & v & ? & ?). split_and!; [done|done|]. exists (f v). auto.
  - intros c Hc He. destruct (H3 c Hc He) as (rs & v & ? & ? & ? & ?). exists rs, (f v). auto.
Qed.

Lemma all_done {S A} (ps : list (prog S A)) (P : nat -> A -> Prop) :
  (forall i p, ps !! i = Some p -> exists a, p = Done a /\ P i a) ->
  exists rs, is_done <$> ps = Some <$> rs /\ forall i a, rs !! i = Some a -> P i a.
Proof.
  revert P. induction ps as [|p ps IH]; intros P H; [by exists []|].
  destruct (H 0 p eq_refl) as (a & -> & Ha).
  destruct (IH (fun i => P (Datatypes.S i))) as (rs & E & Hrs); [intros i q Hi; by apply (H (Datatypes.S i))|].
  exists (a :: rs). csimpl. rewrite E. split; [done|]. intros [|i] b; [by intros [= <-]|]. apply Hrs.
Qed.

Lemma parallel_rule {S V A} (rel : S -> V -> Prop) (R G : nat -> V -> V -> Prop)
    (Q : nat -> A -> V -> Prop) (J : V -> Prop) (P : nat -> V -> Prop) (n : nat) ps s v :
  (forall i v v', J v -> G i v v' -> J v') ->
  (forall i j v v', i <> j -> G i v v' -> R j v v') ->
  rel s v -> J v -> (forall i, P i v) ->
  (forall i p, ps !! i = Some p -> safe rel (R i) (G i) (Q i) n (P i) p) ->
  in_every_interleaving rel (n * length ps) J
    (fun rs v => length rs = length ps /\ forall i a, rs !! i = Some a -> Q i a v) ps s.
Proof.
  intros HJ HG Hr Hj HP Hs.
  assert (H0 : all_safe rel R G Q J (n * length ps) (ps, s)).
  { exists v, (replicate (length ps) n). simpl. split_and!; [done|done|by rewrite length_replicate| |].
    - clear. induction ps; simpl; lia.
    - intros i p m Hi [-> _]%lookup_replicate. exists (P i). auto. }
  assert (Hall : forall m c, nsteps (step pstep) m (ps, s) c ->
    exists k', all_safe rel R G Q J k' c /\ m + k' <= n * length ps).
  { intros m c Hn. by apply (all_safe_steps rel R G Q J HJ HG m _ (ps, s)). }
  split.
  - intros m c Hn. destruct (Hall m c Hn) as (k' & Hk & Hm). split_and!; [lia|by eapply all_safe_no_panic|].
    destruct Hk as (v' & ? & [? ?] & _). by exists v'.
  - intros c (m & Hn)%rtc_nsteps. destruct (Hall m c Hn) as (k' & Hk & _). by eapply all_safe_weight.
  - intros c Hreach Hc. pose proof (reachable_length _ _ _ Hreach) as Hlen. simpl in Hlen.
    apply rtc_nsteps in Hreach as (m & Hn). destruct (Hall m c Hn) as (k' & Hk & _).
    destruct (all_safe_at_end _ _ _ _ _ _ _ Hk Hc) as (v' & [Hr' Hj'] & Hd).
    destruct (all_done c.1 (fun i a => Q i a v') Hd) as (rs & E & Hrs).
    exists rs, v'. split_and!; [done..| |done].
    rewrite <- Hlen. apply (f_equal length) in E. by rewrite !length_fmap in E.
Qed.
#[global] Arguments safe : simpl never.
#[global] Arguments pbind : simpl never.
#[global] Arguments atomic : simpl never.
