(* ===== verification/Sched.v ===== *)
(** * Running goroutines under a scheduler

    [Prog] says what every interleaving of some goroutines does.  Here they are
    run: a scheduler picks who takes the next step, until all have returned.
    What holds in every interleaving holds of each run, and every execution that
    comes to an end is a run under some scheduler. *)
From stdpp Require Import relations.
From S2P Require Import Prelude.
From S2P Require Import Conc.
From S2P Require Import Prog.

(** The scheduler answers the number of each step with one of those that can
    take it, counted from anywhere; it runs for so many steps. *)
Class Scheduler := {
  pick : nat -> nat;
  sched_fuel : nat
}.

Section run.
Context {S A : Type}.
Implicit Types (ps : list (prog S A)) (p : prog S A) (s : S).

(** Who is neither done nor waits for another. *)
Definition ready s p : bool :=
  match pstep p s with (Ret _, _) | (Panic _, _) => true | _ => false end.
Fixpoint ready_from (i : nat) ps s : list nat :=
  match ps with
  | [] => []
  | p :: ps => if ready s p then i :: ready_from (Datatypes.S i) ps s else ready_from (Datatypes.S i) ps s
  end.

(** The one of the list that is chosen. *)
Definition chosen (n i : nat) (others : list nat) : nat :=
  nth (n mod Datatypes.S (length others)) (i :: others) i.

(** Run them to the end; [k] steps were taken so far.  A panic of one ends them
    all; when nobody can go on, the others wait for ever. *)
Fixpoint run_all (choose : nat -> nat) (fuel k : nat) ps : M S (list A) := fun s =>
  match ready_from 0 ps s with
  | [] => (match mapM is_done ps with Some rs => Ret rs | None => Blocked end, s)
  | i :: others =>
      match fuel with
      | 0 => (OutOfFuel, s)
      | Datatypes.S fuel =>
          let j := chosen (choose k) i others in
          match ps !! j with
          | None => (OutOfFuel, s)
          | Some p =>
              match pstep p s with
              | (Ret p', s') => run_all choose fuel (Datatypes.S k) (<[j := p']> ps) s'
              | (Panic why, s') => (Panic why, s')
              | (Blocked, s') => (Blocked, s')
              | (OutOfFuel, s') => (OutOfFuel, s')
              end
          end
      end
  end.

Lemma elem_of_ready_from ps s i j :
  j ∈ ready_from i ps s <-> exists n p, j = i + n /\ ps !! n = Some p /\ ready s p = true.
Proof.
  revert i. induction ps as [|p ps IH]; intros i; simpl.
  - split; [by intros ?%elem_of_nil|]. by intros (n & ? & _ & ? & _).
  - assert (E : (j ∈ ready_from (Datatypes.S i) ps s) <->
      exists n q, j = i + Datatypes.S n /\ ps !! n = Some q /\ ready s q = true).
    { rewrite IH. split; intros (n & q & -> & ? & ?); exists n, q; (split; [lia|done]). }
    destruct (ready s p) eqn:Hp.
    + rewrite elem_of_cons, E. split.
      * intros [->|(n & q & -> & ? & ?)]; [exists 0, p; split; [lia|done]|by exists (Datatypes.S n), q].
      * intros ([|n] & q & -> & Hq & ?); simplify_eq/=; [left; lia|right; by exists n, q].
    + rewrite E. split.
      * intros (n & q & -> & ? & ?). by exists (Datatypes.S n), q.
      * intros ([|n] & q & -> & Hq & ?); simplify_eq/=; [congruence|by exists n, q].
Qed.

(** Nobody is ready: nobody can take a step. *)
Lemma ready_none ps s : ready_from 0 ps s = [] -> can_step pstep (ps, s) = false.
Proof.
  intros E. destruct (can_step pstep (ps, s)) eqn:Hc; [|done].
  apply can_step_spec in Hc as [c' Hs]. inversion Hs as [? ? i p p' s' Hi Ep]; subst.
  assert (H : i ∈ ready_from 0 ps s).
  { apply elem_of_ready_from. exists i, p. split_and!; [done..|]. unfold ready. by rewrite Ep. }
  rewrite E in H. by apply elem_of_nil in H.
Qed.
Lemma ready_pick i others ps s n :
  ready_from 0 ps s = i :: others ->
  exists p, ps !! chosen n i others = Some p /\ ready s p = true.
Proof.
  intros E. set (j := chosen n i others). assert (Hj : j ∈ i :: others).
  { apply list_elem_of_In. unfold j, chosen. apply nth_In. simpl. pose proof (Nat.mod_upper_bound n (Datatypes.S (length others))). lia. }
  rewrite <- E in Hj. apply elem_of_ready_from in Hj as (m & p & -> & ? & ?). by exists p.
Qed.

Lemma mapM_is_done ps rs : is_done <$> ps = Some <$> rs -> mapM is_done ps = Some rs.
Proof.
  intros E. apply mapM_Some_2. revert rs E. induction ps as [|p ps IH]; intros [|r rs]; csimpl; try done.
  intros [= ? ?]. constructor; auto.
Qed.

(** ** What holds in every interleaving holds of a run *)
Lemma run_all_rule {V} (rel : S -> V -> Prop) k (J : V -> Prop) (Q : list A -> V -> Prop) ps s choose fuel j :
  in_every_interleaving rel k J Q ps s -> k <= fuel ->
  exists rs s' v, run_all choose fuel j ps s = (Ret rs, s') /\ rel s' v /\ J v /\ Q rs v.
Proof.
  intros [Hs _ Hr] Hk.
  cut (forall fuel n j ps' s', nsteps (step pstep) n (ps, s) (ps', s') -> k <= n + fuel ->
    exists rs s'' v, run_all choose fuel j ps' s' = (Ret rs, s'') /\ rel s'' v /\ J v /\ Q rs v).
  { intros H. apply (H fuel 0 j); [constructor|lia]. }
  clear j fuel Hk. induction fuel as [|fuel IH]; intros n j ps' s' Hn Hk; simpl;
    destruct (ready_from 0 ps' s') as [|i others] eqn:E.
  1, 3: pose proof (ready_none _ _ E) as Hc;
    destruct (Hr (ps', s')) as (rs & v & Hd & ? & ? & ?); [apply rtc_nsteps; by exists n|done|];
    exists rs, s', v; by rewrite (mapM_is_done ps' rs Hd).
  - destruct (ready_pick i others ps' s' 0 E) as (p & Hi & Hp). unfold ready in Hp.
    destruct (pstep p s') as [[p'|why| |] s''] eqn:Ep; try done.
    + assert (H1 : step pstep (ps', s') (<[chosen 0 i others := p']> ps', s'')) by by econstructor.
      destruct (Hs _ _ (nsteps_r _ _ _ _ Hn H1)). lia.
    + destruct (Hs n (ps', s') Hn) as (_ & [] & _). by exists (chosen 0 i others), p, why, s''.
  - destruct (ready_pick i others ps' s' (choose j) E) as (p & Hi & Hp). unfold ready in Hp. rewrite Hi.
    destruct (pstep p s') as [[p'|why| |] s''] eqn:Ep; try done.
    + apply (IH (Datatypes.S n)); [|lia]. eapply nsteps_r; [done|by econstructor].
    + destruct (Hs n (ps', s') Hn) as (_ & [] & _). by exists (chosen (choose j) i others), p, why, s''.
Qed.

(** ** And every execution is a run *)
Lemma nth_index (others : list nat) (j d : nat) : j ∈ others -> exists n, n < length others /\ nth n others d = j.
Proof. intros H. apply list_elem_of_In, In_nth with (d := d) in H as (n & ? & ?). by exists n. Qed.

Lemma run_all_complete n ps s ps' s' rs :
  nsteps (step pstep) n (ps, s) (ps', s') -> is_done <$> ps' = Some <$> rs ->
  exists l, length l = n /\ forall choose fuel k,
    n <= fuel -> (forall i x, l !! i = Some x -> choose (k + i) = x) ->
    run_all choose fuel k ps s = (Ret rs, s').
Proof.
  intros Hn Hd. remember (ps, s) as c eqn:Ec. remember (ps', s') as c' eqn:Ec'.
  revert ps s Ec. induction Hn as [c|n c1 c2 c3 H1 Hn IH]; intros ps s ->.
  - injection Ec' as -> ->. exists []. split; [done|]. intros choose fuel k _ _.
    assert (E : ready_from 0 ps' s' = []).
    { destruct (ready_from 0 ps' s') as [|i others] eqn:E; [done|].
      destruct (ready_pick i others ps' s' 0 E) as (p & Hi & Hp).
      assert (Hp' : (is_done <$> ps') !! chosen 0 i others = Some (is_done p))
        by by rewrite list_lookup_fmap, Hi.
      rewrite Hd, list_lookup_fmap in Hp'. destruct (rs !! _); [|done]. by destruct p. }
    destruct fuel; simpl; rewrite E; by rewrite (mapM_is_done _ _ Hd).
  - inversion H1 as [? ? i p p' s1 Hi Ep]; subst.
    destruct (IH eq_refl _ _ eq_refl) as (l & Hl & Hrun).
    destruct (ready_from 0 ps s) as [|j others] eqn:E.
    { pose proof (ready_none _ _ E) as Hc. by rewrite (can_step_at pstep (ps, s) i p p' s1 Hi Ep) in Hc. }
    assert (Hin : i ∈ j :: others).
    { rewrite <- E. apply elem_of_ready_from. exists i, p. split_and!; [done..|]. unfold ready. by rewrite Ep. }
    destruct (nth_index (j :: others) i j Hin) as (m & Hm & Em). simpl in Hm.
    exists (m :: l). split; [simpl; lia|]. intros choose fuel k Hfuel Hch.
    destruct fuel as [|fuel]; [lia|]. simpl run_all. rewrite E.
    replace (choose k) with m by (symmetry; rewrite <- (Nat.add_0_r k); by apply Hch).
    assert (Ec : chosen m j others = i) by (unfold chosen; by rewrite Nat.mod_small).
    rewrite Ec, Hi, Ep. apply Hrun; [lia|].
    intros i' x Hx. replace (Datatypes.S k + i') with (k + Datatypes.S i') by lia. by apply Hch.
Qed.
End run.
