(* ===== verification/KVProg.v ===== *)
(** * The key-value file system, interrupted ([keyvalue/fs.go], [file.go])

    The calls of [KVFS] and [KVFile] as sequences of atomic steps, for any
    number of goroutines.  A step is a transaction, from [Transaction] to
    [Commit] or [Abort], or one method of a record or a blob, or a look at a
    variable of the goroutine.  That fits stores whose transactions exclude each
    other, as those of [mem] do: they hold the mutex of the store for so long.
    Called alone, each is the function it is made of. *)
From S2P Require Import Prelude.
From S2P Require Import Paths.
From S2P Require Import Errors.
From S2P Require Import Modes.
From S2P Require Import Blob.
From S2P Require Import Record.
From S2P Require Import Txn.
From S2P Require Import KVFile.
From S2P Require Import KVFS.
From S2P Require Import Conc.
From S2P Require Import Prog.

Local Open Scope string_scope.

Lemma like_pvar {S X A} (x : X) (p : prog (X * S) A) m : like p m -> like (pvar x p) (on_var x m).
Proof.
  intros Hp s. unfold on_var. rewrite <- Hp. clear Hp. revert p x s. fix IH 1.
  intros [a|n] x s; [done|]. simpl. destruct (n (x, s)) as [[p|?| |] [x' s']]; [|done..]. apply IH.
Qed.

Section prog.
Context {ST R T : Type} `{!RecordOps ST R, !Store ST R T, !GoRuntime}.
Notation W := (world ST).
Notation FD := (fileData ST R).
Notation F := (file ST R).

(** ** Saving and deleting a record *)
Definition setFile_p (name : string) (fd0 : FD) : prog W (err * FD) :=
  let commit fd contents := atomic (
    let* (e, fd') := setFile_commit name (Some fd) contents in ret (e, default fd0 fd')) in
  let~ (mode, fd) := atomic (on_var fd0 fd_Mode) in
  if IsRegular mode then
    let~ (d, fd) := atomic (on_var fd fd_Data) in
    match d with
    | (_, Some e) => Done (Some e, fd)
    | (contents, None) => commit fd contents
    end
  else commit fd None.
Definition delete_p (name : string) : prog W err :=
  atomic (let* (e, _) := setFile name None in ret e).

(** [fileData.save] and what it is for a [file]. *)
Definition save_p : prog (FD * W) err := pset (fun fd => setFile_p (path fd) fd).
Fixpoint on_data_p {A} (p : prog (FD * W) A) : prog (F * W) A :=
  match p with
  | Done a => Done a
  | Atomic m => Atomic (fun '(f, w) =>
      match fileData_ f with
      | None => nil_deref (f, w)
      | Some fd =>
          let '(r, (fd', w')) := m (fd, w) in
          (map_outcome on_data_p r, (MkFile (Some fd') (offset f) (flag f), w'))
      end)
  end.
Definition f_save_p : prog (F * W) err := on_data_p save_p.
Definition save_file_p (f : F) : prog W err := let~ (e, _) := pvar f f_save_p in Done e.

(** ** Files *)
Definition on_blob_p {A} (b : option Blob) (m : Blob -> M heap A) : prog (F * W) A :=
  atomic (on_blob b m).

(** The step between two looks at the variables of the goroutine. *)
Definition error_p (op : string) (e : error) : prog (F * W) err := atomic (path_error op e).

Definition FileTruncate_p (size : Z) : prog (F * W) err :=
  mode <~ atomic f_Mode ;;
  if IsDir mode then error_p "truncate" ErrIsDir else
  length <~ atomic f_Size ;;
  if (size <? 0)%Z then error_p "truncate" ErrInvalid
  else if (size =? length)%Z then Done None
  else
    let~ (data, e) := atomic f_Data in
    match e with
    | Some e => error_p "truncate" e
    | None =>
        e <~ on_blob_p data (fun d =>
               if (length <? size)%Z then Grow d (sub64 size length) else Truncate d size) ;;
        match e with
        | Some e => error_p "truncate" e
        | None => _ <~ atomic updateModTime ;; f_save_p
        end
    end.

Definition FileChmod_p (mode : Z) : prog (F * W) err :=
  old <~ atomic f_Mode ;;
  _ <~ atomic (on_data (modify (fun s => (set_modeOverride (chmod_mode old mode) s.1, s.2)))) ;;
  f_save_p.

Definition ReadBlobAt_p (length off : Z) : prog (F * W) (option Blob * Z * err) :=
  size <~ atomic f_Size ;;
  if (size <=? off)%Z then Done (None, 0%Z, Some EOF) else
  max <~ atomic f_Size ;;
  let end_ := add64 off length in
  let end_ := if (max <? end_)%Z then max else end_ in
  let~ (data, e) := atomic f_Data in
  match e with
  | Some e => Done (None, 0%Z, Some e)
  | None =>
      let~ (b, e) := on_blob_p data (fun d => View d off end_) in
      match e with
      | Some e => Done (None, 0%Z, Some e)
      | None =>
          n <~ on_blob_p b Blob_Len ;;
          if (add64 off n =? max)%Z then Done (b, n, Some EOF) else Done (b, n, None)
      end
  end.

Definition ReadAt_p (p : slice) (off : Z) : prog (F * W) (Z * err) :=
  let~ (b, n, e) := ReadBlobAt_p (Z.of_nat (s_len p)) off in
  match b with
  | Some b =>
      src <~ atomic (in_world (in_heap (Blob_Bytes b))) ;;
      _ <~ atomic (in_world (in_heap (copy_slice p src))) ;;
      Done (n, e)
  | None => Done (n, e)
  end.

Definition Read_p (p : slice) : prog (F * W) (Z * err) :=
  off <~ atomic get_offset ;;
  let~ (n, e) := ReadAt_p p off in
  off <~ atomic get_offset ;;
  _ <~ atomic (put_offset (add64 off n)) ;;
  Done (n, e).

(** From where the offset is known on. *)
Definition write_from_p (op : string) (p : Blob) (off : Z) : prog (F * W) (Z * err) :=
  let error e := e <~ error_p op e ;; Done (0%Z, e) in
  plen <~ atomic (in_world (in_heap (Blob_Len p))) ;;
  let endIndex := add64 off plen in
  size <~ atomic f_Size ;;
  failed <~
    (if (size <? endIndex)%Z then
       let~ (data, e) := atomic f_Data in
       match e with
       | Some e => Done (Some e)
       | None =>
           size <~ atomic f_Size ;;
           on_blob_p data (fun d => Grow d (sub64 endIndex size))
       end
     else Done None) ;;
  match failed with
  | Some e => error e
  | None =>
      let~ (data, e) := atomic f_Data in
      match e with
      | Some e => error e
      | None =>
          let~ (n, e) := on_blob_p data (fun d => Set_ d p off) in
          match e with
          | Some e => e <~ error_p op e ;; Done (n, e)
          | None =>
              _ <~ (if (n =? 0)%Z then Done tt else atomic updateModTime) ;;
              e <~ f_save_p ;;
              Done (n, e)
          end
      end
  end.
Definition writeBlobAt_p (op : string) (p : Blob) (off : Z) : prog (F * W) (Z * err) :=
  fl <~ atomic (gets (fun s => flag s.1)) ;;
  off <~ (if has_flag fl FlagAppend then atomic f_Size else Done off) ;;
  write_from_p op p off.

(** [file.Write], which [WriteFile] calls. *)
Definition Write_p (p : slice) : prog (F * W) (Z * err) :=
  l <~ atomic (in_world (in_heap (NewBytes p))) ;;
  off <~ atomic get_offset ;;
  let~ (n, e) := writeBlobAt_p "write" (BBytes l) off in
  off <~ atomic get_offset ;;
  _ <~ atomic (put_offset (add64 off n)) ;;
  Done (n, e).

(** The other methods of an open file. *)
Definition WriteAt_p (p : slice) (off : Z) : prog (F * W) (Z * err) :=
  l <~ atomic (in_world (in_heap (NewBytes p))) ;; writeBlobAt_p "writeat" (BBytes l) off.
Definition Seek_p (off whence : Z) : prog (F * W) (Z * err) :=
  cur <~ atomic get_offset ;;
  newOffset <~
    (if (whence =? 0)%Z then Done (Some off)
     else if (whence =? 1)%Z then Done (Some (add64 cur off))
     else if (whence =? 2)%Z then size <~ atomic f_Size ;; Done (Some (add64 size off))
     else Done None) ;;
  match newOffset with
  | None => e <~ error_p "seek" ErrInvalid ;; Done (0%Z, e)
  | Some newOffset =>
      if (newOffset <? 0)%Z then e <~ error_p "seek" ErrInvalid ;; Done (0%Z, e)
      else _ <~ atomic (put_offset newOffset) ;; Done (newOffset, None)
  end.

(** Each entry of a directory is looked up by itself. *)
Fixpoint newDirEntries_p (basePath : string) (names : list string) :
    prog W (list (dirEntry ST R) * err) :=
  match names with
  | [] => Done ([], None)
  | name :: names =>
      let~ (entry, e) := atomic (newDirEntry basePath name) in
      match e with
      | Some e => Done ([], Some e)
      | None =>
          let~ (entries, e) := newDirEntries_p basePath names in
          match e with
          | Some e => Done ([], Some e)
          | None => Done (entry :: entries, None)
          end
      end
  end.
Definition ReadDir_p (n : Z) : prog (F * W) (list (dirEntry ST R) * err) :=
  let~ (dirNames, e) := atomic f_ReadDirNames in
  match e with
  | Some e => e <~ error_p "readdir" e ;; Done ([], e)
  | None =>
      off <~ atomic get_offset ;;
      let len := Z.of_nat (length dirNames) in
      let start := if (n <=? 0)%Z then 0%Z else off in
      let end_ := if (n <=? 0)%Z then len
                  else if (len <? add64 off n)%Z then len else add64 off n in
      let offsetAdd := sub64 end_ start in
      p <~ atomic f_path ;;
      if ((0 <=? start) && (start <=? end_) && (end_ <=? len))%Z then
        let~ (entries, e) :=
          pworld (newDirEntries_p p
            (take (Z.to_nat (end_ - start)) (drop (Z.to_nat start) dirNames))) in
        match e with
        | Some e => Done ([], Some e)
        | None =>
            off <~ atomic get_offset ;;
            _ <~ atomic (put_offset (add64 off offsetAdd)) ;;
            Done (entries, None)
        end
      else atomic (panic "slice bounds out of range")
  end.

(** ** The file system *)
Definition Mkdir_p (name : string) (perm : Z) : prog W err :=
  file <~ atomic (newDir name perm) ;;
  let~ (_, e) := atomic (Stat name) in
  match e with
  | None => Done (wrapperErr "mkdir" name (Some ErrExist))
  | Some e =>
      if negb (error_Is e ErrNotExist) then Done (Some e) else
      failed <~ (if String.eqb name "." then Done None
                 else let~ (_, e) := atomic (Stat (Dir name)) in Done e) ;;
      match failed with
      | Some e => Done (wrapperErr "mkdir" name (Some e))
      | None => e <~ save_file_p file ;; Done (wrapperErr "mkdir" name e)
      end
  end.

Fixpoint make_dirs_p (perm : Z) (names : list string) : prog W err :=
  match names with
  | [] => Done None
  | name :: names =>
      file <~ atomic (newDir name perm) ;;
      e <~ save_file_p file ;;
      match ignoreErrExist (wrapperErr "mkdirall" name e) with
      | Some e => Done (Some e)
      | None => make_dirs_p perm names
      end
  end.
Definition MkdirAll_p (name : string) (perm : Z) : prog W err :=
  let~ (missingDirs, e) := atomic (findMissingDirs name) in
  match e with
  | Some e => Done (Some e)
  | None => make_dirs_p perm (rev missingDirs)
  end.

Definition finish_open_p (name : string) (flag : Z) (storeFile : F) :
    prog W (option (handle ST R) * err) :=
  let k := open_kind flag in
  if has_flag flag FlagTruncate then
    let~ (e, storeFile) := pvar storeFile (FileTruncate_p 0) in
    Done (Some (MkHandle k storeFile), wrapperErr "open" name e)
  else Done (Some (MkHandle k storeFile), None).

Definition OpenFile_p (name : string) (flag perm : Z) : prog W (option (handle ST R) * err) :=
  let create := has_flag flag FlagCreate in
  let~ (files, errs) := atomic (getFiles (if create then [name; Dir name] else [name])) in
  match files, errs with
  | storeFile :: _, None :: _ =>
      match storeFile with
      | None => atomic nil_deref
      | Some f =>
          let~ (mode, f) := atomic (on_var f f_Mode) in
          if IsDir mode && has_flag flag (Z.lor FlagCreate FlagWriteOnly) then
            Done (None, Some (PathError "open" name ErrIsDir))
          else finish_open_p name flag (MkFile (fileData_ f) (offset f) flag)
      end
  | _ :: _, Some e :: errs =>
      if error_Is e ErrNotExist && create then
        match errs with
        | [] => atomic (panic "index out of range")
        | Some e :: _ => Done (None, wrapperErr "open" name (Some e))
        | None :: _ =>
            f <~ atomic (newFile name flag (Z.land perm ModePerm)) ;;
            let~ (e, f) := pvar f f_save_p in
            match e with
            | Some e => Done (None, wrapperErr "open" name (Some e))
            | None => finish_open_p name flag f
            end
        end
      else Done (None, wrapperErr "open" name (Some e))
  | _, _ => atomic (panic "index out of range")
  end.

Definition Remove_p (name : string) : prog W err :=
  let~ (f, e) := atomic (getFile name) in
  match e, f with
  | Some e, _ => Done (wrapperErr "remove" name (Some e))
  | None, None => atomic nil_deref
  | None, Some f =>
      let~ (mode, f) := atomic (on_var f f_Mode) in
      if IsDir mode then
        let~ (r, f) := atomic (on_var f f_ReadDirNames) in
        match r with
        | (_, Some e) => Done (Some e)
        | ([], None) => delete_p name
        | (_ :: _, None) => Done (Some (PathError "remove" name ErrNotEmpty))
        end
      else delete_p name
  end.

(** [Rename]: a file moves in one transaction, a directory child by child. *)
Definition rename_file_p (oldname newname : string) (f : F) : prog W err :=
  if String.eqb oldname newname then Done None else
  let~ (r, f) := atomic (on_var f f_Data) in
  match r with
  | (_, Some e) => Done (Some e)
  | (contents, None) => atomic (move_record oldname newname (fileData_ f) contents)
  end.
Fixpoint rename_children_p (ren : string -> string -> prog W err) (oldname newname : string)
    (names : list string) : prog W err :=
  match names with
  | [] => Done None
  | name :: names =>
      e <~ ren (Join [oldname; name]) (Join [newname; name]) ;;
      match e with
      | Some e => Done (Some e)
      | None => rename_children_p ren oldname newname names
      end
  end.
Definition set_dir_p (name : string) (fd : option FD) : prog W err :=
  match fd with
  | Some fd => let~ (e, _) := setFile_p name fd in Done e
  | None => delete_p name
  end.
Definition rename_dir_p (ren : string -> string -> prog W err) (oldname newname : string)
    (f : F) : prog W err :=
  let~ (_, e) := atomic (getFile newname) in
  if negb (errors_Is e ErrNotExist) then
    Done (Some (LinkError "rename" oldname newname ErrExist))
  else
    let~ (r, f) := atomic (on_var f f_ReadDirNames) in
    match r with
    | (_, Some e) => Done (Some e)
    | (files, None) =>
        e <~ set_dir_p newname (fileData_ f) ;;
        match e with
        | Some e => Done (Some e)
        | None =>
            e <~ rename_children_p ren oldname newname files ;;
            match e with
            | Some e => Done (Some e)
            | None => delete_p oldname
            end
        end
    end.
Fixpoint Rename_p (fuel : nat) (oldname newname : string) : prog W err :=
  match fuel with
  | O => atomic out_of_fuel
  | S fuel =>
      let~ (f, e) := atomic (getFile oldname) in
      match e, f with
      | Some _, _ => Done (Some (LinkError "rename" oldname newname ErrNotExist))
      | None, None => atomic nil_deref
      | None, Some f =>
          let~ (mode, f) := atomic (on_var f (on_data (on_ro ro_Mode))) in
          if IsDir mode then rename_dir_p (Rename_p fuel) oldname newname f
          else rename_file_p oldname newname f
      end
  end.

Definition Chmod_p (name : string) (mode : Z) : prog W err :=
  let~ (f, e) := atomic (getFile name) in
  match e, f with
  | Some e, _ => Done (wrapperErr "chmod" name (Some e))
  | None, None => atomic nil_deref
  | None, Some f => let~ (e, _) := pvar f (FileChmod_p mode) in Done e
  end.

Definition Chtimes_p (name : string) (mtime : Z) : prog W err :=
  let~ (f, e) := atomic (getFile name) in
  match e, f with
  | Some e, _ => Done (wrapperErr "chtimes" name (Some e))
  | None, None => atomic nil_deref
  | None, Some f =>
      let~ (_, f) := atomic (on_var f
        (on_data (modify (fun s => (set_modTimeOverride mtime s.1, s.2))))) in
      save_file_p f
  end.

(** ** Alone they are the functions of [KVFS] and [KVFile] *)
Create HintDb alone.
#[local] Hint Resolve like_Done like_atomic : alone.
Ltac alone :=
  repeat first
    [ solve [auto with alone]
    | apply like_pbind; [|intros ?] | apply like_pvar
    | match goal with |- like (match ?x with _ => _ end) _ => destruct x end
    | match goal with |- like (if ?x then _ else _) _ => destruct x end ].

Lemma like_eq {S A} (p : prog S A) m m' : (forall s, m s = m' s) -> like p m -> like p m'.
Proof. intros E Hp s. by rewrite Hp. Qed.

Lemma setFile_p_like name fd :
  like (setFile_p name fd) (let* (e, fd') := setFile name (Some fd) in ret (e, default fd fd')).
Proof.
  apply (like_eq _ (let* (mode, fd1) := on_var fd fd_Mode in
     if IsRegular mode then
       let* (d, fd1) := on_var fd1 fd_Data in
       match d with
       | (_, Some e) => ret (Some e, fd1)
       | (contents, None) =>
           let* (e, fd') := setFile_commit name (Some fd1) contents in ret (e, default fd fd')
       end
     else let* (e, fd') := setFile_commit name (Some fd1) None in ret (e, default fd fd'))); [|alone].
  intros w. unfold setFile. rewrite bind_assoc. apply bind_ext. intros [mode fd1] w1.
  destruct (IsRegular mode); [|done]. rewrite bind_assoc. apply bind_ext.
  by intros [[contents [e|]] fd2] w2.
Qed.

Lemma pset_like {X A} (p : X -> prog W (A * X)) m :
  (forall x, like (p x) (m x)) ->
  like (pset p) (fun '(x, w) => match m x w with
                                | (Ret (a, x'), w') => (Ret a, (x', w'))
                                | (Panic why, w') => (Panic why, (x, w'))
                                | (Blocked, w') => (Blocked, (x, w'))
                                | (OutOfFuel, w') => (OutOfFuel, (x, w'))
                                end).
Proof.
  intros Hp. apply (like_eq _ (x <- gets fst ;; let* (a, x) := in_world (m x) in
                              modify (fun t => (x, t.2)) ;;; ret a)).
  - intros [x w]. go_simpl. unfold bind, in_world, zoom. simpl.
    by destruct (m x w) as [[[a x']|?| |] w'].
  - unfold pset, pworld, in_world. apply like_pbind; [alone|]. intros x.
    apply like_pbind; [by apply like_pzoom; [| |intros []|]|]. intros [a x']. alone.
Qed.

Lemma save_p_like : like save_p save.
Proof.
  eapply like_eq; [|apply pset_like; intros fd; apply setFile_p_like].
  intros [fd w]. unfold save, bind. by destruct (setFile (path fd) (Some fd) w) as [[[e fd']|?| |] w'].
Qed.

(** A call that looks at a closed file before anything else. *)
Lemma on_data_p_like {A} n (m : M (FD * W) A) :
  like (Atomic n) m -> like (on_data_p (Atomic n)) (on_data m).
Proof.
  intros Hp [[[fd|] off fl] w]; [|done]. unfold on_data. cbn [fileData_ offset flag]. rewrite <- Hp.
  generalize (Atomic n). clear. intros p. revert p fd w. fix IH 1. intros [a|n] fd w; [done|].
  simpl. destruct (n (fd, w)) as [[p|?| |] [fd' w']]; [|done..]. apply IH.
Qed.

Lemma f_save_p_like : like f_save_p f_save.
Proof. apply on_data_p_like, save_p_like. Qed.
#[local] Hint Resolve f_save_p_like : alone.

Lemma save_file_p_like f : like (save_file_p f) (save_file f).
Proof. unfold save_file_p, save_file. alone. Qed.
#[local] Hint Resolve save_file_p_like : alone.

Lemma error_p_like op e : like (error_p op e) (path_error op e).
Proof. apply like_atomic. Qed.
Lemma on_blob_p_like {A} b (m : Blob -> M heap A) : like (on_blob_p b m) (on_blob b m).
Proof. apply like_atomic. Qed.
#[local] Hint Resolve error_p_like on_blob_p_like : alone.

Lemma FileTruncate_p_like size : like (FileTruncate_p size) (FileTruncate size).
Proof. unfold FileTruncate_p, FileTruncate. alone. Qed.
(** Every wrapper has [Truncate]. *)
Lemma TruncateFile_p_like a size : like (FileTruncate_p size) (TruncateFile a size).
Proof.
  apply (like_eq _ (FileTruncate size)); [|apply FileTruncate_p_like]. intros s.
  unfold TruncateFile, method_or. destruct a; simpl; rewrite bind_assoc; unfold bind;
    by destruct (FileTruncate size s) as [[?|?| |] ?].
Qed.
#[local] Hint Resolve TruncateFile_p_like : alone.
Lemma FileChmod_p_like mode : like (FileChmod_p mode) (FileChmod mode).
Proof. unfold FileChmod_p, FileChmod. alone. Qed.
Lemma ReadBlobAt_p_like length off : like (ReadBlobAt_p length off) (ReadBlobAt length off).
Proof. unfold ReadBlobAt_p, ReadBlobAt. alone. Qed.
#[local] Hint Resolve FileTruncate_p_like FileChmod_p_like ReadBlobAt_p_like : alone.
Lemma ReadAt_p_like p off : like (ReadAt_p p off) (ReadAt p off).
Proof. unfold ReadAt_p, ReadAt. alone. Qed.
#[local] Hint Resolve ReadAt_p_like : alone.
Lemma Read_p_like p : like (Read_p p) (Read p).
Proof. unfold Read_p, Read. alone. Qed.
Lemma writeBlobAt_p_like op p off : like (writeBlobAt_p op p off) (writeBlobAt op p off).
Proof. unfold writeBlobAt_p, writeBlobAt. alone. Qed.
#[local] Hint Resolve writeBlobAt_p_like : alone.
Lemma Write_p_like p : like (Write_p p) (Write p).
Proof. unfold Write_p, Write, WriteBlob. alone. Qed.

Lemma WriteAt_p_like p off : like (WriteAt_p p off) (WriteAt p off).
Proof. unfold WriteAt_p, WriteAt, WriteBlobAt. alone. Qed.
Lemma Seek_p_like off whence : like (Seek_p off whence) (Seek off whence).
Proof. unfold Seek_p, Seek. alone. Qed.
Lemma newDirEntries_p_like base names : like (newDirEntries_p base names) (newDirEntries base names).
Proof. induction names as [|name names IH]; [done|]. cbn [newDirEntries_p newDirEntries]. alone. Qed.
Lemma pworld_like {X A} (p : prog W A) m : like p m -> like (S := X * W) (pworld p) (in_world m).
Proof. intros Hp. apply like_pzoom; [done|done|by intros []|done]. Qed.
Lemma ReadDir_p_like n : like (ReadDir_p n) (KVFile.ReadDir n).
Proof. pose proof newDirEntries_p_like. unfold ReadDir_p, KVFile.ReadDir. pose proof @pworld_like. alone. Qed.

Lemma make_dirs_p_like perm names : like (make_dirs_p perm names) (make_dirs perm names).
Proof. induction names as [|name names IH]; [done|]. cbn [make_dirs_p make_dirs]. alone. Qed.
#[local] Hint Resolve make_dirs_p_like : alone.
Lemma Mkdir_p_like name perm : like (Mkdir_p name perm) (Mkdir name perm).
Proof. unfold Mkdir_p, Mkdir. alone. Qed.
Lemma MkdirAll_p_like name perm : like (MkdirAll_p name perm) (MkdirAll name perm).
Proof. unfold MkdirAll_p, MkdirAll. alone. Qed.
Lemma finish_open_p_like name flag f : like (finish_open_p name flag f) (finish_open name flag f).
Proof. unfold finish_open_p, finish_open. alone. Qed.
Lemma delete_p_like name : like (delete_p name) (let* (e, _) := setFile name None in ret e).
Proof. apply like_atomic. Qed.
#[local] Hint Resolve finish_open_p_like delete_p_like : alone.
Lemma OpenFile_p_like name flag perm : like (OpenFile_p name flag perm) (OpenFile name flag perm).
Proof. unfold OpenFile_p, OpenFile. alone. Qed.
Lemma Remove_p_like name : like (Remove_p name) (Remove name).
Proof. unfold Remove_p, Remove. alone. Qed.
Lemma rename_file_p_like old new f : like (rename_file_p old new f) (rename_file old new f).
Proof. unfold rename_file_p, rename_file. alone. Qed.
Lemma rename_children_p_like ren_p ren old new names :
  (forall old new, like (ren_p old new) (ren old new)) ->
  like (rename_children_p ren_p old new names) (rename_children ren old new names).
Proof. intros Hr. induction names as [|name names IH]; [done|]. cbn [rename_children_p rename_children]. alone. Qed.
Lemma set_dir_p_like name fd : like (set_dir_p name fd) (let* (e, _) := setFile name fd in ret e).
Proof.
  destruct fd as [fd|]; [|apply like_atomic].
  apply (like_eq _ (let* (e, _) := let* (e, fd') := setFile name (Some fd) in ret (e, default fd fd') in ret e)).
  2: { apply like_pbind; [apply setFile_p_like|]. intros [e fd']. apply like_Done. }
  intros s. rewrite bind_assoc. apply bind_ext. by intros [e fd'] s'.
Qed.
Lemma rename_dir_p_like ren_p ren old new f :
  (forall old new, like (ren_p old new) (ren old new)) ->
  like (rename_dir_p ren_p old new f) (rename_dir ren old new f).
Proof.
  intros Hr. unfold rename_dir_p, rename_dir. apply like_pbind; [alone|intros [? e]].
  destruct (negb _); [alone|]. apply like_pbind; [alone|intros [[files [?|]] f']; [alone|]].
  set (rest (e : err) := match e with
    | Some e => ret (Some e)
    | None => e <- rename_children ren old new files ;;
              match e with Some e => ret (Some e) | None => let* (e, _) := setFile old None in ret e end
    end).
  apply (like_eq _ (e <- (let* (e, _) := setFile new (fileData_ f') in ret e) ;; rest e)).
  - intros s. rewrite bind_assoc. apply bind_ext. by intros [e' ?] s'.
  - apply like_pbind; [apply set_dir_p_like|intros e']. unfold rest. pose proof (rename_children_p_like ren_p ren old new files Hr). alone.
Qed.
Lemma Rename_p_like fuel old new : like (Rename_p fuel old new) (Rename fuel old new).
Proof.
  revert old new. induction fuel as [|fuel IH]; intros old new; cbn [Rename_p Rename]; [alone|].
  pose proof rename_file_p_like. pose proof rename_dir_p_like. alone.
Qed.
Lemma Chmod_p_like name mode : like (Chmod_p name mode) (Chmod name mode).
Proof. unfold Chmod_p, Chmod. alone. Qed.
Lemma Chtimes_p_like name atime mtime : like (Chtimes_p name mtime) (Chtimes name atime mtime).
Proof. unfold Chtimes_p, Chtimes. alone. Qed.
End prog.

(** ** Rules for steps that leave the state as it is

    For any relation of rely and guarantee that lets a goroutine do nothing. *)
Section steps.
Context {ST R T : Type} `{!RecordOps ST R, !Store ST R T, !GoRuntime} {V : Type}.
Notation W := (world ST).
Notation FD := (fileData ST R).
Notation F := (file ST R).
Context (rel : W -> V -> Prop) (Rel G : V -> V -> Prop) (HG : forall w v, rel w v -> G v v).
Notation safe := (safe rel Rel G).
Notation stable := (stable Rel).
Implicit Types (w : W) (v : V) (P : V -> Prop).

(** A step that changes nothing that others could see. *)
Lemma look_safe {A} (Q : A -> V -> Prop) n P (m : M W A) :
  stable P -> (forall a, stable (Q a)) ->
  (forall w v, rel w v -> P v -> exists a w', m w = (Ret a, w') /\ rel w' v /\ Q a v) ->
  safe Q (S n) P (atomic m).
Proof.
  intros HP HQ Hm. apply safe_atomic; [done..|]. intros w v Hw Hv.
  destruct (Hm w v Hw Hv) as (a & w' & ? & ? & ?). exists a, w', v. split_and!; [done..| |done].
  by apply (HG w).
Qed.

(** Storing what comes back in a variable of the goroutine, and saving a file. *)
Lemma put_safe (Q : err * F -> V -> Prop) n P (fd : FD) off fl (q : prog W (err * FD)) :
  safe (fun r v => Q (r.1, MkFile (Some r.2) off fl) v) n P q -> (forall r, stable (Q r)) ->
  safe Q (S n) P (pvar (MkFile (Some fd) off fl) (on_data_p
    (let~ (e, fd) := pworld q in atomic (modify (fun t => (fd, t.2)) ;;; ret e)))).
Proof.
  intros Hs HQ. revert P q Hs. induction n as [|n IH]; intros P [[e fd']|m] [Hst Hq]; [|done|..].
  1, 2: split; [done|]; intros w v Hw Hv;
    exists (Done (e, MkFile (Some fd') off fl)), w, v, (Q (e, MkFile (Some fd') off fl));
    split_and!; [done|done|by apply (HG w)|by apply Hq|by apply psafe_ret].
  split; [done|]. intros w v Hw Hv.
  destruct (Hq w v Hw Hv) as (q & w' & v' & P' & Em & Hw' & Hc & Hv' & Hs').
  eexists _, w', v', P'. split_and!; [|done|done|done|exact (IH P' q Hs')].
  simpl. by rewrite Em.
Qed.
Lemma save_safe (Q : err * F -> V -> Prop) n P (fd : FD) off fl :
  safe (fun r v => Q (r.1, MkFile (Some r.2) off fl) v) n P (setFile_p (path fd) fd) ->
  (forall r, stable (Q r)) ->
  safe Q (S (S n)) P (pvar (MkFile (Some fd) off fl) f_save_p).
Proof.
  intros Hs HQ. split; [by eapply safe_stable|]. intros w v Hw Hv.
  eexists _, w, v, P. split_and!; [reflexivity|done|by apply (HG w)|done|].
  by apply (put_safe Q n P fd off fl).
Qed.

(** A look at the variable of the goroutine. *)
Lemma var_safe {A B} (Q : B * F -> V -> Prop) (Q1 : A -> F -> V -> Prop) n P (f : F)
    (m : M (F * W) A) (k : A -> prog (F * W) B) :
  stable P ->
  (forall w v, rel w v -> P v -> exists a f' w',
     m (f, w) = (Ret a, (f', w')) /\ rel w' v /\ Q1 a f' v) ->
  (forall a f', safe Q n (Q1 a f') (pvar f' (k a))) ->
  safe Q (S n) P (pvar f (a <~ atomic m ;; k a)).
Proof.
  intros HP Hm Hk. split; [done|]. intros w v Hw Hv.
  destruct (Hm w v Hw Hv) as (a & f' & w' & Em & Hw' & Hq).
  exists (pvar f' (k a)), w', v, (Q1 a f'). split_and!; [|done|by apply (HG w)|done|apply Hk].
  unfold atomic, bind, pbind. simpl. by rewrite Em.
Qed.
(** A step, whatever is chosen after it; the same on a variable; and one call after
    another on the variable. *)
Lemma prog_step {A B} (Q : B -> V -> Prop) n P (m : M W A) (k : A -> prog W B) :
  stable P ->
  (forall w v, rel w v -> P v -> exists a w' v' P', m w = (Ret a, w') /\
     rel w' v' /\ G v v' /\ P' v' /\ safe Q n P' (k a)) ->
  safe Q (S n) P (a <~ atomic m ;; k a).
Proof.
  intros HP Hm. split; [done|]. intros w v Hw Hv.
  destruct (Hm w v Hw Hv) as (a & w' & v' & P' & Em & Hw' & Hg & HP' & Hs).
  exists (k a), w', v', P'. split_and!; [|done..].
  unfold atomic, bind, pbind. simpl. by rewrite Em.
Qed.
Lemma var_step {A B} (Q : B * F -> V -> Prop) n P (f : F) (m : M (F * W) A) (k : A -> prog (F * W) B) :
  stable P ->
  (forall w v, rel w v -> P v -> exists a f' w' v' P', m (f, w) = (Ret a, (f', w')) /\
     rel w' v' /\ G v v' /\ P' v' /\ safe Q n P' (pvar f' (k a))) ->
  safe Q (S n) P (pvar f (a <~ atomic m ;; k a)).
Proof.
  intros HP Hm. split; [done|]. intros w v Hw Hv.
  destruct (Hm w v Hw Hv) as (a & f' & w' & v' & P' & Em & Hw' & Hg & HP' & Hs).
  exists (pvar f' (k a)), w', v', P'. split_and!; [|done..].
  unfold atomic, bind, pbind. simpl. by rewrite Em.
Qed.
Lemma var_last {A} (Q : A * F -> V -> Prop) n P (f : F) (m : M (F * W) A) :
  stable P -> (forall r, stable (Q r)) ->
  (forall w v, rel w v -> P v -> exists a f' w' v', m (f, w) = (Ret a, (f', w')) /\
     rel w' v' /\ G v v' /\ Q (a, f') v') ->
  safe Q (S n) P (pvar f (atomic m)).
Proof.
  intros HP HQ Hm. split; [done|]. intros w v Hw Hv.
  destruct (Hm w v Hw Hv) as (a & f' & w' & v' & Em & Hw' & Hg & Hq).
  exists (Done (a, f')), w', v', (Q (a, f')). split_and!; [|done..|by apply psafe_ret].
  unfold atomic, bind. simpl. by rewrite Em.
Qed.
Lemma var_atomic_safe {A} (Q : A * F -> V -> Prop) n P (f : F) (m : M (F * W) A) :
  stable P -> (forall r, stable (Q r)) ->
  (forall w v, rel w v -> P v -> exists a f' w',
     m (f, w) = (Ret a, (f', w')) /\ rel w' v /\ Q (a, f') v) ->
  safe Q (S n) P (pvar f (atomic m)).
Proof.
  intros HP HQ Hm. apply var_last; [done..|]. intros w v Hw Hv.
  destruct (Hm w v Hw Hv) as (a & f' & w' & ? & ? & ?). exists a, f', w', v. split_and!; [done..| |done].
  by apply (HG w).
Qed.
Lemma var_bind_safe {A B} (Q1 : A * F -> V -> Prop) (Q : B * F -> V -> Prop) n1 n2 P (f : F)
    (p : prog (F * W) A) (k : A -> prog (F * W) B) :
  safe Q1 n1 P (pvar f p) -> (forall a f', safe Q n2 (Q1 (a, f')) (pvar f' (k a))) ->
  safe Q (n1 + n2) P (pvar f (a <~ p ;; k a)).
Proof.
  intros Hp Hk. revert P f p Hp. induction n1 as [|n1 IH]; intros P f [a|m] [Hst Hstep]; [|done|..].
  - apply (safe_pre _ _ _ _ _ (Q1 (a, f))); [done..|apply Hk].
  - apply (safe_pre _ _ _ _ _ (Q1 (a, f))); [done..|]. apply (safe_post _ _ _ Q _ n2); [lia|done|apply Hk].
  - split; [done|]. intros w v Hw Hv. destruct (Hstep w v Hw Hv) as (p & w' & v' & P' & E & ? & ? & ? & Hs).
    simpl in E. destruct (m (f, w)) as [r [f1 w1]] eqn:Em. injection E as Er ->.
    destruct r as [q| | |]; simpl in Er; try done. injection Er as <-.
    exists (pvar f1 (pbind q k)), w', v', P'. by split_and!; [..|apply IH].
Qed.
End steps.
