(* ===== verification/KVConc.v ===== *)
(** * Calls of many goroutines on one key-value file system

    What each call of [KVProg] does to the file system while others change it:
    rules of rely and guarantee over the tree, the heap of the blobs, and the
    new blobs that are not yet in the tree. *)
From S2P Require Import Prelude.
From S2P Require Import Paths.
From S2P Require Import Errors.
From S2P Require Import Modes.
From S2P Require Import Blob.
From S2P Require Import BlobSpec.
From S2P Require Import Record.
From S2P Require Import Txn.
From S2P Require Import KVFile.
From S2P Require Import KVFS.
From S2P Require Import StoreSpec.
From S2P Require Import FSSpec.
From S2P Require Import TreeFS.
From S2P Require Import TreeOps.
From S2P Require Import FileSpec.
From S2P Require Import FileIO.
From S2P Require Import Conc.
From S2P Require Import Prog.
From S2P Require Import KVProg.

Local Open Scope string_scope.

(** ** What a world stands for *)

(** [cv_new]: the goroutine that made a blob and has not stored it yet. *)
Record cview := MkView { cv_tree : tree; cv_heap : heap; cv_new : gmap nat nat }.
Definition cnodes (v : cview) : nodes := view (cv_heap v) (cv_tree v).

(** No file has contents. *)
Definition all_empty (h : heap) : Prop :=
  forall l, is_Some (blobs h !! l) -> blob_bytes h (BBytes l) = [].

Section state.
Context {ST R T : Type} `{!RecordOps ST R, !Store ST R T, !LawfulStore ST R T}.
Notation W := (world ST).
Implicit Types (w : W) (v : cview).

Record at_view w v : Prop := {
  av_at : fs_at w (cv_tree v);
  av_heap : w_heap w = cv_heap v;
  av_new l i : cv_new v !! l = Some i ->
    empty_blob (cv_heap v) l /\
    forall n e, cv_tree v !! n = Some e -> e_data e <> BBytes l
}.
End state.

(** *** How a state may change *)

(** Blobs stay what they are, and those that [mine] does not have are kept for
    their owner. *)
Record keeps (mine : nat -> Prop) (v v' : cview) : Prop := {
  kp_wf : wf_heap (cv_heap v) -> wf_heap (cv_heap v');
  kp_ext : ext (cv_heap v) (cv_heap v');
  kp_empty : all_empty (cv_heap v) -> all_empty (cv_heap v');
  kp_new l i : ~ mine i -> cv_new v !! l = Some i -> cv_new v' !! l = Some i
}.
(** Goroutine [i] changes no path but as [E] says: what it may put there, in
    which state. *)
Definition effect : Type := cview -> string -> option node -> Prop.
Definition changes (i : nat) (E : effect) (v v' : cview) : Prop :=
  keeps (eq i) v v' /\ forall p, cnodes v' !! p = cnodes v !! p \/ E v p (cnodes v' !! p).
Definition others_change (i : nat) (E : nat -> effect) (v v' : cview) : Prop :=
  keeps (fun j => j <> i) v v' /\
  forall p, cnodes v' !! p = cnodes v !! p \/ exists j, j <> i /\ E j v p (cnodes v' !! p).

Lemma changes_others (E : nat -> effect) i j v v' :
  i <> j -> changes i (E i) v v' -> others_change j E v v'.
Proof.
  intros Hij [[] Hn]. split; [split; auto|].
  - intros l k Hk. apply kp_new0. intros <-. by apply Hk.
  - intros p. destruct (Hn p) as [?|?]; [by left|right]. by exists i.
Qed.

(** *** The heap after [blob.NewBytes(nil)] *)
Definition new_heap (h : heap) : heap :=
  Heap (arrays h) (<[next h := MkBytes nil_slice 0 (S (next h))]> (blobs h))
    (<[S (next h) := false]> (mutexes h)) (S (S (next h))).

Lemma new_heap_spec h :
  wf_heap h -> wf_heap (new_heap h) /\ ext h (new_heap h) /\ empty_blob (new_heap h) (next h) /\
    (all_empty h -> all_empty (new_heap h)).
Proof.
  intros Hwf. destruct (NewBytes_spec h nil_slice Hwf (wf_nil_slice h))
    as (l & h' & E & Hwf' & He & Hl & Hm & -> & _).
  rewrite NewBytes_eq in E. injection E as <-. split_and!; [done..|by eexists|].
  intros Hem l [b Hb]. simpl in Hb. apply lookup_insert_Some in Hb as [[<- <-]|[Hne Hb]].
  - change (blobs (new_heap h) !! next h = Some (MkBytes nil_slice 0 (S (next h)))) in Hl.
    unfold blob_bytes. by rewrite (contents_Some _ _ _ Hl).
  - rewrite (blob_bytes_ext h (new_heap h) (BBytes l)) by (done || by exists b). apply Hem. by exists b.
Qed.

Lemma new_fd_gives_heap {ST R} `{!RecordOps ST R} name (mtime mode : Z) h :
  gives (new_fd (ST := ST) (R := R) name mtime mode) h (BBytes (next h)) (new_heap h).
Proof.
  eapply gives_record; [done..|]. intros w <-.
  cbn -[bind in_heap NewBytes]. rewrite (bind_Ret _ _ _ (next (w_heap w)) (set_heap (new_heap (w_heap w)) w)); [done|].
  unfold in_heap, zoom. by rewrite NewBytes_eq.
Qed.

(** ** Rules for the steps of calls *)
Section rules.
Context {ST R T : Type} `{!RecordOps ST R, !Store ST R T, !GoRuntime, !LawfulStore ST R T}.
Notation W := (world ST).
Notation FD := (fileData ST R).
Notation F := (file ST R).
Implicit Types (w : W) (v : cview) (P : cview -> Prop) (name : string).

(** A goroutine, what it may do, and what the others do. *)
Context (i : nat) (E : effect) (Rel : cview -> cview -> Prop).
Context (HR : forall v v', Rel v v' -> keeps (fun j => j <> i) v v').
Notation safe := (safe at_view Rel (changes i E)).
Notation stable := (stable Rel).

Lemma at_view_wf w v : at_view w v -> wf_heap (cv_heap v).
Proof. intros []. rewrite <- av_heap0. apply av_at0. Qed.

Lemma changes_refl w v : at_view w v -> changes i E v v.
Proof.
  intros Hw%at_view_wf. split; [split; [done|by apply ext_refl|done..]|]. by left.
Qed.

Lemma at_view_store w v s : at_view w v -> holds s (cv_tree v) -> at_view (set_store s w) v.
Proof. intros [] Hs. split; [by apply fs_at_store|done..]. Qed.

(** The rules for steps that leave the state as it is. *)
Lemma safe_look {A} (Q : A -> cview -> Prop) n P (m : M W A) :
  stable P -> (forall a, stable (Q a)) ->
  (forall w v, at_view w v -> P v -> exists a w', m w = (Ret a, w') /\ at_view w' v /\ Q a v) ->
  safe Q (S n) P (atomic m).
Proof. apply look_safe, changes_refl. Qed.
(** *** Looking at paths *)
Definition stat_err (v : cview) name : err :=
  match spec_stat missing_err (cnodes v) name with inl _ => None | inr e => Some e end.

Lemma Stat_step name w v :
  at_view w v -> exists i s, Stat name w = (Ret (i, stat_err v name), set_store s w) /\
    at_view (set_store s w) v.
Proof.
  intros Hw. destruct (Stat_at name w (cv_tree v) (av_at w v Hw)) as (fi & s & Hat & Hst).
  rewrite (av_heap w v Hw) in Hst. unfold stat_err, cnodes.
  destruct (spec_stat missing_err (view (cv_heap v) (cv_tree v)) name).
  - destruct Hst as (en & i' & E1 & _). exists fi, s. split; [done|].
    apply at_view_store; [done|]. apply (at_holds _ _ Hat).
  - destruct Hst as [E1 _]. exists fi, s. split; [done|].
    apply at_view_store; [done|]. apply (at_holds _ _ Hat).
Qed.

Lemma safe_save (Q : err * F -> cview -> Prop) n P (fd : FD) off fl :
  safe (fun r v => Q (r.1, MkFile (Some r.2) off fl) v) n P (setFile_p (path fd) fd) ->
  (forall r, stable (Q r)) ->
  safe Q (S (S n)) P (pvar (MkFile (Some fd) off fl) f_save_p).
Proof. apply save_safe, changes_refl. Qed.

(** *** Saving *)

(** A new entry with a new blob. *)
Definition inserts name (nd : node) (v v' : cview) : Prop :=
  changes i E v v' /\ cnodes v' = <[name := nd]> (cnodes v).

(** Storing the record of a new directory: the transaction makes the blob. *)
Lemma insert_at_view w v s h' name nd e :
  at_view w v -> fs_at (set_store s (set_heap h' w)) (<[name := e]> (cv_tree v)) ->
  view h' (<[name := e]> (cv_tree v)) = <[name := nd]> (cnodes v) ->
  ext (cv_heap v) h' -> (all_empty (cv_heap v) -> all_empty h') ->
  (forall l j, cv_new v !! l = Some j -> e_data e <> BBytes l) ->
  E v name (Some nd) ->
  let v' := MkView (<[name := e]> (cv_tree v)) h' (cv_new v) in
  at_view (set_store s (set_heap h' w)) v' /\ inserts name nd v v'.
Proof.
  intros Hw Hat Hview He Hem Hfresh HE v'. pose proof (at_view_wf w v Hw) as Hwf.
  split; [split; [done|done|]|].
  - intros l j Hl. destruct (av_new w v Hw l j Hl) as [Hb Ht]. split.
    + destruct Hb as (m & Hb & Hm). exists m. simpl.
      rewrite (ext_blobs _ _ He) by (by eapply blob_lt).
      rewrite (ext_mutexes _ _ He) by (by eapply mutex_lt). done.
    + intros n e'. simpl. intros [[<- <-]|[_ En]]%lookup_insert_Some; [by apply (Hfresh l j)|by apply (Ht n)].
  - split; [split|exact Hview]; [split; [intros _; apply Hat|done..]|].
    intros p. unfold cnodes at 1 3. simpl. rewrite Hview.
    destruct (decide (p = name)) as [->|Hp]; [right; by rewrite lookup_insert_eq|left].
    by rewrite lookup_insert_ne.
Qed.

Lemma safe_save_new_dir name mtime mode fl P Q :
  ValidPath name = true -> IsRegular mode = false -> stable P -> (forall e, stable (Q e)) ->
  (forall v, P v -> E v name (Some (MkNode mode mtime []))) ->
  (forall v v', P v -> inserts name (MkNode mode mtime []) v v' -> Q None v') ->
  safe Q 4 P (save_file_p (MkFile (Some (new_fd name mtime mode)) 0 fl)).
Proof.
  intros Hv Hreg HP HQ HE Hq. set (fd := new_fd name mtime mode).
  apply (psafe_bind _ _ _ (fun r v => Q r.1 v) Q 4 0); [|intros [e f]; by apply psafe_ret].
  apply safe_save; [|auto]. change (path fd) with name. unfold setFile_p.
  apply (psafe_bind _ _ _ (fun r v => (r.1 = mode /\ fd_same fd r.2) /\ P v) _ 1 1).
  { apply safe_look; [done|auto with go_stable|]. intros w v Hw Hv'.
    destruct (fd_Mode_run fd mode w) as (fd1 & E1 & H1); [done|].
    exists (mode, fd1), w. split_and!; [by apply on_var_run|done..]. }
  intros [mode' fd1]. cbn [fst snd]. apply safe_assume; [auto with go_stable|]. intros [-> Hsame].
  rewrite Hreg. apply safe_atomic; [done|auto|]. intros w v Hw HPv. pose proof (av_at w v Hw) as Hat.
  pose proof (av_heap w v Hw) as Hh. pose proof (at_view_wf w v Hw) as Hwf.
  destruct (new_heap_spec (cv_heap v) Hwf) as (Hwf' & He & Hb & Hem).
  destruct (setFile_commit_Some name fd1 mode mtime (BBytes (next (w_heap w))) None w
              (new_heap (w_heap w)) (cv_tree v) (at_holds _ _ Hat) Hv) as (fd2 & s & E2 & Hs & _).
  { by rewrite (fd_same_mode fd fd1). }
  { by rewrite (same_mtime fd fd1). }
  { apply (gives_same fd); [done|apply new_fd_gives_heap]. }
  { done. }
  destruct (fs_at_new w (cv_tree v) s (new_heap (cv_heap v)) name mode mtime) as [Hat' Hview];
    [done|done|by rewrite Hh|by rewrite Hh|done|].
  rewrite Hh in *. eexists (None, fd2), (set_store s (set_heap (new_heap (cv_heap v)) w)), _.
  destruct (insert_at_view w v s (new_heap (cv_heap v)) name (MkNode mode mtime []) _ Hw Hat' Hview He Hem)
    as [Hw' Hi]; [|by apply HE|].
  { intros l j Hl [= <-]. destruct (av_new w v Hw _ _ Hl) as [(m & Hbl & _) _].
    pose proof (blob_lt _ _ _ Hwf Hbl). lia. }
  split_and!; [by run E2|exact Hw'|apply Hi|by eapply Hq].
Qed.

(** ** [Mkdir] *)
Definition dir_mode (perm : Z) : Z := Z.lor ModeDir (Z.land perm ModePerm).

Lemma stat_err_None v name :
  stat_err v name = None -> ValidPath name = true /\ is_Some (cnodes v !! name).
Proof.
  unfold stat_err, spec_stat. destruct (ValidPath name); [|done].
  destruct (cnodes v !! name); [by eauto|done].
Qed.
Lemma stat_err_Some v name e :
  stat_err v name = Some e ->
  if ValidPath name then cnodes v !! name = None /\ e = PathError "stat" name (missing_err name)
  else e = PathError "stat" name ErrInvalid.
Proof.
  unfold stat_err, spec_stat. destruct (ValidPath name); [|by intros [= <-]].
  destruct (cnodes v !! name); [done|]. by intros [= <-].
Qed.

(** [P1] holds once [name] was seen to be missing, [P2] once its parent was seen
    to be there. *)
Lemma Mkdir_safe name perm P P1 P2 Q :
  stable P -> stable P1 -> stable P2 -> (forall e, stable (Q e)) ->
  (forall v, P v -> ValidPath name = false -> Q (Some (PathError "stat" name ErrInvalid)) v) ->
  (forall v, P v -> ValidPath name = true -> is_Some (cnodes v !! name) ->
     Q (Some (PathError "mkdir" name ErrExist)) v) ->
  (forall v, P v -> ValidPath name = true -> cnodes v !! name = None -> P1 v) ->
  (forall v, P1 v -> ValidPath name = true -> name <> "." -> cnodes v !! Dir name = None ->
     Q (Some (PathError "mkdir" name (PathError "stat" (Dir name) (missing_err (Dir name))))) v) ->
  (forall v, P1 v -> ValidPath name = true -> (name <> "." -> is_Some (cnodes v !! Dir name)) -> P2 v) ->
  (forall v now, P2 v -> E v name (Some (dir_node now perm))) ->
  (forall v v' now, P2 v -> inserts name (dir_node now perm) v v' -> Q None v') ->
  safe Q 7 P (Mkdir_p name perm).
Proof.
  intros HP HP1 HP2 HQ Hinv Hex Hmiss Hnop Hpar HE Hq. unfold Mkdir_p.
  set (is_new f := exists now, f = MkFile (Some (new_fd (ST := ST) (R := R) name now (dir_mode perm))) 0 0).
  apply (psafe_bind _ _ _ (fun f v => is_new f /\ P v) Q 1 6).
  { apply safe_look; [done|auto with go_stable|]. intros w v Hw Hv.
    eexists _, w. split_and!; [apply newDir_run|done|by eexists|done]. }
  intros file. apply safe_assume; [auto with go_stable|]. intros [now ->].
  apply (psafe_bind _ _ _ (fun r v => match r.2 with
    | None => ValidPath name = true /\ Q (Some (PathError "mkdir" name ErrExist)) v
    | Some e => if ValidPath name then e = PathError "stat" name (missing_err name) /\ P1 v
                else Q (Some (PathError "stat" name ErrInvalid)) v /\ e = PathError "stat" name ErrInvalid
    end) Q 1 5).
  { apply safe_look; [done|intros [? [e|]]; simpl; [destruct (ValidPath name)|]; auto with go_stable|].
    intros w v Hw Hv. destruct (Stat_step name w v Hw) as (fi & s & Es & Hw').
    eexists _, _. split_and!; [exact Es|done|]. simpl. destruct (stat_err v name) as [e|] eqn:Ee.
    - apply stat_err_Some in Ee. destruct (ValidPath name) eqn:Hvp; [|auto]. destruct Ee. auto.
    - apply stat_err_None in Ee as [Hvp Hs]. auto. }
  intros [fi [e|]]; cbn [fst snd].
  2: { split; [auto with go_stable|]. by intros v []. }
  destruct (ValidPath name) eqn:Hvp.
  2: { apply (safe_pre _ _ _ _ _ (fun v => e = PathError "stat" name ErrInvalid /\
                Q (Some (PathError "stat" name ErrInvalid)) v)); [auto with go_stable|intros v []; auto|].
       apply safe_assume; [auto with go_stable|]. intros ->. by apply psafe_ret. }
  apply safe_assume; [auto with go_stable|]. intros ->.
  rewrite (error_Is_Unwrap _ (missing_err name)) by (done || apply law_missing). cbn [negb].
  apply (psafe_bind _ _ _ (fun e v => match e with
    | None => P2 v
    | Some e => Q (Some (PathError "mkdir" name e)) v
    end) Q 1 4).
  - destruct (String.eqb_spec name ".") as [Hdot|Hdot].
    { split; [done|]. intros v Hv. by apply Hpar. }
    apply (psafe_bind _ _ _ (fun r v => match r.2 with
      | None => P2 v
      | Some e => Q (Some (PathError "mkdir" name e)) v
      end) _ 1 0).
    + apply safe_look; [done|intros [? [?|]]; simpl; auto|]. intros w v Hw Hv.
      destruct (Stat_step (Dir name) w v Hw) as (fi' & s & Es & Hw').
      eexists _, _. split_and!; [exact Es|done|]. simpl.
      destruct (stat_err v (Dir name)) as [e|] eqn:Ee.
      * apply stat_err_Some in Ee. rewrite Dir_valid in Ee by done. destruct Ee as [? ->]. auto.
      * apply stat_err_None in Ee as [_ Hs]. by apply Hpar.
    + intros [? e]. apply safe_done; [destruct e; simpl; auto|done].
  - intros [e|]; [by apply safe_done|].
    apply (psafe_bind _ _ _ (fun e v => Q (wrapperErr "mkdir" name e) v) Q 4 0).
    + apply safe_save_new_dir; [done|apply IsRegular_newDir|done|intros e; apply HQ|intros v; apply HE|].
      intros v v' Hv Hi. by apply (Hq v v' now).
    + intros e. by apply psafe_ret.
Qed.

(** ** [Remove] *)
Lemma delete_at_view w v s name :
  at_view w v -> fs_at (set_store s w) (delete name (cv_tree v)) -> E v name None ->
  let v' := MkView (delete name (cv_tree v)) (cv_heap v) (cv_new v) in
  at_view (set_store s w) v' /\ changes i E v v' /\ cnodes v' = delete name (cnodes v).
Proof.
  intros Hw Hat HE v'. destruct (changes_refl w v Hw) as [Hk _].
  assert (Hview : cnodes v' = delete name (cnodes v)) by apply view_delete.
  split_and!; [|split; [by destruct Hk; split|]|done].
  - split; [done|apply Hw|]. intros l j Hl. destruct (av_new w v Hw l j Hl) as [Hb Ht]. split; [done|].
    intros n e. simpl. intros [_ En]%lookup_delete_Some. by apply (Ht n).
  - intros p. rewrite Hview. destruct (decide (p = name)) as [->|Hp].
    + right. by rewrite lookup_delete_eq.
    + left. by rewrite lookup_delete_ne.
Qed.

Lemma delete_safe name n P Q :
  ValidPath name = true -> stable P -> (forall e, stable (Q e)) -> (forall v, P v -> E v name None) ->
  (forall v v', P v -> changes i E v v' -> cnodes v' = delete name (cnodes v) -> Q None v') ->
  safe Q (S n) P (delete_p name).
Proof.
  intros Hvp HP HQ HE Hq. apply safe_atomic; [done..|]. intros w v Hw Hv.
  destruct (delete_at name w (cv_tree v) (av_at w v Hw) Hvp) as (s & Ed & Hat).
  destruct (delete_at_view w v s name Hw Hat (HE v Hv)) as (Hw' & Hc & Hn).
  eexists None, _, _. split_and!; [exact Ed|exact Hw'|exact Hc|]. by apply (Hq v).
Qed.

(** [P1 n] holds once [n] was seen at the path, [P2] once it may be deleted. *)
Lemma Remove_safe name P (P1 : node -> cview -> Prop) P2 Q :
  stable P -> (forall n, stable (P1 n)) -> stable P2 -> (forall e, stable (Q e)) ->
  (forall v, P v -> ValidPath name = false -> Q (Some (PathError "remove" name ErrInvalid)) v) ->
  (forall v, P v -> ValidPath name = true -> cnodes v !! name = None ->
     Q (Some (PathError "remove" name (missing_err name))) v) ->
  (forall v n, P v -> ValidPath name = true -> cnodes v !! name = Some n -> P1 n v) ->
  (forall v n, P1 n v -> IsDir (n_mode n) = true -> children (cnodes v) name <> [] ->
     Q (Some (PathError "remove" name ErrNotEmpty)) v) ->
  (forall v n, P1 n v -> (IsDir (n_mode n) = true -> children (cnodes v) name = []) -> P2 v) ->
  (forall v, P2 v -> E v name None) ->
  (forall v v', P2 v -> changes i E v v' -> cnodes v' = delete name (cnodes v) -> Q None v') ->
  safe Q 4 P (Remove_p name).
Proof.
  intros HP HP1 HP2 HQ Hinv Hmiss Hfound Hfull Hfree HE Hq. unfold Remove_p.
  set (found (n : node) (r : option F * err) := exists e rec, n_mode n = e_mode e /\
         ValidPath name = true /\ is_record name e rec /\
         r = (Some (load_file name (Some (StoreRecord rec))), None)).
  apply (psafe_bind _ _ _ (fun r v => match r.2 with
    | Some e => Q (wrapperErr "remove" name (Some e)) v
    | None => exists n, found n r /\ P1 n v
    end) Q 1 3).
  { apply safe_look; [done|intros [? [e|]]; simpl; auto with go_stable|]. intros w v Hw Hv.
    destruct (getFile_at "remove" name w (cv_tree v) (av_at w v Hw)) as (r & s & Eg & Hat & Hr).
    eexists r, _. split_and!; [exact Eg|apply at_view_store; [done|apply (at_holds _ _ Hat)]|].
    rewrite (av_heap w v Hw) in Hr. change (view (cv_heap v) (cv_tree v)) with (cnodes v) in Hr.
    unfold spec_get in Hr. destruct (ValidPath name) eqn:Hvp.
    - destruct (cnodes v !! name) as [n|] eqn:En.
      + destruct Hr as (e & rec & _ & -> & _ & Hrec & ->). simpl. eexists. split; [|by eapply Hfound].
        exists e, rec. by split_and!.
      + destruct Hr as (f & e & -> & [= <-]). simpl. by apply Hmiss.
    - destruct Hr as (f & e & -> & [= <-]). simpl. by apply Hinv. }
  intros [f [e|]]; cbn [fst snd]; [by apply safe_done|].
  apply safe_ex; [auto with go_stable|]. intros n. apply safe_assume; [auto with go_stable|].
  intros (e & rec & Emode & Hvp & Hrec & [= ->]).
  set (opened (r : Z * F) := exists fd, r = (e_mode e, MkFile (Some fd) 0 0) /\
         record (fd_ro fd) = Some (StoreRecord rec) /\ ro_dirNames (fd_ro fd) = None).
  apply (psafe_bind _ _ _ (fun r v => opened r /\ P1 n v) Q 1 2).
  { apply safe_look; [done|auto with go_stable|]. intros w v Hw Hv.
    destruct (loaded_Mode name e rec w Hrec) as (fd & Em & _ & Hfr & Hfn & _).
    eexists _, w. split_and!; [by apply on_var_run|done| |done]. by exists fd. }
  intros [mode f]. apply safe_assume; [auto with go_stable|]. intros (fd & [= -> ->] & Hfr & Hfn).
  rewrite <- Emode. destruct (IsDir (n_mode n)) eqn:Hd.
  2: { apply (safe_pre _ _ _ _ _ P2); [done|intros v Hv; apply (Hfree v n); by rewrite ?Hd|].
       by apply delete_safe with (P := P2). }
  apply (psafe_bind _ _ _ (fun r v => match r.1 with
    | ([], None) => P2 v
    | (_ :: _, None) => Q (Some (PathError "remove" name ErrNotEmpty)) v
    | _ => False
    end) Q 1 1).
  { apply safe_look; [done|intros [[[|? ?] [?|]] ?]; simpl; auto with go_stable|]. intros w v Hw Hv.
    destruct (loaded_ReadDirNames name e rec fd w (cv_tree v) 0 0 Hrec Hvp (at_holds _ _ (av_at w v Hw)) Hfr Hfn)
      as (names & fd' & Er & Hn & _).
    rewrite <- Emode, Hd in Er. eexists _, w. split_and!; [exact Er|done|]. simpl.
    assert (Hc : names ≡ₚ children (cnodes v) name) by (unfold cnodes; by rewrite children_view).
    destruct names as [|x names].
    - apply (Hfree v n Hv). intros _. by apply Permutation_nil_r.
    - apply (Hfull v n Hv Hd). intros Hnil. rewrite Hnil in Hc. by apply Permutation_nil_r in Hc. }
  intros [[[|? ?] [?|]] ?]; cbn [fst snd].
  - apply safe_done; [simpl; auto with go_stable|done].
  - by apply delete_safe with (P := P2).
  - apply safe_done; [simpl; auto with go_stable|done].
  - apply safe_done; [simpl; auto|done].
Qed.

(** ** [MkdirAll] *)
Lemma spec_missing_prefix (v : nodes) ps qs :
  spec_missing v ps = inl qs -> qs `prefix_of` ps.
Proof.
  revert qs. induction ps as [|p ps IH]; intros qs; simpl; [by intros [= <-]|].
  destruct (v !! p) as [n|]; [destruct (IsDir (n_mode n)); [intros [= <-]; apply prefix_nil|done]|].
  destruct (spec_missing v ps) as [qs'|]; [|done]. intros [= <-]. by apply prefix_cons, IH.
Qed.

Lemma findMissingDirs_step name w v :
  short name -> ValidPath name = true -> at_view w v ->
  exists s, findMissingDirs name w =
      (Ret (match spec_missing (cnodes v) (ancestors name) with
            | inl ps => (ps, None)
            | inr e => ([], Some e)
            end), set_store s w) /\ at_view (set_store s w) v.
Proof.
  intros Hshort Hvp Hw. unfold findMissingDirs. rewrite Hvp. cbn [negb].
  run (parents_run _ name w eq_refl Hvp).
  destruct (statAll_spec (ancestors name) w (cv_tree v) (at_holds _ _ (av_at w v Hw))) as (rs & s & Es & Hs & Hrs).
  { rewrite length_ancestors. unfold short, int64_max in *. lia. }
  exists s. split; [|by apply at_view_store]. run Es.
  by rewrite (missing_prefix_spec (cv_heap v) (cv_tree v) (ancestors name) rs _ Hrs).
Qed.

(** [P names] holds while [names] are still to be made. *)
Lemma make_dirs_safe perm names (P : list string -> cview -> Prop) Q :
  (forall ns, stable (P ns)) -> (forall e, stable (Q e)) ->
  Forall (fun p => ValidPath p = true) names ->
  (forall p ns v now, P (p :: ns) v -> E v p (Some (dir_node now perm))) ->
  (forall p ns v v' now, P (p :: ns) v -> inserts p (dir_node now perm) v v' -> P ns v') ->
  (forall v, P [] v -> Q None v) ->
  safe Q (S (5 * length names)) (P names) (make_dirs_p perm names).
Proof.
  intros HP HQ Hv HE Hstep Hend. induction Hv as [|p names Hp Hv IH]; [by apply safe_done|].
  cbn [make_dirs_p]. replace (S (5 * length (p :: names))) with (1 + (4 + S (5 * length names))) by (simpl; lia).
  set (is_new f := exists now, f = MkFile (Some (new_fd (ST := ST) (R := R) p now (dir_mode perm))) 0 0).
  apply (psafe_bind _ _ _ (fun f v => is_new f /\ P (p :: names) v)).
  { apply safe_look; [done|auto with go_stable|]. intros w v Hw Hv'.
    eexists _, w. split_and!; [apply newDir_run|done|by eexists|done]. }
  intros file. apply safe_assume; [auto with go_stable|]. intros [now ->].
  apply (psafe_bind _ _ _ (fun e v => e = None /\ P names v) Q 4).
  { apply safe_save_new_dir; [done|apply IsRegular_newDir|done|auto with go_stable|intros v; apply HE|].
    intros v v' Hv' Hi. split; [done|]. by apply (Hstep p names v v' now). }
  intros e. apply safe_assume; [auto with go_stable|]. intros ->. apply IH.
Qed.

Lemma MkdirAll_safe name perm P (P1 : list string -> cview -> Prop) Q :
  short name -> stable P -> (forall ns, stable (P1 ns)) -> (forall e, stable (Q e)) ->
  (forall v, P v -> ValidPath name = false -> Q (Some ErrInvalid) v) ->
  (forall v e, P v -> ValidPath name = true -> spec_missing (cnodes v) (ancestors name) = inr e ->
     Q (Some e) v) ->
  (forall v ps, P v -> ValidPath name = true -> spec_missing (cnodes v) (ancestors name) = inl ps ->
     P1 (rev ps) v) ->
  (forall p ns v now, P1 (p :: ns) v -> E v p (Some (dir_node now perm))) ->
  (forall p ns v v' now, P1 (p :: ns) v -> inserts p (dir_node now perm) v v' -> P1 ns v') ->
  (forall v, P1 [] v -> Q None v) ->
  safe Q (2 + 5 * S (length (elems name))) P (MkdirAll_p name perm).
Proof.
  intros Hshort HP HP1 HQ Hinv Herr Hmiss HE Hstep Hend. unfold MkdirAll_p.
  set (fits (ps : list string) := ps `prefix_of` ancestors name).
  apply (psafe_bind _ _ _ (fun r v => match r.2 with
    | Some e => Q (Some e) v
    | None => (ValidPath name = true /\ fits r.1) /\ P1 (rev r.1) v
    end) Q 1).
  { apply safe_look; [done|intros [? [?|]]; simpl; auto with go_stable|]. intros w v Hw Hv.
    destruct (ValidPath name) eqn:Hvp.
    2: { exists ([], Some ErrInvalid), w. split_and!; [|done|simpl; by apply Hinv].
         unfold findMissingDirs. by rewrite Hvp. }
    destruct (findMissingDirs_step name w v Hshort Hvp Hw) as (s & Es & Hw').
    destruct (spec_missing (cnodes v) (ancestors name)) as [ps|e] eqn:Em.
    - exists (ps, None), (set_store s w). split_and!; [done..|]. split; [|by apply Hmiss].
      split; [done|]. by eapply spec_missing_prefix.
    - exists ([], Some e), (set_store s w). split_and!; [done..|]. by apply Herr. }
  intros [ps [e|]]; cbn [fst snd]; [by apply safe_done|].
  apply safe_assume; [auto with go_stable|]. intros [Hvp Hps].
  apply (safe_post _ _ _ Q _ (S (5 * length (rev ps)))); [|done|].
  { rewrite length_rev. apply prefix_length in Hps. rewrite length_ancestors in Hps. lia. }
  apply make_dirs_safe; [done..| |done|done|done].
  apply Forall_rev. destruct Hps as [qs Hps]. pose proof (ancestors_valid name Hvp) as Ha.
  rewrite Hps in Ha. by apply Forall_app in Ha as [? _].
Qed.

(** ** Creating and truncating files *)

(** The blob of a new file is its goroutine's until the record is stored. *)
Definition owns l (v : cview) : Prop := cv_new v !! l = Some i.
Lemma stable_owns l : stable (owns l).
Proof. intros v v' Hl Hr. apply (kp_new _ _ _ (HR v v' Hr)); [by intros Hn|done]. Qed.

(** A file that was opened; it need not be in the tree any more. *)
Definition opened_at name e (fd : FD) (v : cview) : Prop :=
  wf_heap (cv_heap v) /\ live (cv_heap v) (e_data e) /\ file_of name e fd /\
  sized (cv_heap v) (e_data e) fd.
Lemma stable_opened_at name e fd : stable (opened_at name e fd).
Proof.
  intros v v' (Hwf & Hl & Hf & Hs) [Hwf' He _ _]%HR. split_and!; [auto|by eapply live_ext|done|].
  unfold sized, blob_len in *. by rewrite (blob_bytes_ext (cv_heap v) (cv_heap v')).
Qed.
Lemma opened_handle w v name e fd :
  at_view w v -> opened_at name e fd v -> handle_of w name e fd.
Proof. intros Hw (_ & _ & Hf & Hs). split; [done|]. by rewrite (av_heap w v Hw). Qed.

Lemma stable_all_empty : stable (fun v => all_empty (cv_heap v)).
Proof. intros v v' He Hr. by apply (kp_empty _ _ _ (HR v v' Hr)). Qed.
#[local] Hint Resolve stable_owns stable_opened_at stable_all_empty : go_stable.

Lemma safe_var {A B} (Q : B * F -> cview -> Prop) (Q1 : A -> F -> cview -> Prop) n P (f : F)
    (m : M (F * W) A) (k : A -> prog (F * W) B) :
  stable P ->
  (forall w v, at_view w v -> P v -> exists a f' w',
     m (f, w) = (Ret a, (f', w')) /\ at_view w' v /\ Q1 a f' v) ->
  (forall a f', safe Q n (Q1 a f') (pvar f' (k a))) ->
  safe Q (S n) P (pvar f (a <~ atomic m ;; k a)).
Proof. apply var_safe, changes_refl. Qed.
Lemma safe_var_atomic {A} (Q : A * F -> cview -> Prop) n P (f : F) (m : M (F * W) A) :
  stable P -> (forall r, stable (Q r)) ->
  (forall w v, at_view w v -> P v -> exists a f' w',
     m (f, w) = (Ret a, (f', w')) /\ at_view w' v /\ Q (a, f') v) ->
  safe Q (S n) P (pvar f (atomic m)).
Proof. apply var_atomic_safe, changes_refl. Qed.
Lemma opened_path_error op name e (fd : FD) off fl er w :
  file_of name e fd ->
  path_error op er (opened_file fd off fl, w) = (Ret (Some (PathError op name er)), (opened_file fd off fl, w)).
Proof. intros [Hp _ _ _]. unfold path_error, f_path, on_data, bind, gets, ret. simpl. by rewrite Hp. Qed.

Lemma empty_len h b : all_empty h -> live h b -> blob_len h b = 0%Z.
Proof. intros He Hl. unfold blob_len. destruct b as [l|]; [|done]. by rewrite He. Qed.

Lemma FileTruncate_empty_safe name e fd off fl n P (Q : err * F -> cview -> Prop) :
  stable P -> (forall r, stable (Q r)) ->
  (forall v, P v -> all_empty (cv_heap v)) ->
  (forall v fd', P v -> IsDir (e_mode e) = true ->
     Q (Some (PathError "truncate" name ErrIsDir), opened_file fd' off fl) v) ->
  (forall v fd', P v -> IsDir (e_mode e) = false -> Q (None, opened_file fd' off fl) v) ->
  safe Q (3 + n) (fun v => P v /\ opened_at name e fd v) (pvar (opened_file fd off fl) (FileTruncate_p 0)).
Proof.
  intros HP HQ Hem Hdir Hfile. unfold FileTruncate_p.
  set (is_file (f' : F) v := exists fd', f' = opened_file fd' off fl /\ P v /\ opened_at name e fd' v).
  apply (safe_var _ (fun mode f' v => mode = e_mode e /\ is_file f' v)); [auto with go_stable|..].
  { intros w v Hw [Hv Ho].
    destruct (f_Mode_run w name e fd off fl (opened_handle w v name e fd Hw Ho)) as (fd' & Em & Ho').
    eexists _, _, w. split_and!; [exact Em|done|done|]. exists fd'. split_and!; [done..|].
    destruct Ho as (? & ? & _). destruct Ho' as [? Hs]. rewrite (av_heap w v Hw) in Hs. done. }
  intros mode f'. apply safe_assume; [unfold is_file; auto 10 with go_stable|]. intros ->.
  apply safe_ex; [unfold is_file; auto 10 with go_stable|]. intros fd'.
  apply safe_assume; [auto 10 with go_stable|]. intros ->.
  destruct (IsDir (e_mode e)) eqn:Hd.
  { apply safe_var_atomic; [auto with go_stable|done|]. intros w v Hw (Hv & _ & _ & Hf & _).
    eexists _, _, w. split_and!; [by apply opened_path_error with (e := e)|done|by apply Hdir]. }
  apply (safe_var _ (fun len f' v => len = 0%Z /\ is_file f' v)); [auto with go_stable|..].
  { intros w v Hw [Hv Ho]. pose proof (opened_handle w v name e fd' Hw Ho) as Hh.
    destruct Ho as (Hwf & Hl & _). pose proof (av_heap w v Hw) as Hwh.
    destruct (fd_Size_run w name e fd') as (fd2 & Es & Ho2 & _);
      [by rewrite Hwh|apply (av_at w v Hw)|by rewrite Hwh|done|].
    rewrite Hwh, (empty_len _ _ (Hem v Hv) Hl) in Es.
    eexists _, _, w. split_and!; [by apply on_data_run|done|done|]. exists fd2. split_and!; [done..|].
    destruct Ho2 as [? Hs]. by rewrite Hwh in Hs. }
  intros len f'. apply safe_assume; [unfold is_file; auto 10 with go_stable|]. intros ->.
  apply safe_ex; [unfold is_file; auto 10 with go_stable|]. intros fd2.
  apply safe_assume; [auto 10 with go_stable|]. intros ->.
  apply safe_done; [auto with go_stable|]. intros v [Hv _]. by apply Hfile.
Qed.

(** A call that opens a file: no error, and a handle at its start. *)
Definition is_open (flag : Z) (h : handle ST R) : Prop :=
  kind h = open_kind flag /\ exists fd, underlying h = opened_file fd 0 flag.
Definition opens {V} (flag : Z) (Q : err -> V -> Prop) (r : option (handle ST R) * err) (v : V) : Prop :=
  (r.2 = None -> exists h, r.1 = Some h /\ is_open flag h) /\ Q r.2 v.
Lemma stable_opens flag Q r : (forall e, stable (Q e)) -> stable (opens flag Q r).
Proof. intros HQ. apply stable_and; [apply stable_pure|apply HQ]. Qed.
#[local] Hint Resolve stable_opens : go_stable.

Definition open_result (flag : Z) name (mode : Z) : err :=
  if has_flag flag FlagTruncate && IsDir mode
  then Some (PathError "open" name (PathError "truncate" name ErrIsDir)) else None.

Lemma finish_open_safe name flag e fd P Q :
  stable P -> (forall r, stable (Q r)) ->
  (forall v, P v -> has_flag flag FlagTruncate = true -> all_empty (cv_heap v)) ->
  (forall v, P v -> Q (open_result flag name (e_mode e)) v) ->
  safe (opens flag Q) 3 (fun v => P v /\ opened_at name e fd v)
    (finish_open_p name flag (opened_file fd 0 flag)).
Proof.
  intros HP HQ Hem Hq. unfold finish_open_p, open_result in *.
  destruct (has_flag flag FlagTruncate); simpl in Hq.
  2: { apply safe_done; [auto with go_stable|]. intros v [Hv _]. split; [|by apply Hq].
       intros _. eexists. split; [done|]. split; [done|by exists fd]. }
  set (is_file (f : F) := exists fd', f = opened_file fd' 0 flag).
  apply (psafe_bind _ _ _ (fun r v => is_file r.2 /\ Q (wrapperErr "open" name r.1) v) (opens flag Q) 3 0).
  - apply FileTruncate_empty_safe with (n := 0); [done|auto with go_stable|by intros v Hv; apply Hem|..].
    + intros v fd' Hv Hd. simpl. specialize (Hq v Hv). rewrite Hd in Hq. split; [by exists fd'|done].
    + intros v fd' Hv Hd. simpl. specialize (Hq v Hv). rewrite Hd in Hq. split; [by exists fd'|done].
  - intros [er f]. apply safe_done; [auto with go_stable|]. intros v [Hf Hv]. split; [|done].
    intros _. eexists. split; [done|]. by split.
Qed.

(** Storing the record of a new file, whose blob was made before. *)
Lemma fs_at_fresh w (t : tree) s name l mode mtime :
  let e := MkEntry (BBytes l) mode mtime in
  fs_at w t -> empty_blob (w_heap w) l -> (forall n e', t !! n = Some e' -> e_data e' <> BBytes l) ->
  holds s (<[name := e]> t) ->
  fs_at (set_store s w) (<[name := e]> t) /\
  view (w_heap w) (<[name := e]> t) = <[name := MkNode mode mtime []]> (view (w_heap w) t).
Proof.
  intros e [Hh Hwf Hi Hl Ha] Hb Hnot Hs. destruct (empty_blob_live _ _ Hb) as [Hlive Hbytes].
  assert (Hap : forall n e', t !! n = Some e' -> apart (w_heap w) (BBytes l) (e_data e')).
  { intros n e' En. specialize (Hnot n e' En). destruct (e_data e') as [l'|]; [|done].
    split; [congruence|]. intros x1 x2. destruct Hb as (m & -> & _). intros [= <-]. auto. }
  split; [split; simpl; [done..| |]|].
  - intros n e' [[<- <-]|[_ En]]%lookup_insert_Some; [done|by apply (Hl n)].
  - intros n1 n2 e1 e2 Hn [[<- <-]|[_ E1]]%lookup_insert_Some [[<- <-]|[_ E2]]%lookup_insert_Some;
      [done|by apply (Hap n2)|by apply apart_sym, (Hap n1)|by apply (Ha n1 n2)].
  - unfold view. rewrite fmap_insert. f_equal. unfold to_node. simpl in *. by rewrite Hbytes.
Qed.

Lemma store_new_view w v s name l mode mtime :
  let e := MkEntry (BBytes l) mode mtime in
  at_view w v -> owns l v -> holds s (<[name := e]> (cv_tree v)) -> E v name (Some (MkNode mode mtime [])) ->
  let v' := MkView (<[name := e]> (cv_tree v)) (cv_heap v) (delete l (cv_new v)) in
  at_view (set_store s w) v' /\ inserts name (MkNode mode mtime []) v v'.
Proof.
  intros e Hw Ho Hs HE v'. destruct (av_new w v Hw l i Ho) as [Hb Ht]. pose proof (at_view_wf w v Hw) as Hwf.
  pose proof (av_heap w v Hw) as Hh. rewrite <- Hh in Hb.
  destruct (fs_at_fresh w (cv_tree v) s name l mode mtime (av_at w v Hw) Hb Ht Hs) as [Hat Hview].
  rewrite Hh in Hview. split; [split; [done|done|]|].
  - intros l' j Hl'. simpl in Hl'. apply lookup_delete_Some in Hl' as [Hne Hl]. destruct (av_new w v Hw l' j Hl) as [Hb' Ht']. split; [done|].
    intros n e'. simpl. intros [[<- <-]|[_ En]]%lookup_insert_Some; [simpl; congruence|by apply (Ht' n)].
  - split; [split|exact Hview].
    + split; [done|by apply ext_refl|done|]. intros l' j Hj Hl'. simpl. rewrite lookup_delete_ne; [done|].
      intros <-. unfold owns in Ho. congruence.
    + intros p. assert (Hn : cnodes v' = <[name := MkNode mode mtime []]> (cnodes v)) by exact Hview. rewrite Hn.
      destruct (decide (p = name)) as [->|Hp]; [right; by rewrite lookup_insert_eq|left].
      by rewrite lookup_insert_ne.
Qed.

(** Making the blob. *)
Lemma make_view w v :
  at_view w v ->
  let v' := MkView (cv_tree v) (new_heap (cv_heap v)) (<[next (cv_heap v) := i]> (cv_new v)) in
  at_view (set_heap (new_heap (w_heap w)) w) v' /\ changes i E v v' /\ cnodes v' = cnodes v.
Proof.
  intros Hw v'. pose proof (av_heap w v Hw) as Hh. pose proof (at_view_wf w v Hw) as Hwf.
  destruct (new_heap_spec (cv_heap v) Hwf) as (Hwf' & He & Hb & Hem).
  destruct (fs_at_heap w (cv_tree v) (new_heap (cv_heap v)) (av_at w v Hw)) as [Hat Hview];
    [done|by rewrite Hh|]. rewrite Hh in *.
  assert (Hn : cnodes v' = cnodes v) by exact Hview.
  assert (Hold : forall l j, cv_new v !! l = Some j -> l < next (cv_heap v)).
  { intros l j Hl. destruct (av_new w v Hw l j Hl) as [(m & Hbl & _) _]. by eapply blob_lt. }
  split_and!; [split; [done|done|]|split; [split; [done|done|done|]|by left; rewrite Hn]|exact Hn].
  - intros l j Hl. simpl in Hl. apply lookup_insert_Some in Hl as [[<- <-]|[_ Hl]].
    + split; [done|]. intros n e En Ee. pose proof (at_live _ _ (av_at w v Hw) n e En) as Hlive.
      rewrite Ee, Hh in Hlive. destruct Hlive as [b Hlb]. pose proof (blob_lt _ _ _ Hwf Hlb). lia.
    + destruct (av_new w v Hw l j Hl) as [(m & Hbl & Hml) Ht]. split; [|done]. exists m.
      simpl cv_heap.
      pose proof (blob_lt _ _ _ Hwf Hbl). pose proof (mutex_lt _ _ _ Hwf Hml).
      rewrite (ext_blobs _ _ He), (ext_mutexes _ _ He) by done. done.
  - intros l j _ Hl. simpl. rewrite lookup_insert_ne; [done|]. apply Hold in Hl. lia.
Qed.

(** What making a blob leaves alone. *)
Definition private P : Prop := forall v v', P v -> changes i E v v' -> cnodes v' = cnodes v -> P v'.

Definition saved name (mode fl : Z) (P : cview -> Prop) (r : err * F) (v : cview) : Prop :=
  r.1 = None /\ exists e fd, (e_mode e = mode /\ r.2 = opened_file fd 0 fl) /\ P v /\ opened_at name e fd v.

Lemma safe_save_new_file name mtime mode fl P Q :
  ValidPath name = true -> IsRegular mode = true -> stable P -> stable Q ->
  (forall v, P v -> E v name (Some (MkNode mode mtime []))) -> private P ->
  (forall v v', P v -> inserts name (MkNode mode mtime []) v v' -> Q v') ->
  safe (saved name mode fl Q) 5 P (pvar (opened_file (new_fd name mtime mode) 0 fl) f_save_p).
Proof.
  intros Hvp Hreg HP HQ HE Hown Hq. set (fd := new_fd name mtime mode).
  assert (Hsaved : forall r, stable (saved name mode fl Q r))
    by (unfold saved; auto 10 with go_stable).
  apply safe_save; [|done]. change (path fd) with name. unfold setFile_p.
  apply (psafe_bind _ _ _ (fun r v => (r.1 = mode /\ fd_same fd r.2) /\ P v) _ 1 2).
  { apply safe_look; [done|auto with go_stable|]. intros w v Hw Hv'.
    destruct (fd_Mode_run fd mode w) as (fd1 & E1 & H1); [done|].
    exists (mode, fd1), w. split_and!; [by apply on_var_run|done..]. }
  intros [mode' fd1]. cbn [fst snd]. apply safe_assume; [auto with go_stable|]. intros [-> Hsame].
  rewrite Hreg.
  set (made (r : option Blob * err * FD) l := r.1 = (Some (BBytes l), None) /\
         fd_keeps fd r.2 /\ loaded r.2 (BBytes l)).
  apply (psafe_bind _ _ _ (fun r v => exists l, made r l /\ P v /\ owns l v) _ 1 1).
  { apply safe_atomic; [done|auto 10 with go_stable|]. intros w v Hw Hv.
    destruct (new_fd_gives_heap name mtime mode (w_heap w) fd1 w Hsame eq_refl) as (fd2 & Ed & Hk & Hl).
    destruct (make_view w v Hw) as (Hw' & Hc & Hn). rewrite (av_heap w v Hw) in *.
    eexists _, _, _. split_and!; [by apply on_var_run|exact Hw'|exact Hc|]. exists (next (cv_heap v)).
    split; [|split]; [|by apply (Hown v)|apply lookup_insert_eq].
    split_and!; [done| |done]. done. }
  intros [[contents er] fd2]. apply safe_ex; [auto 10 with go_stable|]. intros l.
  apply safe_assume; [auto with go_stable|]. intros ([= -> ->] & Hk & Hl). cbn [snd] in Hk, Hl.
  apply safe_atomic; [auto with go_stable|auto|]. intros w v Hw [HPv Ho].
  destruct (setFile_commit_Some name fd2 mode mtime (BBytes l) (Some (BBytes l)) w (w_heap w) (cv_tree v)
              (at_holds _ _ (av_at w v Hw)) Hvp) as (fd3 & s & Ec & Hs & Hk3 & Hl3); [..|by apply gives_loaded|done|].
  { by rewrite (keeps_mode fd fd2). }
  { by rewrite (keeps_mtime fd fd2). }
  rewrite set_heap_id in Ec.
  destruct (store_new_view w v s name l mode mtime Hw Ho Hs (HE v HPv)) as [Hw' Hi].
  eexists _, _, _. split_and!; [by run Ec|exact Hw'|apply Hi|]. split; [done|].
  exists (MkEntry (BBytes l) mode mtime), fd3. split_and!; [done..|by apply (Hq v)|].
  split; [exact (at_view_wf w v Hw)|]. destruct (av_new w v Hw l i Ho) as [Hb _].
  destruct (empty_blob_live _ _ Hb) as [Hlive _]. split; [done|]. destruct Hk as [K1 K2 K3 K4].
  destruct Hk3 as [L1 L2 L3 L4]. split.
  - split; [by rewrite L1, K1|by rewrite L3, K3|by rewrite L4, K4|]. intros h. by apply gives_loaded.
  - left. split; [done|]. left. rewrite L2, K2. by eexists.
Qed.

(** ** [OpenFile]

    [P1 n] holds once [n] was seen at the path, [P2] once the path was seen to be
    missing and its parent to be there.  Truncating is for files that are empty
    already. *)
Lemma getFiles_step name (create : bool) w v :
  at_view w v ->
  exists files errs w', getFiles (if create then [name; Dir name] else [name]) w = (Ret (files, errs), w') /\
    at_view w' v /\
    if ValidPath name then
      match cnodes v !! name with
      | Some n => exists e rec files', files = Some (load_file name (Some (StoreRecord rec))) :: files' /\
          (exists errs', errs = None :: errs') /\ n_mode n = e_mode e /\ is_record name e rec /\
          live (cv_heap v) (e_data e)
      | None => exists f files' errs', files = f :: files' /\ errs = Some (missing_err name) :: errs' /\
          (create = true -> exists errs2, errs' = (match cnodes v !! Dir name with
             | Some _ => None | None => Some (missing_err (Dir name)) end) :: errs2)
      end
    else exists f files' errs', files = f :: files' /\ errs = Some ErrInvalid :: errs'.
Proof.
  intros Hw. destruct (ValidPath name) eqn:Hv.
  2: { destruct (getFiles_invalid (T := T) (if create then [name; Dir name] else [name]) w)
         as (fs & errs & Eg & Hl); [destruct create; simpl; by rewrite Hv|].
       exists fs, (Some ErrInvalid :: errs), w. split_and!; [done..|].
       destruct fs as [|f fs]; [by destruct create|]. by exists f, fs, errs. }
  destruct (getFiles_run (if create then [name; Dir name] else [name]) w (cv_tree v)
              (at_holds _ _ (av_at w v Hw))) as (rs & s & Eg & Hs & Hrs).
  { destruct create; simpl; by rewrite Hv, ?Dir_valid. }
  { destruct create; simpl; unfold int64_max; lia. }
  eexists _, _, _. split_and!; [exact Eg|by apply at_view_store|].
  assert (Hr0 : exists r rs', rs = r :: rs' /\ is_result is_record missing_err (cv_tree v) name r /\
    (create = true -> exists r', rs' = [r'] /\ is_result is_record missing_err (cv_tree v) (Dir name) r')).
  { destruct create; apply Forall2_cons_inv_l in Hrs as (r & rs' & Hr & Hrs & ->).
    - apply Forall2_cons_inv_l in Hrs as (r' & rs'' & Hr' & Hrs & ->).
      apply Forall2_nil_inv_l in Hrs as ->. exists r, [r']. split_and!; [done..|]. by exists r'.
    - by exists r, rs'. }
  destruct Hr0 as (r & rs' & -> & Hr & Hparent).
  assert (Hf0 : exists fs, zip_with (fun p r => Some (load_file p (res_Record r)))
                  (if create then [name; Dir name] else [name]) (r :: rs') =
                  Some (load_file name (res_Record r)) :: fs) by (destruct create; by eexists).
  destruct Hf0 as [fs ->]. cbn [fmap list_fmap]. unfold is_result in Hr. unfold cnodes. rewrite !view_lookup.
  destruct (cv_tree v !! name) as [e|] eqn:Et; simpl.
  - destruct Hr as (rec & -> & -> & Hrec). exists e, rec, fs. split_and!; [done|by eexists|done|done|].
    rewrite <- (av_heap w v Hw). by apply (at_live _ _ (av_at w v Hw) name).
  - destruct Hr as [_ ->]. eexists _, _, _. split_and!; [done..|]. intros Hc.
    destruct (Hparent Hc) as (r' & -> & Hr'). unfold is_result in Hr'. simpl. eexists. f_equal.
    destruct (cv_tree v !! Dir name); simpl; [by destruct Hr' as (? & _ & -> & _)|].
    by destruct Hr' as [_ ->].
Qed.

Definition if_truncating (flag : Z) (v : cview) : Prop :=
  has_flag flag FlagTruncate = true -> all_empty (cv_heap v).
Lemma stable_if_truncating flag : stable (if_truncating flag).
Proof. unfold if_truncating. auto with go_stable. Qed.
#[local] Hint Resolve stable_if_truncating : go_stable.
Lemma changes_if_truncating flag v v' : if_truncating flag v -> changes i E v v' -> if_truncating flag v'.
Proof. intros He [Hk _] Hf. by apply (kp_empty _ _ _ Hk), He. Qed.

Definition alive b (v : cview) : Prop := wf_heap (cv_heap v) /\ live (cv_heap v) b.
Lemma stable_alive b : stable (alive b).
Proof. intros v v' [Hwf Hl] [Hwf' He _ _]%HR. split; [auto|by eapply live_ext]. Qed.
#[local] Hint Resolve stable_alive : go_stable.

(** A file that was found. *)
Lemma open_found_safe name flag n e rec P Q :
  n_mode n = e_mode e -> is_record name e rec ->
  stable P -> (forall r, stable (Q r)) ->
  (forall v, P v -> if_truncating flag v) ->
  (forall v, P v -> IsDir (n_mode n) && has_flag flag (Z.lor FlagCreate FlagWriteOnly) = true ->
     Q (Some (PathError "open" name ErrIsDir)) v) ->
  (forall v, P v -> IsDir (n_mode n) && has_flag flag (Z.lor FlagCreate FlagWriteOnly) = false ->
     Q (open_result flag name (n_mode n)) v) ->
  safe (opens flag Q) 4 (fun v => alive (e_data e) v /\ P v)
    (let~ (mode, f) := atomic (on_var (load_file name (Some (StoreRecord rec))) f_Mode) in
     if IsDir mode && has_flag flag (Z.lor FlagCreate FlagWriteOnly) then
       Done (None, Some (PathError "open" name ErrIsDir))
     else finish_open_p name flag (MkFile (fileData_ f) (offset f) flag)).
Proof.
  intros Hmode Hrec HP HQ Hem Hdir Hopen.
  set (opened (r : Z * F) v := exists fd, r = (e_mode e, opened_file fd 0 0) /\ P v /\ opened_at name e fd v).
  apply (psafe_bind _ _ _ opened (opens flag Q) 1 3).
  { apply safe_look; [auto with go_stable|unfold opened; auto 10 with go_stable|]. intros w v Hw [[Hwf Hl] Hv].
    destruct (f_Mode_run w name e (record_fd name (Some (StoreRecord rec))) 0 0
                (record_handle w name e rec Hrec)) as (fd & Em & Ho).
    exists (e_mode e, opened_file fd 0 0), w. split_and!; [by apply on_var_run|done|]. exists fd. split_and!; [done..|].
    destruct Ho as [? Hs]. by rewrite (av_heap w v Hw) in Hs. }
  intros [mode f]. apply safe_ex; [unfold opened; auto 10 with go_stable|]. intros fd.
  apply safe_assume; [auto 10 with go_stable|]. intros [= -> ->]. rewrite <- Hmode.
  destruct (IsDir (n_mode n) && _) eqn:Hd.
  - apply safe_done; [auto with go_stable|]. intros v [Hv _]. split; [done|by apply Hdir].
  - apply (finish_open_safe name flag e fd P Q); [done|done|done|]. intros v Hv. rewrite <- Hmode. by apply Hopen.
Qed.

(** A file that is made. *)
Lemma open_new_safe name flag perm P Q :
  ValidPath name = true -> stable P -> (forall r, stable (Q r)) ->
  (forall v, P v -> if_truncating flag v) -> private P ->
  (forall v now, P v -> E v name (Some (MkNode (Z.land perm ModePerm) now []))) ->
  (forall v v' now, P v -> inserts name (MkNode (Z.land perm ModePerm) now []) v v' -> Q None v') ->
  safe (opens flag Q) 9 P
    (f <~ atomic (newFile name flag (Z.land perm ModePerm)) ;;
     let~ (e, f) := pvar f f_save_p in
     match e with
     | Some e => Done (None, wrapperErr "open" name (Some e))
     | None => finish_open_p name flag f
     end).
Proof.
  intros Hvp HP HQ Hem Hown HE Hq. set (mode := Z.land perm ModePerm).
  set (is_new f := exists now, f = opened_file (new_fd (ST := ST) (R := R) name now mode) 0 flag).
  apply (psafe_bind _ _ _ (fun f v => is_new f /\ P v) (opens flag Q) 1 8).
  { apply safe_look; [done|auto with go_stable|]. intros w v Hw Hv.
    eexists _, w. split_and!; [apply newFile_run|done|by eexists|done]. }
  intros file. apply safe_assume; [auto with go_stable|]. intros [now ->].
  apply (psafe_bind _ _ _ (saved name mode flag (fun v => Q None v /\ if_truncating flag v)) (opens flag Q) 5 3).
  { apply safe_save_new_file; [done|apply IsRegular_perm|done|auto with go_stable|intros v; apply HE|done|].
    intros v v' Hv Hi. split; [by apply (Hq v v' now)|].
    apply (changes_if_truncating flag v); [by apply Hem|apply Hi]. }
  intros [er f]. unfold saved. cbn [fst snd].
  apply safe_assume; [auto 10 with go_stable|]. intros ->.
  apply safe_ex; [auto 10 with go_stable|]. intros e. apply safe_ex; [auto 10 with go_stable|]. intros fd.
  apply safe_assume; [auto 10 with go_stable|]. intros [Hmode ->].
  apply (finish_open_safe name flag e fd (fun v => Q None v /\ if_truncating flag v) Q);
    [auto with go_stable|done|by intros v [_ ?]|]. intros v [Hv _].
  unfold open_result. rewrite Hmode. unfold mode. by rewrite IsDir_perm, andb_false_r.
Qed.

Lemma OpenFile_safe name flag perm P (P1 : node -> cview -> Prop) P2 Q :
  stable P -> (forall n, stable (P1 n)) -> stable P2 -> (forall e, stable (Q e)) -> private P2 ->
  (forall v, P v -> if_truncating flag v) ->
  (forall v, P v -> ValidPath name = false -> Q (Some (PathError "open" name ErrInvalid)) v) ->
  (forall v n, P v -> ValidPath name = true -> cnodes v !! name = Some n -> P1 n v) ->
  (forall v n, P1 n v -> IsDir (n_mode n) && has_flag flag (Z.lor FlagCreate FlagWriteOnly) = true ->
     Q (Some (PathError "open" name ErrIsDir)) v) ->
  (forall v n, P1 n v -> IsDir (n_mode n) && has_flag flag (Z.lor FlagCreate FlagWriteOnly) = false ->
     Q (open_result flag name (n_mode n)) v) ->
  (forall v, P v -> ValidPath name = true -> cnodes v !! name = None -> has_flag flag FlagCreate = false ->
     Q (Some (PathError "open" name (missing_err name))) v) ->
  (forall v, P v -> ValidPath name = true -> cnodes v !! name = None -> has_flag flag FlagCreate = true ->
     cnodes v !! Dir name = None -> Q (Some (PathError "open" name (missing_err (Dir name)))) v) ->
  (forall v, P v -> ValidPath name = true -> cnodes v !! name = None -> has_flag flag FlagCreate = true ->
     is_Some (cnodes v !! Dir name) -> P2 v) ->
  (has_flag flag FlagCreate = true -> forall v now, P2 v -> E v name (Some (MkNode (Z.land perm ModePerm) now []))) ->
  (forall v v' now, P2 v -> inserts name (MkNode (Z.land perm ModePerm) now []) v v' -> Q None v') ->
  safe (opens flag Q) 10 P (OpenFile_p name flag perm).
Proof.
  intros HP HP1 HP2 HQ Hown Hem Hinv Hfound Hdir Hopen Hmiss Hnop Hfree HE Hq. unfold OpenFile_p.
  set (create := has_flag flag FlagCreate) in *.
  apply (psafe_bind _ _ _ (fun r v => match r with
    | (f :: _, None :: _) => exists n e rec, (f = Some (load_file name (Some (StoreRecord rec))) /\
        n_mode n = e_mode e /\ is_record name e rec) /\
        alive (e_data e) v /\ P1 n v /\ if_truncating flag v
    | (_ :: _, Some er :: errs) =>
        if error_Is er ErrNotExist && create then
          match errs with
          | [] => False
          | Some e :: _ => Q (wrapperErr "open" name (Some e)) v
          | None :: _ => ValidPath name = true /\ P2 v /\ if_truncating flag v
          end
        else Q (wrapperErr "open" name (Some er)) v
    | _ => False
    end) (opens flag Q) 1 9).
  { apply safe_look; [done| |].
    { intros [[|f fs] [|[er|] errs]]; auto 15 with go_stable.
      destruct (error_Is er ErrNotExist && create); [destruct errs as [|[e|] errs]|]; auto with go_stable. }
    intros w v Hw Hv. destruct (getFiles_step name create w v Hw) as (files & errs & w' & Eg & Hw' & Hr).
    exists (files, errs), w'. split_and!; [done..|]. destruct (ValidPath name) eqn:Hvp.
    2: { destruct Hr as (f & files' & errs' & -> & ->). simpl. by apply Hinv. }
    destruct (cnodes v !! name) as [n|] eqn:En.
    - destruct Hr as (e & rec & files' & -> & (errs' & ->) & Hm & Hrec & Hl).
      exists n, e, rec. split_and!; [done|done|done|split; [by apply (at_view_wf w')|done]|by apply Hfound|by apply Hem].
    - destruct Hr as (f & files' & errs' & -> & -> & Hpar). rewrite law_missing. simpl.
      destruct create; [|by apply Hmiss]. destruct (Hpar eq_refl) as [errs2 ->].
      destruct (cnodes v !! Dir name) eqn:Ep; [|by apply Hnop].
      split_and!; [done|by apply Hfree|by apply Hem]. }
  intros [[|f fs] [|[er|] errs]]; cbv beta iota.
  - apply safe_absurd.
  - apply safe_absurd.
  - apply safe_absurd.
  - apply safe_absurd.
  - destruct (error_Is er ErrNotExist && create) eqn:Hc.
    2: { apply safe_done; [auto|]. intros v Hv. by split. }
    destruct errs as [|[e|] errs]; [apply safe_absurd|apply safe_done; [auto|intros v Hv; by split]|].
    apply safe_assume; [auto with go_stable|]. intros Hvp.
    apply (open_new_safe name flag perm (fun v => P2 v /\ if_truncating flag v) Q);
      [done|auto with go_stable|done|by intros v []| | |].
    + intros v v' [Hv He] Hch Hn. split; [by apply (Hown v)|by apply (changes_if_truncating flag v)].
    + intros v now [Hv _]. apply andb_prop in Hc as [_ Hc]. auto.
    + intros v v' now [Hv _] Hi. by apply (Hq v v' now).
  - apply safe_ex; [auto 15 with go_stable|]. intros n. apply safe_ex; [auto 15 with go_stable|]. intros e.
    apply safe_ex; [auto 15 with go_stable|]. intros rec. apply safe_assume; [auto 15 with go_stable|].
    intros (-> & Hm & Hrec). apply (safe_post _ _ _ (opens flag Q) _ 4); [lia|done|].
    apply (open_found_safe name flag n e rec (fun v => P1 n v /\ if_truncating flag v) Q);
      [done|done|auto with go_stable|done|by intros v []| |].
    + intros v [Hv _]. by apply Hdir.
    + intros v [Hv _]. by apply Hopen.
Qed.
End rules.
