(* ===== verification/KVConcThms.v ===== *)
(** * Many goroutines on one key-value file system: what is promised

    Any number of calls side by side on a store whose transactions exclude each
    other: they always end, without panicking, and leave a file system; what
    they may return; what does not vanish; and that calls about unrelated paths
    do not disturb each other. *)
From S2P Require Import Prelude.
From S2P Require Import Paths.
From S2P Require Import Errors.
From S2P Require Import Modes.
From S2P Require Import Blob.
From S2P Require Import BlobSpec.
From S2P Require Import Record.
From S2P Require Import Txn.
From S2P Require Import KVFile.
From S2P Require Import KVFS.
From S2P Require Import StoreSpec.
From S2P Require Import FSSpec.
From S2P Require Import TreeFS.
From S2P Require Import TreeOps.
From S2P Require Import FileIO.
From S2P Require Import Mem.
From S2P Require Import MemSpec.
From S2P Require Import Conc.
From S2P Require Import Prog.
From S2P Require Import KVProg.
From S2P Require Import KVConc.

Local Open Scope string_scope.

(** ** Calls *)
Inductive call :=
  | CMkdir (name : string) (perm : Z)
  | CMkdirAll (name : string) (perm : Z)
  | CRemove (name : string)
  | COpenFile (name : string) (flag perm : Z).

Section calls.
Context {ST R T : Type} `{!RecordOps ST R, !Store ST R T, !GoRuntime}.
Notation W := (world ST).

(** The error that the call returns. *)
Definition call_prog (c : call) : prog W err :=
  match c with
  | CMkdir name perm => Mkdir_p name perm
  | CMkdirAll name perm => MkdirAll_p name perm
  | CRemove name => Remove_p name
  | COpenFile name flag perm => let~ (_, e) := OpenFile_p name flag perm in Done e
  end.
End calls.

(** [MkdirAll] takes a step for each element of its path. *)
Definition call_steps (c : call) : nat :=
  match c with
  | CMkdirAll name _ => 2 + 5 * S (length (elems name))
  | _ => 10
  end.
Definition call_ok (h : heap) (c : call) : Prop :=
  match c with
  | CMkdirAll name _ => short name
  | COpenFile _ flag _ => has_flag flag FlagTruncate = true -> all_empty h
  | _ => True
  end.

Section parallel.
Context {ST R T : Type} `{!RecordOps ST R, !Store ST R T, !GoRuntime, !LawfulStore ST R T}.
Notation W := (world ST).
Implicit Types (w : W) (t : tree) (v : cview) (c : call).

Definition start w t : cview := MkView t (w_heap w) ∅.
Lemma start_view w t : fs_at w t -> at_view w (start w t).
Proof. intros Hat. split; [done..|]. intros l i Hl. simpl in Hl. by rewrite lookup_empty in Hl. Qed.

(** ** What a call may return while others do anything *)
Definition may_return (c : call) (e : err) : Prop :=
  match c with
  | CMkdir name _ =>
      if ValidPath name then
        e = None \/ e = Some (PathError "mkdir" name ErrExist) \/
        (name <> "." /\ e = Some (PathError "mkdir" name (PathError "stat" (Dir name) (missing_err (Dir name)))))
      else e = Some (PathError "stat" name ErrInvalid)
  | CMkdirAll name _ =>
      if ValidPath name then
        e = None \/ exists p, p ∈ ancestors name /\ e = Some (PathError "mkdir" p ErrNotDir)
      else e = Some ErrInvalid
  | CRemove name =>
      if ValidPath name then
        e = None \/ e = Some (PathError "remove" name (missing_err name)) \/
        e = Some (PathError "remove" name ErrNotEmpty)
      else e = Some (PathError "remove" name ErrInvalid)
  | COpenFile name flag _ =>
      if ValidPath name then
        e = None \/ e = Some (PathError "open" name ErrIsDir) \/
        (has_flag flag FlagTruncate = true /\
           e = Some (PathError "open" name (PathError "truncate" name ErrIsDir))) \/
        (if has_flag flag FlagCreate then e = Some (PathError "open" name (missing_err (Dir name)))
         else e = Some (PathError "open" name (missing_err name)))
      else e = Some (PathError "open" name ErrInvalid)
  end.

Definition anything : effect := fun _ _ _ => True.

Lemma spec_missing_error (v : nodes) ps e :
  spec_missing v ps = inr e -> exists p, p ∈ ps /\ e = PathError "mkdir" p ErrNotDir.
Proof.
  induction ps as [|p ps IH]; simpl; [done|]. destruct (v !! p) as [n|].
  - destruct (IsDir (n_mode n)); [done|]. intros [= <-]. exists p. split; [by left|done].
  - destruct (spec_missing v ps); [done|]. intros [= <-]. destruct IH as (q & ? & ?); [done|].
    exists q. split; [by right|done].
Qed.

Lemma call_safe i c v0 :
  call_ok (cv_heap v0) c ->
  safe at_view (others_change i (fun _ => anything)) (changes i anything) (fun e _ => may_return c e)
    (call_steps c) (fun v => all_empty (cv_heap v0) -> all_empty (cv_heap v)) (call_prog c).
Proof.
  set (Rel := others_change i (fun _ => anything)).
  assert (HR : forall v v', Rel v v' -> keeps (fun j => j <> i) v v') by by intros v v' [].
  assert (HP : stable Rel (fun v => all_empty (cv_heap v0) -> all_empty (cv_heap v))).
  { intros v v' Hv Hr He. apply (kp_empty _ _ _ (HR v v' Hr)), (Hv He). }
  destruct c as [name perm|name perm|name|name flag perm]; simpl call_prog; simpl call_ok; intros Hok.
  - apply (safe_post _ _ _ (fun e _ => may_return (CMkdir name perm) e) _ 7); [simpl; lia|done|].
    apply (Mkdir_safe i anything Rel) with (P1 := fun _ => ValidPath name = true)
      (P2 := fun _ => ValidPath name = true); try done;
      try (intros; apply stable_pure); simpl; intros v **;
      destruct (ValidPath name) eqn:?; naive_solver.
  - apply (safe_post _ _ _ (fun e _ => may_return (CMkdirAll name perm) e) _ (call_steps (CMkdirAll name perm)));
      [done|done|].
    apply (MkdirAll_safe i anything Rel) with (P1 := fun _ _ => ValidPath name = true); try done;
      try (intros; apply stable_pure); simpl.
    + by intros v _ ->.
    + intros v e _ -> He. apply spec_missing_error in He as (p & ? & ->). right. by exists p.
    + intros v Hvp. rewrite Hvp. by left.
  - apply (safe_post _ _ _ (fun e _ => may_return (CRemove name) e) _ 4); [simpl; lia|done|].
    apply (Remove_safe i anything Rel) with (P1 := fun _ _ => ValidPath name = true)
      (P2 := fun _ => ValidPath name = true); try done;
      try (intros; apply stable_pure); simpl; intros v **;
      destruct (ValidPath name) eqn:?; naive_solver.
  - apply (psafe_bind _ _ _ (fun r _ => may_return (COpenFile name flag perm) r.2) _ 10 0).
    + apply (safe_post _ _ _ (opens flag (fun e _ => may_return (COpenFile name flag perm) e)) _ 10);
        [done|by intros r v []|].
      apply (OpenFile_safe i anything Rel) with (P1 := fun _ _ => ValidPath name = true)
        (P2 := fun _ => ValidPath name = true); try done; try (intros; apply stable_pure);
        unfold may_return, open_result.
      * by intros v v' Hv.
      * intros v Hv Hf. auto.
      * by intros v _ ->.
      * intros v n -> Hd. auto.
      * intros v n -> _. destruct (has_flag flag FlagTruncate && IsDir (n_mode n)) eqn:Ht; [|by left].
        apply andb_prop in Ht as [? _]. auto.
      * intros v _ -> _ ->. auto.
      * intros v _ -> _ -> _. auto.
      * intros v v' now -> _. by left.
    + intros [h e]. apply safe_done; [apply stable_pure|done].
Qed.

Lemma call_steps_le cs c : c ∈ cs -> call_steps c <= sum_list (call_steps <$> cs).
Proof.
  induction 1 as [c cs|c c' cs _ IH]; csimpl; [lia|]. lia.
Qed.

Lemma lookup_calls (cs : list call) (i : nat) (p : prog W err) :
  (call_prog (ST := ST) (R := R) <$> cs) !! i = Some p -> exists c, cs !! i = Some c /\ p = call_prog c.
Proof. rewrite list_lookup_fmap. destruct (cs !! i) as [c|]; [|done]. intros [= <-]. by exists c. Qed.

(** All calls of a history take at most so many steps. *)
Definition steps_of (cs : list call) : nat := sum_list (call_steps <$> cs) * length cs.

Lemma calls_rule (E : nat -> effect) (J : cview -> Prop) (P : nat -> cview -> Prop)
    (Q : nat -> err -> cview -> Prop) (cs : list call) w t :
  fs_at w t -> (forall i v v', J v -> changes i (E i) v v' -> J v') ->
  J (start w t) -> (forall i, P i (start w t)) ->
  (forall i c, cs !! i = Some c ->
     safe at_view (others_change i E) (changes i (E i)) (Q i) (call_steps c) (P i) (call_prog c)) ->
  in_every_interleaving at_view (steps_of cs) J
    (fun es v => length es = length cs /\ forall i e, es !! i = Some e -> Q i e v) (call_prog <$> cs) w.
Proof.
  intros Hat HJ H0 HP Hs. unfold steps_of.
  pose proof (length_fmap (call_prog (ST := ST) (R := R)) cs) as Hl. rewrite <- Hl.
  apply (parallel_rule at_view (fun i => others_change i E) (fun i => changes i (E i)) Q J P _ _ w (start w t));
    [done| |by apply start_view|done|done|].
  - intros i j v v' Hij Hc. by apply (changes_others E i).
  - intros i p (c & Hc & ->)%lookup_calls. apply (safe_post _ _ _ (Q i) _ (call_steps c)); [|done|by apply Hs].
    apply call_steps_le. by eapply list_elem_of_lookup_2.
Qed.


(** ** What does not vanish *)

(** Whatever has a path has a parent. *)
Definition rooted (v : nodes) : Prop :=
  forall p, is_Some (v !! p) -> p <> "." -> is_Some (v !! Dir p).

Definition is_maker c : bool := match c with CRemove _ => false | _ => true end.
Definition target c : string :=
  match c with CMkdir p _ | CMkdirAll p _ | CRemove p | COpenFile p _ _ => p end.

Definition makes : effect := fun v p new => is_Some new /\ (p <> "." -> is_Some (cnodes v !! Dir p)).
Definition present (p : string) v : Prop := is_Some (cnodes v !! p).

Lemma stable_present i p : stable (others_change i (fun _ => makes)) (present p).
Proof. intros v v' Hp [_ Hn]. unfold present. by destruct (Hn p) as [->|(j & _ & ? & _)]. Qed.
Lemma changes_present i p v v' : present p v -> changes i makes v v' -> present p v'.
Proof. intros Hp [_ Hn]. unfold present. by destruct (Hn p) as [->|[? _]]. Qed.
Lemma changes_rooted i v v' : rooted (cnodes v) -> changes i makes v v' -> rooted (cnodes v').
Proof.
  intros Hr Hc p Hp Hd. apply (changes_present i (Dir p) v); [|done].
  destruct (proj2 Hc p) as [E|[_ Hx]]; [|by apply Hx]. rewrite E in Hp. by apply Hr.
Qed.
Lemma inserts_present i E p n v v' : inserts i E p n v v' -> present p v'.
Proof. intros [_ E']. unfold present. rewrite E', lookup_insert_eq. by eexists. Qed.

Lemma ancestors_head p : ValidPath p = true -> exists rest, ancestors p = p :: rest.
Proof.
  intros Hv. destruct (decide (p = ".")) as [->|Hd]; [by exists []|].
  rewrite ancestors_cons by done. by eexists.
Qed.
Lemma ancestors_split name l p rest :
  ValidPath name = true -> ancestors name = (l ++ p :: rest)%list -> ValidPath p = true /\ ancestors p = p :: rest.
Proof.
  revert name. induction l as [|q l IH]; intros name Hv.
  - destruct (ancestors_head name Hv) as [rest' E]. intros E'. rewrite E in E'. injection E' as <- <-. done.
  - destruct (decide (name = ".")) as [->|Hd]; [intros [= <- Hl]; by destruct l|].
    rewrite (ancestors_cons name Hv Hd). intros [= <- El]. by apply (IH (Dir name)), El; apply Dir_valid.
Qed.

(** The directories that [MkdirAll] has still to make hang on one that is there. *)
Definition to_make name (ns : list string) v : Prop := exists rest,
  (ValidPath name = true /\ ancestors name = (rev ns ++ rest)%list) /\
  forall p rest', rest = p :: rest' -> present p v.

Lemma to_make_parent name p ns v : to_make name (p :: ns) v -> p <> "." -> present (Dir p) v.
Proof.
  intros (rest & [Hv E] & Hp) Hd. simpl in E. rewrite <- app_assoc in E.
  destruct (ancestors_split name (rev ns) p rest Hv E) as [Hvp Ep].
  rewrite ancestors_cons in Ep by done. injection Ep as Ep.
  destruct (ancestors_head (Dir p)) as [rest' Er]; [by apply Dir_valid|]. rewrite Er in Ep. by apply (Hp _ rest').
Qed.
Lemma to_make_step name p ns v v' :
  to_make name (p :: ns) v -> present p v' -> to_make name ns v'.
Proof.
  intros (rest & [Hv E] & _) Hp. exists (p :: rest). split; [|by intros ? ? [= <- <-]].
  split; [done|]. simpl in E. by rewrite <- app_assoc in E.
Qed.
Lemma spec_missing_split (v : nodes) ps qs :
  spec_missing v ps = inl qs ->
  exists rest, ps = (qs ++ rest)%list /\ forall p rest', rest = p :: rest' -> is_Some (v !! p).
Proof.
  revert qs. induction ps as [|p ps IH]; intros qs; simpl; [intros [= <-]; by exists []|].
  destruct (v !! p) as [n|] eqn:En.
  - destruct (IsDir (n_mode n)); [|done]. intros [= <-]. exists (p :: ps). split; [done|].
    intros ? ? [= <- <-]. by eexists.
  - destruct (spec_missing v ps) as [qs'|]; [|done]. intros [= <-].
    destruct (IH qs' eq_refl) as (rest & -> & Hp). by exists rest.
Qed.
Lemma to_make_start name ps v :
  ValidPath name = true -> spec_missing (cnodes v) (ancestors name) = inl ps -> to_make name (rev ps) v.
Proof.
  intros Hv (rest & E & Hp)%spec_missing_split. exists rest. by rewrite rev_involutive.
Qed.
Lemma to_make_done name v : to_make name [] v -> present name v.
Proof.
  intros (rest & [Hv E] & Hp). destruct (ancestors_head name Hv) as [rest' Er].
  apply (Hp name rest'). simpl in E. by rewrite <- E.
Qed.

Lemma maker_safe i c v0 :
  call_ok (cv_heap v0) c -> is_maker c = true ->
  safe at_view (others_change i (fun _ => makes)) (changes i makes)
    (fun e v => e = None -> present (target c) v)
    (call_steps c) (fun v => all_empty (cv_heap v0) -> all_empty (cv_heap v)) (call_prog c).
Proof.
  set (Rel := others_change i (fun _ => makes)). intros Hok Hmk.
  assert (HR : forall v v', Rel v v' -> keeps (fun j => j <> i) v v') by by intros v v' [].
  pose proof (stable_present i) as Hpr. fold Rel in Hpr.
  assert (HP : stable Rel (fun v => all_empty (cv_heap v0) -> all_empty (cv_heap v))).
  { intros v v' Hv Hr He. apply (kp_empty _ _ _ (HR v v' Hr)), (Hv He). }
  assert (Hto : forall name ns, stable Rel (to_make name ns)).
  { intros name ns v v' (rest & He & Hp) Hr. exists rest. split; [done|]. intros p rest' Er.
    apply (Hpr p v v'); [by apply (Hp p rest')|done]. }
  destruct c as [name perm|name perm|name|name flag perm]; simpl call_prog; simpl call_ok in Hok;
    simpl target; [..|done|].
  - apply (safe_post _ _ _ (fun e v => e = None -> present name v) _ 7); [simpl; lia|done|].
    apply (Mkdir_safe i makes Rel) with (P1 := fun _ => True) (P2 := fun v => name <> "." -> present (Dir name) v);
      try done; auto with go_stable.
    intros v v' now _ Hi _. by eapply inserts_present.
  - apply (MkdirAll_safe i makes Rel) with (P1 := to_make name); try done; auto with go_stable.
    + intros v ps _ Hv Hm. by apply to_make_start.
    + intros p ns v now Ht. split; [by eexists|]. by eapply to_make_parent.
    + intros p ns v v' now Ht Hi. eapply to_make_step; [done|]. by eapply inserts_present.
    + intros v Ht _. by apply to_make_done.
  - apply (psafe_bind _ _ _ (fun r v => r.2 = None -> present name v) _ 10 0).
    + apply (safe_post _ _ _ (opens flag (fun e v => e = None -> present name v)) _ 10); [done|by intros r v []|].
      apply (OpenFile_safe i makes Rel) with (P1 := fun _ v => present name v)
        (P2 := fun v => name <> "." -> present (Dir name) v); try done; auto with go_stable.
      * intros v v' Hp _ E Hd. unfold present in *. rewrite E. by apply Hp.
      * intros v Hv Hf. auto.
      * intros v n _ _ En. by eexists.
      * intros v v' now _ Hi _. by eapply inserts_present.
    + intros [h e]. apply safe_done; [auto with go_stable|done].
Qed.


(** ** Calls about unrelated paths *)

(** What the call does when nobody else does anything. *)
Definition spec_call c (now : Z) (v : nodes) : err * nodes :=
  match c with
  | CMkdir name perm => spec_Mkdir missing_err now name perm v
  | CMkdirAll name perm => spec_MkdirAll now name perm v
  | CRemove name => spec_Remove missing_err name v
  | COpenFile name flag perm => spec_OpenFile missing_err now name flag perm v
  end.

(** The paths that it looks at, and those that it may change. *)
Definition looks c (p : string) : Prop :=
  match c with
  | CMkdir name _ | COpenFile name _ _ => p = name \/ p = Dir name
  | CMkdirAll name _ => p ∈ ancestors name
  | CRemove name => p = name \/ (p <> "." /\ Dir p = name)
  end.
Definition touches (v : nodes) c (p : string) : Prop :=
  match c with
  | CMkdirAll name _ =>
      match spec_missing v (ancestors name) with inl ps => p ∈ ps | inr _ => False end
  | _ => p = target c
  end.
(** A node without its time. *)
Definition untimed (n : node) : Z * list byte := (n_mode n, n_data n).

Lemma touches_looks (v : nodes) c p : touches v c p -> looks c p.
Proof.
  destruct c as [name perm|name perm|name|name flag perm]; simpl; auto.
  destruct (spec_missing v (ancestors name)) as [ps|] eqn:E; [|done].
  apply spec_missing_split in E as (rest & -> & _). intros Hp. apply elem_of_app. by left.
Qed.

Section unrelated.
Context (cs : list call) (v0 : cview).
Notation n0 := (cnodes v0).

Definition touch (i : nat) : effect := fun _ p _ => exists c, cs !! i = Some c /\ touches n0 c p.
Definition apart_calls : Prop := forall i j ci cj p,
  i <> j -> cs !! i = Some ci -> cs !! j = Some cj -> touches n0 cj p -> ~ looks ci p.
Context (Hap : apart_calls).

Section call.
Context (i : nat) (c : call) (Hc : cs !! i = Some c).
Notation Rel := (others_change i touch).

(** Nothing that the call looks at has changed. *)
Definition as_before v : Prop :=
  (forall p, looks c p -> cnodes v !! p = n0 !! p) /\
  (all_empty (cv_heap v0) -> all_empty (cv_heap v)).

Lemma stable_looked (Phi : option node -> Prop) p : looks c p -> stable Rel (fun v => Phi (cnodes v !! p)).
Proof.
  intros Hp v v' HPhi [_ Hn]. destruct (Hn p) as [->|(j & Hj & cj & Hcj & Ht)]; [done|].
  by destruct (Hap i j c cj p (not_eq_sym Hj) Hc Hcj Ht).
Qed.
Lemma stable_as_before : stable Rel as_before.
Proof.
  apply stable_and.
  - intros v v' Hv Hr p Hp. apply (stable_looked (fun n => n = n0 !! p) p Hp v v'); [by apply Hv|done].
  - intros v v' Hv [Hk _] He. by apply (kp_empty _ _ _ Hk), Hv.
Qed.

(** The answer and the nodes of the sequential call. *)
Definition as_alone (e : err) v : Prop :=
  e = (spec_call c 0 n0).1 /\
  forall p, touches n0 c p -> untimed <$> cnodes v !! p = untimed <$> (spec_call c 0 n0).2 !! p.
Lemma stable_as_alone e : stable Rel (as_alone e).
Proof.
  intros v v' [He Hn] Hr. split; [done|]. intros p Ht.
  apply (stable_looked (fun n => untimed <$> n = untimed <$> (spec_call c 0 n0).2 !! p) p) with v;
    [by eapply touches_looks|by apply Hn|done].
Qed.
End call.
#[local] Hint Resolve stable_as_before stable_as_alone : go_stable.

Lemma keeps_touch i v v' : others_change i touch v v' -> keeps (fun j => j <> i) v v'.
Proof. by intros []. Qed.

Lemma before_at c p v : as_before c v -> looks c p -> cnodes v !! p = n0 !! p.
Proof. intros [Hv _]. apply Hv. Qed.
Lemma inserted_at i E p n v v' : inserts i E p n v v' -> cnodes v' !! p = Some n.
Proof. intros [_ ->]. apply lookup_insert_eq. Qed.

Lemma alone_unchanged c e v : as_before c v -> spec_call c 0 n0 = (e, n0) -> as_alone c e v.
Proof.
  intros Hv E. unfold as_alone. rewrite E. split; [done|]. intros p Ht.
  by rewrite (before_at c p v Hv) by by eapply touches_looks.
Qed.
Lemma alone_inserted c v p n n' :
  spec_call c 0 n0 = (None, <[p := n']> n0) -> (forall q, touches n0 c q -> q = p) ->
  cnodes v !! p = Some n -> untimed n = untimed n' -> as_alone c None v.
Proof.
  intros E Ht Ev Hn. unfold as_alone. rewrite E. split; [done|]. intros q ->%Ht. simpl.
  rewrite Ev, lookup_insert_eq. simpl. by rewrite Hn.
Qed.

Notation alone i c := (safe at_view (others_change i touch) (changes i (touch i)) (as_alone c)
                         (call_steps c) (as_before c) (call_prog c)).

Lemma Mkdir_alone i name perm (c := CMkdir name perm) : cs !! i = Some c -> alone i c.
Proof.
  intros Hc. assert (L1 : looks c name) by by left. assert (L2 : looks c (Dir name)) by by right.
  apply (safe_post _ _ _ (as_alone c) _ 7); [simpl; lia|done|].
  set (P1 v := (ValidPath name = true /\ n0 !! name = None) /\ as_before c v).
  set (P2 v := (name <> "." -> is_Some (n0 !! Dir name)) /\ P1 v).
  apply (Mkdir_safe i (touch i)) with (P1 := P1) (P2 := P2);
    try (unfold P2, P1; auto with go_stable; fail).
  - intros v Hv Hvp. apply alone_unchanged; [done|]. simpl. unfold spec_Mkdir, spec_stat. by rewrite Hvp.
  - intros v Hv Hvp [n En]. apply alone_unchanged; [done|]. rewrite (before_at c name v) in En by done.
    simpl. unfold spec_Mkdir, spec_stat. by rewrite Hvp, En.
  - intros v Hv Hvp En. rewrite (before_at c name v) in En by done. done.
  - intros v [[Hvp En] Hv] _ Hd Ed. rewrite (before_at c _ v) in Ed by done. apply alone_unchanged; [done|].
    simpl. unfold spec_Mkdir, spec_stat. rewrite Hvp, En, Dir_valid, Ed by done. simpl.
    by rewrite (proj2 (String.eqb_neq _ _) Hd).
  - intros v HP1 _ Hp. split; [|done]. intros Hd. rewrite <- (before_at c _ v) by (done || apply HP1). by apply Hp.
  - intros v now _. by exists c.
  - intros v v' now [Hp [[Hvp En] Hv]] Hi. apply (alone_inserted c v' name (dir_node now perm) (dir_node 0 perm)); [|by intros q ->|by eapply inserted_at|done].
    simpl. unfold spec_Mkdir, spec_stat. rewrite Hvp, En. simpl.
    destruct (String.eqb_spec name ".") as [->|Hd]; [done|]. rewrite Dir_valid by done.
    by destruct (Hp Hd) as [n ->].
Qed.

Lemma lookup_insert_dirs now perm ps (v : nodes) p :
  p ∈ ps -> insert_dirs now perm ps v !! p = Some (dir_node now perm).
Proof.
  induction 1 as [p ps|p q ps _ IH]; simpl; [apply lookup_insert_eq|].
  destruct (decide (p = q)) as [->|Hne]; [apply lookup_insert_eq|by rewrite lookup_insert_ne].
Qed.

Lemma MkdirAll_alone i name perm (c := CMkdirAll name perm) : short name -> cs !! i = Some c -> alone i c.
Proof.
  intros Hshort Hc.
  set (P1 (ns : list string) v := exists ps done_,
    ((ValidPath name = true /\ spec_missing n0 (ancestors name) = inl ps) /\ rev ps = (done_ ++ ns)%list) /\
    forall p, p ∈ done_ -> untimed <$> cnodes v !! p = Some (dir_mode perm, [])).
  assert (HP1 : forall ns, stable (others_change i touch) (P1 ns)).
  { intros ns v v' (ps & d & [[Hvp Em] E] & Hd) Hr. exists ps, d. split; [done|]. intros p Hp.
    apply (stable_looked i c Hc (fun n => untimed <$> n = Some (dir_mode perm, [])) p) with v; [|by apply Hd|done].
    apply (touches_looks n0). simpl. rewrite Em. apply list_elem_of_In, in_rev. rewrite E.
    apply in_or_app. left. by apply list_elem_of_In. }
  assert (Hsame : forall v, as_before c v ->
    spec_missing (cnodes v) (ancestors name) = spec_missing n0 (ancestors name)).
  { intros v Hv. assert (Hl : forall p, p ∈ ancestors name -> cnodes v !! p = n0 !! p).
    { intros p Hp. by apply (before_at c). }
    clear - Hl. induction (ancestors name) as [|p l IH]; [done|]. simpl.
    rewrite Hl by by left. rewrite IH; [done|]. intros q Hq. apply Hl. by right. }
  apply (MkdirAll_safe i (touch i)) with (P1 := P1); try done; try (auto with go_stable; fail).
  - intros v Hv Hvp. apply alone_unchanged; [done|]. simpl. unfold spec_MkdirAll. by rewrite Hvp.
  - intros v e Hv Hvp Em. rewrite Hsame in Em by done. apply alone_unchanged; [done|].
    simpl. unfold spec_MkdirAll. by rewrite Hvp, Em.
  - intros v ps Hv Hvp Em. rewrite Hsame in Em by done. exists ps, []. split; [done|].
    by intros p Hp%elem_of_nil.
  - intros p ns v now (ps & d & [[_ Em] E] & _). exists c. split; [done|]. simpl. rewrite Em.
    apply list_elem_of_In, in_rev. rewrite E. apply in_or_app. right. by left.
  - intros p ns v v' now (ps & d & [Hm E] & Hd) [_ Hi]. exists ps, (d ++ [p])%list.
    split; [by rewrite <- app_assoc|]. intros q Hq. rewrite Hi.
    destruct (decide (q = p)) as [->|Hne]; [by rewrite lookup_insert_eq|].
    rewrite lookup_insert_ne by done. apply Hd. apply elem_of_app in Hq as [?|Hq]; [done|].
    by apply list_elem_of_singleton in Hq.
  - intros v (ps & d & [[Hvp Em] E] & Hd). unfold as_alone. simpl. unfold spec_MkdirAll.
    rewrite Hvp, Em, app_nil_r in *. split; [done|]. intros p Hp. rewrite Hd.
    + simpl. rewrite lookup_insert_dirs by done. done.
    + rewrite <- E. apply list_elem_of_In. apply -> in_rev. by apply list_elem_of_In.
Qed.

Lemma children_nil (v v' : nodes) name :
  (forall p, p <> "." -> Dir p = name -> v !! p = v' !! p) -> children v name = [] -> children v' name = [].
Proof.
  intros Hs Hc. destruct (children v' name) as [|x l] eqn:E; [done|].
  assert (Hx : x ∈ children v' name) by (rewrite E; by left).
  apply elem_of_children in Hx as (k & Hk & Hck). assert (Hx : x ∈ children v name).
  { apply elem_of_children. exists k. split; [|done]. unfold child_of in Hck.
    destruct (String.eqb_spec k "."); [done|]. destruct (String.eqb_spec (Dir k) name) as [Hd|]; [|done].
    by rewrite Hs. }
  rewrite Hc in Hx. by apply elem_of_nil in Hx.
Qed.

Lemma Remove_alone i name (c := CRemove name) : cs !! i = Some c -> alone i c.
Proof.
  intros Hc. assert (L1 : looks c name) by by left.
  assert (Hch : forall v, as_before c v -> children (cnodes v) name = [] <-> children n0 name = []).
  { intros v Hv. split; apply children_nil; intros p Hd Hp; [|symmetry];
      apply (before_at c); by (done || right). }
  apply (safe_post _ _ _ (as_alone c) _ 4); [simpl; lia|done|].
  set (P1 n v := (ValidPath name = true /\ n0 !! name = Some n) /\ as_before c v).
  set (P2 v := exists n, (IsDir (n_mode n) = true -> children n0 name = []) /\ P1 n v).
  apply (Remove_safe i (touch i)) with (P1 := P1) (P2 := P2); try (unfold P2, P1; auto with go_stable; fail).
  - intros v Hv Hvp. apply alone_unchanged; [done|]. simpl. unfold spec_Remove, spec_get. by rewrite Hvp.
  - intros v Hv Hvp En. rewrite (before_at c name v) in En by done. apply alone_unchanged; [done|].
    simpl. unfold spec_Remove, spec_get. by rewrite Hvp, En.
  - intros v n Hv Hvp En. by rewrite (before_at c name v) in En.
  - intros v n [[Hvp En] Hv] Hd Hfull. apply alone_unchanged; [done|].
    simpl. unfold spec_Remove, spec_get. rewrite Hvp, En, Hd, bool_decide_eq_false_2; [done|].
    by rewrite <- (Hch v).
  - intros v n HP1 Hfree. exists n. split; [|done]. intros Hd. rewrite <- (Hch v) by apply HP1. auto.
  - intros v _. by exists c.
  - intros v v' (n & Hfree & [Hvp En] & Hv) _ Hn. unfold as_alone. simpl. unfold spec_Remove, spec_get.
    rewrite Hvp, En. assert (E : IsDir (n_mode n) && negb (bool_decide (children n0 name = [])) = false).
    { destruct (IsDir (n_mode n)); [|done]. by rewrite bool_decide_eq_true_2 by auto. }
    rewrite E. split; [done|]. intros p ->. cbn [snd]. by rewrite Hn, !lookup_delete_eq.
Qed.

Lemma OpenFile_alone i name flag perm (c := COpenFile name flag perm) :
  (has_flag flag FlagTruncate = true -> all_empty (cv_heap v0) /\ forall n, n0 !! name = Some n -> n_data n = []) ->
  cs !! i = Some c -> alone i c.
Proof.
  intros Htr Hc. assert (L1 : looks c name) by by left. assert (L2 : looks c (Dir name)) by by right.
  set (P1 n v := (ValidPath name = true /\ n0 !! name = Some n) /\ as_before c v).
  set (P2 v := (ValidPath name = true /\ n0 !! name = None /\ has_flag flag FlagCreate = true /\
                is_Some (n0 !! Dir name)) /\ as_before c v).
  apply (psafe_bind _ _ _ (fun r v => as_alone c r.2 v) _ 10 0);
    [|intros [h e]; apply safe_done; [by eapply stable_as_alone|done]].
  apply (safe_post _ _ _ (opens flag (as_alone c)) _ 10); [done|by intros r v []|].
  apply (OpenFile_safe i (touch i) _ (keeps_touch i)) with (P1 := P1) (P2 := P2);
    try (unfold P2, P1; auto with go_stable; fail).
  - intros v v' [Hs [Hv He]] [Hk _] Hn. split; [done|]. split; [by setoid_rewrite Hn|].
    intros H0. by apply (kp_empty _ _ _ Hk), He.
  - intros v [_ He] Hf. by apply He, Htr.
  - intros v Hv Hvp. apply alone_unchanged; [done|]. simpl. unfold spec_OpenFile, spec_get. by rewrite Hvp.
  - intros v n Hv Hvp En. by rewrite (before_at c name v) in En.
  - intros v n [[Hvp En] Hv] Hd. apply alone_unchanged; [done|].
    simpl. unfold spec_OpenFile, spec_get. by rewrite Hvp, En, Hd.
  - intros v n [[Hvp En] Hv] Hd. apply alone_unchanged; [done|].
    simpl. unfold spec_OpenFile, spec_get, spec_finish_open, spec_truncate0, open_result. rewrite Hvp, En, Hd.
    destruct (has_flag flag FlagTruncate) eqn:Ht; [|done]. rewrite (proj2 (Htr eq_refl) n En).
    by destruct (IsDir (n_mode n)).
  - intros v Hv Hvp En Hcr. rewrite (before_at c name v) in En by done. apply alone_unchanged; [done|].
    simpl. unfold spec_OpenFile, spec_get. by rewrite Hvp, En, Hcr.
  - intros v Hv Hvp En Hcr Ed. rewrite (before_at c name v) in En by done. rewrite (before_at c _ v) in Ed by done.
    apply alone_unchanged; [done|]. simpl. unfold spec_OpenFile, spec_get. by rewrite Hvp, En, Hcr, Ed.
  - intros v Hv Hvp En Hcr Ed. rewrite (before_at c name v) in En by done. by rewrite (before_at c _ v) in Ed by done.
  - intros _ v now _. by exists c.
  - intros v v' now [(Hvp & En & Hcr & [n Ed]) Hv] Hi.
    apply (alone_inserted c v' name (MkNode (Z.land perm ModePerm) now []) (MkNode (Z.land perm ModePerm) 0 []));
      [|by intros q ->|by eapply inserted_at|done].
    simpl. unfold spec_OpenFile, spec_get. by rewrite Hvp, En, Hcr, Ed.
Qed.
End unrelated.

End parallel.
