(* ===== verification/KVConcFile.v ===== *)
(** * Goroutines that read and write open files

    What the methods of an open file do while other goroutines work on files of
    their own, or write the same bytes to the same file.  Nobody makes, removes or
    renames files here.  Every blob and every array may have an owner, the only
    goroutine that may change it; what has no owner nobody changes. *)
From S2P Require Import Prelude.
From S2P Require Import Paths.
From S2P Require Import Errors.
From S2P Require Import Modes.
From S2P Require Import Blob.
From S2P Require Import BlobSpec.
From S2P Require Import Record.
From S2P Require Import Txn.
From S2P Require Import KVFile.
From S2P Require Import KVFS.
From S2P Require Import StoreSpec.
From S2P Require Import FSSpec.
From S2P Require Import TreeFS.
From S2P Require Import TreeOps.
From S2P Require Import FileSpec.
From S2P Require Import FileIO.
From S2P Require Import FileRun.
From S2P Require Import Conc.
From S2P Require Import Prog.
From S2P Require Import KVProg.

Local Open Scope string_scope.

(** ** What a world stands for *)
Record fview := MkFV {
  fv_tree : tree; fv_heap : heap;
  fv_blobs : nat -> option nat; fv_arrays : nat -> option nat
}.

(** Nobody of [who] is the owner. *)
Definition free_of (who : nat -> Prop) (owner : option nat) : Prop :=
  forall j, owner = Some j -> ~ who j.

(** What the goroutines of [who] change: blobs and arrays they own and new ones, and
    the times of the files that they [touch]. *)
Record moves (touch : nat -> string -> Prop) (who : nat -> Prop) (v v' : fview) : Prop := {
  mv_wf : wf_heap (fv_heap v) -> wf_heap (fv_heap v');
  mv_grows : grows (fv_heap v) (fv_heap v');
  mv_next : next (fv_heap v) <= next (fv_heap v');
  mv_live l : is_Some (blobs (fv_heap v) !! l) -> is_Some (blobs (fv_heap v') !! l);
  mv_blob l : l < next (fv_heap v) -> free_of who (fv_blobs v l) ->
    blobs (fv_heap v') !! l = blobs (fv_heap v) !! l;
  mv_array a : a < next (fv_heap v) -> free_of who (fv_arrays v a) ->
    arrays (fv_heap v') !! a = arrays (fv_heap v) !! a;
  mv_mutex m : m < next (fv_heap v) -> mutexes (fv_heap v') !! m = mutexes (fv_heap v) !! m;
  mv_moved l b b' : blobs (fv_heap v) !! l = Some b -> blobs (fv_heap v') !! l = Some b' ->
    moved (fv_heap v) b b';
  mv_blobs l : l < next (fv_heap v) -> fv_blobs v' l = fv_blobs v l;
  mv_arrays a : a < next (fv_heap v) -> fv_arrays v' a = fv_arrays v a;
  mv_entry p : fv_tree v' !! p = fv_tree v !! p \/
    exists j e t, who j /\ touch j p /\ fv_tree v !! p = Some e /\
      fv_tree v' !! p = Some (MkEntry (e_data e) (e_mode e) t)
}.

Lemma free_of_mono (who who' : nat -> Prop) o :
  (forall j, who j -> who' j) -> free_of who' o -> free_of who o.
Proof. intros H Ho j Hj Hs. by apply (Ho j Hj), H. Qed.
Lemma moves_mono touch (who who' : nat -> Prop) v v' :
  (forall j, who j -> who' j) -> moves touch who v v' -> moves touch who' v v'.
Proof.
  intros HS []. split; try done.
  - intros l Hl Ho. apply mv_blob0; [done|by eapply free_of_mono].
  - intros a Ha Ho. apply mv_array0; [done|by eapply free_of_mono].
  - intros p. destruct (mv_entry0 p) as [?|(j & e & t & Hj & ?)]; [by left|right]. exists j, e, t. auto.
Qed.
Lemma moved_refl h b : moved h b b.
Proof. by split; [|left]. Qed.
Lemma moves_refl touch who v : moves touch who v v.
Proof. split; try done; [intros l b b' -> [= <-]; apply moved_refl|by left]. Qed.

(** ** What the others leave alone *)
Section facts.
Context (touch : nat -> string -> Prop) (who : nat -> Prop).
Implicit Types (v : fview) (o : option nat) (p : slice) (b : Bytes) (data : list byte).
Notation stable := (stable (moves touch who)).

(** A slice that shows [data], on an array of [o]; a blob of [ob] on such an array. *)
Definition has_slice o p data v : Prop :=
  wf_heap (fv_heap v) /\ wf_slice (fv_heap v) p /\ (s_cap p = 0 \/ fv_arrays v (s_arr p) = o) /\
  read_slice (fv_heap v) p = data.
Definition has_blob ob o l b data v : Prop :=
  usable (fv_heap v) l b /\ fv_blobs v l = ob /\ has_slice o (bytes b) data v.
(** The file [name] is the blob [l], which shows [data]. *)
Definition entry_at name l mode v : Prop :=
  exists t, fv_tree v !! name = Some (MkEntry (BBytes l) mode t).
Definition has_file o name l b mode data v : Prop :=
  entry_at name l mode v /\ has_blob o o l b data v.
(** No file is on the array of [p]. *)
Definition is_private p v : Prop :=
  wf_heap (fv_heap v) /\ wf_slice (fv_heap v) p /\
  forall n e l, fv_tree v !! n = Some e -> e_data e = BBytes l -> exists x,
    blobs (fv_heap v) !! l = Some x /\
    (s_arr (bytes x) <> s_arr p \/ s_cap p = 0 \/ s_cap (bytes x) = 0).

Lemma slice_lt h p : wf_heap h -> wf_slice h p -> s_cap p = 0 \/ s_arr p < next h.
Proof. intros. destruct (decide (s_cap p = 0)); [by left|right]. apply wf_slice_array; [done..|lia]. Qed.

Lemma stable_slice o p data : free_of who o -> stable (has_slice o p data).
Proof.
  intros Ho v v' (Hwf & Hp & Ha & Hd) Hm. split_and!.
  - by apply (mv_wf _ _ _ _ Hm).
  - eapply wf_slice_grows; [apply (mv_grows _ _ _ _ Hm)|done].
  - destruct Ha as [?|Ha]; [by left|]. destruct (slice_lt _ p Hwf Hp); [by left|right].
    by rewrite (mv_arrays _ _ _ _ Hm).
  - rewrite <- Hd. destruct Ha as [Hc|Ha].
    + destruct Hp. unfold read_slice. by replace (s_len p) with 0 by lia.
    + apply read_slice_eq; [done..|]. intros Hlt. apply (mv_array _ _ _ _ Hm); [done|by rewrite Ha].
Qed.
Lemma stable_blob ob o l b data : free_of who ob -> free_of who o -> stable (has_blob ob o l b data).
Proof.
  intros Hob Ho v v' ([Hb Hmu] & Hl & Hs) Hm. pose proof Hs as [Hwf _].
  split; [split|split]; [| | |by apply (stable_slice o _ _ Ho v)].
  - rewrite (mv_blob _ _ _ _ Hm); [done|eauto with go_wf|by rewrite Hl].
  - rewrite (mv_mutex _ _ _ _ Hm); [done|eauto with go_wf].
  - rewrite (mv_blobs _ _ _ _ Hm); [done|eauto with go_wf].
Qed.
Lemma stable_entry name l mode : stable (entry_at name l mode).
Proof.
  intros v v' [t Ht] Hm. unfold entry_at. destruct (mv_entry _ _ _ _ Hm name) as [->|(j & e & t' & _ & _ & He & ->)].
  - by exists t.
  - rewrite Ht in He. injection He as <-. by exists t'.
Qed.
Lemma stable_file o name l b mode data : free_of who o -> stable (has_file o name l b mode data).
Proof. intros Ho. apply stable_and; [apply stable_entry|by apply stable_blob]. Qed.
Lemma stable_private p : stable (is_private p).
Proof.
  intros v v' (Hwf & Hp & Hpr) Hm. split_and!.
  - by apply (mv_wf _ _ _ _ Hm).
  - eapply wf_slice_grows; [apply (mv_grows _ _ _ _ Hm)|done].
  - intros n e' l He' Hl. assert (Hn : exists e, fv_tree v !! n = Some e /\ e_data e = BBytes l).
    { destruct (mv_entry _ _ _ _ Hm n) as [En|(j & e & t & _ & _ & He & En)]; rewrite En in He'; [by exists e'|].
      injection He' as <-. by exists e. }
    destruct Hn as (e & He & Hle). destruct (Hpr n e l He Hle) as (x & Hx & Ha).
    destruct (mv_live _ _ _ _ Hm l) as [x' Hx']; [by exists x|]. exists x'. split; [done|].
    destruct (mv_moved _ _ _ _ Hm l x x' Hx Hx') as [_ [[-> ->]|Hfresh]]; [done|].
    destruct (slice_lt _ p Hwf Hp); [auto|left; lia].
Qed.
End facts.
#[export] Hint Resolve stable_slice stable_blob stable_entry stable_file stable_private : go_stable.

(** ** How the steps move *)
Section state.
Context {ST R T : Type} `{!RecordOps ST R, !Store ST R T, !GoRuntime, !LawfulStore ST R T}.
Notation W := (world ST).
Implicit Types (w : W) (v : fview) (i : nat) (h : heap).

Record files_at w v : Prop := {
  fa_at : fs_at w (fv_tree v);
  fa_heap : w_heap w = fv_heap v;
  fa_blobs l : is_Some (fv_blobs v l) -> l < next (fv_heap v);
  fa_arrays a : is_Some (fv_arrays v a) -> a < next (fv_heap v)
}.
Lemma files_wf w v : files_at w v -> wf_heap (fv_heap v).
Proof. intros [Hat <- _ _]. apply Hat. Qed.

(** What is new is [i]'s. *)
Definition own i h h' (f : nat -> option nat) (a : nat) : option nat :=
  if decide (a < next h) then f a else if decide (a < next h') then Some i else None.
Definition in_heap_of i h' v : fview :=
  MkFV (fv_tree v) h' (own i (fv_heap v) h' (fv_blobs v)) (own i (fv_heap v) h' (fv_arrays v)).

Lemma own_old i h h' f a : a < next h -> own i h h' f a = f a.
Proof. intros. unfold own. by rewrite decide_True. Qed.
Lemma own_new i h h' f a : next h <= a -> a < next h' -> own i h h' f a = Some i.
Proof. intros. unfold own. by rewrite decide_False, decide_True by lia. Qed.
Lemma own_lt i h h' f a : next h <= next h' -> is_Some (own i h h' f a) -> a < next h'.
Proof. unfold own. intros Hn [j Hj]. repeat case_decide; (done || lia). Qed.

Lemma files_at_heap i w v h' :
  files_at w v -> fs_at (set_heap h' w) (fv_tree v) -> next (fv_heap v) <= next h' ->
  files_at (set_heap h' w) (in_heap_of i h' v).
Proof.
  intros Hw Hat Hn. split; [done|done|..]; simpl; intros a Ha; by apply (own_lt i _ _ _ _ Hn) in Ha.
Qed.

Lemma ext_grows h h' : wf_heap h -> ext h h' -> grows h h'.
Proof.
  intros Hwf He. split.
  - intros a. unfold array. destruct (decide (a < next h)); [by rewrite (ext_arrays _ _ He)|].
    destruct (arrays h !! a) eqn:Ea; [|simpl; lia]. pose proof (wf_next_arrays h Hwf a ltac:(by eexists)). lia.
  - intros m [x Hx]. rewrite (ext_mutexes _ _ He); [by eexists|by eapply mutex_lt].
Qed.

(** Making something new. *)
Lemma alloc_moves i touch w v h' :
  files_at w v -> wf_heap h' -> ext (fv_heap v) h' ->
  files_at (set_heap h' w) (in_heap_of i h' v) /\ moves touch (fun _ => False) v (in_heap_of i h' v).
Proof.
  intros Hw Hwf' He. pose proof (files_wf w v Hw) as Hwf.
  destruct (fs_at_heap w (fv_tree v) h' (fa_at _ _ Hw) Hwf') as [Hat _]; [by rewrite (fa_heap w v Hw)|].
  assert (Hold : forall l b, blobs (fv_heap v) !! l = Some b -> blobs h' !! l = Some b).
  { intros l b Hb. rewrite (ext_blobs _ _ He); [done|by eapply blob_lt]. }
  split; [apply files_at_heap; [done|done|apply He]|].
  split; simpl; try done; try apply He.
  - by apply ext_grows.
  - intros l [b Hb]. exists b. auto.
  - intros l Hl _. by apply (ext_blobs _ _ He).
  - intros a Ha _. by apply (ext_arrays _ _ He).
  - intros l b b' Hb. rewrite (Hold l b Hb). intros [= <-]. apply moved_refl.
  - intros l Hl. by apply own_old.
  - intros a Ha. by apply own_old.
  - by left.
Qed.

(** Changing the blob of a file. *)
Lemma change_moves i touch w v name e l b b' h' :
  files_at w v -> fv_tree v !! name = Some e -> e_data e = BBytes l -> blobs (fv_heap v) !! l = Some b ->
  wf_heap h' -> grows (fv_heap v) h' -> upd (fv_heap v) h' l (bytes b) -> blobs h' !! l = Some b' ->
  moved (fv_heap v) b b' -> fv_blobs v l = Some i \/ b' = b ->
  s_cap (bytes b) = 0 \/ fv_arrays v (s_arr (bytes b)) = Some i \/
    arrays h' !! s_arr (bytes b) = arrays (fv_heap v) !! s_arr (bytes b) ->
  files_at (set_heap h' w) (in_heap_of i h' v) /\ moves touch (eq i) v (in_heap_of i h' v).
Proof.
  intros Hw Ht Hd Hb Hwf' Hg Hu Hb' Hmv Hob Hoa. pose proof (files_wf w v Hw) as Hwf.
  pose proof (fa_heap w v Hw) as Hh. destruct e as [d mode t]. simpl in Hd. subst d.
  destruct (fs_at_upd w (fv_tree v) (w_store w) name _ l b b' h' mode t (fa_at _ _ Hw) Ht eq_refl) as [Hat _];
    [by rewrite Hh|done|by rewrite Hh|done|by rewrite Hh|rewrite insert_id by done; apply (fa_at _ _ Hw)|].
  rewrite insert_id in Hat by done.
  assert (Hother : forall l' x, l' <> l -> blobs (fv_heap v) !! l' = Some x -> blobs h' !! l' = Some x).
  { intros l' x Hl Hx. rewrite (upd_blobs _ _ _ _ Hu); [done|done|by eapply blob_lt]. }
  assert (Hset : set_store (w_store w) (set_heap h' w) = set_heap h' w) by done. rewrite Hset in Hat.
  split; [apply files_at_heap; [done|done|apply Hu]|].
  split; simpl; try done; try apply Hu.
  - intros l' [x Hx]. destruct (decide (l' = l)) as [->|Hl]; [by exists b'|]. exists x. auto.
  - intros l' Hl' Hf. destruct (decide (l' = l)) as [->|Hl]; [|by apply (upd_blobs _ _ _ _ Hu)].
    destruct Hob as [Ho| ->]; [by destruct (Hf i Ho)|]. by rewrite Hb, Hb'.
  - intros a Ha Hf. destruct (decide (a = s_arr (bytes b))) as [->|Hne].
    + destruct Hoa as [Hc|[Ho|?]]; [|by destruct (Hf i Ho)|done]. apply (upd_arrays _ _ _ _ Hu); [by right|done].
    + apply (upd_arrays _ _ _ _ Hu); [by left|done].
  - intros l' x x' Hx Hx'. destruct (decide (l' = l)) as [->|Hl]; [congruence|].
    rewrite (Hother l' x Hl Hx) in Hx'. injection Hx' as <-. apply moved_refl.
  - intros l' Hl'. by apply own_old.
  - intros a Ha. by apply own_old.
  - by left.
Qed.

(** Filling a buffer. *)
Lemma buffer_moves i touch w v p h' :
  files_at w v -> is_private p v -> wf_heap h' -> grows (fv_heap v) h' ->
  blobs h' = blobs (fv_heap v) -> mutexes h' = mutexes (fv_heap v) -> next h' = next (fv_heap v) ->
  (forall a, a <> s_arr p \/ s_cap p = 0 -> arrays h' !! a = arrays (fv_heap v) !! a) ->
  s_cap p = 0 \/ fv_arrays v (s_arr p) = Some i ->
  files_at (set_heap h' w) (in_heap_of i h' v) /\ moves touch (eq i) v (in_heap_of i h' v).
Proof.
  intros Hw (_ & Hp & Hpr) Hwf' Hg Hb Hm Hn Ha Ho. pose proof (files_wf w v Hw) as Hwf.
  pose proof (fa_heap w v Hw) as Hh.
  assert (Hu : upd (fv_heap v) h' (next (fv_heap v)) p).
  { split; [by rewrite Hn|intros; by rewrite Hb|intros a Ha' _; by apply Ha|by rewrite Hm|].
    intros m x Hlt. rewrite Hm. intros Hx. pose proof (mutex_lt _ _ _ Hwf Hx). lia. }
  destruct (fs_at_private w (fv_tree v) h' p (next (fv_heap v)) (fa_at _ _ Hw)) as [Hat _]; rewrite ?Hh; try done.
  { split; [done|]. intros n e l x Hn' Hd Hx. destruct (Hpr n e l Hn' Hd) as (y & Hy & ?).
    rewrite Hx in Hy. by injection Hy as <-. }
  split; [apply files_at_heap; [done|done|by rewrite Hn]|].
  split; simpl; try done.
  - by rewrite Hn.
  - by rewrite Hb.
  - intros. by rewrite Hb.
  - intros a Hlt Hf. destruct Ho as [Hc|Ho]; [by apply Ha; right|].
    destruct (decide (a = s_arr p)) as [->|?]; [by destruct (Hf i Ho)|by apply Ha; left].
  - intros. by rewrite Hm.
  - intros l x x' Hx. rewrite Hb, Hx. intros [= <-]. apply moved_refl.
  - intros l' Hl'. by apply own_old.
  - intros a Hlt. by apply own_old.
  - by left.
Qed.

(** Storing the record of a file again. *)
Lemma store_moves i touch w v name l mode t t' s :
  files_at w v -> fv_tree v !! name = Some (MkEntry (BBytes l) mode t) ->
  holds s (<[name := MkEntry (BBytes l) mode t']> (fv_tree v)) -> touch i name ->
  let v' := MkFV (<[name := MkEntry (BBytes l) mode t']> (fv_tree v)) (fv_heap v) (fv_blobs v) (fv_arrays v) in
  files_at (set_store s w) v' /\ moves touch (eq i) v v'.
Proof.
  intros Hw Ht Hs Htouch v'. pose proof (files_wf w v Hw) as Hwf. pose proof (fa_heap w v Hw) as Hh.
  pose proof (at_live _ _ (fa_at w v Hw) name _ Ht) as [b Hb]. rewrite Hh in Hb.
  destruct (fs_at_upd w (fv_tree v) s name _ l b b (fv_heap v) mode t' (fa_at _ _ Hw) Ht eq_refl) as [Hat _];
    [by rewrite Hh|done|by rewrite Hh; apply ext_upd, ext_refl|done|by rewrite Hh; apply moved_refl|done|].
  split; [split; [|done|apply (fa_blobs w v Hw)|apply (fa_arrays w v Hw)]|].
  - rewrite <- Hh in Hat. by destruct w.
  - split; simpl; try done; [intros ? ? ? -> [= <-]; apply moved_refl|].
    intros p. destruct (decide (p = name)) as [->|Hp]; [right|left; by rewrite lookup_insert_ne].
    exists i, (MkEntry (BBytes l) mode t), t'. split_and!; [done..|by rewrite lookup_insert_eq].
Qed.
End state.

(** ** Rules for the methods of an open file *)
Section rules.
Context {ST R T : Type} `{!RecordOps ST R, !Store ST R T, !GoRuntime, !LawfulStore ST R T}.
Notation W := (world ST).
Notation FD := (fileData ST R).
Notation F := (file ST R).
Implicit Types (w : W) (v : fview) (P : fview -> Prop) (fd : FD).

(** Goroutine [i], and what the others do. *)
Context (touch : nat -> string -> Prop) (i : nat) (Rel : fview -> fview -> Prop).
Context (HR : forall v v', Rel v v' -> moves touch (fun j => j <> i) v v').
Notation safe := (safe files_at Rel (moves touch (eq i))).
Notation stable := (stable Rel).

Lemma moves_nothing w v : files_at w v -> moves touch (eq i) v v.
Proof. intros _. apply moves_refl. Qed.
Lemma stable_rely P : Prog.stable (moves touch (fun j => j <> i)) P -> stable P.
Proof. intros Hst v v' Hv Hr. by apply (Hst v), HR. Qed.

(** The file of the goroutine: its blob has the owner [o], which is [i] or nobody. *)
Context (name : string) (l : nat) (mode : Z) (o : option nat) (Ho : o = Some i \/ o = None).
Notation file := (has_file o name l).
Lemma mine_free : free_of (fun j => j <> i) o.
Proof. destruct Ho as [->| ->]; intros j; [by intros [= <-] []|done]. Qed.
Lemma own_free : free_of (fun j => j <> i) (Some i).
Proof. by intros j [= <-] []. Qed.
Hint Resolve mine_free own_free : go_stable.
Ltac st := repeat apply stable_and; apply stable_rely; auto with go_stable.

(** A handle of that file, while it shows [n] bytes. *)
Definition opened (n : nat) fd : Prop :=
  (exists t, file_of name (MkEntry (BBytes l) mode t) fd) /\
  forall h, blob_len h (BBytes l) = Z.of_nat n -> sized h (BBytes l) fd.

Lemma sized_len h h' b fd : blob_len h b = blob_len h' b -> sized h b fd -> sized h' b fd.
Proof. intros E [?|(? & ? & ? & Hs)]; [by left|right]. by rewrite E in Hs. Qed.
Lemma file_len b data v : file b mode data v -> blob_len (fv_heap v) (BBytes l) = Z.of_nat (length data).
Proof.
  intros [_ [[Hb _] [_ (_ & _ & _ & Hd)]]]. unfold blob_len. simpl. by rewrite (contents_Some _ l b), Hd.
Qed.
Lemma open_handle w v b data fd :
  files_at w v -> file b mode data v -> opened (length data) fd ->
  exists t, handle_of w name (MkEntry (BBytes l) mode t) fd.
Proof.
  intros Hw Hf [[t Ht] Hs]. exists t. split; [done|]. rewrite (fa_heap w v Hw).
  apply Hs. by eapply file_len.
Qed.
Lemma handle_opened w v b data t fd :
  files_at w v -> file b mode data v -> handle_of w name (MkEntry (BBytes l) mode t) fd ->
  opened (length data) fd.
Proof.
  intros Hw Hf [Hof Hs]. split; [by exists t|]. intros h Hh. eapply sized_len; [|exact Hs].
  rewrite (fa_heap w v Hw). cbn [e_data]. by rewrite (file_len b data v Hf).
Qed.
(** *** Looks at the file *)
Lemma file_live w v b data : files_at w v -> file b mode data v ->
  wf_heap (w_heap w) /\ idle (w_heap w) /\ live (w_heap w) (BBytes l).
Proof.
  intros Hw [_ [[Hb _] _]]. split_and!; [apply (fa_at w v Hw)..|]. rewrite (fa_heap w v Hw). by exists b.
Qed.

Lemma size_step {B} (Q : B * F -> fview -> Prop) n P b data fd off fl (k : Z -> prog (F * W) B) :
  stable P -> (forall v, P v -> file b mode data v) -> opened (length data) fd ->
  (forall fd', opened (length data) fd' -> (loaded fd (BBytes l) -> loaded fd' (BBytes l)) ->
     safe Q n P (pvar (opened_file fd' off fl) (k (Z.of_nat (length data))))) ->
  safe Q (S n) P (pvar (opened_file fd off fl) (size <~ atomic f_Size ;; k size)).
Proof.
  intros HP Hf Hop Hk. apply var_step; [done|]. intros w v Hw Hv.
  destruct (open_handle w v b data fd Hw (Hf v Hv) Hop) as [t Hh].
  destruct (file_live w v b data Hw (Hf v Hv)) as (Hwf & Hi & Hl).
  destruct (fd_Size_run w name (MkEntry (BBytes l) mode t) fd Hwf Hi Hl Hh) as (fd' & E & Hh' & Hld).
  eexists _, (opened_file fd' off fl), w, v, P.
  split_and!; [by apply on_data_run|done|apply moves_refl|done|]. cbn [e_data].
  rewrite (fa_heap w v Hw), (file_len b data v (Hf v Hv)). apply Hk; [by eapply handle_opened; eauto|done].
Qed.
Lemma data_step {B} (Q : B * F -> fview -> Prop) n P b data fd off fl k :
  stable P -> (forall v, P v -> file b mode data v) -> opened (length data) fd ->
  (forall fd', opened (length data) fd' -> loaded fd' (BBytes l) ->
     safe Q n P (pvar (opened_file fd' off fl) (k (Some (BBytes l), None)))) ->
  safe Q (S n) P (pvar (opened_file fd off fl) (r <~ atomic f_Data ;; k r) : prog W (B * F)).
Proof.
  intros HP Hf Hop Hk. apply var_step; [done|]. intros w v Hw Hv.
  destruct (open_handle w v b data fd Hw (Hf v Hv) Hop) as [t Hh].
  destruct (fd_Data_run w name _ fd Hh) as (fd' & E & Hh' & Hld).
  eexists _, (opened_file fd' off fl), w, v, P.
  split_and!; [by apply on_data_run|done|apply moves_refl|done|].
  apply Hk; [by eapply handle_opened; eauto|done].
Qed.
Lemma mode_step {B} (Q : B * F -> fview -> Prop) n P b data fd off fl (k : Z -> prog (F * W) B) :
  stable P -> (forall v, P v -> file b mode data v) -> opened (length data) fd ->
  (forall fd', opened (length data) fd' -> safe Q n P (pvar (opened_file fd' off fl) (k mode))) ->
  safe Q (S n) P (pvar (opened_file fd off fl) (mode <~ atomic f_Mode ;; k mode)).
Proof.
  intros HP Hf Hop Hk. apply var_step; [done|]. intros w v Hw Hv.
  destruct (open_handle w v b data fd Hw (Hf v Hv) Hop) as [t Hh].
  destruct (f_Mode_run w name _ fd off fl Hh) as (fd' & E & Hh').
  eexists _, (opened_file fd' off fl), w, v, P. split_and!; [exact E|done|apply moves_refl|done|].
  apply Hk. by eapply handle_opened; eauto.
Qed.
(** A look at what the goroutine has, or at the heap. *)
Lemma look_step {A B} (Q : B * F -> fview -> Prop) n P (f f' : F) (m : M (F * W) A) a (k : A -> prog (F * W) B) :
  stable P -> (forall w v, files_at w v -> P v -> m (f, w) = (Ret a, (f', w))) ->
  safe Q n P (pvar f' (k a)) -> safe Q (S n) P (pvar f (x <~ atomic m ;; k x)).
Proof.
  intros HP Hm Hk. apply var_step; [done|]. intros w v Hw Hv.
  exists a, f', w, v, P. split_and!; [by eapply Hm|done|apply moves_refl|done|done].
Qed.
(** Making something new on the heap. *)
Lemma alloc_step {A B} (Q : B * F -> fview -> Prop) n P (f : F) (m : M (F * W) A) (k : A -> prog (F * W) B) :
  stable P -> (forall v v', P v -> moves touch (fun _ => False) v v' -> P v') ->
  (forall w v, files_at w v -> P v -> exists a h' P', m (f, w) = (Ret a, (f, set_heap h' w)) /\
     wf_heap h' /\ ext (fv_heap v) h' /\ (P (in_heap_of i h' v) -> P' (in_heap_of i h' v)) /\
     safe Q n P' (pvar f (k a))) ->
  safe Q (S n) P (pvar f (x <~ atomic m ;; k x)).
Proof.
  intros HP HP0 Hm. apply var_step; [done|]. intros w v Hw Hv.
  destruct (Hm w v Hw Hv) as (a & h' & P' & Em & Hwf' & He & HP' & Hs).
  destruct (alloc_moves i touch w v h' Hw Hwf' He) as [Hw' Hmv].
  exists a, f, (set_heap h' w), (in_heap_of i h' v), P'.
  split_and!; [done|done|by eapply moves_mono; [|exact Hmv]|by apply HP', (HP0 v)|done].
Qed.

(** *** [OpenFile] of a file that is there *)

(** A handle as [OpenFile] gives it: nothing was overridden. *)
Definition plain fd : Prop := modeOverride fd = None /\ modTimeOverride fd = 0%Z.

Lemma OpenFile_there b data flag perm P :
  stable P -> (forall v, P v -> file b mode data v) -> ValidPath name = true -> IsDir mode = false ->
  has_flag flag FlagCreate = false -> has_flag flag FlagTruncate = false ->
  safe (fun r v => P v /\ exists fd, r = (Some (MkHandle (open_kind flag) (opened_file fd 0 flag)), None) /\
      opened (length data) fd /\ plain fd) 2 P (OpenFile_p name flag perm).
Proof.
  intros HP Hf Hv Hd Hcr Htr. unfold OpenFile_p. rewrite Hcr. apply prog_step; [done|]. intros w v Hw HPv.
  destruct (Hf v HPv) as [[t Ht] Hb].
  destruct (getFiles_run [name] w (fv_tree v) (at_holds _ _ (fa_at w v Hw))) as (rs & s & E & Hs & Hrs);
    [simpl; by rewrite Hv|done|].
  apply Forall2_cons_inv_l in Hrs as (r & rs' & Hr & Hrs & ->). apply Forall2_nil_inv_l in Hrs as ->.
  unfold is_result in Hr. rewrite Ht in Hr. destruct Hr as (rec & Hr & He & Hrec). simpl in E. rewrite Hr, He in E.
  eexists _, (set_store s w), v, P. split_and!; [exact E| |apply moves_refl|done|].
  { destruct Hw. split; [by apply fs_at_store|done..]. }
  cbv beta iota. apply prog_step; [done|]. intros w1 v1 Hw1 HPv1.
  pose proof (record_handle w1 name _ rec Hrec) as Hh.
  destruct (f_Mode_run w1 name _ _ 0 0 Hh) as (fd & Em & Hh1).
  assert (Hpl : plain fd).
  { destruct (ro_Mode_run (fd_ro (record_fd (ST := ST) name (Some (StoreRecord rec)))) mode w1) as (ro' & Ero & _);
      [apply (of_mode _ _ _ (ho_file _ _ _ _ Hh))|].
    assert (Em' : f_Mode (opened_file (record_fd name (Some (StoreRecord rec))) 0 0, w1) =
      (Ret mode, (opened_file (set_ro ro' (record_fd name (Some (StoreRecord rec)))) 0 0, w1))).
    { apply on_data_run. unfold fd_Mode. rewrite bind_gets. by apply on_ro_run. }
    rewrite Em in Em'. by injection Em' as ->. }
  eexists (mode, opened_file fd 0 0), w1, v1, P. split_and!; [by apply on_var_run|done|apply moves_refl|done|].
  cbv beta iota. rewrite Hd. cbn [andb]. unfold finish_open_p. rewrite Htr.
  apply safe_done; [done|]. intros v2 Hv2. split; [done|]. exists fd. split_and!; [done| |done].
  by eapply handle_opened; [exact Hw1|by apply Hf|exact Hh1].
Qed.

(** *** [Stat] *)
Lemma Stat_open {B} (g : string -> Z -> Z -> Z -> err -> B) (b : Bytes) data fd off fl P :
  stable P -> (forall v, P v -> file b mode data v) -> opened (length data) fd -> plain fd ->
  safe (fun r v => P v /\ r.2 = opened_file fd off fl /\ exists t,
      r.1 = g (Base name) (Z.of_nat (length data)) mode t None) 4 P
    (pvar (opened_file fd off fl)
      (let~ (info, e) := atomic FileStat in
       size <~ atomic (in_world (info_Size info)) ;;
       mode <~ atomic (in_world (info_Mode info)) ;;
       modTime <~ atomic (in_world (info_ModTime info)) ;;
       Done (g (info_Name info) size mode modTime e))).
Proof.
  intros HP Hf Hop [Hpm Hpt]. pose proof Hop as [[t Hof] _].
  set (info := MkFileInfo (InfoRunOnce (fd_ro fd)) (path fd) : fileInfo ST R).
  apply (look_step _ _ _ _ (opened_file fd off fl) _ (info, None)); [done|done|]. cbv beta iota.
  assert (Hro : ro_modeof (fd_ro fd) = Some mode /\ ro_mtimeof (fd_ro fd) = Some t).
  { destruct Hof as [_ Hm Hmt _]. unfold fd_mode in Hm. rewrite Hpm in Hm. split; [done|].
    unfold fd_mtime in Hmt. by rewrite Hpt in Hmt. }
  apply (look_step _ _ _ _ (opened_file fd off fl) _ (Z.of_nat (length data))); [done|..].
  { intros w v Hw Hv. destruct (open_handle w v b data fd Hw (Hf v Hv) Hop) as [t' Hh].
    destruct (file_live w v b data Hw (Hf v Hv)) as (Hwf & Hi & Hl).
    destruct (fd_Size_run w name (MkEntry (BBytes l) mode t') fd Hwf Hi Hl Hh) as (fd' & Es & _).
    unfold fd_Size, on_ro, zoom in Es. cbn [fst snd] in Es.
    destruct (ro_Size (fd_ro fd, w)) as [r [ro' w']] eqn:Er. injection Es as -> _ ->.
    apply in_world_run. unfold info_Size. simpl. rewrite (peek_run _ _ _ _ _ _ Er).
    by rewrite (fa_heap w v Hw), (file_len b data v (Hf v Hv)). }
  apply (look_step _ _ _ _ (opened_file fd off fl) _ mode); [done|..].
  { intros w v Hw Hv. destruct (ro_Mode_run (fd_ro fd) mode w (proj1 Hro)) as (ro' & Er & _).
    apply in_world_run. unfold info_Mode. simpl. apply (peek_run _ _ _ _ _ _ Er). }
  apply (look_step _ _ _ _ (opened_file fd off fl) _ t); [done|..].
  { intros w v Hw Hv. destruct (ro_ModTime_run (fd_ro fd) t w (proj2 Hro)) as (ro' & Er & _).
    apply in_world_run. unfold info_ModTime. simpl. apply (peek_run _ _ _ _ _ _ Er). }
  apply safe_done; [done|]. intros v Hv. split_and!; [done|done|]. exists t. cbn [fst].
  unfold info_Name. simpl. by rewrite (of_path _ _ _ Hof).
Qed.

(** *** [Read] *)

(** What else the goroutine has. *)
Definition kept_by_all (X : fview -> Prop) : Prop := stable X /\ Prog.stable (moves touch (fun _ => False)) X.
Lemma kept_stable X : (forall who, ~ who i -> Prog.stable (moves touch who) X) -> kept_by_all X.
Proof. intros HX. split; [by apply stable_rely, HX; intros Hi; apply Hi|by apply HX; intros []]. Qed.
Lemma kept_and X Y : kept_by_all X -> kept_by_all Y -> kept_by_all (fun v => X v /\ Y v).
Proof. intros [] []. split; by apply stable_and. Qed.
Lemma free_mine who o' : o' = Some i \/ o' = None -> ~ who i -> free_of who o'.
Proof. intros [->| ->] Hw j; [by intros [= <-]|done]. Qed.
Lemma kept_file b data : kept_by_all (file b mode data).
Proof. apply kept_stable. intros who Hw. by apply stable_file, free_mine. Qed.
Lemma kept_slice o' p data : o' = Some i \/ o' = None -> kept_by_all (has_slice o' p data).
Proof. intros Ho'. apply kept_stable. intros who Hw. by apply stable_slice, free_mine. Qed.
Lemma kept_blob b hdr data : kept_by_all (has_blob (Some i) o b hdr data).
Proof. apply kept_stable. intros who Hw. apply stable_blob; apply free_mine; auto. Qed.
Lemma kept_private p : kept_by_all (is_private p).
Proof. apply kept_stable. intros who Hw. apply stable_private. Qed.
Hint Resolve kept_and kept_file kept_slice kept_blob kept_private : go_stable.

Lemma view_of_file b data w v h' vb (s e : Z) :
  files_at w v -> file b mode data v -> wf_heap h' -> ext (fv_heap v) h' -> next (fv_heap v) <= vb ->
  arrays h' = arrays (fv_heap v) -> (0 <= s <= e)%Z -> (e <= length_ b)%Z ->
  let hdr := MkBytes (Slice (s_arr (bytes b)) (s_off (bytes b) + Z.to_nat s)
               (Z.to_nat (e - s)) (s_cap (bytes b) - Z.to_nat s)) (e - s) (mu b) in
  blobs h' !! vb = Some hdr ->
  has_blob (Some i) o vb hdr (take (Z.to_nat (e - s)) (drop (Z.to_nat s) data)) (in_heap_of i h' v).
Proof.
  intros Hw [_ ([Hb Hmu] & _ & _ & Hsl & Hown & Hd)] Hwf' He Hvb Harr Hs Hle hdr Hh.
  pose proof (files_wf w v Hw) as Hwf. destruct (wf_blobs _ Hwf l b Hb) as [Hwb Hlb _].
  split; [split; [done|]|split].
  - simpl. rewrite (ext_mutexes _ _ He); [done|by eapply mutex_lt].
  - simpl. apply own_new; [done|by eapply blob_lt].
  - split_and!; [done|apply (wf_blobs _ Hwf' vb _ Hh)| |].
    + simpl. destruct Hown as [->|Hown]; [by left|]. destruct (slice_lt _ _ Hwf Hsl) as [->|Hlt]; [by left|right].
      by rewrite own_old.
    + unfold read_slice. simpl. unfold array. rewrite Harr. rewrite <- Hd. unfold read_slice, array.
      rewrite skipn_firstn_comm, drop_drop, take_take. f_equal. destruct Hwb. lia.
Qed.

Lemma ReadBlobAt_open b c fd off fl (len pos : Z) X :
  kept_by_all X -> opened (length c) fd -> (0 <= pos)%Z -> (0 <= len)%Z -> is_int64 (pos + len) ->
  let n := Z.min len (Z.of_nat (length c) - pos) in
  safe (fun r v => exists fd', (r.2 = opened_file fd' off fl /\ opened (length c) fd') /\
      if (Z.of_nat (length c) <=? pos)%Z then r.1 = (None, 0%Z, Some EOF) /\ file b mode c v /\ X v
      else exists vb hdr, r.1 = (Some (BBytes vb), n, if (pos + n =? Z.of_nat (length c))%Z then Some EOF else None) /\
             has_blob (Some i) o vb hdr (take (Z.to_nat n) (drop (Z.to_nat pos) c)) v /\ file b mode c v /\ X v) 5
    (fun v => file b mode c v /\ X v) (pvar (opened_file fd off fl) (ReadBlobAt_p len pos)).
Proof.
  intros HX Hop Hpos Hlen Hi64 n. unfold ReadBlobAt_p.
  assert (HP : kept_by_all (fun v => file b mode c v /\ X v)) by auto with go_stable.
  eapply size_step; [apply HP|by intros v []|done|]. intros fd1 Hop1 _. 
  destruct (Z.leb_spec (Z.of_nat (length c)) pos) as [Hle|Hgt].
  { apply safe_done; [apply HP|]. intros v [Hf HXv]. by exists fd1. }
  eapply size_step; [apply HP|by intros v []|done|]. intros fd2 Hop2 _.
  eapply data_step; [apply HP|by intros v []|done|]. intros fd3 Hop3 _. cbv beta iota zeta.
  rewrite add64_id by done.
  replace (if (Z.of_nat (length c) <? pos + len)%Z then Z.of_nat (length c) else pos + len)%Z
    with (pos + n)%Z by (unfold n; destruct (Z.ltb_spec (Z.of_nat (length c)) (pos + len)); lia).
  apply alloc_step; [apply HP|apply HP|]. intros w v Hw [Hf HXv].
  pose proof Hf as [_ ([Hb Hmu] & _ & Hsl)]. pose proof (files_wf w v Hw) as Hwf. pose proof (fa_heap w v Hw) as Hh.
  assert (Hlb : length_ b = Z.of_nat (length c)).
  { rewrite (wf_length _ _ (wf_blobs _ Hwf l b Hb)). destruct Hsl as (_ & Hws & _ & <-).
    by rewrite length_read_slice. }
  destruct (Bytes_View_spec (fv_heap v) l b pos (pos + n)) as (vb & h' & Ev & Hwf' & He & Hvb & Harr & Hhdr);
    [done|done|unfold n; lia|unfold n; lia|].
  exists (Some (BBytes vb), None), h', (fun v => exists hdr, length_ hdr = n /\
      has_blob (Some i) o vb hdr (take (Z.to_nat n) (drop (Z.to_nat pos) c)) v /\ file b mode c v /\ X v).
  split_and!; [|done|done| |].
  - apply on_blob_run. by rewrite Hh.
  - intros HPv. pose proof (view_of_file b c w v h' vb pos (pos + n) Hw Hf Hwf' He Hvb Harr) as Hv.
    replace (pos + n - pos)%Z with n in Hv, Hhdr by lia.
    eexists. split; [|split; [apply Hv; [unfold n; lia|unfold n; lia|exact Hhdr]|exact HPv]]. done.
  - cbv beta iota. apply safe_ex; [apply stable_ex; intros hdr; apply stable_and; [apply stable_pure|]; apply kept_and; auto with go_stable|].
    intros hdr. apply safe_assume; [apply stable_and; [apply stable_pure|]; apply kept_and; auto with go_stable|]. intros Hl.
    apply (look_step _ _ _ _ (opened_file fd3 off fl) _ n); [apply kept_and; auto with go_stable|..].
    { intros w1 v1 Hw1 [Hvb1 _]. destruct Hvb1 as [[Hb1 _] _].
      rewrite (on_blob_run Blob_Len (BBytes vb) _ w1 n (w_heap w1)); [by rewrite set_heap_id|].
      simpl. rewrite (Bytes_Len_eq _ vb hdr) by (by rewrite (fa_heap w1 v1 Hw1)). by rewrite Hl. }
    rewrite add64_id by (unfold n; int64). cbv beta iota.
    match goal with |- safe _ _ _ (pvar _ ?r) =>
      replace r with (Done (S := F * W) (Some (BBytes vb), n,
        if (pos + n =? Z.of_nat (length c))%Z then Some EOF else None)) end.
    2: by destruct (pos + n =? Z.of_nat (length c))%Z.
    apply safe_done; [apply kept_and; auto with go_stable|]. intros v2 (Hvb2 & Hf2 & HX2).
    exists fd3. split; [done|]. by exists vb, hdr.
Qed.

(** Bytes copied into a buffer of the goroutine. *)
Lemma buffer_filled b c w v p sl old rd h' :
  files_at w v -> file b mode c v -> has_slice (Some i) p old v -> is_private p v ->
  wf_heap h' -> grows (fv_heap v) h' -> blobs h' = blobs (fv_heap v) -> mutexes h' = mutexes (fv_heap v) ->
  next h' = next (fv_heap v) ->
  (forall a, a <> s_arr p \/ s_len p = 0 -> arrays h' !! a = arrays (fv_heap v) !! a) ->
  read_slice (fv_heap v) sl = rd -> length rd <= s_len p ->
  array h' (s_arr p) = splice (array (fv_heap v) (s_arr p)) (s_off p) (take (s_len p) rd) ->
  file b mode c (in_heap_of i h' v) /\
  has_slice (Some i) p (rd ++ drop (length rd) old)%list (in_heap_of i h' v).
Proof.
  intros Hw [He ([Hb Hmu] & Hob & Hsl)] Hp (_ & Hwp & Hpr) Hwf' Hg Hbl Hm Hn Ha Hrd Hlen Harr.
  pose proof (files_wf w v Hw) as Hwf. destruct Hsl as (_ & Hws & Hown & Hd). destruct Hp as (_ & _ & Hop & Hold).
  assert (Hkeep : forall q o', wf_slice (fv_heap v) q -> s_cap q = 0 \/ fv_arrays v (s_arr q) = o' ->
    s_cap q = 0 \/ fv_arrays (in_heap_of i h' v) (s_arr q) = o').
  { intros q o' Hq [?|Hq']; [by left|]. destruct (slice_lt _ q Hwf Hq); [by left|right]. simpl. by rewrite own_old. }
  split; [split; [exact He|split_and!]|].
  - split; simpl; [by rewrite Hbl|by rewrite Hm].
  - simpl. rewrite own_old; [done|by eapply blob_lt].
  - split_and!; [done|by eapply wf_slice_grows|by apply Hkeep|].
    rewrite <- Hd. destruct He as [t Ht]. destruct (Hpr name _ l Ht eq_refl) as (x & Hx & Hap).
    rewrite Hb in Hx. injection Hx as <-. destruct (decide (s_cap (bytes b) = 0)) as [Hc|Hc].
    { destruct Hws. unfold read_slice. by replace (s_len (bytes b)) with 0 by lia. }
    apply read_slice_eq; [done..|]. intros _. apply Ha. destruct Hwp, Hap as [?|[?|?]]; [by left|right; lia|done].
  - split_and!; [done|by eapply wf_slice_grows|by apply Hkeep|].
    unfold read_slice. simpl. rewrite Harr. replace (s_off p) with (s_off p + 0) at 2 by lia.
    destruct Hwp as [Hp1 Hp2]. rewrite window_splice by (rewrite ?length_take; lia).
    fold (read_slice (fv_heap v) p). rewrite Hold. unfold splice. simpl. by rewrite take_ge by lia.
Qed.

Lemma copy_step {B} (Q : B * F -> fview -> Prop) n b c (f : F) p sl old rd (k : Z -> prog (F * W) B) :
  length rd <= s_len p ->
  (forall x, safe Q n (fun v => file b mode c v /\ has_slice (Some i) p (rd ++ drop (length rd) old)%list v)
     (pvar f (k x))) ->
  safe Q (S n) (fun v => has_slice (Some i) sl rd v /\ file b mode c v /\ has_slice (Some i) p old v /\ is_private p v)
    (pvar f (x <~ atomic (in_world (in_heap (copy_slice p sl))) ;; k x)).
Proof.
  intros Hlen Hk. apply var_step; [apply kept_and; auto with go_stable|].
  intros w v Hw ((_ & _ & _ & Hsl) & Hf & Hs & Hpr). pose proof (files_wf w v Hw) as Hwf. pose proof Hpr as (_ & Hwp & _).
  destruct (copy_slice_spec (fv_heap v) p sl Hwp) as (h' & Ec & Hb & Hm & Hnx & Ha & Harr).
  destruct (safe_run _ _ _ _ _ (safe_copy_slice (fv_heap v) p sl Hwf Hwp) Ec) as [Hwf' Hg].
  rewrite Hsl in Harr. destruct (buffer_moves i touch w v p h') as [Hw' Hmv]; try done.
  { intros a [?|Hc]; apply Ha; [by left|right]. destruct Hwp. lia. }
  { by destruct Hs as (_ & _ & ? & _). }
  destruct (buffer_filled b c w v p sl old rd h') as [Hf' Hs']; try done.
  eexists _, f, (set_heap h' w), _, _.
  split_and!; [apply in_world_run; unfold in_heap, zoom; by rewrite (fa_heap w v Hw), Ec|done|done| |apply Hk]. by split.
Qed.

Lemma ReadAt_open b c fd off fl p old (pos : Z) :
  opened (length c) fd -> (0 <= pos)%Z -> is_int64 (pos + Z.of_nat (s_len p)) -> length old = s_len p ->
  let n := read_count c (Z.of_nat (s_len p)) pos in
  safe (fun r v => exists fd', (r = ((n, read_err c (Z.of_nat (s_len p)) pos), opened_file fd' off fl) /\
      opened (length c) fd') /\ file b mode c v /\
      has_slice (Some i) p (take (Z.to_nat n) (drop (Z.to_nat pos) c) ++ drop (Z.to_nat n) old)%list v) 7
    (fun v => file b mode c v /\ has_slice (Some i) p old v /\ is_private p v)
    (pvar (opened_file fd off fl) (ReadAt_p p pos)).
Proof.
  intros Hop Hpos Hi64 Hlo n. unfold ReadAt_p. set (len := Z.of_nat (s_len p)) in *.
  set (X v := has_slice (Some i) p old v /\ is_private p v).
  assert (HX : kept_by_all X) by (apply kept_and; auto with go_stable).
  eapply (var_bind_safe _ _ _ _ _ 5 2).
  { apply (ReadBlobAt_open b c fd off fl len pos X); [done..|lia|done]. }
  assert (HfX : stable (fun v => file b mode c v /\ X v)) by (apply kept_and; auto with go_stable).
  assert (HbX : forall vb hdr data, stable (fun v => has_blob (Some i) o vb hdr data v /\ file b mode c v /\ X v))
    by (intros; apply kept_and; auto with go_stable).
  set (m := Z.min len (Z.of_nat (length c) - pos)).
  intros [[rb rn] re] f'. cbn [fst snd].
  apply safe_ex.
  { apply stable_ex. intros fd'. apply stable_and; [apply stable_pure|].
    destruct (Z.of_nat (length c) <=? pos)%Z; [apply stable_and; [apply stable_pure|done]|].
    apply stable_ex; intros vb; apply stable_ex; intros hdr. apply stable_and; [apply stable_pure|done]. }
  intros fd'. apply safe_assume.
  { apply stable_and; [apply stable_pure|].
    destruct (Z.of_nat (length c) <=? pos)%Z; [apply stable_and; [apply stable_pure|done]|].
    apply stable_ex; intros vb; apply stable_ex; intros hdr. apply stable_and; [apply stable_pure|done]. }
  intros [-> Hop']. unfold read_err. fold n. destruct (Z.leb_spec (Z.of_nat (length c)) pos) as [Hle|Hgt].
  - apply safe_assume; [apply stable_and; [apply stable_pure|done]|]. intros [= -> -> ->].
    apply safe_done; [done|]. intros v (Hf & Hs & _). exists fd'.
    assert (n = 0%Z) as -> by (unfold n, read_count; lia).
    split; [split; [|done]|split; [done|]].
    + by destruct (Z.leb_spec (Z.of_nat (length c)) (pos + 0)); [|lia].
    + done.
  - assert (Hn : m = n) by (unfold m, n, read_count; lia). rewrite Hn in *.
    apply safe_ex; [apply stable_ex; intros vb; apply stable_ex; intros hdr; apply stable_and; [apply stable_pure|done]|].
    intros vb. apply safe_ex; [apply stable_ex; intros hdr; apply stable_and; [apply stable_pure|done]|].
    intros hdr. apply safe_assume; [apply stable_and; [apply stable_pure|done]|]. intros [= -> -> ->].
    set (rd := take (Z.to_nat n) (drop (Z.to_nat pos) c)).
    assert (Hlr : length rd = Z.to_nat n) by (unfold rd, n, read_count in *; rewrite length_take, length_drop; lia).
    apply alloc_step; [done|apply kept_and; auto with go_stable|]. intros w v Hw (Hvb & Hf & HXv).
    destruct Hvb as (Hus & _ & _ & _ & _ & Hrd). pose proof (files_wf w v Hw) as Hwf.
    destruct (Blob_Bytes_spec (fv_heap v) (BBytes vb) rd Hwf) as (sl & h' & Es & Hwf' & He & Hwsl & Hfr & Hsl);
      [by exists hdr|].
    exists sl, h', (fun v => has_slice (Some i) sl rd v /\ file b mode c v /\ X v).
    split_and!; [|done|done| |].
    + apply in_world_run. unfold in_heap, zoom. by rewrite (fa_heap w v Hw), Es.
    + intros (_ & Hf' & HX'). split; [|by split]. split_and!; [done|done| |done].
      destruct (slice_lt _ sl Hwf' Hwsl); [by left|right]. simpl. by apply own_new.
    + apply (copy_step _ 0 b c (opened_file fd' off fl) p sl old rd); [rewrite Hlr; unfold n, read_count; lia|]. intros _.
      apply safe_done; [apply kept_and; auto with go_stable|]. intros v2 [Hf2 Hs2]. exists fd'. rewrite Hlr in Hs2.
      split_and!; [|done|done|done]. f_equal. f_equal.
      destruct (Z.eqb_spec (pos + n) (Z.of_nat (length c))), (Z.leb_spec (Z.of_nat (length c)) (pos + n)); try done;
        unfold n, read_count in *; lia.
Qed.

Lemma new_buffer b c w v data :
  files_at w v -> file b mode c v ->
  exists p h', make_slice data (fv_heap v) = (Ret p, h') /\
    wf_heap h' /\ ext (fv_heap v) h' /\ s_len p = length data /\ next (fv_heap v) <= s_arr p /\
    has_slice (Some i) p data (in_heap_of i h' v) /\ is_private p (in_heap_of i h' v).
Proof.
  intros Hw Hf. pose proof (files_wf w v Hw) as Hwf.
  destruct (make_slice_spec (fv_heap v) data Hwf)
    as (p & h' & E & Hwf' & He & Hp & Hr & Ha & Hl & Hb & _).
  exists p, h'. split_and!; [done|done|done|done|lia| |].
  - split_and!; [done|done| |done]. destruct (slice_lt h' p Hwf' Hp); [by left|right].
    simpl. apply own_new; [lia|done].
  - split_and!; [done|done|]. intros n e l' Hn Hd. simpl in Hn |- *. rewrite Hb.
    pose proof (at_live _ _ (fa_at w v Hw) n e Hn) as Hlive. rewrite Hd, (fa_heap w v Hw) in Hlive.
    destruct Hlive as [x Hx]. exists x. split; [done|].
    destruct (slice_lt (fv_heap v) (bytes x) Hwf (wf_bytes _ _ (wf_blobs _ Hwf l' x Hx))); [auto|left; lia].
Qed.

(** A read into a new buffer, and what is in it then. *)
Lemma read_into_open k b c (len pos : Z) (f : F) (X : F -> Prop) (m : slice -> prog (F * W) (Z * err)) :
  (0 <= len)%Z -> (0 <= pos)%Z ->
  let n := read_count c len pos in
  (forall p old, Z.of_nat (s_len p) = len -> length old = s_len p ->
     safe (fun r v => (r.1 = (n, read_err c len pos) /\ X r.2) /\ file b mode c v /\
         has_slice (Some i) p (take (Z.to_nat n) (drop (Z.to_nat pos) c) ++ drop (Z.to_nat n) old)%list v) k
       (fun v => file b mode c v /\ has_slice (Some i) p old v /\ is_private p v) (pvar f (m p))) ->
  safe (fun r v => (r.1 = (take (Z.to_nat n) (drop (Z.to_nat pos) c), read_err c len pos) /\ X r.2) /\
      file b mode c v) (S (k + 2)) (file b mode c)
    (pvar f
      (p <~ atomic (in_world (in_heap (make_zeros len))) ;;
       let~ (n, e) := m p in
       data <~ atomic (in_world (in_heap (gets (fun h => read_slice h p)))) ;;
       Done (take (Z.to_nat n) data, e))).
Proof.
  intros Hlen Hpos n Hm. apply alloc_step; [apply (kept_file b c)|apply (kept_file b c)|].
  intros w v Hw Hf. set (old := replicate (Z.to_nat len) zero).
  destruct (new_buffer b c w v old Hw Hf) as (p & h' & E & Hwf' & He & Hl & _ & Hs & Hp).
  assert (Hlp : Z.of_nat (s_len p) = len) by (rewrite Hl; unfold old; rewrite length_replicate; lia).
  exists p, h', (fun v => file b mode c v /\ has_slice (Some i) p old v /\ is_private p v).
  split_and!; [|done|done|by split|].
  { apply in_world_run. unfold in_heap, zoom, make_zeros. rewrite (fa_heap w v Hw).
    destruct (Z.ltb_spec len 0); [lia|]. fold old. by rewrite E. }
  set (new := (take (Z.to_nat n) (drop (Z.to_nat pos) c) ++ drop (Z.to_nat n) old)%list).
  assert (HP' : stable (fun v => file b mode c v /\ has_slice (Some i) p new v)) by (apply kept_and; auto with go_stable).
  eapply (var_bind_safe _ _ _ _ _ k 2); [by apply (Hm p old Hlp)|]. fold new.
  intros [rn re] f'. cbn [fst snd]. apply safe_assume; [by apply stable_and; [apply stable_pure|]|].
  intros [[= -> ->] Hf']. apply (look_step _ _ _ _ f' _ new); [done|..].
  { intros w1 v1 Hw1 [_ (_ & _ & _ & Hr)]. apply in_world_run. unfold in_heap, zoom, gets.
    rewrite (fa_heap w1 v1 Hw1), Hr. by destruct w1; destruct Hw1 as [_ <- _ _]. }
  apply safe_done; [done|]. intros v2 [Hf2 _]. split; [|done]. split; [|done]. cbn [fst]. f_equal.
  unfold new. destruct (decide (n <= 0)%Z) as [Hn|Hn]; [by replace (Z.to_nat n) with 0 by lia|].
  rewrite take_app_le; [|unfold n, read_count in *; rewrite length_take, length_drop; lia].
  apply take_ge. rewrite length_take. lia.
Qed.

Lemma ReadAt_into_open b c fd off fl (len pos : Z) :
  opened (length c) fd -> (0 <= pos)%Z -> (0 <= len)%Z -> is_int64 (pos + len) ->
  let n := read_count c len pos in
  safe (fun r v => (r.1 = (take (Z.to_nat n) (drop (Z.to_nat pos) c), read_err c len pos) /\
      exists fd', r.2 = opened_file fd' off fl /\ opened (length c) fd') /\ file b mode c v) 10 (file b mode c)
    (pvar (opened_file fd off fl)
      (p <~ atomic (in_world (in_heap (make_zeros len))) ;;
       let~ (n, e) := ReadAt_p p pos in
       data <~ atomic (in_world (in_heap (gets (fun h => read_slice h p)))) ;;
       Done (take (Z.to_nat n) data, e))).
Proof.
  intros Hop Hpos Hlen Hi64 n.
  apply (read_into_open 7 b c len pos _ (fun f => exists fd', f = opened_file fd' off fl /\ opened (length c) fd')); [done..|].
  intros p old Hlp Hlo. eapply safe_post; [done| |apply (ReadAt_open b c fd off fl p old pos); [done|done|by rewrite Hlp|done]].
  rewrite Hlp. intros r v (fd' & [-> Hop'] & Hv). split; [|done]. split; [done|]. by exists fd'.
Qed.

Lemma Read_open b c fd off fl (len : Z) :
  opened (length c) fd -> (0 <= off)%Z -> (0 <= len)%Z -> is_int64 (off + len) ->
  let n := read_count c len off in
  safe (fun r v => (r.1 = (take (Z.to_nat n) (drop (Z.to_nat off) c), read_err c len off) /\
      exists fd', r.2 = opened_file fd' (add64 off n) fl /\ opened (length c) fd') /\ file b mode c v) 13 (file b mode c)
    (pvar (opened_file fd off fl)
      (p <~ atomic (in_world (in_heap (make_zeros len))) ;;
       let~ (n, e) := Read_p p in
       data <~ atomic (in_world (in_heap (gets (fun h => read_slice h p)))) ;;
       Done (take (Z.to_nat n) data, e))).
Proof.
  intros Hop Hoff Hlen Hi64 n.
  apply (read_into_open 10 b c len off _ (fun f => exists fd', f = opened_file fd' (add64 off n) fl /\ opened (length c) fd'));
    [done..|]. intros p old Hlp Hlo.
  set (new := (take (Z.to_nat n) (drop (Z.to_nat off) c) ++ drop (Z.to_nat n) old)%list).
  assert (HP : stable (fun v => file b mode c v /\ has_slice (Some i) p old v /\ is_private p v))
    by (apply kept_and; [|apply kept_and]; auto with go_stable).
  assert (HP' : stable (fun v => file b mode c v /\ has_slice (Some i) p new v)) by (apply kept_and; auto with go_stable).
  unfold Read_p. eapply (look_step _ _ _ _ (opened_file fd off fl) _ off); [exact HP|done|].
  eapply (var_bind_safe _ _ _ _ _ 7 2); [by apply (ReadAt_open b c fd off fl p old off); [..|rewrite Hlp|]|].
  rewrite Hlp. fold n. fold new. intros [rn re] f'. cbv beta iota.
  apply safe_ex; [apply stable_ex; intros fd'; by apply stable_and; [apply stable_pure|]|]. intros fd'.
  apply safe_assume; [by apply stable_and; [apply stable_pure|]|]. intros [[= -> -> ->] Hop'].
  apply (look_step _ _ _ _ (opened_file fd' off fl) _ off); [done|done|].
  apply (look_step _ _ _ _ (opened_file fd' (add64 off n) fl) _ tt); [done|done|].
  apply safe_done; [done|]. intros v1 Hv1. split; [|done]. split; [done|]. by exists fd'.
Qed.

(** *** [Seek] *)
Lemma error_step {B} (Q : B * F -> fview -> Prop) n P k fd off fl op er (h : err -> prog (F * W) B) :
  stable P -> opened k fd ->
  safe Q n P (pvar (opened_file fd off fl) (h (Some (PathError op name er)))) ->
  safe Q (S n) P (pvar (opened_file fd off fl) (e <~ error_p op er ;; h e)).
Proof.
  intros HP [[t Hof] _] Hh. apply (look_step _ _ _ _ (opened_file fd off fl) _ (Some (PathError op name er))); [done| |done].
  intros w v _ _. unfold path_error, f_path, on_data, bind, gets, ret. simpl. by rewrite (of_path _ _ _ Hof).
Qed.

Lemma Seek_open b c fd off fl (o0 whence : Z) (base := seek_base (MkNode mode 0 c) off whence) :
  opened (length c) fd -> (forall x, base = Some x -> is_int64 (x + o0)) ->
  safe (fun r v => (exists fd',
      r = (match base with
           | Some x => if (x + o0 <? 0)%Z then (0%Z, Some (PathError "seek" name ErrInvalid)) else (x + o0, None)%Z
           | None => (0%Z, Some (PathError "seek" name ErrInvalid))
           end,
           opened_file fd' (match base with
                            | Some x => if (x + o0 <? 0)%Z then off else x + o0
                            | None => off end)%Z fl) /\ opened (length c) fd') /\ file b mode c v) 3 (file b mode c)
    (pvar (opened_file fd off fl) (Seek_p o0 whence)).
Proof.
  intros Hop Hi64. destruct (kept_file b c) as [HP _]. unfold Seek_p.
  apply (look_step _ _ _ _ (opened_file fd off fl) _ off); [done|done|].
  apply (var_bind_safe _ _ _ (fun r v => (exists fd', r = ((fun x => x + o0)%Z <$> base, opened_file fd' off fl) /\
    opened (length c) fd') /\ file b mode c v) _ 1 1).
  - unfold base, seek_base in *. destruct (whence =? 0)%Z.
    { apply safe_done; [done|]. intros v Hv. split; [|done]. by exists fd. }
    destruct (whence =? 1)%Z.
    { apply safe_done; [done|]. intros v Hv. split; [|done]. exists fd. rewrite add64_id; [done|by apply Hi64]. }
    destruct (whence =? 2)%Z.
    2: { apply safe_done; [done|]. intros v Hv. split; [|done]. by exists fd. }
    eapply size_step; [done|done|done|]. intros fd' Hop' _. apply safe_done; [done|]. intros v Hv.
    split; [|done]. exists fd'. rewrite add64_id; [done|by apply Hi64].
  - intros x f'. cbn [fst snd]. apply safe_assume; [by apply stable_and; [apply stable_pure|]|].
    intros (fd' & [= -> ->] & Hop'). destruct base as [x|]; cbn [fmap option_fmap option_map].
    2: { eapply error_step; [done|done|]. apply safe_done; [done|]. intros v Hv. split; [|done]. by exists fd'. }
    destruct (x + o0 <? 0)%Z.
    { eapply error_step; [done|done|]. apply safe_done; [done|]. intros v Hv. split; [|done]. by exists fd'. }
    apply (look_step _ _ _ _ (opened_file fd' (x + o0) fl) _ tt); [done|done|].
    apply safe_done; [done|]. intros v Hv. split; [|done]. by exists fd'.
Qed.

(** *** Saving *)
Lemma opened_source n fd : loaded fd (BBytes l) -> opened n fd ->
  (exists base, record (fd_ro fd) = Some (BaseRecord base)) \/ is_store (BBytes l) fd.
Proof.
  intros Hl [_ Hs].
  set (h0 := Heap {[0 := replicate n zero]} {[l := MkBytes (Slice 0 0 n n) (Z.of_nat n) 0]} ∅ 0).
  destruct (Hs h0) as [[_ ?]|(_ & _ & ? & _)]; [|done|by right].
  unfold blob_len. simpl. unfold contents. simpl. rewrite lookup_singleton_eq. simpl.
  unfold read_slice, array. simpl. rewrite lookup_singleton_eq. simpl.
  by rewrite drop_0, length_take, length_replicate, Nat.min_id.
Qed.
Lemma loaded_opened n n' fd : loaded fd (BBytes l) -> opened n fd -> opened n' fd.
Proof.
  intros Hl Hop. pose proof (opened_source n fd Hl Hop). destruct Hop as [Ht _]. split; [done|].
  intros h _. by left.
Qed.
(** The same file with other overrides of what it remembers of the record. *)
Lemma keeps_opened n fd fd' : fd_keeps fd fd' -> loaded fd (BBytes l) -> loaded fd' (BBytes l) ->
  opened n fd -> opened n fd'.
Proof.
  intros [K1 K2 K3 K4] Hl Hl' Hop. pose proof (opened_source n fd Hl Hop) as Hsrc.
  destruct Hop as [[t [F1 F2 F3 _]] _]. split.
  - exists t. split; [by rewrite K1|by rewrite K3|by rewrite K4|]. intros h. by apply gives_loaded.
  - intros h _. left. split; [done|]. unfold is_store in *. by rewrite K2.
Qed.
Lemma touched_opened n t fd : loaded fd (BBytes l) -> opened n fd ->
  opened n (set_modTimeOverride t fd) /\ loaded (set_modTimeOverride t fd) (BBytes l).
Proof.
  intros Hl Hop. pose proof (opened_source n fd Hl Hop) as Hsrc. destruct Hop as [[t0 [F1 F2 F3 _]] _].
  split; [|done]. split; [|intros h _; by left].
  exists (if (t =? 0)%Z then default t0 (ro_mtimeof (fd_ro fd)) else t).
  split; [done|done| |intros h; by apply gives_loaded].
  unfold fd_mtime in *. simpl. destruct (t =? 0)%Z; [|done].
  destruct Hsrc as [[base Hb]|(n0 & e0 & rec & Hb & _)]; unfold ro_mtimeof; rewrite Hb;
    by destruct (ro_modTime (fd_ro fd)).
Qed.

Section saving.
Context (Hvalid : ValidPath name = true) (Hreg : IsRegular mode = true) (Htouch : touch i name).

Lemma commit_safe b c fd fd0 off fl :
  opened (length c) fd -> loaded fd (BBytes l) ->
  safe (fun (r : err * FD) v => (r.1 = None /\ exists fd', opened_file r.2 off fl = opened_file fd' off fl /\
      opened (length c) fd') /\ file b mode c v) 1 (file b mode c)
    (atomic (let* (e, fd') := setFile_commit name (Some fd) (Some (BBytes l)) in ret (e, default fd0 fd'))).
Proof.
  intros Hop Hl. pose proof (kept_file b c) as [HP _].
  apply safe_atomic; [done|intros r; apply stable_and; [apply stable_pure|done]|]. intros w v Hw Hf.
  pose proof Hop as [[t Hof] _]. pose proof Hf as [[t0 Ht0] Hb].
  destruct (setFile_commit_Some name fd mode t (BBytes l) (Some (BBytes l)) w (w_heap w) (fv_tree v)
              (at_holds _ _ (fa_at w v Hw)) Hvalid (of_mode _ _ _ Hof) (of_mtime _ _ _ Hof)
              (gives_loaded fd _ _ Hl)) as (fd' & s & E & Hs & Hk & Hl'); [done|].
  rewrite set_heap_id in E.
  destruct (store_moves i touch w v name l mode t0 t s Hw Ht0 Hs Htouch) as [Hw' Hm].
  eexists (None, fd'), (set_store s w), _. split_and!; [by run E|exact Hw'|exact Hm|done| |].
  - exists fd'. split; [done|]. by apply (keeps_opened _ fd).
  - split; [|exact Hb]. exists t. simpl. by rewrite lookup_insert_eq.
Qed.

Lemma save_open b c fd off fl :
  opened (length c) fd -> loaded fd (BBytes l) ->
  safe (fun r v => (r.1 = None /\ exists fd', r.2 = opened_file fd' off fl /\ opened (length c) fd') /\
      file b mode c v) 5 (file b mode c) (pvar (opened_file fd off fl) f_save_p).
Proof.
  intros Hop Hl. pose proof (kept_file b c) as [HP _]. pose proof Hop as [[t Hof] _].
  apply (save_safe _ _ _ moves_nothing _ 3); [|intros r; apply stable_and; [apply stable_pure|done]].
  rewrite (of_path _ _ _ Hof). unfold setFile_p.
  apply prog_step; [done|]. intros w v Hw Hf.
  destruct (fd_Mode_run fd mode w (of_mode _ _ _ Hof)) as (fd1 & E1 & H1).
  assert (Hop1 : opened (length c) fd1 /\ loaded fd1 (BBytes l)).
  { pose proof (loaded_same _ _ _ H1 Hl) as Hl1. split; [|done]. apply (keeps_opened _ fd); [|done..].
    split; [apply H1|apply H1| |apply H1]. unfold fd_mode. by rewrite (same_override _ _ H1), (same_mode _ _ H1). }
  destruct Hop1 as [Hop1 Hl1].
  eexists (mode, fd1), w, v, (file b mode c). split_and!; [by apply on_var_run|done|apply moves_refl|exact Hf|].
  cbv beta iota. rewrite Hreg. apply prog_step; [done|]. clear w v Hw Hf E1. intros w v Hw Hf.
  destruct (gives_loaded fd1 (w_heap w) _ Hl1 fd1 w) as (fd2 & E2 & Hk2 & Hl2); [done|done|].
  rewrite set_heap_id in E2.
  eexists (_, fd2), w, v, (file b mode c). split_and!; [by apply on_var_run|done|apply moves_refl|exact Hf|].
  cbv beta iota. apply commit_safe; [by apply (keeps_opened _ fd1)|done].
Qed.
End saving.

(** *** Writing *)

(** The blob [ls] that is written from shares nothing with the file. *)
Definition source ls hdr data v : Prop := has_blob (Some i) (Some i) ls hdr data v.
Definition sourced ls (hdr b : Bytes) : Prop :=
  ls <> l /\ mu hdr <> mu b /\
  (s_arr (bytes hdr) <> s_arr (bytes b) \/ s_cap (bytes b) = 0 \/ s_cap (bytes hdr) = 0).
Lemma kept_source ls hdr data : kept_by_all (source ls hdr data).
Proof. apply kept_stable. intros who Hw. apply stable_blob; apply free_mine; auto. Qed.
Hint Resolve kept_source : go_stable.

(** Slices in [in_heap_of], on arrays that did not change or are new. *)
Lemma slice_kept o' p data v h' :
  wf_heap h' -> grows (fv_heap v) h' -> has_slice o' p data v ->
  (s_cap p <> 0 -> arrays h' !! s_arr p = arrays (fv_heap v) !! s_arr p) ->
  has_slice o' p data (in_heap_of i h' v).
Proof.
  intros Hwf' Hg (Hwf & Hp & Hown & Hd) Ha. split_and!; [done|by eapply wf_slice_grows|..].
  - destruct Hown as [?|Hown]; [by left|]. destruct (slice_lt _ p Hwf Hp); [by left|right]. simpl. by rewrite own_old.
  - rewrite <- Hd. destruct (decide (s_cap p = 0)).
    + destruct Hp. unfold read_slice. by replace (s_len p) with 0 by lia.
    + apply read_slice_eq; [done..|]. intros _. by apply Ha.
Qed.
Lemma source_kept b b' ls hdr data v h' :
  wf_heap h' -> grows (fv_heap v) h' -> upd (fv_heap v) h' l (bytes b) -> moved (fv_heap v) b b' ->
  source ls hdr data v -> sourced ls hdr b ->
  source ls hdr data (in_heap_of i h' v) /\ sourced ls hdr b'.
Proof.
  intros Hwf' Hg Hu [Hmu Hmv] ([Hb Hm] & Ho' & Hs) (Hne & Hms & Har). pose proof Hs as (Hwf & Hws & _).
  pose proof (slice_lt _ _ Hwf Hws) as Hlt. split; [split_and!|split_and!]; [split| | | | |].
  - simpl. rewrite (upd_blobs _ _ _ _ Hu); [done|done|by eapply blob_lt].
  - simpl. rewrite (upd_mutexes _ _ _ _ Hu); [done|by eapply mutex_lt].
  - simpl. rewrite own_old; [done|by eapply blob_lt].
  - apply slice_kept; [done..|]. intros Hc. apply (upd_arrays _ _ _ _ Hu); [destruct Har as [?|[?|?]]; by auto|].
    by destruct Hlt.
  - done.
  - by rewrite Hmu.
  - destruct Hmv as [[-> ->]|Hfresh]; [done|]. destruct Hlt; [auto|left; lia].
Qed.

Lemma file_blob b data w v : files_at w v -> file b mode data v ->
  wf_heap (fv_heap v) /\ blobs (fv_heap v) !! l = Some b /\ usable (fv_heap v) l b /\
  wf_slice (fv_heap v) (bytes b) /\ length_ b = Z.of_nat (length data) /\
  read_slice (fv_heap v) (bytes b) = data /\ fv_blobs v l = o /\
  (s_cap (bytes b) = 0 \/ fv_arrays v (s_arr (bytes b)) = o) /\
  exists t, fv_tree v !! name = Some (MkEntry (BBytes l) mode t).
Proof.
  intros Hw [Ht (Hu & Hob & Hwf & Hws & Hoa & Hd)]. pose proof Hu as [Hb _]. split_and!; try done.
  rewrite (wf_length _ _ (wf_blobs _ Hwf l b Hb)), <- Hd. by rewrite length_read_slice.
Qed.

(** The blob of a file of the goroutine gets other bytes. *)
Lemma own_moves b c b' c' w v h' :
  files_at w v -> file b mode c v -> o = Some i -> wf_heap h' -> grows (fv_heap v) h' ->
  upd (fv_heap v) h' l (bytes b) -> usable h' l b' -> moved (fv_heap v) b b' -> read_slice h' (bytes b') = c' ->
  files_at (set_heap h' w) (in_heap_of i h' v) /\ moves touch (eq i) v (in_heap_of i h' v) /\
  file b' mode c' (in_heap_of i h' v).
Proof.
  intros Hw Hf Hoi Hwf' Hg Hup Hu' Hmv Hr.
  destruct (file_blob b c w v Hw Hf) as (Hwf & Hb & Hu & Hws & Hlen & Hd & Hob & Hoa & t & Ht).
  pose proof Hu' as [Hb' _].
  destruct (change_moves i touch w v name _ l b b' h' Hw Ht eq_refl Hb Hwf' Hg Hup Hb' Hmv) as [Hw' Hm].
  { left. by rewrite Hob. }
  { destruct Hoa as [?|Hoa]; [by left|right; left]. by rewrite Hoa. }
  split_and!; [done|done|]. split; [by exists t|]. split; [done|]. split.
  - simpl. rewrite own_old; [done|by eapply blob_lt].
  - pose proof (wf_bytes _ _ (wf_blobs _ Hwf' l b' Hb')) as Hws'. split_and!; [done|done| |done].
    destruct (slice_lt h' _ Hwf' Hws') as [?|Hlt]; [by left|]. destruct Hmv as [_ [[Ea Ec]|Hfresh]].
    + rewrite Ea, Ec. destruct Hoa as [?|Hoa]; [by left|]. destruct (slice_lt _ _ Hwf Hws); [by left|right].
      simpl. by rewrite own_old.
    + right. simpl. rewrite own_new by done. done.
Qed.

Lemma grow_moves b c w v ls hdr data (n : Z) :
  files_at w v -> file b mode c v -> source ls hdr data v -> sourced ls hdr b -> o = Some i -> (0 <= n)%Z ->
  exists b' h', Grow (BBytes l) n (fv_heap v) = (Ret None, h') /\
    files_at (set_heap h' w) (in_heap_of i h' v) /\ moves touch (eq i) v (in_heap_of i h' v) /\
    file b' mode (c ++ replicate (Z.to_nat n) zero)%list (in_heap_of i h' v) /\
    source ls hdr data (in_heap_of i h' v) /\ sourced ls hdr b'.
Proof.
  intros Hw Hf Hsrc Hap Hoi Hn.
  destruct (file_blob b c w v Hw Hf) as (Hwf & Hb & Hu & Hws & Hlen & Hd & _).
  destruct (Bytes_Grow_spec (fv_heap v) l b n Hwf Hu Hn) as (b' & h' & E & Hwf' & Hup & Hu' & Hmv & _ & Hr).
  destruct (safe_run _ _ _ _ _ (safe_Bytes_Grow (fv_heap v) l n Hwf) E) as [_ Hg].
  rewrite Hd in Hr.
  destruct (own_moves b c b' _ w v h' Hw Hf Hoi Hwf' Hg Hup Hu' Hmv Hr) as (Hw' & Hm & Hf').
  destruct (source_kept b b' ls hdr data v h' Hwf' Hg Hup Hmv Hsrc Hap) as [Hs' Hap'].
  exists b', h'. by split_and!; try apply Hap'.
Qed.

Lemma splice_same (x : list byte) pos d :
  pos + length d <= length x -> splice x pos d = x <-> take (length d) (drop pos x) = d.
Proof.
  intros Hl. assert (E : x = (take pos x ++ take (length d) (drop pos x) ++ drop (pos + length d) x)%list).
  { by rewrite <- drop_drop, take_drop, take_drop. }
  unfold splice. split; [|intros Hd; rewrite E at 3; by rewrite Hd].
  rewrite E at 3. intros Es%app_inv_head. symmetry.
  apply app_inj_1 in Es as [Es _]; [done|]. rewrite length_take, length_drop. lia.
Qed.

Lemma set_moves b c w v ls hdr data (pos : nat) :
  files_at w v -> file b mode c v -> source ls hdr data v -> sourced ls hdr b ->
  pos + length data <= length c -> o = Some i \/ splice c pos data = c -> 0 < length c \/ data = [] ->
  exists h', Set_ (BBytes l) (BBytes ls) (Z.of_nat pos) (fv_heap v) = (Ret (Z.of_nat (length data), None), h') /\
    files_at (set_heap h' w) (in_heap_of i h' v) /\ moves touch (eq i) v (in_heap_of i h' v) /\
    file b mode (splice c pos data) (in_heap_of i h' v).
Proof.
  intros Hw Hf Hsrc (Hne & Hms & _) Hpos Hright Hpos0.
  destruct (file_blob b c w v Hw Hf) as (Hwf & Hb & Hu & Hws & Hlen & Hd & Hob & Hoa & t & Ht).
  destruct Hsrc as [Hus (_ & _ & _ & _ & Hds)].
  destruct (Bytes_Set_spec (fv_heap v) l b (BBytes ls) data (Z.of_nat pos) Hwf Hu)
    as (h' & E & Hwf' & Hup & Hb' & Hr & Harr).
  { by exists hdr. }
  { intros bs. destruct Hus as [-> _]. by intros [= <-]. }
  { lia. }
  { destruct Hpos0; [left; lia|by right]. }
  destruct (safe_run _ _ _ _ _ (safe_Bytes_Set (fv_heap v) l (BBytes ls) (Z.of_nat pos) Hwf) E) as [_ Hg].
  rewrite Nat2Z.id in *. replace (Z.min (length_ b - Z.of_nat pos) (Z.of_nat (length data)))
    with (Z.of_nat (length data)) in E by lia.
  assert (Hsl : s_len (bytes b) = length c) by (by rewrite <- Hd, length_read_slice).
  assert (Ha : s_cap (bytes b) = 0 \/ fv_arrays v (s_arr (bytes b)) = Some i \/
    arrays h' !! s_arr (bytes b) = arrays (fv_heap v) !! s_arr (bytes b)).
  { destruct Hoa as [?|Hoa]; [by left|]. destruct Hright as [Hoi|Hsame]; [right; left; by rewrite Hoa|].
    destruct (decide (s_cap (bytes b) = 0)) as [?|Hc]; [by left|right; right].
    specialize (Harr ltac:(lia)). rewrite take_ge in Harr by lia.
    pose proof Hws as [Hl Ho0]. rewrite <- Hd in Hsame.
    apply splice_same in Hsame; [|rewrite length_read_slice; [lia|done]]. unfold read_slice in Hsame.
    rewrite skipn_firstn_comm, drop_drop, take_take, Nat.min_l in Hsame by lia.
    apply splice_same in Hsame; [|lia]. rewrite Hsame in Harr.
    assert (Hx : is_Some (arrays (fv_heap v) !! s_arr (bytes b))).
    { unfold array in Ho0. destruct (arrays (fv_heap v) !! s_arr (bytes b)); [eauto|simpl in Ho0; lia]. }
    destruct Hg as [Hg _]. specialize (Hg (s_arr (bytes b))). unfold array in *.
    destruct Hx as [x Hx]. rewrite Hx in *. simpl in *.
    destruct (arrays h' !! s_arr (bytes b)); simpl in *; [congruence|lia]. }
  destruct (change_moves i touch w v name _ l b b h' Hw Ht eq_refl Hb Hwf' Hg Hup Hb' (moved_refl _ b))
    as [Hw' Hm]; [by right|done|].
  exists h'. split_and!; [done..|]. split; [by exists t|]. split; [split; [done|]|split].
  - simpl. rewrite (upd_mutexes _ _ _ _ Hup); [apply Hu|]. destruct Hu. by eapply mutex_lt.
  - simpl. rewrite own_old; [done|by eapply blob_lt].
  - split_and!; [done|apply (wf_blobs _ Hwf' l b Hb')| |].
    + destruct Hoa as [?|Hoa]; [by left|]. destruct (slice_lt _ _ Hwf Hws); [by left|right]. simpl. by rewrite own_old.
    + simpl. rewrite Hr, Hd. unfold set_at. by rewrite take_ge by lia.
Qed.

(** [writeBlobAt], where the file belongs to the goroutine, or the bytes are there
    already. *)
Definition may_write (c data : list byte) (pos : nat) : Prop := o = Some i \/ write_at c pos data = c.

Lemma length_write_at c (pos : nat) data : length (write_at c pos data) = Nat.max (length c) (pos + length data).
Proof.
  unfold write_at. rewrite length_splice; rewrite !length_app, !length_replicate; lia.
Qed.

Lemma room_open b c fd off fl ls hdr data (e : nat) (c1 := (c ++ replicate (e - length c) zero)%list) :
  opened (length c) fd -> sourced ls hdr b -> o = Some i \/ e <= length c -> is_int64 (Z.of_nat e) ->
  safe (fun r v => exists b1 fd', ((r = (None, opened_file fd' off fl) /\ sourced ls hdr b1) /\
      opened (length c1) fd') /\ file b1 mode c1 v /\ source ls hdr data v) 3
    (fun v => file b mode c v /\ source ls hdr data v)
    (pvar (opened_file fd off fl)
      (if (Z.of_nat (length c) <? Z.of_nat e)%Z then
         let~ (data, er) := atomic f_Data in
         match er with
         | Some er => Done (Some er)
         | None =>
             size <~ atomic f_Size ;;
             on_blob_p data (fun d => Grow d (sub64 (Z.of_nat e) size))
         end
       else Done None)).
Proof.
  intros Hop Hap Hright Hi64.
  assert (HP : forall b c, kept_by_all (fun v => file b mode c v /\ source ls hdr data v))
    by (intros; apply kept_and; auto with go_stable).
  destruct (Z.ltb_spec (Z.of_nat (length c)) (Z.of_nat e)) as [Hlt|Hge].
  2: { apply safe_done; [apply HP|]. intros v Hv. exists b, fd. unfold c1.
       replace (e - length c) with 0 by lia. rewrite app_nil_r. by split_and!; try apply Hv. }
  destruct Hright as [Hoi|?]; [|lia].
  eapply data_step; [apply HP|by intros v []|done|]. intros fd1 Hop1 Hl1. cbv beta iota.
  eapply size_step; [apply HP|by intros v []|done|]. intros fd2 Hop2 Hl2.
  apply var_last; [apply HP|intros r; repeat (apply stable_ex; intros); apply stable_and; [apply stable_pure|apply HP]|].
  intros w v Hw [Hf Hsrc]. rewrite sub64_id by int64.
  destruct (grow_moves b c w v ls hdr data (Z.of_nat e - Z.of_nat (length c)) Hw Hf Hsrc Hap Hoi)
    as (b' & h' & E & Hw' & Hm & Hf' & Hs' & Hap'); [lia|].
  eexists None, (opened_file fd2 off fl), (set_heap h' w), _.
  split_and!; [apply on_blob_run; by rewrite (fa_heap w v Hw)|exact Hw'|exact Hm|].
  exists b', fd2. split; [split; [done|]|].
  - by apply (loaded_opened (length c)); [apply Hl2|].
  - split; [|done]. unfold c1. by replace (e - length c) with (Z.to_nat (Z.of_nat e - Z.of_nat (length c))) by lia.
Qed.

Section saved.
Context (Hvalid : ValidPath name = true) (Hreg : IsRegular mode = true) (Htouch : touch i name).

Lemma fill_open op b c fd off fl ls hdr data (pos : nat) :
  opened (length c) fd -> sourced ls hdr b -> pos + length data <= length c ->
  o = Some i \/ splice c pos data = c -> 0 < length c \/ data = [] ->
  safe (fun r v => (r.1 = (Z.of_nat (length data), None) /\
      exists fd', r.2 = opened_file fd' off fl /\ opened (length c) fd') /\
      file b mode (splice c pos data) v) 8 (fun v => file b mode c v /\ source ls hdr data v)
    (pvar (opened_file fd off fl)
      (let~ (d, e) := atomic f_Data in
       match e with
       | Some e => e <~ error_p op e ;; Done (0%Z, e)
       | None =>
           let~ (n, e) := on_blob_p d (fun d => Set_ d (BBytes ls) (Z.of_nat pos)) in
           match e with
           | Some e => e <~ error_p op e ;; Done (n, e)
           | None =>
               _ <~ (if (n =? 0)%Z then Done tt else atomic updateModTime) ;;
               e <~ f_save_p ;;
               Done (n, e)
           end
       end)).
Proof.
  intros Hop Hap Hpos Hright Hc.
  assert (HP : kept_by_all (fun v => file b mode c v /\ source ls hdr data v)) by (apply kept_and; auto with go_stable).
  set (c2 := splice c pos data). assert (Hlen : length c2 = length c) by (by apply length_splice).
  eapply data_step; [apply HP|by intros v []|done|]. intros fd1 Hop1 Hl1. cbv beta iota.
  apply var_step; [apply HP|]. intros w v Hw [Hf Hsrc].
  destruct (set_moves b c w v ls hdr data pos Hw Hf Hsrc Hap Hpos Hright Hc) as (h' & E & Hw' & Hm & Hf').
  eexists (Z.of_nat (length data), None), (opened_file fd1 off fl), (set_heap h' w), _, (file b mode c2).
  split_and!; [apply on_blob_run; by rewrite (fa_heap w v Hw)|exact Hw'|exact Hm|exact Hf'|]. cbv beta iota.
  pose proof (kept_file b c2) as [HP2 _].
  assert (Hend : forall fd, opened (length c2) fd -> loaded fd (BBytes l) ->
    safe (fun r v => (r.1 = (Z.of_nat (length data), None) /\
      exists fd', r.2 = opened_file fd' off fl /\ opened (length c) fd') /\ file b mode c2 v) 5 (file b mode c2)
      (pvar (opened_file fd off fl) (e <~ f_save_p ;; Done (Z.of_nat (length data), e)))).
  { intros fd2 Hop2 Hl2. eapply (var_bind_safe _ _ _ _ _ 5 0); [by apply save_open|].
    intros a f'. apply safe_done; [apply stable_and; [apply stable_pure|done]|]. cbn [fst snd].
    intros v1 [[-> (fd' & -> & Hop')] Hv1]. rewrite Hlen in Hop'. split; [|done]. split; [done|]. by exists fd'. }
  rewrite <- Hlen in Hop1. destruct (Z.of_nat (length data) =? 0)%Z.
  - eapply (safe_post _ _ _ _ _ 5); [lia|by intros a v0 Hv0; exact Hv0|]. by apply Hend.
  - apply var_step; [done|]. intros w1 v1 Hw1 Hv1.
    destruct (touched_opened (length c2) (w_now w1) fd1 Hl1 Hop1) as [Hop2 Hl2].
    eexists tt, (opened_file (set_modTimeOverride (w_now w1) fd1) off fl), w1, v1, (file b mode c2).
    split_and!; [reflexivity|done|apply moves_refl|exact Hv1|]. by apply Hend.
Qed.

Lemma writeBlobAt_open op b c fd off fl ls hdr data (pos0 : nat) :
  let pos := if has_flag fl FlagAppend then length c else pos0 in
  opened (length c) fd -> sourced ls hdr b -> may_write c data pos -> is_int64 (Z.of_nat (pos + length data)) ->
  safe (fun r v => (r.1 = (Z.of_nat (length data), None) /\
      exists fd', r.2 = opened_file fd' off fl /\ opened (length (write_at c pos data)) fd') /\
      exists b', file b' mode (write_at c pos data) v) 15
    (fun v => file b mode c v /\ source ls hdr data v)
    (pvar (opened_file fd off fl) (writeBlobAt_p op (BBytes ls) (Z.of_nat pos0))).
Proof.
  intros pos Hop Hap Hright Hi64. unfold writeBlobAt_p.
  assert (HP : forall b c, kept_by_all (fun v => file b mode c v /\ source ls hdr data v))
    by (intros; apply kept_and; auto with go_stable).
  set (c1 := (c ++ replicate (pos + length data - length c) zero)%list).
  assert (Hlc : length c1 = Nat.max (length c) (pos + length data)).
  { unfold c1. rewrite length_app, length_replicate. lia. }
  assert (Hc1 : o <> Some i -> c1 = c /\ pos + length data <= length c /\ splice c pos data = c).
  { intros Ho1. destruct Hright as [?|Hs]; [done|].
    assert (Hle : pos + length data <= length c) by (apply (f_equal length) in Hs; rewrite length_write_at in Hs; lia).
    assert (c1 = c) as E.
    { unfold c1. replace (pos + length data - length c) with 0 by lia. by rewrite app_nil_r. }
    split_and!; [done..|]. unfold write_at in Hs. fold c1 in Hs. by rewrite E in Hs. }
  apply (look_step _ _ _ _ (opened_file fd off fl) _ fl); [apply HP|done|].
  assert (Hrest : forall fd, opened (length c) fd ->
    safe (fun r v => (r.1 = (Z.of_nat (length data), None) /\
      exists fd', r.2 = opened_file fd' off fl /\ opened (length (write_at c pos data)) fd') /\
      exists b', file b' mode (write_at c pos data) v) 13 (fun v => file b mode c v /\ source ls hdr data v)
    (pvar (opened_file fd off fl) (write_from_p op (BBytes ls) (Z.of_nat pos)))).
  2: { unfold pos in *. destruct (has_flag fl FlagAppend).
       - eapply size_step; [apply HP|by intros v []|done|]. intros fd1 Hop1 _. by apply Hrest.
       - eapply (safe_post _ _ _ _ _ 13); [lia|by intros a v Hv; exact Hv|]. by apply Hrest. }
  clear fd Hop. intros fd Hop. unfold write_from_p.
  apply (look_step _ _ _ _ (opened_file fd off fl) _ (Z.of_nat (length data))); [apply HP|..].
  { intros w v Hw [_ (Hu & _ & _ & _ & _ & Hd)]. apply in_world_run. unfold in_heap, zoom.
    rewrite (Blob_Len_spec _ (BBytes ls) data); [by rewrite set_heap_id|apply (fa_at w v Hw)|].
    rewrite (fa_heap w v Hw). by exists hdr. }
  cbv zeta. rewrite add64_id, <- Nat2Z.inj_add by (by rewrite <- Nat2Z.inj_add).
  eapply size_step; [apply HP|by intros v []|done|]. intros fd1 Hop1 _.
  eapply (var_bind_safe _ _ _ _ _ 3 8).
  { apply room_open; [done|done| |done]. destruct (decide (o = Some i)) as [?|Ho1]; [by left|right]. by apply Hc1. }
  fold c1. intros failed f'.
  apply safe_ex; [repeat (apply stable_ex; intros); apply stable_and; [apply stable_pure|apply HP]|]. intros b1.
  apply safe_ex; [repeat (apply stable_ex; intros); apply stable_and; [apply stable_pure|apply HP]|]. intros fd2.
  apply safe_assume; [apply stable_and; [apply stable_pure|apply HP]|]. intros [[[= -> ->] Hap1] Hop2].
  cbv beta iota. eapply safe_post; [done| |eapply (fill_open op b1 c1 fd2 off fl ls hdr data pos)]; try done.
  - intros r v [[Hr (fd' & Hf' & Hop')] Hv]. rewrite length_write_at, <- Hlc.
    split; [split; [done|by exists fd']|]. by exists b1.
  - lia.
  - destruct (decide (o = Some i)) as [?|Ho1]; [by left|right]. by destruct (Hc1 Ho1) as (-> & _ & ?).
  - destruct data as [|x data']; [by right|left]. simpl in Hlc. lia.
Qed.

(** The bytes are in a new array, and a blob is put around it. *)
Lemma source_step {B} (Q : B * F -> fview -> Prop) n b c fd off fl data (k : nat -> prog (F * W) B) :
  (forall ls hdr, sourced ls hdr b ->
     safe Q n (fun v => file b mode c v /\ source ls hdr data v) (pvar (opened_file fd off fl) (k ls))) ->
  safe Q (S (S n)) (file b mode c) (pvar (opened_file fd off fl)
    (p <~ atomic (in_world (in_heap (make_slice data))) ;; l <~ atomic (in_world (in_heap (NewBytes p))) ;; k l)).
Proof.
  intros Hk. apply alloc_step; [apply (kept_file b c)|apply (kept_file b c)|].
  intros w v Hw Hf. destruct (new_buffer b c w v data Hw Hf) as (p & h' & E & Hwf' & He & Hl & Hnew & Hs & _).
  destruct (file_blob b c w v Hw Hf) as (Hwf & _ & _ & Hws & _).
  assert (Hap : s_arr p <> s_arr (bytes b) \/ s_cap (bytes b) = 0).
  { destruct (slice_lt _ _ Hwf Hws); [by right|left; lia]. }
  exists p, h', (fun v => file b mode c v /\ has_slice (Some i) p data v).
  split_and!; [|done|done|by split|].
  { apply in_world_run. unfold in_heap, zoom. by rewrite (fa_heap w v Hw), E. }
  clear w v Hw Hf h' E Hwf' He Hnew Hs Hwf Hws.
  apply alloc_step; [apply kept_and; auto with go_stable..|]. intros w v Hw [Hf Hs].
  destruct (file_blob b c w v Hw Hf) as (Hwf & Hb & Hu & Hws & _). pose proof Hs as (_ & Hwp & _).
  destruct (NewBytes_spec (fv_heap v) p Hwf Hwp) as (ls & h' & E & Hwf' & He & Hbl & Hm & Hls & Ha).
  set (hdr := MkBytes p (Z.of_nat (s_len p)) (S (next (fv_heap v)))) in *.
  exists ls, h', (fun v => file b mode c v /\ source ls hdr data v).
  split_and!; [|done|done| |].
  { apply in_world_run. unfold in_heap, zoom. by rewrite (fa_heap w v Hw), E. }
  { intros [Hf' Hs']. split; [done|]. split; [by split|]. split; [|done].
    simpl. apply own_new; [lia|by eapply blob_lt]. }
  apply Hk. split_and!.
  - pose proof (blob_lt _ _ _ Hwf Hb). lia.
  - destruct Hu as [_ Hmu]. pose proof (mutex_lt _ _ _ Hwf Hmu). simpl. lia.
  - simpl. destruct Hap; auto.
Qed.

Lemma Write_open b c fd off fl data :
  let pos := if has_flag fl FlagAppend then length c else Z.to_nat off in
  opened (length c) fd -> may_write c data pos -> (0 <= off)%Z ->
  is_int64 (off + Z.of_nat (length data)) -> is_int64 (Z.of_nat (pos + length data)) ->
  safe (fun r v => (r.1 = (Z.of_nat (length data), None) /\
      exists fd', r.2 = opened_file fd' (add64 off (Z.of_nat (length data))) fl /\
        opened (length (write_at c pos data)) fd') /\
      exists b', file b' mode (write_at c pos data) v) 20 (file b mode c)
    (pvar (opened_file fd off fl) (p <~ atomic (in_world (in_heap (make_slice data))) ;; Write_p p)).
Proof.
  intros pos Hop Hright Hoff Hi1 Hi2. apply source_step. intros ls hdr Hsd.
  assert (HP : kept_by_all (fun v => file b mode c v /\ source ls hdr data v)) by (apply kept_and; auto with go_stable).
  apply (look_step _ _ _ _ (opened_file fd off fl) _ off); [apply HP|done|].
  assert (HP' : stable (fun v => exists b', file b' mode (write_at c pos data) v))
    by (apply stable_ex; intros b'; apply (kept_file b')).
  eapply (var_bind_safe _ _ _ _ _ 15 2).
  { rewrite <- (Z2Nat.id off) at 2 by done. by apply (writeBlobAt_open "write" b c fd off fl ls hdr data (Z.to_nat off)). }
  fold pos. intros [rn re] f'. cbn [fst snd]. apply safe_assume; [by apply stable_and; [apply stable_pure|]|].
  intros [[= -> ->] (fd' & -> & Hop')].
  apply (look_step _ _ _ _ (opened_file fd' off fl) _ off); [done|done|].
  apply (look_step _ _ _ _ (opened_file fd' (add64 off (Z.of_nat (length data))) fl) _ tt); [done|done|].
  apply safe_done; [done|]. intros v Hv. split; [|done]. split; [done|]. by exists fd'.
Qed.

Lemma WriteAt_open b c fd off fl data (o0 : Z) :
  let pos := if has_flag fl FlagAppend then length c else Z.to_nat o0 in
  opened (length c) fd -> may_write c data pos -> (0 <= o0)%Z -> is_int64 (Z.of_nat (pos + length data)) ->
  safe (fun r v => (r.1 = (Z.of_nat (length data), None) /\
      exists fd', r.2 = opened_file fd' off fl /\ opened (length (write_at c pos data)) fd') /\
      exists b', file b' mode (write_at c pos data) v) 17 (file b mode c)
    (pvar (opened_file fd off fl) (p <~ atomic (in_world (in_heap (make_slice data))) ;; WriteAt_p p o0)).
Proof.
  intros pos Hop Hright Hoff Hi2. apply source_step. intros ls hdr Hsd.
  pose proof (writeBlobAt_open "writeat" b c fd off fl ls hdr data (Z.to_nat o0)) as Hw.
  rewrite Z2Nat.id in Hw by done. by apply Hw.
Qed.
(** *** [Truncate] of a file that belongs to the goroutine *)
Lemma resize_moves b c w v (size : Z) :
  files_at w v -> file b mode c v -> o = Some i -> (0 <= size)%Z -> is_int64 size ->
  exists b' h', (if (Z.of_nat (length c) <? size)%Z then Grow (BBytes l) (sub64 size (Z.of_nat (length c)))
                 else Truncate (BBytes l) size) (fv_heap v) = (Ret None, h') /\
    files_at (set_heap h' w) (in_heap_of i h' v) /\ moves touch (eq i) v (in_heap_of i h' v) /\
    file b' mode (resize c (Z.to_nat size)) (in_heap_of i h' v).
Proof.
  intros Hw Hf Hoi Hsz Hi64. destruct (file_blob b c w v Hw Hf) as (Hwf & Hb & Hu & Hws & Hlen & Hd & _).
  destruct (Z.ltb_spec (Z.of_nat (length c)) size) as [Hlt|Hge].
  - rewrite sub64_id by int64.
    destruct (Bytes_Grow_spec (fv_heap v) l b (size - Z.of_nat (length c)) Hwf Hu ltac:(lia))
      as (b' & h' & E & Hwf' & Hup & Hu' & Hmv & _ & Hr).
    destruct (safe_run _ _ _ _ _ (safe_Bytes_Grow (fv_heap v) l (size - Z.of_nat (length c)) Hwf) E) as [_ Hg].
    exists b', h'. split; [exact E|]. apply (own_moves b c b' _ w v h' Hw Hf Hoi Hwf' Hg Hup Hu' Hmv).
    rewrite Hr, Hd. unfold resize. rewrite take_ge by lia. do 2 f_equal. lia.
  - destruct (Bytes_Truncate_spec (fv_heap v) l b size Hwf Hu ltac:(lia)) as (b' & h' & E & Hwf' & Hup & Hu' & Hmv & _ & Hr).
    destruct (safe_run _ _ _ _ _ (safe_Bytes_Truncate (fv_heap v) l size Hwf) E) as [_ Hg].
    exists b', h'. split; [exact E|]. apply (own_moves b c b' _ w v h' Hw Hf Hoi Hwf' Hg Hup Hu' Hmv).
    rewrite Hr, Hd. unfold resize. replace (Z.to_nat size - length c) with 0 by lia. by rewrite app_nil_r.
Qed.

Lemma Truncate_open b c fd off fl (size : Z) (c' := if (size <? 0)%Z then c else resize c (Z.to_nat size)) :
  opened (length c) fd -> o = Some i -> is_int64 size ->
  safe (fun r v => (exists fd', r = (if (size <? 0)%Z then Some (PathError "truncate" name ErrInvalid) else None,
        opened_file fd' off fl) /\ opened (length c') fd') /\ exists b', file b' mode c' v) 10 (file b mode c)
    (pvar (opened_file fd off fl) (FileTruncate_p size)).
Proof.
  intros Hop Hoi Hi64. destruct (kept_file b c) as [HP _]. unfold FileTruncate_p.
  eapply mode_step; [done|done|done|]. intros fd1 Hop1. assert (IsDir mode = false) as -> by (destruct (IsDir mode) eqn:Hd; [by rewrite IsDir_not_IsRegular in Hreg|done]).
  eapply size_step; [done|done|done|]. intros fd2 Hop2 _. unfold c'. destruct (Z.ltb_spec size 0) as [Hneg|Hpos].
  { apply (error_step _ 7 _ (length c) _ _ _ "truncate" ErrInvalid (fun e => Done e)); [done|done|].
    apply safe_done; [done|]. intros v Hv. split; [by exists fd2|by exists b]. }
  destruct (Z.eqb_spec size (Z.of_nat (length c))) as [Hsame|Hdiff].
  { apply safe_done; [done|]. intros v Hv.
    assert (E : resize c (Z.to_nat size) = c).
    { unfold resize. rewrite take_ge by lia. replace (Z.to_nat size - length c) with 0 by lia. by rewrite app_nil_r. }
    rewrite E. split; [by exists fd2|by exists b]. }
  eapply data_step; [done|done|done|]. intros fd3 Hop3 Hl3. cbv beta iota.
  set (c1 := resize c (Z.to_nat size)).
  apply var_step; [done|]. intros w v Hw Hf.
  destruct (resize_moves b c w v size Hw Hf Hoi Hpos Hi64) as (b' & h' & E & Hw' & Hm & Hf').
  eexists None, (opened_file fd3 off fl), (set_heap h' w), _, (file b' mode c1).
  split_and!; [|exact Hw'|exact Hm|exact Hf'|].
  { apply (on_blob_run (fun d => if (Z.of_nat (length c) <? size)%Z then Grow d (sub64 size (Z.of_nat (length c)))
             else Truncate d size)). by rewrite (fa_heap w v Hw). }
  cbv beta iota. destruct (kept_file b' c1) as [HP1 _].
  pose proof (loaded_opened (length c) (length c1) fd3 Hl3 Hop3) as Hop4.
  apply var_step; [done|]. intros w1 v1 Hw1 Hv1.
  destruct (touched_opened (length c1) (w_now w1) fd3 Hl3 Hop4) as [Hop5 Hl5].
  eexists tt, (opened_file (set_modTimeOverride (w_now w1) fd3) off fl), w1, v1, (file b' mode c1).
  split_and!; [reflexivity|done|apply moves_refl|exact Hv1|].
  eapply safe_post; [| |by apply save_open]; [done|].
  intros [e f'] v2 [[Ee (fd' & Ef & Hop')] Hv2]. cbn [fst snd] in Ee, Ef. subst e f'. split; [by exists fd'|by exists b'].
Qed.
End saved.
End rules.

(** ** Who owns the files of some names *)
Section owners.
Context (names : list string) (t : tree) (h : heap).

Definition owner (name : string) : option nat := fst <$> list_find (fun x => x = name) names.

Definition is_blob (l : nat) (x : string) : Prop :=
  match t !! x with Some e => e_data e = BBytes l | None => False end.
Definition is_array (a : nat) (x : string) : Prop :=
  match t !! x with
  | Some e => match e_data e with
              | BBytes l => match blobs h !! l with
                            | Some b => s_arr (bytes b) = a /\ s_cap (bytes b) <> 0
                            | None => False
                            end
              | _ => False
              end
  | None => False
  end.
#[local] Instance is_blob_dec l x : Decision (is_blob l x).
Proof. unfold is_blob. destruct (t !! x); apply _. Defined.
#[local] Instance is_array_dec a x : Decision (is_array a x).
Proof.
  unfold is_array. destruct (t !! x) as [e|]; [|apply _]. destruct (e_data e) as [l|]; [|apply _].
  destruct (blobs h !! l); apply _.
Defined.

Definition owned_view : fview :=
  MkFV t h (fun l => fst <$> list_find (is_blob l) names) (fun a => fst <$> list_find (is_array a) names).

Lemma find_owner (P : string -> Prop) `{!forall x, Decision (P x)} name :
  (forall x, P x <-> x = name) -> fst <$> list_find P names = owner name.
Proof. intros HP. unfold owner. f_equal. by apply list_find_ext. Qed.

Context {ST R T : Type} `{!RecordOps ST R, !Store ST R T, !GoRuntime, !LawfulStore ST R T}.
Context (w : world ST) (Hat : fs_at w t) (Hh : w_heap w = h).

Lemma heap_ok : wf_heap h /\ idle h.
Proof. rewrite <- Hh. split; apply Hat. Qed.

Lemma owned_view_at : files_at w owned_view.
Proof.
  destruct heap_ok as [Hwf Hi].
  split; [done|done|..]; simpl.
  - intros l [j Hj]. apply fmap_Some in Hj as ([i x] & (_ & Hx & _)%list_find_Some & _).
    unfold is_blob in Hx. destruct (t !! x) as [e|] eqn:Ee; [|done].
    pose proof (at_live _ _ Hat x e Ee) as Hl. rewrite Hx, Hh in Hl. destruct Hl as [b Hb].
    by eapply blob_lt.
  - intros a [j Hj]. apply fmap_Some in Hj as ([i x] & (_ & Hx & _)%list_find_Some & _).
    unfold is_array in Hx. destruct (t !! x) as [e|] eqn:Ee; [|done].
    destruct (e_data e) as [l|]; [|done]. destruct (blobs h !! l) as [b|] eqn:Hb; [|done]. destruct Hx as [<- Hc].
    apply wf_slice_array; [done|apply (wf_blobs _ Hwf l b Hb)|lia].
Qed.

Lemma owned_view_file name l mode mt :
  t !! name = Some (MkEntry (BBytes l) mode mt) ->
  exists b, has_file (owner name) name l b mode (blob_bytes h (BBytes l)) owned_view.
Proof.
  intros Et. destruct heap_ok as [Hwf Hi].
  pose proof (at_live _ _ Hat name _ Et) as Hl. simpl in Hl. rewrite Hh in Hl. destruct Hl as [b Hb]. exists b.
  assert (Hone : forall x e l', t !! x = Some e -> e_data e = BBytes l' -> x <> name -> l' <> l /\
    forall b', blobs h !! l' = Some b' ->
      s_arr (bytes b') <> s_arr (bytes b) \/ s_cap (bytes b') = 0 \/ s_cap (bytes b) = 0).
  { intros x e l' Ex El Hx. pose proof (at_apart _ _ Hat x name e _ Hx Ex Et) as Ha. rewrite El, Hh in Ha.
    destruct Ha as [Ha1 Ha2]. split; [done|]. intros b' Hb'. by apply Ha2. }
  split; [by exists mt|split_and!; [|simpl|split_and!]].
  - by apply idle_usable.
  - apply find_owner. intros x. unfold is_blob. split; [|intros ->; by rewrite Et].
    destruct (t !! x) as [e|] eqn:Ex; [|done]. intros El. destruct (decide (x = name)) as [|Hx]; [done|].
    by destruct (Hone x e l Ex El Hx).
  - done.
  - apply (wf_blobs _ Hwf l b Hb).
  - destruct (decide (s_cap (bytes b) = 0)) as [Hc|Hc]; [by left|right]. apply find_owner. intros x.
    unfold is_array. split; [|intros ->; rewrite Et; simpl; by rewrite Hb].
    destruct (t !! x) as [e|] eqn:Ex; [|done]. destruct (e_data e) as [l'|] eqn:El; [|done].
    destruct (blobs h !! l') as [b'|] eqn:Hb'; [|done]. intros [Ha Hc'].
    destruct (decide (x = name)) as [|Hx]; [done|]. destruct (Hone x e l' Ex El Hx) as [_ Hap].
    destruct (Hap b' Hb') as [?|[?|?]]; done.
  - unfold blob_bytes. by rewrite (contents_Some _ _ _ Hb).
Qed.
End owners.
