(* ===== verification/KVConcHist.v ===== *)
(** * Histories of open files, side by side

    Each goroutine opens a file of its own and reads, writes, seeks and truncates:
    in every interleaving its file answers as bytes with an offset. *)
From S2P Require Import Prelude.
From S2P Require Import Paths.
From S2P Require Import Errors.
From S2P Require Import Modes.
From S2P Require Import Blob.
From S2P Require Import BlobSpec.
From S2P Require Import Record.
From S2P Require Import Txn.
From S2P Require Import KVFile.
From S2P Require Import KVFS.
From S2P Require Import StoreSpec.
From S2P Require Import FSSpec.
From S2P Require Import TreeFS.
From S2P Require Import TreeOps.
From S2P Require Import FileSpec.
From S2P Require Import FileIO.
From S2P Require Import FileRun.
From S2P Require Import FSRun.
From S2P Require Import TreeInv.
From S2P Require Import Mem.
From S2P Require Import MemSpec.
From S2P Require Import KVThms.
From S2P Require Import Conc.
From S2P Require Import Prog.
From S2P Require Import KVProg.
From S2P Require Import KVConcFile.

Local Open Scope string_scope.

Section hist.
Context {ST R T : Type} `{!RecordOps ST R, !Store ST R T, !GoRuntime, !LawfulStore ST R T}.
Notation W := (world ST).
Notation FD := (fileData ST R).
Notation F := (file ST R).
Implicit Types (w : W) (v : fview).

(** ** What a goroutine does *)
Definition read_p (len : nat) (m : slice -> prog (F * W) (Z * err)) : prog (F * W) file_answer :=
  let~ (data, e) :=
    (p <~ atomic (in_world (in_heap (make_zeros (Z.of_nat len)))) ;;
     let~ (n, e) := m p in
     data <~ atomic (in_world (in_heap (gets (fun h => read_slice h p)))) ;;
     Done (take (Z.to_nat n) data, e)) in
  Done (Got data e).
Definition write_p (data : list byte) (m : slice -> prog (F * W) (Z * err)) : prog (F * W) file_answer :=
  let~ (n, e) := (p <~ atomic (in_world (in_heap (make_slice data))) ;; m p) in Done (Count n e).

Definition file_op_p (op : file_op) : prog (F * W) file_answer :=
  match op with
  | OpRead len => read_p len Read_p
  | OpReadAt len o => read_p len (fun p => ReadAt_p p o)
  | OpWrite data => write_p data Write_p
  | OpWriteAt data o => write_p data (fun p => WriteAt_p p o)
  | OpSeek o whence => let~ (n, e) := Seek_p o whence in Done (Count n e)
  | OpTruncate size => e <~ FileTruncate_p size ;; Done (Count 0 e)
  end.
Fixpoint file_ops_p (ops : list file_op) : prog (F * W) (list file_answer) :=
  match ops with
  | [] => Done []
  | op :: ops => r <~ file_op_p op ;; rest <~ file_ops_p ops ;; Done (r :: rest)
  end.

(** The name, the flags, and what is done with the file. *)
Record user := MkUser { u_name : string; u_flag : Z; u_ops : list file_op }.
Implicit Types (u : user) (us : list user).

Definition user_p u : prog W (err * option (list file_answer)) :=
  let~ (h, e) := OpenFile_p (u_name u) (u_flag u) 0 in
  match e, h with
  | Some e, _ => Done (Some e, None)
  | None, None => atomic nil_deref
  | None, Some h => let~ (rs, _) := pvar (underlying h) (file_ops_p (u_ops u)) in Done (None, Some rs)
  end.

(** The steps in a row are the calls of [FileRun]. *)
Lemma read_p_like len m (n : slice -> M (F * W) (Z * err)) :
  (forall p, like (m p) (n p)) -> like (read_p len m) (read_with len n).
Proof.
  intros Hm s. unfold read_p, read_with.
  rewrite (like_pbind _ (p <- in_world (in_heap (make_slice (replicate len zero))) ;;
    let* (k, e) := n p in data <- in_world (in_heap (gets (fun h => read_slice h p))) ;;
    ret (take (Z.to_nat k) data, e)) _ (fun x => ret (Got x.1 x.2))).
  - rewrite bind_assoc. apply bind_ext. intros p s1. rewrite bind_assoc. apply bind_ext. intros [k e] s2.
    rewrite bind_assoc. apply bind_ext. intros data s3. reflexivity.
  - apply like_pbind; [|intros p; apply like_pbind; [apply Hm|]; intros [k e]; apply like_pbind;
      [apply like_atomic|intros data; apply like_Done]].
    intros s1. rewrite (like_atomic _ s1). unfold in_world, in_heap, zoom, make_zeros.
    destruct (Z.ltb_spec (Z.of_nat len) 0); [lia|]. by rewrite Nat2Z.id.
  - intros [data e]. apply like_Done.
Qed.
Lemma write_p_like data m (n : slice -> M (F * W) (Z * err)) :
  (forall p, like (m p) (n p)) -> like (write_p data m) (write_with data n).
Proof.
  intros Hm s. unfold write_p, write_with.
  rewrite (like_pbind _ (p <- in_world (in_heap (make_slice data)) ;; n p) _ (fun x => ret (Count x.1 x.2))).
  - rewrite bind_assoc. apply bind_ext. intros p s1. apply bind_ext. by intros [k e] s2.
  - apply like_pbind; [apply like_atomic|done].
  - intros [k e]. apply like_Done.
Qed.
Lemma file_op_p_like op : like (file_op_p op) (run_file_op ReadWriteFile op).
Proof.
  destruct op as [len|len o|data|data o|o whence|size]; simpl.
  - apply read_p_like. intros p. apply Read_p_like.
  - apply read_p_like. intros p. apply ReadAt_p_like.
  - apply write_p_like. intros p. apply Write_p_like.
  - apply write_p_like. intros p. apply WriteAt_p_like.
  - apply like_pbind; [apply Seek_p_like|]. intros [k e]. apply like_Done.
  - apply like_pbind; [apply TruncateFile_p_like|]. intros e. apply like_Done.
Qed.
Lemma file_ops_p_like ops : like (file_ops_p ops) (run_file_ops ReadWriteFile ops).
Proof.
  induction ops as [|op ops IH]; simpl; [apply like_Done|].
  apply like_pbind; [apply file_op_p_like|]. intros r. apply like_pbind; [done|]. intros rest. apply like_Done.
Qed.

Lemma user_p_like u w h w' :
  OpenFile (u_name u) (u_flag u) 0 w = (Ret (Some h, None), w') -> kind h = ReadWriteFile ->
  alone (user_p u) w = with_open (u_name u) (u_flag u) 0 (fun a => run_file_ops a (u_ops u)) w.
Proof.
  intros E Hk. set (use (r : option (handle ST R) * err) :=
    match r.2, r.1 with
    | Some e, _ => ret (Some e, None)
    | None, None => nil_deref
    | None, Some h => let* (rs, _) := on_var (underlying h) (run_file_ops ReadWriteFile (u_ops u)) in ret (None, Some rs)
    end : M W (err * option (list file_answer))).
  trans (bind (OpenFile (u_name u) (u_flag u) 0) use w).
  - apply (like_pbind _ _ _ use); [apply OpenFile_p_like|]. intros [[h'|] [e|]]; try apply like_Done; [|apply like_atomic].
    unfold use. cbn [fst snd]. apply (like_pbind _ _ _ (fun '(rs, _) => ret (None, Some rs))).
    + apply like_pvar, file_ops_p_like.
    + intros [rs f]. apply like_Done.
  - unfold with_open. run E. rewrite (bind_Ret _ _ _ _ _ E). cbv beta iota. by rewrite Hk.
Qed.

(** ** A file that belongs to its goroutine *)
Section owner.
Context (touch : nat -> string -> Prop) (i : nat) (Rel : fview -> fview -> Prop).
Context (HR : forall v v', Rel v v' -> moves touch (fun j => j <> i) v v').
Context (name : string) (l : nat) (mode fl : Z).
Context (Hvalid : ValidPath name = true) (Hreg : IsRegular mode = true) (Htouch : touch i name).
Notation file := (has_file (Some i) name l).
Notation safe := (safe (files_at (ST := ST) (R := R) (T := T)) Rel (moves touch (eq i))).
Notation stable := (stable Rel).
Notation Ho := (or_introl eq_refl : Some i = Some i \/ Some i = None).

(** The node of the file, and an open handle of it at its offset. *)
Definition on_node (nd : node) v : Prop := n_mode nd = mode /\ exists b, file b mode (n_data nd) v.
Lemma stable_on_node nd : stable (on_node nd).
Proof.
  apply stable_and; [apply stable_pure|]. apply stable_ex. intros b. apply (kept_file touch i Rel HR name l mode _ Ho b).
Qed.
Hint Resolve stable_on_node : go_stable.

(** What the program has found out of the file and of its handle. *)
Definition ends {A} (a : A) (nd : node) (off : Z) (r : A * F) v : Prop :=
  (exists fd, r = (a, opened_file fd off fl) /\ opened name l mode (length (n_data nd)) fd) /\ on_node nd v.
Lemma stable_ends {A} (a : A) nd off r : stable (ends a nd off r).
Proof. apply stable_and; [apply stable_pure|apply stable_on_node]. Qed.
Hint Resolve @stable_ends : go_stable.

Lemma ends_then {A B} (a : A) nd off (Q : B * F -> fview -> Prop) k n P (p : prog (F * W) A) f (h : A -> prog (F * W) B) :
  safe (ends a nd off) k P (pvar f p) ->
  (forall fd, opened name l mode (length (n_data nd)) fd -> safe Q (S n) (on_node nd) (pvar (opened_file fd off fl) (h a))) ->
  safe Q (k + S n) P (pvar f (x <~ p ;; h x)).
Proof.
  intros Hp Hh. eapply (var_bind_safe _ _ _ _ _ k (S n)); [exact Hp|]. intros x f'.
  apply safe_assume; [apply stable_ends|]. intros (fd & [= -> ->] & Hop). by apply Hh.
Qed.
Lemma ends_done {A B} (a : A) (a' : B) nd off k n P (p : prog (F * W) A) f (h : A -> prog (F * W) B) :
  safe (ends a nd off) k P (pvar f p) -> h a = Done a' ->
  safe (ends a' nd off) (k + S n) P (pvar f (x <~ p ;; h x)).
Proof.
  intros Hp Ha. eapply ends_then; [exact Hp|]. intros fd Hop. rewrite Ha. apply safe_done; [apply stable_on_node|].
  intros v Hv. split; [by exists fd|done].
Qed.

(** With the header of the blob at hand. *)
Lemma at_node {A} (Q : A -> fview -> Prop) n nd (p : prog W A) :
  (n_mode nd = mode -> forall b, safe Q (S n) (file b mode (n_data nd)) p) -> safe Q (S n) (on_node nd) p.
Proof.
  intros Hp. apply safe_assume; [apply stable_on_node|]. intros Hm. apply safe_ex; [|by apply Hp].
  apply stable_ex. intros b. apply (kept_file touch i Rel HR name l mode _ Ho b).
Qed.
Lemma as_node {A} (a : A) c nd off k n P p :
  n_mode nd = mode -> n_data nd = c -> k <= n ->
  safe (fun r v => (r.1 = a /\ exists fd, r.2 = opened_file fd off fl /\ opened name l mode (length c) fd) /\
    exists b, file b mode c v) k P p ->
  safe (ends a nd off) n P p.
Proof.
  intros Hm <- Hk Hp. eapply safe_post; [exact Hk| |exact Hp].
  intros [a' f] v [[Ha (fd & Hf & Hop)] Hb]. cbn [fst snd] in *. subst a' f. split; [by exists fd|by split].
Qed.

(** *** Each operation *)
Section ops.
Context (nd : node) (off : Z) (fd : FD) (Hop : opened name l mode (length (n_data nd)) fd) (Hoff : (0 <= off)%Z).
Notation f := (opened_file fd off fl).
Notation c := (n_data nd).

Lemma read_count_range (len : nat) (o : Z) : (0 <= read_count c (Z.of_nat len) o <= Z.of_nat len)%Z.
Proof. unfold read_count. lia. Qed.

Lemma OpRead_safe (len : nat) :
  is_int64 (off + Z.of_nat len) ->
  safe (ends (read_answer nd len off) nd (off + read_count c (Z.of_nat len) off)) 21 (on_node nd)
    (pvar f (file_op_p (OpRead len))).
Proof.
  intros Hi64. apply (ends_done (take (Z.to_nat (read_count c (Z.of_nat len) off)) (drop (Z.to_nat off) c),
    read_err c (Z.of_nat len) off) _ _ _ 20 0); [|done].
  apply (at_node _ 19). intros Hm b. apply (as_node _ c _ _ 13); [done|done|lia|].
  pose proof (read_count_range len off). rewrite <- (add64_id off (read_count _ _ _)) by int64.
  eapply safe_post; [done| |by apply (Read_open touch i Rel HR name l mode _ Ho b c fd off fl (Z.of_nat len)); [..|lia|]].
  intros r v [Hr Hv]. split; [done|by exists b].
Qed.
Lemma OpReadAt_safe (len : nat) (o : Z) :
  (0 <= o)%Z -> is_int64 (o + Z.of_nat len) ->
  safe (ends (read_answer nd len o) nd off) 21 (on_node nd) (pvar f (file_op_p (OpReadAt len o))).
Proof.
  intros Hpos Hi64. apply (ends_done (take (Z.to_nat (read_count c (Z.of_nat len) o)) (drop (Z.to_nat o) c),
    read_err c (Z.of_nat len) o) _ _ _ 20 0); [|done].
  apply (at_node _ 19). intros Hm b. apply (as_node _ c _ _ 10); [done|done|lia|].
  eapply safe_post; [done| |by apply (ReadAt_into_open touch i Rel HR name l mode _ Ho b c fd off fl (Z.of_nat len) o); [..|lia|]].
  intros r v [Hr Hv]. split; [done|by exists b].
Qed.

Lemma pos_of (o : Z) :
  Z.to_nat (write_pos fl nd o) = if has_flag fl FlagAppend then length c else Z.to_nat o.
Proof. unfold write_pos. destruct (has_flag fl FlagAppend); [by rewrite Nat2Z.id|done]. Qed.
Lemma pos_int64 (o : Z) (n : nat) : (0 <= o)%Z ->
  is_int64 (write_pos fl nd o + Z.of_nat n) -> is_int64 (Z.of_nat (Z.to_nat (write_pos fl nd o) + n)).
Proof. intros Hpos Hi. rewrite Nat2Z.inj_add, Z2Nat.id; [done|]. unfold write_pos. destruct (has_flag _ _); lia. Qed.

Lemma OpWrite_safe data :
  is_int64 (off + Z.of_nat (length data)) -> is_int64 (write_pos fl nd off + Z.of_nat (length data)) ->
  safe (ends (Count (Z.of_nat (length data)) None) (write_node 0 nd (write_pos fl nd off) data)
      (off + Z.of_nat (length data))) 21 (on_node nd) (pvar f (file_op_p (OpWrite data))).
Proof.
  intros Hi1 Hi2. apply (ends_done (Z.of_nat (length data), None) _ _ _ 20 0); [|done].
  apply (at_node _ 19). intros Hm b. rewrite <- (add64_id off (Z.of_nat (length data))) by done.
  eapply as_node; [done|simpl; by rewrite pos_of|done|].
  apply (Write_open touch i Rel HR name l mode _ Ho Hvalid Hreg Htouch b c fd off fl data); [done|by left|done|done|].
  rewrite <- pos_of. by apply pos_int64.
Qed.
Lemma OpWriteAt_safe data (o : Z) :
  (0 <= o)%Z -> is_int64 (write_pos fl nd o + Z.of_nat (length data)) ->
  safe (ends (Count (Z.of_nat (length data)) None) (write_node 0 nd (write_pos fl nd o) data) off) 21 (on_node nd)
    (pvar f (file_op_p (OpWriteAt data o))).
Proof.
  intros Hpos Hi2. apply (ends_done (Z.of_nat (length data), None) _ _ _ 20 0); [|done].
  apply (at_node _ 19). intros Hm b. eapply (as_node _ _ _ _ 17); [done|simpl; by rewrite pos_of|lia|].
  apply (WriteAt_open touch i Rel HR name l mode _ Ho Hvalid Hreg Htouch b c fd off fl data o); [done|by left|done|].
  rewrite <- pos_of. by apply pos_int64.
Qed.

Lemma OpSeek_safe (o whence : Z) :
  op_legal fl (OpSeek o whence) nd off ->
  let '(r, (nd', off')) := spec_file_op 0 name ReadWriteFile fl (OpSeek o whence) nd off in
  safe (ends r nd' off') 21 (on_node nd) (pvar f (file_op_p (OpSeek o whence))) /\ (0 <= off')%Z.
Proof.
  cbn [spec_file_op op_legal]. intros Hi64. set (base := seek_base nd off whence) in *.
  assert (Hseek : forall n e off', (n, e) = (match base with
        | Some x => if (x + o <? 0)%Z then (0%Z, Some (PathError "seek" name ErrInvalid)) else (x + o, None)%Z
        | None => (0%Z, Some (PathError "seek" name ErrInvalid)) end) ->
      off' = (match base with Some x => if (x + o <? 0)%Z then off else x + o | None => off end)%Z ->
      safe (ends (Count n e) nd off') 21 (on_node nd) (pvar f (file_op_p (OpSeek o whence)))).
  { intros n e off' Hr Hoff'. apply (ends_done (n, e) _ _ _ 20 0); [|done].
    apply (at_node _ 19). intros Hm b. apply (as_node _ c _ _ 3); [done|done|lia|].
    eapply safe_post; [done| |by apply (Seek_open touch i Rel HR name l mode _ Ho b c fd off fl o whence)].
    intros r v [(fd' & -> & Hop') Hv]. rewrite Hr, Hoff'. split; [split; [done|by exists fd']|by exists b]. }
  destruct base as [x|]; [destruct (Z.ltb_spec (x + o) 0)|]; (split; [by apply Hseek|lia]).
Qed.
Lemma OpTruncate_safe (size : Z) :
  n_mode nd = mode -> is_int64 size ->
  let '(r, (nd', off')) := spec_file_op 0 name ReadWriteFile fl (OpTruncate size) nd off in
  safe (ends r nd' off') 21 (on_node nd) (pvar f (file_op_p (OpTruncate size))) /\ (0 <= off')%Z.
Proof.
  cbn [spec_file_op]. intros Hm Hi64.
  assert (IsDir (n_mode nd) = false) as ->.
  { rewrite Hm. destruct (IsDir mode) eqn:Hd; [by rewrite IsDir_not_IsRegular in Hreg|done]. }
  assert (Htrunc : forall e nd', e = (if (size <? 0)%Z then Some (PathError "truncate" name ErrInvalid) else None) ->
      n_mode nd' = mode -> n_data nd' = (if (size <? 0)%Z then c else resize c (Z.to_nat size)) ->
      safe (ends (Count 0 e) nd' off) 21 (on_node nd) (pvar f (file_op_p (OpTruncate size)))).
  { intros e nd' He Hm' Hd. apply (ends_done e _ _ _ 20 0); [|done].
    apply (at_node _ 19). intros _ b. eapply (as_node _ _ _ _ 10); [done|exact Hd|lia|].
    eapply safe_post; [done| |by apply (Truncate_open touch i Rel HR name l mode _ Ho Hvalid Hreg Htouch b c fd off fl size)].
    intros r v [(fd' & -> & Hop') Hv]. rewrite He. split; [split; [done|by exists fd']|done]. }
  destruct (size <? 0)%Z; (split; [by apply Htrunc|done]).
Qed.
End ops.

Lemma file_op_safe (op : file_op) nd off fd :
  n_mode nd = mode -> opened name l mode (length (n_data nd)) fd -> (0 <= off)%Z -> op_legal fl op nd off ->
  let '(r, (nd', off')) := spec_file_op 0 name ReadWriteFile fl op nd off in
  safe (ends r nd' off') 21 (on_node nd) (pvar (opened_file fd off fl) (file_op_p op)) /\ (0 <= off')%Z.
Proof.
  intros Hm Hop Hoff Hl. destruct op as [len|len o|data|data o|o whence|size].
  - pose proof (read_count_range nd len off). split; [by apply OpRead_safe|lia].
  - destruct Hl. split; [by apply OpReadAt_safe|done].
  - destruct Hl. split; [by apply OpWrite_safe|lia].
  - destruct Hl. split; [by apply OpWriteAt_safe|done].
  - by apply OpSeek_safe.
  - by apply OpTruncate_safe.
Qed.

Lemma spec_file_op_mode op nd off :
  n_mode (spec_file_op 0 name ReadWriteFile fl op nd off).2.1 = n_mode nd.
Proof. destruct op; simpl; repeat case_match; done. Qed.

Lemma file_ops_safe (ops : list file_op) nd off fd :
  n_mode nd = mode -> opened name l mode (length (n_data nd)) fd -> (0 <= off)%Z ->
  ops_legal 0 name ReadWriteFile fl ops nd off ->
  let '(rs, (nd', off')) := spec_file_ops 0 name ReadWriteFile fl ops nd off in
  safe (ends rs nd' off') (S (22 * length ops)) (on_node nd) (pvar (opened_file fd off fl) (file_ops_p ops)).
Proof.
  revert nd off fd. induction ops as [|op ops IH]; intros nd off fd Hm Hop Hoff.
  { intros _. apply safe_done; [apply stable_on_node|]. intros v Hv. split; [by exists fd|done]. }
  cbn [ops_legal spec_file_ops file_ops_p]. intros [Hl Hls].
  pose proof (file_op_safe op nd off fd Hm Hop Hoff Hl) as Hs. pose proof (spec_file_op_mode op nd off) as Hm1.
  destruct (spec_file_op 0 name ReadWriteFile fl op nd off) as [r [nd1 off1]]. cbn [fst snd] in Hm1.
  destruct Hs as [Hs Hoff1]. rewrite Hm in Hm1.
  destruct (spec_file_ops 0 name ReadWriteFile fl ops nd1 off1) as [rest [nd2 off2]] eqn:E.
  replace (S (22 * length (op :: ops))) with (21 + S (S (22 * length ops))) by (simpl; lia).
  eapply ends_then; [exact Hs|]. intros fd1 Hop1. specialize (IH nd1 off1 fd1 Hm1 Hop1 Hoff1 Hls). rewrite E in IH.
  replace (S (S (22 * length ops))) with (S (22 * length ops) + 1) by lia.
  by apply (ends_done rest _ _ _ _ 0).
Qed.

Lemma user_safe ops nd :
  n_mode nd = mode -> open_kind fl = ReadWriteFile ->
  has_flag fl FlagCreate = false -> has_flag fl FlagTruncate = false ->
  ops_legal 0 name ReadWriteFile fl ops nd 0 ->
  let '(rs, (nd', _)) := spec_file_ops 0 name ReadWriteFile fl ops nd 0 in
  safe (fun r v => r = (None, Some rs) /\ on_node nd' v) (4 + 22 * length ops) (on_node nd)
    (user_p (MkUser name fl ops)).
Proof.
  intros Hm Hk Hcr Htr Hl. assert (Hd : IsDir mode = false).
  { destruct (IsDir mode) eqn:Hd; [by rewrite IsDir_not_IsRegular in Hreg|done]. }
  pose proof (fun fd Hop => file_ops_safe ops nd 0 fd Hm Hop ltac:(done) Hl) as Hops.
  destruct (spec_file_ops 0 name ReadWriteFile fl ops nd 0) as [rs [nd' off']].
  apply (at_node _ (3 + 22 * length ops)). intros _ b. unfold user_p. cbn [u_name u_flag u_ops].
  replace (S (3 + 22 * length ops)) with (2 + S (S (22 * length ops))) by lia.
  apply (psafe_bind _ _ _ (fun r v => (exists fd, r = (Some (MkHandle (open_kind fl) (opened_file fd 0 fl)), None) /\
    opened name l mode (length (n_data nd)) fd) /\ on_node nd v) _ 2).
  - destruct (kept_file touch i Rel HR name l mode _ Ho b (n_data nd)) as [HP _].
    eapply safe_post; [done| |by apply (OpenFile_there touch i Rel name l mode (Some i) b (n_data nd) fl 0)].
    intros r v [Hf (fd & Hr & Hop & _)]. split; [by exists fd|split; [done|by exists b]].
  - intros [h e]. apply safe_assume; [apply stable_and; [apply stable_pure|apply stable_on_node]|].
    intros (fd & [= -> ->] & Hop). cbn [underlying].
    replace (S (S (22 * length ops))) with (S (22 * length ops) + 1) by lia.
    eapply psafe_bind; [by apply Hops|]. intros [x f']. apply safe_assume; [apply stable_ends|].
    intros (fd' & [= -> ->] & _). apply safe_done; [apply stable_on_node|]. done.
Qed.
End owner.

(** ** Side by side *)

(** The files of the goroutines are regular files that are there, opened for reading
    and writing. *)
Definition user_ok (ns : nodes) u : Prop :=
  ValidPath (u_name u) = true /\ open_kind (u_flag u) = ReadWriteFile /\
  has_flag (u_flag u) FlagCreate = false /\ has_flag (u_flag u) FlagTruncate = false /\
  exists nd, ns !! u_name u = Some nd /\ IsRegular (n_mode nd) = true /\
    ops_legal 0 (u_name u) ReadWriteFile (u_flag u) (u_ops u) nd 0.

(** What the goroutine gets, and the file that it leaves, but for the time. *)
Definition as_specified (ns0 ns : nodes) u (r : err * option (list file_answer)) : Prop :=
  exists nd mt, ns0 !! u_name u = Some nd /\
    let '(rs, (nd', _)) := spec_file_ops 0 (u_name u) ReadWriteFile (u_flag u) (u_ops u) nd 0 in
    r = (None, Some rs) /\ ns !! u_name u = Some (MkNode (n_mode nd') mt (n_data nd')).

Definition users_steps us : nat := (4 + 22 * max_list (length ∘ u_ops <$> us)) * length us.

Lemma owner_lookup names i x : NoDup names -> names !! i = Some x -> owner names x = Some i.
Proof.
  intros Hnd Hi. unfold owner. rewrite (proj2 (list_find_Some _ names i x)); [done|].
  split_and!; [done|done|]. intros j y Hj Hlt ->. pose proof (NoDup_lookup _ _ _ _ Hnd Hi Hj). lia.
Qed.
Lemma owner_none names x : x ∉ names -> owner names x = None.
Proof.
  intros Hx. unfold owner. rewrite (proj2 (list_find_None _ names)); [done|].
  apply Forall_forall. intros y Hy ->. done.
Qed.

Section side_by_side.
Context (us : list user) (t : tree) (h : heap).
Notation names := (u_name <$> us).
Notation ns0 := (view h t).

Definition touches_own (i : nat) (p : string) : Prop := names !! i = Some p.
Notation others i := (moves touches_own (fun j => j <> i)).

(** The file of goroutine [i], and the files of nobody. *)
Definition mine i v : Prop := forall u nd, us !! i = Some u -> ns0 !! u_name u = Some nd ->
  exists l, on_node i (u_name u) l (n_mode nd) nd v.
Definition rest_as_it_was v : Prop := forall p, p ∉ names ->
  match t !! p with
  | None => fv_tree v !! p = None
  | Some e => fv_tree v !! p = Some e /\
              exists l b, has_file None p l b (e_mode e) (blob_bytes h (e_data e)) v
  end.
Definition answered i (r : err * option (list file_answer)) v : Prop :=
  forall u nd, us !! i = Some u -> ns0 !! u_name u = Some nd ->
  let '(rs, (nd', _)) := spec_file_ops 0 (u_name u) ReadWriteFile (u_flag u) (u_ops u) nd 0 in
  r = (None, Some rs) /\ exists l, on_node i (u_name u) l (n_mode nd) nd' v.

Lemma stable_own_file i : stable (others i) (mine i).
Proof.
  intros v v' Hv Hm u nd Hu Hnd. destruct (Hv u nd Hu Hnd) as [l Hl]. exists l.
  by eapply (stable_on_node touches_own i (others i)).
Qed.

Lemma rest_stays i v v' : rest_as_it_was v -> moves touches_own (eq i) v v' -> rest_as_it_was v'.
Proof.
  intros Hv Hm p Hp. specialize (Hv p Hp).
  assert (Ht : fv_tree v' !! p = fv_tree v !! p).
  { destruct (mv_entry _ _ _ _ Hm p) as [?|(j & _ & _ & _ & Hj & _)]; [done|].
    destruct Hp. by eapply list_elem_of_lookup_2. }
  rewrite Ht. destruct (t !! p) as [e|]; [|done]. destruct Hv as [He (l & b & Hf)]. split; [done|].
  exists l, b. by eapply stable_file.
Qed.
Lemma rest_nodes v p : rest_as_it_was v -> p ∉ names -> view (fv_heap v) (fv_tree v) !! p = ns0 !! p.
Proof.
  intros Hv Hp. specialize (Hv p Hp). rewrite !view_lookup. destruct (t !! p) as [e|]; [|by rewrite Hv].
  destruct Hv as [He (l & b & [mt Ht] & [Hb _] & _ & _ & _ & _ & Hd)].
  destruct e as [d m mt']. cbn [e_mode e_data] in *. rewrite Ht in He. injection He as <- <-. rewrite Ht. simpl. f_equal.
  unfold to_node. simpl in *. by rewrite (contents_Some _ _ _ Hb), Hd.
Qed.
Lemma answered_nodes i u nd r v :
  answered i r v -> us !! i = Some u -> ns0 !! u_name u = Some nd ->
  as_specified ns0 (view (fv_heap v) (fv_tree v)) u r.
Proof.
  intros Ha Hu Hnd. specialize (Ha u nd Hu Hnd). exists nd.
  destruct (spec_file_ops 0 (u_name u) ReadWriteFile (u_flag u) (u_ops u) nd 0) as [rs [nd' off']].
  destruct Ha as [Hr (l & Hm & b & [mt Ht] & [Hb _] & _ & _ & _ & _ & Hd)]. exists mt. split; [done|]. split; [done|].
  rewrite view_lookup, Ht. simpl. unfold to_node. simpl. by rewrite Hm, (contents_Some _ _ _ Hb), Hd.
Qed.

Lemma user_safe_here i u n :
  us !! i = Some u -> user_ok ns0 u -> 4 + 22 * length (u_ops u) <= n ->
  safe (files_at (ST := ST) (R := R) (T := T)) (others i) (moves touches_own (eq i)) (answered i) n (mine i) (user_p u).
Proof.
  intros Hu (Hv & Hk & Hcr & Htr & nd & Hnd & Hreg & Hl) Hn. destruct u as [name fl ops].
  cbn [u_name u_flag u_ops] in *.
  assert (Htouch : touches_own i name) by (unfold touches_own; by rewrite list_lookup_fmap, Hu).
  apply (safe_pre _ _ _ _ _ (fun v => exists l, on_node i name l (n_mode nd) nd v));
    [apply stable_own_file|intros v Hm; by apply (Hm _ nd Hu Hnd)|].
  apply (safe_post _ _ _ (answered i) _ (S (3 + 22 * length ops))); [lia|done|].
  assert (Hst : forall nd l, stable (others i) (on_node i name l (n_mode nd) nd))
    by (intros; by apply (stable_on_node touches_own i (others i))).
  apply safe_ex; [by apply stable_ex|]. intros l.
  pose proof (user_safe touches_own i (others i) ltac:(done) name l (n_mode nd) fl Hv Hreg Htouch ops nd eq_refl Hk Hcr Htr Hl)
    as Hs.
  destruct (spec_file_ops 0 name ReadWriteFile fl ops nd 0) as [rs [nd' off']] eqn:E.
  eapply safe_post; [|intros r v Hr|exact Hs]; [done|]. intros u nd1 Hu1 Hnd1. rewrite Hu in Hu1. injection Hu1 as <-.
  cbn [u_name u_flag u_ops] in *. rewrite Hnd in Hnd1. injection Hnd1 as <-. rewrite E.
  destruct Hr as [-> Hr]. split; [done|by exists l].
Qed.
End side_by_side.

(** C14: goroutines that each open a regular file of their own for reading and
    writing, and read, write, seek and truncate it: in every interleaving none
    panics or blocks, all come to an end within a bound, each gets what bytes with
    an offset give, its file ends with the bytes it should have, and every other
    path stays as it is. *)
Theorem open_files_do_not_interfere us w ns0 :
  fs_state w ns0 -> NoDup (u_name <$> us) -> Forall (user_ok ns0) us ->
  in_every_interleaving (fs_state (T := T)) (users_steps us)
    (fun ns => forall p, p ∉ u_name <$> us -> ns !! p = ns0 !! p)
    (fun rs ns => Forall2 (as_specified ns0 ns) us rs)
    (user_p <$> us) w.
Proof.
  intros (t & Hat & ->) Hnd Hok. set (h := w_heap w).
  pose proof (owned_view_at (u_name <$> us) t h w Hat eq_refl) as Hw. set (v0 := owned_view (u_name <$> us) t h) in *.
  assert (Hfile : forall p e, t !! p = Some e -> exists l b, e_data e = BBytes l /\
    has_file (owner (u_name <$> us) p) p l b (e_mode e) (blob_bytes h (e_data e)) v0).
  { intros p e He. pose proof (at_live _ _ Hat p e He) as Hl. destruct e as [[l|] mode mt]; [|done].
    destruct (owned_view_file (u_name <$> us) t h w Hat eq_refl p l mode mt He) as [b Hb]. by exists l, b. }
  apply (parallel_view (fun v => view (fv_heap v) (fv_tree v)) files_at _ _ (rest_as_it_was us t h) _
    (fun rs v => length rs = length (user_p <$> us) /\ forall i r, rs !! i = Some r -> answered us t h i r v)).
  - unfold users_steps. rewrite <- (length_fmap user_p us).
    apply (parallel_rule files_at (fun i => moves (touches_own us) (fun j => j <> i)) (fun i => moves (touches_own us) (eq i))
      (answered us t h) (rest_as_it_was us t h) (mine us t h) _ _ w v0).
    + intros i v v'. by apply rest_stays.
    + intros i j v v' Hij. apply moves_mono. by intros k <-.
    + exact Hw.
    + intros p Hp. destruct (t !! p) as [e|] eqn:He; [|exact He]. destruct (Hfile p e He) as (l & b & _ & Hf).
      rewrite owner_none in Hf by done. split; [exact He|]. by exists l, b.
    + intros i u nd Hu Hn. rewrite view_lookup in Hn. apply fmap_Some in Hn as (e & He & ->).
      destruct (Hfile (u_name u) e He) as (l & b & _ & Hf). rewrite (owner_lookup _ i) in Hf;
        [exists l; split; [done|by exists b]|done|by rewrite list_lookup_fmap, Hu].
    + intros i p Hp. apply list_lookup_fmap_Some in Hp as (u & -> & Hu). rewrite Forall_lookup in Hok.
      apply user_safe_here; [done|by apply (Hok i)|].
      assert (length (u_ops u) <= max_list (length ∘ u_ops <$> us)).
      { apply max_list_elem_of_le, list_elem_of_lookup_2 with i. by rewrite list_lookup_fmap, Hu. }
      lia.
  - intros w' v Hv. exists (fv_tree v). split; [apply Hv|]. by rewrite (fa_heap w' v Hv).
  - intros v Hv p Hp. by apply (rest_nodes us t h).
  - intros rs v [Hlen Hrs]. rewrite length_fmap in Hlen. apply Forall2_same_length_lookup. split; [done|].
    intros i u r Hu Hr. rewrite Forall_lookup in Hok. destruct (Hok i u Hu) as (_ & _ & _ & _ & nd & Hn & _).
    apply (answered_nodes us t h i u nd); [by apply Hrs|done|done].
Qed.
End hist.

(** ** On a memory file system *)
#[local] Existing Instance simple_runtime.

Definition two_files : list fs_call :=
  [CallWrite "f" (Z.lor FlagCreate FlagReadWrite) 438 [Byte.x61; Byte.x62; Byte.x63];
   CallWrite "g" (Z.lor FlagCreate FlagReadWrite) 438 [Byte.x64; Byte.x65]].
Definition two_nodes : nodes := (spec_calls (fun _ => ErrNotExist) 1 two_files (root_nodes 1)).2.
Definition two_fs : world store := (run_calls two_files (FS_NewFS (new_world 1)).2).2.

Lemma two_state : fs_state two_fs two_nodes.
Proof.
  unfold two_fs, two_nodes. destruct (mem_NewFS 1) as (w & E & Hs & Hn). rewrite E. simpl snd at 2.
  assert (Hp : all_proper (fun _ => ErrNotExist) 1 two_files (root_nodes 1))
    by (unfold two_files; cbn [all_proper proper call_legal]; concrete).
  destruct (run_calls_answer (T := Mem.transaction) two_files w (root_nodes 1) Hs) as (w' & E' & Hs' & _);
    rewrite ?Hn in *; [done|by apply (hangs_calls (fun _ => ErrNotExist) 1 two_files (root_nodes 1) (root_hangs 1))|].
  rewrite E'. exact Hs'.
Qed.

Definition two_users : list user :=
  [MkUser "f" FlagReadWrite
     [OpRead 2; OpWrite [Byte.x78; Byte.x79; Byte.x7a]; OpSeek (-2) 1; OpRead 4];
   MkUser "g" (Z.lor FlagReadWrite FlagAppend)
     [OpWrite [Byte.x77]; OpTruncate 5; OpReadAt 9 1; OpSeek (-1) 0]].

Lemma two_users_ok : NoDup (u_name <$> two_users) /\ Forall (user_ok two_nodes) two_users.
Proof.
  split; [apply (bool_decide_unpack _); vm_compute; exact I|].
  apply Forall_cons. split; [|apply Forall_cons; split; [|apply Forall_nil; exact I]]; (split_and!; [computes..|]).
  - exists (MkNode 438 1 [Byte.x61; Byte.x62; Byte.x63]). split_and!; [computes..|].
    apply (bool_decide_unpack _). vm_compute. exact I.
  - exists (MkNode 438 1 [Byte.x64; Byte.x65]). split_and!; [computes..|].
    apply (bool_decide_unpack _). vm_compute. exact I.
Qed.

Lemma open_files_do_not_interfere_witness :
  in_every_interleaving (fs_state (T := Mem.transaction)) (users_steps two_users)
    (fun ns => forall p, p ∉ u_name <$> two_users -> ns !! p = two_nodes !! p)
    (fun rs ns => rs =
       [(None, Some [Got [Byte.x61; Byte.x62] None; Count 3 None; Count 3 None;
                     Got [Byte.x79; Byte.x7a] (Some EOF)]);
        (None, Some [Count 1 None; Count 0 None; Got [Byte.x65; Byte.x77; zero; zero] (Some EOF);
                     Count 0 (Some (PathError "seek" "g" ErrInvalid))])] /\
       n_data <$> ns !! "f" = Some [Byte.x61; Byte.x62; Byte.x78; Byte.x79; Byte.x7a])
    (user_p <$> two_users) two_fs.
Proof.
  destruct two_users_ok as [Hnd Hok].
  eapply parallel_mono; [exact (open_files_do_not_interfere two_users two_fs two_nodes two_state Hnd Hok)|].
  intros rs ns Hrs. apply Forall2_cons_inv_l in Hrs as (r1 & rs1 & H1 & Hrs & ->).
  apply Forall2_cons_inv_l in Hrs as (r2 & rs2 & H2 & Hrs & ->). apply Forall2_nil_inv_l in Hrs as ->.
  destruct H1 as (nd1 & mt1 & Hn1 & H1), H2 as (nd2 & mt2 & Hn2 & H2). cbn [u_name u_flag u_ops] in *.
  vm_compute in Hn1. injection Hn1 as <-. vm_compute in Hn2. injection Hn2 as <-.
  revert H1 H2. generalize (ns !! "f"). generalize (ns !! "g"). vm_compute. intros x y [-> ->] [-> ->]. by split.
Defined.
