(* ===== verification/KVConcDemo.v ===== *)
(** * Goroutines on [mem.FS]: witnesses and races

    The theorems of [KVConcThms] on a memory file system, and executions in
    which a call acts on a check that is outdated by then. *)
From S2P Require Import Prelude.
From S2P Require Import Paths.
From S2P Require Import Errors.
From S2P Require Import Modes.
From S2P Require Import Blob.
From S2P Require Import BlobSpec.
From S2P Require Import Record.
From S2P Require Import Txn.
From S2P Require Import KVFile.
From S2P Require Import KVFS.
From S2P Require Import StoreSpec.
From S2P Require Import FSSpec.
From S2P Require Import TreeFS.
From S2P Require Import TreeOps.
From S2P Require Import FileIO.
From S2P Require Import Mem.
From S2P Require Import MemSpec.
From S2P Require Import Conc.
From S2P Require Import Prog.
From S2P Require Import KVProg.
From S2P Require Import KVConc.
From S2P Require Import KVConcThms.
From S2P Require Import KVThms.

Local Open Scope string_scope.
#[local] Existing Instance simple_runtime.

Notation W := (world store).

(** ** Races *)

(** A memory file system with a directory [d]. *)
Definition race_world : W := ((FS_NewFS ;;; FS_Mkdir "d" 511) (new_world 1)).2.
Definition create_flag : Z := Z.lor FlagCreate FlagReadWrite.

(** [OpenFile] and then [Write] and [Close]. *)
Definition create_with_p (name : string) (data : list byte) : prog W err :=
  let~ (h, e) := OpenFile_p name create_flag 438 in
  match e, h with
  | Some e, _ => Done (Some e)
  | None, None => atomic nil_deref
  | None, Some h =>
      p <~ atomic (in_heap (make_slice data)) ;;
      let~ (r, _) := pvar (underlying h) (Write_p p) in Done r.2
  end.

(** Run a schedule to the end: what the calls returned, and the world. *)
Definition play (ps : list (prog W err)) (sched : list nat) : option (list (option err) * W) :=
  match run_schedule pstep sched (ps, race_world) with
  | Some (ps, w) => Some (is_done <$> ps, w)
  | None => None
  end.
Definition stat_of (name : string) (w : W) : option (bool * Z) + err :=
  match (let* (i, e) := FS_Stat name in
         match i with
         | Some i => dir <- info_IsDir i ;; size <- info_Size i ;; ret (Some (dir, size), e)
         | None => ret (None, e)
         end) w with
  | (Ret (Some x, _), _) => inl (Some x)
  | (Ret (None, e), _) => inr e
  | _ => inl None
  end.

(** What two calls return and what is at the paths then: of one after the other,
    and of an interleaving. *)
Definition seen (names : list string) (w : W) : list (option (bool * Z) + err) :=
  (fun name => stat_of name w) <$> names.
Definition in_turn (p q : prog W err) (names : list string) : option (err * err) * list (option (bool * Z) + err) :=
  match (e1 <- alone p ;; e2 <- alone q ;; ret (e1, e2)) race_world with
  | (Ret es, w) => (Some es, seen names w)
  | (_, w) => (None, seen names w)
  end.
Definition swapped (r : option (err * err) * list (option (bool * Z) + err)) :=
  ((fun es => (es.2, es.1)) <$> r.1, r.2).

Record race := MkRace {
  first : prog W err;
  second : prog W err;
  paths : list string;
  outcome_ : option (err * err) * list (option (bool * Z) + err)
}.

(** Some execution of the two calls has the outcome, and no order of them has. *)
Definition races (r : race) : Prop :=
  (exists sched, (fun '(es, w) => (es, seen (paths r) w)) <$> play [first r; second r] sched =
     Some ([fst <$> (outcome_ r).1; snd <$> (outcome_ r).1], (outcome_ r).2)) /\
  in_turn (first r) (second r) (paths r) <> outcome_ r /\
  swapped (in_turn (second r) (first r) (paths r)) <> outcome_ r.

Definition remove_and_create : race :=
  MkRace (Remove_p "d") (create_with_p "d/f" []) ["d"; "d/f"]
    (Some (None, None), [inr (Some (PathError "stat" "d" ErrNotExist)); inl (Some (false, 0%Z))]).
Definition create_and_create : race :=
  MkRace (create_with_p "f" []) (create_with_p "f" [Byte.x61]) ["f"]
    (Some (None, None), [inl (Some (false, 0%Z))]).
Definition mkdir_and_create : race :=
  MkRace (Mkdir_p "x" 511) (create_with_p "x" [Byte.x61]) ["x"]
    (Some (None, None), [inl (Some (true, 0%Z))]).
Definition mkdir_and_mkdir : race :=
  MkRace (Mkdir_p "x" 511) (Mkdir_p "x" 511) ["x"] (Some (None, None), [inl (Some (true, 0%Z))]).

Definition hello : list byte := [Byte.x68; Byte.x65; Byte.x6c; Byte.x6c; Byte.x6f].
Definition write_and_write : race :=
  MkRace (create_with_p "f" hello) (create_with_p "f" hello) ["f"]
    (Some (None, None), [inl (Some (false, 10%Z))]).

Definition rename_and_create : race :=
  MkRace (Rename_p 2 "d" "e") (create_with_p "d/f" []) ["d"; "e"; "d/f"]
    (Some (None, None), [inr (Some (PathError "stat" "d" ErrNotExist)); inl (Some (true, 0%Z));
                         inl (Some (false, 0%Z))]).
Definition rename_and_remove : race :=
  MkRace (Rename_p 2 "d" "e") (Remove_p "d") ["d"; "e"]
    (Some (None, None), [inr (Some (PathError "stat" "d" ErrNotExist)); inl (Some (true, 0%Z))]).

Ltac plays sched :=
  split; [exists sched; vm_compute; reflexivity|split; vm_compute; discriminate].

(** C15: the calls of the key-value file system check and then act in
    transactions of their own, and on [mem.FS] that shows: two calls that both
    return nil can leave a file in a directory that was removed, lose what was
    written to a new file, put a directory in the place of a file, both make the
    same directory, and both make room for what they write to the start of a file,
    which is twice as long then, leave a file behind in a directory that was
    renamed, and rename a directory that was removed; in no order of the two calls
    that happens. *)
Theorem calls_act_on_outdated_checks :
  races remove_and_create /\ races create_and_create /\ races mkdir_and_create /\ races mkdir_and_mkdir /\
  races write_and_write /\ races rename_and_create /\ races rename_and_remove.
Proof.
  split; [|split; [|split; [|split; [|split; [|split]]]]].
  - plays ([0; 0; 0] ++ replicate 22 1 ++ [0])%list.
  - plays ([0] ++ replicate 26 1 ++ replicate 21 0)%list.
  - plays ([0; 0; 0] ++ replicate 26 1 ++ replicate 4 0)%list.
  - plays ([0; 0; 0] ++ replicate 7 1 ++ replicate 4 0)%list.
  - plays (replicate 11 0 ++ replicate 10 1 ++ replicate 15 0 ++ replicate 11 1)%list.
  - plays ([0; 0; 0; 0] ++ replicate 22 1 ++ replicate 3 0)%list.
  - plays ([0; 0; 0; 0] ++ replicate 4 1 ++ replicate 3 0)%list.
Qed.

(** ** Witnesses: calls on a new [mem.FS] *)
Definition mixed_calls : list call :=
  [CMkdir "a" 511; CMkdirAll "a/b/c" 511; CRemove "a"; COpenFile "a/f" create_flag 438].
Definition making_calls : list call :=
  [CMkdir "a" 511; CMkdirAll "a/b/c" 511; CMkdir "a" 511; COpenFile "a/f" create_flag 438].
Definition unrelated_calls : list call :=
  [CMkdir "a" 511; CMkdirAll "b/c" 511; CRemove "d"; COpenFile "f" create_flag 438].

Ltac calls_ok := repeat constructor; unfold short; vm_compute; (reflexivity || discriminate).


Lemma rooted_root now : rooted (root_nodes now).
Proof.
  intros p [n Hn] Hd. unfold root_nodes in Hn. apply lookup_singleton_Some in Hn as [<- _]. done.
Qed.


(** Which paths the calls look at and touch, where the root is all there is. *)
Lemma unrelated_apart v : cnodes v = root_nodes 1 -> apart_calls unrelated_calls v.
Proof.
  intros Hv i j ci cj p Hij Hi Hj. rewrite Hv.
  assert (E1 : ancestors "b/c" = ["b/c"; "b"; "."]) by (vm_compute; reflexivity).
  assert (E2 : spec_missing (root_nodes 1) ["b/c"; "b"; "."] = inl ["b/c"; "b"]) by (vm_compute; reflexivity).
  assert (D : Dir "a" = "." /\ Dir "f" = "." /\ Dir "b/c" = "b" /\ Dir "b" = ".") by (vm_compute; auto).
  destruct D as (D1 & D2 & D3 & D4).
  destruct i as [|[|[|[|i]]]]; simpl in Hi; try done; destruct j as [|[|[|[|j]]]]; simpl in Hj; try done;
    injection Hi as <-; injection Hj as <-; unfold touches, looks, target; rewrite ?E1, ?E2, ?D1, ?D2, ?elem_of_cons;
    try set_unfold; rewrite ?elem_of_nil; intuition (subst; try congruence);
    match goal with H : Dir _ = _ |- _ => by vm_compute in H end.
Qed.

