(* ===== verification/TopCalls.v ===== *)
(** * Calls about a name in the root, that nobody else touches

    While the other goroutines leave a name in the root and the root itself
    alone, a call about that name answers as the node there says. *)
From S2P Require Import Prelude.
From S2P Require Import Paths.
From S2P Require Import Errors.
From S2P Require Import Modes.
From S2P Require Import Blob.
From S2P Require Import BlobSpec.
From S2P Require Import Record.
From S2P Require Import Txn.
From S2P Require Import KVFile.
From S2P Require Import KVFS.
From S2P Require Import StoreSpec.
From S2P Require Import FSSpec.
From S2P Require Import TreeFS.
From S2P Require Import TreeOps.
From S2P Require Import FileSpec.
From S2P Require Import FileIO.
From S2P Require Import Conc.
From S2P Require Import Prog.
From S2P Require Import KVProg.
From S2P Require Import KVConc.
From S2P Require Import KVConcThms.

Local Open Scope string_scope.

(** A name in the root. *)
Definition top (name : string) : Prop := ValidPath name = true /\ name <> "." /\ Dir name = ".".

Lemma top_ancestors name : top name -> ancestors name = [name; "."].
Proof. intros (Hv & Hd & Hp). rewrite ancestors_cons, Hp by done. reflexivity. Qed.

Section calls.
Context {ST R T : Type} `{!RecordOps ST R, !Store ST R T, !GoRuntime, !LawfulStore ST R T}.
Notation W := (world ST).
Context (i : nat) (E : effect) (Rel : cview -> cview -> Prop) (name : string) (Hname : top name).
Context (HR : forall v v', Rel v v' -> keeps (fun j => j <> i) v v').
Context (Hrel : forall v v', Rel v v' ->
  cnodes v' !! name = cnodes v !! name /\ cnodes v' !! "." = cnodes v !! ".").
Notation safe := (safe (at_view (ST := ST) (R := R) (T := T)) Rel (changes i E)).
Notation stable := (stable Rel).

(** What is at the name, and that the root is a directory. *)
Definition at_name (phi : option node -> Prop) (v : cview) : Prop :=
  phi (cnodes v !! name) /\ exists n, cnodes v !! "." = Some n /\ IsDir (n_mode n) = true.
Definition missing (x : option node) : Prop := x = None.
Definition a_directory (x : option node) : Prop := exists n, x = Some n /\ IsDir (n_mode n) = true.
Definition a_file (x : option node) : Prop := exists n, x = Some n /\ IsDir (n_mode n) = false.

Lemma stable_at_name phi : stable (at_name phi).
Proof. intros v v' [Hp Hr] [En Er]%Hrel. unfold at_name. by rewrite En, Er. Qed.
Hint Resolve stable_at_name : go_stable.

Lemma top_root phi v : at_name phi v -> is_Some (cnodes v !! Dir name).
Proof. destruct Hname as (_ & _ & ->). intros [_ (n & -> & _)]. by eexists. Qed.
Lemma at_name_inserted (phi : option node -> Prop) nd v v' psi :
  at_name psi v -> inserts i E name nd v v' -> phi (Some nd) -> at_name phi v'.
Proof.
  destruct Hname as (_ & Hd & _). intros [_ Hr] [_ En] Hphi. unfold at_name.
  rewrite En, lookup_insert_eq, lookup_insert_ne by done. done.
Qed.

(** The call returns [e] and leaves [phi] at the name. *)
Definition answers (e0 : err) (phi : option node -> Prop) (e : err) (v : cview) : Prop :=
  e = e0 /\ at_name phi v.
Lemma stable_answers e0 phi e : stable (answers e0 phi e).
Proof. unfold answers. auto with go_stable. Qed.
Hint Resolve stable_answers : go_stable.

(** Whatever may be put there. *)
Section makes.
Context (HE : forall v nd, E v name nd).

Lemma Mkdir_missing perm :
  safe (answers None a_directory) 7 (at_name missing) (Mkdir_p name perm).
Proof.
  destruct Hname as (Hv & Hd & Hp).
  apply (Mkdir_safe i E Rel name perm _ (at_name missing) (at_name missing)); auto with go_stable.
  - intros v _ Hv'. congruence.
  - intros v [-> _] _ [? [=]].
  - intros v Hr _ _ En. apply top_root in Hr as [? Er]. congruence.
  - intros v v' now Hr Hi. split; [done|]. eapply at_name_inserted; [done..|].
    eexists. split; [done|apply IsDir_newDir].
Qed.
Lemma Mkdir_there phi perm :
  (forall x, phi x -> is_Some x) ->
  safe (answers (Some (PathError "mkdir" name ErrExist)) phi) 7 (at_name phi) (Mkdir_p name perm).
Proof.
  clear HE. intros Hphi. destruct Hname as (Hv & Hd & Hp).
  apply (Mkdir_safe i E Rel name perm _ (fun _ => False) (fun _ => False)); auto with go_stable; try done.
  - intros v _ Hv'. congruence.
  - intros v [[? En]%Hphi _] _ En'. congruence.
Qed.

Lemma MkdirAll_missing perm :
  safe (answers None a_directory) 12 (at_name missing) (MkdirAll_p name perm).
Proof.
  destruct Hname as (Hv & Hd & Hp).
  assert (Hlen : length (elems name) <= 1).
  { pose proof (length_ancestors name) as Hl. rewrite top_ancestors in Hl by done. simpl in Hl. lia. }
  apply (safe_post _ _ _ (answers None a_directory) _ (2 + 5 * S (length (elems name)))); [lia|done|].
  set (P1 (ns : list string) v := match ns with
    | [p] => p = name /\ at_name missing v
    | [] => at_name a_directory v
    | _ => False end).
  apply (MkdirAll_safe i E Rel name perm _ P1); auto with go_stable.
  - unfold short. lia.
  - intros [|p [|q ns]]; unfold P1; auto with go_stable.
  - intros v _ Hv'. congruence.
  - intros v e Hr _. rewrite top_ancestors by done. destruct Hr as [En (n & Er & Hn)]. simpl.
    by rewrite En, Er, Hn.
  - intros v ps Hr _. rewrite top_ancestors by done. pose proof Hr as [En (n & Er & Hn)]. simpl.
    rewrite En, Er, Hn. by intros [= <-].
  - intros p [|q ns] v now; [|done]. by intros [-> _].
  - intros p [|q ns] v v' now; [|done]. intros [-> Hr] Hi. eapply at_name_inserted; [done..|].
    eexists. split; [done|apply IsDir_newDir].
  - intros v Hr. by split.
Qed.
Lemma MkdirAll_there perm :
  safe (answers None a_directory) 12 (at_name a_directory) (MkdirAll_p name perm).
Proof.
  clear HE. destruct Hname as (Hv & Hd & Hp).
  assert (Hlen : length (elems name) <= 1).
  { pose proof (length_ancestors name) as Hl. rewrite top_ancestors in Hl by done. simpl in Hl. lia. }
  apply (safe_post _ _ _ (answers None a_directory) _ (2 + 5 * S (length (elems name)))); [lia|done|].
  set (P1 (ns : list string) v := ns = [] /\ at_name a_directory v).
  assert (Hseen : forall v, at_name a_directory v -> spec_missing (cnodes v) (ancestors name) = inl []).
  { intros v [(n & En & Hn) _]. rewrite top_ancestors by done. simpl. by rewrite En, Hn. }
  apply (MkdirAll_safe i E Rel name perm _ P1); unfold P1; auto with go_stable; try (by intros ???? []).
  - unfold short. lia.
  - intros v _ Hv'. congruence.
  - intros v e Hr _. by rewrite Hseen.
  - intros v ps Hr _. rewrite Hseen by done. by intros [= <-].
  - intros p ns v v' now [? _]. done.
  - intros v [_ Hr]. by split.
Qed.

Lemma Remove_file : safe (answers None missing) 4 (at_name a_file) (Remove_p name).
Proof.
  destruct Hname as (Hv & Hd & Hp).
  set (P1 n v := IsDir (n_mode n) = false /\ at_name a_file v).
  apply (Remove_safe i E Rel name _ P1 (at_name a_file)); unfold P1; auto with go_stable.
  - intros v _ Hv'. congruence.
  - intros v [(n & En & _) _] _ En'. congruence.
  - intros v n Hr _ En. split; [|done]. destruct Hr as [(n' & En' & ?) _]. congruence.
  - intros v n [Hn _] Hn'. congruence.
  - by intros v n [_ Hr] _.
  - intros v v' [_ Hr] _ En. split; [done|]. unfold at_name. rewrite En, lookup_delete_eq, lookup_delete_ne by done.
    by split.
Qed.
End makes.

Lemma Remove_missing :
  safe (answers (Some (PathError "remove" name (missing_err name))) missing) 4 (at_name missing) (Remove_p name).
Proof.
  destruct Hname as (Hv & Hd & Hp).
  apply (Remove_safe i E Rel name _ (fun _ _ => False) (fun _ => False)); auto with go_stable; try done.
  - intros v _ Hv'. congruence.
  - intros v n [En _] _ En'. unfold missing in *. congruence.
Qed.

(** Opening: with truncation, while no file has contents. *)
Definition empty_at phi (v : cview) : Prop := at_name phi v /\ all_empty (cv_heap v).
Lemma stable_empty_at phi : stable (empty_at phi).
Proof.
  intros v v' [Hr He] Hv. split; [by eapply stable_at_name|]. by apply (kp_empty _ _ _ (HR v v' Hv)).
Qed.
Hint Resolve stable_empty_at : go_stable.

Lemma OpenFile_file flag perm :
  safe (opens flag (fun e v => e = None /\ empty_at a_file v)) 10 (empty_at a_file) (OpenFile_p name flag perm).
Proof.
  destruct Hname as (Hv & Hd & Hp).
  set (P1 n v := IsDir (n_mode n) = false /\ empty_at a_file v).
  apply (OpenFile_safe i E Rel HR name flag perm _ P1 (fun _ => False)); unfold P1; auto with go_stable; try done;
    try (by intros v v' []).
  - by intros v [_ He] _.
  - intros v _ Hv'. congruence.
  - intros v n Hr _ En. split; [|done]. destruct Hr as [[(n' & En' & ?) _] _]. congruence.
  - intros v n [Hn _]. by rewrite Hn.
  - intros v n [Hn Hr] _. split; [|done]. unfold open_result. by rewrite Hn, andb_false_r.
  - intros v [[(n & En & _) _] _] _ En'. congruence.
  - intros v [[(n & En & _) _] _] _ En'. congruence.
  - intros v [[(n & En & _) _] _] _ En'. congruence.
Qed.

Lemma OpenFile_missing flag perm :
  (forall v nd, E v name nd) -> has_flag flag FlagCreate = true ->
  safe (opens flag (fun e v => e = None /\ empty_at a_file v)) 10 (empty_at missing) (OpenFile_p name flag perm).
Proof.
  intros HE Hcr. destruct Hname as (Hv & Hd & Hp).
  apply (OpenFile_safe i E Rel HR name flag perm _ (fun _ _ => False) (empty_at missing)); auto with go_stable; try done.
  - intros v v' [[En Hr] He] [Hk _] Hn. unfold empty_at, at_name. rewrite Hn. split; [done|]. by apply (kp_empty _ _ _ Hk).
  - by intros v [_ He] _.
  - intros v _ Hv'. congruence.
  - intros v n [[En _] _] _ En'. unfold missing in *. congruence.
  - intros v _ _ _ Hc. congruence.
  - intros v [Hr _] _ _ _ En. apply top_root in Hr as [? Er]. congruence.
  - intros v v' now [Hr He] Hi. split; [done|]. split.
    + eapply at_name_inserted; [done..|]. eexists. split; [done|apply IsDir_perm].
    + by apply (kp_empty _ _ _ (proj1 (proj1 Hi))).
Qed.
End calls.
