(* ===== verification/FSTestConc.v ===== *)
(** * The tests with goroutines ([fs_concurrent.go], [file_concurrent.go])

    A task of these tests is a call of the file system and assertions about what
    it returned.  Goroutines run their tasks side by side: a file system under
    test gives the atomic steps of its calls ([Steps]), an assertion is a step of
    its own, and a scheduler picks who is next. *)
From S2P Require Import Prelude.
From S2P Require Import Paths.
From S2P Require Import Errors.
From S2P Require Import Modes.
From S2P Require Import Blob.
From S2P Require Import HackFS.
From S2P Require Import Testing.
From S2P Require Import FSTest.
From S2P Require Import FSTestFS.
From S2P Require Import FSTestFile.
From S2P Require Import Conc.
From S2P Require Import Prog.
From S2P Require Import Sched.
From stdpp Require Import pretty.

Local Open Scope string_scope.

(** The helpers of [hackpadfs] that the tasks call, in steps, and the methods of
    files.  The goroutine that opened a file is the only one that has it: what
    the file keeps is a variable of the goroutine. *)
Class Steps (U : Type) := {
  ofile : Type;
  step_Open : FS -> string -> prog U (option ofile * err);
  step_OpenFile : FS -> string -> Z -> Z -> prog U (option ofile * err);
  step_Create : FS -> string -> prog U (option ofile * err);
  step_Mkdir : FS -> string -> Z -> prog U err;
  step_MkdirAll : FS -> string -> Z -> prog U err;
  step_Remove : FS -> string -> prog U err;
  step_Close : ofile -> prog U (err * ofile);
  step_Read : ofile -> Z -> prog U (list byte * err * ofile);
  step_WriteFile : ofile -> list byte -> prog U (Z * err * ofile);
  step_Stat : ofile -> prog U (option FileInfo * err * ofile)
}.

(** A goroutine that is left by [Goexit] is over; other panics are those of the
    program. *)
Fixpoint goroutine {S} (p : prog S unit) : prog S unit :=
  match p with
  | Done _ => Done tt
  | Atomic m => Atomic (fun s =>
      match m s with
      | (Ret p, s') => (Ret (goroutine p), s')
      | (Panic why, s') => if String.eqb why goexit then (Ret (Done tt), s') else (Panic why, s')
      | (Blocked, s') => (Blocked, s')
      | (OutOfFuel, s') => (OutOfFuel, s')
      end)
  end.

Definition psys {U A} (p : prog U A) : prog (suite U) A :=
  pzoom s_sys (fun u s => MkSuite u (s_tests s) (s_log s) (s_skips s)) p.

Section tests.
Context {U : Type} `{!Env U, !GoRuntime, !Steps U, !Scheduler}.
Notation TM := (M (suite U)).
Notation task := (prog (suite U) unit).
Notation Options := (FSOptions U).
Implicit Types (tb : TB) (fs : FS) (o : Options).

Definition defaultConcurrentTasks : nat := 10.

(** [concurrentTasks]: the wait group is waited for until all have returned. *)
Definition concurrentTasks (count : nat) (run : nat -> task) : TM unit :=
  let count := if (count =? 0)%nat then defaultConcurrentTasks else count in
  alone (run 0) ;;;
  run_all pick sched_fuel 0 ((fun i => goroutine (run i)) <$> seq 1 (count - 1)) ;;; ret tt.

(** ** Tasks *)
Definition p_NoError tb (e : err) : prog (suite U) bool := atomic (assert.NoError tb e).
Definition p_Equal {A} `{EqDecision A} tb (x y : A) : prog (suite U) bool :=
  atomic (assert.Equal tb x y).
Definition p_skipNotImplemented tb (e : err) : task := atomic (skipNotImplemented tb e).

(** The methods of a file that may be [nil]. *)
Definition on_open {A} (f : option ofile) (m : ofile -> prog U (A * ofile)) :
    prog (suite U) (A * option ofile) :=
  match f with
  | Some f => let~ (a, f) := psys (m f) in Done (a, Some f)
  | None => atomic (panic "invalid memory address or nil pointer dereference")
  end.

Definition close_open tb (f : option ofile) : task :=
  let~ (e, _) := on_open f step_Close in _ <~ p_NoError tb e ;; Done tt.

(** Open a file, which may have to be skipped, and close it. *)
Definition open_task tb (open : prog U (option ofile * err)) : task :=
  let~ (f, e) := psys open in
  _ <~ p_skipNotImplemented tb e ;;
  ok <~ p_NoError tb e ;;
  if (ok : bool) then close_open tb f else Done tt.

Definition err_task tb (call : prog U err) (expect : err -> prog (suite U) bool) : task :=
  e <~ psys call ;;
  _ <~ p_skipNotImplemented tb e ;;
  _ <~ expect e ;; Done tt.
(** [err == nil || errors.Is(err, kind)] *)
Definition nil_or tb (kind : error) (e : err) : prog (suite U) bool :=
  p_Equal tb true (bool_decide (e = None) || errors_Is e kind).

(** [fmt.Sprintf("foo-%d", i)] *)
Definition foo_i (i : nat) : string := "foo-" +:+ pretty i.

(** Prepare the file system under test. *)
Definition under_test o tb (prepare : FS -> TM unit) : TM FS :=
  let* (setupFS, commit) := Setup_FS o tb in prepare setupFS ;;; commit.
Definition nothing : FS -> TM unit := fun _ => ret tt.
Fixpoint for_each (is_ : list nat) (body : nat -> TM unit) : TM unit :=
  match is_ with
  | [] => ret tt
  | i :: is_ => body i ;;; for_each is_ body
  end.

(** ** [fs_concurrent.go] *)
Definition create_flags : Z := Z.lor FlagReadWrite (Z.lor FlagCreate FlagTruncate).

Definition TestConcurrentCreate tb o : TM unit :=
  tbRun o tb "same file path" (fun tb =>
    fs <- under_test o tb nothing ;;
    concurrentTasks 0 (fun _ => open_task tb (step_Create fs "foo"))) ;;;
  tbRun o tb "different file paths" (fun tb =>
    fs <- under_test o tb nothing ;;
    concurrentTasks 0 (fun i => open_task tb (step_Create fs (foo_i i)))).

Definition TestConcurrentOpenFileCreate tb o : TM unit :=
  tbRun o tb "same file path" (fun tb =>
    fs <- under_test o tb nothing ;;
    concurrentTasks 0 (fun _ => open_task tb (step_OpenFile fs "foo" create_flags (octal "666")))) ;;;
  tbRun o tb "different file paths" (fun tb =>
    fs <- under_test o tb nothing ;;
    concurrentTasks 0 (fun i =>
      open_task tb (step_OpenFile fs (foo_i i) create_flags (octal "666")))).

Definition TestConcurrentRemove tb o : TM unit :=
  tbRun o tb "same file path" (fun tb =>
    fs <- under_test o tb (fun setupFS => create_file tb setupFS "foo") ;;
    concurrentTasks 0 (fun _ => err_task tb (step_Remove fs "foo") (nil_or tb ErrNotExist))) ;;;
  tbRun o tb "different file paths" (fun tb =>
    let fileCount := defaultConcurrentTasks in
    fs <- under_test o tb (fun setupFS =>
            for_each (seq 0 fileCount) (fun i => create_file tb setupFS (foo_i i))) ;;
    concurrentTasks fileCount (fun i => err_task tb (step_Remove fs (foo_i i)) (p_NoError tb))).

Definition TestConcurrentMkdir tb o : TM unit :=
  tbRun o tb "same file path" (fun tb =>
    fs <- under_test o tb nothing ;;
    concurrentTasks 0 (fun _ =>
      err_task tb (step_Mkdir fs "foo" (octal "777")) (nil_or tb ErrExist))) ;;;
  tbRun o tb "different file paths" (fun tb =>
    fs <- under_test o tb nothing ;;
    concurrentTasks 0 (fun i =>
      err_task tb (step_Mkdir fs (foo_i i) (octal "777")) (p_NoError tb))).

Definition TestConcurrentMkdirAll tb o : TM unit :=
  tbRun o tb "same file path" (fun tb =>
    fs <- under_test o tb nothing ;;
    concurrentTasks 0 (fun _ =>
      err_task tb (step_MkdirAll fs "foo" (octal "777")) (p_NoError tb))) ;;;
  tbRun o tb "different file paths" (fun tb =>
    fs <- under_test o tb nothing ;;
    concurrentTasks 0 (fun i =>
      err_task tb (step_MkdirAll fs (foo_i i) (octal "777")) (p_NoError tb))).

(** ** [file_concurrent.go] *)
Definition read_task tb fs (name : string) : task :=
  let~ (f, e) := psys (step_Open fs name) in
  ok <~ p_NoError tb e ;;
  if (ok : bool) then
    let~ (p, e, f) := on_open f (fun f => step_Read f 5) in
    _ <~ p_Equal tb 5 (length p) ;;
    _ <~ p_NoError tb e ;;
    _ <~ p_Equal tb (bytes_of "hello") (buffer 5 p) ;;
    close_open tb f
  else Done tt.

Definition TestConcurrentFileRead tb o : TM unit :=
  tbRun o tb "same file path" (fun tb =>
    fs <- under_test o tb (fun setupFS => write_full tb setupFS "foo" "hello world") ;;
    concurrentTasks 0 (fun _ => read_task tb fs "foo")) ;;;
  tbRun o tb "different file paths" (fun tb =>
    let fileCount := 10 in
    fs <- under_test o tb (fun setupFS =>
            for_each (seq 0 fileCount) (fun i => write_full tb setupFS (foo_i i) "hello world")) ;;
    concurrentTasks fileCount (fun i => read_task tb fs (foo_i i))).

Definition write_task tb fs (name : string) : task :=
  let~ (f, e) := psys (step_OpenFile fs name FlagWriteOnly 0) in
  _ <~ p_skipNotImplemented tb e ;;
  let~ (n, e, f) := on_open f (fun f => step_WriteFile f (bytes_of "hello")) in
  _ <~ p_skipNotImplemented tb e ;;
  _ <~ p_Equal tb 5%Z n ;;
  _ <~ p_NoError tb e ;;
  close_open tb f.

Definition TestConcurrentFileWrite tb o : TM unit :=
  tbRun o tb "same file path" (fun tb =>
    fs <- under_test o tb (fun setupFS => create_file tb setupFS "foo") ;;
    concurrentTasks 0 (fun _ => write_task tb fs "foo")) ;;;
  tbRun o tb "different file paths" (fun tb =>
    let fileCount := 10 in
    fs <- under_test o tb (fun setupFS =>
            for_each (seq 0 fileCount) (fun i => create_file tb setupFS (foo_i i))) ;;
    concurrentTasks fileCount (fun i => write_task tb fs (foo_i i))).

(** The mode is compared without the mask of the options. *)
Definition stat_task tb fs (name : string) : task :=
  let~ (f, e) := psys (step_Open fs name) in
  ok <~ p_NoError tb e ;;
  if (ok : bool) then
    let~ (info, e, f) := on_open f step_Stat in
    _ <~ p_NoError tb e ;;
    _ <~ p_Equal tb (MkQuickInfo name 0 (octal "666") false) (asQuickInfo info) ;;
    close_open tb f
  else Done tt.

Definition TestConcurrentFileStat tb o : TM unit :=
  fs <- under_test o tb (fun setupFS => create_file tb setupFS "foo") ;;
  concurrentTasks 0 (fun _ => stat_task tb fs "foo").

(** ** As [runFS] and [runFile] run them *)
Definition fs_concurrent : list (string * (TB -> Options -> TM unit)) :=
  [("fs_concurrent.Create", TestConcurrentCreate);
   ("fs_concurrent.OpenFileCreate", TestConcurrentOpenFileCreate);
   ("fs_concurrent.Mkdir", TestConcurrentMkdir);
   ("fs_concurrent.MkdirAll", TestConcurrentMkdirAll);
   ("fs_concurrent.Remove", TestConcurrentRemove)].
Definition file_concurrent : list (string * (TB -> Options -> TM unit)) :=
  [("file_concurrent.Read", TestConcurrentFileRead);
   ("file_concurrent.Write", TestConcurrentFileWrite);
   ("file_concurrent.Stat", TestConcurrentFileStat)].
End tests.
