(* ===== verification/MemSteps.v ===== *)
(** * Calls of memory file systems in steps

    The instance of [Steps] for [mem.FS]: the calls of [KVProg] on one of the
    memory file systems of a [universe].  Run alone they are the helpers of
    [HackFS] on the methods of [MemHack]. *)
From S2P Require Import Prelude.
From S2P Require Import Paths.
From S2P Require Import Errors.
From S2P Require Import Modes.
From S2P Require Import Blob.
From S2P Require Import Record.
From S2P Require Import Txn.
From S2P Require Import KVFile.
From S2P Require Import KVFS.
From S2P Require Import Mem.
From S2P Require Import HackFS.
From S2P Require Import Mount.
From S2P Require Import MemHack.
From S2P Require Import Testing.
From S2P Require Import FSTest.
From S2P Require Import Conc.
From S2P Require Import Prog.
From S2P Require Import KVProg.
From S2P Require Import FSTestConc.

Local Open Scope string_scope.

Section steps.
Context `{!GoRuntime}.
Notation MW := (world store).
Notation F := (KVFile.file store fileRecord).
Notation W := (hworld universe).

Definition put_system (n : nat) (w : MW) (u : W) : W :=
  MkWorld (tables u) (MkUniverse (<[n := w]> (systems (user u))) (files (user u))
                        (wrapped (user u)) (u_now (user u))).

(** Steps on the [n]-th memory file system. *)
Fixpoint on_system_p {A} (n : nat) (p : prog MW A) : prog W A :=
  match p with
  | Done a => Done a
  | Atomic m => Atomic (fun u =>
      match systems (user u) !! n with
      | None => nil_deref u
      | Some w => let '(r, w') := m w in (map_outcome (on_system_p n) r, put_system n w' u)
      end)
  end.

(** [mem.FS] is [Other (2 * n)]; no other file system is run in steps. *)
Definition on_mem {A} (fs : FS) (p : prog MW A) : prog W A :=
  match fs with
  | Other m => if Nat.even m then on_system_p (Nat.div2 m) p else atomic (panic "not a memory file system")
  | _ => atomic (panic "not a memory file system")
  end.

(** The file of one goroutine, with the system it is on. *)
Record mem_file := MkMemFile { mf_fs : nat; mf_kind : access; mf_file : F }.

Definition opened_p (fs : FS) (p : prog MW (option (handle store fileRecord) * err)) :
    prog W (option mem_file * err) :=
  let~ (h, e) := on_mem fs p in
  Done (match fs, h with
        | Other m, Some h => Some (MkMemFile (Nat.div2 m) (kind h) (underlying h))
        | _, _ => None
        end, e).

Definition on_mem_file {A} (f : mem_file) (p : prog (F * MW) A) : prog W (A * mem_file) :=
  let~ (a, x) := on_system_p (mf_fs f) (pvar (mf_file f) p) in
  Done (a, MkMemFile (mf_fs f) (mf_kind f) x).

(** [Read] into a new buffer, and what is in it then. *)
Definition Read_into_p (k : access) (len : Z) : prog (F * MW) (list byte * err) :=
  p <~ atomic (in_world (in_heap (make_zeros len))) ;;
  let~ (n, e) := match k with WriteOnlyFile => atomic (writeOnly_Read p) | _ => Read_p p end in
  data <~ atomic (in_world (in_heap (gets (fun h => read_slice h p)))) ;;
  Done (take (Z.to_nat n) data, e).

(** [hackpadfs.WriteFile]; a file without [Write] is asked for its name. *)
Definition WriteFile_p (k : access) (data : list byte) : prog (F * MW) (Z * err) :=
  if has_method k MWrite then
    p <~ atomic (in_world (in_heap (make_slice data))) ;; Write_p p
  else
    let~ (info, e) := atomic FileStat in
    Done (0%Z, match e with
               | Some e => Some e
               | None => Some (PathError "write" (info_Name info) ErrNotImplemented)
               end).

(** [Stat], and what the info says when it is asked. *)
Definition FileStat_p : prog (F * MW) (option FileInfo * err) :=
  let~ (info, e) := atomic FileStat in
  size <~ atomic (in_world (info_Size info)) ;;
  mode <~ atomic (in_world (info_Mode info)) ;;
  modTime <~ atomic (in_world (info_ModTime info)) ;;
  Done (Some (MkInfo (info_Name info) size mode modTime), e).

#[export] Instance mem_steps : Steps W := {|
  ofile := mem_file;
  step_Open fs name := opened_p fs (OpenFile_p name FlagReadOnly 0);
  step_OpenFile fs name flag perm := opened_p fs (OpenFile_p name flag perm);
  step_Create fs name :=
    opened_p fs (OpenFile_p name (Z.lor FlagReadWrite (Z.lor FlagCreate FlagTruncate)) 438);
  step_Mkdir fs name perm := on_mem fs (Mkdir_p name perm);
  step_MkdirAll fs name perm := on_mem fs (MkdirAll_p name perm);
  step_Remove fs name := on_mem fs (Remove_p name);
  step_Close f := on_mem_file f (atomic Close);
  step_Read f len := on_mem_file f (Read_into_p (mf_kind f) len);
  step_WriteFile f data := on_mem_file f (WriteFile_p (mf_kind f) data);
  step_Stat f := on_mem_file f FileStat_p
|}.
End steps.
