(* ===== verification/ConcLogic.v ===== *)
(** * How the concurrent tests are proved to pass

    A test that passes adds tests to the table of which none failed or was
    skipped ([passes]).  The rules of rely and guarantee are carried over from a
    memory file system to the suite that runs on it, where an assertion that
    holds is a step that changes nothing. *)
From S2P Require Import Prelude.
From S2P Require Import Paths.
From S2P Require Import Errors.
From S2P Require Import Modes.
From S2P Require Import Blob.
From S2P Require Import Record.
From S2P Require Import Txn.
From S2P Require Import KVFile.
From S2P Require Import KVFS.
From S2P Require Import StoreSpec.
From S2P Require Import FSSpec.
From S2P Require Import TreeFS.
From S2P Require Import TreeOps.
From S2P Require Import FileSpec.
From S2P Require Import FileIO.
From S2P Require Import Mem.
From S2P Require Import MemSpec.
From S2P Require Import HackFS.
From S2P Require Import Mount.
From S2P Require Import MemHack.
From S2P Require Import Testing.
From S2P Require Import FSTest.
From S2P Require Import FSTestFS.
From S2P Require Import FSTestFile.
From S2P Require Import Conc.
From S2P Require Import Prog.
From S2P Require Import Sched.
From S2P Require Import KVProg.
From S2P Require Import KVConc.
From S2P Require Import KVConcThms.
From S2P Require Import FSTestConc.
From S2P Require Import MemSteps.

Local Open Scope string_scope.

(** ** A goroutine by itself *)
Section alone.
Context {S V : Type} (rel : S -> V -> Prop) (R G : V -> V -> Prop).

(** What is safe among others is safe alone. *)
Lemma safe_alone {A} (Q : A -> V -> Prop) (J : V -> Prop) n P p s v :
  (forall v v', J v -> G v v' -> J v') ->
  safe rel R G Q n P p -> rel s v -> P v -> J v ->
  exists a s' v', alone p s = (Ret a, s') /\ rel s' v' /\ Q a v' /\ J v'.
Proof.
  intros HJ. revert P p s v. induction n as [|n IH]; intros P [a|m] s v [_ H] Hr Hv Hj; [|done|..].
  1, 2: exists a, s, v; auto.
  destruct (H s v Hr Hv) as (p & s' & v' & P' & E & Hr' & Hg & Hv' & Hs). simpl. rewrite E.
  apply (IH P' p s' v'); eauto.
Qed.

Lemma goroutine_safe (Q : unit -> V -> Prop) n P (p : prog S unit) :
  safe rel R G Q n P p -> safe rel R G Q n P (goroutine p).
Proof.
  revert P p. induction n as [|n IH]; intros P [[]|m] [Hst H]; [by split|done|by split|].
  split; [done|]. intros s v Hr Hv. destruct (H s v Hr Hv) as (p & s' & v' & P' & E & ? & ? & ? & Hs).
  exists (goroutine p), s', v', P'. rewrite E. split_and!; [done..|]. by apply IH.
Qed.
End alone.

(** ** Tests that pass *)
Section passes.
Context {U : Type} `{!Env U}.
Notation TM := (M (suite U)).
Implicit Types (s : suite U) (tb : TB) (t : test U) (ts : list (test U)) (o : FSOptions U).

Definition quiet t : Prop := t_failed t = false /\ t_skipped t = false.

(** [k] tests were added, and none of them failed or was skipped. *)
Definition grows (k : nat) s s' : Prop :=
  s_skips s' = s_skips s /\
  exists ts, s_tests s' = (s_tests s ++ ts)%list /\ Forall quiet ts /\ length ts = k.

Lemma grows_none s : grows 0 s s.
Proof. split; [done|]. exists []. by rewrite app_nil_r. Qed.
Lemma grows_trans k k' s1 s2 s3 : grows k s1 s2 -> grows k' s2 s3 -> grows (k + k') s1 s3.
Proof.
  intros [E1 (ts1 & T1 & Q1 & L1)] [E2 (ts2 & T2 & Q2 & L2)]. split; [congruence|].
  exists (ts1 ++ ts2)%list. rewrite T2, T1, app_assoc, length_app. split_and!; [done|by apply Forall_app|lia].
Qed.

(** A test that [tb] runs. *)
Definition under tb s : Prop :=
  exists t, s_tests s !! tb = Some t /\ t_isT t = true /\ t_skipped t = false.
Lemma under_grows tb k s s' : under tb s -> grows k s s' -> under tb s'.
Proof.
  intros (t & Ht & HT) [_ (ts & E & _)]. exists t. split; [|done]. rewrite E. by apply lookup_app_l_Some.
Qed.
Definition passes (k : nat) tb (m : TM unit) : Prop :=
  forall s, under tb s -> exists s', m s = (Ret tt, s') /\ grows k s s'.

Lemma passes_seq k k' tb m m' : passes k tb m -> passes k' tb m' -> passes (k + k') tb (m ;;; m').
Proof.
  intros H H' s Hu. destruct (H s Hu) as (s1 & E1 & G1).
  destruct (H' s1 (under_grows _ _ _ _ Hu G1)) as (s2 & E2 & G2).
  exists s2. split; [by run E1|by eapply grows_trans].
Qed.

Lemma get_test_run tb s t : s_tests s !! tb = Some t -> get_test tb s = (Ret t, s).
Proof. intros Ht. unfold get_test. rewrite bind_gets. by rewrite Ht. Qed.
Lemma run_cleanups_none tb s t :
  s_tests s !! tb = Some t -> t_cleanups t = [] -> run_cleanups tb s = (Ret tt, s).
Proof. intros Ht Hc. unfold run_cleanups. run (get_test_run tb s t Ht). by rewrite Hc. Qed.

(** The test [tb] is run to its end. *)
Definition finish tb s : suite U :=
  MkSuite (s_sys s) (alter set_finished tb (s_tests s)) (s_log s) (s_skips s).
Lemma tRunner_run tb (fn : TM unit) s s' t :
  fn s = (Ret tt, s') -> s_tests s' !! tb = Some t -> t_cleanups t = [] ->
  tRunner tb fn s = (Ret tt, finish tb s').
Proof.
  intros E Ht Hc. unfold tRunner.
  assert (Er : exited (deferred (run_cleanups tb) fn) s = (Ret false, s')).
  { unfold exited, deferred. rewrite E. by run (run_cleanups_none _ s' t Ht Hc). }
  by run Er.
Qed.

(** The state in which a test starts that [p], the test [parent], runs. *)
Definition started (p : test U) parent name s : suite U :=
  MkSuite (s_sys s) (s_tests s ++ [MkTest (t_name p +:+ "/" +:+ rewrite_name name) (Some parent) true
                                     false false false []])%list (s_log s) (s_skips s).
Lemma tbRun_run o parent name (subtest : TB -> TM unit) s p s' t (tb := length (s_tests s)) :
  ShouldSkip o = Some (fun _ => false) -> s_tests s !! parent = Some p -> t_isT p = true ->
  subtest tb (started p parent name s) = (Ret tt, s') ->
  s_tests s' !! tb = Some t -> t_cleanups t = [] -> t_skipped t = false ->
  tbRun o parent name subtest s = (Ret tt, finish tb s').
Proof.
  intros Ho Hp HT E Ht Hc Hs. unfold tbRun, T_Run. run (get_test_run parent s p Hp). rewrite HT.
  run (get_test_run parent s p Hp). rewrite bind_gets. unfold upd_tests. rewrite bind_modify. fold tb.
  change (tRunner tb (tbRunInner o tb subtest) (started p parent name s) = (Ret tt, finish tb s')).
  apply (tRunner_run tb _ _ s' t); [|done|done].
  assert (Hst : s_tests (started p parent name s) !! tb = Some (MkTest (t_name p +:+ "/" +:+ rewrite_name name)
    (Some parent) true false false false [])) by by apply list_lookup_middle.
  assert (Es : tb_Skipped tb s' = (Ret false, s')).
  { unfold tb_Skipped. run (get_test_run tb s' t Ht). by rewrite Hs. }
  unfold tbRunInner, tb_Name. rewrite bind_assoc. run (get_test_run tb _ _ Hst). go_simpl.
  unfold deferred. rewrite Ho. simpl. rewrite E, bind_assoc. by run Es.
Qed.

(** A test that passes, with its subtests. *)
Lemma tbRun_passes k o tb name (subtest : TB -> TM unit) :
  ShouldSkip o = Some (fun _ => false) ->
  (forall tb, passes k tb (subtest tb)) -> passes (S k) tb (tbRun o tb name subtest).
Proof.
  intros Ho Hsub s (p & Hp & HT & _). set (n := length (s_tests s)).
  destruct (Hsub n (started p tb name s)) as (s' & E & Hk & ts & Ets & Hts & Hl).
  { eexists. split; [by apply list_lookup_middle|done]. }
  simpl in Ets. rewrite <- app_assoc in Ets. simpl in Ets.
  exists (finish n s'). split.
  { eapply (tbRun_run o tb name subtest s p s'); [done|done|done|exact E| |..].
    - rewrite Ets. by apply list_lookup_middle.
    - done.
    - done. }
  split; [done|]. eexists (_ :: ts). simpl. rewrite Ets, alter_app_r_alt, Nat.sub_diag by done.
  split_and!; [done|by constructor|lia].
Qed.
End passes.

(** ** From a memory file system to the suite *)
Section lift.
Context `{!GoRuntime}.
Notation MW := (world store).
Notation U := (hworld universe).
Notation TM := (M (suite U)).
Context {V : Type} (at_ : MW -> V -> Prop).
Implicit Types (P : V -> Prop) (n : nat) (s : suite U).

(** The [n]-th memory file system has the view [v]; and the tests are [ts] and
    the skips [sk]. *)
Definition has_view n (u : U) (v : V) : Prop :=
  exists w, systems (user u) !! n = Some w /\ at_ w v.
Definition calm_at n (ts : list (test U)) (sk : list (gmap string unit)) s (v : V) : Prop :=
  (s_tests s = ts /\ s_skips s = sk) /\ has_view n (s_sys s) v.

Lemma calm_grows n s s' v : calm_at n (s_tests s) (s_skips s) s' v -> grows 0 s s'.
Proof. intros [[Ht Hk] _]. split; [done|]. exists []. by rewrite app_nil_r. Qed.

Context (n : nat) (ts : list (test U)) (sk : list (gmap string unit)) (Rel G : V -> V -> Prop).
Context (HG : forall w v, at_ w v -> G v v).
Notation safe_u := (safe (has_view n) Rel (G)).
Notation safe := (safe (calm_at n ts sk) Rel (G)).

Lemma on_system_safe {A} (Q : A -> V -> Prop) k P (p : prog MW A) :
  Prog.safe at_ Rel G Q k P p -> safe_u Q k P (on_system_p n p).
Proof.
  revert P p. induction k as [|k IH]; intros P [a|m] [Hst Hp]; [by split|done|by split|].
  split; [done|]. intros u v (w & Hw & Hv) HP.
  destruct (Hp w v Hv HP) as (p & w' & v' & P' & Em & Hv' & Hg & HP' & Hs).
  exists (on_system_p n p), (put_system n w' u), v', P'. simpl. rewrite Hw, Em. split_and!; [done| |done|done|by apply IH].
  exists w'. split; [|done]. by apply list_lookup_insert_eq, lookup_lt_Some with w.
Qed.
Lemma on_mem_safe {A} (Q : A -> V -> Prop) k P (p : prog MW A) :
  Prog.safe at_ Rel G Q k P p -> safe_u Q k P (on_mem (Other (2 * n)) p).
Proof.
  intros Hp. unfold on_mem. rewrite Nat.even_even, Nat.div2_double. by apply on_system_safe.
Qed.

Lemma psys_safe {A} (Q : A -> V -> Prop) k P (p : prog U A) :
  safe_u Q k P p -> safe Q k P (psys p).
Proof.
  revert P p. induction k as [|k IH]; intros P [a|m] [Hst Hp]; [by split|done|by split|].
  split; [done|]. intros s v [[Ht Hk] Hv] HP.
  destruct (Hp (s_sys s) v Hv HP) as (p & u' & v' & P' & Em & Hv' & Hg & HP' & Hs).
  exists (psys p), (MkSuite u' (s_tests s) (s_log s) (s_skips s)), v', P'. simpl. rewrite Em.
  split_and!; [done|by split|done|done|by apply IH].
Qed.

(** A step that changes nothing: an assertion that holds, for one. *)
Lemma holds_then {A B} (Q : B -> V -> Prop) k P (m : TM A) a (h : A -> prog (suite U) B) :
  stable Rel P -> (forall s, m s = (Ret a, s)) -> safe Q k P (h a) ->
  safe Q (S k) P (pbind (atomic m) h).
Proof.
  intros HP Hm Hh. split; [done|]. intros s v Hs Hv. exists (h a), s, v, P. split_and!; [|done| |done|done].
  - unfold atomic, bind, pbind. simpl. by rewrite Hm.
  - destruct Hs as (_ & w & _ & Hw). by apply (HG w).
Qed.

(** ** Tasks *)
Context `{!Env U, !Scheduler}.
Notation fs := (Other (2 * n)).

Lemma skip_nothing tb e s : errors_Is e ErrNotImplemented = false -> skipNotImplemented tb e s = (Ret tt, s).
Proof. intros He. unfold skipNotImplemented. by rewrite He. Qed.

(** The call returns an error that the test expects. *)
Lemma err_task_safe tb k P Q (call : prog MW err) (expect : err -> TM bool) (good : err -> Prop) :
  stable Rel Q -> Prog.safe at_ Rel G (fun e v => good e /\ Q v) k P call ->
  (forall e, good e -> errors_Is e ErrNotImplemented = false /\ forall s, expect e s = (Ret true, s)) ->
  safe (fun _ => Q) (k + 2) P (err_task tb (on_mem fs call) (fun e => atomic (expect e))).
Proof.
  intros HQ Hcall Hgood. apply (psafe_bind _ _ _ (fun e v => good e /\ Q v) (fun _ => Q) k 2).
  { by apply psys_safe, on_mem_safe. }
  intros e. apply safe_assume; [auto with go_stable|]. intros [Hn He]%Hgood.
  apply (holds_then _ 1 Q _ tt); [done|intros s; by apply skip_nothing|].
  apply (holds_then _ 0 Q _ true); [done|done|]. by apply (safe_done _ _ _ (fun _ => Q)).
Qed.

(** The call opens a file, and [Close] closes it. *)
Lemma Close_open (fd : fileData store fileRecord) off fl (w : MW) :
  Close (opened_file fd off fl, w) = (Ret None, (KVFile.MkFile None off fl, w)).
Proof. done. Qed.

Lemma close_task_safe tb P (f : mem_file) flag :
  stable Rel P -> mf_fs f = n -> (exists fd off, mf_file f = opened_file fd off flag) ->
  safe (fun _ => P) 2 P (close_open tb (Some f)).
Proof.
  intros HP Hn (fd & off & Hf). unfold close_open.
  apply (psafe_bind _ _ _ (fun r v => r.1 = None /\ P v) (fun _ => P) 1 1).
  - apply (psafe_bind _ _ _ (fun r v => r.1 = None /\ P v) _ 1 0).
    + apply psys_safe. apply (psafe_bind _ _ _ (fun r v => r.1 = None /\ P v) _ 1 0).
      * rewrite Hn, Hf. apply on_system_safe.
        apply (var_atomic_safe at_ Rel G HG); [done|auto with go_stable|]. intros w v Hw Hv.
        exists None, (KVFile.MkFile None off flag), w. by split_and!.
      * intros [a x]. by apply safe_done; [auto with go_stable|].
    + intros [a x]. by apply safe_done; [auto with go_stable|].
  - intros [e f']. cbn [fst]. apply safe_assume; [auto with go_stable|]. intros ->.
    apply (holds_then _ 0 P _ true); [done|done|]. by apply (safe_done _ _ _ (fun _ => P)).
Qed.

(** A file that was opened, and calls of its methods. *)
Lemma opened_safe (X : fileData store fileRecord -> Prop) kd flag k P Q
    (call : prog MW (option (handle store fileRecord) * err)) :
  stable Rel Q ->
  Prog.safe at_ Rel G (fun r v => Q v /\ exists fd, r = (Some (MkHandle kd (opened_file fd 0 flag)), None) /\ X fd)
    k P call ->
  safe (fun r v => (exists fd, r = (Some (MkMemFile n kd (opened_file fd 0 flag)), None) /\ X fd) /\ Q v)
    k P (psys (opened_p fs call)).
Proof.
  intros HQ Hcall. apply psys_safe. rewrite <- (Nat.add_0_r k). eapply psafe_bind; [by apply on_mem_safe|].
  intros [h e]. apply safe_done; [auto with go_stable|]. intros v [Hv (fd & [= -> ->] & Hfd)].
  split; [|done]. exists fd. split; [|done]. cbn [kind underlying]. by rewrite Nat.div2_double.
Qed.

Lemma on_open_then {A B} (Q1 : A * file store fileRecord -> V -> Prop) (Q : B -> V -> Prop) k k' P f p
    (h : A * option mem_file -> prog (suite U) B) :
  mf_fs f = n -> (forall r, stable Rel (Q1 r)) -> Prog.safe at_ Rel G Q1 k P (pvar (mf_file f) p) ->
  (forall a f', safe Q (S k') (Q1 (a, f')) (h (a, Some (MkMemFile n (mf_kind f) f')))) ->
  safe Q (k + S k') P (pbind (on_open (Some f) (fun f => on_mem_file f p)) h).
Proof.
  intros Hn HQ1 Hp Hh.
  apply (psafe_bind _ _ _ (fun r v => exists f', r.2 = Some (MkMemFile n (mf_kind f) f') /\ Q1 (r.1, f') v)).
  - unfold on_open. rewrite <- (Nat.add_0_r k).
    apply (psafe_bind _ _ _ (fun r v => exists f', r.2 = MkMemFile n (mf_kind f) f' /\ Q1 (r.1, f') v) _ k 0).
    + apply psys_safe. unfold on_mem_file. rewrite Hn, <- (Nat.add_0_r k).
      eapply (psafe_bind _ _ _ Q1 _ k 0); [by apply on_system_safe|].
      intros [a f']. apply safe_done; [apply HQ1|]. intros v Hv. by exists f'.
    + intros [a f']. apply safe_done; [apply stable_ex; intros; auto with go_stable|].
      intros v (f2 & Ef & Hv). cbn [snd] in Ef. subst f'. by exists f2.
  - intros [a f']. cbn [fst snd]. apply safe_ex; [auto with go_stable|]. intros f2.
    apply safe_assume; [auto with go_stable|]. intros ->. apply Hh.
Qed.

Lemma open_task_safe tb k P Q (call : prog MW (option (handle store fileRecord) * err)) flag :
  stable Rel Q ->
  Prog.safe at_ Rel G (opens flag (fun e v => e = None /\ Q v)) k P call ->
  safe (fun _ => Q) (k + 4) P (open_task tb (opened_p fs call)).
Proof.
  intros HQ Hcall.
  set (is_file (r : option mem_file * err) := r.2 = None /\ exists f, r.1 = Some f /\ mf_fs f = n /\
         exists fd off, mf_file f = opened_file fd off flag).
  apply (psafe_bind _ _ _ (fun r v => is_file r /\ Q v) (fun _ => Q) k 4).
  { apply psys_safe. rewrite <- (Nat.add_0_r k).
    apply (psafe_bind _ _ _ (opens flag (fun e v => e = None /\ Q v)) _ k 0); [by apply on_mem_safe|].
    intros [h e]. apply safe_done; [unfold opens; auto with go_stable|].
    intros v [Hh [He Hv]]. simpl in *. destruct (Hh He) as (h' & -> & _ & fd & Hfd).
    split; [|done]. split; [done|]. eexists. split; [done|]. simpl.
    split; [exact (Nat.div2_double n)|by exists fd, 0%Z]. }
  intros [f e]. apply safe_assume; [auto with go_stable|]. intros [He (f' & Hf & Hn & Hfd)]. simpl in He, Hf. subst e f.
  apply (holds_then _ 3 Q _ tt); [done|done|]. apply (holds_then _ 2 Q _ true); [done|done|].
  by apply close_task_safe with flag.
Qed.
End lift.

(** ** The table of open files *)
Section handles.
Context `{!GoRuntime} (n : nat).
Notation U := (hworld universe).
Implicit Types (u : U) (w : world store) (h : handle store fileRecord).

(** The [i]-th file is [h], on the [n]-th system, which is [w]. *)
Definition has_open i h w u : Prop := systems (user u) !! n = Some w /\ files (user u) !! i = Some (n, h).

Lemma on_system_run {A} (m : M (world store) A) u w a w' :
  systems (user u) !! n = Some w -> m w = (Ret a, w') ->
  on_system n m u = (Ret a, put_system n w' u) /\ systems (user (put_system n w' u)) !! n = Some w'.
Proof.
  intros Hw E. unfold on_system. rewrite Hw, E. split; [done|].
  by apply list_lookup_insert_eq, lookup_lt_Some with w.
Qed.
Lemma new_handle_run h u w :
  systems (user u) !! n = Some w ->
  exists i u', new_handle n (Some h, None) u = (Ret (Some (as_file i (kind h)), None), u') /\ has_open i h w u'.
Proof.
  intros Hw. exists (length (files (user u))). eexists. split; [reflexivity|]. split; [done|].
  by apply (list_lookup_middle _ []).
Qed.
Lemma on_handle_run {A} (m : M (file store fileRecord * world store) A) i h u w a f' w' :
  has_open i h w u -> m (underlying h, w) = (Ret a, (f', w')) ->
  exists u', on_handle i m u = (Ret a, u') /\ has_open i (MkHandle (kind h) f') w' u'.
Proof.
  intros [Hw Hi] E. eexists. unfold on_handle. rewrite Hi, Hw, E. split; [done|].
  split; simpl; eapply list_lookup_insert_eq, lookup_lt_Some; eassumption.
Qed.
Lemma close_run i h fd off flag u w :
  has_open i h w u -> underlying h = opened_file fd off flag ->
  exists u', f_Close (as_file i (kind h)) u = (Ret None, u') /\ systems (user u') !! n = Some w.
Proof.
  intros Ho Hh. destruct (on_handle_run Close i h u w None (KVFile.MkFile None off flag) w Ho) as (u' & E & Hw & _).
  { by rewrite Hh. }
  by exists u'.
Qed.
End handles.

(** ** [concurrentTasks] *)
Section concurrent.
Context `{!GoRuntime, !Env (hworld universe), !Scheduler}.
Notation U := (hworld universe).
Implicit Types (s : suite U).

(** Task 0 runs alone, and then every other task in a goroutine of its own:
    goroutine [j] runs task [S j].  What the state stands for may be told in
    another way after task 0. *)
Lemma concurrentTasks_rule {V V'} (rel : suite U -> V -> Prop) (rel' : suite U -> V' -> Prop)
    (G0 : V -> V -> Prop) (R G : nat -> V' -> V' -> Prop) K count (run : nat -> prog (suite U) unit)
    (P0 Q0 J : V -> Prop) (P : nat -> V' -> Prop) s v
    (tasks := (if (count =? 0)%nat then defaultConcurrentTasks else count) - 1) :
  rel s v -> P0 v -> J v -> (forall v v', J v -> G0 v v' -> J v') ->
  Prog.safe rel (fun _ _ => False) G0 (fun _ => Q0) K P0 (run 0) ->
  (forall s v, rel s v -> Q0 v -> J v -> exists v', rel' s v' /\ forall j, j < tasks -> P j v') ->
  (forall i j v v', i <> j -> G i v v' -> R j v v') ->
  (forall j, j < tasks -> Prog.safe rel' (R j) (G j) (fun _ _ => True) K (P j) (run (S j))) ->
  K * tasks <= sched_fuel ->
  exists s' v', concurrentTasks count run s = (Ret tt, s') /\ rel' s' v'.
Proof.
  intros Hs HP0 HJ HJ' Hrun HPj HGR Htask Hfuel.
  destruct (safe_alone _ _ _ _ J K P0 (run 0) s v HJ' Hrun Hs HP0 HJ) as ([] & s1 & v0 & E1 & Hs0 & HQ & HJ1).
  destruct (HPj s1 v0 Hs0 HQ HJ1) as (v1 & Hs1 & HP).
  set (ps := (fun i => goroutine (run i)) <$> seq 1 tasks).
  assert (Hlen : length ps = tasks) by (unfold ps; by rewrite length_fmap, length_seq).
  assert (Hpar : in_every_interleaving rel' (K * length ps) (fun _ => True)
    (fun rs v => length rs = length ps /\ forall i (a : unit), rs !! i = Some a -> True) ps s1).
  { apply (parallel_rule rel' R G (fun _ _ _ => True) (fun _ => True) (fun j v => j < tasks -> P j v) K ps s1 v1);
      try done.
    intros j p Hp. apply list_lookup_fmap_Some in Hp as (i & -> & [-> Hj]%lookup_seq).
      apply (safe_pre _ _ _ _ _ (P j)); [|by auto|by apply goroutine_safe, Htask].
      intros w w' HPw Hr _. by apply (safe_stable _ _ _ _ _ _ _ (Htask j Hj) w); [apply HPw|]. }
  rewrite Hlen in Hpar.
  destruct (run_all_rule rel' (K * tasks) _ _ ps s1 pick sched_fuel 0 Hpar Hfuel)
    as (rs & s2 & v2 & E2 & Hs2 & _). exists s2, v2. split; [|done].
  unfold concurrentTasks. fold tasks. run E1. fold ps. by run E2.
Qed.

Notation calm := (calm_at (at_view (R := fileRecord) (T := Mem.transaction))).

(** The same with one view, where goroutine [j] changes what [E j] says. *)
Lemma concurrentTasks_safe n ts sk (E0 : effect) (E : nat -> effect) K count
    (run : nat -> prog (suite U) unit) (P0 Q0 J : cview -> Prop) (P : nat -> cview -> Prop) s v
    (tasks := (if (count =? 0)%nat then defaultConcurrentTasks else count) - 1) :
  calm n ts sk s v -> P0 v -> J v -> (forall v v', J v -> changes 0 E0 v v' -> J v') ->
  safe (calm n ts sk) (fun _ _ => False) (changes 0 E0) (fun _ => Q0) K P0 (run 0) ->
  (forall v' j, j < tasks -> Q0 v' -> J v' -> P j v') ->
  (forall j, j < tasks ->
     safe (calm n ts sk) (others_change j E) (changes j (E j)) (fun _ _ => True) K (P j) (run (S j))) ->
  K * tasks <= sched_fuel ->
  exists s' v', concurrentTasks count run s = (Ret tt, s') /\ calm n ts sk s' v'.
Proof.
  intros Hs HP0 HJ HJ' Hrun HPj.
  apply (concurrentTasks_rule (calm n ts sk) (calm n ts sk) (changes 0 E0) (fun j => others_change j E) (fun j => changes j (E j)) K count run
    P0 Q0 J P s v); [done..| |].
  - intros s1 v1 Hs1 HQ HJ1. exists v1. split; [done|]. auto.
  - intros i j w w' Hij Hc. by apply (changes_others E i).
Qed.
End concurrent.
