(* ===== verification/ConcConform.v ===== *)
(** * [mem.FS] passes the concurrent tests, whoever the scheduler picks

    The tests of [fs_concurrent.go] on a memory file system: whatever the
    schedule, none of them fails or is skipped. *)
From stdpp Require Import pretty.
From S2P Require Import Prelude.
From S2P Require Import Paths.
From S2P Require Import Errors.
From S2P Require Import Modes.
From S2P Require Import Blob.
From S2P Require Import BlobSpec.
From S2P Require Import Record.
From S2P Require Import Txn.
From S2P Require Import KVFile.
From S2P Require Import KVFS.
From S2P Require Import StoreSpec.
From S2P Require Import FSSpec.
From S2P Require Import TreeFS.
From S2P Require Import TreeOps.
From S2P Require Import FileSpec.
From S2P Require Import FileIO.
From S2P Require Import Mem.
From S2P Require Import MemSpec.
From S2P Require Import KVThms.
From S2P Require Import HackFS.
From S2P Require Import Mount.
From S2P Require Import MemHack.
From S2P Require Import Testing.
From S2P Require Import FSTest.
From S2P Require Import FSTestFS.
From S2P Require Import FSTestFile.
From S2P Require Import Conform.
From S2P Require Import Conc.
From S2P Require Import Prog.
From S2P Require Import Sched.
From S2P Require Import KVProg.
From S2P Require Import KVConc.
From S2P Require Import KVConcThms.
From S2P Require Import TopCalls.
From S2P Require Import FSTestConc.
From S2P Require Import MemSteps.
From S2P Require Import ConcLogic.

Local Open Scope string_scope.
#[local] Existing Instance simple_runtime.
#[local] Hint Resolve stable_at_name stable_empty_at : go_stable.

Notation MW := (world store).
Notation calm := (calm_at (at_view (R := fileRecord) (T := Mem.transaction))).
Implicit Types (s : suite W) (v : cview) (n : nat) (tb : TB).

(** ** Preparing a memory file system *)

(** Nobody else is there. *)
Definition nobody (v v' : cview) : Prop := False.

Definition fresh (v : cview) : Prop :=
  (exists nd, cnodes v = {["." := nd]} /\ IsDir (n_mode nd) = true) /\ all_empty (cv_heap v).

Lemma fresh_top v name : top name -> fresh v -> empty_at name missing v.
Proof.
  intros (_ & Hd & _) [(nd & En & Hn) He]. split; [|done]. unfold at_name, missing. rewrite En.
  split; [by apply lookup_singleton_ne|]. exists nd. split; [apply lookup_singleton_eq|done].
Qed.

Lemma mem_NewFS_fresh t :
  exists w v, FS_NewFS (new_world t) = (Ret None, w) /\ at_view (R := fileRecord) (T := transaction) w v /\ fresh v.
Proof.
  set (v0 := MkView ∅ (w_heap (new_world t)) ∅).
  assert (Hv0 : at_view (R := fileRecord) (T := transaction) (new_world t) v0).
  { split; [split; first [apply wf_empty_heap|done]|done|]. intros l i Hl. simpl in Hl. by rewrite lookup_empty in Hl. }
  assert (He0 : all_empty (cv_heap v0)) by (intros l [b Hb]; simpl in Hb; by rewrite lookup_empty in Hb).
  set (Q (e : err) v := e = None /\ exists nd, cnodes v = {["." := nd]} /\ IsDir (n_mode nd) = true).
  assert (Hs : safe at_view nobody (changes 0 (fun _ _ _ => True)) Q 7 (fun v => cnodes v = ∅)
                 (Mkdir_p (ST := store) (R := fileRecord) (T := transaction) "." 438)).
  { apply Mkdir_safe with (P1 := fun v => cnodes v = ∅) (P2 := fun v => cnodes v = ∅); try done;
      try (by intros w w' _ []).
    - intros v -> _ [? Hx]. by rewrite lookup_empty in Hx.
    - intros v v' now Hv [_ Hi]. split; [done|]. rewrite Hi, Hv. eexists. split; [done|apply IsDir_newDir]. }
  destruct (safe_alone _ _ _ _ (fun v => all_empty (cv_heap v)) _ _ _ _ v0
              (fun v v' He Hc => kp_empty _ _ _ (proj1 Hc) He) Hs Hv0) as (e & w & v & E & Hw & [-> Hn] & He);
    [apply fmap_empty|done|].
  exists w, v. split_and!; [|done|by split]. 
  assert (E' : FS_Mkdir "." 438 (new_world t) = (Ret None, w))
    by exact (eq_trans (eq_sym (Mkdir_p_like (T := transaction) "." 438 (new_world t))) E).
  exact (eq_trans (bind_Ret _ _ _ _ _ E') eq_refl).
Qed.

(** [mem_TestFS], and the set-up that the options get from it. *)
Definition set_up (mask : Z) (l : nat) : FSOptions W :=
  MkOptions "mem" (Some mem_TestFS)
    (Some (fun tb => not_nil (Some mem_TestFS) (fun testFS => fs <- testFS tb ;; ret (fs, ret fs))))
    (MkConstraints mask false) (Some (fun _ => false)) l.

Lemma mem_TestFS_run tb s :
  exists n s' v, mem_TestFS tb s = (Ret (Other (2 * n)), s') /\
    calm n (s_tests s) (s_skips s) s' v /\ fresh v.
Proof.
  set (u := s_sys s). set (n := length (systems (user u))). destruct (mem_NewFS_fresh (u_now (user u))) as (w & v & E & Hw & Hf).
  set (u1 := MkWorld (tables u) (MkUniverse (systems (user u) ++ [new_world (u_now (user u))])%list (files (user u))
               (wrapped (user u)) (u_now (user u))) : W).
  assert (Hn : systems (user u1) !! n = Some (new_world (u_now (user u)))).
  { change (systems (user u1)) with (systems (user u) ++ [new_world (u_now (user u))])%list. by rewrite (list_lookup_middle _ []). }
  exists n, (MkSuite (put_system n w u1) (s_tests s) (s_log s) (s_skips s)), v. split; [|split; [split; [split; reflexivity|]|exact Hf]].
  - assert (Es : sys mem_NewFS s =
      (Ret (Other (2 * n), None), MkSuite (put_system n w u1) (s_tests s) (s_log s) (s_skips s))).
    { unfold sys, zoom, mem_NewFS, upd_user. fold u. rewrite bind_gets. fold n. rewrite bind_modify. fold u1.
      assert (Eo : on_system n FS_NewFS u1 = (Ret None, put_system n w u1)) by (unfold on_system; by rewrite Hn, E).
      by run Eo. }
    unfold mem_TestFS. run Es. done.
  - exists w. split; [|done]. by apply list_lookup_insert_eq, lookup_lt_Some with (new_world (u_now (user u))).
Qed.

Lemma under_test_run mask l tb (prepare : FS -> M (suite W) unit) n s s1 s' :
  mem_TestFS tb s = (Ret (Other (2 * n)), s1) -> prepare (Other (2 * n)) s1 = (Ret tt, s') ->
  under_test (set_up mask l) tb prepare s = (Ret (Other (2 * n)), s').
Proof.
  intros E Ep. unfold under_test, Setup_FS, set_up. cbn [Setup not_nil]. rewrite bind_assoc.
  run E. go_simpl. by run Ep.
Qed.

Lemma mem_methods n : env_methods (Other (2 * n)) = mem_ops 10 n.
Proof.
  change (env_methods (Other (2 * n))) with (other_ops chunk 10 (2 * n)).
  unfold other_ops; fold (other_ops chunk). by rewrite Nat.even_even, Nat.div2_double.
Qed.
Lemma Create_eq n name :
  HackFS.Create env_methods env_fuel (Other (2 * n)) name =
  (r <- on_system n (FS_OpenFile name create_flags 438) ;; new_handle n r).
Proof.
  unfold HackFS.Create. rewrite mem_methods. cbn [mem_ops fs_Create].
  change env_fuel with 20. unfold HackFS.OpenFile. cbn [forward Z.eqb].
  rewrite mem_methods. reflexivity.
Qed.

(** *** Running a call alone *)
Section sequential.
Context (n : nat) (ts : list (test W)) (sk : list (gmap string unit)).

Lemma sys_on_system {A} (Q : A -> cview -> Prop) (J P : cview -> Prop) k E (p : prog MW A) (m : M MW A) s v :
  calm n ts sk s v -> P v -> J v -> (forall v v', J v -> changes 0 E v v' -> J v') ->
  Prog.safe at_view nobody (changes 0 E) Q k P p -> like p m ->
  exists a u' v', on_system n m (s_sys s) = (Ret a, u') /\
    calm n ts sk (MkSuite u' (s_tests s) (s_log s) (s_skips s)) v' /\ Q a v' /\ J v'.
Proof.
  intros [[Ht Hk] (w & Hw & Hv)] HP HJ HJ' Hs Hm.
  destruct (safe_alone _ _ _ _ J k P p w v HJ' Hs Hv HP HJ) as (a & w' & v' & E' & Hv' & HQ & HJ1).
  rewrite Hm in E'. destruct (on_system_run n m (s_sys s) w a w' Hw E') as [Eu Hw'].
  exists a, (put_system n w' (s_sys s)), v'. split; [done|]. split; [|by split]. split; [by split|by exists w'].
Qed.

(** A handle that was opened, kept in the table of files, and closed. *)
Lemma open_and_close {V} (at_ : MW -> V -> Prop) tb h fd flag s (v : V) :
  calm_at at_ n ts sk s v -> underlying h = opened_file fd 0 flag ->
  exists s', bind (sys (new_handle n (Some h, None))) (fun r =>
      let '(f, e) := r in when (assert.NoError tb e) (close_file tb f)) s = (Ret tt, s') /\ calm_at at_ n ts sk s' v.
Proof.
  intros [[Ht Hk] (w & Hw & Hv)] Hh. destruct s as [u tests log skips]. simpl in *.
  destruct (new_handle_run n h u w Hw) as (i & u1 & E1 & Ho).
  destruct (close_run n i h fd 0 flag u1 w Ho Hh) as (u2 & E2 & Hw2).
  exists (MkSuite u2 tests log skips). split; [|split; [done|by exists w]].
  assert (Es1 : sys (new_handle n (Some h, None)) (MkSuite u tests log skips) =
    (Ret (Some (as_file i (kind h)), None), MkSuite u1 tests log skips)) by (unfold sys, zoom; cbn [s_sys]; by rewrite E1).
  assert (Es2 : hackpadfs.Close (Some (as_file i (kind h))) (MkSuite u1 tests log skips) =
    (Ret None, MkSuite u2 tests log skips)).
  { unfold hackpadfs.Close, hackpadfs.on_file, not_nil, sys, zoom. cbn [s_sys]. by rewrite E2. }
  run Es1. unfold when. cbn [assert.NoError assert.NoErrorArgs]. go_simpl. unfold close_file. by run Es2.
Qed.

(** Every other path is what it was. *)
Definition others_same name v v' : Prop := forall p, p <> name -> cnodes v' !! p = cnodes v !! p.
Definition only (name : string) : effect := fun _ p _ => p = name.
Lemma others_same_changes name i v v1 v2 :
  others_same name v v1 -> changes i (only name) v1 v2 -> others_same name v v2.
Proof. intros H [_ Hc] p Hp. rewrite <- (H p Hp). by destruct (Hc p) as [?|?]. Qed.

Lemma create_file_run tb name s v :
  top name -> calm n ts sk s v -> empty_at name missing v ->
  exists s' v', create_file tb (Other (2 * n)) name s = (Ret tt, s') /\
    calm n ts sk s' v' /\ empty_at name a_file v' /\ others_same name v v'.
Proof.
  intros Ht Hs Hv.
  destruct (sys_on_system (opens create_flags (fun e v => e = None /\ empty_at name a_file v))
    (others_same name v) (empty_at name missing) 10 (only name) (OpenFile_p name create_flags 438)
    (FS_OpenFile name create_flags 438) s v) as (r & u' & v' & E & Hs' & Hr & Hsame); try done.
  { intros v1 v2. apply others_same_changes. }
  { by apply OpenFile_missing. }
  { exact (OpenFile_p_like (T := transaction) name create_flags 438). }
  destruct r as [h e]. destruct Hr as [Hh [He Ha]]. cbn [fst snd] in Hh, He. subst e.
  destruct (Hh eq_refl) as (h' & -> & _ & fd & Hfd).
  destruct (open_and_close _ tb h' fd create_flags _ v' Hs' Hfd) as (s2 & E2 & Hs2).
  exists s2, v'. split; [|done]. unfold create_file.
  rewrite <- E2. unfold hackpadfs.Create. rewrite Create_eq. clear E2.
  unfold bind at 1, sys at 1, zoom at 1. rewrite (bind_Ret _ _ _ _ _ E). reflexivity.
Qed.
End sequential.

(** ** Tests whose goroutines all use one name, and whose use one each *)
Definition none : effect := fun _ _ _ => False.

(** What the others leave alone. *)
Definition frames i name (Rel : cview -> cview -> Prop) : Prop :=
  (forall v v', Rel v v' -> keeps (fun j => j <> i) v v') /\
  forall v v', Rel v v' -> cnodes v' !! name = cnodes v !! name /\ cnodes v' !! "." = cnodes v !! ".".

Lemma frames_none i name : frames i name (others_change i (fun _ => none)).
Proof.
  split; [by intros v v' []|]. intros v v' [_ Hc].
  split; [destruct (Hc name) as [?|(? & _ & [])]|destruct (Hc ".") as [?|(? & _ & [])]]; done.
Qed.
Lemma frames_nobody i name : frames i name nobody.
Proof. by split. Qed.

Lemma top_foo_i j : j < 10 -> top (foo_i j).
Proof.
  intros Hj. do 10 (destruct j as [|j]; [by vm_compute; split_and!|]). lia.
Qed.
Lemma foo_i_inj j k : foo_i j = foo_i k -> j = k.
Proof. unfold foo_i. intros E. injection E as E. by apply (inj pretty) in E. Qed.

Lemma frames_each j : j < 9 ->
  frames j (foo_i (S j)) (others_change j (fun k => if decide (k < 9) then only (foo_i (S k)) else none)).
Proof.
  intros Hj. split; [by intros v v' []|]. intros v v' [_ Hc]. split.
  - destruct (Hc (foo_i (S j))) as [?|(k & Hk & He)]; [done|]. destruct (decide (k < 9)); [|done].
    apply foo_i_inj in He. lia.
  - destruct (Hc ".") as [?|(k & Hk & He)]; [done|]. destruct (decide (k < 9)); [|done].
    destruct (top_foo_i (S k)) as (_ & Hd & _); [lia|]. by destruct Hd.
Qed.

Section tests.
Context `{!Scheduler} (mask : Z) (l : nat).
Notation o := (set_up mask l).
Notation fs_of n := (Other (2 * n)).

(** The file system under test is prepared, and the tasks are run. *)
Lemma body_passes tb prepare count (run : FS -> nat -> prog (suite W) unit) (E0 : effect) (E : nat -> effect) K
    (Pre Q0 J : cview -> Prop) (P : nat -> cview -> Prop)
    (tasks := (if (count =? 0)%nat then defaultConcurrentTasks else count) - 1) :
  (forall n ts sk s v, calm n ts sk s v -> fresh v ->
     exists s' v', prepare (fs_of n) s = (Ret tt, s') /\ calm n ts sk s' v' /\ Pre v' /\ J v') ->
  (forall v v', J v -> changes 0 E0 v v' -> J v') ->
  (forall n ts sk, safe (calm n ts sk) nobody (changes 0 E0) (fun _ => Q0) K Pre (run (fs_of n) 0)) ->
  (forall v j, j < tasks -> Q0 v -> J v -> P j v) ->
  (forall n ts sk j, j < tasks ->
     safe (calm n ts sk) (others_change j E) (changes j (E j)) (fun _ _ => True) K (P j) (run (fs_of n) (S j))) ->
  K * tasks <= sched_fuel ->
  passes 0 tb (fs <- under_test o tb prepare ;; concurrentTasks count (run fs)).
Proof.
  intros Hprep HJ H0 HQ Hj Hfuel s _. destruct (mem_TestFS_run tb s) as (n & s1 & v1 & E1 & Hs1 & Hf).
  destruct (Hprep n _ _ s1 v1 Hs1 Hf) as (s2 & v2 & E2 & Hs2 & Hpre & HJ2).
  destruct (concurrentTasks_safe n (s_tests s) (s_skips s) E0 E K count (run (fs_of n)) Pre Q0 J P s2 v2)
    as (s3 & v3 & E3 & Hs3); [exact Hs2|exact Hpre|exact HJ2|exact HJ|apply H0|auto|apply Hj|exact Hfuel|].
  exists s3. split; [|by apply (calm_grows at_view n s s3 v3)].
  by rewrite (bind_Ret _ _ _ _ _ (under_test_run mask l tb prepare n s s1 s2 E1 E2)).
Qed.

(** All goroutines use the name [foo]: the first call may change what is there,
    and no other does. *)
Lemma same_passes tb prepare (task : FS -> prog (suite W) unit) K (Pre Post : cview -> Prop) :
  (forall n ts sk s v, calm n ts sk s v -> fresh v ->
     exists s' v', prepare (fs_of n) s = (Ret tt, s') /\ calm n ts sk s' v' /\ Pre v') ->
  (forall n ts sk, safe (calm n ts sk) nobody (changes 0 (only "foo")) (fun _ => Post) K Pre (task (fs_of n))) ->
  (forall n ts sk j, safe (calm n ts sk) (others_change j (fun _ => none)) (changes j none) (fun _ => Post) K Post
     (task (fs_of n))) ->
  K * 9 <= sched_fuel ->
  passes 0 tb (fs <- under_test o tb prepare ;; concurrentTasks 0 (fun _ => task fs)).
Proof.
  intros Hprep H0 Hj Hfuel.
  apply (body_passes tb prepare 0 (fun fs _ => task fs) (only "foo") (fun _ => none) K Pre Post
    (fun _ => True) (fun _ => Post)); [|done|exact H0|done| |exact Hfuel].
  - intros n ts sk s v Hs Hf. destruct (Hprep n ts sk s v Hs Hf) as (s' & v' & ? & ? & ?). by exists s', v'.
  - intros n ts sk j _. by apply (safe_post _ _ _ (fun _ => Post) _ K).
Qed.

(** Each goroutine has a name of its own. *)
Lemma different_passes tb prepare count (task : FS -> string -> prog (suite W) unit) K
    (at_ : string -> cview -> Prop) :
  count = 0 \/ count = 10 ->
  (forall n ts sk s v, calm n ts sk s v -> fresh v ->
     exists s' v', prepare (fs_of n) s = (Ret tt, s') /\ calm n ts sk s' v' /\
       forall i, i < 10 -> at_ (foo_i i) v') ->
  (forall i name v v', top name -> name <> foo_i 0 -> at_ name v -> changes i (only (foo_i 0)) v v' -> at_ name v') ->
  (forall n ts sk i name Rel, frames i name Rel -> top name ->
     safe (calm n ts sk) Rel (changes i (only name)) (fun _ _ => True) K (at_ name) (task (fs_of n) name)) ->
  K * 9 <= sched_fuel ->
  passes 0 tb (fs <- under_test o tb prepare ;; concurrentTasks count (fun i => task fs (foo_i i))).
Proof.
  intros Hc Hprep Hat Htask Hfuel.
  assert (Htasks : (if (count =? 0)%nat then defaultConcurrentTasks else count) - 1 = 9) by by destruct Hc as [->| ->].
  apply (body_passes tb prepare count (fun fs i => task fs (foo_i i)) (only (foo_i 0))
    (fun k => if decide (k < 9) then only (foo_i (S k)) else none) K
    (at_ (foo_i 0)) (fun _ => True) (fun v => forall i, 0 < i < 10 -> at_ (foo_i i) v) (fun j => at_ (foo_i (S j))));
    rewrite ?Htasks; [| | | | |exact Hfuel].
  - intros n ts sk s v Hs Hf. destruct (Hprep n ts sk s v Hs Hf) as (s' & v' & ? & ? & Hall).
    exists s', v'. split_and!; [done|done|apply Hall; lia|]. intros i Hi. apply Hall. lia.
  - intros v v' HJ Hch i Hi. apply (Hat 0 (foo_i i) v v'); [apply top_foo_i; lia| |by apply HJ|done].
    intros Ei%foo_i_inj. lia.
  - intros n ts sk. apply Htask; [apply frames_nobody|apply top_foo_i; lia].
  - intros v j Hj _ HJ. apply HJ. lia.
  - intros n ts sk j Hj. rewrite decide_True by done.
    apply Htask; [by apply frames_each|apply top_foo_i; lia].
Qed.

Lemma at_name_only phi i name v v' :
  top name -> name <> foo_i 0 -> at_name name phi v -> changes i (only (foo_i 0)) v v' -> at_name name phi v'.
Proof.
  intros (_ & Hd & _) Hn [Hp Hr] [_ Hc]. unfold at_name.
  destruct (Hc name) as [->|?]; [|done]. destruct (Hc ".") as [->|Hdot]; [done|].
  destruct (top_foo_i 0) as (_ & Hd0 & _); [lia|]. by destruct Hd0.
Qed.
Lemma empty_at_only phi i name v v' :
  top name -> name <> foo_i 0 -> empty_at name phi v -> changes i (only (foo_i 0)) v v' -> empty_at name phi v'.
Proof.
  intros Ht Hn [Ha He] Hc. split; [by eapply at_name_only|]. by apply (kp_empty _ _ _ (proj1 Hc)).
Qed.

(** ** The tests of [fs_concurrent.go] *)
Context (Hfuel : 126 <= sched_fuel).

Lemma nothing_fresh (phi : cview -> Prop) :
  (forall v, fresh v -> phi v) -> forall n ts sk s v, calm n ts sk s v -> fresh v ->
  exists s' v', nothing (fs_of n) s = (Ret tt, s') /\ calm n ts sk s' v' /\ phi v'.
Proof. intros Hphi n ts sk s v Hs Hf. exists s, v. split_and!; [done|done|by apply Hphi]. Qed.

Lemma top_foo : top "foo".
Proof. by vm_compute; split_and!. Qed.

Section tasks.
Context (n : nat) (ts : list (test W)) (sk : list (gmap string unit)) (i : nat) (name : string)
  (Rel : cview -> cview -> Prop) (Hfr : frames i name Rel) (Ht : top name) (tb : TB).
Notation task E := (safe (calm n ts sk) Rel (changes i E)).
Notation P := (at_name name).

(** A call that returns [e0] and leaves [phi] at the name. *)
Lemma task_answers E (call : prog MW err) expect e0 K pre phi :
  Prog.safe (at_view (R := fileRecord) (T := transaction)) Rel (changes i E) (answers name e0 phi) K pre call ->
  errors_Is e0 ErrNotImplemented = false -> (forall s, expect e0 s = (Ret true, s)) ->
  task E (fun _ => P phi) (K + 2) pre (err_task tb (on_mem (fs_of n) call) (fun e => atomic (expect e))).
Proof.
  intros Hcall Hni He. destruct Hfr as [HR Hn].
  apply (err_task_safe at_view n ts sk Rel (changes i E) (changes_refl i E) tb K _ (P phi) _ expect (eq e0)).
  - by apply stable_at_name.
  - apply (safe_post _ _ _ (answers name e0 phi) _ K); [done|by intros e v [-> ?]|done].
  - by intros e <-.
Qed.

Lemma Mkdir_new perm kind_ : task (only name) (fun _ => P a_directory) 9 (P missing)
  (err_task tb (step_Mkdir (fs_of n) name perm) (nil_or tb kind_)).
Proof. destruct Hfr. apply (task_answers _ _ _ None 7); [|done|done]. by apply Mkdir_missing. Qed.
Lemma Mkdir_new' perm : task (only name) (fun _ => P a_directory) 9 (P missing)
  (err_task tb (step_Mkdir (fs_of n) name perm) (p_NoError tb)).
Proof. destruct Hfr. apply (task_answers _ _ _ None 7); [|done|done]. by apply Mkdir_missing. Qed.
Lemma Mkdir_old E perm : task E (fun _ => P a_directory) 9 (P a_directory)
  (err_task tb (step_Mkdir (fs_of n) name perm) (nil_or tb ErrExist)).
Proof.
  destruct Hfr. apply (task_answers _ _ _ (Some (PathError "mkdir" name ErrExist)) 7); [|done|done].
  apply Mkdir_there; [done..|]. by intros x (nd & -> & _).
Qed.
Lemma MkdirAll_new perm : task (only name) (fun _ => P a_directory) 14 (P missing)
  (err_task tb (step_MkdirAll (fs_of n) name perm) (p_NoError tb)).
Proof. destruct Hfr. apply (task_answers _ _ _ None 12); [|done|done]. by apply MkdirAll_missing. Qed.
Lemma MkdirAll_old E perm : task E (fun _ => P a_directory) 14 (P a_directory)
  (err_task tb (step_MkdirAll (fs_of n) name perm) (p_NoError tb)).
Proof. destruct Hfr. apply (task_answers _ _ _ None 12); [|done|done]. by apply MkdirAll_there. Qed.
Lemma Remove_new : task (only name) (fun _ => P missing) 6 (P a_file)
  (err_task tb (step_Remove (fs_of n) name) (nil_or tb ErrNotExist)).
Proof. destruct Hfr. apply (task_answers _ _ _ None 4); [|done|done]. by apply Remove_file. Qed.
Lemma Remove_new' : task (only name) (fun _ => P missing) 6 (P a_file)
  (err_task tb (step_Remove (fs_of n) name) (p_NoError tb)).
Proof. destruct Hfr. apply (task_answers _ _ _ None 4); [|done|done]. by apply Remove_file. Qed.
Lemma Remove_old E : task E (fun _ => P missing) 6 (P missing)
  (err_task tb (step_Remove (fs_of n) name) (nil_or tb ErrNotExist)).
Proof.
  destruct Hfr. apply (task_answers _ _ _ (Some (PathError "remove" name ErrNotExist)) 4); [|done|done].
  pose proof (Remove_missing (ST := store) (R := fileRecord) (T := transaction) i E Rel name) as Hr.
  change (missing_err name) with ErrNotExist in Hr. by apply Hr.
Qed.

Lemma Open_new : task (only name) (fun _ => empty_at name a_file) 14 (empty_at name missing)
  (open_task tb (opened_p (fs_of n) (OpenFile_p name create_flags 438))).
Proof.
  destruct Hfr. apply (open_task_safe at_view n ts sk Rel _ (changes_refl i _) tb 10 _ _ _ create_flags); [by eapply stable_empty_at|].
  by apply OpenFile_missing.
Qed.
Lemma Open_old E : task E (fun _ => empty_at name a_file) 14 (empty_at name a_file)
  (open_task tb (opened_p (fs_of n) (OpenFile_p name create_flags 438))).
Proof.
  destruct Hfr. apply (open_task_safe at_view n ts sk Rel _ (changes_refl i _) tb 10 _ _ _ create_flags); [by eapply stable_empty_at|].
  by apply OpenFile_file.
Qed.
End tasks.

(** Creating the files that are to be removed. *)
Lemma create_foo n ts sk s v tb :
  calm n ts sk s v -> fresh v ->
  exists s' v', create_file tb (fs_of n) "foo" s = (Ret tt, s') /\ calm n ts sk s' v' /\ at_name "foo" a_file v'.
Proof.
  intros Hs Hf. destruct (create_file_run n ts sk tb "foo" s v) as (s' & v' & ? & ? & [? _] & _);
    [apply top_foo|done|apply fresh_top; [apply top_foo|done]|]. by exists s', v'.
Qed.

Lemma for_each_snoc is_ i (body : nat -> M (suite W) unit) s s1 s2 :
  for_each is_ body s = (Ret tt, s1) -> body i s1 = (Ret tt, s2) ->
  for_each (is_ ++ [i])%list body s = (Ret tt, s2).
Proof.
  intros E1 E2. revert s E1. induction is_ as [|j is_ IH]; intros s; simpl.
  - intros [= ->]. by run E2.
  - intros ([] & s' & Ej & E)%bind_inv_Ret. run Ej. by apply IH.
Qed.
Lemma create_each n ts sk tb k s v :
  k <= 10 -> calm n ts sk s v -> fresh v ->
  exists s' v', for_each (seq 0 k) (fun i => create_file tb (fs_of n) (foo_i i)) s = (Ret tt, s') /\
    calm n ts sk s' v' /\ (forall i, i < k -> empty_at (foo_i i) a_file v') /\
    forall i, k <= i < 10 -> empty_at (foo_i i) missing v'.
Proof.
  induction k as [|k IH]; intros Hk Hs Hf.
  { exists s, v. split_and!; [done|done|lia|]. intros i Hi. apply fresh_top; [apply top_foo_i; lia|done]. }
  destruct IH as (s1 & v1 & E1 & Hs1 & Hold & Hnew); [lia|done..|].
  destruct (create_file_run n ts sk tb (foo_i k) s1 v1) as (s2 & v2 & E2 & Hs2 & Hk2 & Hsame);
    [apply top_foo_i; lia|done|apply Hnew; lia|].
  assert (Hkeep : forall i phi, i < 10 -> i <> k -> empty_at (foo_i i) phi v1 -> empty_at (foo_i i) phi v2).
  { intros i phi Hi Hik [[Hp Hr] _]. split; [|apply Hk2]. destruct (top_foo_i k) as (_ & Hd & _); [lia|].
    unfold at_name. rewrite !Hsame; [done|done|]. by intros ?%foo_i_inj. }
  exists s2, v2. split_and!; [|done| |].
  - rewrite seq_S. eapply for_each_snoc; [exact E1|exact E2].
  - intros i Hi. destruct (decide (i = k)) as [->|]; [done|]. apply Hkeep; [lia|done|apply Hold; lia].
  - intros i Hi. apply Hkeep; [lia|lia|apply Hnew; lia].
Qed.

(** *** The tests *)
Ltac two_subtests :=
  intros tb; apply (passes_seq 1 1); apply tbRun_passes; try done; clear tb; intros tb.
Ltac old_frames := intros; apply frames_none.

Lemma Create_passes tb : passes 2 tb (TestConcurrentCreate tb o).
Proof.
  revert tb. two_subtests.
  - apply (same_passes tb nothing (fun fs => open_task tb (step_Create fs "foo")) 14
      (empty_at "foo" missing) (empty_at "foo" a_file)); [| | |lia].
    + apply nothing_fresh. intros v. apply fresh_top, top_foo.
    + intros n ts sk. apply Open_new; [apply frames_nobody|apply top_foo].
    + intros n ts sk j. apply Open_old; [apply frames_none|apply top_foo].
  - apply (different_passes tb nothing 0 (fun fs name => open_task tb (step_Create fs name)) 14
      (fun name => empty_at name missing)); [by left| |apply empty_at_only| |lia].
    + apply nothing_fresh. intros v Hf i Hi. by apply fresh_top; [apply top_foo_i|].
    + intros n ts sk i name Rel Hfr Ht. eapply safe_post; [done| |by apply Open_new]. done.
Qed.

Lemma OpenFileCreate_passes tb : passes 2 tb (TestConcurrentOpenFileCreate tb o).
Proof. exact (Create_passes tb). Qed.

Lemma Mkdir_passes tb : passes 2 tb (TestConcurrentMkdir tb o).
Proof.
  revert tb. two_subtests.
  - apply (same_passes tb nothing
      (fun fs => err_task tb (step_Mkdir fs "foo" (octal "777")) (nil_or tb ErrExist)) 9
      (at_name "foo" missing) (at_name "foo" a_directory)); [| | |lia].
    + apply nothing_fresh. intros v Hf. by apply fresh_top; [apply top_foo|].
    + intros n ts sk. apply Mkdir_new; [apply frames_nobody|apply top_foo].
    + intros n ts sk j. apply Mkdir_old; [apply frames_none|apply top_foo].
  - apply (different_passes tb nothing 0
      (fun fs name => err_task tb (step_Mkdir fs name (octal "777")) (p_NoError tb)) 9
      (fun name => at_name name missing)); [by left| |apply at_name_only| |lia].
    + apply nothing_fresh. intros v Hf i Hi. by apply fresh_top; [apply top_foo_i|].
    + intros n ts sk i name Rel Hfr Ht. eapply safe_post; [done| |by apply Mkdir_new']. done.
Qed.

Lemma MkdirAll_passes tb : passes 2 tb (TestConcurrentMkdirAll tb o).
Proof.
  revert tb. two_subtests.
  - apply (same_passes tb nothing
      (fun fs => err_task tb (step_MkdirAll fs "foo" (octal "777")) (p_NoError tb)) 14
      (at_name "foo" missing) (at_name "foo" a_directory)); [| | |lia].
    + apply nothing_fresh. intros v Hf. by apply fresh_top; [apply top_foo|].
    + intros n ts sk. apply MkdirAll_new; [apply frames_nobody|apply top_foo].
    + intros n ts sk j. apply MkdirAll_old; [apply frames_none|apply top_foo].
  - apply (different_passes tb nothing 0
      (fun fs name => err_task tb (step_MkdirAll fs name (octal "777")) (p_NoError tb)) 14
      (fun name => at_name name missing)); [by left| |apply at_name_only| |lia].
    + apply nothing_fresh. intros v Hf i Hi. by apply fresh_top; [apply top_foo_i|].
    + intros n ts sk i name Rel Hfr Ht. eapply safe_post; [done| |by apply MkdirAll_new]. done.
Qed.

Lemma Remove_passes tb : passes 2 tb (TestConcurrentRemove tb o).
Proof.
  revert tb. two_subtests.
  - apply (same_passes tb (fun setupFS => create_file tb setupFS "foo")
      (fun fs => err_task tb (step_Remove fs "foo") (nil_or tb ErrNotExist)) 6
      (at_name "foo" a_file) (at_name "foo" missing)); [| | |lia].
    + intros n ts sk s v. apply create_foo.
    + intros n ts sk. apply Remove_new; [apply frames_nobody|apply top_foo].
    + intros n ts sk j. apply Remove_old; [apply frames_none|apply top_foo].
  - apply (different_passes tb (fun setupFS =>
        for_each (seq 0 defaultConcurrentTasks) (fun i => create_file tb setupFS (foo_i i))) 10
      (fun fs name => err_task tb (step_Remove fs name) (p_NoError tb)) 6
      (fun name => at_name name a_file)); [by right| |apply at_name_only| |lia].
    + intros n ts sk s v Hs Hf.
      destruct (create_each n ts sk tb 10 s v) as (s' & v' & ? & ? & Hall & _); [lia|done|done|].
      exists s', v'. split_and!; [done|done|]. intros i Hi. by apply Hall.
    + intros n ts sk i name Rel Hfr Ht. eapply safe_post; [done| |by apply Remove_new']. done.
Qed.

Lemma run_tasks_passes k tb (tasks : list (string * subtask)) :
  Forall (fun task => forall tb, passes k tb (task.2 tb o)) tasks ->
  passes (S k * length tasks) tb (run_tasks o tb tasks).
Proof.
  induction 1 as [|task tasks Ht _ IH]; cbn [length run_tasks].
  - rewrite Nat.mul_0_r. intros s _. exists s. split; [done|apply grows_none].
  - rewrite Nat.mul_succ_r, Nat.add_comm.
    apply (passes_seq (S k) (S k * length tasks)); [|exact IH]. by apply tbRun_passes.
Qed.
Lemma fs_concurrent_passes tb : passes 15 tb (run_tasks o tb fs_concurrent).
Proof.
  apply (run_tasks_passes 2 tb fs_concurrent). repeat constructor; simpl; intros tb'.
  - apply Create_passes.
  - apply OpenFileCreate_passes.
  - apply Mkdir_passes.
  - apply MkdirAll_passes.
  - apply Remove_passes.
Qed.
End tests.

(** ** The suite with its concurrent tests *)
Lemma run_tasks_app o tb a b s :
  run_tasks (U := W) o tb (a ++ b) s = (run_tasks o tb a ;;; run_tasks o tb b) s.
Proof.
  revert s. induction a as [|task a IH]; intros s; simpl; [done|].
  rewrite bind_assoc. apply bind_ext. intros []. apply IH.
Qed.

(** What a call of the suite returned, the failed tests, and how many there were. *)
Definition failed_tests s : list string := t_name <$> filter (fun t => t_failed t = true) (s_tests s).
Definition verdict_of (r : outcome (list string) * suite W) : option (list string * list string * nat) :=
  match r with
  | (Ret skipped, s) => Some (skipped, failed_tests s, length (s_tests s))
  | _ => None
  end.

(** The state after the sequential tests, as far as the verdict goes. *)
Definition so_far (r : outcome unit * suite W) : option (list string * list string * nat) :=
  match r with
  | (Ret _, s) =>
      match s_tests s !! 1, s_skips s !! 0 with
      | Some t, Some m =>
          if t_isT t && negb (t_skipped t) && match t_cleanups t with [] => true | _ => false end
          then Some ((range_order m).*1, failed_tests s, length (s_tests s)) else None
      | _, _ => None
      end
  | _ => None
  end.

(** The state in which [runFS] and [runFile] start. *)
Definition root_test : test W := MkTest "TestFS" None true false false false [].
Definition suite_start suffix : suite W :=
  started root_test 0 ("mem" +:+ suffix) (MkSuite (s_sys Conform.start) [root_test] [] [∅]).

Lemma failed_quiet (ts ts' : list (test W)) : Forall quiet ts' ->
  t_name <$> filter (fun t : test W => t_failed t = true) (ts ++ ts')%list =
  t_name <$> filter (fun t : test W => t_failed t = true) ts.
Proof.
  intros Hq. rewrite filter_app. enough (E : filter (fun t : test W => t_failed t = true) ts' = []) by
    by rewrite E, app_nil_r.
  induction Hq as [|t ts' [Ht _] _ IH]; [done|]. rewrite filter_cons_False; [done|]. by rewrite Ht.
Qed.
Lemma failed_finish tb (ts : list (test W)) :
  t_name <$> filter (fun t : test W => t_failed t = true) (alter set_finished tb ts) =
  t_name <$> filter (fun t : test W => t_failed t = true) ts.
Proof.
  revert tb. induction ts as [|t ts IH]; intros [|tb]; [done..| |]; simpl; unfold filter; simpl;
    repeat case_decide; csimpl; try done; try (f_equal; apply IH); apply IH.
Qed.

Lemma suite_with_concurrent mask suffix tests conc k skipped failed total :
  (forall l tb, passes k tb (run_tasks (set_up mask l) tb conc)) ->
  so_far (run_tasks (set_up mask 0) 1 tests (suite_start suffix)) = Some (skipped, failed, total) ->
  verdict_of (run_suite suffix (fun tb o => run_tasks o tb (tests ++ conc)%list) 0 (mem_options mask) Conform.start) =
    Some (skipped, failed, total + k).
Proof.
  intros Hc Hso. destruct (run_tasks (set_up mask 0) 1 tests (suite_start suffix)) as [[[]|?| |] s1] eqn:E1; try done.
  simpl in Hso. destruct (s_tests s1 !! 1) as [t|] eqn:Ht; [|done]. destruct (s_skips s1 !! 0) as [m|] eqn:Hm; [|done].
  destruct (t_isT t && negb (t_skipped t) && match t_cleanups t with [] => true | _ => false end) eqn:Hok; [|done].
  apply andb_prop in Hok as [[HT Hs%negb_true_iff]%andb_prop Hcl]. injection Hso as <- <- <-.
  destruct (Hc 0 1 s1) as (s2 & E2 & Hk & ts & Ets & Hts & Hl); [by exists t|].
  assert (Ht2 : s_tests s2 !! 1 = Some t) by (rewrite Ets; by apply lookup_app_l_Some).
  set (s0 := MkSuite (s_sys Conform.start) [root_test] [] [∅] : suite W).
  assert (Eb : tbRun (set_up mask 0) 0 ("mem" +:+ suffix)
      (fun tb => run_tasks (set_up mask 0) tb (tests ++ conc)%list) s0 = (Ret tt, finish 1 s2)).
  { apply (tbRun_run _ 0 _ _ s0 root_test s2 t); [done|done|done| |done|by destruct (t_cleanups t)|done].
    change (length (s_tests s0)) with 1. rewrite run_tasks_app. fold (suite_start suffix). by run E1. }
  assert (Er : run_suite suffix (fun tb o => run_tasks o tb (tests ++ conc)%list) 0 (mem_options mask) Conform.start =
    (Ret (range_order m).*1, finish 1 s2)).
  { change (bind (tbRun (set_up mask 0) 0 ("mem" +:+ suffix)
      (fun tb => run_tasks (set_up mask 0) tb (tests ++ conc)%list)) (fun _ => generateTestData (set_up mask 0)) s0 =
      (Ret (range_order m).*1, finish 1 s2)). rewrite (bind_Ret _ _ _ _ _ Eb).
    unfold generateTestData. rewrite bind_gets. change (s_skips (finish 1 s2)) with (s_skips s2).
    change (skippedTests (set_up mask 0)) with 0. by rewrite Hk, Hm. }
  rewrite Er. unfold verdict_of, failed_tests, finish. cbn [s_tests].
  rewrite failed_finish, Ets, failed_quiet, length_alter, length_app, Hl by done. reflexivity.
Qed.

(** The suite of file systems, with its tests that run goroutines. *)
Lemma fs_suite_passes `{!Scheduler} mask :
  mask = 0%Z \/ mask = ModePerm -> 126 <= sched_fuel ->
  verdict_of (FS_ fs_concurrent 0 (mem_options mask) Conform.start) = Some ([symlink_test "mem"], [], 104).
Proof.
  intros Hmask Hf.
  assert (Hso : so_far (run_tasks (set_up mask 0) 1 fs_tests (suite_start "_FS")) =
    Some ([symlink_test "mem"], [], 89)) by (destruct Hmask as [->| ->]; vm_compute; reflexivity).
  exact (suite_with_concurrent mask "_FS" fs_tests fs_concurrent 15 _ _ _
           (fun l tb => fs_concurrent_passes mask l Hf tb) Hso).
Qed.
