(* ===== verification/FileTasks.v ===== *)
(** * The tasks of [file_concurrent.go] among other goroutines

    A task opens a file of a memory file system, calls one of its methods, checks
    what it returned and closes the file: by the rules of [KVConcFile] every check
    holds, whatever the others do to files of their own. *)
From S2P Require Import Prelude.
From S2P Require Import Paths.
From S2P Require Import Errors.
From S2P Require Import Modes.
From S2P Require Import Blob.
From S2P Require Import BlobSpec.
From S2P Require Import Record.
From S2P Require Import Txn.
From S2P Require Import KVFile.
From S2P Require Import KVFS.
From S2P Require Import StoreSpec.
From S2P Require Import FSSpec.
From S2P Require Import TreeFS.
From S2P Require Import TreeOps.
From S2P Require Import FileSpec.
From S2P Require Import FileIO.
From S2P Require Import Mem.
From S2P Require Import MemSpec.
From S2P Require Import HackFS.
From S2P Require Import Mount.
From S2P Require Import MemHack.
From S2P Require Import Testing.
From S2P Require Import FSTest.
From S2P Require Import FSTestFS.
From S2P Require Import FSTestFile.
From S2P Require Import Conform.
From S2P Require Import Conc.
From S2P Require Import Prog.
From S2P Require Import Sched.
From S2P Require Import KVProg.
From S2P Require Import KVConc.
From S2P Require Import KVConcFile.
From S2P Require Import TopCalls.
From S2P Require Import FSTestConc.
From S2P Require Import MemSteps.
From S2P Require Import ConcLogic.

Local Open Scope string_scope.
#[local] Existing Instance simple_runtime.

Notation files_view := (files_at (ST := store) (R := fileRecord) (T := Mem.transaction)).
Notation calm_files := (calm_at files_view).

(** A file that anyone may read and write, with these bytes. *)
Definition a_file_of (o : option nat) (name : string) (c : list byte) (v : fview) : Prop :=
  exists l b, has_file o name l b 438 c v.

Section tasks.
Context (touch : nat -> string -> Prop) (i : nat) (Rel : fview -> fview -> Prop).
Context (HR : forall v v', Rel v v' -> moves touch (fun j => j <> i) v v').
Context (name : string) (o : option nat) (Ho : o = Some i \/ o = None).
Context (Hname : top name) (Hbase : Base name = name).
Context (n : nat) (ts : list (test W)) (sk : list (gmap string unit)) (tb : TB).
Notation fs := (Other (2 * n)).
Notation task := (safe (calm_files n ts sk) Rel (moves touch (eq i))).
Notation HG := (moves_nothing touch i).

Lemma stable_mine l b c : stable Rel (has_file o name l b 438 c).
Proof. apply (kept_file touch i Rel HR name l 438 o Ho b c). Qed.
#[local] Hint Resolve stable_mine : go_stable.
Lemma stable_file_of c : stable Rel (a_file_of o name c).
Proof. apply stable_ex. intros l. apply stable_ex. auto with go_stable. Qed.
#[local] Hint Resolve stable_file_of : go_stable.

(** It is enough to know where the file is. *)
Lemma task_at c c' k (p : prog (suite W) unit) :
  (forall l b, task (fun _ v => exists b', has_file o name l b' 438 c' v) (S k) (has_file o name l b 438 c) p) ->
  task (fun _ => a_file_of o name c') (S k) (a_file_of o name c) p.
Proof.
  intros Hp. apply safe_ex; [apply stable_file_of|]. intros l.
  apply safe_ex; [apply stable_ex; auto with go_stable|]. intros b.
  eapply safe_post; [done| |apply Hp]. intros a v Hv. by exists l.
Qed.

Section file.
Context (l : nat).
Notation file := (has_file o name l).

(** The file is opened, and the rest of the task uses it. *)
Lemma open_then b c flag perm k (Q : unit -> fview -> Prop) (h : option mem_file * err -> prog (suite W) unit) :
  has_flag flag FlagCreate = false -> has_flag flag FlagTruncate = false ->
  (forall fd, opened name l 438 (length c) fd -> plain fd ->
     task Q (S k) (file b 438 c) (h (Some (MkMemFile n (open_kind flag) (opened_file fd 0 flag)), None))) ->
  task Q (2 + S k) (file b 438 c) (pbind (psys (step_OpenFile fs name flag perm)) h).
Proof.
  intros Hcr Htr Hh. eapply psafe_bind.
  - apply (opened_safe files_view n ts sk Rel _ (fun fd => opened name l 438 (length c) fd /\ plain fd)
      (open_kind flag) flag 2 _ (file b 438 c)); [auto with go_stable|].
    apply (OpenFile_there touch i Rel name l 438 o b c flag perm); [auto with go_stable|done|apply Hname|done..].
  - intros [f e]. apply safe_assume; [auto with go_stable|]. intros (fd & [= -> ->] & Hop & Hpl). by apply Hh.
Qed.

Lemma close_then (P : fview -> Prop) fd off kd flag :
  stable Rel P -> task (fun _ => P) 2 P (close_open tb (Some (MkMemFile n kd (opened_file fd off flag)))).
Proof.
  intros HP. apply (close_task_safe files_view n ts sk Rel _ HG tb P _ flag); [done|done|]. by exists fd, off.
Qed.

Notation checked := (holds_then files_view n ts sk Rel (moves touch (eq i)) HG).

Lemma read_task_run b (c := bytes_of "hello world") :
  task (fun _ => file b 438 c) 21 (file b 438 c) (read_task tb fs name).
Proof.
  apply (open_then b c FlagReadOnly 0 18); [done..|]. intros fd Hop Hpl.
  apply (checked _ 18 _ _ true); [auto with go_stable|done|].
  apply (on_open_then files_view n ts sk Rel _ 
    (fun r v => (r.1 = (bytes_of "hello", None) /\ exists fd off, r.2 = opened_file fd off FlagReadOnly) /\
       file b 438 c v) _ 13 4); [done|auto with go_stable|..].
  - eapply safe_post; [done| |apply (Read_open touch i Rel HR name l 438 o Ho b c fd 0 FlagReadOnly 5); [done|lia..|int64]].
    intros r v [[Er (fd' & Ef & _)] Hv]. split; [|done]. split; [done|by eexists _, _].
  - intros [p e] f'. apply safe_assume; [auto with go_stable|]. cbn [fst snd]. intros [[= -> ->] (fd' & off & ->)].
    apply (checked _ 4 _ _ true); [auto with go_stable|done|].
    apply (checked _ 3 _ _ true); [auto with go_stable|done|].
    apply (checked _ 2 _ _ true); [auto with go_stable|done|].
    apply close_then. auto with go_stable.
Qed.

Lemma stat_task_run b : task (fun _ => file b 438 []) 11 (file b 438 []) (stat_task tb fs name).
Proof.
  apply (open_then b [] FlagReadOnly 0 8); [done..|]. intros fd Hop Hpl.
  apply (checked _ 8 _ _ true); [auto with go_stable|done|].
  apply (on_open_then files_view n ts sk Rel _ 
    (fun r v => (r.2 = opened_file fd 0 FlagReadOnly /\
       exists t, r.1 = (Some (MkInfo name 0 438 t), None)) /\ file b 438 [] v) _ 4 3); [done|auto with go_stable|..].
  - eapply safe_post; [done| |apply (Stat_open touch i Rel name l 438 o
        (fun n s m t e => (Some (MkInfo n s m t), e)) b [] fd 0 FlagReadOnly (file b 438 [])); [auto with go_stable|done..]].
    intros r v (Hv & Hf & t & Er). rewrite Hbase in Er. split; [|done]. split; [done|by exists t].
  - intros [info e] f'. apply safe_assume; [auto with go_stable|]. cbn [fst snd]. intros [-> (t & [= -> ->])].
    apply (checked _ 3 _ _ true); [auto with go_stable|done|].
    apply (checked _ 2 _ _ true); [auto with go_stable| |].
    { intros s. unfold assert.Equal. by rewrite bool_decide_true. }
    apply close_then. auto with go_stable.
Qed.

Lemma write_task_run b c :
  touch i name -> may_write i o c (bytes_of "hello") 0 ->
  task (fun _ v => exists b', file b' 438 (write_at c 0 (bytes_of "hello")) v) 28 (file b 438 c) (write_task tb fs name).
Proof.
  intros Htouch Hmay. apply (open_then b c FlagWriteOnly 0 25); [done..|]. intros fd Hop Hpl.
  assert (HP : stable Rel (fun v => exists b', file b' 438 (write_at c 0 (bytes_of "hello")) v)) by auto with go_stable.
  apply (checked _ 25 _ _ tt); [auto with go_stable|done|].
  apply (on_open_then files_view n ts sk Rel _ 
    (fun r v => (r.1 = (5%Z, None) /\ exists fd off, r.2 = opened_file fd off FlagWriteOnly) /\
       exists b', file b' 438 (write_at c 0 (bytes_of "hello")) v) _ 20 4); [done|auto with go_stable|..].
  - pose proof (Write_open touch i Rel HR name l 438 o Ho (proj1 Hname) eq_refl Htouch b c fd 0 FlagWriteOnly
      (bytes_of "hello")) as Hwrite. cbv zeta in Hwrite.
    change (has_flag FlagWriteOnly FlagAppend) with false in Hwrite. change (Z.to_nat 0) with 0 in Hwrite.
    eapply safe_post; [done| |apply Hwrite; [exact Hop|exact Hmay|done|done|done]].
    intros r v [[Er (fd' & Ef & _)] Hv]. split; [|done]. split; [exact Er|by eexists _, _].
  - intros [m e] f'. apply safe_assume; [auto with go_stable|]. cbn [fst snd]. intros [[= -> ->] (fd' & off & ->)].
    apply (checked _ 4 _ _ tt); [done|done|].
    apply (checked _ 3 _ _ true); [done|done|].
    apply (checked _ 2 _ _ true); [done|done|].
    by apply close_then.
Qed.
End file.

Lemma read_task_safe (c := bytes_of "hello world") :
  task (fun _ => a_file_of o name c) 21 (a_file_of o name c) (read_task tb fs name).
Proof.
  apply task_at. intros l b. eapply safe_post; [done| |apply read_task_run]. intros a v Hv. by exists b.
Qed.
Lemma stat_task_safe : task (fun _ => a_file_of o name []) 11 (a_file_of o name []) (stat_task tb fs name).
Proof.
  apply task_at. intros l b. eapply safe_post; [done| |apply stat_task_run]. intros a v Hv. by exists b.
Qed.
(** The file is the goroutine's, or it has the bytes already. *)
Lemma write_task_safe c :
  touch i name -> may_write i o c (bytes_of "hello") 0 ->
  task (fun _ => a_file_of o name (write_at c 0 (bytes_of "hello"))) 28 (a_file_of o name c) (write_task tb fs name).
Proof. intros Htouch Hmay. apply task_at. intros l b. by apply write_task_run. Qed.
End tasks.
