(* ===== verification/FileConform.v ===== *)
(** * [mem.FS] passes the concurrent tests of files

    The tests of [file_concurrent.go] on a memory file system: whatever the
    schedule, none of them fails or is skipped.  The files are made by calls in a
    row; then the goroutines work on them, each on its own or all on one. *)
From S2P Require Import Prelude.
From S2P Require Import Paths.
From S2P Require Import Errors.
From S2P Require Import Modes.
From S2P Require Import Blob.
From S2P Require Import BlobSpec.
From S2P Require Import Record.
From S2P Require Import Txn.
From S2P Require Import KVFile.
From S2P Require Import KVFS.
From S2P Require Import Mem.
From S2P Require Import StoreSpec.
From S2P Require Import MemSpec.
From S2P Require Import FSSpec.
From S2P Require Import TreeFS.
From S2P Require Import TreeOps.
From S2P Require Import FileSpec.
From S2P Require Import FileIO.
From S2P Require Import KVThms.
From S2P Require Import HackFS.
From S2P Require Import Mount.
From S2P Require Import Conc.
From S2P Require Import Testing.
From S2P Require Import FSTest.
From S2P Require Import FSTestFS.
From S2P Require Import FSTestFile.
From S2P Require Import MemHack.
From S2P Require Import Conform.
From S2P Require Import Prog.
From S2P Require Import Sched.
From S2P Require Import KVProg.
From S2P Require Import KVConc.
From S2P Require Import KVConcFile.
From S2P Require Import TopCalls.
From S2P Require Import FSTestConc.
From S2P Require Import MemSteps.
From S2P Require Import ConcLogic.
From S2P Require Import ConcConform.
From S2P Require Import FileTasks.

Local Open Scope string_scope.
#[local] Existing Instance simple_runtime.

Notation mem_state := (calm_at (fs_state (ST := store) (R := fileRecord) (T := Mem.transaction))).
Implicit Types (s : suite W) (n : nat) (tb : TB) (ns : nodes) (v : fview).

(** ** The files before the tests *)

(** A file that anyone may read and write, with these bytes. *)
Definition shows (name : string) (c : list byte) ns : Prop := exists mt, ns !! name = Some (MkNode 438 mt c).
Definition as_it_was (x y : option node) : Prop :=
  match x with
  | None => y = None
  | Some nd => exists mt, y = Some (MkNode (n_mode nd) mt (n_data nd))
  end.
Definition others_as_before (name : string) ns ns' : Prop := forall p, p <> name -> as_it_was (ns !! p) (ns' !! p).

(** The nodes that a view stands for. *)
Definition fnodes v : nodes := view (fv_heap v) (fv_tree v).
Lemma fnodes_state (w : MW) v : files_view w v -> fs_state w (fnodes v).
Proof. intros [Hat Hh _ _]. exists (fv_tree v). split; [done|]. unfold fnodes. by rewrite Hh. Qed.
Lemma file_node o name l b mode c v :
  has_file o name l b mode c v -> exists mt, fnodes v !! name = Some (MkNode mode mt c).
Proof.
  intros [[mt Ht] [[Hb _] [_ (_ & _ & _ & Hd)]]]. exists mt. unfold fnodes. rewrite view_lookup, Ht. simpl.
  unfold to_node, blob_bytes. simpl. by rewrite (contents_Some _ _ _ Hb), Hd.
Qed.

Section prepare.
Context (n : nat) (ts : list (test W)) (sk : list (gmap string unit)).

(** What is at a path that belongs to nobody. *)
Definition nobodys (x : option node) p v : Prop :=
  match x with
  | None => fv_tree v !! p = None
  | Some nd => exists l b, has_file None p l b (n_mode nd) (n_data nd) v
  end.
Lemma nobodys_stable touch who x p : stable (moves touch who) (nobodys x p).
Proof.
  destruct x as [nd|]; simpl.
  - apply stable_ex. intros l. apply stable_ex. intros b. by apply stable_file.
  - intros v v' Hv Hm. simpl in Hv |- *.
    destruct (mv_entry _ _ _ _ Hm p) as [->|(? & ? & ? & _ & _ & He & _)]; [done|congruence].
Qed.
Lemma nobodys_node x p v : nobodys x p v -> as_it_was x (fnodes v !! p).
Proof.
  destruct x as [nd|]; simpl; [intros (l & b & Hf); by eapply file_node|].
  intros Et. unfold fnodes. by rewrite view_lookup, Et.
Qed.

(** Making a file. *)
Lemma open_new_run name flag perm (w : MW) ns :
  fs_state w ns -> ValidPath name = true -> ns !! name = None -> is_Some (ns !! Dir name) ->
  has_flag flag FlagCreate = true ->
  exists fd w' t e, FS_OpenFile name flag perm w =
      (Ret (Some (MkHandle (open_kind flag) (opened_file fd 0 flag)), None), w') /\
    fs_at w' t /\ t !! name = Some e /\ handle_of w' name e fd /\
    view (w_heap w') t = <[name := MkNode (Z.land perm ModePerm) (w_now w) []]> ns.
Proof.
  intros (t & Hat & ->) Hv Hn [pn Hp] Hcr.
  destruct (OpenFile_at name flag perm w t Hat) as (h & w' & t' & E & Hat' & _ & Hview & Hh).
  { intros [e He]. by rewrite view_lookup, He in Hn. }
  assert (Es : spec_OpenFile missing_err (w_now w) name flag perm (view (w_heap w) t) =
    (None, <[name := MkNode (Z.land perm ModePerm) (w_now w) []]> (view (w_heap w) t))).
  { unfold spec_OpenFile, spec_get. by rewrite Hv, Hn, Hcr, Hp. }
  rewrite Es in *. destruct (Hh eq_refl) as (fd & e & He & Ho & ->). by exists fd, w', t', e.
Qed.

(** Writing it, by the rules for one goroutine and no other. *)
Lemma write_new_run name flag (w : MW) t e fd data :
  fs_at w t -> t !! name = Some e -> handle_of w name e fd -> ValidPath name = true ->
  e_mode e = 438%Z -> blob_bytes (w_heap w) (e_data e) = [] ->
  has_flag flag FlagAppend = false -> is_int64 (Z.of_nat (length data)) ->
  exists fd' off' w' ns', from_bytes data Write (opened_file fd 0 flag, w) =
      (Ret (Z.of_nat (length data), None), (opened_file fd' off' flag, w')) /\
    fs_state w' ns' /\ shows name data ns' /\ others_as_before name (view (w_heap w) t) ns'.
Proof.
  intros Hat Et Ho Hv Hmode Hempty Happ Hi64. set (ns := view (w_heap w) t). set (v := owned_view [name] t (w_heap w)).
  pose proof (at_live _ _ Hat name e Et) as Hlive. destruct e as [d mode mt]. simpl in Hmode, Hempty, Hlive. subst mode.
  destruct d as [l|]; [|done].
  pose proof (owned_view_at [name] t (w_heap w) w Hat eq_refl) as Hw.
  destruct (owned_view_file [name] t (w_heap w) w Hat eq_refl name l 438 mt Et) as [b Hf]. rewrite Hempty in Hf.
  assert (Eo : owner [name] name = Some 0) by (unfold owner; simpl; by rewrite decide_True).
  rewrite Eo in Hf. set (touch := fun (_ : nat) p => p = name).
  assert (Hothers : forall p, p <> name -> nobodys (ns !! p) p v).
  { intros p Hp. unfold ns. rewrite view_lookup. destruct (t !! p) as [e'|] eqn:Ep; [|done].
    pose proof (at_live _ _ Hat p e' Ep) as Hl'. destruct e' as [[l'|] mode' mt']; [|done].
    destruct (owned_view_file [name] t (w_heap w) w Hat eq_refl p l' mode' mt' Ep) as [b' Hf'].
    assert (Eo' : owner [name] p = None) by (unfold owner; simpl; by rewrite decide_False).
    rewrite Eo' in Hf'. by exists l', b'. }
  pose proof (handle_opened name l 438 (Some 0) w v b [] mt fd Hw Hf Ho) as Hop.
  pose proof (Write_open touch 0 (fun _ _ => False) ltac:(done) name l 438 (Some 0) (or_introl eq_refl) Hv eq_refl
    eq_refl b [] fd 0 flag data) as Hwrite. cbv zeta in Hwrite. rewrite Happ in Hwrite.
  destruct (safe_alone _ _ _ _ (fun v => forall p, p <> name -> nobodys (ns !! p) p v) _ _ _ w v
    (fun v v' Hv Hm p Hp => nobodys_stable touch (eq 0) (ns !! p) p v v' (Hv p Hp) Hm)
    (Hwrite Hop (or_introl eq_refl) ltac:(lia) Hi64 Hi64) Hw Hf Hothers)
    as ([r f'] & w' & v' & E & Hw' & [[Hr (fd' & Ef & _)] [b' Hf']] & Hothers').
  cbn [fst snd] in Hr, Ef. subst r f'.
  eexists fd', _, w', (fnodes v'). split_and!.
  - assert (Hlike : like (p <~ atomic (in_world (in_heap (make_slice data))) ;; Write_p p) (from_bytes data Write)).
    { apply like_pbind; [apply like_atomic|]. intros p. apply Write_p_like. }
    pose proof (like_pvar (opened_file fd 0 flag) _ _ Hlike w) as Hrun. rewrite E in Hrun. unfold on_var in Hrun.
    destruct (from_bytes data Write (opened_file fd 0 flag, w)) as [[a|?| |] [x w2]]; try done.
    by injection Hrun as <- <- <-.
  - by apply fnodes_state.
  - assert (Hc : write_at [] (Z.to_nat 0) data = data) by apply write_at_nil. rewrite Hc in Hf'.
    by eapply file_node.
  - intros p Hp. by apply nobodys_node, Hothers'.
Qed.
End prepare.

(** *** The calls that make the files *)
Section calls.
Context (n : nat) (ts : list (test W)) (sk : list (gmap string unit)).
Notation fs := (Other (2 * n)).

Lemma just_no_result {U} (m : M U err) u : just_err (no_result m) u = m u.
Proof. unfold just_err, no_result, bind. by destruct (m u) as [[?|?| |] ?]. Qed.

(** A file is made by [m], and everything else is as it was. *)
Definition prepares (c : list byte) (m : FS -> string -> M (suite W) unit) : Prop :=
  forall s ns name, mem_state n ts sk s ns -> top name -> ns !! name = None -> is_Some (ns !! ".") ->
  exists s' ns', m fs name s = (Ret tt, s') /\ mem_state n ts sk s' ns' /\
    shows name c ns' /\ others_as_before name ns ns'.

Lemma prepares_create tb : prepares [] (create_file tb).
Proof.
  intros s ns name [[Ht Hk] (w & Hw & Hv)] (Hvp & _ & Hd) Hn Hr.
  destruct (open_new_run name create_flags 438 w ns Hv Hvp Hn) as (fd & w' & t & e & E & Hat & Et & Ho & Hview);
    [by rewrite Hd|done|].
  destruct (on_system_run n (FS_OpenFile name create_flags 438) (s_sys s) w _ w' Hw E) as [Eu Hw'].
  set (h := MkHandle (open_kind create_flags) (opened_file fd 0 create_flags)) in *.
  destruct (open_and_close n ts sk fs_state tb h fd create_flags
    (MkSuite (put_system n w' (s_sys s)) (s_tests s) (s_log s) (s_skips s)) (view (w_heap w') t))
    as (s2 & E2 & Hs2); [split; [done|]; exists w'; split; [done|]; by exists t|done|].
  exists s2, (view (w_heap w') t). split_and!; [|done|..].
  - unfold create_file. rewrite <- E2. unfold hackpadfs.Create. rewrite Create_eq.
    unfold bind at 1, sys at 1, zoom at 1. rewrite (bind_Ret _ _ _ _ _ Eu). reflexivity.
  - eexists. rewrite Hview, lookup_insert_eq. reflexivity.
  - intros p Hp. rewrite Hview, lookup_insert_ne by done. destruct (ns !! p) as [[]|]; [by eexists|done].
Qed.

Definition full_flags : Z := Z.lor FlagWriteOnly (Z.lor FlagCreate FlagTruncate).

Lemma WriteFullFile_eq name data perm u :
  HackFS.WriteFullFile env_methods env_fuel fs name data perm u =
  (r <- on_system n (FS_OpenFile name full_flags perm) ;;
   let* (f, e) := new_handle n r in
   match e with
   | Some e => ret (Some e)
   | None =>
       not_nil f (fun f =>
         let* (_, e) := HackFS.WriteFile f data in
         closeErr <- f_Close f ;;
         ret (match e with Some e => Some e | None => closeErr end))
   end) u.
Proof.
  unfold HackFS.WriteFullFile, forward_err. change env_fuel with 20. cbn [forward]. rewrite mem_methods.
  trans (just_err (no_result (HackFS.write_full env_methods 20 data perm fs name)) u); [reflexivity|].
  rewrite just_no_result. unfold HackFS.write_full, HackFS.OpenFile. cbn [forward Z.eqb]. rewrite mem_methods.
  exact (bind_assoc _ _ _ u).
Qed.

Lemma prepares_full tb contents :
  is_int64 (Z.of_nat (length (bytes_of contents))) ->
  prepares (bytes_of contents) (fun fs name => FSTest.write_full tb fs name contents).
Proof.
  intros Hi64 s ns name [[Ht Hk] (w & Hw & Hv)] (Hvp & _ & Hd) Hn Hr. set (data := bytes_of contents) in *.
  destruct (open_new_run name full_flags 438 w ns Hv Hvp Hn) as (fd & w1 & t & e & E1 & Hat & Et & Ho & Hview);
    [by rewrite Hd|done|].
  destruct (on_system_run n (FS_OpenFile name full_flags 438) (s_sys s) w _ w1 Hw E1) as [Eu1 Hw1].
  set (h := MkHandle (open_kind full_flags) (opened_file fd 0 full_flags)) in *.
  destruct (new_handle_run n h _ w1 Hw1) as (i & u2 & Eu2 & Hopen).
  pose proof (f_equal (fun x : nodes => x !! name) Hview) as Hnew. cbv beta in Hnew.
  rewrite view_lookup, Et, lookup_insert_eq in Hnew.
  injection Hnew as Hmode _ Hempty.
  destruct (write_new_run name full_flags w1 t e fd data) as (fd' & off' & w3 & ns' & E3 & Hv3 & Hshow & Hothers);
    [done..|].
  destruct (on_handle_run n (from_bytes data Write) i h u2 w1 _ _ w3 Hopen E3) as (u3 & Eu3 & Hopen3).
  destruct (close_run n i _ fd' off' full_flags u3 w3 Hopen3 eq_refl) as (u4 & Eu4 & Hw4).
  exists (MkSuite u4 (s_tests s) (s_log s) (s_skips s)), ns'. split_and!; [|split; [done|by exists w3]|done|].
  - assert (Ew : sys (HackFS.WriteFullFile env_methods env_fuel fs name data 438) s =
      (Ret None, MkSuite u4 (s_tests s) (s_log s) (s_skips s))).
    { unfold sys, zoom. rewrite WriteFullFile_eq. run Eu1. run Eu2. cbv beta iota. cbn [not_nil].
      assert (Ewr : HackFS.WriteFile (as_file i (kind h)) data u2 = (Ret (Z.of_nat (length data), None), u3)) by exact Eu3.
      run Ewr. cbv beta iota. by run Eu4. }
    unfold FSTest.write_full, hackpadfs.WriteFullFile. change (octal "666") with 438%Z. by run Ew.
  - intros p Hp. specialize (Hothers p Hp). rewrite Hview, lookup_insert_ne in Hothers by done. exact Hothers.
Qed.

(** As many files as there are tasks. *)
Lemma prepare_each c (m : FS -> string -> M (suite W) unit) k s ns :
  prepares c m -> k <= 10 -> mem_state n ts sk s ns -> is_Some (ns !! ".") ->
  (forall i, i < 10 -> ns !! foo_i i = None) ->
  exists s' ns', for_each (seq 0 k) (fun i => m fs (foo_i i)) s = (Ret tt, s') /\
    mem_state n ts sk s' ns' /\ is_Some (ns' !! ".") /\
    (forall i, i < k -> shows (foo_i i) c ns') /\ forall i, k <= i < 10 -> ns' !! foo_i i = None.
Proof.
  intros Hm. induction k as [|k IH]; intros Hk Hs Hr Hnone.
  { exists s, ns. split_and!; [done|done|done|lia|]. intros i Hi. apply Hnone. lia. }
  destruct IH as (s1 & ns1 & E1 & Hs1 & Hr1 & Hold & Hnew); [lia|done..|].
  destruct (Hm s1 ns1 (foo_i k) Hs1 (top_foo_i k ltac:(lia)) (Hnew k ltac:(lia)) Hr1)
    as (s2 & ns2 & E2 & Hs2 & Hshow & Hothers).
  exists s2, ns2. split_and!; [by rewrite seq_S; eapply for_each_snoc|done|..].
  - destruct (top_foo_i k) as (_ & Hd & _); [lia|]. specialize (Hothers "." ltac:(done)).
    destruct Hr1 as [x Hx]. rewrite Hx in Hothers. destruct Hothers as [mt ->]. by eexists.
  - intros i Hi. destruct (decide (i = k)) as [->|Hik]; [done|]. destruct (Hold i ltac:(lia)) as [mt Hi1].
    specialize (Hothers (foo_i i) ltac:(by intros ?%foo_i_inj)). rewrite Hi1 in Hothers.
    destruct Hothers as [mt' Hi2]. by exists mt'.
  - intros i Hi. specialize (Hothers (foo_i i) ltac:(by intros ?%foo_i_inj; lia)).
    by rewrite (Hnew i ltac:(lia)) in Hothers.
Qed.
End calls.

(** ** Running the tasks *)
Definition everywhere (_ : nat) (_ : string) : Prop := True.
Definition nobody_else (v v' : fview) : Prop := False.
Notation others_move j := (moves everywhere (fun k => k <> j)).
Notation moves_by j := (moves everywhere (eq j)).

Lemma base_foo_i i : i < 10 -> Base (foo_i i) = foo_i i.
Proof. intros Hi. do 10 (destruct i as [|i]; [by vm_compute|]). lia. Qed.

(** The names of the tasks: goroutine [j] has the name of task [S j], and task 0
    runs as if it were goroutine 9. *)
Definition own_names : list string := ((fun j => foo_i (S j)) <$> seq 0 9) ++ [foo_i 0].
Lemma owner_own_names j : j < 9 -> owner own_names (foo_i (S j)) = Some j.
Proof. intros Hj. do 9 (destruct j as [|j]; [by vm_compute|]). lia. Qed.

Lemma shown_file names (w : MW) ns : fs_state w ns -> exists v, files_view w v /\
  forall name c, shows name c ns -> a_file_of (owner names name) name c v.
Proof.
  intros (t & Hat & ->). exists (owned_view names t (w_heap w)). split; [by apply owned_view_at|].
  intros name c [mt Hn]. rewrite view_lookup in Hn. apply fmap_Some in Hn as (e & Et & En).
  injection En as Em _ Ec. destruct e as [d mode mt']. simpl in *. subst mode c.
  pose proof (at_live _ _ Hat name _ Et) as Hl. destruct d as [l|]; [|done].
  destruct (owned_view_file names t (w_heap w) w Hat eq_refl name l 438 mt' Et) as [b Hf]. by exists l, b.
Qed.

(** The files may be told to be nobody's. *)
Lemma nobody_owns (w : MW) v : files_view w v ->
  exists v', files_view w v' /\ forall o name c, a_file_of o name c v -> a_file_of None name c v'.
Proof.
  intros Hw. exists (MkFV (fv_tree v) (fv_heap v) (fun _ => None) (fun _ => None)). split.
  - destruct Hw. split; [done|done|by intros ? []..].
  - intros o name c (l & b & He & Hu & _ & Hwf & Hs & _ & Hd). exists l, b. split; [done|].
    split; [done|]. split; [done|]. split_and!; [done|done|by right|done].
Qed.

Section tests.
Context `{!Scheduler} (mask : Z) (l : nat).
Notation o := (set_up mask l).
Notation fs_of n := (Other (2 * n)).

(** Files are made, and tasks work on them. *)
Lemma file_body_passes tb (prepare : FS -> M (suite W) unit) count (run : FS -> nat -> prog (suite W) unit)
    (Pre : nodes -> Prop) :
  (forall n ts sk s ns, mem_state n ts sk s ns -> is_Some (ns !! ".") -> (forall name, top name -> ns !! name = None) ->
     exists s' ns', prepare (fs_of n) s = (Ret tt, s') /\ mem_state n ts sk s' ns' /\ Pre ns') ->
  (forall n ts sk s ns, mem_state n ts sk s ns -> Pre ns ->
     exists s' v', concurrentTasks count (run (fs_of n)) s = (Ret tt, s') /\ calm_files n ts sk s' v') ->
  passes 0 tb (fs <- under_test o tb prepare ;; concurrentTasks count (run fs)).
Proof.
  intros Hprep Hrun s _. destruct (mem_TestFS_run tb s) as (n & s1 & v1 & E1 & [Hq (w & Hw & Hv)] & Hf).
  pose proof Hf as [(nd & En & _) _].
  destruct (Hprep n (s_tests s) (s_skips s) s1 (cnodes v1)) as (s2 & ns2 & E2 & Hs2 & Hpre).
  { split; [done|]. exists w. split; [done|]. exists (cv_tree v1). split; [apply Hv|]. unfold cnodes. by rewrite (av_heap w v1 Hv). }
  { rewrite En, lookup_singleton_eq. by eexists. }
  { intros name Ht. by apply (fresh_top v1 name Ht). }
  destruct (Hrun n _ _ s2 ns2 Hs2 Hpre) as (s3 & v3 & E3 & Hs3).
  exists s3. split; [|by apply (calm_grows files_view n s s3 v3)].
  by rewrite (bind_Ret _ _ _ _ _ (under_test_run mask l tb prepare n s s1 s2 E1 E2)).
Qed.

(** All on one file: after the first call nobody changes it. *)
Lemma one_file_passes tb (prepare : FS -> string -> M (suite W) unit) (task : FS -> prog (suite W) unit) K c c' :
  (forall n ts sk, prepares n ts sk c prepare) ->
  (forall n ts sk i o Rel, (forall v v', Rel v v' -> others_move i v v') -> o = Some i \/ o = None ->
     forall c0, c0 = c /\ o = Some i \/ c0 = c' ->
     safe (calm_files n ts sk) Rel (moves_by i) (fun _ => a_file_of o "foo" c') K (a_file_of o "foo" c0) (task (fs_of n))) ->
  K * 9 <= sched_fuel ->
  passes 0 tb (fs <- under_test o tb (fun fs => prepare fs "foo") ;; concurrentTasks 0 (fun _ => task fs)).
Proof.
  intros Hprep Htask Hfuel. apply (file_body_passes tb _ 0 (fun fs _ => task fs) (shows "foo" c)).
  - intros n ts sk s ns Hs Hr Hnone.
    destruct (Hprep n ts sk s ns "foo" Hs top_foo (Hnone "foo" top_foo) Hr) as (s' & ns' & ? & ? & ? & _).
    by exists s', ns'.
  - intros n ts sk s ns [Hq (w & Hw & Hv)] Hshow.
    destruct (shown_file ["foo"] w ns Hv) as (v & Hv' & Hfile).
    assert (Hfoo : owner ["foo"] "foo" = Some 0) by reflexivity.
    specialize (Hfile "foo" c Hshow). rewrite Hfoo in Hfile.
    apply (concurrentTasks_rule (calm_files n ts sk) (calm_files n ts sk) (moves_by 0) (fun j => others_move j)
      (fun j => moves_by j) K 0 (fun _ => task (fs_of n)) (a_file_of (Some 0) "foo" c) (a_file_of (Some 0) "foo" c')
      (fun _ => True) (fun _ => a_file_of None "foo" c') s v); try done.
    + split; [done|]. by exists w.
    + apply Htask; [done|by left|left; done].
    + intros s1 v1 [Hq1 (w1 & Hw1 & Hv1)] HQ _. destruct (nobody_owns w1 v1 Hv1) as (v2 & Hv2 & Hf2).
      exists v2. split; [split; [done|by exists w1]|]. intros j _. by apply (Hf2 (Some 0)).
    + intros i j v1 v2 Hij. apply moves_mono. by intros k <-.
    + intros j _. eapply safe_post; [done| |apply Htask; [done|by right|by right]]. done.
Qed.

(** Each on a file of its own. *)
Lemma own_files_pass tb (prepare : FS -> string -> M (suite W) unit) (task : FS -> string -> prog (suite W) unit) K c :
  (forall n ts sk, prepares n ts sk c prepare) ->
  (forall n ts sk i Rel name, (forall v v', Rel v v' -> others_move i v v') -> top name -> Base name = name ->
     safe (calm_files n ts sk) Rel (moves_by i) (fun _ _ => True) K (a_file_of (Some i) name c) (task (fs_of n) name)) ->
  K * 9 <= sched_fuel ->
  passes 0 tb (fs <- under_test o tb (fun fs => for_each (seq 0 10) (fun i => prepare fs (foo_i i))) ;;
               concurrentTasks 10 (fun i => task fs (foo_i i))).
Proof.
  intros Hprep Htask Hfuel.
  apply (file_body_passes tb _ 10 (fun fs i => task fs (foo_i i)) (fun ns => forall i, i < 10 -> shows (foo_i i) c ns)).
  - intros n ts sk s ns Hs Hr Hnone.
    destruct (prepare_each n ts sk c prepare 10 s ns (Hprep n ts sk)) as (s' & ns' & ? & ? & _ & Hall & _); try done.
    { intros i Hi. by apply Hnone, top_foo_i. }
    by exists s', ns'.
  - intros n ts sk s ns [Hq (w & Hw & Hv)] Hshow. destruct (shown_file own_names w ns Hv) as (v & Hv' & Hfile).
    set (theirs v := forall j, j < 9 -> a_file_of (Some j) (foo_i (S j)) c v).
    apply (concurrentTasks_rule (calm_files n ts sk) (calm_files n ts sk) (moves_by 9) (fun j => others_move j)
      (fun j => moves_by j) K 10 (fun i => task (fs_of n) (foo_i i)) (a_file_of (Some 9) (foo_i 0) c) (fun _ => True)
      theirs (fun j => a_file_of (Some j) (foo_i (S j)) c) s v).
    + split; [done|]. by exists w.
    + apply (Hfile (foo_i 0)), Hshow. lia.
    + intros j Hj. rewrite <- (owner_own_names j Hj). apply Hfile, Hshow. lia.
    + intros v1 v2 Hv1 Hm j Hj. destruct (Hv1 j Hj) as (l0 & b & Hf). exists l0, b.
      eapply stable_file; [|exact Hf|exact Hm]. intros k [= <-] <-. lia.
    + apply (safe_post _ _ _ (fun _ _ => True) _ K); [done..|].
      apply Htask; [done|apply top_foo_i; lia|apply base_foo_i; lia].
    + intros s1 v1 Hs1 _ HJ. by exists v1.
    + intros i j v1 v2 Hij. apply moves_mono. by intros k <-.
    + intros j Hj. simpl in Hj. apply Htask; [done|apply top_foo_i; lia|apply base_foo_i; lia].
    + done.
Qed.

(** *** The tests *)
Context (Hfuel : 252 <= sched_fuel).
Ltac two_subtests :=
  intros tb; apply (passes_seq 1 1); apply tbRun_passes; try done; clear tb; intros tb.

Lemma Read_passes tb : passes 2 tb (TestConcurrentFileRead tb o).
Proof.
  revert tb. two_subtests.
  - apply (one_file_passes tb (fun fs name => FSTest.write_full tb fs name "hello world") (fun fs => read_task tb fs "foo") 21
      (bytes_of "hello world") (bytes_of "hello world")); [intros n ts sk; by apply prepares_full| |lia].
    intros n ts sk i ow Rel HR Ho c0 Hc. assert (c0 = bytes_of "hello world") as -> by (by destruct Hc as [[-> _]| ->]).
    by apply read_task_safe; [..|apply top_foo].
  - apply (own_files_pass tb (fun fs name => FSTest.write_full tb fs name "hello world") (fun fs name => read_task tb fs name)
      21 (bytes_of "hello world")); [intros n ts sk; by apply prepares_full| |lia].
    intros n ts sk i Rel name HR Ht Hb. eapply safe_post; [done| |apply read_task_safe; [done|by left|done]]. done.
Qed.

Lemma Write_passes tb : passes 2 tb (TestConcurrentFileWrite tb o).
Proof.
  revert tb. two_subtests.
  - apply (one_file_passes tb (create_file tb) (fun fs => write_task tb fs "foo") 28 [] (bytes_of "hello"));
      [intros n ts sk; apply prepares_create| |lia].
    intros n ts sk i ow Rel HR Ho c0 Hc.
    assert (Hw : write_at c0 0 (bytes_of "hello") = bytes_of "hello") by by destruct Hc as [[-> _]| ->].
    eapply safe_post; [done| |apply write_task_safe; [done|done|apply top_foo|done|]].
    + intros a v Hv. by rewrite Hw in Hv.
    + destruct Hc as [[_ ->]| ->]; [by left|by right].
  - apply (own_files_pass tb (create_file tb) (fun fs name => write_task tb fs name) 28 []);
      [intros n ts sk; apply prepares_create| |lia].
    intros n ts sk i Rel name HR Ht Hb.
    eapply safe_post; [done| |apply write_task_safe; [done|by left|done|done|by left]]. done.
Qed.

Lemma Stat_passes tb : passes 0 tb (TestConcurrentFileStat tb o).
Proof.
  apply (one_file_passes tb (create_file tb) (fun fs => stat_task tb fs "foo") 11 [] []);
    [intros n ts sk; apply prepares_create| |lia].
  intros n ts sk i ow Rel HR Ho c0 Hc. assert (c0 = []) as -> by (by destruct Hc as [[-> _]| ->]).
  by apply stat_task_safe; [..|apply top_foo|].
Qed.

Lemma file_concurrent_passes tb : passes 7 tb (run_tasks o tb file_concurrent).
Proof.
  apply (passes_seq 3 4); [apply tbRun_passes; [done|apply Read_passes]|].
  apply (passes_seq 3 1); [apply tbRun_passes; [done|apply Write_passes]|].
  apply (passes_seq 1 0); [apply tbRun_passes; [done|apply Stat_passes]|].
  intros s _. exists s. split; [done|apply grows_none].
Qed.
End tests.


(** Everybody who is ready, in turns. *)
Definition by_turns : Scheduler := {| pick k := k; sched_fuel := 252 |}.
